(* ===== verification/_CoqProject ===== *)
-Q . S2P
Prelude.v
CMem.v
Ctype.v
CString.v
CStdlib.v
NkList.v
NkPriorityQueue.v
NkUnorderedMap.v
NkLibcxx.v
Errors.v
ResourceId.v
SpinLock.v
Tcb.v
Schedulers.v
TaskManager.v
KernelInv.v
KernelSpec.v
KernelProps.v
KernelRun.v
TaskTable.v
TaskLifecycle.v
Mutex.v
Csr.v
Riscv64.v
X86_64.v
Aarch64.v
Paging.v
VirtualMemory.v
VmInv.v
VmProps.v
VmBoot.v
VmCount.v
VmDestroy.v
VmClone.v
Libfdt.v
LibfdtRo.v
LibfdtSafe.v
LibfdtRoSafe.v
KernelFdt.v
KernelFdtSafe.v
FdtSpec.v
FdtNodes.v
FdtTree.v
FdtBlob.v
KernelFdtProps.v
FdtSample.v
TrapContext.v
Syscall.v
SyscallProps.v
Mmio.v
Plic.v
Uart.v
Interrupt.v
InterruptProps.v
IoApic.v
LocalApic.v
X86Interrupt.v
Gic.v
Aarch64Interrupt.v
NodeHeap.v
HeapLogic.v
NkRbTree.v
NkRbInv.v
NkRbInsert.v
NkRbErase.v
NkRbWalk.v
NkRbUnlink.v
NkRbClass.v
NkRbLookup.v
NkRbCopy.v
NkRbProps.v
NkVector.v
NkVectorInv.v
Bmalloc.v
BmallocProps.v
FirstFit.v
BumpPages.v
MemoryInit.v
LoadElf.v
KernelElf.v
