(* ===== verification/Prelude.v ===== *)
(** * NaiLong-Kernel: a verification development

    The program is a small kernel in C and C++ (src/src): a C library and a few
    containers of its own, error codes, spin locks and mutexes, a task manager
    with four schedulers, system calls, page tables, a device-tree reader, drivers
    for serial ports and interrupt controllers, and the trap handling that joins
    them.  It uses the libraries cpu_io (registers and page-table entries) and libfdt, whose sources
    are in src/3rd.  The development translates these parts to
    executable definitions and proves what makes them correct, and what keeps
    some of them from being so.

    ** Parts, files and how they fit together

    Foundations.
    - Prelude: machine integers ([wrap], [u64], ...), the monad [M] of state
      passing with early exit ([halt]: failed assertion, spinning guard, bad
      pointer, ...), tactics, list lemmas.
    - CMem, Ctype, CString, CStdlib: src/src/libc.  A byte memory in which an
      access outside the mapped bytes is an error; the ctype classes, the string
      and memory functions, the string-to-number family.  Loops run on fuel that
      the theorems show to be enough (the size of the memory bounds the length of
      a terminated string).
    - NkList, NkPriorityQueue, NkUnorderedMap: src/src/libcxx/include.  The
      linked list on a heap of nodes and the queue over it, the binary heap of
      std::push_heap and std::pop_heap, the chained hash table; each with a
      refinement to a list, a multiset with a minimum, a finite map.
    - NkLibcxx: src/src/libcxx/nk_libcxx.cpp, the C++ run time: the table of
      destructors, and the guards of static variables as functions and as a step
      relation over any number of cores.
    - NodeHeap, HeapLogic: pointer programs on a heap of objects, and a
      separation logic for them (Iris ghost maps) in which a proved program
      returns; [heap_adequacy] takes a proof out of the logic.
    - NkRbTree: nk_rb_tree and nk_set, every operation on a heap of nodes with
      parent pointers and a header node.  NkRbInv: trees, paths to a place in a
      tree, the colour invariant, ownership, rotations.  NkRbInsert, NkRbErase:
      the rebalancing loops.  NkRbWalk: iterators.  NkRbUnlink: taking a node
      out.  NkRbClass, NkRbLookup, NkRbCopy: the operations of the class.
      NkRbProps: the statements about plain heaps.
    - NkVector: nk_vector on a heap of blocks whose slots are raw storage or
      objects.  NkVectorInv: ownership of the block and the operations in the
      separation logic; then the statements about plain heaps.
    - Errors, ResourceId: src/src/include/expected.hpp,
      src/src/task/include/resource_id.hpp.

    Locks.
    - SpinLock: src/src/include/spinlock.hpp.  [Lock], [UnLock], [LockGuard] as
      functions, and their interleavings as a step relation over any number of
      cores, with an invariant proved by rule induction.
    - Mutex: src/src/task/mutex.cpp.  The calls on the kernel state and their
      interleavings over any number of tasks.

    The task manager.
    - Tcb: the control block of src/src/task/include/task_control_block.hpp, the
      heap of control blocks (a pointer is an address, a freed block is not in
      the heap), the thread-group list.
    - Schedulers: FIFO, round robin, idle and CFS behind the class
      [SchedulerOps] (SchedulerBase); the laws a ready queue must satisfy are the
      class [ReadyQueue], its clients are proved against the laws.
    - TaskManager: the state [Kernel] (control blocks, run queues, per-core
      records, task table, pid counter, interrupt flags, registers) and every
      operation of src/src/task/{schedule,sleep,block,wakeup,tick_update,exit,
      wait,clone,task_manager}.cpp.
    - KernelInv: the invariant [core_ok] that ties the status of a task to the
      one container that holds its pointer, the abstract run queue
      ([give_back], [take_next]) and the refinement of [Schedule] to it.
    - KernelSpec: the same for sleep, block, wake-up and tick.
    - KernelProps: the theorems about single operations, a sample kernel.
    - KernelRun: runs of a core as a step relation; progress, what holds
      across arbitrary interleavings of operations, and [tick_effects], what a
      timer tick does to the clock, the sleepers, the slice and the run queue.
    - TaskTable: initialisation of a core (which establishes the invariant),
      AddTask, the walks over the table.
    - TaskLifecycle: Exit, Wait, Clone.  What a caller of Wait may ask for is the
      type [Request], apart from the test in the code.

    Virtual memory.
    - Csr: the riscv64 control registers and their accessors
      (src/3rd/cpu_io/include/riscv64): a register file, the access
      instructions, fields, and what the kernel does with them.
    - Riscv64, X86_64, Aarch64: the three virtual_memory.hpp of cpu_io, the
      entry formats.  Paging: the class [Paging] with the laws [PagingLaws] that
      the page-table code relies on, and its three instances.
    - VirtualMemory: every operation of src/src/virtual_memory.cpp on tables in
      memory, over [Paging] and the class [PageAllocator] of the heap.
    - VmInv: the invariant of a directory (whole, unaliased, allocated tables)
      and the walk.  VmProps: mapping, look-up, unmapping as updates of the map
      [view]; a failure is tied to the heap: [refuses_within n] says that it
      refuses one of the next [n] requests, and the theorems bound [n].  VmBoot:
      MapMMIO, the constructor and InitCurrentCore, down to [mmu], which is Sv39
      written from the architecture manual and not from the driver (canonical
      addresses, the R/W/X leaf rule, superpage alignment, A/D bits).  VmDestroy,
      VmClone: destruction and copy.

    The kernel heap.
    - Bmalloc: malloc and its relatives of src/src/memory.cpp, the operators of
      src/src/libcxx/nk_new.cpp, and what is behind them in src/3rd/bmalloc: the
      classes Bmalloc and BumpAllocator, on byte memory.  BmallocProps: programs
      of heap calls, and the accesses of several cores as schedules.
    - FirstFit: the first-fit page allocator of src/3rd/bmalloc.
    - VmCount: how many pages a mapping asks for.  BumpPages: the heap as an
      instance of [PageAllocator].  MemoryInit: [MemoryInit] on riscv64, with the
      heap, the page tables on it and the MMU together.
    - LoadElf: the loader for user programs of
      src/src/task/task_control_block.cpp, over [Paging] and [PageAllocator].
    - KernelElf: src/src/kernel_elf.cpp and the backtraces of
      src/src/arch/*/backtrace.cpp, on byte memory.

    The device tree.
    - Libfdt, LibfdtRo: the reading functions of
      src/3rd/dtc/libfdt/{fdt,fdt_ro,fdt_check,fdt_addresses}.c on the byte
      memory of CMem.
    - LibfdtSafe, LibfdtRoSafe: they return on every blob that passes the header
      check, with every read inside the blob.
    - FdtSpec, FdtNodes, FdtTree, FdtBlob: the format as an encoding of tokens
      and of trees, and what the functions return on an encoded tree.
    - KernelFdt: src/src/kernel_fdt.cpp.  KernelFdtSafe: its queries return on
      every accepted blob.  KernelFdtProps: their results on a tree.  FdtSample:
      a sample tree, and a blob on which a query reads too far.

    System calls, drivers and traps.
    - TrapContext: the class of trap frames with the frames of riscv64 and
      aarch64 (context.hpp of cpu_io).
    - Syscall, SyscallProps: src/src/syscall.cpp and the entry [Syscall] of
      arch/{riscv64,aarch64}.  A call either answers or leaves its task switched
      away, with the answer it gives when it runs again.
    - Mmio: src/src/include/io.hpp over a class of devices; a driver is proved
      against the accesses its device promises.  Plic, Uart, IoApic, LocalApic, Gic:
      src/src/driver/{plic,ns16550a,pl011,apic,gic}; the two serial drivers are
      instances of the record [ConsoleDriver] with its contract [console_ok], against
      devices with the registers and flags of the data sheets ([ns16550_device],
      [pl011_device]); the local APIC has two paths to its registers, and what the
      chip does, with the numbers and reserved bits of the manual, is the record
      [apic_contract].
    - Interrupt, InterruptProps: src/src/arch/riscv64/{interrupt,interrupt_main,
      timer}.cpp.  The handlers call the system calls, the tick of the task
      manager, the interrupt controller and the serial port.
    - Aarch64Interrupt, X86Interrupt: the same for the two other architectures.
      What is left of a handler when the tick switches away waits on the stack of
      the interrupted task ([deferred] on aarch64, [left] on x86_64), so that the
      place of the end-of-interrupt write matters.

    ** What the theorems show

    Scheduling is a refinement of a priority run queue, never halts on a live
    core, wakes sleepers at their tick and blocked tasks at their wake-up, and
    starves no normal task.  The locks exclude under every interleaving.  The
    containers are the abstract structures they stand for; static variables are
    initialised once; the red-black tree stays
    balanced, keeps its iterators valid and is searched in logarithmic time.  The page-table
    operations update a map of pages, after boot the MMU maps physical memory to
    itself (given hardware that sets the A and D bits), destruction and copy account for every table, and the loader shows a program
    its segments.  The heap gives out disjoint
    blocks, and the memory comes up whenever it has room for the page tables.  The device-tree walk
    terminates inside the blob, reads back what was encoded, and the queries
    return what the tree says.  After the setup every trap reaches its handler, a
    timer trap is a tick of the kernel, a system call answers in the frame, and a
    futex waiter sleeps until the wake-up.  The drivers change exactly the register
    fields they mean to, and the serial drivers keep the console contract.  A stack dump
    names the callers.  Some theorems state
    defects of the code as it is: Exit deadlocks or uses freed memory, Clone
    never succeeds, a mutex wake-up can be lost, the boot flag is shared by the
    cores, UnLock reads a field after releasing the lock, a failed copy of a page
    directory leaks tables, aarch64 pages stay executable, the core count and
    the log of CheckPSCI can read past the blob, Wait without a child reports no
    error, a futex wake-up does not cross cores, a spurious external
    interrupt calls a null pointer, disabling one line of the GIC disables its
    group, a huge request moves the heap back over blocks in use, the heap has no
    lock, realloc never succeeds, in x2APIC mode the commands that start another
    processor lose their destination, on aarch64 a preemption leaves the timer
    interrupt active and the clock stops until the task comes back, the aarch64
    backtrace is empty, a hash table that was moved from divides by zero, two
    segments that share a page lose the first.

    ** Choices

    Integers are kept at their width where they can wrap (ticks, pids, counters,
    addresses).  The atomics are sequentially consistent in the interleavings.
    The inner loop of [Schedule] and the loops over links and sleepers have fuel
    equal to the size of what they traverse; running out is the halt [Diverges],
    which the theorems exclude.  The loops of the red-black tree have two more than the
    number of nodes.  Walks over a blob have the size of the memory as
    fuel; every turn moves on by a tag of four bytes or more, and
    [next_node_loop_returns] and its like show that this is enough.  Logging is left out except where its arguments
    are read from freed memory or past the end of a property.  Two idealisations of
    the containers: the counters of the hash table are unbounded, and [new] always
    finds memory for a node (the containers do not test its result; nk_vector, whose
    blocks can be refused, is the exception).

    ** Not modelled

    Floating-point conversions and printing, which only format; the slab and buddy
    allocators, which the kernel does not instantiate; ACPI (structures and a stub);
    boot code and the assembly of the exception entries; the parts of libfdt that
    write or fill a buffer, which the kernel does not call; std::make_heap in the
    constructors of priority_queue.  The page-directory
    copy and the answers of the heap (for the control block and for the stack) are
    parameters of [Clone].  The per-register branches of the riscv64 accessors are
    one case of the model.  Of sstatus the task manager
    sees the interrupt flag only. *)

From stdpp Require Import base numbers list gmap strings sorting.
From Stdlib Require Import ZArith Lia.

Local Open Scope Z_scope.

(** ** Machine integers

    A [w]-bit unsigned integer is a [Z] in [0, 2^w); every arithmetic result
    the C and C++ code leaves to modular arithmetic is passed through [wrap]. *)

Definition wrap (w x : Z) : Z := x mod 2 ^ w.

Definition u8 (x : Z) : Z := wrap 8 x.
Definition u32 (x : Z) : Z := wrap 32 x.
Definition u64 (x : Z) : Z := wrap 64 x.

(** Conversion of a [w]-bit pattern to the two's complement signed integer. *)
Definition to_signed (w x : Z) : Z :=
  let y := wrap w x in if y <? 2 ^ (w - 1) then y else y - 2 ^ w.

Definition s8 (x : Z) : Z := to_signed 8 x.
Definition s32 (x : Z) : Z := to_signed 32 x.
Definition s64 (x : Z) : Z := to_signed 64 x.

Definition UINT64_MAX : Z := 2 ^ 64 - 1.
Definition INT_MAX : Z := 2 ^ 31 - 1.

(** A C truth value used as an [int]. *)
Definition b2z (b : bool) : Z := if b then 1 else 0.

(** Pointers are addresses; [nullptr] is 0. *)
Abbreviation ptr := Z (only parsing).
Definition nullptr : ptr := 0.

(** ** Control that does not come back

    Kernel code leaves a function without returning in a few ways: an
    assertion prints and spins, a lock guard spins on a failed acquisition, a
    loop never terminates, or the code touches memory it does not own. *)

Inductive halt :=
| AssertFailed (msg : string)
| LockGuardSpin                (* LockGuard: Lock() failed, the guard spins *)
| SpinWait                     (* the lock is held by another core *)
| Parked                       (* while (true) Pause() with interrupts on *)
| Diverges                     (* a loop that makes no progress *)
| BadPointer (p : ptr)         (* dereference of a null, freed or wild pointer *)
| DivByZero.

#[export] Instance halt_eq_dec : EqDecision halt.
Proof. solve_decision. Defined.

Inductive outcome (S A : Type) :=
| Ret (s : S) (a : A)
| Halt (s : S) (why : halt).
Arguments Ret {S A} s a.
Arguments Halt {S A} s why.

(** State passing with early exit. *)
Definition M (S A : Type) : Type := S -> outcome S A.

Definition ret {S A} (a : A) : M S A := fun s => Ret s a.

Definition bind {S A B} (m : M S A) (k : A -> M S B) : M S B :=
  fun s => match m s with
           | Ret s' a => k a s'
           | Halt s' w => Halt s' w
           end.

Definition halt_with {S A} (w : halt) : M S A := fun s => Halt s w.
Definition gets {S A} (f : S -> A) : M S A := fun s => Ret s (f s).
Definition modify {S} (f : S -> S) : M S unit := fun s => Ret (f s) tt.

(** [nk_assert_msg(expr, msg)]: src/libc/include/nk_assert.h. *)
Definition nk_assert_msg {S} (b : bool) (msg : string) : M S unit :=
  fun s => if b then Ret s tt else Halt s (AssertFailed msg).

Definition when {S} (b : bool) (m : M S unit) : M S unit :=
  if b then m else ret tt.

Arguments ret {S A} a s /.
Arguments bind {S A B} m k s /.
Arguments halt_with {S A} w s /.
Arguments gets {S A} f s /.
Arguments modify {S} f s /.
Arguments nk_assert_msg {S} b msg s /.
Arguments when {S} b m : simpl nomatch.

Declare Scope nk_scope.
Delimit Scope nk_scope with nk.
Notation "'let*' x ':=' c 'in' k" := (bind c (fun x => k))
  (at level 10, x binder, c at level 200, k at level 200,
   format "'[v' 'let*'  x  ':='  c  'in' '/' k ']'") : nk_scope.
Notation "'let*' ' p ':=' c 'in' k" := (bind c (fun x => match x with p => k end))
  (at level 10, p pattern, c at level 200, k at level 200,
   only parsing) : nk_scope.
Open Scope nk_scope.

Lemma bind_ret_inv {S A B} (m : M S A) (k : A -> M S B) s s' b :
  bind m k s = Ret s' b ->
  exists s1 a, m s = Ret s1 a /\ k a s1 = Ret s' b.
Proof.
  unfold bind. destruct (m s) as [s1 a|s1 w] eqn:E; intros H; [|congruence].
  eauto.
Qed.

Lemma bind_assoc {S A B C} (m : M S A) (f : A -> M S B) (g : B -> M S C) s :
  bind (bind m f) g s = bind m (fun a => bind (f a) g) s.
Proof. unfold bind. by destruct (m s). Qed.

(** ** Tactics and hint databases *)

Create HintDb nk discriminated.
Create Rewrite HintDb nk.

(** Split every Boolean test of the goal or the hypotheses into the
    proposition it decides. *)
Ltac bool_cases :=
  repeat match goal with
  | H : _ && _ = true |- _ => apply andb_true_iff in H as [??]
  | H : _ || _ = false |- _ => apply orb_false_iff in H as [??]
  | H : negb _ = true |- _ => apply negb_true_iff in H
  | H : negb _ = false |- _ => apply negb_false_iff in H
  | H : (_ =? _) = true |- _ => apply Z.eqb_eq in H
  | H : (_ =? _) = false |- _ => apply Z.eqb_neq in H
  | H : (_ <? _) = true |- _ => apply Z.ltb_lt in H
  | H : (_ <? _) = false |- _ => apply Z.ltb_ge in H
  | H : (_ <=? _) = true |- _ => apply Z.leb_le in H
  | H : (_ <=? _) = false |- _ => apply Z.leb_gt in H
  | H : (_ =? _)%nat = true |- _ => apply Nat.eqb_eq in H
  | H : (_ =? _)%nat = false |- _ => apply Nat.eqb_neq in H
  | H : (_ <? _)%nat = true |- _ => apply Nat.ltb_lt in H
  | H : (_ <? _)%nat = false |- _ => apply Nat.ltb_ge in H
  | H : bool_decide _ = true |- _ => apply bool_decide_eq_true in H
  | H : bool_decide _ = false |- _ => apply bool_decide_eq_false in H
  end.

(** Case on the scrutinee of the outermost test of the goal. *)
Ltac step_if :=
  match goal with
  | |- context [if ?b then _ else _] => destruct b eqn:?; bool_cases
  end.

(** ** Shared lemmas: integers *)

Lemma wrap_range w x : 0 <= w -> 0 <= wrap w x < 2 ^ w.
Proof. intros. apply Z.mod_pos_bound, Z.pow_pos_nonneg; lia. Qed.

Lemma wrap_small w x : 0 <= x < 2 ^ w -> wrap w x = x.
Proof. apply Z.mod_small. Qed.

Lemma u64_small x : 0 <= x < 2 ^ 64 -> u64 x = x.
Proof. apply wrap_small. Qed.

Lemma u8_small x : 0 <= x < 256 -> u8 x = x.
Proof. apply (wrap_small 8). Qed.

Lemma s32_small x : 0 <= x < 2 ^ 31 -> s32 x = x.
Proof.
  intros Hx. unfold s32, to_signed. rewrite wrap_small by lia.
  destruct (Z.ltb_spec x (2 ^ (32 - 1))); lia.
Qed.

Lemma s32_large x : 2 ^ 31 <= x < 2 ^ 32 -> s32 x = x - 2 ^ 32.
Proof.
  intros Hx. unfold s32, to_signed. rewrite wrap_small by lia.
  destruct (Z.ltb_spec x (2 ^ (32 - 1))); lia.
Qed.

Lemma u64_range x : 0 <= u64 x < 2 ^ 64.
Proof. apply wrap_range. lia. Qed.

#[export] Hint Rewrite u64_small u8_small using lia : nk.

(** ** Shared lemmas: lists *)

Section lists.
Context {A B : Type}.
Implicit Types (l : list A) (k : list B).

Lemma Forall2_impl_in (P Q : A -> B -> Prop) l k :
  (forall x y, x ∈ l -> P x y -> Q x y) -> Forall2 P l k -> Forall2 Q l k.
Proof.
  intros H. induction 1 as [|x y l k HP HF IH]; constructor.
  - apply H; [set_solver|done].
  - apply IH. intros. apply H; [set_solver|done].
Qed.

Lemma removelast_elem l x : x ∈ removelast l -> x ∈ l.
Proof.
  induction l as [|y [|z l] IH]; intros H; [done|simpl in H; set_solver|].
  change (removelast (y :: z :: l)) with (y :: removelast (z :: l)) in H. set_solver.
Qed.

Lemma tail_elem l x : x ∈ tail l -> x ∈ l.
Proof. destruct l; [done|]. simpl. by right. Qed.

Lemma removelast_snoc l x : removelast (l ++ [x]) = l.
Proof. apply removelast_last. Qed.

Lemma last_elem l x : last l = Some x -> x ∈ l.
Proof. intros [l' ->]%last_Some. set_solver. Qed.

Lemma head_elem l x : head l = Some x -> x ∈ l.
Proof. destruct l; [done|]. intros [= ->]. set_solver. Qed.

Lemma last_cons_default x l : exists y, last (x :: l) = Some y.
Proof. revert x. induction l as [|z l IH]; intros x; [by exists x|]. apply (IH z). Qed.

Lemma head_app_default l x : exists y, head (l ++ [x]) = Some y.
Proof. destruct l; by eexists. Qed.

Lemma NoDup_last l x : NoDup l -> last l = Some x -> x ∉ removelast l.
Proof.
  induction l as [|y [|z l] IH]; intros Hn Hq; [done|simpl; set_solver|].
  apply NoDup_cons in Hn as [Hx Hn].
  change (removelast (y :: z :: l)) with (y :: removelast (z :: l)).
  rewrite not_elem_of_cons. split.
  - intros ->. apply Hx. by apply last_elem.
  - by apply IH.
Qed.

Lemma NoDup_head l x : NoDup l -> head l = Some x -> x ∉ tail l.
Proof. destruct l; [done|]. intros [? _]%NoDup_cons Hh. injection Hh as ->. done. Qed.

End lists.

(** List membership by propositional reasoning: much faster than [set_solver]
    when the context is large. *)
Ltac elem_tauto :=
  rewrite ?elem_of_cons, ?elem_of_app, ?elem_of_cons, ?elem_of_app, ?elem_of_cons,
    ?list_elem_of_singleton, ?elem_of_nil in *; first [tauto | intuition congruence].

(** A disequality of elements, by the memberships in the context. *)
Ltac elem_ne := let H := fresh in intros H; subst; elem_tauto.
