(* ===== verification/CMem.v ===== *)
(** * Byte memory

    The flat byte memory that the C library routines (src/src/libc) read and
    write: a finite map from addresses to bytes.  An access outside the map is
    undefined behaviour and stops the routine ([Fault]).  Loops that scan for a
    terminator run on the fuel [S (size m)]; [scan_bound] shows that a scan
    over consecutive mapped bytes never needs more. *)

From stdpp Require Import base numbers list gmap.
From Stdlib Require Import ZArith Lia.
From S2P Require Import Prelude.

Local Open Scope Z_scope.

Abbreviation mem := (gmap Z Z).

(** Result of running a routine over memory. *)
Inductive run (A : Type) :=
| Done (a : A)
| Fault            (* access outside the mapped bytes *)
| NoFuel.
Arguments Done {A} a.
Arguments Fault {A}.
Arguments NoFuel {A}.

Definition run_bind {A B} (r : run A) (k : A -> run B) : run B :=
  match r with Done a => k a | Fault => Fault | NoFuel => NoFuel end.

Definition of_opt {A} (o : option A) : run A :=
  match o with Some a => Done a | None => Fault end.

Notation "'let+' x ':=' c 'in' k" := (run_bind c (fun x => k))
  (at level 10, x binder, c at level 200, k at level 200) : nk_scope.

(** [*p] as an unsigned char, and [*p = b]. *)
Definition load8 (m : mem) (p : ptr) : run Z := of_opt (m !! p).

Definition store8 (m : mem) (p : ptr) (b : Z) : run mem :=
  match m !! p with Some _ => Done (<[p := b]> m) | None => Fault end.

(** A plain [char] is signed on the x86_64 target. *)
Definition char_of (b : Z) : Z := s8 b.

(** The bytes [bs] are stored from address [a] on. *)
Definition bytes_at (m : mem) (a : Z) (bs : list Z) : Prop :=
  forall i b, bs !! i = Some b -> m !! (a + Z.of_nat i) = Some b.

(** Writing [bs] from [a] on. *)
Fixpoint write_bytes (a : Z) (bs : list Z) (m : mem) : mem :=
  match bs with
  | [] => m
  | b :: bs' => write_bytes (a + 1) bs' (<[a := b]> m)
  end.

(** [n] mapped bytes from [a] on. *)
Definition mapped (m : mem) (a : Z) (n : nat) : Prop :=
  forall i, (i < n)%nat -> is_Some (m !! (a + Z.of_nat i)).

(** A NUL-terminated string: non-zero bytes [s] followed by a zero byte. *)
Definition cstr_at (m : mem) (a : Z) (s : list Z) : Prop :=
  bytes_at m a (s ++ [0]) /\ Forall (fun b => 0 < b < 256) s.

Section lemmas.
Implicit Types (m : mem) (a p : Z) (bs s : list Z).

Lemma bytes_at_nil m a : bytes_at m a [].
Proof. intros i b H. by rewrite lookup_nil in H. Qed.

Lemma bytes_at_cons m a b bs :
  bytes_at m a (b :: bs) <-> m !! a = Some b /\ bytes_at m (a + 1) bs.
Proof.
  split.
  - intros H. split.
    + specialize (H 0%nat b eq_refl). by rewrite Z.add_0_r in H.
    + intros i c Hi. specialize (H (S i) c Hi).
      by replace (a + 1 + Z.of_nat i) with (a + Z.of_nat (S i)) by lia.
  - intros [H1 H2] [|i] c Hi; simpl in Hi.
    + injection Hi as <-. by rewrite Z.add_0_r.
    + replace (a + Z.of_nat (S i)) with (a + 1 + Z.of_nat i) by lia. by apply H2.
Qed.

Lemma bytes_at_app m a bs1 bs2 :
  bytes_at m a (bs1 ++ bs2) <->
  bytes_at m a bs1 /\ bytes_at m (a + Z.of_nat (length bs1)) bs2.
Proof.
  revert a; induction bs1 as [|b bs1 IH]; intros a; simpl.
  - rewrite Z.add_0_r. pose proof (bytes_at_nil m a). tauto.
  - rewrite !bytes_at_cons, IH.
    replace (a + 1 + Z.of_nat (length bs1)) with (a + Z.of_nat (S (length bs1))) by lia.
    tauto.
Qed.

Lemma bytes_at_mapped m a bs : bytes_at m a bs -> mapped m a (length bs).
Proof.
  intros H i Hi. apply lookup_lt_is_Some in Hi as [b Hb]. exists b. by apply H.
Qed.

Lemma mapped_S m a n : mapped m a (S n) <-> is_Some (m !! a) /\ mapped m (a + 1) n.
Proof.
  split.
  - intros H. split.
    + specialize (H 0%nat ltac:(lia)). by rewrite Z.add_0_r in H.
    + intros i Hi. replace (a + 1 + Z.of_nat i) with (a + Z.of_nat (S i)) by lia.
      apply H. lia.
  - intros [H1 H2] [|i] Hi; [by rewrite Z.add_0_r|].
    replace (a + Z.of_nat (S i)) with (a + 1 + Z.of_nat i) by lia. apply H2. lia.
Qed.

Lemma mapped_insert m a n p b : mapped m a n -> mapped (<[p := b]> m) a n.
Proof.
  intros H i Hi. rewrite lookup_insert. case_decide; [eauto|]. by apply H.
Qed.

(** A run of mapped consecutive addresses is no longer than the memory. *)
Lemma scan_bound m a n : mapped m a n -> (n <= size m)%nat.
Proof.
  intros H.
  assert (list_to_set ((fun i : nat => a + Z.of_nat i) <$> seq 0 n) ⊆ dom m) as Hsub.
  { intros x. rewrite elem_of_list_to_set, list_elem_of_fmap.
    intros (i & -> & Hi). apply elem_of_dom, H. apply elem_of_seq in Hi. lia. }
  apply subseteq_size in Hsub. rewrite size_dom, size_list_to_set in Hsub.
  - by rewrite length_fmap, length_seq in Hsub.
  - apply NoDup_fmap_2; [intros x y ?; lia|apply NoDup_seq].
Qed.

Lemma write_bytes_lookup bs : forall m a p,
  write_bytes a bs m !! p =
  if decide (a <= p < a + Z.of_nat (length bs)) then bs !! Z.to_nat (p - a)
  else m !! p.
Proof.
  induction bs as [|b bs IH]; intros m a p; simpl write_bytes.
  - case_decide as D; [simpl in D; lia|done].
  - rewrite IH. cbn [length].
    destruct (decide (p = a)) as [->|Hne].
    + rewrite decide_False by lia. rewrite decide_True by lia.
      rewrite Z.sub_diag. simpl. by rewrite lookup_insert_eq.
    + case_decide as D.
      * rewrite decide_True by lia.
        replace (Z.to_nat (p - a)) with (S (Z.to_nat (p - (a + 1)))) by lia. done.
      * rewrite decide_False by lia. by rewrite lookup_insert_ne by lia.
Qed.

Lemma write_bytes_at m a bs : bytes_at (write_bytes a bs m) a bs.
Proof.
  intros i b Hi. rewrite write_bytes_lookup.
  pose proof (lookup_lt_Some _ _ _ Hi).
  rewrite decide_True by lia. by replace (Z.to_nat _) with i by lia.
Qed.

Lemma write_bytes_other m a bs p :
  ~ (a <= p < a + Z.of_nat (length bs)) -> write_bytes a bs m !! p = m !! p.
Proof. intros. rewrite write_bytes_lookup. by rewrite decide_False. Qed.

Lemma write_bytes_snoc m a bs b :
  write_bytes a (bs ++ [b]) m = <[a + Z.of_nat (length bs) := b]> (write_bytes a bs m).
Proof.
  revert m a; induction bs as [|c bs IH]; intros m a; simpl.
  - by rewrite Z.add_0_r.
  - rewrite IH. f_equal. lia.
Qed.

Lemma mapped_write_bytes m a n p bs : mapped m a n -> mapped (write_bytes p bs m) a n.
Proof.
  intros H i Hi. rewrite write_bytes_lookup. case_decide; [|by apply H].
  apply lookup_lt_is_Some. lia.
Qed.

Lemma cstr_at_nil m a : cstr_at m a [] <-> m !! a = Some 0.
Proof.
  unfold cstr_at. simpl. rewrite bytes_at_cons.
  pose proof (bytes_at_nil m (a + 1)). intuition (eauto using Forall_nil_2).
Qed.

Lemma cstr_at_cons m a b s :
  cstr_at m a (b :: s) <-> m !! a = Some b /\ 0 < b < 256 /\ cstr_at m (a + 1) s.
Proof.
  unfold cstr_at. simpl. rewrite bytes_at_cons, Forall_cons. tauto.
Qed.

Lemma cstr_at_size m a s : cstr_at m a s -> (length s < size m)%nat.
Proof.
  intros [H _]. apply bytes_at_mapped, scan_bound in H.
  rewrite length_app in H. simpl in H. lia.
Qed.

Lemma load8_Done m p b : m !! p = Some b -> load8 m p = Done b.
Proof. unfold load8. by intros ->. Qed.

Lemma store8_Done m p b : is_Some (m !! p) -> store8 m p b = Done (<[p := b]> m).
Proof. unfold store8. by intros [? ->]. Qed.

End lemmas.

#[export] Hint Rewrite Z.add_0_r : nk.
#[export] Hint Resolve mapped_insert mapped_write_bytes bytes_at_mapped : nk.

(** Decide [bytes_at], [cstr_at] and [mapped] on a concrete memory. *)
Ltac solve_bytes :=
  lazymatch goal with
  | |- bytes_at _ _ _ =>
      rewrite ?bytes_at_cons; repeat split; try apply bytes_at_nil; vm_compute; reflexivity
  | |- cstr_at _ _ _ => split; [cbn [app]; solve_bytes | repeat constructor; lia]
  | |- mapped _ _ ?n =>
      repeat (apply mapped_S; split; [vm_compute; eexists; reflexivity|]);
      intros ? ?; lia
  end.

(** ** Little-endian words *)

Fixpoint load_le (n : nat) (m : mem) (p : ptr) : option Z :=
  match n with
  | O => Some 0
  | S n' => b ← m !! p; hi ← load_le n' m (p + 1); Some (b + 256 * hi)
  end.

Fixpoint le_bytes (n : nat) (v : Z) : list Z :=
  match n with
  | O => []
  | S n' => v mod 256 :: le_bytes n' (v / 256)
  end.

Lemma le_bytes_length n : forall v, length (le_bytes n v) = n.
Proof. induction n as [|n IH]; intros v; cbn; [done|]. by rewrite IH. Qed.

Lemma load_le_mapped n m : forall p, is_Some (load_le n m p) <-> mapped m p n.
Proof.
  induction n as [|n IH]; intros p; cbn.
  - split; [|by eauto]. intros _ i Hi. lia.
  - rewrite mapped_S, <- IH. destruct (m !! p) as [b|]; cbn.
    + destruct (load_le n m (p + 1)) as [v|]; cbn; split; intros Hx; eauto. by destruct Hx.
    + split; [by intros [? ?]|]. by intros [[? ?] _].
Qed.

Lemma load_le_bytes n m : forall p v, bytes_at m p (le_bytes n v) -> 0 <= v < 256 ^ Z.of_nat n -> load_le n m p = Some v.
Proof.
  induction n as [|n IH]; intros p v Hb Hv; [cbn in *; f_equal; lia|].
  cbn [le_bytes load_le] in *. apply bytes_at_cons in Hb as [-> Hb]. cbn.
  rewrite (IH (p + 1) (v / 256) Hb).
  - cbn. f_equal. pose proof (Z.div_mod v 256). lia.
  - rewrite Nat2Z.inj_succ, Z.pow_succ_r in Hv by lia.
    split; [apply Z.div_pos; lia|apply Z.div_lt_upper_bound; lia].
Qed.

Lemma load_le_range n m : (forall a b, m !! a = Some b -> 0 <= b < 256) ->
  forall p v, load_le n m p = Some v -> 0 <= v < 256 ^ Z.of_nat n.
Proof.
  intros Hm. induction n as [|n IH]; intros p v; cbn [load_le]; [intros [= <-]; cbn; lia|].
  destruct (m !! p) as [b|] eqn:Eb; cbn; [|done]. destruct (load_le n m (p + 1)) as [hi|] eqn:Eh; cbn; [|done].
  intros [= <-]. specialize (Hm _ _ Eb). specialize (IH _ _ Eh).
  rewrite Nat2Z.inj_succ, Z.pow_succ_r by lia. lia.
Qed.
