(* ===== verification/Ctype.v ===== *)
(** * Character classification: src/src/libc/nk_ctype.c

    Each function takes an [int] and returns an [int] that is 0 or 1 (the
    value of a C relational expression) or, for [tolower]/[toupper], a
    character. *)

From stdpp Require Import base numbers list.
From Stdlib Require Import ZArith Lia.
From S2P Require Import Prelude.

Local Open Scope Z_scope.

Module Ctype.

(** Character constants of the source. *)
Definition c_0 : Z := 48.
Definition c_9 : Z := 57.
Definition c_A : Z := 65.
Definition c_F : Z := 70.
Definition c_Z : Z := 90.
Definition c_a : Z := 97.
Definition c_f : Z := 102.
Definition c_z : Z := 122.
Definition c_space : Z := 32.
Definition c_tab : Z := 9.
Definition c_nl : Z := 10.
Definition c_vt : Z := 11.
Definition c_ff : Z := 12.
Definition c_cr : Z := 13.

(** An [int] used as a condition. *)
Definition truthy (x : Z) : bool := negb (x =? 0).

Definition isblank (c : Z) : Z := b2z ((c =? c_space) || (c =? c_tab)).
Definition iscntrl (c : Z) : Z := b2z (((0 <=? c) && (c <=? 31)) || (c =? 127)).
Definition isdigit (c : Z) : Z := b2z ((c_0 <=? c) && (c <=? c_9)).
Definition isgraph (c : Z) : Z := b2z ((33 <=? c) && (c <=? 126)).
Definition islower (c : Z) : Z := b2z ((c_a <=? c) && (c <=? c_z)).
Definition isprint (c : Z) : Z := b2z ((32 <=? c) && (c <=? 126)).
Definition isupper (c : Z) : Z := b2z ((c_A <=? c) && (c <=? c_Z)).
Definition isalpha (c : Z) : Z := b2z (truthy (islower c) || truthy (isupper c)).
Definition isalnum (c : Z) : Z := b2z (truthy (isalpha c) || truthy (isdigit c)).
Definition ispunct (c : Z) : Z := b2z (truthy (isgraph c) && negb (truthy (isalnum c))).
Definition isspace (c : Z) : Z :=
  b2z ((c =? c_space) || (c =? c_ff) || (c =? c_nl) || (c =? c_cr) || (c =? c_tab)
       || (c =? c_vt)).
Definition isxdigit (c : Z) : Z :=
  b2z (truthy (isdigit c) || ((c_a <=? c) && (c <=? c_f)) || ((c_A <=? c) && (c <=? c_F))).
Definition tolower (c : Z) : Z := if truthy (isupper c) then c + (c_a - c_A) else c.
Definition toupper (c : Z) : Z := if truthy (islower c) then c - (c_a - c_A) else c.

(** Reading the classes as ranges. *)
Lemma truthy_b2z b : truthy (b2z b) = b.
Proof. by destruct b. Qed.

(** Decide a character goal: unfold every class and split its comparisons. *)
Ltac ctype :=
  unfold ispunct, isalnum, isalpha, isxdigit, isgraph, isprint, iscntrl, isspace,
    isblank, isdigit, islower, isupper, tolower, toupper in *;
  rewrite ?truthy_b2z in *;
  unfold c_0, c_9, c_A, c_F, c_Z, c_a, c_f, c_z, c_space, c_tab, c_nl, c_vt, c_ff,
    c_cr in *;
  repeat match goal with
  | |- context [?a <=? ?b] => destruct (Z.leb_spec a b); simpl
  | |- context [?a =? ?b] => destruct (Z.eqb_spec a b); simpl
  end;
  try lia; try done.

Lemma isdigit_spec c : truthy (isdigit c) = true <-> 48 <= c <= 57.
Proof. unfold isdigit, c_0, c_9. rewrite truthy_b2z, andb_true_iff, !Z.leb_le. done. Qed.

Lemma islower_spec c : truthy (islower c) = true <-> 97 <= c <= 122.
Proof. unfold islower, c_a, c_z. rewrite truthy_b2z, andb_true_iff, !Z.leb_le. done. Qed.

Lemma isupper_spec c : truthy (isupper c) = true <-> 65 <= c <= 90.
Proof. unfold isupper, c_A, c_Z. rewrite truthy_b2z, andb_true_iff, !Z.leb_le. done. Qed.

Lemma isalpha_spec c : truthy (isalpha c) = true <-> 97 <= c <= 122 \/ 65 <= c <= 90.
Proof.
  unfold isalpha. by rewrite truthy_b2z, orb_true_iff, islower_spec, isupper_spec.
Qed.

(** every 7-bit character is in exactly one of the four classes control,
    space, alphanumeric and punctuation, and no other [int] is in any of them;
    the printable characters are exactly the last three. *)
Theorem ctype_partition c :
  iscntrl c + b2z (c =? 32) + isalnum c + ispunct c =
    b2z ((0 <=? c) && (c <=? 127)) /\
  isprint c = b2z (c =? 32) + isalnum c + ispunct c /\
  isalnum c = isalpha c + isdigit c /\
  isalpha c = islower c + isupper c.
Proof. repeat split; ctype. Qed.

(** [tolower] and [toupper] move only letters, land in the other case,
    and undo each other on letters. *)
Theorem case_conversion c :
  (tolower c <> c <-> isupper c = 1) /\
  (toupper c <> c <-> islower c = 1) /\
  isupper (tolower c) = 0 /\ islower (toupper c) = 0 /\
  toupper (tolower c) = toupper c /\ tolower (toupper c) = tolower c /\
  isalpha (tolower c) = isalpha c /\ isalpha (toupper c) = isalpha c.
Proof.
  unfold tolower, toupper, isalpha, isupper, islower, c_A, c_Z, c_a, c_z.
  rewrite !truthy_b2z.
  destruct ((65 <=? c) && (c <=? 90)) eqn:U, ((97 <=? c) && (c <=? 122)) eqn:L;
    bool_cases; rewrite ?truthy_b2z;
    repeat match goal with
    | |- context [?a <=? ?b] => destruct (Z.leb_spec a b); simpl
    end; repeat split; intros; simpl in *; rewrite ?andb_false_r in *; simpl in *; try lia.
Qed.

End Ctype.
