(* ===== verification/CString.v ===== *)
(** * String and memory routines: src/src/libc/nk_string.c

    Every routine is the source's loop over the byte memory of [CMem].  A
    routine returns the new memory and the C return value; [size_t] counters
    count down exactly as the [n--] of the source does. *)

From stdpp Require Import base numbers list gmap.
From Stdlib Require Import ZArith Lia.
From S2P Require Import Prelude CMem.

Local Open Scope Z_scope.

Module CString.

(** ** Definitions *)

(** [while (n--) *d++ = *s++;] *)
Fixpoint copy_up (n : nat) (d s : ptr) (m : mem) : run mem :=
  match n with
  | O => Done m
  | S n' =>
      let+ b := load8 m s in
      let+ m' := store8 m d b in
      copy_up n' (d + 1) (s + 1) m'
  end.

(** [while (n--) *lastd-- = *lasts--;] *)
Fixpoint copy_down (n : nat) (lastd lasts : ptr) (m : mem) : run mem :=
  match n with
  | O => Done m
  | S n' =>
      let+ b := load8 m lasts in
      let+ m' := store8 m lastd b in
      copy_down n' (lastd - 1) (lasts - 1) m'
  end.

Definition memcpy (dest src : ptr) (n : Z) (m : mem) : run (mem * ptr) :=
  let+ m' := copy_up (Z.to_nat n) dest src m in Done (m', dest).

Definition memmove (dest src : ptr) (n : Z) (m : mem) : run (mem * ptr) :=
  let+ m' :=
    (if dest <? src then copy_up (Z.to_nat n) dest src m
     else copy_down (Z.to_nat n) (dest + (n - 1)) (src + (n - 1)) m) in
  Done (m', dest).

Fixpoint memset_loop (n : nat) (p : ptr) (val : Z) (m : mem) : run mem :=
  match n with
  | O => Done m
  | S n' => let+ m' := store8 m p (u8 val) in memset_loop n' (p + 1) val m'
  end.

Definition memset (dest : ptr) (val n : Z) (m : mem) : run (mem * ptr) :=
  let+ m' := memset_loop (Z.to_nat n) dest val m in Done (m', dest).

Fixpoint memcmp_loop (n : nat) (s1 s2 : ptr) (m : mem) : run Z :=
  match n with
  | O => Done 0
  | S n' =>
      let+ a := load8 m s1 in
      let+ b := load8 m s2 in
      if a =? b then memcmp_loop n' (s1 + 1) (s2 + 1) m
      else Done (if a <? b then -1 else 1)
  end.

Definition memcmp (str1 str2 : ptr) (n : Z) (m : mem) : run Z :=
  memcmp_loop (Z.to_nat n) str1 str2 m.

Fixpoint memchr_loop (n : nat) (src : ptr) (uc : Z) (m : mem) : run ptr :=
  match n with
  | O => Done nullptr
  | S n' =>
      let+ b := load8 m src in
      if b =? uc then Done src else memchr_loop n' (src + 1) uc m
  end.

Definition memchr (str : ptr) (c n : Z) (m : mem) : run ptr :=
  memchr_loop (Z.to_nat n) str (u8 c) m.

(** Loops that run to a NUL byte; [fuel] bounds the scan. *)

Fixpoint strcpy_loop (fuel : nat) (dest src : ptr) (m : mem) : run mem :=
  match fuel with
  | O => NoFuel
  | S f =>
      let+ b := load8 m src in
      let+ m' := store8 m dest b in
      if b =? 0 then Done m' else strcpy_loop f (dest + 1) (src + 1) m'
  end.

Definition strcpy (dest src : ptr) (m : mem) : run (mem * ptr) :=
  let+ m' := strcpy_loop (S (size m)) dest src m in Done (m', dest).

Fixpoint strlen_loop (fuel : nat) (s : ptr) (len : Z) (m : mem) : run Z :=
  match fuel with
  | O => NoFuel
  | S f =>
      let+ b := load8 m (s + len) in
      if b =? 0 then Done len else strlen_loop f s (len + 1) m
  end.

Definition strlen (s : ptr) (m : mem) : run Z := strlen_loop (S (size m)) s 0 m.

(** [while (n-- > 0 && *p) p++; return p - s;] *)
Fixpoint strnlen_loop (n : nat) (p : ptr) (m : mem) : run ptr :=
  match n with
  | O => Done p
  | S n' =>
      let+ b := load8 m p in
      if b =? 0 then Done p else strnlen_loop n' (p + 1) m
  end.

Definition strnlen (s : ptr) (n : Z) (m : mem) : run Z :=
  let+ p := strnlen_loop (Z.to_nat n) s m in Done (p - s).

Definition strncpy (dest src : ptr) (n : Z) (m : mem) : run (mem * ptr) :=
  let+ size := strnlen src n m in
  let+ m1 :=
    (if size =? n then Done m
     else let+ r := memset (dest + size) 0 (n - size) m in Done r.1) in
  memcpy dest src size m1.

(** The two loops of [strcat]: find the end of [dest], then append. *)
Fixpoint skip_string (fuel : nat) (p : ptr) (m : mem) : run ptr :=
  match fuel with
  | O => NoFuel
  | S f =>
      let+ b := load8 m p in
      if b =? 0 then Done p else skip_string f (p + 1) m
  end.

Fixpoint append_string (fuel : nat) (add_d src : ptr) (m : mem) : run (mem * ptr) :=
  match fuel with
  | O => NoFuel
  | S f =>
      let+ b := load8 m src in
      if b =? 0 then Done (m, add_d)
      else let+ m' := store8 m add_d b in append_string f (add_d + 1) (src + 1) m'
  end.

Definition strcat (dest src : ptr) (m : mem) : run (mem * ptr) :=
  if negb (dest =? 0) && negb (src =? 0) then
    let+ e := skip_string (S (size m)) dest m in
    let+ r := append_string (S (size m)) e src m in
    let+ m' := store8 r.1 r.2 0 in
    Done (m', dest)
  else Done (m, dest).

Fixpoint strcmp_loop (fuel : nat) (s1 s2 : ptr) (m : mem) : run Z :=
  match fuel with
  | O => NoFuel
  | S f =>
      let+ a := load8 m s1 in
      if a =? 0 then let+ b := load8 m s2 in Done (a - b)
      else
        let+ b := load8 m s2 in
        if a =? b then strcmp_loop f (s1 + 1) (s2 + 1) m else Done (a - b)
  end.

Definition strcmp (s1 s2 : ptr) (m : mem) : run Z :=
  strcmp_loop (S (size m)) s1 s2 m.

(** The [do .. while (--n != 0)] loop of [strncmp]. *)
Fixpoint strncmp_loop (n : nat) (s1 s2 : ptr) (m : mem) : run Z :=
  match n with
  | O => Done 0
  | S n' =>
      let+ a := load8 m s1 in
      let+ b := load8 m s2 in
      if negb (a =? b) then Done (a - b)
      else if a =? 0 then Done 0
      else strncmp_loop n' (s1 + 1) (s2 + 1) m
  end.

Definition strncmp (s1 s2 : ptr) (n : Z) (m : mem) : run Z :=
  if n =? 0 then Done 0 else strncmp_loop (Z.to_nat n) s1 s2 m.

Fixpoint strchr_loop (fuel : nat) (s : ptr) (ch : Z) (m : mem) : run ptr :=
  match fuel with
  | O => NoFuel
  | S f =>
      let+ b := load8 m s in
      if char_of b =? ch then Done s
      else if b =? 0 then Done nullptr
      else strchr_loop f (s + 1) ch m
  end.

Definition strchr (s : ptr) (c : Z) (m : mem) : run ptr :=
  strchr_loop (S (size m)) s (char_of c) m.

Fixpoint strrchr_loop (fuel : nat) (s : ptr) (ch : Z) (rtnval : ptr) (m : mem) : run ptr :=
  match fuel with
  | O => NoFuel
  | S f =>
      let+ b := load8 m s in
      let rtnval' := if char_of b =? ch then s else rtnval in
      if b =? 0 then Done rtnval' else strrchr_loop f (s + 1) ch rtnval' m
  end.

Definition strrchr (s : ptr) (c : Z) (m : mem) : run ptr :=
  strrchr_loop (S (size m)) s (char_of c) 0 m.

(** ** Copying *)

Section copying.
Implicit Types (m : mem) (bs : list Z).

(** Going up is right when the destination does not start inside the source
    after it: every byte is read before it is overwritten. *)
Lemma copy_up_spec bs : forall m d s,
  bytes_at m s bs -> mapped m d (length bs) ->
  d <= s \/ s + Z.of_nat (length bs) <= d ->
  copy_up (length bs) d s m = Done (write_bytes d bs m).
Proof.
  induction bs as [|b bs IH]; intros m d s Hs Hd Hov; simpl; [done|].
  apply bytes_at_cons in Hs as [Hb Hs]. apply mapped_S in Hd as [Hd0 Hd].
  rewrite (load8_Done _ _ _ Hb). simpl. rewrite store8_Done by done. simpl.
  apply IH; [|by apply mapped_insert|simpl in Hov; lia].
  intros i c Hi. pose proof (lookup_lt_Some _ _ _ Hi).
  simpl in Hov. rewrite lookup_insert_ne by lia. by apply Hs.
Qed.

Lemma copy_down_spec bs : forall m d s,
  bytes_at m s bs -> mapped m d (length bs) -> s <= d ->
  copy_down (length bs) (d + (Z.of_nat (length bs) - 1))
    (s + (Z.of_nat (length bs) - 1)) m = Done (write_bytes d bs m).
Proof.
  induction bs as [|b bs IH] using rev_ind; intros m d s Hs Hd Hov; [done|].
  rewrite length_app in *. cbn [length] in *. rewrite Nat.add_1_r in *. cbn [copy_down].
  apply bytes_at_app in Hs as [Hs Hb]. apply bytes_at_cons in Hb as [Hb _].
  replace (s + (Z.of_nat (S (length bs)) - 1)) with (s + Z.of_nat (length bs)) by lia.
  replace (d + (Z.of_nat (S (length bs)) - 1)) with (d + Z.of_nat (length bs)) by lia.
  rewrite (load8_Done _ _ _ Hb). cbn [run_bind].
  rewrite store8_Done by (apply Hd; lia). cbn [run_bind].
  replace (d + Z.of_nat (length bs) - 1) with (d + (Z.of_nat (length bs) - 1)) by lia.
  replace (s + Z.of_nat (length bs) - 1) with (s + (Z.of_nat (length bs) - 1)) by lia.
  rewrite IH; [|intros i c Hi|intros i Hi|lia].
  - f_equal. rewrite write_bytes_snoc. apply map_eq. intros p.
    rewrite write_bytes_lookup, !lookup_insert, write_bytes_lookup.
    repeat case_decide; try lia; done.
  - pose proof (lookup_lt_Some _ _ _ Hi). rewrite lookup_insert_ne by lia. by apply Hs.
  - rewrite lookup_insert. case_decide; [eauto|]. apply Hd. lia.
Qed.

(** [memmove] moves the [n] bytes at [src] to [dest] for every overlap of
    the two regions, changes no other byte and returns [dest]. *)
Theorem memmove_correct m dest src bs :
  bytes_at m src bs -> mapped m dest (length bs) ->
  memmove dest src (Z.of_nat (length bs)) m = Done (write_bytes dest bs m, dest).
Proof.
  intros Hs Hd. unfold memmove. rewrite Nat2Z.id.
  destruct (Z.ltb_spec dest src).
  - rewrite copy_up_spec by (auto; lia). done.
  - rewrite copy_down_spec by (auto; lia). done.
Qed.

Lemma memmove_correct_witness :
  memmove 101 100 3 (write_bytes 100 [1; 2; 3; 4] ∅) =
  Done (write_bytes 101 [1; 2; 3] (write_bytes 100 [1; 2; 3; 4] ∅), 101).
Proof.
  apply (memmove_correct (write_bytes 100 [1; 2; 3; 4] ∅) 101 100 [1; 2; 3]).
  - solve_bytes.
  - solve_bytes.
Defined.

(** [memcpy] is [memmove] when the destination does not start inside the
    source. *)
Lemma memcpy_spec m dest src bs :
  bytes_at m src bs -> mapped m dest (length bs) ->
  dest <= src \/ src + Z.of_nat (length bs) <= dest ->
  memcpy dest src (Z.of_nat (length bs)) m = Done (write_bytes dest bs m, dest).
Proof. intros. unfold memcpy. rewrite Nat2Z.id, copy_up_spec by done. done. Qed.

Lemma memset_loop_spec n : forall p val m,
  mapped m p n -> memset_loop n p val m = Done (write_bytes p (replicate n (u8 val)) m).
Proof.
  induction n as [|n IH]; intros p val m H; simpl; [done|].
  apply mapped_S in H as [H0 H]. rewrite store8_Done by done. simpl.
  apply IH. by apply mapped_insert.
Qed.

Lemma memset_spec n p val m :
  mapped m p n ->
  memset p val (Z.of_nat n) m = Done (write_bytes p (replicate n (u8 val)) m, p).
Proof. intros. unfold memset. rewrite Nat2Z.id, memset_loop_spec by done. done. Qed.

End copying.

(** ** Scanning to the terminator *)

(** Lexicographic comparison of byte strings: the reference for the
    comparison routines. *)
Fixpoint lex_cmp (s1 s2 : list Z) : comparison :=
  match s1, s2 with
  | [], [] => Eq
  | [], _ :: _ => Lt
  | _ :: _, [] => Gt
  | a :: s1', b :: s2' =>
      match (a ?= b)%Z with Eq => lex_cmp s1' s2' | c => c end
  end.

Lemma lex_cmp_eq s1 : forall s2, lex_cmp s1 s2 = Eq <-> s1 = s2.
Proof.
  induction s1 as [|a s1 IH]; intros [|b s2]; simpl; try (split; congruence).
  destruct (Z.compare_spec a b); [subst; rewrite IH|..]; split; try congruence.
  - intros H1. injection H1. lia.
  - intros H1. injection H1. lia.
Qed.

(** Position of the first occurrence of [x], as an offset. *)
Fixpoint first_index (x : Z) (l : list Z) : option nat :=
  match l with
  | [] => None
  | y :: l' => if y =? x then Some O else S <$> first_index x l'
  end.

(** Position of the last occurrence of [x]. *)
Fixpoint last_index (x : Z) (l : list Z) : option nat :=
  match l with
  | [] => None
  | y :: l' =>
      match last_index x l' with
      | Some i => Some (S i)
      | None => if y =? x then Some O else None
      end
  end.

Definition at_index (a : ptr) (o : option nat) : ptr :=
  match o with Some i => a + Z.of_nat i | None => nullptr end.

Section scanning.
Implicit Types (m : mem) (s : list Z) (a : ptr).

Lemma strlen_loop_spec s : forall m a len fuel,
  cstr_at m (a + len) s -> (length s < fuel)%nat ->
  strlen_loop fuel a len m = Done (len + Z.of_nat (length s)).
Proof.
  induction s as [|b s IH]; intros m a len [|f] H Hf; simpl in *; try lia.
  - apply cstr_at_nil in H. rewrite (load8_Done _ _ _ H). simpl. f_equal. lia.
  - apply cstr_at_cons in H as (H1 & Hb & H). rewrite (load8_Done _ _ _ H1). simpl.
    destruct (Z.eqb_spec b 0); [lia|].
    rewrite IH; [f_equal; lia| |lia]. by rewrite Z.add_assoc.
Qed.

Lemma strlen_spec m a s : cstr_at m a s -> strlen a m = Done (Z.of_nat (length s)).
Proof.
  intros H. unfold strlen. rewrite (strlen_loop_spec s); [done| |].
  - by rewrite Z.add_0_r.
  - pose proof (cstr_at_size _ _ _ H). lia.
Qed.

Lemma strnlen_loop_spec s : forall m a n,
  cstr_at m a s ->
  strnlen_loop n a m = Done (a + Z.of_nat (Nat.min n (length s))).
Proof.
  induction s as [|b s IH]; intros m a [|n] H; simpl.
  - f_equal. lia.
  - apply cstr_at_nil in H. rewrite (load8_Done _ _ _ H). simpl. f_equal. lia.
  - f_equal. lia.
  - apply cstr_at_cons in H as (H1 & Hb & H). rewrite (load8_Done _ _ _ H1). simpl.
    destruct (Z.eqb_spec b 0); [lia|]. rewrite IH by done. f_equal. lia.
Qed.

Lemma strnlen_spec m a s n :
  cstr_at m a s ->
  strnlen a (Z.of_nat n) m = Done (Z.of_nat (Nat.min n (length s))).
Proof.
  intros H. unfold strnlen. rewrite Nat2Z.id, (strnlen_loop_spec s) by done.
  simpl. f_equal. lia.
Qed.

Lemma cstr_prefix m a s n :
  cstr_at m a s -> bytes_at m a (take n s).
Proof.
  intros [H _]. rewrite <- (take_drop n s), <- app_assoc in H.
  by apply bytes_at_app in H as [H _].
Qed.

(** [strncpy] fills exactly [n] bytes of [dest]: the string cut at [n],
    then zero bytes up to [n]; no other byte changes.  In particular the
    result is not terminated when the string has [n] or more bytes. *)
Theorem strncpy_correct m dest src s n :
  cstr_at m src s -> mapped m dest n ->
  dest + Z.of_nat n <= src \/ src + Z.of_nat (length s) < dest ->
  strncpy dest src (Z.of_nat n) m =
  Done (write_bytes dest (take n s ++ replicate (n - length s) 0) m, dest).
Proof.
  intros Hs Hd Hov. unfold strncpy. rewrite (strnlen_spec m src s n Hs). cbn [run_bind].
  destruct (decide (n <= length s)%nat) as [Hle|Hgt].
  - rewrite Nat.min_l by lia. rewrite Z.eqb_refl. cbn [run_bind].
    assert (length (take n s) = n) as Hlen by (rewrite length_take; lia).
    rewrite <- Hlen at 1. rewrite memcpy_spec; [|by apply cstr_prefix|by rewrite Hlen|lia].
    by replace (n - length s)%nat with 0%nat by lia; rewrite app_nil_r.
  - rewrite Nat.min_r by lia. destruct (Z.eqb_spec (Z.of_nat (length s)) (Z.of_nat n)); [lia|].
    replace (Z.of_nat n - Z.of_nat (length s)) with (Z.of_nat (n - length s)) by lia.
    rewrite memset_spec.
    2:{ intros i Hi. rewrite <- Z.add_assoc, <- Nat2Z.inj_add. apply Hd. lia. }
    cbn [run_bind fst]. rewrite take_ge by lia. change (u8 0) with 0.
    rewrite memcpy_spec.
    + f_equal. f_equal. apply map_eq. intros p.
      rewrite !write_bytes_lookup, length_app, !length_replicate.
      repeat case_decide; try lia; try done.
      * by rewrite lookup_app_l by lia.
      * rewrite lookup_app_r by lia. f_equal. lia.
    + intros i b Hi. rewrite write_bytes_other.
      * apply (cstr_prefix m src s (length s) Hs). by rewrite take_ge by lia.
      * apply lookup_lt_Some in Hi. rewrite length_replicate. lia.
    + apply mapped_write_bytes. intros i Hi. apply Hd. lia.
    + lia.
Qed.

Lemma strncpy_correct_witness :
  strncpy 50 100 5 (write_bytes 50 [9; 9; 9; 9; 9] (write_bytes 100 [104; 105; 0] ∅)) =
  Done (write_bytes 50 [104; 105; 0; 0; 0]
          (write_bytes 50 [9; 9; 9; 9; 9] (write_bytes 100 [104; 105; 0] ∅)), 50).
Proof.
  apply (strncpy_correct
    (write_bytes 50 [9; 9; 9; 9; 9] (write_bytes 100 [104; 105; 0] ∅)) 50 100 [104; 105] 5);
    [solve_bytes|solve_bytes|left; lia].
Defined.


(** ** Comparing *)

Lemma strcmp_loop_spec s1 : forall s2 m a1 a2 fuel,
  cstr_at m a1 s1 -> cstr_at m a2 s2 -> (length s1 < fuel)%nat ->
  exists r, strcmp_loop fuel a1 a2 m = Done r /\ (r ?= 0) = lex_cmp s1 s2.
Proof.
  induction s1 as [|a s1 IH]; intros [|b s2] m a1 a2 [|f] H1 H2 Hf; simpl in *; try lia;
    repeat match goal with
    | H : cstr_at _ _ [] |- _ => apply cstr_at_nil in H
    | H : cstr_at _ _ (_ :: _) |- _ => apply cstr_at_cons in H as (H & ? & ?)
    end;
    rewrite (load8_Done _ _ _ H1); simpl; try rewrite (load8_Done _ _ _ H2); simpl.
  - by exists 0.
  - eexists; split; [done|]. apply Z.compare_lt_iff. lia.
  - destruct (Z.eqb_spec a 0); [lia|]. eexists; split; [done|]. apply Z.compare_gt_iff. lia.
  - destruct (Z.eqb_spec a 0); [lia|].
    destruct (Z.eqb_spec a b) as [->|Hne].
    + rewrite Z.compare_refl. apply IH; [done..|lia].
    + eexists; split; [done|].
      destruct (Z.compare_spec a b); [done|apply Z.compare_lt_iff; lia|apply Z.compare_gt_iff; lia].
Qed.

Lemma strncmp_loop_spec s1 : forall s2 m a1 a2 n,
  cstr_at m a1 s1 -> cstr_at m a2 s2 ->
  exists r, strncmp_loop n a1 a2 m = Done r /\
            (r ?= 0) = lex_cmp (take n s1) (take n s2).
Proof.
  induction s1 as [|a s1 IH]; intros [|b s2] m a1 a2 [|n] H1 H2; simpl;
    try (by exists 0);
    repeat match goal with
    | H : cstr_at _ _ [] |- _ => apply cstr_at_nil in H
    | H : cstr_at _ _ (_ :: _) |- _ => apply cstr_at_cons in H as (H & ? & ?)
    end;
    rewrite (load8_Done _ _ _ H1); simpl; rewrite (load8_Done _ _ _ H2); simpl.
  - by exists 0.
  - destruct b; try lia. simpl. by eexists.
  - destruct a; try lia. simpl. by eexists.
  - destruct (Z.eqb_spec a b) as [->|Hne]; simpl.
    + rewrite Z.compare_refl. destruct (Z.eqb_spec b 0); [lia|]. by apply IH.
    + eexists; split; [done|].
      destruct (Z.compare_spec a b); [done|apply Z.compare_lt_iff; lia|apply Z.compare_gt_iff; lia].
Qed.

(** on two NUL-terminated strings [strcmp] terminates and the sign of its
    result is the lexicographic order of the byte strings (0 exactly for equal
    strings); [strncmp] is the same order on the first [n] bytes. *)
Theorem strcmp_correct m a1 a2 s1 s2 n :
  cstr_at m a1 s1 -> cstr_at m a2 s2 ->
  exists r rn,
    strcmp a1 a2 m = Done r /\ (r ?= 0) = lex_cmp s1 s2 /\ (r = 0 <-> s1 = s2) /\
    strncmp a1 a2 (Z.of_nat n) m = Done rn /\
    (rn ?= 0) = lex_cmp (take n s1) (take n s2).
Proof.
  intros H1 H2.
  destruct (strcmp_loop_spec s1 s2 m a1 a2 (S (size m)) H1 H2) as (r & Hr & Hc).
  { pose proof (cstr_at_size _ _ _ H1). lia. }
  destruct (strncmp_loop_spec s1 s2 m a1 a2 n H1 H2) as (rn & Hrn & Hcn).
  exists r, rn. repeat split; auto.
  - intros ->. by apply lex_cmp_eq.
  - intros ->. apply Z.compare_eq_iff. by rewrite Hc, lex_cmp_eq.
  - unfold strncmp. destruct (Z.eqb_spec (Z.of_nat n) 0) as [E|E].
    + assert (n = O) as -> by lia. simpl in Hrn. congruence.
    + by rewrite Nat2Z.id.
Qed.

Lemma strcmp_correct_witness :
  let m := write_bytes 10 [97; 98; 0] (write_bytes 20 [97; 99; 0] ∅) in
  exists r rn,
    strcmp 10 20 m = Done r /\ (r ?= 0) = Lt /\ (r = 0 <-> [97; 98] = [97; 99]) /\
    strncmp 10 20 1 m = Done rn /\ (rn ?= 0) = Eq.
Proof.
  intros m. apply (strcmp_correct m 10 20 [97; 98] [97; 99] 1); solve_bytes.
Defined.

Lemma memcmp_loop_spec m bs1 : forall bs2 a1 a2,
  bytes_at m a1 bs1 -> bytes_at m a2 bs2 -> length bs1 = length bs2 ->
  exists r, memcmp_loop (length bs1) a1 a2 m = Done r /\ -1 <= r <= 1 /\
            (r ?= 0) = lex_cmp bs1 bs2.
Proof.
  induction bs1 as [|a bs1 IH]; intros [|b bs2] a1 a2 H1 H2 Hl; simpl in *; try lia.
  - exists 0. by repeat split.
  - apply bytes_at_cons in H1 as [Ha H1]. apply bytes_at_cons in H2 as [Hb H2].
    rewrite (load8_Done _ _ _ Ha). simpl. rewrite (load8_Done _ _ _ Hb). simpl.
    destruct (Z.compare_spec a b) as [->|Hlt|Hgt].
    + rewrite Z.eqb_refl. apply IH; [done..|lia].
    + destruct (Z.eqb_spec a b); [lia|]. destruct (Z.ltb_spec a b); [|lia]. by exists (-1).
    + destruct (Z.eqb_spec a b); [lia|]. destruct (Z.ltb_spec a b); [lia|]. by exists 1.
Qed.

(** ** Searching *)

Lemma char_of_eqb b c : 0 <= b < 256 -> (char_of b =? char_of c) = (b =? u8 c).
Proof.
  intros Hb. unfold char_of, s8, to_signed, u8, wrap.
  rewrite (Z.mod_small b) by lia. pose proof (Z.mod_pos_bound c (2 ^ 8) ltac:(lia)).
  change (2 ^ 8) with 256 in *. change (2 ^ (8 - 1)) with 128.
  repeat case_match; bool_cases;
    match goal with |- (?x =? ?y) = (?z =? ?t) =>
      destruct (Z.eqb_spec x y), (Z.eqb_spec z t) end; try lia; done.
Qed.

Lemma at_index_S a o : at_index (a + 1) o = at_index a (S <$> o) \/ o = None.
Proof. destruct o; simpl; [left; lia|by right]. Qed.

Lemma strchr_loop_spec s : forall m a c fuel,
  cstr_at m a s -> (length s < fuel)%nat ->
  strchr_loop fuel a (char_of c) m = Done (at_index a (first_index (u8 c) (s ++ [0]))).
Proof.
  induction s as [|b s IH]; intros m a c [|f] H Hf; cbn [length strchr_loop strrchr_loop app first_index last_index] in *; try lia.
  - apply cstr_at_nil in H. rewrite (load8_Done _ _ _ H). cbn [run_bind].
    rewrite char_of_eqb by lia. destruct (0 =? u8 c); unfold at_index; simpl; [by rewrite Z.add_0_r|done].
  - apply cstr_at_cons in H as (H1 & Hb & H). rewrite (load8_Done _ _ _ H1). cbn [run_bind].
    rewrite char_of_eqb by lia. destruct (b =? u8 c); [unfold at_index; simpl; by rewrite Z.add_0_r|].
    destruct (Z.eqb_spec b 0); [lia|]. rewrite IH by (done || lia). f_equal.
    destruct (first_index (u8 c) (s ++ [0])); unfold at_index; simpl; [lia|done].
Qed.

Lemma strrchr_loop_spec s : forall m a c r fuel,
  cstr_at m a s -> (length s < fuel)%nat ->
  strrchr_loop fuel a (char_of c) r m =
  Done (match last_index (u8 c) (s ++ [0]) with Some i => a + Z.of_nat i | None => r end).
Proof.
  induction s as [|b s IH]; intros m a c r [|f] H Hf; cbn [length strchr_loop strrchr_loop app first_index last_index] in *; try lia.
  - apply cstr_at_nil in H. rewrite (load8_Done _ _ _ H). cbn [run_bind].
    rewrite char_of_eqb by lia. destruct (0 =? u8 c); unfold at_index; simpl; [by rewrite Z.add_0_r|done].
  - apply cstr_at_cons in H as (H1 & Hb & H). rewrite (load8_Done _ _ _ H1). cbn [run_bind].
    rewrite char_of_eqb by lia. destruct (Z.eqb_spec b 0); [lia|].
    rewrite IH by (done || lia). f_equal.
    destruct (last_index (u8 c) (s ++ [0])); [lia|].
    destruct (b =? u8 c); simpl; [lia|done].
Qed.

(** [strchr] returns the address of the first byte of the string,
    terminator included, that equals [(unsigned char)c], and [strrchr] that of
    the last one; both return the null pointer when there is none. *)
Theorem strchr_strrchr_correct m a s c :
  cstr_at m a s ->
  strchr a c m = Done (at_index a (first_index (u8 c) (s ++ [0]))) /\
  strrchr a c m = Done (at_index a (last_index (u8 c) (s ++ [0]))).
Proof.
  intros H. pose proof (cstr_at_size _ _ _ H). split.
  - apply strchr_loop_spec; [done|lia].
  - unfold strrchr. rewrite (strrchr_loop_spec s) by (done || lia). done.
Qed.

Lemma strchr_strrchr_correct_witness :
  let m := write_bytes 64 [115; 58; 49; 58; 0] ∅ in
  strchr 64 58 m = Done 65 /\ strrchr 64 58 m = Done 67.
Proof.
  intros m. apply (strchr_strrchr_correct m 64 [115; 58; 49; 58] 58). solve_bytes.
Defined.

Lemma memchr_loop_spec m bs : forall a c,
  bytes_at m a bs ->
  memchr_loop (length bs) a c m = Done (at_index a (first_index c bs)).
Proof.
  induction bs as [|b bs IH]; intros a c H; simpl; [done|].
  apply bytes_at_cons in H as [Hb H]. rewrite (load8_Done _ _ _ Hb). cbn [run_bind].
  destruct (b =? c); [unfold at_index; simpl; by rewrite Z.add_0_r|]. rewrite IH by done. f_equal.
  destruct (first_index c bs); unfold at_index; simpl; [lia|done].
Qed.

(** ** Appending *)

Lemma skip_string_spec s : forall m a fuel,
  cstr_at m a s -> (length s < fuel)%nat ->
  skip_string fuel a m = Done (a + Z.of_nat (length s)).
Proof.
  induction s as [|b s IH]; intros m a [|f] H Hf; simpl in *; try lia.
  - apply cstr_at_nil in H. rewrite (load8_Done _ _ _ H). simpl. f_equal. lia.
  - apply cstr_at_cons in H as (H1 & Hb & H). rewrite (load8_Done _ _ _ H1). simpl.
    destruct (Z.eqb_spec b 0); [lia|]. rewrite IH by (done || lia). f_equal. lia.
Qed.

Lemma append_string_spec s : forall m d a fuel,
  cstr_at m a s -> (length s < fuel)%nat -> mapped m d (length s) ->
  d + Z.of_nat (length s) <= a \/ a + Z.of_nat (length s) < d ->
  append_string fuel d a m = Done (write_bytes d s m, d + Z.of_nat (length s)).
Proof.
  induction s as [|b s IH]; intros m d a [|f] H Hf Hd Hov; simpl in *; try lia.
  - apply cstr_at_nil in H. rewrite (load8_Done _ _ _ H). simpl. f_equal. f_equal. lia.
  - apply cstr_at_cons in H as (H1 & Hb & [H H']). apply mapped_S in Hd as [Hd0 Hd].
    rewrite (load8_Done _ _ _ H1). simpl. destruct (Z.eqb_spec b 0); [lia|].
    rewrite store8_Done by done. simpl. rewrite IH.
    + f_equal. f_equal. lia.
    + split; [|done]. intros i x Hi. pose proof (lookup_lt_Some _ _ _ Hi) as Hl.
      rewrite length_app in Hl. simpl in Hl. rewrite lookup_insert_ne by lia. by apply H.
    + lia.
    + by apply mapped_insert.
    + lia.
Qed.

(** [strcat] leaves the concatenation of the two strings, terminated, at
    [dest] when the room behind [dest] is mapped and does not meet the source;
    it writes nothing else and returns [dest]. *)
Theorem strcat_correct m dest src s1 s2 :
  cstr_at m dest s1 -> cstr_at m src s2 -> dest <> 0 -> src <> 0 ->
  mapped m (dest + Z.of_nat (length s1)) (S (length s2)) ->
  dest + Z.of_nat (length s1 + length s2) < src \/ src + Z.of_nat (length s2) < dest ->
  let m' := write_bytes (dest + Z.of_nat (length s1)) (s2 ++ [0]) m in
  strcat dest src m = Done (m', dest) /\ cstr_at m' dest (s1 ++ s2).
Proof.
  intros H1 H2 Hd Hs Hm Hov m'.
  pose proof (cstr_at_size _ _ _ H1). pose proof (cstr_at_size _ _ _ H2). split.
  - unfold strcat. destruct (Z.eqb_spec dest 0), (Z.eqb_spec src 0); try lia.
    cbn [negb andb]. rewrite (skip_string_spec s1) by (done || lia). cbn [run_bind].
    rewrite (append_string_spec s2); [|done|lia| |lia].
    2:{ intros i Hi. apply Hm. lia. }
    cbn [run_bind fst snd]. rewrite store8_Done.
    2:{ apply (mapped_write_bytes m (dest + Z.of_nat (length s1)) (S (length s2))); [done|lia]. }
    simpl. unfold m'. by rewrite write_bytes_snoc.
  - destruct H1 as [H1 F1]. destruct H2 as [H2 F2]. split; [|by apply Forall_app].
    apply bytes_at_app in H1 as [H1 _]. rewrite <- app_assoc. apply bytes_at_app. split.
    + intros i b Hi. unfold m'. pose proof (lookup_lt_Some _ _ _ Hi).
      rewrite write_bytes_other by lia. by apply H1.
    + apply write_bytes_at.
Qed.

Lemma strcat_correct_witness :
  let m := write_bytes 50 [104; 0; 9; 9] (write_bytes 100 [105; 33; 0] ∅) in
  strcat 50 100 m = Done (write_bytes 51 [105; 33; 0] m, 50) /\
  cstr_at (write_bytes 51 [105; 33; 0] m) 50 [104; 105; 33].
Proof.
  intros m. apply (strcat_correct m 50 100 [104] [105; 33]); try (simpl; lia); solve_bytes.
Defined.

Lemma strcpy_loop_spec s : forall m d a fuel,
  cstr_at m a s -> (length s < fuel)%nat -> mapped m d (S (length s)) ->
  d + Z.of_nat (length s) < a \/ a + Z.of_nat (length s) < d ->
  strcpy_loop fuel d a m = Done (write_bytes d (s ++ [0]) m).
Proof.
  induction s as [|b s IH]; intros m d a [|f] H Hf Hd Hov; simpl in *; try lia;
    apply mapped_S in Hd as [Hd0 Hd].
  - apply cstr_at_nil in H. rewrite (load8_Done _ _ _ H). simpl.
    by rewrite store8_Done by done.
  - apply cstr_at_cons in H as (H1 & Hb & [H H']).
    rewrite (load8_Done _ _ _ H1). simpl. rewrite store8_Done by done. simpl.
    destruct (Z.eqb_spec b 0); [lia|]. apply IH; [|lia|by apply mapped_insert|lia].
    split; [|done]. intros i x Hi. pose proof (lookup_lt_Some _ _ _ Hi) as Hl.
    rewrite length_app in Hl. simpl in Hl. rewrite lookup_insert_ne by lia. by apply H.
Qed.

End scanning.

End CString.
