(* ===== verification/CStdlib.v ===== *)
(** * Number parsing: src/src/libc/nk_stdlib.c

    [strtox_main] is the source's scanner over the byte memory: white space,
    sign, base detection, digits with the [cutoff]/[cutlim] overflow test.
    The value that the source stores through [endptr] is the field [endp] of
    the result (the caller's null test decides whether it is stored). *)

From stdpp Require Import base numbers list gmap.
From Stdlib Require Import ZArith Lia.
From S2P Require Import Prelude CMem Ctype.

Local Open Scope Z_scope.

Module CStdlib.
Import Ctype.

(** ** Definitions *)

Definition ULLONG_MAX : Z := 2 ^ 64 - 1.
Definition LLONG_MAX : Z := 2 ^ 63 - 1.
Definition LLONG_MIN : Z := - 2 ^ 63.

Definition c_minus : Z := 45.
Definition c_plus : Z := 43.
Definition c_x : Z := 120.
Definition c_X : Z := 88.

Record strtox := Strtox {
  acc : Z;            (* returned magnitude *)
  negative : bool;    (* *sign_out *)
  overflow : bool;    (* *overflow *)
  endp : ptr          (* *endptr *)
}.

(** [*s] as a [char], promoted to [int]. *)
Definition loadc (m : mem) (s : ptr) : run Z :=
  let+ b := load8 m s in Done (char_of b).

Fixpoint skip_space (fuel : nat) (s : ptr) (m : mem) : run ptr :=
  match fuel with
  | O => NoFuel
  | S f =>
      let+ c := loadc m s in
      if truthy (isspace c) then skip_space f (s + 1) m else Done s
  end.

(** Base detection: the pointer and base with which digits are read. *)
Definition detect_base (s : ptr) (base : Z) (m : mem) : run (ptr * Z) :=
  let+ c0 := loadc m s in
  let+ r :=
    (if ((base =? 0) || (base =? 16)) && (c0 =? c_0) then
       let+ c1 := loadc m (s + 1) in
       if (c1 =? c_x) || (c1 =? c_X) then
         let+ c2 := loadc m (s + 2) in
         if truthy (isxdigit c2) then Done (s + 2, 16)
         else Done (s, if base =? 0 then 8 else base)
       else Done (s, base)
     else Done (s, base)) in
  if r.2 =? 0 then
    let+ c := loadc m r.1 in Done (r.1, if c =? c_0 then 8 else 10)
  else Done r.

(** The value of a digit or letter, and the loop's exit for anything else. *)
Definition digit_value (c : Z) : option Z :=
  if truthy (isdigit c) then Some (c - c_0)
  else if truthy (isalpha c) then Some (toupper c - c_A + 10)
  else None.

(** [for (;; s++)]: the state is [(any, acc, s)]. *)
Fixpoint digits_loop (fuel : nat) (s : ptr) (base cutoff cutlim any a : Z) (m : mem)
  : run (Z * Z * ptr) :=
  match fuel with
  | O => NoFuel
  | S f =>
      let+ c := loadc m s in
      match digit_value c with
      | None => Done (any, a, s)
      | Some d =>
          if base <=? d then Done (any, a, s)
          else if (any <? 0) || (cutoff <? a) || ((a =? cutoff) && (cutlim <? d)) then
            digits_loop f (s + 1) base cutoff cutlim (-1) a m
          else
            digits_loop f (s + 1) base cutoff cutlim 1 (u64 (u64 (a * base) + d)) m
      end
  end.

Definition strtox_main (nptr : ptr) (base : Z) (m : mem) : run strtox :=
  let+ s := skip_space (S (size m)) nptr m in
  let+ c := loadc m s in
  let negative := c =? c_minus in
  let s := if (c =? c_minus) || (c =? c_plus) then s + 1 else s in
  let+ sb := detect_base s base m in
  let base := sb.2 in
  if (base <? 2) || (36 <? base) then Done (Strtox 0 negative false nptr)
  else
    let cutoff := ULLONG_MAX / base in
    let cutlim := ULLONG_MAX mod base in
    let+ r := digits_loop (S (size m)) sb.1 base cutoff cutlim 0 0 m in
    let any := r.1.1 in
    Done (Strtox (if any <? 0 then ULLONG_MAX else r.1.2) negative (any <? 0)
            (if any =? 0 then nptr else r.2)).

Definition strtoull_of (r : strtox) : Z :=
  if overflow r then ULLONG_MAX else if negative r then u64 (- acc r) else acc r.

Definition strtoull (nptr : ptr) (base : Z) (m : mem) : run (Z * ptr) :=
  let+ r := strtox_main nptr base m in Done (strtoull_of r, endp r).

Definition strtoll_of (r : strtox) : Z :=
  if overflow r then (if negative r then LLONG_MIN else LLONG_MAX)
  else if negative r then
    (if LLONG_MAX + 1 <? acc r then LLONG_MIN else s64 (- s64 (acc r)))
  else if LLONG_MAX <? acc r then LLONG_MAX else s64 (acc r).

Definition strtoll (nptr : ptr) (base : Z) (m : mem) : run (Z * ptr) :=
  let+ r := strtox_main nptr base m in Done (strtoll_of r, endp r).

(** [long] has 64 bits on every target, so the clamps are compiled out. *)
Definition strtol (nptr : ptr) (base : Z) (m : mem) : run (Z * ptr) := strtoll nptr base m.
Definition strtoul (nptr : ptr) (base : Z) (m : mem) : run (Z * ptr) := strtoull nptr base m.

Definition atoi (nptr : ptr) (m : mem) : run Z :=
  let+ r := strtol nptr 10 m in Done (s32 r.1).
Definition atol (nptr : ptr) (m : mem) : run Z := let+ r := strtol nptr 10 m in Done r.1.
Definition atoll (nptr : ptr) (m : mem) : run Z := let+ r := strtoll nptr 10 m in Done r.1.

(** ** Reference reading of a digit string *)

Definition is_digit_in (base c : Z) : bool :=
  match digit_value c with Some d => d <? base | None => false end.

Definition dv (c : Z) : Z := default 0 (digit_value c).

Definition digits_value (base : Z) (ds : list Z) : Z :=
  fold_left (fun v c => v * base + dv c) ds 0.

(** The value of [ds] read after the magnitude [v]. *)
Definition digits_from (base v : Z) (ds : list Z) : Z :=
  fold_left (fun v c => v * base + dv c) ds v.

Definition is_space_char (c : Z) : bool := truthy (isspace (char_of c)).

(** [str] does not continue a digit string in [base]. *)
Definition stops (base : Z) (str : list Z) : Prop :=
  match str with [] => True | c :: _ => is_digit_in base (char_of c) = false end.

(** The scanner would take [0x] as a prefix. *)
Definition hex_prefix (str : list Z) : bool :=
  match str with
  | z :: x :: h :: _ =>
      (z =? c_0) && ((x =? c_x) || (x =? c_X)) && truthy (isxdigit (char_of h))
  | _ => false
  end.

(** What base detection does to the text [body]: the number of prefix bytes it
    consumes and the base it settles on. *)
Definition detected (base : Z) (body : list Z) : nat * Z :=
  if ((base =? 0) || (base =? 16)) && hex_prefix body then (2%nat, 16)
  else (0%nat, if base =? 0 then (if bool_decide (head body = Some c_0) then 8 else 10)
               else base).

(** The text at [nptr] is: white space [ws], an optional sign [sg], the prefix
    [pre] that base detection consumes, digits [ds] of the detected base [b],
    then [rest], which does not go on with a digit of [b]. *)
Record numeral_at (m : mem) (nptr base : Z) (ws sg pre ds rest : list Z) (b : Z) : Prop := {
  num_text : cstr_at m nptr (ws ++ sg ++ pre ++ ds ++ rest);
  num_space : Forall (fun c => is_space_char c = true) ws;
  num_sign : sg = [] \/ sg = [c_minus] \/ sg = [c_plus];
  num_base : detected base (pre ++ ds ++ rest) = (length pre, b);
  num_base_range : 2 <= b <= 36;
  num_digits : Forall (fun c => is_digit_in b c = true) ds;
  num_some : ds <> [];
  num_rest : stops b rest
}.

Section spec.
Implicit Types (m : mem) (ds str : list Z).

Lemma char_of_small b : 0 <= b < 128 -> char_of b = b.
Proof.
  intros. unfold char_of, s8, to_signed, wrap. rewrite Z.mod_small by lia.
  destruct (Z.ltb_spec b (2 ^ (8 - 1))); lia.
Qed.

Lemma char_of_range b : 0 < b < 256 -> char_of b <> 0 /\ (char_of b = b \/ char_of b < 0).
Proof.
  intros. unfold char_of, s8, to_signed, wrap. rewrite Z.mod_small by lia. cbv zeta.
  destruct (Z.ltb_spec b (2 ^ (8 - 1))); lia.
Qed.

Lemma digit_value_range c d : digit_value c = Some d -> 0 <= d <= 35 /\ 48 <= c <= 122.
Proof.
  unfold digit_value. destruct (truthy (isdigit c)) eqn:E1.
  - apply isdigit_spec in E1. intros H. injection H. unfold c_0. lia.
  - destruct (truthy (isalpha c)) eqn:E2; [|congruence].
    apply isalpha_spec in E2. intros H. injection H as <-.
    unfold toupper, c_A, c_a. destruct (truthy (islower c)) eqn:E3.
    + apply islower_spec in E3. lia.
    + assert (~ (97 <= c <= 122)) by (rewrite <- islower_spec; congruence). lia.
Qed.

Lemma digits_from_mono base v ds :
  0 <= v -> 1 <= base -> Forall (fun c => is_digit_in base c = true) ds ->
  v <= digits_from base v ds.
Proof.
  unfold digits_from. revert v. induction ds as [|c ds IH]; intros v Hv Hb HF; simpl; [lia|].
  apply Forall_cons in HF as [Hc HF]. unfold is_digit_in in Hc. unfold dv.
  destruct (digit_value c) as [d|] eqn:E; [|congruence].
  pose proof (digit_value_range c d E). simpl.
  transitivity (v * base + d); [nia|apply IH; [nia|lia|done]].
Qed.


(** The [cutoff]/[cutlim] test is exactly "one more digit would overflow". *)
Lemma cutoff_test base any a d :
  2 <= base <= 36 -> 0 <= d < base -> 0 <= a ->
  (any <? 0) || (ULLONG_MAX / base <? a) || ((a =? ULLONG_MAX / base) && (ULLONG_MAX mod base <? d))
  = (any <? 0) || (ULLONG_MAX <? a * base + d).
Proof.
  intros Hb Hd Ha. rewrite <- orb_assoc. f_equal.
  pose proof (Z.div_mod ULLONG_MAX base ltac:(lia)) as Hdm.
  pose proof (Z.mod_pos_bound ULLONG_MAX base ltac:(lia)) as Hmb.
  apply eq_true_iff_eq.
  rewrite orb_true_iff, andb_true_iff, !Z.ltb_lt, Z.eqb_eq. nia.
Qed.

Lemma loadc_cstr m s c str : cstr_at m s (c :: str) -> loadc m s = Done (char_of c).
Proof. intros [H _]%cstr_at_cons. unfold loadc. by rewrite (load8_Done _ _ _ H). Qed.

Lemma loadc_nul m s : cstr_at m s [] -> loadc m s = Done 0.
Proof. intros H%cstr_at_nil. unfold loadc. by rewrite (load8_Done _ _ _ H). Qed.

Lemma digits_loop_stop m s base cutoff cutlim any a rest f :
  cstr_at m s rest -> stops base rest ->
  digits_loop (S f) s base cutoff cutlim any a m = Done (any, a, s).
Proof.
  intros Hs Hst. cbn [digits_loop].
  destruct rest as [|c rest]; simpl in Hst.
  - by rewrite (loadc_nul _ _ Hs).
  - rewrite (loadc_cstr _ _ _ _ Hs). cbn [run_bind]. unfold is_digit_in in Hst.
    destruct (digit_value (char_of c)); [|done].
    by rewrite (proj2 (Z.leb_le _ _)) by (bool_cases; lia).
Qed.

Lemma digits_loop_spec ds : forall m s base any a rest fuel,
  2 <= base <= 36 ->
  cstr_at m s (ds ++ rest) -> (length (ds ++ rest) < fuel)%nat ->
  Forall (fun c => is_digit_in base c = true) ds -> stops base rest ->
  0 <= a <= ULLONG_MAX ->
  exists any' a',
    digits_loop fuel s base (ULLONG_MAX / base) (ULLONG_MAX mod base) any a m
      = Done (any', a', s + Z.of_nat (length ds)) /\
    (any < 0 -> any' < 0) /\
    (0 <= any -> digits_from base a ds <= ULLONG_MAX ->
       a' = digits_from base a ds /\ any' = if decide (ds = []) then any else 1) /\
    (0 <= any -> ULLONG_MAX < digits_from base a ds -> any' < 0).
Proof.
  induction ds as [|c ds IH]; intros m s base any a rest [|f] Hb Hs Hf HF Hst Ha;
    try (simpl in Hf; lia).
  - exists any, a. rewrite (digits_loop_stop m s base _ _ any a rest) by done. simpl.
    rewrite Z.add_0_r. unfold digits_from. simpl. repeat split; intros; lia.
  - cbn [app length] in *. apply Forall_cons in HF as [Hd HF].
    unfold is_digit_in in Hd. destruct (digit_value c) as [d|] eqn:E; [|congruence].
    pose proof (digit_value_range c d E) as [Hd0 Hc0]. bool_cases.
    cbn [digits_loop]. rewrite (loadc_cstr _ _ _ _ Hs). cbn [run_bind].
    apply cstr_at_cons in Hs as (_ & _ & Hs).
    rewrite char_of_small, E by lia. rewrite (proj2 (Z.leb_gt _ _)) by lia.
    rewrite cutoff_test by lia.
    change (digits_from base a (c :: ds)) with (digits_from base (a * base + dv c) ds).
    assert (dv c = d) as -> by (unfold dv; by rewrite E).
    replace (s + Z.of_nat (S (length ds))) with (s + 1 + Z.of_nat (length ds)) by lia.
    destruct ((any <? 0) || (ULLONG_MAX <? a * base + d)) eqn:Eov.
    + destruct (IH m (s + 1) base (-1) a rest f) as (any' & a' & H1 & H2 & _);
        try done; [lia|].
      exists any', a'. split; [exact H1|]. split; [intros; apply H2; lia|].
      split; intros Hany Hle; [|apply H2; lia].
      apply orb_true_iff in Eov as [?|?]; bool_cases; [lia|].
      pose proof (digits_from_mono base (a * base + d) ds ltac:(nia) ltac:(lia) HF). lia.
    + bool_cases.
      assert (u64 (u64 (a * base) + d) = a * base + d) as ->.
      { unfold ULLONG_MAX in *. rewrite (u64_small (a * base)) by nia. apply u64_small. nia. }
      destruct (IH m (s + 1) base 1 (a * base + d) rest f) as (any' & a' & H1 & H2 & H3 & H4);
        try done; [lia|nia|].
      exists any', a'. split; [exact H1|]. split; [lia|]. split; intros Hany Hle.
      * destruct H3 as [-> ->]; [lia|done|]. split; [done|]. by destruct (decide (ds = [])).
      * apply H4; [lia|done].
Qed.

Lemma char_of_eqb_ascii b k : 0 < b < 256 -> 0 < k < 128 -> (char_of b =? k) = (b =? k).
Proof.
  intros. destruct (char_of_range b) as [_ [->|?]]; [lia|done|].
  rewrite (proj2 (Z.eqb_neq _ _)) by lia. symmetry. apply Z.eqb_neq. intros ->.
  rewrite char_of_small in *; lia.
Qed.

Lemma cstr_app m a s1 s2 :
  cstr_at m a (s1 ++ s2) -> cstr_at m (a + Z.of_nat (length s1)) s2.
Proof.
  intros [H HF]. rewrite <- app_assoc in H. apply bytes_at_app in H as [_ H].
  apply Forall_app in HF as [_ HF]. by split.
Qed.

Lemma skip_space_spec ws : forall m s rest fuel,
  cstr_at m s (ws ++ rest) -> (length ws < fuel)%nat ->
  Forall (fun c => is_space_char c = true) ws ->
  match rest with [] => True | c :: _ => is_space_char c = false end ->
  skip_space fuel s m = Done (s + Z.of_nat (length ws)).
Proof.
  induction ws as [|w ws IH]; intros m s rest [|f] Hs Hf HF Hr; simpl in Hf; try lia;
    cbn [skip_space app] in *.
  - rewrite Z.add_0_r. destruct rest as [|c rest].
    + by rewrite (loadc_nul _ _ Hs).
    + rewrite (loadc_cstr _ _ _ _ Hs). cbn [run_bind]. unfold is_space_char in Hr. by rewrite Hr.
  - apply Forall_cons in HF as [Hw HF]. rewrite (loadc_cstr _ _ _ _ Hs). cbn [run_bind].
    unfold is_space_char in Hw. rewrite Hw. apply cstr_at_cons in Hs as (_ & _ & Hs).
    rewrite (IH _ _ rest) by (done || lia). f_equal. cbn [length]. lia.
Qed.

Lemma loadc_eqb m s body k :
  cstr_at m s body -> 0 < k < 128 ->
  exists c, loadc m s = Done c /\ (c =? k) = bool_decide (head body = Some k).
Proof.
  intros Hs Hk. destruct body as [|b body].
  - exists 0. rewrite (loadc_nul _ _ Hs). split; [done|].
    rewrite bool_decide_eq_false_2 by done. apply Z.eqb_neq. lia.
  - exists (char_of b). rewrite (loadc_cstr _ _ _ _ Hs).
    apply cstr_at_cons in Hs as (_ & Hb & _). rewrite char_of_eqb_ascii by lia.
    split; [done|]. simpl. destruct (Z.eqb_spec b k) as [->|].
    + by rewrite bool_decide_eq_true_2.
    + rewrite bool_decide_eq_false_2; [done|congruence].
Qed.

Lemma detect_base_spec m s base body :
  cstr_at m s body ->
  detect_base s base m =
  Done (s + Z.of_nat (fst (detected base body)), snd (detected base body)).
Proof.
  intros Hs. unfold detect_base, detected.
  destruct (loadc_eqb m s body c_0 Hs ltac:(unfold c_0; lia)) as (c0 & Hl & Hc0).
  rewrite Hl. cbn [run_bind]. rewrite Hc0.
  destruct ((base =? 0) || (base =? 16)) eqn:Eb; cbn [andb].
  2:{ cbn [run_bind fst snd]. apply orb_false_iff in Eb as [-> _]. by rewrite Z.add_0_r. }
  case_bool_decide as Hz.
  2:{ replace (hex_prefix body) with false.
      2:{ destruct body as [|? [|? [|? ?]]]; simpl in *; try done.
          destruct (Z.eqb_spec z c_0); [congruence|done]. }
      cbn [run_bind fst snd]. rewrite Z.add_0_r. destruct (base =? 0); [|done].
      rewrite Hl. cbn [run_bind]. rewrite Hc0. done. }
  destruct body as [|z body]; [done|]. injection Hz as ->.
  pose proof Hs as (_ & _ & Hs1)%cstr_at_cons.
  destruct body as [|x body].
  { rewrite (loadc_nul _ _ Hs1). cbn [run_bind].
    change ((0 =? c_x) || (0 =? c_X)) with false. cbn [run_bind fst snd hex_prefix].
    rewrite Z.add_0_r. destruct (base =? 0); [|done].
    rewrite Hl. cbn [run_bind]. rewrite Hc0. by rewrite ?bool_decide_eq_true_2. }
  rewrite (loadc_cstr _ _ _ _ Hs1). cbn [run_bind].
  pose proof Hs1 as (_ & Hx & Hs2)%cstr_at_cons.
  rewrite !char_of_eqb_ascii by (unfold c_x, c_X; lia).
  replace (s + 1 + 1) with (s + 2) in Hs2 by lia.
  destruct ((x =? c_x) || (x =? c_X)) eqn:Ex.
  - destruct body as [|h body].
    + rewrite (loadc_nul _ _ Hs2). cbn [run_bind hex_prefix]. rewrite Z.add_0_r. cbn.
      destruct (Z.eqb_spec base 0); [done|]. cbn. by destruct (Z.eqb_spec base 0).
    + rewrite (loadc_cstr _ _ _ _ Hs2). cbn [run_bind hex_prefix]. rewrite Ex.
      rewrite Z.eqb_refl. cbn [andb].
      destruct (truthy (isxdigit (char_of h))); cbn [run_bind fst snd]; [done|].
      rewrite Z.add_0_r.
      destruct (Z.eqb_spec base 0); [done|]. cbn. by destruct (Z.eqb_spec base 0).
  - replace (hex_prefix (c_0 :: x :: body)) with false.
    2:{ destruct body; [done|]. simpl. by rewrite Ex. }
    cbn [run_bind fst snd]. rewrite Z.add_0_r. destruct (base =? 0); [|done].
    rewrite Hl. cbn [run_bind]. rewrite Hc0. by rewrite ?bool_decide_eq_true_2.
Qed.

Lemma digit_not_space_sign b c :
  is_digit_in b c = true ->
  0 < c < 128 /\ is_space_char c = false /\ (c =? c_minus) = false /\ (c =? c_plus) = false.
Proof.
  unfold is_digit_in. destruct (digit_value c) as [d|] eqn:E; [intros _|congruence].
  apply digit_value_range in E as [_ Hc]. unfold is_space_char, c_minus, c_plus.
  rewrite char_of_small by lia. repeat split; try lia; ctype.
Qed.

(** The body of a numeral starts with a digit or with the [0] of a prefix. *)
Lemma numeral_body m nptr base ws sg pre ds rest b :
  numeral_at m nptr base ws sg pre ds rest b ->
  exists c t, pre ++ ds ++ rest = c :: t /\
    is_space_char c = false /\ (char_of c =? c_minus) = false /\ (char_of c =? c_plus) = false.
Proof.
  intros [Ht _ _ Hdet _ Hd Hne _]. unfold detected in Hdet.
  destruct (((base =? 0) || (base =? 16)) && hex_prefix (pre ++ ds ++ rest)) eqn:E.
  - apply andb_true_iff in E as [_ E]. destruct (pre ++ ds ++ rest) as [|c t]; [done|].
    exists c, t. split; [done|]. destruct t as [|x [|h t]]; simpl in E; try done. bool_cases. subst.
    by vm_compute.
  - destruct pre; [|simpl in Hdet; congruence]. destruct ds as [|c ds]; [done|].
    exists c, (ds ++ rest). split; [done|]. apply Forall_cons in Hd as [Hc _].
    apply digit_not_space_sign in Hc as (? & ? & ? & ?). by rewrite char_of_small by lia.
Qed.

Lemma sign_spec m s sg c t :
  cstr_at m s (sg ++ c :: t) -> sg = [] \/ sg = [c_minus] \/ sg = [c_plus] ->
  (char_of c =? c_minus) = false -> (char_of c =? c_plus) = false ->
  exists k, loadc m s = Done k /\ (k =? c_minus) = bool_decide (sg = [c_minus]) /\
    (if (k =? c_minus) || (k =? c_plus) then s + 1 else s) = s + Z.of_nat (length sg).
Proof.
  intros Hs Hsg H1 H2.
  destruct Hsg as [->|[-> | ->]]; cbn [app] in Hs;
    rewrite (loadc_cstr _ _ _ _ Hs); eexists; split; eauto; rewrite ?H1, ?H2;
    split; try done; cbn; lia.
Qed.

Lemma strtox_main_spec m nptr base ws sg pre ds rest b :
  numeral_at m nptr base ws sg pre ds rest b ->
  strtox_main nptr base m =
  Done (Strtox (Z.min (digits_value b ds) ULLONG_MAX) (bool_decide (sg = [c_minus]))
          (ULLONG_MAX <? digits_value b ds)
          (nptr + Z.of_nat (length (ws ++ sg ++ pre ++ ds)))).
Proof.
  intros Hn. destruct (numeral_body _ _ _ _ _ _ _ _ _ Hn) as (c & t & Hbody & Hsp & Hm & Hp).
  destruct Hn as [Ht Hws Hsg Hdet Hb Hds Hne Hst].
  pose proof (cstr_at_size _ _ _ Ht) as Hsz. rewrite !length_app in Hsz.
  unfold strtox_main. rewrite (skip_space_spec ws m nptr (sg ++ pre ++ ds ++ rest)); [|done|lia|done|].
  2:{ destruct Hsg as [->|[-> | ->]]; cbn [app]; [by rewrite Hbody|done..]. }
  cbn [run_bind]. apply cstr_app in Ht. pose proof Ht as Ht'. rewrite Hbody in Ht'.
  destruct (sign_spec _ _ _ _ _ Ht' Hsg Hm Hp) as (k & Hk & Hneg & Hadv).
  rewrite Hk. cbn [run_bind]. rewrite Hadv, Hneg. clear Ht'. apply cstr_app in Ht.
  rewrite (detect_base_spec _ _ _ _ Ht), Hdet. cbn [run_bind fst snd].
  rewrite (proj2 (Z.ltb_ge b 2)), (proj2 (Z.ltb_ge 36 b)) by lia. cbn [orb].
  apply cstr_app in Ht.
  destruct (digits_loop_spec ds m _ b 0 0 rest (S (size m)) Hb Ht) as (any & a & Hl & _ & H3 & H4);
    [rewrite length_app; lia|done|done|unfold ULLONG_MAX; lia|].
  rewrite Hl. cbn [run_bind fst snd].
  change (digits_from b 0 ds) with (digits_value b ds) in *.
  f_equal. destruct (Z.ltb_spec ULLONG_MAX (digits_value b ds)) as [Hov|Hok].
  - specialize (H4 ltac:(lia) Hov). rewrite (proj2 (Z.ltb_lt any 0)) by lia.
    rewrite (proj2 (Z.eqb_neq any 0)) by lia. f_equal; [lia|]. rewrite !length_app. lia.
  - destruct (H3 ltac:(lia) Hok) as [-> ->]. rewrite decide_False by done. cbn.
    f_equal; [lia|]. rewrite !length_app. lia.
Qed.

Lemma digits_value_nonneg b ds :
  1 <= b -> Forall (fun c => is_digit_in b c = true) ds -> 0 <= digits_value b ds.
Proof. intros. by apply (digits_from_mono b 0 ds). Qed.

Lemma s64_small x : - 2 ^ 63 <= x < 2 ^ 63 -> s64 x = x.
Proof.
  intros. unfold s64, to_signed, wrap. cbv zeta.
  change (2 ^ (64 - 1)) with (2 ^ 63). destruct (decide (0 <= x)).
  - rewrite Z.mod_small by lia. destruct (Z.ltb_spec x (2 ^ 63)); lia.
  - assert (x mod 2 ^ 64 = x + 2 ^ 64) as ->.
    { rewrite <- (Z.mod_add x 1) by lia. apply Z.mod_small. lia. }
    destruct (Z.ltb_spec (x + 2 ^ 64) (2 ^ 63)); lia.
Qed.

(** on white space, an optional sign, an optional [0x]/[0X] or [0] base
    prefix and digits, [strtoull] returns the magnitude saturated at
    [ULLONG_MAX] (negated modulo 2^64 after a minus sign when it does not
    overflow), [strtoll] returns the signed value clamped to the [long long]
    range, and both leave the end pointer just behind the last digit. *)
Theorem strto_value m nptr base ws sg pre ds rest b :
  numeral_at m nptr base ws sg pre ds rest b ->
  let v := digits_value b ds in
  let neg := bool_decide (sg = [c_minus]) in
  let last := nptr + Z.of_nat (length (ws ++ sg ++ pre ++ ds)) in
  strtoull nptr base m =
    Done (if ULLONG_MAX <? v then ULLONG_MAX else if neg then u64 (- v) else v, last) /\
  strtoll nptr base m =
    Done (Z.max LLONG_MIN (Z.min LLONG_MAX (if neg then - v else v)), last).
Proof.
  intros Hn v neg last. pose proof (strtox_main_spec _ _ _ _ _ _ _ _ _ Hn) as H.
  unfold strtoull, strtoll. rewrite H. cbn [run_bind endp].
  assert (0 <= v) by (destruct Hn; apply digits_value_nonneg; [lia|done]).
  unfold strtoull_of, strtoll_of. cbn [overflow negative acc]. fold v neg last.
  unfold ULLONG_MAX, LLONG_MAX, LLONG_MIN in *.
  destruct (Z.ltb_spec (2 ^ 64 - 1) v).
  - split; [done|]. do 2 f_equal. destruct neg; lia.
  - rewrite Z.min_l by lia. split; [done|]. do 2 f_equal. destruct neg.
    + destruct (Z.ltb_spec (2 ^ 63 - 1 + 1) v); [lia|].
      destruct (decide (v = 2 ^ 63)) as [->|]; [done|].
      rewrite (s64_small v), s64_small by lia. lia.
    + destruct (Z.ltb_spec (2 ^ 63 - 1) v); [lia|]. rewrite s64_small by lia. lia.
Qed.

Lemma strto_value_witness :
  let m := write_bytes 8 [32; 45; 48; 120; 49; 102; 59; 0] ∅ in
  strtoull 8 0 m = Done (u64 (-31), 14) /\ strtoll 8 0 m = Done (-31, 14).
Proof.
  intros m. apply (strto_value m 8 0 [32] [45] [48; 120] [49; 102] [59] 16).
  split; [solve_bytes|by repeat constructor|by right; left|done|lia|by repeat constructor|done|done].
Defined.

End spec.
End CStdlib.
