(* ===== verification/NkList.v ===== *)
(** * nk_std::list: src/src/libcxx/include/nk_list

    The doubly linked list with an embedded sentinel.  Nodes live in a small
    heap with one finite map per field ([next], [prev], [data]); the sentinel
    is a node without data.  An operation that follows a pointer outside the
    heap is undefined behaviour and returns [None].  [repr] is the ring
    invariant; every operation is shown to implement the operation on the
    mathematical list of the stored values. *)

From stdpp Require Import base numbers list gmap.
From Stdlib Require Import ZArith Lia.
From S2P Require Import Prelude.

Local Open Scope Z_scope.

Module NkList.

(** ** Definitions *)

Section defs.
Context {T : Type} `{EqDecision T}.

Record nklist := MkList {
  sentinel : ptr;
  next : gmap Z Z;
  prev : gmap Z Z;
  data : gmap Z T;
  _size : Z
}.

(** [list() : _size(0)]: the sentinel of an empty list points at itself. *)
Definition empty_list (s : ptr) : nklist :=
  MkList s {[s := s]} {[s := s]} ∅ 0.

Definition begin (l : nklist) : option ptr := next l !! sentinel l.
Definition end_ (l : nklist) : ptr := sentinel l.

(** [iterator::operator++], [operator--] and [operator*]. *)
Definition it_next (l : nklist) (p : ptr) : option ptr := next l !! p.
Definition it_prev (l : nklist) (p : ptr) : option ptr := prev l !! p.
Definition it_deref (l : nklist) (p : ptr) : option T := data l !! p.

Definition empty (l : nklist) : bool := _size l =? 0.
Definition size (l : nklist) : Z := _size l.

Definition front (l : nklist) : option T := p ← begin l; it_deref l p.
Definition back (l : nklist) : option T := p ← it_prev l (end_ l); it_deref l p.

(** [new node_type(val)] returns an address that is not in use. *)
Definition new_node (l : nklist) : ptr := fresh (dom (next l)).

Definition insert (l : nklist) (pos : ptr) (val : T) : option (nklist * ptr) :=
  let new := new_node l in
  prv ← prev l !! pos;
  let next' := <[prv := new]> (<[new := pos]> (next l)) in
  let prev' := <[pos := new]> (<[new := prv]> (prev l)) in
  Some (MkList (sentinel l) next' prev' (<[new := val]> (data l)) (u64 (_size l + 1)), new).

Definition erase (l : nklist) (pos : ptr) : option (nklist * ptr) :=
  if pos =? end_ l then Some (l, end_ l)
  else
    prv ← prev l !! pos;
    nxt ← next l !! pos;
    let next' := <[prv := nxt]> (next l) in
    let prev' := <[nxt := prv]> (prev l) in
    Some (MkList (sentinel l) (delete pos next') (delete pos prev') (delete pos (data l))
            (u64 (_size l - 1)), nxt).

Definition push_front (l : nklist) (val : T) : option nklist :=
  b ← begin l; fst <$> insert l b val.
Definition push_back (l : nklist) (val : T) : option nklist := fst <$> insert l (end_ l) val.
Definition pop_front (l : nklist) : option nklist := b ← begin l; fst <$> erase l b.
Definition pop_back (l : nklist) : option nklist :=
  p ← it_prev l (end_ l); fst <$> erase l p.

(** [while (it != end()) { if (pred( *it)) it = erase(it); else ++it; }] *)
Fixpoint remove_if_loop (fuel : nat) (pred : T -> bool) (l : nklist) (it : ptr)
  : option nklist :=
  match fuel with
  | O => None
  | S f =>
      if it =? end_ l then Some l
      else
        v ← it_deref l it;
        if pred v then r ← erase l it; remove_if_loop f pred r.1 r.2
        else n ← it_next l it; remove_if_loop f pred l n
  end.

Definition remove_if (pred : T -> bool) (l : nklist) : option nklist :=
  b ← begin l; remove_if_loop (S (Z.to_nat (_size l))) pred l b.

Definition remove (value : T) (l : nklist) : option nklist :=
  remove_if (fun v => bool_decide (v = value)) l.

(** [while (!empty()) pop_front();] *)
Fixpoint clear_loop (fuel : nat) (l : nklist) : option nklist :=
  match fuel with
  | O => None
  | S f => if empty l then Some l else l' ← pop_front l; clear_loop f l'
  end.

Definition clear (l : nklist) : option nklist := clear_loop (S (Z.to_nat (_size l))) l.

(** Copy construction and assignment: [push_back] of every element in order. *)
Fixpoint append_all (l : nklist) (vs : list T) : option nklist :=
  match vs with [] => Some l | v :: vs' => l' ← push_back l v; append_all l' vs' end.

(** [erase(first, last)]: [while (first != last) first = erase(first);] *)
Fixpoint erase_range (fuel : nat) (l : nklist) (first last : ptr) : option (nklist * ptr) :=
  match fuel with
  | O => None
  | S f => if first =? last then Some (l, last) else r ← erase l first; erase_range f r.1 r.2 last
  end.

(** [for (const auto& item : other) push_back(item);] *)
Fixpoint copy_loop (fuel : nat) (other : nklist) (it : ptr) (l : nklist) : option nklist :=
  match fuel with
  | O => None
  | S f =>
      if it =? end_ other then Some l
      else v ← it_deref other it; l' ← push_back l v; n ← it_next other it; copy_loop f other n l'
  end.
Definition copy_from (other l : nklist) : option nklist :=
  b ← begin other; copy_loop (S (Z.to_nat (_size other))) other b l.
(** The copy constructor, with the address of the new sentinel. *)
Definition copy (other : nklist) (s : ptr) : option nklist := copy_from other (empty_list s).
(** [operator=]; [self] is [this == &other]. *)
Definition assign (self : bool) (l other : nklist) : option nklist :=
  if self then Some l else l' ← clear l; copy_from other l'.

End defs.
Arguments nklist T : clear implicits.

(** ** The ring *)

Definition link (nx pv : gmap Z Z) (a b : ptr) : Prop := nx !! a = Some b /\ pv !! b = Some a.

(** Consecutive nodes of a path are linked both ways. *)
Fixpoint path (nx pv : gmap Z Z) (l : list ptr) : Prop :=
  match l with
  | a :: (b :: _) as t => link nx pv a b /\ path nx pv t
  | _ => True
  end.

(** [l] stores the values [xs], in the nodes [ps]. *)
Record repr {T} (l : nklist T) (ps : list ptr) (xs : list T) : Prop := {
  repr_nodup : NoDup (sentinel l :: ps);
  repr_path : path (next l) (prev l) (sentinel l :: ps ++ [sentinel l]);
  repr_dom : forall p, is_Some (next l !! p) -> p ∈ sentinel l :: ps;
  repr_data : Forall2 (fun p x => data l !! p = Some x) ps xs;
  repr_sent : data l !! sentinel l = None;
  repr_size : _size l = Z.of_nat (length xs);
  repr_bound : Z.of_nat (length xs) < 2 ^ 64 - 1
}.

Section ring.
Implicit Types (nx pv : gmap Z Z) (L : list ptr).

Lemma path_cut nx pv L1 L2 q p :
  last L1 = Some q -> head L2 = Some p ->
  path nx pv (L1 ++ L2) <-> path nx pv L1 /\ link nx pv q p /\ path nx pv L2.
Proof.
  intros Hq Hp. destruct L2 as [|p' L2]; [done|]. injection Hp as ->.
  induction L1 as [|x L1 IH]; [done|]. destruct L1 as [|y L1].
  - injection Hq as ->. simpl. tauto.
  - change (path nx pv ((x :: y :: L1) ++ p :: L2)) with
      (link nx pv x y /\ path nx pv ((y :: L1) ++ p :: L2)).
    change (path nx pv (x :: y :: L1)) with (link nx pv x y /\ path nx pv (y :: L1)).
    rewrite (IH Hq). tauto.
Qed.

Lemma path_frame nx pv nx' pv' L :
  path nx pv L ->
  (forall a, a ∈ removelast L -> nx' !! a = nx !! a) ->
  (forall b, b ∈ tail L -> pv' !! b = pv !! b) ->
  path nx' pv' L.
Proof.
  induction L as [|x [|y L] IH]; intros Hp Hn Hv; [done..|].
  destruct Hp as [[H1 H2] Hp]. split.
  - split; [rewrite Hn by (simpl; set_solver)|rewrite Hv by set_solver]; done.
  - apply IH; [done|..].
    + intros a Ha. apply Hn. simpl in *. set_solver.
    + intros b Hb. apply Hv. simpl in *. set_solver.
Qed.

Lemma path_source nx pv L a : path nx pv L -> a ∈ removelast L -> is_Some (nx !! a).
Proof.
  induction L as [|x [|y L] IH]; intros Hp Ha; [set_solver..|].
  destruct Hp as [[H1 _] Hp]. simpl in Ha. apply elem_of_cons in Ha as [->|Ha]; [eauto|].
  by apply IH.
Qed.

(** The facts about neighbours that the updates of a ring need. *)
Lemma ring_sides (s q n : ptr) (ps1 ps2 : list ptr) :
  NoDup (s :: ps1 ++ ps2) -> last (s :: ps1) = Some q -> head (ps2 ++ [s]) = Some n ->
  (q ∉ removelast (s :: ps1)) /\ (q ∉ ps2) /\ (n ∉ ps1) /\ (n ∉ tail (ps2 ++ [s])).
Proof.
  intros Hn Hq Hh. rewrite app_comm_cons, NoDup_app in Hn. destruct Hn as (Hn1 & Hd & Hn2).
  assert (NoDup (ps2 ++ [s])) as Hn2'.
  { apply NoDup_app. split; [done|]. split; [|apply NoDup_singleton].
    intros x Hx ->%list_elem_of_singleton. apply (Hd s); [set_solver|done]. }
  pose proof (last_elem _ _ Hq) as Hq1. pose proof (head_elem _ _ Hh) as Hn1'.
  split; [by apply NoDup_last|]. split; [by apply Hd|]. split; [|by apply NoDup_head].
  intros Hx. apply elem_of_app in Hn1' as [H| ->%list_elem_of_singleton].
  - apply (Hd n); [set_solver|done].
  - by apply NoDup_cons in Hn1 as [? _].
Qed.

End ring.

(** ** Refinement *)

Section refinement.
Context {T : Type} `{EqDecision T}.
Implicit Types (l : nklist T) (xs : list T).

Lemma repr_empty s : repr (empty_list s : nklist T) [] [].
Proof.
  split; simpl; try lia.
  - apply NoDup_singleton.
  - split; [|done]. split; by rewrite lookup_singleton_eq.
  - intros p [y Hy]. apply lookup_singleton_Some in Hy as [-> _]. set_solver.
  - constructor.
  - done.
Qed.

Lemma repr_new_node l ps xs : repr l ps xs -> new_node l ∉ sentinel l :: ps.
Proof.
  intros H Hin. unfold new_node in Hin.
  assert (is_Some (next l !! fresh (dom (next l)))) as Hs.
  { eapply (path_source _ (prev l) (sentinel l :: ps ++ [sentinel l])); [apply H|].
    rewrite app_comm_cons, removelast_snoc. done. }
  apply elem_of_dom in Hs. by apply (is_fresh (dom (next l))) in Hs.
Qed.

Lemma repr_cut l ps1 ps2 xs q n :
  repr l (ps1 ++ ps2) xs ->
  last (sentinel l :: ps1) = Some q -> head (ps2 ++ [sentinel l]) = Some n ->
  path (next l) (prev l) (sentinel l :: ps1) /\ link (next l) (prev l) q n /\
  path (next l) (prev l) (ps2 ++ [sentinel l]).
Proof.
  intros H Hq Hh. pose proof (repr_path _ _ _ H) as Hp.
  rewrite <- app_assoc, app_comm_cons in Hp. by rewrite path_cut in Hp.
Qed.

Lemma repr_insert l ps1 ps2 xs1 xs2 v n :
  repr l (ps1 ++ ps2) (xs1 ++ xs2) -> length ps1 = length xs1 ->
  head (ps2 ++ [sentinel l]) = Some n ->
  Z.of_nat (S (length (xs1 ++ xs2))) < 2 ^ 64 - 1 ->
  exists l', insert l n v = Some (l', new_node l) /\ sentinel l' = sentinel l /\
    repr l' (ps1 ++ new_node l :: ps2) (xs1 ++ v :: xs2).
Proof.
  intros H Hl Hn Hb. destruct (last_cons_default (sentinel l) ps1) as [q Hq].
  destruct (repr_cut _ _ _ _ _ _ H Hq Hn) as (P1 & [Lk1 Lk2] & P2).
  pose proof (repr_new_node _ _ _ H) as Hnew.
  destruct (ring_sides _ _ _ _ _ (repr_nodup _ _ _ H) Hq Hn) as (S1 & S2 & S3 & S4).
  unfold insert. rewrite Lk2. cbn. eexists. split; [reflexivity|]. split; [done|].
  set (new := new_node l) in *.
  pose proof (last_elem _ _ Hq) as Eq. pose proof (head_elem _ _ Hn) as En.
  assert (q <> new) by elem_ne. assert (n <> new) by elem_ne.
  destruct H as [Hnd _ Hdom Hdat Hsent Hsz _]. split; cbn [sentinel next prev data _size].
  - rewrite NoDup_cons in *. rewrite <- Permutation_middle, NoDup_cons.
    split; [|split]; [elem_tauto..|tauto].
  - rewrite <- app_assoc, app_comm_cons. apply (path_cut _ _ _ _ q new); [done|done|].
    split; [|split].
    + apply (path_frame (next l) (prev l)); [done|..]; intros a Ha.
      * rewrite !lookup_insert_ne; [done| |by intros <-].
        apply removelast_elem in Ha. elem_ne.
      * simpl in Ha. rewrite !lookup_insert_ne; [done|elem_ne..].
    + split; [by rewrite lookup_insert_eq|]. by rewrite lookup_insert_ne, lookup_insert_eq by done.
    + apply (path_cut _ _ [new] (ps2 ++ [sentinel l]) new n); [done|done|]. split; [done|]. split.
      * split; [by rewrite lookup_insert_ne, lookup_insert_eq by done|by rewrite lookup_insert_eq].
      * apply (path_frame (next l) (prev l)); [done|..]; intros a Ha.
        -- rewrite removelast_snoc in Ha. rewrite !lookup_insert_ne; [done|elem_ne..].
        -- rewrite !lookup_insert_ne; [done| |by intros <-].
           apply tail_elem in Ha. elem_ne.
  - intros p. rewrite !lookup_insert. repeat case_decide; subst; intros Hp;
      try apply Hdom in Hp; elem_tauto.
  - apply Forall2_app_inv in Hdat as [HF1 HF2]; [|done]. apply Forall2_app.
    + eapply Forall2_impl_in; [|exact HF1]. intros. rewrite lookup_insert_ne; [done|elem_ne].
    + constructor; [by rewrite lookup_insert_eq|]. eapply Forall2_impl_in; [|exact HF2].
      intros. rewrite lookup_insert_ne; [done|elem_ne].
  - rewrite lookup_insert_ne; [done|elem_ne].
  - rewrite Hsz, !length_app. cbn [length]. rewrite length_app in Hb. rewrite u64_small; lia.
  - rewrite length_app in *. cbn [length]. lia.
Qed.

Lemma repr_erase l ps1 p ps2 xs1 x xs2 n :
  repr l (ps1 ++ p :: ps2) (xs1 ++ x :: xs2) -> length ps1 = length xs1 ->
  head (ps2 ++ [sentinel l]) = Some n ->
  exists l', erase l p = Some (l', n) /\ sentinel l' = sentinel l /\
    repr l' (ps1 ++ ps2) (xs1 ++ xs2).
Proof.
  intros H Hl Hn. destruct (last_cons_default (sentinel l) ps1) as [q Hq].
  destruct (repr_cut l ps1 (p :: ps2) _ q p H Hq eq_refl) as (P1 & [Lk1 Lk2] & P2).
  apply (path_cut _ _ [p] (ps2 ++ [sentinel l]) p n eq_refl Hn) in P2 as (_ & [Lk3 Lk4] & P2).
  destruct H as [Hnd _ Hdom Hdat Hsent Hsz Hbd].
  assert (NoDup (sentinel l :: ps1 ++ ps2) /\ (p ∉ sentinel l :: ps1 ++ ps2)) as [Hnd' Hp].
  { rewrite <- Permutation_middle, !NoDup_cons in Hnd. rewrite NoDup_cons. elem_tauto. }
  destruct (ring_sides _ _ _ _ _ Hnd' Hq Hn) as (S1 & S2 & S3 & S4).
  pose proof (last_elem _ _ Hq) as Eq. pose proof (head_elem _ _ Hn) as En.
  assert (p <> q) by elem_ne. assert (p <> n) by elem_ne.
  unfold erase, end_. destruct (Z.eqb_spec p (sentinel l)) as [Hps|_]; [elem_tauto|].
  rewrite Lk2, Lk3. cbn. eexists. split; [reflexivity|]. split; [done|].
  split; cbn [sentinel next prev data _size].
  - done.
  - rewrite <- app_assoc, app_comm_cons. apply (path_cut _ _ _ _ q n); [done|done|].
    split; [|split].
    + apply (path_frame (next l) (prev l)); [done|..]; intros a Ha.
      * rewrite lookup_delete_ne, lookup_insert_ne; [done|by intros <-|].
        apply removelast_elem in Ha. elem_ne.
      * simpl in Ha. rewrite lookup_delete_ne, lookup_insert_ne; [done|elem_ne..].
    + split; by rewrite lookup_delete_ne, lookup_insert_eq by done.
    + apply (path_frame (next l) (prev l)); [done|..]; intros a Ha.
      * rewrite removelast_snoc in Ha. rewrite lookup_delete_ne, lookup_insert_ne; [done|elem_ne..].
      * rewrite lookup_delete_ne, lookup_insert_ne; [done|by intros <-|].
        apply tail_elem in Ha. elem_ne.
  - intros a. rewrite lookup_delete, lookup_insert. repeat case_decide; subst; intros Ha;
      try (by destruct Ha); try apply Hdom in Ha; elem_tauto.
  - apply Forall2_app_inv in Hdat as [HF1 HF2]; [|done]. apply Forall2_cons in HF2 as [_ HF2].
    apply Forall2_app; [eapply Forall2_impl_in; [|exact HF1]|eapply Forall2_impl_in; [|exact HF2]];
      intros; (rewrite lookup_delete_ne; [done|elem_ne]).
  - rewrite lookup_delete_ne; [done|elem_ne].
  - rewrite Hsz, !length_app in *. cbn [length] in *. rewrite u64_small; lia.
  - rewrite length_app in *. cbn [length] in *. lia.
Qed.

(** The first node, by the ring. *)
Lemma repr_begin l ps xs : repr l ps xs -> begin l = head (ps ++ [sentinel l]).
Proof.
  intros H. pose proof (repr_path _ _ _ H) as Hp. unfold begin.
  destruct ps as [|p ps]; by destruct Hp as [[-> _] _].
Qed.

Lemma repr_last l ps xs : repr l ps xs -> it_prev l (end_ l) = last (sentinel l :: ps).
Proof.
  intros H. pose proof (repr_path _ _ _ H) as Hp. unfold it_prev, end_.
  destruct (last_cons_default (sentinel l) ps) as [q Hq]. rewrite Hq.
  rewrite app_comm_cons in Hp.
  by destruct (proj1 (path_cut _ _ _ [sentinel l] q (sentinel l) Hq eq_refl) Hp) as (_ & [_ ?] & _).
Qed.

Lemma repr_length l ps xs : repr l ps xs -> length ps = length xs.
Proof. intros H. by eapply Forall2_length, H. Qed.

Lemma repr_empty_iff l ps xs : repr l ps xs -> empty l = bool_decide (xs = []).
Proof.
  intros H. unfold empty. rewrite (repr_size _ _ _ H).
  destruct xs; [done|]. rewrite bool_decide_eq_false_2 by done. apply Z.eqb_neq. simpl. lia.
Qed.

Lemma repr_deref l ps1 p ps2 xs1 x xs2 :
  repr l (ps1 ++ p :: ps2) (xs1 ++ x :: xs2) -> length ps1 = length xs1 ->
  it_deref l p = Some x /\ (p =? end_ l) = false.
Proof.
  intros H Hl. split.
  - pose proof (repr_data _ _ _ H) as HF. apply Forall2_app_inv in HF as [_ HF]; [|done].
    by apply Forall2_cons in HF as [? _].
  - apply Z.eqb_neq. intros ->. pose proof (repr_nodup _ _ _ H) as Hnd.
    unfold end_ in Hnd. apply NoDup_cons in Hnd as [Hnd _]. elem_tauto.
Qed.

Lemma repr_it_next l ps1 p ps2 xs n :
  repr l (ps1 ++ p :: ps2) xs -> head (ps2 ++ [sentinel l]) = Some n ->
  it_next l p = Some n.
Proof.
  intros H Hn. destruct (last_cons_default (sentinel l) ps1) as [q Hq].
  destruct (repr_cut l ps1 (p :: ps2) _ q p H Hq eq_refl) as (_ & _ & P2).
  by destruct (proj1 (path_cut _ _ [p] (ps2 ++ [sentinel l]) p n eq_refl Hn) P2) as (_ & [? _] & _).
Qed.

(** [remove_if] from an iterator in the middle: the part before it is kept. *)
Lemma remove_if_loop_spec pred xs2 : forall l ps1 ps2 xs1 fuel it,
  repr l (ps1 ++ ps2) (xs1 ++ xs2) -> length ps1 = length xs1 ->
  head (ps2 ++ [sentinel l]) = Some it -> (length xs2 < fuel)%nat ->
  exists l' ps', remove_if_loop fuel pred l it = Some l' /\ sentinel l' = sentinel l /\
    repr l' ps' (xs1 ++ List.filter (fun v => negb (pred v)) xs2).
Proof.
  induction xs2 as [|x xs2 IH]; intros l ps1 ps2 xs1 [|f] it H Hl Hit Hf;
    simpl in Hf; try lia;
    pose proof (repr_length _ _ _ H) as Hlen; rewrite !length_app in Hlen.
  - destruct ps2; [|simpl in Hlen; lia]. injection Hit as <-.
    exists l, (ps1 ++ []). simpl. unfold end_. by rewrite Z.eqb_refl.
  - destruct ps2 as [|p ps2]; [simpl in Hlen; lia|]. injection Hit as ->.
    destruct (repr_deref _ _ _ _ _ _ _ H Hl) as [Hd He]. cbn [remove_if_loop].
    rewrite He, Hd. cbn. destruct (head_app_default ps2 (sentinel l)) as [n Hn].
    destruct (pred x); cbn [negb].
    + destruct (repr_erase _ _ _ _ _ _ _ _ H Hl Hn) as (l1 & -> & Hs1 & H1). cbn.
      rewrite <- Hs1 in Hn |- *. eapply IH; eauto. lia.
    + rewrite (repr_it_next _ _ _ _ _ _ H Hn). cbn.
      rewrite cons_middle, app_assoc in H. rewrite (cons_middle x xs1 xs2), app_assoc in H.
      destruct (IH l (ps1 ++ [it]) ps2 (xs1 ++ [x]) f n H) as (l' & ps' & H1 & H2 & H3);
        [rewrite !length_app; simpl; lia|done|lia|].
      exists l', ps'. split; [done|]. split; [done|]. by rewrite <- app_assoc in H3.
Qed.

Lemma clear_loop_spec xs : forall l ps fuel,
  repr l ps xs -> (length xs < fuel)%nat ->
  exists l', clear_loop fuel l = Some l' /\ repr l' [] [].
Proof.
  induction xs as [|x xs IH]; intros l ps [|f] H Hf; simpl in Hf; try lia;
    cbn [clear_loop]; rewrite (repr_empty_iff _ _ _ H).
  - rewrite bool_decide_eq_true_2 by done. exists l. split; [done|].
    apply repr_length in H as Hl. destruct ps; [done|simpl in Hl; lia].
  - rewrite bool_decide_eq_false_2 by done.
    apply repr_length in H as Hl. destruct ps as [|p ps]; [simpl in Hl; lia|].
    unfold pop_front. rewrite (repr_begin _ _ _ H). cbn [head app]. cbn.
    destruct (head_app_default ps (sentinel l)) as [n Hn].
    destruct (repr_erase l [] p ps [] x xs n H eq_refl Hn) as (l1 & -> & _ & H1). cbn.
    eapply IH; [exact H1|lia].
Qed.

(** The abstract list that a ring represents. *)
Definition stores (l : nklist T) (xs : list T) : Prop := exists ps, repr l ps xs.

Lemma stores_push_front l xs v :
  stores l xs -> Z.of_nat (S (length xs)) < 2 ^ 64 - 1 ->
  exists l', push_front l v = Some l' /\ stores l' (v :: xs).
Proof.
  intros [ps H] Hb. destruct (head_app_default ps (sentinel l)) as [n Hn].
  destruct (repr_insert l [] ps [] xs v n H eq_refl Hn Hb) as (l' & E & _ & H').
  unfold push_front. rewrite (repr_begin _ _ _ H), Hn. cbn. rewrite E. eexists; split; [reflexivity|]; eexists; eassumption.
Qed.

Lemma stores_push_back l xs v :
  stores l xs -> Z.of_nat (S (length xs)) < 2 ^ 64 - 1 ->
  exists l', push_back l v = Some l' /\ stores l' (xs ++ [v]).
Proof.
  intros [ps H] Hb. pose proof (repr_length _ _ _ H) as Hlen.
  rewrite <- (app_nil_r ps), <- (app_nil_r xs) in H.
  destruct (repr_insert l ps [] xs [] v _ H Hlen eq_refl) as (l' & E & _ & H').
  { by rewrite app_nil_r. }
  unfold push_back, end_. rewrite E. eexists; split; [reflexivity|]; eexists; eassumption.
Qed.

Lemma stores_pop_front l xs :
  stores l xs -> exists l', pop_front l = Some l' /\ stores l' (tail xs).
Proof.
  intros [ps H]. pose proof (repr_length _ _ _ H) as Hlen.
  unfold pop_front. rewrite (repr_begin _ _ _ H).
  destruct ps as [|p ps], xs as [|x xs]; simpl in Hlen; try lia; cbn.
  - unfold erase, end_. rewrite Z.eqb_refl. eexists; split; [reflexivity|]; eexists; eassumption.
  - destruct (head_app_default ps (sentinel l)) as [n Hn].
    destruct (repr_erase l [] p ps [] x xs n H eq_refl Hn) as (l1 & -> & _ & H1).
    eexists; split; [reflexivity|]; eexists; eassumption.
Qed.

Lemma stores_pop_back l xs :
  stores l xs -> exists l', pop_back l = Some l' /\ stores l' (removelast xs).
Proof.
  intros [ps H]. pose proof (repr_length _ _ _ H) as Hlen.
  unfold pop_back. rewrite (repr_last _ _ _ H).
  destruct ps as [|p ps _] using rev_ind; destruct xs as [|x xs _] using rev_ind;
    rewrite ?length_app in Hlen; simpl in Hlen; try lia.
  - cbn. unfold erase, end_. rewrite Z.eqb_refl. eexists; split; [reflexivity|]; eexists; eassumption.
  - rewrite app_comm_cons, last_snoc, removelast_snoc. cbn.
    destruct (repr_erase l ps p [] xs x [] (sentinel l) H ltac:(lia) eq_refl) as (l1 & -> & _ & H1).
    rewrite !app_nil_r in H1. eexists; split; [reflexivity|]; eexists; eassumption.
Qed.

Lemma stores_remove l xs v :
  stores l xs ->
  exists l', remove v l = Some l' /\
    stores l' (List.filter (fun x => negb (bool_decide (x = v))) xs).
Proof.
  intros [ps H]. pose proof (repr_size _ _ _ H) as Hsz.
  unfold remove, remove_if. destruct (head_app_default ps (sentinel l)) as [n Hn].
  rewrite (repr_begin _ _ _ H), Hn. cbn.
  destruct (remove_if_loop_spec (fun x => bool_decide (x = v)) xs l [] ps []
    (S (Z.to_nat (_size l))) n H eq_refl Hn) as (l' & ps' & E & _ & H'); [lia|].
  cbn in E. rewrite E. eexists; split; [reflexivity|]; eexists; eassumption.
Qed.

Lemma stores_clear l xs : stores l xs -> exists l', clear l = Some l' /\ stores l' [].
Proof.
  intros [ps H]. pose proof (repr_size _ _ _ H) as Hsz.
  destruct (clear_loop_spec xs l ps (S (Z.to_nat (_size l))) H) as (l' & E & H'); [lia|].
  exists l'; split; [exact E|]; eexists; eassumption.
Qed.

Lemma stores_ends l xs : stores l xs -> front l = head xs /\ back l = last xs.
Proof.
  intros [ps H]. pose proof (repr_data _ _ _ H) as HF. pose proof (repr_sent _ _ _ H) as Hs.
  unfold front, back. rewrite (repr_begin _ _ _ H), (repr_last _ _ _ H). split.
  - by destruct HF; cbn.
  - destruct ps as [|p ps _] using rev_ind.
    + apply Forall2_nil_inv_l in HF as ->. done.
    + apply Forall2_app_inv_l in HF as (xs1 & xs2 & _ & HF & ->).
      inversion HF as [|? x ? xs2' Hd HF']; subst. inversion HF'; subst.
      rewrite app_comm_cons, !last_snoc. exact Hd.
Qed.

Lemma stores_size l xs :
  stores l xs -> size l = Z.of_nat (length xs) /\ empty l = bool_decide (xs = []).
Proof. intros [ps H]. split; [apply H|by eapply repr_empty_iff]. Qed.

(** A range that ends at a node behind it, or at the end. *)
Lemma repr_erase_range xs2 : forall l ps1 ps2 ps3 xs1 xs3 fuel first last_,
  repr l (ps1 ++ ps2 ++ ps3) (xs1 ++ xs2 ++ xs3) -> length ps1 = length xs1 -> length ps2 = length xs2 ->
  head (ps2 ++ ps3 ++ [sentinel l]) = Some first -> head (ps3 ++ [sentinel l]) = Some last_ -> (length xs2 < fuel)%nat ->
  exists l', erase_range fuel l first last_ = Some (l', last_) /\ sentinel l' = sentinel l /\ repr l' (ps1 ++ ps3) (xs1 ++ xs3).
Proof.
  induction xs2 as [|x xs2 IH]; intros l ps1 ps2 ps3 xs1 xs3 [|f] first last_ H H1 H2 Hf Hl Hfuel; cbn in Hfuel; try lia; cbn [erase_range].
  - destruct ps2; [|done]. cbn in Hf. rewrite Hf in Hl. injection Hl as ->. rewrite Z.eqb_refl. exists l. done.
  - destruct ps2 as [|p ps2]; [done|]. injection Hf as <-. injection H2 as H2.
    assert (p <> last_) as Hne.
    { intros Ep. pose proof (repr_nodup _ _ _ H) as Hnd. apply NoDup_cons in Hnd as [Hs Hnd].
      destruct ps3 as [|q ps3]; injection Hl as Hl; rewrite Ep, <- Hl in *; [elem_tauto|]. apply NoDup_app in Hnd as (_ & _ & Hnd).
      cbn in Hnd. apply NoDup_cons in Hnd as [Hnd _]. elem_tauto. }
    rewrite (proj2 (Z.eqb_neq _ _) Hne). destruct (head_app_default (ps2 ++ ps3) (sentinel l)) as [n Hn].
    destruct (repr_erase l ps1 p (ps2 ++ ps3) xs1 x (xs2 ++ xs3) n H H1 Hn) as (l1 & -> & Hs & R). cbn.
    rewrite <- app_assoc in Hn. rewrite <- Hs in Hn, Hl. destruct (IH l1 ps1 ps2 ps3 xs1 xs3 f n last_ R H1 H2 Hn Hl ltac:(lia)) as (l' & E & Hs' & R').
    exists l'. split_and!; [done|congruence|done].
Qed.

Lemma copy_loop_spec (other : nklist T) ys2 : forall qs1 qs2 ys1 fuel it l xs,
  repr other (qs1 ++ qs2) (ys1 ++ ys2) -> length qs1 = length ys1 -> head (qs2 ++ [sentinel other]) = Some it -> (length ys2 < fuel)%nat ->
  stores l xs -> Z.of_nat (length (xs ++ ys2)) < 2 ^ 64 - 1 -> exists l', copy_loop fuel other it l = Some l' /\ stores l' (xs ++ ys2).
Proof.
  induction ys2 as [|y ys2 IH]; intros qs1 qs2 ys1 [|f] it l xs H Hl Hit Hf Hx Hb; cbn in Hf; try lia; cbn [copy_loop];
    pose proof (repr_length _ _ _ H) as Hlen; rewrite !length_app in Hlen.
  - destruct qs2; [|cbn in Hlen; lia]. injection Hit as <-. unfold end_. rewrite Z.eqb_refl, app_nil_r. by exists l.
  - destruct qs2 as [|q qs2]; [cbn in Hlen; lia|]. injection Hit as ->. destruct (repr_deref _ _ _ _ _ _ _ H Hl) as [Hd He]. rewrite He, Hd.
    rewrite length_app in Hb. cbn [length] in Hb. destruct (stores_push_back l xs y Hx) as (l1 & E1 & H1); [lia|]. cbn. rewrite E1. cbn.
    destruct (head_app_default qs2 (sentinel other)) as [n Hn]. rewrite (repr_it_next _ _ _ _ _ _ H Hn). cbn.
    rewrite cons_middle, app_assoc in H. rewrite (cons_middle y ys1 ys2), app_assoc in H. rewrite cons_middle, app_assoc.
    apply (IH (qs1 ++ [it]) qs2 (ys1 ++ [y])); [done|rewrite !length_app; cbn; lia|done|lia|done|]. rewrite !length_app. cbn. lia.
Qed.

Lemma stores_copy_from (other l : nklist T) ys xs : stores other ys -> stores l xs -> Z.of_nat (length (xs ++ ys)) < 2 ^ 64 - 1 ->
  exists l', copy_from other l = Some l' /\ stores l' (xs ++ ys).
Proof.
  intros [qs H] Hx Hb. pose proof (repr_size _ _ _ H) as Hs. destruct (head_app_default qs (sentinel other)) as [n Hn].
  unfold copy_from. rewrite (repr_begin _ _ _ H), Hn. cbn [mbind option_bind].
  apply (copy_loop_spec other ys [] qs []); try done. lia.
Qed.

Lemma stores_bound l xs : stores l xs -> Z.of_nat (length xs) < 2 ^ 64 - 1.
Proof. intros [ps H]. apply H. Qed.

(** Copy construction and assignment give the elements of the other list;
    assignment to itself changes nothing. *)
Lemma stores_assign (other l : nklist T) ys xs s : stores other ys -> stores l xs ->
  (exists l', copy other s = Some l' /\ stores l' ys) /\ (exists l', assign false l other = Some l' /\ stores l' ys) /\ assign true l other = Some l.
Proof.
  intros Hy Hx. pose proof (stores_bound _ _ Hy) as Hb. split_and!; [| |done].
  - apply (stores_copy_from other (empty_list s) ys []); [done|exists []; apply repr_empty|done].
  - unfold assign. destruct (stores_clear l xs Hx) as (l1 & -> & H1). by apply (stores_copy_from other l1 ys []).
Qed.

Lemma stores_append_all l xs vs :
  stores l xs -> Z.of_nat (length (xs ++ vs)) < 2 ^ 64 - 1 ->
  exists l', append_all l vs = Some l' /\ stores l' (xs ++ vs).
Proof.
  revert l xs. induction vs as [|v vs IH]; intros l xs H Hb; cbn [append_all].
  - rewrite app_nil_r. eauto.
  - rewrite length_app in Hb. simpl in Hb.
    destruct (stores_push_back l xs v H) as (l1 & -> & H1); [lia|]. cbn.
    rewrite cons_middle, app_assoc. apply IH; [done|]. rewrite !length_app. simpl. lia.
Qed.

(** [nk_std::list] implements the mathematical list.  From any state whose
    ring stores [xs] (below [SIZE_MAX] elements), every mutating operation
    terminates without touching a node outside the ring and leaves a ring that
    stores the updated list: [push_front]/[push_back] add at the ends,
    [pop_front]/[pop_back] drop at the ends (and do nothing on an empty list),
    [remove] keeps exactly the elements different from the value in their
    order, [clear] empties; [front]/[back] read the ends, [size]/[empty] count,
    and copying by repeated [push_back] appends. *)
Theorem nk_list_refines_list (l : nklist T) (xs vs : list T) (v : T) :
  stores l xs -> Z.of_nat (S (length (xs ++ vs))) < 2 ^ 64 - 1 ->
  (exists l', push_front l v = Some l' /\ stores l' (v :: xs)) /\
  (exists l', push_back l v = Some l' /\ stores l' (xs ++ [v])) /\
  (exists l', pop_front l = Some l' /\ stores l' (tail xs)) /\
  (exists l', pop_back l = Some l' /\ stores l' (removelast xs)) /\
  (exists l', remove v l = Some l' /\
     stores l' (List.filter (fun x => negb (bool_decide (x = v))) xs)) /\
  (exists l', clear l = Some l' /\ stores l' []) /\
  (exists l', append_all l vs = Some l' /\ stores l' (xs ++ vs)) /\
  front l = head xs /\ back l = last xs /\
  size l = Z.of_nat (length xs) /\ empty l = bool_decide (xs = []).
Proof.
  intros H Hb. rewrite length_app in Hb.
  destruct (stores_ends l xs H), (stores_size l xs H).
  split; [apply stores_push_front; [done|lia]|].
  split; [apply stores_push_back; [done|lia]|].
  split; [by apply stores_pop_front|]. split; [by apply stores_pop_back|].
  split; [by apply stores_remove|]. split; [by eapply stores_clear|].
  split; [apply stores_append_all; [done|rewrite length_app; lia]|done].
Qed.

End refinement.

Lemma nk_list_refines_list_witness :
  exists l', push_back (empty_list 1 : nklist Z) 5 = Some l' /\ stores l' [5].
Proof.
  apply (nk_list_refines_list (empty_list 1) [] [] 5); [|simpl; lia].
  exists []. apply repr_empty.
Defined.

End NkList.

(** * nk_std::queue: src/src/libcxx/include/nk_queue

    The adapter over the list, and programs of its operations. *)

Module NkQueue.
Import NkList.

Section queue.
Context {T : Type} `{EqDecision T}.

Record queue := MkQueue { c : nklist T }.

Definition new_queue (cont : nklist T) (s : ptr) : option queue := MkQueue <$> copy cont s.
Definition queue_empty (q : queue) : bool := empty (c q).
Definition queue_size (q : queue) : Z := size (c q).
Definition queue_front (q : queue) : option T := front (c q).
Definition queue_back (q : queue) : option T := back (c q).
Definition queue_push (q : queue) (val : T) : option queue := MkQueue <$> push_back (c q) val.
Definition queue_pop (q : queue) : option queue := MkQueue <$> pop_front (c q).

Inductive queue_op := Push (val : T) | Pop.
Definition queue_do (q : queue) (o : queue_op) : option queue :=
  match o with Push v => queue_push q v | Pop => queue_pop q end.
Fixpoint queue_run (q : queue) (os : list queue_op) : option queue :=
  match os with [] => Some q | o :: os' => q' ← queue_do q o; queue_run q' os' end.

(** First in, first out. *)
Definition fifo_do (xs : list T) (o : queue_op) : list T :=
  match o with Push v => xs ++ [v] | Pop => tail xs end.

Lemma fifo_length xs o : (length (fifo_do xs o) <= S (length xs))%nat.
Proof. destruct o; cbn; [rewrite length_app; cbn; lia|destruct xs; cbn; lia]. Qed.

(** A queue that is built from a list and used by any program of [push] and [pop]
    stays a first-in, first-out queue: nothing is lost, nothing is read outside the
    ring, [pop] of an empty queue does nothing. *)
Theorem queue_is_fifo (cont : nklist T) xs s os : stores cont xs -> Z.of_nat (length xs + length os) < 2 ^ 64 - 1 ->
  exists q q', new_queue cont s = Some q /\ queue_run q os = Some q' /\
    let ys := foldl fifo_do xs os in
    queue_front q' = head ys /\ queue_back q' = last ys /\ queue_size q' = Z.of_nat (length ys) /\ queue_empty q' = bool_decide (ys = []).
Proof.
  intros Hs Hb. destruct (stores_assign cont cont xs xs s Hs Hs) as [(l & E & Hl) _]. exists (MkQueue l).
  assert (exists q', queue_run (MkQueue l) os = Some q' /\ stores (c q') (foldl fifo_do xs os)) as (q' & Er & Hq).
  { clear E Hs. revert l xs Hl Hb. induction os as [|o os IH]; intros l xs Hl Hb; [by exists (MkQueue l)|]. cbn [queue_run foldl length] in *.
    assert (exists l', queue_do (MkQueue l) o = Some (MkQueue l') /\ stores l' (fifo_do xs o)) as (l' & -> & Hl').
    { destruct o as [v|]; cbn [queue_do fifo_do]; unfold queue_push, queue_pop; cbn [c].
      - destruct (stores_push_back l xs v Hl) as (l' & -> & Hl'); [lia|]. by exists l'.
      - destruct (stores_pop_front l xs Hl) as (l' & -> & Hl'). by exists l'. }
    apply (IH l' (fifo_do xs o) Hl'). pose proof (fifo_length xs o). lia. }
  exists q'. unfold new_queue. rewrite E. split; [done|]. split; [done|]. cbn zeta. unfold queue_front, queue_back, queue_size, queue_empty.
  destruct (stores_ends _ _ Hq), (stores_size _ _ Hq). done.
Qed.

End queue.
End NkQueue.
