(* ===== verification/NkPriorityQueue.v ===== *)
(** * nk_std::priority_queue: src/src/libcxx/include/nk_priority_queue

    The adaptor keeps its elements in a vector and calls [std::push_heap] and
    [std::pop_heap]; both are modelled after libstdc++'s [__push_heap] and
    [__adjust_heap] (a value is moved through a hole), so that the order in
    which equal elements leave the queue is the one of the real library.  The
    comparison is the template argument [Compare]. *)

From stdpp Require Import base numbers list.
From Stdlib Require Import ZArith Lia.
From S2P Require Import Prelude.

Module NkPriorityQueue.

(** ** Definitions *)

Section defs.
Context {T : Type} `{Inhabited T} (comp : T -> T -> bool).
Implicit Types (c h : list T) (v : T).

(** [while (hole > top && comp(first[parent], value))], with [top = 0]. *)
Fixpoint push_heap_loop (fuel : nat) h (hole : nat) v : list T :=
  match fuel with
  | O => <[hole := v]> h
  | S f =>
      let parent := Nat.div (hole - 1) 2 in
      if (0 <? hole)%nat && comp (h !!! parent) v
      then push_heap_loop f (<[hole := h !!! parent]> h) parent v
      else <[hole := v]> h
  end.

(** [std::push_heap]: the last element is the value to insert. *)
Definition push_heap h : list T :=
  push_heap_loop (length h) h (length h - 1) (h !!! (length h - 1)%nat).

(** [while (child < (len - 1) / 2)] of [__adjust_heap]: the hole sinks along
    the larger child; returns the array and the hole. *)
Fixpoint sink_loop (fuel : nat) h (hole len : nat) : list T * nat :=
  match fuel with
  | O => (h, hole)
  | S f =>
      if (hole <? Nat.div (len - 1) 2)%nat then
        let child := (2 * (hole + 1))%nat in
        let child := if comp (h !!! child) (h !!! (child - 1)%nat) then (child - 1)%nat else child in
        sink_loop f (<[hole := h !!! child]> h) child len
      else (h, hole)
  end.

(** [__adjust_heap(first, 0, len, value)]: sink the hole, step to a single
    left child when [len] is even, then push the value up from there. *)
Definition adjust_heap h v : list T :=
  let len := length h in
  let '(h1, hole1) := sink_loop len h 0 len in
  let '(h2, hole2) :=
    if Nat.even len && (2 <=? len)%nat && (hole1 =? Nat.div (len - 2) 2)%nat then
      let child := (2 * (hole1 + 1))%nat in
      (<[hole1 := h1 !!! (child - 1)%nat]> h1, (child - 1)%nat)
    else (h1, hole1) in
  push_heap_loop len h2 hole2 v.

Definition empty c : bool := (length c =? 0)%nat.
Definition size c : nat := length c.

(** [c.front()]; reading an empty vector is undefined, hence an option. *)
Definition top c : option T := head c.

Definition push c v : list T := push_heap (c ++ [v]).

(** [pop_heap] moves the first element to the last slot and re-inserts the
    last value into the remaining range; [pop_back] drops the last slot. *)
Definition pop c : list T :=
  match length c with
  | O => c
  | S O => []
  | S n => adjust_heap (take n c) (c !!! n)
  end.

End defs.

(** ** Heaps *)

(** What [Compare] must satisfy: a strict weak ordering. *)
Class StrictWeakOrder {T} (comp : T -> T -> bool) : Prop := {
  swo_asym : forall a b, comp a b = true -> comp b a = false;
  swo_trans : forall a b c, comp a b = false -> comp b c = false -> comp a c = false
}.

Section heaps.
Context {T : Type} `{Inhabited T} (comp : T -> T -> bool) `{!StrictWeakOrder comp}.
Implicit Types (c h : list T) (v : T).

Definition parent (i : nat) : nat := Nat.div (i - 1) 2.

(** No element precedes its parent. *)
Definition is_heap h : Prop :=
  forall j, (0 < j < length h)%nat -> comp (h !!! parent j) (h !!! j) = false.

(** [is_heap] with a hole: the pairs that avoid it, and the pair across it. *)
Definition heap_hole h (hole : nat) : Prop :=
  (forall j, (0 < j < length h)%nat -> j <> hole -> parent j <> hole ->
     comp (h !!! parent j) (h !!! j) = false) /\
  (forall j, (0 < j < length h)%nat -> (0 < hole)%nat -> parent j = hole ->
     comp (h !!! parent hole) (h !!! j) = false).

Definition below_hole h (hole : nat) v : Prop :=
  forall j, (0 < j < length h)%nat -> parent j = hole -> comp v (h !!! j) = false.

Lemma swo_irrefl a : comp a a = false.
Proof. destruct (comp a a) eqn:E; [|done]. by rewrite (swo_asym a a E) in E. Qed.

Lemma parent_lt j : (0 < j)%nat -> (parent j < j)%nat.
Proof. intros. unfold parent. apply Nat.Div0.div_lt_upper_bound. lia. Qed.

Lemma parent_bounds j : (0 < j)%nat -> (2 * parent j + 1 <= j <= 2 * parent j + 2)%nat.
Proof. intros. unfold parent. pose proof (Nat.div_mod_eq (j - 1) 2). pose proof (Nat.mod_upper_bound (j - 1) 2). lia. Qed.

Lemma replace_perm h i a b : h !! i = Some a -> b :: h ≡ₚ a :: <[i := b]> h.
Proof.
  intros Hi. assert (<[i := b]> h ≡ₚ b :: delete i h) as E.
  { rewrite (delete_Permutation (<[i := b]> h) i b).
    2: { apply list_lookup_insert_eq. by eapply lookup_lt_Some. }
    replace (delete i (<[i := b]> h)) with (delete i h); [done|].
    revert i Hi. induction h as [|x h IH]; intros [|i] Hi; simpl; [done..|].
    f_equal. by apply IH. }
  etrans; [apply perm_skip, (delete_Permutation h i a Hi)|]. etrans; [apply perm_swap|].
  apply perm_skip. by symmetry.
Qed.

(** Moving an element into the hole: the array with [v] in the hole is only
    permuted. *)
Lemma hole_perm h i j v :
  (i < length h)%nat -> (j < length h)%nat -> i <> j ->
  <[j := v]> (<[i := h !!! j]> h) ≡ₚ <[i := v]> h.
Proof.
  intros Hi Hj Hne. destruct (lookup_lt_is_Some_2 h i Hi) as [a Ha].
  destruct (lookup_lt_is_Some_2 h j Hj) as [b Hb].
  rewrite (list_lookup_total_correct _ _ _ Hb).
  assert (<[i := b]> h !! j = Some b) as Hb' by (by rewrite list_lookup_insert_ne).
  apply (Permutation_cons_inv (a := b)), (Permutation_cons_inv (a := a)).
  etrans; [apply perm_skip; symmetry; apply (replace_perm _ j b v Hb')|].
  etrans; [apply perm_swap|]. etrans; [apply perm_skip; symmetry; apply (replace_perm h i a b Ha)|].
  etrans; [apply perm_swap|]. etrans; [apply perm_skip, (replace_perm h i a v Ha)|].
  apply perm_swap.
Qed.

(** The sift-up loop restores the heap and only permutes. *)
Lemma push_heap_loop_spec fuel : forall h hole v,
  (hole < length h)%nat -> (hole <= fuel)%nat -> heap_hole h hole -> below_hole h hole v ->
  is_heap (push_heap_loop comp fuel h hole v) /\
  push_heap_loop comp fuel h hole v ≡ₚ <[hole := v]> h.
Proof.
  assert (forall h hole v, (hole < length h)%nat -> heap_hole h hole -> below_hole h hole v ->
    ((0 < hole)%nat -> comp (h !!! parent hole) v = false) -> is_heap (<[hole := v]> h)) as Hstop.
  { intros h hole v Hlt [H1 H2] Hb Hp j Hj. rewrite length_insert in Hj.
    pose proof (parent_lt j ltac:(lia)).
    destruct (decide (j = hole)) as [->|Hne].
    - rewrite list_lookup_total_insert_eq by done.
      rewrite list_lookup_total_insert_ne by lia. apply Hp. lia.
    - rewrite (list_lookup_total_insert_ne h hole j) by done.
      destruct (decide (parent j = hole)) as [E|Hne'].
      + rewrite E, list_lookup_total_insert_eq by done. by apply Hb.
      + rewrite list_lookup_total_insert_ne by done. by apply H1. }
  induction fuel as [|f IH]; intros h hole v Hlt Hf Hh Hb; cbn [push_heap_loop].
  - split; [|done]. apply Hstop; auto. lia.
  - change (Nat.div (hole - 1) 2) with (parent hole).
    destruct (Nat.ltb_spec 0 hole) as [H0|H0]; cbn [andb].
    2: { split; [|done]. apply Hstop; auto. lia. }
    destruct (comp (h !!! parent hole) v) eqn:Ec; [|split; [by apply Hstop|done]].
    pose proof (parent_lt hole H0) as Hpl. set (p := parent hole) in *.
    destruct Hh as [H1 H2].
    destruct (IH (<[hole := h !!! p]> h) p v) as [IH1 IH2].
    + rewrite length_insert. lia.
    + lia.
    + split.
      * intros j Hj Hne Hne'. rewrite length_insert in Hj.
        destruct (decide (j = hole)) as [->|Hnj]; [done|].
        rewrite (list_lookup_total_insert_ne _ _ j) by done.
        destruct (decide (parent j = hole)) as [E|Hnp].
        -- rewrite E, list_lookup_total_insert_eq by done. apply H2; [done|done|done].
        -- rewrite list_lookup_total_insert_ne by done. by apply H1.
      * intros j Hj H0p Ej. rewrite length_insert in Hj.
        pose proof (parent_lt p H0p).
        rewrite (list_lookup_total_insert_ne _ _ (parent p)) by lia.
        assert (comp (h !!! parent p) (h !!! p) = false) as Hpp by (apply H1; lia).
        destruct (decide (j = hole)) as [->|Hnj].
        -- by rewrite list_lookup_total_insert_eq.
        -- rewrite list_lookup_total_insert_ne by done.
           eapply swo_trans; [exact Hpp|]. rewrite <- Ej. apply H1; [done|done|]. lia.
    + intros j Hj Ej. rewrite length_insert in Hj.
      apply swo_asym in Ec as Ec'.
      destruct (decide (j = hole)) as [->|Hnj].
      * by rewrite list_lookup_total_insert_eq.
      * rewrite list_lookup_total_insert_ne by done. eapply swo_trans; [exact Ec'|].
        rewrite <- Ej. apply H1; [done|done|]. lia.
    + split; [done|]. rewrite IH2. apply hole_perm; lia.
Qed.

(** The sinking loop keeps the holed heap, ends with the hole at a node with
    no right child, and only permutes. *)
Lemma sink_loop_spec fuel : forall h hole h' hole' v,
  (hole < length h)%nat -> (length h <= fuel + hole)%nat -> heap_hole h hole ->
  sink_loop comp fuel h hole (length h) = (h', hole') ->
  heap_hole h' hole' /\ length h' = length h /\ (hole' < length h)%nat /\
  (Nat.div (length h - 1) 2 <= hole')%nat /\
  <[hole' := v]> h' ≡ₚ <[hole := v]> h.
Proof.
  induction fuel as [|f IH]; intros h hole h' hole' v Hlt Hf [H1 H2] E; cbn [sink_loop] in E.
  { lia. }
  destruct (Nat.ltb_spec hole (Nat.div (length h - 1) 2)) as [Hd|Hd]; cycle 1.
  { injection E as <- <-. by repeat split. }
  assert (2 * hole + 2 < length h)%nat as Hr.
  { pose proof (Nat.div_mod_eq (length h - 1) 2). lia. }
  set (k := if comp _ _ then _ else _) in E.
  assert (comp (h !!! k) (h !!! (2 * hole + 1)%nat) = false /\
          comp (h !!! k) (h !!! (2 * hole + 2)%nat) = false /\
          (k = 2 * hole + 1 \/ k = 2 * hole + 2)%nat) as (K1 & K2 & Kv).
  { unfold k. replace (2 * (hole + 1) - 1)%nat with (2 * hole + 1)%nat by lia.
    replace (2 * (hole + 1))%nat with (2 * hole + 2)%nat by lia.
    destruct (comp (h !!! (2 * hole + 2)%nat) (h !!! (2 * hole + 1)%nat)) eqn:Ec.
    - rewrite (swo_asym _ _ Ec), swo_irrefl. auto.
    - rewrite Ec, swo_irrefl. auto. }
  clearbody k.
  assert (parent k = hole) as Pk.
  { pose proof (parent_bounds k). lia. }
  replace (length h) with (length (<[hole := h !!! k]> h)) in E by apply length_insert.
  eapply IH in E; rewrite ?length_insert in *.
  - destruct E as (E1 & E2 & E3 & E4 & E5). split; [done|]. split; [done|]. split; [lia|].
    split; [done|]. rewrite E5. apply hole_perm; lia.
  - lia.
  - lia.
  - split; intros j Hj; rewrite length_insert in Hj.
    + intros Hne Hne'. pose proof (parent_bounds j ltac:(lia)).
      destruct (decide (j = hole)) as [->|Hnj].
      * rewrite list_lookup_total_insert_eq by done.
        pose proof (parent_lt hole ltac:(lia)). rewrite list_lookup_total_insert_ne by lia.
        apply H2; [lia|lia|done].
      * rewrite (list_lookup_total_insert_ne _ _ j) by done.
        destruct (decide (parent j = hole)) as [Ej|Hnp].
        -- rewrite Ej, list_lookup_total_insert_eq by done.
           assert (j = 2 * hole + 1 \/ j = 2 * hole + 2)%nat as [-> | ->] by lia; done.
        -- rewrite list_lookup_total_insert_ne by done. by apply H1.
    + intros _ Ej. pose proof (parent_bounds j ltac:(lia)).
      rewrite Pk, list_lookup_total_insert_eq by done.
      rewrite list_lookup_total_insert_ne by lia. rewrite <- Ej. apply H1; lia.
Qed.

Lemma adjust_heap_spec h v :
  (0 < length h)%nat -> (forall j, (0 < j < length h)%nat -> parent j <> 0%nat ->
     comp (h !!! parent j) (h !!! j) = false) ->
  is_heap (adjust_heap comp h v) /\ adjust_heap comp h v ≡ₚ <[0%nat := v]> h.
Proof.
  intros Hl Hh. unfold adjust_heap.
  destruct (sink_loop comp (length h) h 0 (length h)) as [h1 hole1] eqn:E1.
  eapply (sink_loop_spec (length h) h 0 h1 hole1 v) in E1 as (A1 & A2 & A3 & A4 & A5);
    [|lia|lia|split; [intros; by apply Hh|lia]].
  pose proof (Nat.div_mod_eq (length h - 1) 2). pose proof (Nat.mod_upper_bound (length h - 1) 2).
  destruct (Nat.even (length h) && (2 <=? length h)%nat && (hole1 =? (length h - 2) / 2)%nat) eqn:Eb.
  - apply andb_prop in Eb as [Eb E3%Nat.eqb_eq]. apply andb_prop in Eb as [Ee E2%Nat.leb_le].
    apply Nat.even_spec in Ee as [m Em].
    assert (hole1 = m - 1)%nat as ->.
    { rewrite E3, Em. replace (2 * m - 2)%nat with ((m - 1) * 2)%nat by lia.
      apply Nat.div_mul. lia. }
    clear E3. set (k := (2 * (m - 1 + 1) - 1)%nat).
    assert (k < length h)%nat as Hk by lia. assert (k <> m - 1)%nat as Hk' by lia.
    assert (parent k = m - 1)%nat as Pk by (pose proof (parent_bounds k); lia).
    destruct A1 as [B1 B2].
    destruct (push_heap_loop_spec (length h) (<[(m - 1)%nat := h1 !!! k]> h1) k v) as [C1 C2].
    + rewrite length_insert. lia.
    + lia.
    + split; intros j Hj; rewrite length_insert in Hj; pose proof (parent_bounds j ltac:(lia)).
      * intros Hne Hne'.
        destruct (decide (j = m - 1)%nat) as [->|Hnj].
        -- rewrite list_lookup_total_insert_eq by lia.
           pose proof (parent_lt (m - 1) ltac:(lia)). rewrite list_lookup_total_insert_ne by lia.
           apply B2; [lia|lia|done].
        -- rewrite !list_lookup_total_insert_ne by lia. apply B1; lia.
      * intros _ Ej. lia.
    + intros j Hj Ej. rewrite length_insert in Hj. pose proof (parent_bounds j ltac:(lia)). lia.
    + split; [done|]. rewrite C2, <- A5. apply hole_perm; lia.
  - destruct (push_heap_loop_spec (length h) h1 hole1 v) as [C1 C2]; [lia|lia|done|..].
    + intros j Hj Ej. pose proof (parent_bounds j ltac:(lia)). exfalso.
      assert (length h = 2 * hole1 + 2)%nat as El by lia.
      rewrite andb_false_iff, andb_false_iff in Eb. destruct Eb as [[Eb|Eb]|Eb].
      * rewrite El in Eb. replace (2 * hole1 + 2)%nat with (2 * (hole1 + 1))%nat in Eb by lia.
        by rewrite Nat.even_mul in Eb.
      * apply Nat.leb_gt in Eb. lia.
      * apply Nat.eqb_neq in Eb. apply Eb. rewrite El.
        replace (2 * hole1 + 2 - 2)%nat with (hole1 * 2)%nat by lia. by rewrite Nat.div_mul.
    + by rewrite <- A5.
Qed.

(** The top is minimal in the order of service. *)
Lemma is_heap_top h j : is_heap h -> (j < length h)%nat -> comp (h !!! 0%nat) (h !!! j) = false.
Proof.
  intros Hh. induction j as [j IH] using lt_wf_ind. intros Hj.
  destruct (decide (j = 0)%nat) as [->|Hne]; [apply swo_irrefl|].
  pose proof (parent_lt j ltac:(lia)). apply (swo_trans _ (h !!! parent j)); [apply IH; lia|]. apply Hh. lia.
Qed.

Lemma push_spec c v : is_heap c -> is_heap (push comp c v) /\ push comp c v ≡ₚ v :: c.
Proof.
  intros Hh. unfold push, push_heap. rewrite length_app. cbn [length].
  replace (length c + 1 - 1)%nat with (length c) by lia.
  destruct (push_heap_loop_spec (length c + 1) (c ++ [v]) (length c) v) as [C1 C2].
  - rewrite length_app. simpl. lia.
  - lia.
  - split; intros j Hj; rewrite length_app in Hj; cbn [length] in Hj;
      pose proof (parent_bounds j ltac:(lia)); intros Hne Hne'.
    + rewrite !lookup_total_app_l by lia. apply Hh. lia.
    + lia.
  - intros j Hj Ej. rewrite length_app in Hj. simpl in Hj. pose proof (parent_bounds j ltac:(lia)). lia.
  - rewrite (list_lookup_total_middle c [] v _ eq_refl). split; [done|]. rewrite C2.
    rewrite insert_app_r_alt, Nat.sub_diag by lia. cbn. symmetry. apply Permutation_cons_append.
Qed.

Lemma pop_spec c x : is_heap c -> top c = Some x -> is_heap (pop comp c) /\ x :: pop comp c ≡ₚ c.
Proof.
  intros Hh Ht. destruct c as [|a c]; [done|]. injection Ht as ->.
  unfold pop. cbn [length]. destruct c as [|y c]; [split; [|done]; intros j Hj; simpl in Hj; lia|].
  cbn [length]. set (n := length c). set (full := x :: y :: c) in *.
  assert (length (take (S n) full) = S n) as Hl by (rewrite length_take; simpl; lia).
  assert (forall j, (j < S n)%nat -> take (S n) full !!! j = full !!! j) as Hn.
  { intros j Hj. rewrite !list_lookup_total_alt, lookup_take_lt by lia. done. }
  destruct (adjust_heap_spec (take (S n) full) (full !!! S n)) as [A1 A2]; [lia|..].
  - intros j Hj Hp. rewrite Hl in Hj. pose proof (parent_lt j ltac:(lia)).
    rewrite !Hn by lia. apply Hh. simpl. lia.
  - split; [done|]. rewrite A2.
    assert (full = take (S n) full ++ [full !!! S n]) as Hsplit.
    { rewrite <- take_S_r with (x := full !!! S n); [by rewrite firstn_all2 by (simpl; lia)|].
      apply list_lookup_lookup_total_lt. simpl. lia. }
    etrans; [|rewrite Hsplit; reflexivity].
    change (take (S n) full) with (x :: take n (y :: c)).
    apply perm_skip, Permutation_cons_append.
Qed.

(** the priority queue serves in order.  For every comparison that is a
    strict weak ordering and every vector that is a heap: [push] and [pop] keep
    the heap, [push] adds exactly the value, [pop] removes exactly [top] and
    does nothing on an empty queue, and no element of the queue comes before
    [top] (with [WakeTickCompare] and [VruntimeCompare]: [top] has the smallest
    wake tick, the smallest vruntime). *)
Theorem priority_queue_spec (c : list T) (v x : T) :
  is_heap c ->
  (is_heap (push comp c v) /\ push comp c v ≡ₚ v :: c) /\
  is_heap (pop comp c) /\
  (top c = Some x -> x :: pop comp c ≡ₚ c /\ forall y, y ∈ c -> comp x y = false) /\
  (empty c = true <-> top c = None) /\ pop comp [] = [].
Proof.
  intros Hh. split; [by apply push_spec|]. split; [|split; [|split; [|done]]].
  - destruct c as [|a c]; [done|]. by apply (pop_spec (a :: c) a).
  - intros Ht. split; [by apply pop_spec|]. intros y [j Hj]%list_elem_of_lookup.
    destruct c as [|a c]; [done|]. injection Ht as ->.
    rewrite <- (list_lookup_total_correct _ _ _ Hj). apply (is_heap_top (x :: c)); [done|].
    by eapply lookup_lt_Some.
  - by destruct c.
Qed.

End heaps.

#[export] Instance min_key_order {T} (key : T -> Z) :
  StrictWeakOrder (fun a b => (key b <? key a)%Z).
Proof. split; intros; rewrite ?Z.ltb_lt, ?Z.ltb_ge in *; lia. Qed.

Lemma priority_queue_spec_witness :
  let comp := fun a b : Z => (b <? a)%Z in
  let c := push comp (push comp (push comp [] 7%Z) 3%Z) 5%Z in
  c = [3; 7; 5]%Z /\ pop comp c = [5; 7]%Z /\ is_heap comp (pop comp c) /\
  forall y, y ∈ c -> comp 3%Z y = false.
Proof.
  assert (is_heap (fun a b : Z => (b <? a)%Z) [3; 7; 5]%Z) as Hh.
  { intros [|[|[|j]]] Hj; simpl in Hj; try lia; reflexivity. }
  destruct (priority_queue_spec (fun a b : Z => (b <? a)%Z) [3; 7; 5]%Z 0%Z 3%Z Hh)
    as (_ & Hp & Ht & _).
  split; [reflexivity|]. split; [reflexivity|]. split; [exact Hp|]. apply Ht. reflexivity.
Defined.
End NkPriorityQueue.
