(* ===== verification/NkUnorderedMap.v ===== *)
(** * nk_std::unordered_map: src/src/libcxx/include/nk_unordered_map

    A bucket array of singly linked chains.  A chain is the list of its nodes'
    pairs, front to back, so the iteration order of the range-for loops of the
    kernel (buckets in order, each chain from its head) is part of the model.
    The hash function is a parameter.

    Two idealisations: the [size_t] counters ([size_], the bucket count) are
    natural numbers without wrap-around, as no table of 2^64 entries fits into
    memory; and [new] always finds memory for a node or a bucket array (the source
    does not test its result). *)

From stdpp Require Import base numbers list gmap.
From Stdlib Require Import ZArith Lia.
From S2P Require Import Prelude.

Module NkUnorderedMap.

Definition kDefaultBucketCount : nat := 16.
Definition kMaxLoadFactor : nat := 1.

(** ** Definitions *)

Section defs.
Context {K V : Type} `{Countable K} (hash : K -> Z).

Record umap := MkMap {
  buckets_ : list (list (K * V));
  size_ : nat
}.

Definition bucket_count (m : umap) : nat := length (buckets_ m).

(** [hasher_(key) % count] *)
Definition index_in (count : nat) (key : K) : nat := Z.to_nat (hash key mod Z.of_nat count).
Definition bucket_index (m : umap) (key : K) : nat := index_in (bucket_count m) key.

(** The chain of a bucket; the array is never read out of range. *)
Definition chain (m : umap) (i : nat) : list (K * V) := default [] (buckets_ m !! i).

(** Moving one node to the head of its new chain. *)
Definition relink (count : nat) (nb : list (list (K * V))) (kv : K * V) : list (list (K * V)) :=
  alter (cons kv) (index_in count kv.1) nb.

Definition rehash (count : nat) (m : umap) : umap :=
  let count := if (count =? 0)%nat then kDefaultBucketCount else count in
  MkMap (fold_left (fun nb ch => fold_left (relink count) ch nb) (buckets_ m) (replicate count []))
        (size_ m).

(** [unordered_map()]: [rehash(kDefaultBucketCount)] of a map without buckets. *)
Definition new_map : umap := rehash kDefaultBucketCount (MkMap [] 0).

Definition clear (m : umap) : umap := MkMap (replicate (bucket_count m) []) 0.

(** The walk along a chain for a key. *)
Fixpoint chain_find (key : K) (ch : list (K * V)) : option V :=
  match ch with
  | [] => None
  | (k, v) :: ch' => if bool_decide (k = key) then Some v else chain_find key ch'
  end.

Definition find (m : umap) (key : K) : option V := chain_find key (chain m (bucket_index m key)).
Definition contains (m : umap) (key : K) : bool := bool_decide (is_Some (find m key)).
Definition count (m : umap) (key : K) : nat := if contains m key then 1 else 0.

(** [insert]: the flag tells whether a node was added. *)
Definition insert (m : umap) (kv : K * V) : umap * bool :=
  match find m kv.1 with
  | Some _ => (m, false)
  | None =>
      let m1 := MkMap (alter (cons kv) (bucket_index m kv.1) (buckets_ m)) (S (size_ m)) in
      if (bucket_count m1 * kMaxLoadFactor <? size_ m1)%nat
      then (rehash (bucket_count m1 * 2) m1, true)
      else (m1, true)
  end.

(** The chain without the first node of the key. *)
Fixpoint chain_erase (key : K) (ch : list (K * V)) : option (list (K * V)) :=
  match ch with
  | [] => None
  | (k, v) :: ch' =>
      if bool_decide (k = key) then Some ch' else cons (k, v) <$> chain_erase key ch'
  end.

Definition erase (m : umap) (key : K) : umap * nat :=
  let i := bucket_index m key in
  match chain_erase key (chain m i) with
  | Some ch => (MkMap (<[i := ch]> (buckets_ m)) (size_ m - 1), 1%nat)
  | None => (m, 0%nat)
  end.

(** A store through the reference that [operator[]] or an iterator gave. *)
Fixpoint chain_set (key : K) (v : V) (ch : list (K * V)) : list (K * V) :=
  match ch with
  | [] => []
  | (k, w) :: ch' => if bool_decide (k = key) then (k, v) :: ch' else (k, w) :: chain_set key v ch'
  end.

Definition set_value (m : umap) (key : K) (v : V) : umap :=
  MkMap (alter (chain_set key v) (bucket_index m key) (buckets_ m)) (size_ m).

(** [operator[]]: the value of the key, inserted as [Value()] when absent. *)
Definition index (dflt : V) (m : umap) (key : K) : umap :=
  match find m key with Some _ => m | None => (insert m (key, dflt)).1 end.

(** [m[key] = v] *)
Definition assign (dflt : V) (m : umap) (key : K) (v : V) : umap :=
  set_value (index dflt m key) key v.

Definition empty (m : umap) : bool := (size_ m =? 0)%nat.
Definition size (m : umap) : nat := size_ m.

(** Iterators: the bucket and the rest of its chain, headed by the node. *)
Definition iterator : Type := nat * list (K * V).

(** [advance_to_next_bucket], over the buckets from the current one on. *)
Fixpoint advance (i : nat) (bs : list (list (K * V))) : iterator :=
  match bs with
  | [] => (i, [])
  | [] :: bs' => advance (S i) bs'
  | ch :: _ => (i, ch)
  end.

Definition begin (m : umap) : iterator := advance 0 (buckets_ m).

(** [operator++] *)
Definition it_next (m : umap) (it : iterator) : iterator :=
  match it.2 with
  | [] => it
  | [_] => advance (S it.1) (drop (S it.1) (buckets_ m))
  | _ :: rest => (it.1, rest)
  end.

(** The pairs that a range-for loop visits, in order. *)
Fixpoint visit (fuel : nat) (m : umap) (it : iterator) : list (K * V) :=
  match fuel, it.2 with
  | S f, kv :: _ => kv :: visit f m (it_next m it)
  | _, _ => []
  end.

Definition elements (m : umap) : list (K * V) := concat (buckets_ m).

(** [at]: the value or [Value()]. *)
Definition at_ (dflt : V) (m : umap) (key : K) : V := default dflt (find m key).
Definition emplace (m : umap) (key : K) (v : V) : umap * bool := insert m (key, v).
Definition bucket (m : umap) (key : K) : nat := bucket_index m key.
Definition bucket_size (m : umap) (n : nat) : nat := length (chain m n).
Definition reserve (n : nat) (m : umap) : umap :=
  let required_buckets := S (n / kMaxLoadFactor) in
  if (bucket_count m <? required_buckets)%nat then rehash required_buckets m else m.

(** *** Whole maps *)

(** Without an array: [buckets_] is null and [bucket_count_] is 0. *)
Definition no_buckets : umap := MkMap [] 0.
(** [unordered_map(bucket_count)] *)
Definition new_map_with (n : nat) : umap := rehash n no_buckets.
Definition destroy (m : umap) : umap := no_buckets.

(** [insert(node->data)] for every node, buckets in order. *)
Definition insert_all (m : umap) (kvs : list (K * V)) : umap := fold_left (fun m kv => (insert m kv).1) kvs m.
Definition copy (other : umap) : umap := insert_all (rehash (bucket_count other) no_buckets) (elements other).
(** [operator=] for a copy; [self] is [this == &other]. *)
Definition copy_assign (self : bool) (m other : umap) : umap :=
  if self then m else insert_all (rehash (bucket_count other) (destroy m)) (elements other).
(** The move constructor and the move assignment: the new map and what is left of the other. *)
Definition move (other : umap) : umap * umap := (other, no_buckets).
Definition move_assign (self : bool) (m other : umap) : umap * umap :=
  if self then (m, other) else (other, no_buckets).

(** Every operation with a key computes [hasher_(key) % bucket_count_]. *)
Definition divides_by_zero (m : umap) : bool := (bucket_count m =? 0)%nat.

End defs.
Arguments umap K V : clear implicits.

(** ** Refinement to finite maps *)

Section refinement.
Context {K V : Type} `{Countable K} (hash : K -> Z).
Implicit Types (m : umap K V) (ch : list (K * V)) (bs : list (list (K * V))).

Definition to_map m : gmap K V := list_to_map (elements m).

(** Every node is in the chain of its key's bucket, keys are unique, the
    counter is exact and there is at least one bucket. *)
Record wf m : Prop := {
  wf_buckets : (0 < bucket_count m)%nat;
  wf_index : forall i ch kv, buckets_ m !! i = Some ch -> kv ∈ ch -> bucket_index hash m kv.1 = i;
  wf_nodup : NoDup (elements m).*1;
  wf_size : size_ m = length (elements m)
}.

Lemma concat_perm (bs bs' : list (list (K * V))) : bs ≡ₚ bs' -> concat bs ≡ₚ concat bs'.
Proof.
  induction 1 as [| |x y bs|]; simpl; [done|by f_equiv| |by etrans].
  by rewrite !app_assoc, (Permutation_app_comm x y).
Qed.

Lemma concat_split bs i ch :
  bs !! i = Some ch -> concat bs ≡ₚ ch ++ concat (delete i bs).
Proof. intros E. by rewrite (concat_perm _ _ (delete_Permutation bs i ch E)). Qed.

Lemma concat_insert bs i ch ch' :
  bs !! i = Some ch -> concat (<[i := ch']> bs) ≡ₚ ch' ++ concat (delete i bs).
Proof.
  intros E. rewrite (concat_split (<[i := ch']> bs) i ch').
  2: { apply list_lookup_insert_eq. by eapply lookup_lt_Some. }
  replace (delete i (<[i := ch']> bs)) with (delete i bs); [done|].
  revert i E. induction bs as [|x bs IH]; intros [|i] E; simpl; [done..|]. f_equal. by apply IH.
Qed.

Lemma alter_as_insert {A} (f : A -> A) (l : list A) i x :
  l !! i = Some x -> alter f i l = <[i := f x]> l.
Proof.
  revert i. induction l as [|y l IH]; intros [|i] E; simpl; try done.
  - by injection E as ->.
  - f_equal. by apply IH.
Qed.

Lemma index_in_lt n k : (0 < n)%nat -> (index_in hash n k < n)%nat.
Proof.
  intros Hn. unfold index_in. pose proof (Z.mod_pos_bound (hash k) (Z.of_nat n)). lia.
Qed.

Lemma chain_lookup m k :
  wf m -> exists ch, buckets_ m !! bucket_index hash m k = Some ch /\ chain m (bucket_index hash m k) = ch.
Proof.
  intros Hw. destruct (lookup_lt_is_Some_2 (buckets_ m) (bucket_index hash m k)) as [ch E].
  - apply index_in_lt, Hw.
  - exists ch. split; [done|]. unfold chain. by rewrite E.
Qed.

(** *** Relinking *)

Lemma relink_perm n bs kv : (index_in hash n kv.1 < length bs)%nat ->
  concat (relink hash n bs kv) ≡ₚ kv :: concat bs.
Proof.
  intros Hl. destruct (lookup_lt_is_Some_2 _ _ Hl) as [ch E]. unfold relink.
  rewrite (alter_as_insert _ _ _ _ E), (concat_insert _ _ _ _ E), (concat_split _ _ _ E). done.
Qed.

Lemma relink_length n bs kv : length (relink hash n bs kv) = length bs.
Proof. apply length_alter. Qed.

Lemma relink_all_spec n kvs : forall bs,
  length bs = n -> (0 < n)%nat ->
  (forall i ch kv, bs !! i = Some ch -> kv ∈ ch -> index_in hash n kv.1 = i) ->
  let bs' := fold_left (relink hash n) kvs bs in
  length bs' = n /\ concat bs' ≡ₚ kvs ++ concat bs /\
  (forall i ch kv, bs' !! i = Some ch -> kv ∈ ch -> index_in hash n kv.1 = i).
Proof.
  induction kvs as [|kv kvs IH]; intros bs Hl Hn Hi; simpl; [by repeat split|].
  destruct (IH (relink hash n bs kv)) as (A1 & A2 & A3).
  - by rewrite relink_length.
  - done.
  - intros i ch kv' E Hin. unfold relink in E.
    destruct (lookup_lt_is_Some_2 bs (index_in hash n kv.1)) as [c0 E0].
    { rewrite Hl. by apply index_in_lt. }
    rewrite (alter_as_insert _ _ _ _ E0) in E.
    destruct (decide (i = index_in hash n kv.1)) as [->|Hne].
    + rewrite list_lookup_insert_eq in E by (by eapply lookup_lt_Some). injection E as <-.
      apply elem_of_cons in Hin as [->|Hin]; [done|]. by eapply Hi.
    + rewrite list_lookup_insert_ne in E by done. by eapply Hi.
  - split; [done|]. split; [|done]. rewrite A2, relink_perm.
    + by rewrite Permutation_middle.
    + rewrite Hl. by apply index_in_lt.
Qed.

Lemma fold_relink_concat n bs : forall nb,
  fold_left (fun nb ch => fold_left (relink hash n) ch nb) bs nb =
  fold_left (relink hash n) (concat bs) nb.
Proof.
  induction bs as [|b bs IH]; intros nb; simpl; [done|]. by rewrite fold_left_app, IH.
Qed.

Lemma concat_replicate_nil n : concat (replicate n ([] : list (K * V))) = [].
Proof. by induction n. Qed.

Lemma rehash_spec n m :
  NoDup (elements m).*1 -> size_ m = length (elements m) ->
  wf (rehash hash n m) /\ elements (rehash hash n m) ≡ₚ elements m.
Proof.
  intros Hnd Hs. unfold rehash. set (c := if (n =? 0)%nat then _ else n).
  assert (0 < c)%nat as Hc.
  { unfold c, kDefaultBucketCount. destruct (Nat.eqb_spec n 0); lia. }
  rewrite fold_relink_concat.
  destruct (relink_all_spec c (concat (buckets_ m)) (replicate c [])) as (A1 & A2 & A3).
  - apply length_replicate.
  - done.
  - intros i ch kv [-> _]%lookup_replicate Hin. by apply elem_of_nil in Hin.
  - rewrite concat_replicate_nil, app_nil_r in A2. unfold elements in *. split; [|done].
    split; unfold bucket_index, bucket_count, elements; cbn [buckets_ size_].
    + by rewrite A1.
    + rewrite A1. exact A3.
    + by rewrite A2.
    + by rewrite A2.
Qed.

Lemma new_map_spec : wf (new_map hash : umap K V) /\ to_map (new_map hash) = ∅.
Proof.
  destruct (rehash_spec kDefaultBucketCount (MkMap [] 0)) as [A B].
  - apply NoDup_nil_2.
  - done.
  - split; [done|]. apply Permutation_nil_r in B. unfold to_map, new_map. by rewrite B.
Qed.

(** *** Chains *)

Lemma chain_find_Some k v ch : NoDup ch.*1 -> chain_find k ch = Some v <-> (k, v) ∈ ch.
Proof.
  induction ch as [|[k' v'] ch IH]; simpl; intros Hnd.
  - rewrite elem_of_nil. done.
  - apply NoDup_cons in Hnd as [Hk Hnd]. rewrite elem_of_cons.
    case_bool_decide as E; [subst|rewrite IH by done; intuition congruence].
    split; [intros [= ->]; by left|]. intros [[= ->]|Hin]; [done|].
    destruct Hk. apply list_elem_of_fmap. by exists (k, v).
Qed.

Lemma chain_find_None k ch : chain_find k ch = None <-> k ∉ ch.*1.
Proof.
  induction ch as [|[k' v'] ch IH]; simpl.
  - split; [|done]. intros _ Hn. by apply elem_of_nil in Hn.
  - rewrite not_elem_of_cons. case_bool_decide; [split; [done|intros [? _]; congruence]|].
    rewrite IH. intuition congruence.
Qed.

Lemma chain_erase_spec k ch ch' :
  chain_erase k ch = Some ch' -> exists v, chain_find k ch = Some v /\ ch ≡ₚ (k, v) :: ch'.
Proof.
  revert ch'. induction ch as [|[k' v'] ch IH]; intros ch' E; simpl in *; [done|].
  case_bool_decide as Ek; [injection E as <-; subst; by exists v'|].
  destruct (chain_erase k ch) as [c|] eqn:Ec; [|done]. injection E as <-.
  destruct (IH c eq_refl) as (v & -> & P). exists v. split; [done|]. rewrite P. apply perm_swap.
Qed.

Lemma chain_erase_None k ch : chain_erase k ch = None <-> chain_find k ch = None.
Proof.
  induction ch as [|[k' v'] ch IH]; simpl; [done|]. case_bool_decide; [done|].
  rewrite <- IH. by destruct (chain_erase k ch).
Qed.

Lemma chain_set_spec k v ch w :
  chain_find k ch = Some w -> exists ch', ch ≡ₚ (k, w) :: ch' /\ chain_set k v ch ≡ₚ (k, v) :: ch'.
Proof.
  induction ch as [|[k' v'] ch IH]; simpl; [done|]. case_bool_decide as E.
  - intros [= ->]. subst. eauto.
  - intros (ch' & P1 & P2)%IH. exists ((k', v') :: ch'). split; [rewrite P1|rewrite P2]; apply perm_swap.
Qed.

Lemma chain_set_keys k v ch : (chain_set k v ch).*1 = ch.*1.
Proof.
  induction ch as [|[k' v'] ch IH]; simpl; [done|]. case_bool_decide; simpl; [done|]. by f_equal.
Qed.

Lemma wf_chain_nodup m i ch : wf m -> buckets_ m !! i = Some ch -> NoDup ch.*1.
Proof.
  intros Hw E. pose proof (wf_nodup m Hw) as Hnd. unfold elements in Hnd.
  rewrite (concat_split _ _ _ E), fmap_app in Hnd. by apply NoDup_app in Hnd as [? _].
Qed.

(** A pair of the map is found in its key's own chain. *)
Lemma wf_elem m k v ch :
  wf m -> buckets_ m !! bucket_index hash m k = Some ch -> (k, v) ∈ elements m <-> (k, v) ∈ ch.
Proof.
  intros Hw E. unfold elements. split.
  - intros (c & Hc & Hin)%list_elem_of_In%in_concat.
    apply list_elem_of_In in Hin, Hc. apply list_elem_of_lookup in Hc as [i Hi].
    pose proof (wf_index m Hw i c (k, v) Hi Hin) as Ei. simpl in Ei. subst i. congruence.
  - intros Hin. rewrite (concat_split _ _ _ E). apply elem_of_app. by left.
Qed.

Lemma elements_to_map m k v : wf m -> (k, v) ∈ elements m <-> to_map m !! k = Some v.
Proof. intros Hw. unfold to_map. apply elem_of_list_to_map, Hw. Qed.

Lemma find_to_map m k : wf m -> find hash m k = to_map m !! k.
Proof.
  intros Hw. destruct (chain_lookup m k Hw) as (ch & E & Ec). unfold find. rewrite Ec.
  pose proof (wf_chain_nodup _ _ _ Hw E) as Hnd. apply option_eq. intros v.
  rewrite (chain_find_Some k v ch Hnd), <- (wf_elem _ _ _ _ Hw E). unfold to_map.
  apply elem_of_list_to_map, Hw.
Qed.

(** Replacing one chain by a chain of keys of the same bucket. *)
Lemma wf_update m i ch ch' n :
  wf m -> buckets_ m !! i = Some ch ->
  (forall kv, kv ∈ ch' -> bucket_index hash m kv.1 = i) ->
  NoDup (ch' ++ concat (delete i (buckets_ m))).*1 ->
  n = length (ch' ++ concat (delete i (buckets_ m))) ->
  let m' := MkMap (<[i := ch']> (buckets_ m)) n in
  wf m' /\ elements m' ≡ₚ ch' ++ concat (delete i (buckets_ m)).
Proof.
  intros Hw E Hin Hnd Hn m'. assert (elements m' ≡ₚ ch' ++ concat (delete i (buckets_ m))) as P.
  { unfold elements, m'. simpl. by apply concat_insert with ch. }
  split; [|done]. split; unfold bucket_count, bucket_index; simpl; rewrite ?length_insert.
  - apply Hw.
  - intros j c kv Ej Hk. unfold bucket_count. simpl. rewrite length_insert.
    destruct (decide (j = i)) as [->|Hne].
    + rewrite list_lookup_insert_eq in Ej by (by eapply lookup_lt_Some). injection Ej as <-.
      by apply Hin.
    + rewrite list_lookup_insert_ne in Ej by done. by apply (wf_index m Hw j c).
  - by rewrite P.
  - by rewrite P.
Qed.

Lemma wf_split m i ch : wf m -> buckets_ m !! i = Some ch ->
  NoDup (ch ++ concat (delete i (buckets_ m))).*1 /\
  size_ m = length (ch ++ concat (delete i (buckets_ m))) /\
  to_map m = list_to_map (ch ++ concat (delete i (buckets_ m))).
Proof.
  intros Hw E. pose proof (wf_nodup m Hw) as Hnd. pose proof (wf_size m Hw) as Hs.
  unfold to_map, elements in *. rewrite (concat_split _ _ _ E) in Hnd, Hs.
  split; [done|]. split; [done|]. symmetry. apply list_to_map_proper; [done|].
  symmetry. by apply concat_split.
Qed.

(** *** Operations *)

Lemma insert_spec m k v :
  wf m ->
  let '(m', added) := insert hash m (k, v) in
  wf m' /\ added = bool_decide (to_map m !! k = None) /\
  to_map m' = match to_map m !! k with Some _ => to_map m | None => <[k := v]> (to_map m) end.
Proof.
  intros Hw. unfold insert. cbn [fst]. rewrite (find_to_map m k Hw).
  destruct (to_map m !! k) as [w|] eqn:Ek; [done|].
  destruct (chain_lookup m k Hw) as (ch & E & Ec).
  rewrite (alter_as_insert _ _ _ _ E). set (i := bucket_index hash m k) in *.
  destruct (wf_split m i ch Hw E) as (Hnd & Hs & Hm).
  assert (NoDup ((k, v) :: ch ++ concat (delete i (buckets_ m))).*1) as Hnd'.
  { simpl. apply NoDup_cons. split; [|done]. rewrite Hm in Ek. by apply not_elem_of_list_to_map in Ek. }
  destruct (wf_update m i ch ((k, v) :: ch) (S (size_ m)) Hw E) as [Hw' P].
  - intros kv [->|Hin]%elem_of_cons; [done|]. by apply (wf_index m Hw i ch).
  - done.
  - simpl. by rewrite Hs.
  - assert (to_map (MkMap (<[i := (k, v) :: ch]> (buckets_ m)) (S (size_ m))) = <[k := v]> (to_map m)) as Hmap.
    { unfold to_map at 1. rewrite (list_to_map_proper _ _ (wf_nodup _ Hw') P), Hm. done. }
    destruct (_ <? _)%nat; [|split; [exact Hw'|split; [done|exact Hmap]]].
    destruct (rehash_spec (bucket_count (MkMap (<[i := (k, v) :: ch]> (buckets_ m)) (S (size_ m))) * 2)
      _ (wf_nodup _ Hw') (wf_size _ Hw')) as [Hw2 P2].
    split; [done|]. split; [done|]. rewrite <- Hmap. unfold to_map.
    by apply list_to_map_proper; [apply Hw2|].
Qed.

Lemma erase_spec m k :
  wf m ->
  let '(m', n) := erase hash m k in
  wf m' /\ n = (if bool_decide (to_map m !! k = None) then 0 else 1)%nat /\
  to_map m' = delete k (to_map m).
Proof.
  intros Hw. destruct (chain_lookup m k Hw) as (ch & E & Ec). unfold erase. rewrite Ec.
  pose proof (find_to_map m k Hw) as Hf. unfold find in Hf. rewrite Ec in Hf.
  destruct (chain_erase k ch) as [ch'|] eqn:Ee; cycle 1.
  { apply chain_erase_None in Ee. rewrite Ee in Hf. rewrite <- Hf, delete_id by done. done. }
  destruct (chain_erase_spec k ch ch' Ee) as (v & Ev & P). rewrite Ev in Hf. rewrite <- Hf.
  set (i := bucket_index hash m k) in *. destruct (wf_split m i ch Hw E) as (Hnd & Hs & Hm).
  rewrite P in Hnd, Hs. simpl in Hnd, Hs. apply NoDup_cons in Hnd as [Hk Hnd].
  destruct (wf_update m i ch ch' (size_ m - 1) Hw E) as [Hw' P'].
  - intros kv Hin. apply (wf_index m Hw i ch); [done|]. rewrite P. by right.
  - done.
  - rewrite Hs. lia.
  - split; [done|]. split; [done|]. unfold to_map at 1.
    rewrite (list_to_map_proper _ _ (wf_nodup _ Hw') P'), Hm.
    rewrite (list_to_map_proper (ch ++ _) ((k, v) :: ch' ++ concat (delete i (buckets_ m)))).
    + simpl. symmetry. rewrite delete_insert_id; [done|]. by apply not_elem_of_list_to_map_1.
    + rewrite P. simpl. by apply NoDup_cons.
    + by rewrite P.
Qed.

Lemma set_value_spec m k v :
  wf m -> is_Some (to_map m !! k) ->
  wf (set_value hash m k v) /\ to_map (set_value hash m k v) = <[k := v]> (to_map m).
Proof.
  intros Hw [w Hk]. destruct (chain_lookup m k Hw) as (ch & E & Ec).
  pose proof (find_to_map m k Hw) as Hf. unfold find in Hf. rewrite Ec, Hk in Hf.
  unfold set_value. rewrite (alter_as_insert _ _ _ _ E).
  destruct (chain_set_spec k v ch w Hf) as (ch' & P1 & P2).
  set (i := bucket_index hash m k) in *. destruct (wf_split m i ch Hw E) as (Hnd & Hs & Hm).
  pose proof Hnd as Hnd0. rewrite P1 in Hnd, Hs. simpl in Hnd, Hs.
  apply NoDup_cons in Hnd as [Hk' Hnd].
  destruct (wf_update m i ch (chain_set k v ch) (size_ m) Hw E) as [Hw' P'].
  - intros kv Hin. apply (list_elem_of_fmap_2 fst) in Hin. rewrite chain_set_keys in Hin.
    apply list_elem_of_fmap in Hin as ([k2 v2] & -> & Hin). by apply (wf_index m Hw i ch (k2, v2)).
  - by rewrite fmap_app, chain_set_keys, <- fmap_app.
  - rewrite P2, Hs. done.
  - split; [done|]. unfold to_map at 1.
    rewrite (list_to_map_proper _ _ (wf_nodup _ Hw') P'), Hm.
    rewrite (list_to_map_proper (chain_set k v ch ++ _) ((k, v) :: ch' ++ concat (delete i (buckets_ m)))).
    + rewrite (list_to_map_proper (ch ++ _) ((k, w) :: ch' ++ concat (delete i (buckets_ m)))).
      * simpl. by rewrite insert_insert_eq.
      * done.
      * by rewrite P1.
    + by rewrite fmap_app, chain_set_keys, <- fmap_app.
    + by rewrite P2.
Qed.

Lemma assign_spec d m k v :
  wf m -> wf (assign hash d m k v) /\ to_map (assign hash d m k v) = <[k := v]> (to_map m).
Proof.
  intros Hw. unfold assign, index. rewrite (find_to_map m k Hw).
  destruct (to_map m !! k) as [w|] eqn:Ek; [apply set_value_spec; [done|by rewrite Ek]|].
  pose proof (insert_spec m k d Hw) as Hi. destruct (insert hash m (k, d)) as [m1 b]. cbn [fst].
  rewrite Ek in Hi. destruct Hi as (Hw1 & _ & Hm1).
  destruct (set_value_spec m1 k v Hw1) as [Hw2 Hm2].
  { rewrite Hm1, lookup_insert_eq. eauto. }
  split; [done|]. by rewrite Hm2, Hm1, insert_insert_eq.
Qed.

Lemma clear_spec m : wf m -> wf (clear m) /\ to_map (clear m) = ∅.
Proof.
  intros Hw. split.
  - split; unfold bucket_index, bucket_count, elements, clear; simpl;
      rewrite ?length_replicate, ?concat_replicate_nil.
    + apply Hw.
    + intros i ch kv [-> _]%lookup_replicate Hin. by apply elem_of_nil in Hin.
    + apply NoDup_nil_2.
    + done.
  - unfold to_map, elements, clear. simpl. by rewrite concat_replicate_nil.
Qed.

(** *** Iteration *)

Lemma visit_from m bs : forall i f,
  drop i (buckets_ m) = bs -> (length (concat bs) <= f)%nat ->
  visit f m (advance i bs) = concat bs.
Proof.
  induction bs as [|ch bs IH]; intros i f Hd Hf; simpl; [by destruct f|].
  assert (drop (S i) (buckets_ m) = bs) as Hd'.
  { replace (S i) with (i + 1)%nat by lia. rewrite <- drop_drop, Hd. done. }
  destruct ch as [|kv ch]; [by apply IH|]. simpl in Hf. rewrite length_app in Hf.
  clear Hd. revert kv f Hf. induction ch as [|kv' ch IHc]; intros kv f Hf; simpl in *.
  - destruct f as [|f]; [lia|]. simpl. f_equal. unfold it_next. cbn [fst snd]. rewrite Hd'.
    apply IH; [done|lia].
  - destruct f as [|f]; [lia|]. simpl. f_equal. unfold it_next. cbn [fst snd].
    apply IHc. lia.
Qed.

(** *** Whole maps *)

Lemma insert_all_spec kvs : forall m, wf m -> NoDup kvs.*1 -> (forall k, k ∈ kvs.*1 -> to_map m !! k = None) ->
  wf (insert_all hash m kvs) /\ to_map (insert_all hash m kvs) = list_to_map kvs ∪ to_map m.
Proof.
  induction kvs as [|[k v] kvs IH]; intros m Hw Hnd Hf; [cbn; by rewrite (left_id_L ∅ (∪))|]. cbn [fmap list_fmap fst] in *. apply NoDup_cons in Hnd as [Hk Hnd].
  pose proof (insert_spec m k v Hw) as S. destruct (insert hash m (k, v)) as [m1 added] eqn:E. destruct S as (Hw1 & _ & Em).
  rewrite (Hf k) in Em by set_solver. change (insert_all hash m ((k, v) :: kvs)) with (insert_all hash (insert hash m (k, v)).1 kvs). rewrite E. cbn [fst list_to_map]. destruct (IH m1 Hw1 Hnd) as [H1 H2].
  { intros q Hq. rewrite Em, lookup_insert_ne by (intros ->; done). apply Hf. set_solver. }
  split; [exact H1|]. rewrite H2, Em. rewrite <- insert_union_r by (by apply not_elem_of_list_to_map_1). by rewrite insert_union_l.
Qed.

Lemma rehash_empty n : wf (rehash hash n (MkMap [] 0 : umap K V)) /\ to_map (rehash hash n (MkMap [] 0)) = ∅.
Proof.
  destruct (rehash_spec n (MkMap [] 0)) as [A B]; [apply NoDup_nil_2|done|]. split; [done|].
  apply Permutation_nil_r in B. unfold to_map. by rewrite B.
Qed.

Lemma copy_spec n m : wf m -> wf (insert_all hash (rehash hash n (MkMap [] 0)) (elements m)) /\ to_map (insert_all hash (rehash hash n (MkMap [] 0)) (elements m)) = to_map m.
Proof.
  intros Hw. destruct (rehash_empty n) as [H1 H2]. destruct (insert_all_spec (elements m) _ H1 (wf_nodup m Hw)) as [H3 H4].
  { intros k _. by rewrite H2. }
  split; [exact H3|]. rewrite H4, H2. by rewrite (right_id_L ∅ (∪)).
Qed.

(** Copies and moves of whole maps.  A copy, by construction or by assignment to any
    map, is well-formed and has the same pairs; so has the target of a move, but what
    is left of the source has no buckets: every further operation with a key divides
    by zero.  A copy assigned to it makes it usable again. *)
Theorem unordered_map_copies (m other : umap K V) (n : nat) : wf other ->
  (wf (copy hash other) /\ to_map (copy hash other) = to_map other) /\
  (wf (copy_assign hash false m other) /\ to_map (copy_assign hash false m other) = to_map other) /\
  copy_assign hash true m m = m /\
  (wf (new_map_with hash n : umap K V) /\ to_map (new_map_with hash n : umap K V) = ∅) /\
  (wf (reserve hash n other) /\ to_map (reserve hash n other) = to_map other) /\
  (let '(target, source) := move other in target = other /\ divides_by_zero source = true /\ empty source = true /\
     divides_by_zero (copy_assign hash false source other) = false) /\
  move_assign false m other = move other /\ divides_by_zero other = false.
Proof.
  intros Hw. destruct (copy_spec (bucket_count other) other Hw) as [C1 C2].
  assert (forall x, wf x -> divides_by_zero x = false) as Hd.
  { intros x Hx. apply Nat.eqb_neq. pose proof (wf_buckets x Hx). lia. }
  split_and!; try done; [apply rehash_empty|apply rehash_empty| | |cbn; split_and!; [done..|by apply Hd]|by apply Hd].
  - unfold reserve. destruct (_ <? _)%nat; [|done]. by apply rehash_spec; apply Hw.
  - unfold reserve. destruct (_ <? _)%nat; [|done]. destruct (rehash_spec (S (n / kMaxLoadFactor)) other (wf_nodup _ Hw) (wf_size _ Hw)) as [A B].
    unfold to_map. apply list_to_map_proper; [apply A|done].
Qed.

(** C30: [unordered_map] is a finite map.  For every hash function and every
    well-formed table: the empty table, [insert] (which keeps the value of a
    present key), [m[k] = v], [erase] and [clear] give well-formed tables whose
    contents are the corresponding finite maps, growing by [rehash] included;
    [find], [count] and the insertion and erasure results agree with the finite
    map; [size] is its cardinality; and a loop from [begin()] to [end()] visits
    every pair exactly once. *)
Theorem unordered_map_refines_map (m : umap K V) (k : K) (v d : V) :
  wf m ->
  (wf (new_map hash : umap K V) /\ to_map (new_map hash : umap K V) = ∅) /\
  find hash m k = to_map m !! k /\
  count hash m k = (if bool_decide (k ∈ dom (to_map m)) then 1 else 0)%nat /\
  (let '(m', added) := insert hash m (k, v) in
   wf m' /\ added = bool_decide (to_map m !! k = None) /\
   to_map m' = match to_map m !! k with Some _ => to_map m | None => <[k := v]> (to_map m) end) /\
  (wf (assign hash d m k v) /\ to_map (assign hash d m k v) = <[k := v]> (to_map m)) /\
  (let '(m', n) := erase hash m k in
   wf m' /\ n = (if bool_decide (to_map m !! k = None) then 0 else 1)%nat /\
   to_map m' = delete k (to_map m)) /\
  (wf (clear m) /\ to_map (clear m) = ∅) /\
  size m = map_size (to_map m) /\
  visit (length (elements m)) m (begin m) ≡ₚ map_to_list (to_map m).
Proof.
  intros Hw. split; [apply new_map_spec|]. split; [by apply find_to_map|]. split.
  { unfold count, contains. rewrite (find_to_map m k Hw).
    assert (k ∈ dom (to_map m) <-> is_Some (to_map m !! k)) as X by apply elem_of_dom.
    do 2 case_bool_decide; tauto. }
  split; [by apply insert_spec|]. split; [by apply assign_spec|].
  split; [by apply erase_spec|]. split; [by apply clear_spec|].
  pose proof (map_to_list_to_map (M := gmap K) (elements m) (wf_nodup m Hw)) as P. split.
  - unfold size. rewrite (wf_size m Hw), <- P. apply length_map_to_list.
  - unfold begin. rewrite visit_from by done. symmetry. exact P.
Qed.

End refinement.

Lemma unordered_map_refines_map_witness :
  let m := assign (fun z : Z => z) 0%Z (new_map (fun z : Z => z)) 17%Z 4%Z in
  find (fun z : Z => z) m 17%Z = Some 4%Z /\ find (fun z : Z => z) m 1%Z = None /\
  to_map (erase (fun z : Z => z) m 17%Z).1 = delete 17%Z (to_map m).
Proof.
  pose proof (unordered_map_refines_map (fun z : Z => z)
    (assign (fun z : Z => z) 0%Z (new_map (fun z : Z => z)) 17%Z 4%Z) 17%Z 0%Z 0%Z) as H.
  destruct H as (_ & _ & _ & _ & _ & He & _).
  - apply (assign_spec (fun z : Z => z)), new_map_spec.
  - split; [reflexivity|]. split; [reflexivity|].
    destruct (erase _ _ _) as [m' n]. apply He.
Defined.

End NkUnorderedMap.
