(* ===== verification/NkLibcxx.v ===== *)
(** * The C++ run time: src/src/libcxx/nk_libcxx.cpp

    The table of destructors ([__cxa_atexit], [__cxa_finalize]), the constructors
    and destructors of global objects, and the guards of static local variables,
    as functions and as the interleavings of the atomic accesses of any number of
    cores.  What a destructor does is a parameter; it does not register others. *)

From stdpp Require Import base numbers list functions.
From Stdlib Require Import ZArith Lia.
From S2P Require Import Prelude.

Local Open Scope Z_scope.

Module NkLibcxx.

(** ** Destructors *)

Definition kMaxAtExitFuncsCount : Z := 128.

Record atexit_func_entry_t := MkEntry { destructor_func : ptr; obj_ptr : ptr; dso_handle : ptr }.

Record Atexit (W : Type) := MkAtexit {
  atexit_funcs : list atexit_func_entry_t;
  atexit_func_count : Z;
  world : W
}.
Arguments MkAtexit {W}.
Arguments atexit_funcs {W}.
Arguments atexit_func_count {W}.
Arguments world {W}.

Section atexit.
Context {W : Type} (call : ptr -> ptr -> W -> W).
Implicit Types (s : Atexit W) (w : W) (f o : ptr).

Definition empty_entry : atexit_func_entry_t := MkEntry nullptr nullptr nullptr.
Definition initial_atexit w : Atexit W := MkAtexit (replicate (Z.to_nat kMaxAtExitFuncsCount) empty_entry) 0 w.

(** [atexit_funcs[i] = e] *)
Definition set_entry (i : Z) (e : atexit_func_entry_t) : M (Atexit W) unit :=
  modify (fun s => MkAtexit (<[Z.to_nat i := e]> (atexit_funcs s)) (atexit_func_count s) (world s)).

Definition cxa_atexit f o : M (Atexit W) Z :=
  let* n := gets atexit_func_count in
  if kMaxAtExitFuncsCount <=? n then ret (-1)
  else
    let* _ := set_entry n (MkEntry f o nullptr) in
    let* _ := modify (fun s => MkAtexit (atexit_funcs s) (u64 (n + 1)) (world s)) in
    ret 0.

Definition entry_at (i : nat) : M (Atexit W) atexit_func_entry_t := fun s =>
  match atexit_funcs s !! i with Some e => Ret s e | None => Halt s (BadPointer (Z.of_nat i)) end.
Definition run_entry (e : atexit_func_entry_t) : M (Atexit W) unit :=
  modify (fun s => MkAtexit (atexit_funcs s) (atexit_func_count s) (call (destructor_func e) (obj_ptr e) (world s))).

(** [for (i = n; i > 0; --i)]: all destructors. *)
Fixpoint finalize_all (n : nat) : M (Atexit W) unit :=
  match n with
  | O => ret tt
  | S idx =>
      let* e := entry_at idx in
      let* _ := when (negb (destructor_func e =? nullptr)) (run_entry e) in
      finalize_all idx
  end.

(** The same for one destructor, which is forgotten. *)
Fixpoint finalize_one (f : ptr) (n : nat) : M (Atexit W) unit :=
  match n with
  | O => ret tt
  | S idx =>
      let* e := entry_at idx in
      let* _ := when (destructor_func e =? f)
        (let* _ := run_entry e in set_entry (Z.of_nat idx) (MkEntry nullptr (obj_ptr e) (dso_handle e))) in
      finalize_one f idx
  end.

Definition cxa_finalize (f : ptr) : M (Atexit W) unit :=
  let* n := gets atexit_func_count in
  if f =? nullptr then finalize_all (Z.to_nat n) else finalize_one f (Z.to_nat n).

(** ** What the table stands for: the registered pairs, oldest first *)

Definition entry (p : ptr * ptr) : atexit_func_entry_t := MkEntry p.1 p.2 nullptr.
Definition registered s (l : list (ptr * ptr)) : Prop :=
  atexit_func_count s = Z.of_nat (length l) /\ Z.of_nat (length l) <= kMaxAtExitFuncsCount /\
  exists rest, atexit_funcs s = (entry <$> l) ++ rest /\ Z.of_nat (length (atexit_funcs s)) = kMaxAtExitFuncsCount.

(** The destructors of [l], the last first; what is left when [f] is forgotten. *)
Definition run_reverse (l : list (ptr * ptr)) w : W := foldr (fun p w' => call p.1 p.2 w') w l.
Definition live (p : ptr * ptr) : bool := negb (p.1 =? nullptr).
Definition is_func f (p : ptr * ptr) : bool := p.1 =? f.
Definition forget f (p : ptr * ptr) : ptr * ptr := if is_func f p then (nullptr, p.2) else p.

Lemma run_reverse_snoc (test : ptr * ptr -> bool) l p w :
  run_reverse (List.filter test (l ++ [p])) w = run_reverse (List.filter test l) (if test p then call p.1 p.2 w else w).
Proof. rewrite List.filter_app. unfold run_reverse. rewrite foldr_app. cbn [List.filter]. destruct (test p); reflexivity. Qed.

Lemma entry_at_registered s l i p : registered s l -> l !! i = Some p -> entry_at i s = Ret s (entry p).
Proof.
  intros (_ & _ & rest & E & _) Hi. unfold entry_at. rewrite E, lookup_app_l by (rewrite length_fmap; by eapply lookup_lt_Some).
  by rewrite list_lookup_fmap, Hi.
Qed.

Lemma set_entry_registered s l i p w : registered s l -> (i < length l)%nat ->
  registered (MkAtexit (<[i := entry p]> (atexit_funcs s)) (atexit_func_count s) w) (<[i := p]> l).
Proof.
  intros (Hc & Hl & rest & E & Hn) Hi. unfold registered. cbn. rewrite !length_insert. split_and!; [done|done|].
  exists rest. split; [|done]. rewrite E, insert_app_l by (by rewrite length_fmap). by rewrite list_fmap_insert.
Qed.

Lemma finalize_all_spec n : forall s l, registered s l -> (n <= length l)%nat ->
  finalize_all n s = Ret (MkAtexit (atexit_funcs s) (atexit_func_count s) (run_reverse (List.filter live (take n l)) (world s))) tt.
Proof.
  induction n as [|n IH]; intros s l Hs Hn; [by destruct s|]. destruct (lookup_lt_is_Some_2 l n) as [p Hp]; [lia|].
  cbn [finalize_all bind]. rewrite (entry_at_registered s l n p Hs Hp), (take_S_r _ _ _ Hp), run_reverse_snoc. unfold live.
  cbn [entry destructor_func]. destruct (p.1 =? nullptr); cbn [negb when].
  - by apply IH; [|lia].
  - cbn [run_entry modify]. rewrite (IH _ l); [done| |lia]. exact Hs.
Qed.

Lemma finalize_one_spec f n : forall s l, registered s l -> (n <= length l)%nat ->
  exists s', finalize_one f n s = Ret s' tt /\ registered s' ((forget f <$> take n l) ++ drop n l) /\
    world s' = run_reverse (List.filter (is_func f) (take n l)) (world s).
Proof.
  induction n as [|n IH]; intros s l Hs Hn; [by exists s|]. destruct (lookup_lt_is_Some_2 l n) as [p Hp]; [lia|].
  assert ((forget f <$> take (S n) l) ++ drop (S n) l = (forget f <$> take n l) ++ drop n (<[n := forget f p]> l)) as El.
  { rewrite (take_S_r _ _ _ Hp), fmap_app, <- app_assoc. f_equal. rewrite (drop_S (<[n:=_]> l) (forget f p) n) by (apply list_lookup_insert_eq; lia).
    by rewrite drop_insert_lt by lia. }
  cbn [finalize_one bind]. rewrite (entry_at_registered s l n p Hs Hp), El, (take_S_r _ _ _ Hp), run_reverse_snoc.
  assert (take n (<[n:=forget f p]> l) = take n l) as Et by (by rewrite take_insert_ge by lia).
  change (destructor_func (entry p) =? f) with (is_func f p). unfold forget at 2. unfold forget in Et. destruct (is_func f p) eqn:Ef; cbn [when].
  - cbn [bind run_entry modify set_entry]. rewrite Nat2Z.id. cbn [atexit_funcs atexit_func_count world].
    destruct (IH _ _ (set_entry_registered s l n (nullptr, p.2) (call p.1 p.2 (world s)) Hs ltac:(lia))) as (s' & E & R & Wd); [rewrite length_insert; lia|].
    exists s'. rewrite Et in R, Wd. by split_and!.
  - cbn [ret]. rewrite list_insert_id by done. destruct (IH s l Hs ltac:(lia)) as (s' & E & R & Wd). by exists s'.
Qed.

(** the order of destruction.  From the empty table every registration up to 128
    succeeds and a further one is refused with the table unchanged; finalizing
    runs the destructors of the live entries, the last registered first; finalizing
    one destructor runs its entries in that order and forgets them. *)
Theorem destructors_in_reverse_order s l f o : registered s l ->
  (Z.of_nat (length l) < kMaxAtExitFuncsCount -> exists s', cxa_atexit f o s = Ret s' 0 /\ registered s' (l ++ [(f, o)]) /\ world s' = world s) /\
  (Z.of_nat (length l) = kMaxAtExitFuncsCount -> cxa_atexit f o s = Ret s (-1)) /\
  (exists s', cxa_finalize nullptr s = Ret s' tt /\ registered s' l /\ world s' = run_reverse (List.filter live l) (world s)) /\
  (f <> nullptr -> exists s', cxa_finalize f s = Ret s' tt /\ registered s' (forget f <$> l) /\
     world s' = run_reverse (List.filter (is_func f) l) (world s)).
Proof.
  intros Hs. pose proof Hs as (Hc & Hl & rest & E & Hn). split_and!.
  - intros Hlt. unfold cxa_atexit. cbn [bind gets]. rewrite Hc, (proj2 (Z.leb_gt _ _) Hlt). cbn [bind set_entry modify ret].
    eexists. split; [done|]. split; [|done]. unfold registered. cbn. rewrite Nat2Z.id, length_insert, length_app. cbn.
    rewrite u64_small by (unfold kMaxAtExitFuncsCount in *; lia). split_and!; [lia|lia|].
    rewrite E, length_app, length_fmap in Hn. destruct rest as [|r rest]; [cbn in Hn; lia|]. exists rest. split; [|by rewrite E, length_app, length_fmap].
    rewrite E, fmap_app, insert_app_r_alt by (by rewrite length_fmap). by rewrite length_fmap, Nat.sub_diag, <- app_assoc.
  - intros Hf. unfold cxa_atexit. cbn [bind gets]. by rewrite Hc, Hf.
  - unfold cxa_finalize. cbn [bind gets]. rewrite Z.eqb_refl, Hc, Nat2Z.id, (finalize_all_spec _ s l Hs) by lia. rewrite take_ge by lia. by eexists.
  - intros Hf. unfold cxa_finalize. cbn [bind gets]. rewrite Hc, Nat2Z.id, (proj2 (Z.eqb_neq _ _) Hf).
    destruct (finalize_one_spec f (length l) s l Hs) as (s' & Ef & R & Wd); [lia|]. exists s'. rewrite take_ge in R, Wd by lia.
    by rewrite drop_ge, app_nil_r in R by lia.
Qed.

(** A second [__cxa_finalize(nullptr)] runs all of them again. *)
Theorem finalize_again s l : registered s l ->
  exists s1 s2, cxa_finalize nullptr s = Ret s1 tt /\ cxa_finalize nullptr s1 = Ret s2 tt /\
    world s2 = run_reverse (List.filter live l) (run_reverse (List.filter live l) (world s)).
Proof.
  intros Hs. destruct Hs as (Hc & Hl & rest & E & Hn). unfold cxa_finalize. cbn [bind gets]. rewrite Z.eqb_refl.
  assert (forall w, registered (MkAtexit (atexit_funcs s) (atexit_func_count s) w) l) as R by (intros w; split_and!; [done|done|by exists rest]).
  destruct s as [fs c w]. cbn [atexit_funcs atexit_func_count world] in *. rewrite Hc, Nat2Z.id in *.
  rewrite (finalize_all_spec _ _ l (R w)) by lia. eexists _, _. split; [done|]. cbn [atexit_funcs atexit_func_count world]. rewrite Nat2Z.id.
  rewrite (finalize_all_spec _ _ l (R _)) by lia. split; [done|]. cbn. by rewrite take_ge by lia.
Qed.

Lemma initial_registered w : registered (initial_atexit w) [].
Proof. split_and!; [done|done|]. by eexists. Qed.

(** ** Global constructors and destructors: [CppInit], [CppDeInit] *)

Definition CppInit (init_array : list (W -> W)) w : W := fold_left (fun w' func => func w') init_array w.
Definition CppDeInit (fini_array : list (W -> W)) w : W := fold_left (fun w' func => func w') fini_array w.

End atexit.

Lemma destructors_in_reverse_order_witness :
  exists s s', registered s [(16, 1); (32, 2); (16, 3)] /\
    cxa_finalize (fun f o w => w ++ [(f, o)]) 16 s = Ret s' tt /\ world s' = [(16, 3); (16, 1)].
Proof.
  pose (call := fun (f o : ptr) (w : list (ptr * ptr)) => w ++ [(f, o)]).
  destruct (destructors_in_reverse_order call _ [] 16 1 (initial_registered [])) as [H1 _].
  destruct (H1 ltac:(done)) as (s1 & _ & R1 & W1).
  destruct (destructors_in_reverse_order call s1 _ 32 2 R1) as [H2 _]. destruct (H2 ltac:(done)) as (s2 & _ & R2 & W2).
  destruct (destructors_in_reverse_order call s2 _ 16 3 R2) as [H3 _]. destruct (H3 ltac:(done)) as (s3 & _ & R3 & W3).
  destruct (destructors_in_reverse_order call s3 _ 16 0 R3) as (_ & _ & _ & H4). destruct (H4 ltac:(done)) as (s4 & E4 & R4 & W4).
  exists s3, s4. split; [exact R3|]. split; [exact E4|]. rewrite W4, W3, W2, W1. reflexivity.
Defined.

(** ** Guards of static local variables *)

Definition kInitializedMask : Z := 0x01.
Definition kInUseMask : Z := 0x100.

(** The calls of a core that is not disturbed, on the guard word; [None]: the
    call waits for the core that initialises the variable. *)
Definition cxa_guard_acquire (guard : Z) : option (Z * Z) :=
  if guard =? 0 then Some (kInUseMask, 1)
  else if negb (Z.land guard kInitializedMask =? 0) then Some (guard, 0) else None.
Definition cxa_guard_release (guard : Z) : Z := kInitializedMask.
Definition cxa_guard_abort (guard : Z) : Z := 0.

(** The code around a static local variable, as the comment gives it: where a core is in it. *)
Inductive pc :=
| Away                         (* not in the function *)
| AtCompareExchange            (* in [__cxa_guard_acquire], before the compare-and-swap *)
| Initialising                 (* it returned 1; the constructor runs *)
| AtRelease                    (* the object is complete, before the store of [__cxa_guard_release] *)
| AtAbort                      (* the constructor threw, before the store of [__cxa_guard_abort] *)
| Using.                       (* behind the initialisation *)

Record statics := MkStatics { guard : Z; pcs : Z -> pc; completed : nat (* constructions that completed *) }.
Definition fresh_static : statics := MkStatics 0 (fun _ => Away) 0.
Definition first_byte (g : Z) : Z := Z.land g 0xFF.

Definition goto (s : statics) (c : Z) (p : pc) : statics := MkStatics (guard s) (<[c := p]> (pcs s)) (completed s).
Definition store_guard (s : statics) (g : Z) : statics := MkStatics g (pcs s) (completed s).

(** One step of core [c].  A weak compare-and-swap may fail although the guard is 0. *)
Inductive step (c : Z) (s : statics) : statics -> Prop :=
| SkipInitialised : pcs s c = Away -> first_byte (guard s) <> 0 -> step c s (goto s c Using)
| CallAcquire : pcs s c = Away -> first_byte (guard s) = 0 -> step c s (goto s c AtCompareExchange)
| ExchangeWins : pcs s c = AtCompareExchange -> guard s = 0 -> step c s (goto (store_guard s kInUseMask) c Initialising)
| ExchangeFindsInitialised : pcs s c = AtCompareExchange -> Z.land (guard s) kInitializedMask <> 0 -> step c s (goto s c Using)
| ExchangeRetries : pcs s c = AtCompareExchange -> Z.land (guard s) kInitializedMask = 0 -> step c s (goto s c AtCompareExchange)
| ConstructorEnds : pcs s c = Initialising -> step c s (goto (MkStatics (guard s) (pcs s) (S (completed s))) c AtRelease)
| ConstructorThrows : pcs s c = Initialising -> step c s (goto s c AtAbort)
| Release : pcs s c = AtRelease -> step c s (goto (store_guard s kInitializedMask) c Using)
| Aborts : pcs s c = AtAbort -> step c s (goto (store_guard s 0) c Away)
| Leave : pcs s c = Using -> step c s (goto s c Away).

Inductive reachable : statics -> Prop :=
| ReachFresh : reachable fresh_static
| ReachStep c s s' : reachable s -> step c s s' -> reachable s'.

(** The core is responsible for the variable. *)
Definition owner (p : pc) : bool := match p with Initialising | AtRelease | AtAbort => true | _ => false end.
Definition built (p : pc) : nat := match p with AtRelease => 1 | _ => 0 end.

Inductive phase (s : statics) : Prop :=
| Untouched : guard s = 0 -> completed s = 0%nat -> (forall c, owner (pcs s c) = false) -> (forall c, pcs s c <> Using) -> phase s
| InProgress c : guard s = kInUseMask -> owner (pcs s c) = true -> completed s = built (pcs s c) ->
    (forall c', c' <> c -> owner (pcs s c') = false) -> (forall c', pcs s c' <> Using) -> phase s
| Initialised : guard s = kInitializedMask -> completed s = 1%nat -> (forall c, owner (pcs s c) = false) -> phase s.

Lemma goto_same s c p : pcs (goto s c p) c = p.
Proof. apply fn_lookup_insert. Qed.
Lemma goto_other s c p c' : c' <> c -> pcs (goto s c p) c' = pcs s c'.
Proof. intros Hn. by apply fn_lookup_insert_ne. Qed.

(** A fact about every core after [c] moved to [p]. *)
Lemma goto_all (P : pc -> Prop) s c p : P p -> (forall c', c' <> c -> P (pcs s c')) -> forall c', P (pcs (goto s c p) c').
Proof. intros Hp Hs c'. destruct (decide (c' = c)) as [->|Hn]; [by rewrite goto_same|rewrite goto_other by done; auto]. Qed.

Lemma goto_no_owner s c p : owner p = false -> (forall c', c' <> c -> owner (pcs s c') = false) -> forall c', owner (pcs (goto s c p) c') = false.
Proof. apply (goto_all (fun p => owner p = false)). Qed.
Lemma goto_no_using s c p : p <> Using -> (forall c', pcs s c' <> Using) -> forall c', pcs (goto s c p) c' <> Using.
Proof. intros Hp Hs. by apply (goto_all (fun p => p <> Using)). Qed.

(** A core that is not the owner moves. *)
Lemma phase_goto s c p : phase s -> owner (pcs s c) = false -> owner p = false -> (p = Using -> guard s = kInitializedMask) -> phase (goto s c p).
Proof.
  intros [G D O U|c0 G Oc D O U|G D O] Hc Hp Hu.
  - apply Untouched; [done|done|by apply goto_no_owner|]. apply goto_no_using; [|done]. intros ->. rewrite Hu in G; done.
  - assert (c0 <> c) by congruence. apply (InProgress _ c0); [done|by rewrite goto_other|by rewrite goto_other| |].
    + intros c' Hn. destruct (decide (c' = c)) as [->|]; [by rewrite goto_same|rewrite goto_other by done; auto].
    + apply goto_no_using; [|done]. intros ->. rewrite Hu in G; done.
  - apply Initialised; [done|done|by apply goto_no_owner].
Qed.

Lemma owner_in_progress s c : phase s -> owner (pcs s c) = true ->
  guard s = kInUseMask /\ completed s = built (pcs s c) /\ (forall c', c' <> c -> owner (pcs s c') = false) /\ (forall c', pcs s c' <> Using).
Proof.
  intros [G D O U|c0 G Oc D O U|G D O] Hc; [by rewrite O in Hc| |by rewrite O in Hc].
  assert (c = c0) as -> by (destruct (decide (c = c0)); [done|by rewrite O in Hc]). done.
Qed.

Lemma step_phase c s s' : phase s -> step c s s' -> phase s'.
Proof.
  intros P St. inversion St as [E F|E F|E F|E F|E F|E|E|E|E|E]; subst s'.
  1, 2, 4, 5: apply phase_goto; [done|by rewrite E|done|intros Hu]; try done; destruct P as [G|? G|G]; rewrite ?G in *; done.
  6: by apply phase_goto; [|rewrite E| |].
  - destruct P as [G D O U|? G|G]; [|rewrite G in F; done..].
    apply (InProgress _ c); [done|by rewrite goto_same|rewrite goto_same; exact D|intros c' Hc; rewrite goto_other by done; apply O|by apply goto_no_using].
  - destruct (owner_in_progress s c P) as (G & D & O & U); [by rewrite E|]. rewrite E in D. cbn in D.
    apply (InProgress _ c); [done|by rewrite goto_same|rewrite goto_same; cbn; by rewrite D|intros c' Hc; rewrite goto_other by done; by apply O|by apply goto_no_using].
  - destruct (owner_in_progress s c P) as (G & D & O & U); [by rewrite E|]. rewrite E in D. cbn in D.
    apply (InProgress _ c); [done|by rewrite goto_same|rewrite goto_same; exact D|intros c' Hc; rewrite goto_other by done; by apply O|by apply goto_no_using].
  - destruct (owner_in_progress s c P) as (G & D & O & U); [by rewrite E|]. rewrite E in D. cbn in D.
    apply Initialised; [done|done|by apply goto_no_owner].
  - destruct (owner_in_progress s c P) as (G & D & O & U); [by rewrite E|]. rewrite E in D. cbn in D.
    apply Untouched; [done|done|by apply goto_no_owner|by apply goto_no_using].
Qed.

Lemma reachable_phase s : reachable s -> phase s.
Proof. induction 1; [by apply Untouched|by eapply step_phase]. Qed.

(** C40: static local variables.  Under every interleaving of any number of cores at
    most one core is in the initialisation, the constructor completes at most once,
    a core is behind the initialisation only when it has completed, and a core
    that waits goes on as soon as no core is in it. *)
Theorem static_initialised_once s : reachable s ->
  (forall c1 c2, owner (pcs s c1) = true -> owner (pcs s c2) = true -> c1 = c2) /\
  (completed s <= 1)%nat /\ (forall c, pcs s c = Using -> completed s = 1%nat) /\
  (forall c, pcs s c = AtCompareExchange -> (forall c', owner (pcs s c') = false) ->
     exists s', step c s s' /\ (pcs s' c = Using \/ pcs s' c = Initialising)) /\
  (forall c, owner (pcs s c) = true -> exists s', step c s s').
Proof.
  intros P%reachable_phase. split_and!.
  - intros c1 c2 H1 H2. destruct (owner_in_progress s c1 P H1) as (_ & _ & O & _). destruct (decide (c2 = c1)); [done|]. by rewrite O in H2.
  - destruct P as [G D|c G Oc D|G D]; rewrite D; [lia| |lia]. destruct (pcs s c); cbn; lia.
  - intros c Hc. destruct P as [G D O U|? G Oc D O U|G D O]; [by apply U in Hc|by apply U in Hc|done].
  - intros c Hc Hn. destruct P as [G D O U|c0 G Oc|G D O].
    + eexists. split; [by apply ExchangeWins|]. right. apply goto_same.
    + by rewrite Hn in Oc.
    + eexists. split; [apply ExchangeFindsInitialised; [done|by rewrite G]|]. left. apply goto_same.
  - intros c Hc. destruct (pcs s c) eqn:E; try done; eexists; [by apply ConstructorEnds|by apply Release|by apply Aborts].
Qed.

(** The functions are the steps of an undisturbed core; an acquisition that waits
    stays where it is, so a constructor that needs its own variable never ends. *)
Theorem guard_functions_agree_with_steps s c : reachable s -> pcs s c = AtCompareExchange ->
  match cxa_guard_acquire (guard s) with
  | Some (g, r) => exists s', step c s s' /\ guard s' = g /\ pcs s' c = (if r =? 1 then Initialising else Using)
  | None => (exists c', owner (pcs s c') = true) /\ forall s', step c s s' -> s' = goto s c AtCompareExchange
  end.
Proof.
  intros P%reachable_phase E. destruct P as [G D O U|c0 G Oc D O U|G D O]; rewrite G; cbn.
  - eexists. split; [by apply ExchangeWins|]. split; [done|apply goto_same].
  - split; [by exists c0|]. intros s' St. inversion St; subst s'; rewrite ?G in *; try congruence; done.
  - eexists. split; [apply ExchangeFindsInitialised; [done|by rewrite G]|]. split; [done|apply goto_same].
Qed.

(** Two cores enter the function; the first constructs the object. *)
Lemma static_initialised_once_witness :
  exists s, reachable s /\ pcs s 0 = Initialising /\ pcs s 1 = AtCompareExchange /\ owner (pcs s 1) = false /\ (completed s <= 1)%nat.
Proof.
  pose proof ReachFresh as H.
  eassert (reachable _) as H1 by (eapply (ReachStep 0 _ _ H), CallAcquire; reflexivity).
  eassert (reachable _) as H2 by (eapply (ReachStep 0 _ _ H1), ExchangeWins; reflexivity).
  eassert (reachable _) as H3 by (eapply (ReachStep 1 _ _ H2), CallAcquire; reflexivity).
  eexists. split; [exact H3|]. split_and!; try reflexivity. apply (static_initialised_once _ H3).
Defined.

End NkLibcxx.
