(* ===== verification/Errors.v ===== *)
(** * Error codes: src/src/include/expected.hpp

    [Expected<T>] is [std::expected<T, Error>]: a value or an [ErrorCode]. *)

From stdpp Require Import base numbers list strings.
From Stdlib Require Import ZArith.

Local Open Scope Z_scope.

Inductive ErrorCode :=
| kSuccess
| kElfInvalidAddress
| kElfInvalidMagic
| kElfUnsupported32Bit
| kElfInvalidClass
| kElfSymtabNotFound
| kElfStrtabNotFound
| kFdtInvalidAddress
| kFdtInvalidHeader
| kFdtNodeNotFound
| kFdtPropertyNotFound
| kFdtParseFailed
| kFdtInvalidPropertySize
| kSpinLockRecursiveLock
| kSpinLockNotOwned
| kVmAllocationFailed
| kVmMapFailed
| kVmUnmapFailed
| kVmInvalidPageTable
| kVmPageNotMapped
| kIpiTargetOutOfRange
| kIpiSendFailed
| kApicInitFailed
| kApicInvalidIrq
| kApicInvalidParameter
| kApicCodeCopyFailed
| kApicAddressNotAligned
| kApicAddressOutOfRange
| kApicIpiTimeout
| kTaskNoCurrentTask
| kTaskPidAllocationFailed
| kTaskAllocationFailed
| kTaskInvalidCloneFlags
| kTaskPageTableCloneFailed
| kTaskKernelStackAllocationFailed
| kTaskNoChildFound
| kTaskInvalidPid
| kInvalidArgument
| kOutOfMemory.

#[export] Instance ErrorCode_eq_dec : EqDecision ErrorCode.
Proof. solve_decision. Defined.

(** The underlying [uint64_t] of the enumerators. *)
Definition error_value (c : ErrorCode) : Z :=
  match c with
  | kSuccess => 0
  | kElfInvalidAddress => 256
  | kElfInvalidMagic => 257
  | kElfUnsupported32Bit => 258
  | kElfInvalidClass => 259
  | kElfSymtabNotFound => 260
  | kElfStrtabNotFound => 261
  | kFdtInvalidAddress => 512
  | kFdtInvalidHeader => 513
  | kFdtNodeNotFound => 514
  | kFdtPropertyNotFound => 515
  | kFdtParseFailed => 516
  | kFdtInvalidPropertySize => 517
  | kSpinLockRecursiveLock => 768
  | kSpinLockNotOwned => 769
  | kVmAllocationFailed => 1024
  | kVmMapFailed => 1025
  | kVmUnmapFailed => 1026
  | kVmInvalidPageTable => 1027
  | kVmPageNotMapped => 1028
  | kIpiTargetOutOfRange => 1280
  | kIpiSendFailed => 1281
  | kApicInitFailed => 1536
  | kApicInvalidIrq => 1537
  | kApicInvalidParameter => 1538
  | kApicCodeCopyFailed => 1539
  | kApicAddressNotAligned => 1540
  | kApicAddressOutOfRange => 1541
  | kApicIpiTimeout => 1542
  | kTaskNoCurrentTask => 1792
  | kTaskPidAllocationFailed => 1793
  | kTaskAllocationFailed => 1794
  | kTaskInvalidCloneFlags => 1795
  | kTaskPageTableCloneFailed => 1796
  | kTaskKernelStackAllocationFailed => 1797
  | kTaskNoChildFound => 1798
  | kTaskInvalidPid => 1799
  | kInvalidArgument => 3840
  | kOutOfMemory => 3841
  end.

(** [GetErrorMessage] takes any value of the enumeration's type. *)
Definition GetErrorMessage (code : Z) : string :=
  if code =? 0 then "Success" else
  if code =? 256 then "Invalid ELF address" else
  if code =? 257 then "Invalid ELF magic number" else
  if code =? 258 then "32-bit ELF not supported" else
  if code =? 259 then "Invalid ELF class" else
  if code =? 260 then ".symtab section not found" else
  if code =? 261 then ".strtab section not found" else
  if code =? 512 then "Invalid FDT address" else
  if code =? 513 then "Invalid FDT header" else
  if code =? 514 then "FDT node not found" else
  if code =? 515 then "FDT property not found" else
  if code =? 516 then "FDT parse failed" else
  if code =? 517 then "Invalid FDT property size" else
  if code =? 768 then "Recursive spinlock detected" else
  if code =? 769 then "Spinlock not owned by current core" else
  if code =? 1024 then "Virtual memory allocation failed" else
  if code =? 1025 then "Virtual memory mapping failed" else
  if code =? 1026 then "Virtual memory unmapping failed" else
  if code =? 1027 then "Invalid page table" else
  if code =? 1028 then "Page not mapped" else
  if code =? 1280 then "IPI target CPU mask out of range" else
  if code =? 1281 then "IPI send failed" else
  if code =? 1536 then "APIC initialization failed" else
  if code =? 1537 then "Invalid IRQ number" else
  if code =? 1538 then "Invalid APIC parameter" else
  if code =? 1539 then "AP code copy verification failed" else
  if code =? 1540 then "Address not aligned to required boundary" else
  if code =? 1541 then "Address out of valid range" else
  if code =? 1542 then "IPI delivery timeout" else
  if code =? 1792 then "No current task" else
  if code =? 1793 then "PID allocation failed" else
  if code =? 1794 then "Task allocation failed" else
  if code =? 1795 then "Invalid clone flags" else
  if code =? 1796 then "Page table clone failed" else
  if code =? 1797 then "Kernel stack allocation failed" else
  if code =? 1798 then "No child process found" else
  if code =? 1799 then "Invalid PID" else
  if code =? 3840 then "Invalid argument" else
  if code =? 3841 then "Out of memory" else
  "Unknown error".

Definition Expected (A : Type) : Type := A + ErrorCode.
Abbreviation Value := inl (only parsing).
Abbreviation Unexpected := inr (only parsing).

Definition has_value {A} (r : Expected A) : bool := match r with inl _ => true | inr _ => false end.

(** [Error::message]. *)
Definition message (c : ErrorCode) : string := GetErrorMessage (error_value c).

Definition all_codes : list ErrorCode :=
  [kSuccess; kElfInvalidAddress; kElfInvalidMagic; kElfUnsupported32Bit; kElfInvalidClass; kElfSymtabNotFound; kElfStrtabNotFound; kFdtInvalidAddress; kFdtInvalidHeader; kFdtNodeNotFound; kFdtPropertyNotFound; kFdtParseFailed; kFdtInvalidPropertySize; kSpinLockRecursiveLock; kSpinLockNotOwned; kVmAllocationFailed; kVmMapFailed; kVmUnmapFailed; kVmInvalidPageTable; kVmPageNotMapped; kIpiTargetOutOfRange; kIpiSendFailed; kApicInitFailed; kApicInvalidIrq; kApicInvalidParameter; kApicCodeCopyFailed; kApicAddressNotAligned; kApicAddressOutOfRange; kApicIpiTimeout; kTaskNoCurrentTask; kTaskPidAllocationFailed; kTaskAllocationFailed; kTaskInvalidCloneFlags; kTaskPageTableCloneFailed; kTaskKernelStackAllocationFailed; kTaskNoChildFound; kTaskInvalidPid; kInvalidArgument; kOutOfMemory].

Lemma all_codes_complete c : c ∈ all_codes.
Proof. destruct c; apply list_elem_of_In; simpl; tauto. Qed.

(** Every declared code has a message of its own: none falls through to the
    default branch and no two codes share one. *)
Lemma message_known_injective c1 c2 :
  message c1 <> "Unknown error" /\ (message c1 = message c2 -> c1 = c2).
Proof.
  split; [by destruct c1|].
  assert (forallb (fun a => forallb (fun b =>
    implb (bool_decide (message a = message b)) (bool_decide (a = b))) all_codes) all_codes = true)
    as H by (vm_compute; reflexivity).
  rewrite forallb_forall in H. intros E.
  specialize (H c1 ltac:(apply list_elem_of_In, all_codes_complete)).
  rewrite forallb_forall in H.
  specialize (H c2 ltac:(apply list_elem_of_In, all_codes_complete)).
  rewrite bool_decide_eq_true_2 in H by done. simpl in H. by apply bool_decide_eq_true in H.
Qed.
