(* ===== verification/ResourceId.v ===== *)
(** * Resource identifiers: src/src/task/include/resource_id.hpp

    A 64-bit word with the resource type in bits 56..63 and 56 bits of data. *)

From stdpp Require Import base numbers list strings.
From Stdlib Require Import ZArith Lia.
From S2P Require Import Prelude.

Local Open Scope Z_scope.

Module ResourceId.

Inductive ResourceType :=
| kNone | kMutex | kSemaphore | kCondVar | kChildExit | kIoComplete
| kFutex | kSignal | kTimer | kInterrupt | kResourceTypeCount.

#[export] Instance ResourceType_eq_dec : EqDecision ResourceType.
Proof. solve_decision. Defined.

Definition type_value (t : ResourceType) : Z :=
  match t with
  | kNone => 0 | kMutex => 1 | kSemaphore => 2 | kCondVar => 3 | kChildExit => 4
  | kIoComplete => 5 | kFutex => 6 | kSignal => 7 | kTimer => 8 | kInterrupt => 9
  | kResourceTypeCount => 10
  end.

(** The switch takes the raw [uint8_t]; [kInterrupt] has no case of its own. *)
Definition GetResourceTypeName (t : Z) : string :=
  if t =? type_value kNone then "None"
  else if t =? type_value kMutex then "Mutex"
  else if t =? type_value kSemaphore then "Semaphore"
  else if t =? type_value kCondVar then "CondVar"
  else if t =? type_value kChildExit then "ChildExit"
  else if t =? type_value kIoComplete then "IoComplete"
  else if t =? type_value kFutex then "Futex"
  else if t =? type_value kSignal then "Signal"
  else if t =? type_value kTimer then "Timer"
  else "Unknown".

Definition kTypeShift : Z := 56.
Definition kTypeMask : Z := 0xFF00000000000000.
Definition kDataMask : Z := 0x00FFFFFFFFFFFFFF.

(** A [ResourceId] is its [value_]. *)
Abbreviation t := Z (only parsing).

(** [ResourceId(type, data)] *)
Definition mk (type : ResourceType) (data : Z) : t :=
  Z.lor (u64 (Z.shiftl (type_value type) kTypeShift)) (Z.land data kDataMask).

(** [ResourceId{}] *)
Definition none : t := 0.

Definition GetType (id : t) : Z := Z.land (Z.shiftr id kTypeShift) 0xFF.
Definition GetData (id : t) : Z := Z.land id kDataMask.
Definition GetTypeName (id : t) : string := GetResourceTypeName (GetType id).
Definition to_bool (id : t) : bool := negb (GetType id =? type_value kNone).
Definition eqb (a b : t) : bool := a =? b.

(** [std::hash<ResourceId>]: the hash of the word, which libstdc++ defines as
    the word itself. *)
Definition hash (id : t) : Z := id.

Lemma type_value_inj t1 t2 : type_value t1 = type_value t2 -> t1 = t2.
Proof. by destruct t1, t2. Qed.

Lemma type_value_range ty : 0 <= type_value ty < 256.
Proof. destruct ty; simpl; lia. Qed.

Lemma land_data x : Z.land x kDataMask = x mod 2 ^ 56.
Proof. apply (Z.land_ones x 56). lia. Qed.

Lemma mk_eq ty d : mk ty d = type_value ty * 2 ^ 56 + d mod 2 ^ 56.
Proof.
  unfold mk, kTypeShift. pose proof (type_value_range ty).
  pose proof (Z.mod_pos_bound d (2 ^ 56)).
  rewrite land_data, Z.shiftl_mul_pow2, u64_small by lia.
  rewrite <- (Z.mod_small (d mod 2 ^ 56) (2 ^ 56)) by lia.
  rewrite <- Z.land_ones by lia. symmetry. rewrite Z.add_nocarry_lxor, Z.lxor_lor; try done;
    apply Z.bits_inj'; intros n Hn; rewrite Z.land_spec, Z.bits_0;
    (destruct (Z.ltb_spec n 56);
     [rewrite <- Z.shiftl_mul_pow2, Z.shiftl_spec_low by lia; done
     |rewrite Z.land_spec, Z.ones_spec_high by lia; rewrite !andb_false_r; done]).
Qed.

Lemma mk_type ty d : GetType (mk ty d) = type_value ty.
Proof.
  unfold GetType, kTypeShift. rewrite mk_eq, Z.shiftr_div_pow2 by lia.
  rewrite (Z.land_ones _ 8) by lia. pose proof (type_value_range ty).
  pose proof (Z.mod_pos_bound d (2 ^ 56)).
  rewrite Z.div_add_l, (Z.div_small (d mod _)), Z.add_0_r by lia. apply Z.mod_small. lia.
Qed.

Lemma mk_data ty d : GetData (mk ty d) = d mod 2 ^ 56.
Proof.
  unfold GetData. rewrite land_data, mk_eq, Z.add_comm, Z.mod_add by lia. apply Z.mod_mod. lia.
Qed.

Lemma mk_range ty d : 0 <= mk ty d < 2 ^ 64.
Proof.
  rewrite mk_eq. pose proof (type_value_range ty). pose proof (Z.mod_pos_bound d (2 ^ 56)). lia.
Qed.

(** a resource id is a faithful encoding.  The type and the low 56 bits of
    the data come back out of the word, the word fits in 64 bits, and two ids
    are equal exactly when their types agree and their data agree in 56 bits:
    waiters on different kinds of resources never share a wait queue, and
    pids or kernel addresses below 2^56 never collide. *)
Theorem resource_id_roundtrip (ty1 ty2 : ResourceType) (d1 d2 : Z) :
  GetType (mk ty1 d1) = type_value ty1 /\
  GetData (mk ty1 d1) = d1 mod 2 ^ 56 /\
  0 <= mk ty1 d1 < 2 ^ 64 /\
  to_bool (mk ty1 d1) = bool_decide (ty1 <> kNone) /\
  (eqb (mk ty1 d1) (mk ty2 d2) = true <-> ty1 = ty2 /\ d1 mod 2 ^ 56 = d2 mod 2 ^ 56).
Proof.
  split; [apply mk_type|]. split; [apply mk_data|]. split; [apply mk_range|]. split.
  - unfold to_bool. rewrite mk_type. by destruct ty1.
  - unfold eqb. rewrite Z.eqb_eq. split.
    + intros E. split.
      * apply type_value_inj. by rewrite <- (mk_type ty1 d1), E, mk_type.
      * by rewrite <- (mk_data ty1 d1), E, mk_data.
    + intros [-> E]. by rewrite !mk_eq, E.
Qed.

End ResourceId.
