(* ===== verification/SpinLock.v ===== *)
(** * Spin locks: src/src/include/spinlock.hpp

    Two views of the same code.  [Lock], [UnLock] and the guard are executable
    functions of the calling core, its interrupt flag and the lock: a lock that
    another core holds gives no result, since the caller spins.  The second
    half is the interleaving semantics: every atomic access of [Lock] and
    [UnLock] is one step of one core, and the theorems are about every
    reachable state of any number of cores. *)

From stdpp Require Import base numbers list gmap functions.
From Stdlib Require Import ZArith Lia.
From S2P Require Import Prelude Errors.

Local Open Scope Z_scope.

Module SpinLock.

(** ** The lock *)

Record SpinLock := MkSpinLock {
  locked_ : bool;
  core_id_ : Z;
  saved_intr_enable_ : bool
}.

(** [std::numeric_limits<size_t>::max()]: the lock has no owner. *)
Definition no_core : Z := UINT64_MAX.

Definition unlocked : SpinLock := MkSpinLock false no_core false.

Definition IsLockedByCurrentCore (core : Z) (l : SpinLock) : bool :=
  locked_ l && (core_id_ l =? core).

(** The lock, the interrupt flag of the calling core, the result; [None] when
    the call spins on a lock held by another core. *)
Definition Lock (core : Z) (intr : bool) (l : SpinLock)
  : option (SpinLock * bool * Expected unit) :=
  if locked_ l then
    if core_id_ l =? core then Some (l, intr, Unexpected kSpinLockRecursiveLock)
    else None
  else Some (MkSpinLock true core intr, false, Value tt).

Definition UnLock (core : Z) (intr : bool) (l : SpinLock) : SpinLock * bool * Expected unit :=
  if negb (IsLockedByCurrentCore core l) then (l, intr, Unexpected kSpinLockNotOwned)
  else (MkSpinLock false no_core (saved_intr_enable_ l),
        (if saved_intr_enable_ l then true else intr), Value tt).

(** ** Interleavings *)

(** Where a core is inside [Lock] or [UnLock].  [i] is the local [intr_enable]
    of the running [Lock] call; [held] says whether the core already holds the
    lock (a nested [Lock], or an [UnLock] by the holder): it is a ghost of the
    caller, no step tests it. *)
Inductive pc :=
| Outside                              (* not in the lock code, not holding *)
| Critical                             (* holding the lock *)
| AtTestAndSet (held i : bool)         (* before test_and_set *)
| AtCheckOwner (held i : bool)         (* test_and_set found the flag set *)
| AtSetOwner (i : bool)                (* won, before core_id_.store *)
| AtSaveIntr (i : bool)                (* before saved_intr_enable_ = intr_enable *)
| RecursiveError (held : bool)         (* Lock returns kSpinLockRecursiveLock *)
| AtTestFlag (held : bool)             (* UnLock, before locked_.test *)
| AtReadOwner (held : bool)            (* before core_id_.load *)
| AtResetOwner (held : bool)           (* before core_id_.store(max) *)
| AtClearFlag                          (* before locked_.clear *)
| AtRestoreIntr                        (* before the read of saved_intr_enable_ *)
| NotOwnedError (held : bool).         (* UnLock returns kSpinLockNotOwned *)

Record system := MkSystem {
  lock : SpinLock;
  pcs : Z -> pc;
  intr : Z -> bool
}.

Definition goto (s : system) (c : Z) (p : pc) : system :=
  MkSystem (lock s) (<[c := p]> (pcs s)) (intr s).
Definition set_intr (s : system) (c : Z) (b : bool) : system :=
  MkSystem (lock s) (pcs s) (<[c := b]> (intr s)).
Definition set_flag (s : system) (b : bool) : system :=
  MkSystem (MkSpinLock b (core_id_ (lock s)) (saved_intr_enable_ (lock s))) (pcs s) (intr s).
Definition set_owner (s : system) (c : Z) : system :=
  MkSystem (MkSpinLock (locked_ (lock s)) c (saved_intr_enable_ (lock s))) (pcs s) (intr s).
Definition set_saved (s : system) (b : bool) : system :=
  MkSystem (MkSpinLock (locked_ (lock s)) (core_id_ (lock s)) b) (pcs s) (intr s).

Definition initial (i : Z -> bool) : system := MkSystem unlocked (fun _ => Outside) i.

(** One step of core [c]: one atomic access of the shared lock. *)
Inductive step (c : Z) (s : system) : system -> Prop :=
| LockEnter : pcs s c = Outside ->
    step c s (goto (set_intr s c false) c (AtTestAndSet false (intr s c)))
| LockNested : pcs s c = Critical ->
    step c s (goto (set_intr s c false) c (AtTestAndSet true (intr s c)))
| TestAndSetWins h i : pcs s c = AtTestAndSet h i -> locked_ (lock s) = false ->
    step c s (goto (set_flag s true) c (AtSetOwner i))
| TestAndSetLoses h i : pcs s c = AtTestAndSet h i -> locked_ (lock s) = true ->
    step c s (goto s c (AtCheckOwner h i))
| CheckOwnerSpin h i : pcs s c = AtCheckOwner h i -> core_id_ (lock s) <> c ->
    step c s (goto s c (AtTestAndSet h i))
| CheckOwnerRecursive h i : pcs s c = AtCheckOwner h i -> core_id_ (lock s) = c ->
    step c s (goto (set_intr s c (i || intr s c)) c (RecursiveError h))
| RecursiveReturn : pcs s c = RecursiveError true -> step c s (goto s c Critical)
| SetOwner i : pcs s c = AtSetOwner i -> step c s (goto (set_owner s c) c (AtSaveIntr i))
| SaveIntr i : pcs s c = AtSaveIntr i -> step c s (goto (set_saved s i) c Critical)
| UnLockEnter : pcs s c = Critical -> step c s (goto s c (AtTestFlag true))
| UnLockStray : pcs s c = Outside -> step c s (goto s c (AtTestFlag false))
| TestFlagClear h : pcs s c = AtTestFlag h -> locked_ (lock s) = false ->
    step c s (goto s c (NotOwnedError h))
| TestFlagSet h : pcs s c = AtTestFlag h -> locked_ (lock s) = true ->
    step c s (goto s c (AtReadOwner h))
| ReadOwnerOther h : pcs s c = AtReadOwner h -> core_id_ (lock s) <> c ->
    step c s (goto s c (NotOwnedError h))
| ReadOwnerSelf h : pcs s c = AtReadOwner h -> core_id_ (lock s) = c ->
    step c s (goto s c (AtResetOwner h))
| NotOwnedReturn : pcs s c = NotOwnedError false -> step c s (goto s c Outside)
| ResetOwner h : pcs s c = AtResetOwner h -> step c s (goto (set_owner s no_core) c AtClearFlag)
| ClearFlag : pcs s c = AtClearFlag -> step c s (goto (set_flag s false) c AtRestoreIntr)
| RestoreIntr : pcs s c = AtRestoreIntr ->
    step c s (goto (set_intr s c (saved_intr_enable_ (lock s) || intr s c)) c Outside).

(** Core ids are array indices, so none is [SIZE_MAX]. *)
Inductive reachable (i : Z -> bool) : system -> Prop :=
| ReachInit : reachable i (initial i)
| ReachStep c s s' : reachable i s -> c <> no_core -> step c s s' -> reachable i s'.

(** The core owns the flag: between its [test_and_set] and its [clear]. *)
Definition owns (p : pc) : bool :=
  match p with
  | Critical | AtSetOwner _ | AtSaveIntr _ | AtResetOwner _ | AtClearFlag => true
  | AtTestAndSet h _ | AtCheckOwner h _ | RecursiveError h | AtTestFlag h | AtReadOwner h
  | NotOwnedError h => h
  | Outside | AtRestoreIntr => false
  end.

(** The owner's id is in [core_id_]. *)
Definition named (p : pc) : bool :=
  owns p && match p with AtSetOwner _ | AtClearFlag => false | _ => true end.

(** Outcomes the protocol excludes: a recursion error for a core that does
    not hold the lock, a not-owned error for the holder, and a release by a
    core that does not hold it. *)
Definition wrong (p : pc) : bool :=
  match p with
  | RecursiveError false | NotOwnedError true | AtResetOwner false => true
  | _ => false
  end.

(** Interrupts are off from the entry of [Lock] to the end of [UnLock]; a
    nested [Lock] saves that they were off. *)
Definition masked (p : pc) (b : bool) : Prop :=
  match p with
  | Outside | AtTestFlag false | AtReadOwner false | NotOwnedError false => True
  | RecursiveError false => True
  | AtTestAndSet true i | AtCheckOwner true i => b = false /\ i = false
  | _ => b = false
  end.

(** The invariant of the interleavings. *)
Record inv (s : system) : Prop := {
  inv_unique : forall c1 c2, owns (pcs s c1) = true -> owns (pcs s c2) = true -> c1 = c2;
  inv_flag : locked_ (lock s) = true -> exists c, owns (pcs s c) = true;
  inv_owned : forall c, owns (pcs s c) = true -> locked_ (lock s) = true;
  inv_id : core_id_ (lock s) <> no_core -> named (pcs s (core_id_ (lock s))) = true;
  inv_named : forall c, named (pcs s c) = true -> core_id_ (lock s) = c;
  inv_ok : forall c, wrong (pcs s c) = false;
  inv_masked : forall c, masked (pcs s c) (intr s c)
}.

Lemma named_owns p : named p = true -> owns p = true.
Proof. unfold named. by intros [? _]%andb_true_iff. Qed.

Lemma initial_inv i : inv (initial i).
Proof. by split. Qed.

(** The part of the invariant about cores that did not move. *)
Lemma inv_step s s' c p b :
  inv s -> c <> no_core -> pcs s' = <[c := p]> (pcs s) ->
  intr s' c = b -> (forall c', c' <> c -> intr s' c' = intr s c') ->
  wrong p = false -> masked p b ->
  (locked_ (lock s') = if owns p then true
                       else if owns (pcs s c) then false else locked_ (lock s)) ->
  (core_id_ (lock s') = if named p then c
                        else if named (pcs s c) then no_core else core_id_ (lock s)) ->
  (owns p = true -> owns (pcs s c) = false -> locked_ (lock s) = false) ->
  inv s'.
Proof.
  intros [U F O I N K M] Hc Ep Eb Eb' Hw Hm Hl Hid Hacq.
  assert (forall c', pcs s' c' = if decide (c' = c) then p else pcs s c') as P.
  { intros c'. rewrite Ep. case_decide as E; [subst; apply fn_lookup_insert|].
    by apply fn_lookup_insert_ne. }
  assert (forall c', c' <> c -> owns p = true -> owns (pcs s c') = false) as Hexcl.
  { intros c' Hne Hp. destruct (owns (pcs s c')) eqn:E; [|done]. exfalso.
    destruct (owns (pcs s c)) eqn:E'; [by apply Hne, U|].
    rewrite (O c' E) in Hacq. by specialize (Hacq Hp eq_refl). }
  assert (forall c', owns (pcs s' c') = true -> c' = c /\ owns p = true \/
     c' <> c /\ owns (pcs s c') = true /\ owns p = false) as Hown.
  { intros c'. rewrite P. case_decide; [by left|]. intros H'. right. split; [done|]. split; [done|].
    destruct (owns p) eqn:E; [|done]. by rewrite (Hexcl c') in H'. }
  split.
  - intros c1 c2 H1%Hown H2%Hown.
    destruct H1 as [[-> ?]|(?&?&?)], H2 as [[-> ?]|(?&?&?)]; try congruence. by apply U.
  - rewrite Hl. destruct (owns p) eqn:E; [intros _; exists c; by rewrite P, decide_True|].
    destruct (owns (pcs s c)) eqn:E'; [done|]. intros [c' Hc']%F. exists c'.
    rewrite P, decide_False; [done|]. intros ->. congruence.
  - intros c' H'%Hown. rewrite Hl. destruct H' as [[-> ->]|(Hne&H1&->)]; [done|].
    destruct (owns (pcs s c)) eqn:E; [|by eapply O]. exfalso. by apply Hne, U.
  - rewrite Hid. destruct (named p) eqn:E; [intros _; by rewrite P, decide_True|].
    destruct (named (pcs s c)) eqn:E'; [done|]. intros H'%I. rewrite P, decide_False; [done|].
    intros <-. congruence.
  - intros c' H'. destruct (Hown c' (named_owns _ H')) as [[-> _]|(Hne&H1&H2)];
      rewrite P in H'.
    + rewrite decide_True in H' by done. by rewrite Hid, H'.
    + rewrite decide_False in H' by done. rewrite Hid. destruct (named p) eqn:E.
      { apply named_owns in E. congruence. }
      destruct (named (pcs s c)) eqn:E'; [|by apply N].
      exfalso. apply Hne, U; by apply named_owns.
  - intros c'. rewrite P. by case_decide.
  - intros c'. rewrite P. case_decide as E; [subst c'; by rewrite Eb|]. by rewrite Eb'.
Qed.

Lemma step_inv c s s' : inv s -> c <> no_core -> step c s s' -> inv s'.
Proof.
  intros H Hc St.
  pose proof (inv_masked s H c) as Hm. pose proof (inv_ok s H c) as Hw.
  pose proof (inv_named s H c) as Hn. pose proof (inv_owned s H c) as Ho.
  assert (core_id_ (lock s) = c -> named (pcs s c) = true) as Hi.
  { intros E. pose proof (inv_id s H) as Hi. rewrite E in Hi. by apply Hi. }
  inversion St as [E|E|h i E L|h i E L|h i E L|h i E L|E|i E|i E|E|E|h E L|h E L|h E L|h E L|E|h E|E|E];
    subst s'; rewrite E in *;
    (eapply (inv_step s _ c); [done|done|reflexivity|reflexivity
      |intros c' Hne; simpl; rewrite ?fn_lookup_insert_ne by congruence; reflexivity|..]);
    cbn [goto set_intr set_flag set_owner set_saved lock locked_ core_id_ intr pcs];
    rewrite ?fn_lookup_insert, ?E; try (destruct h); try done; simpl in *;
    try (specialize (Hn eq_refl)); try (specialize (Ho eq_refl)); try congruence;
    try tauto; try intuition (congruence || done).
  all: first [by apply Hi in L | destruct Hm as [-> ->]; done | by apply Hi in L].
Qed.

Lemma reachable_inv i s : reachable i s -> inv s.
Proof. induction 1; [apply initial_inv|by eapply step_inv]. Qed.

(** C15: mutual exclusion of the spin lock under every interleaving of any
    number of cores.  In every reachable state at most one core is between its
    winning [test_and_set] and its [clear]; while a core holds the lock the
    flag is set, [core_id_] is that core and its interrupts are off; [Lock]
    never reports a recursive acquisition to a core that does not hold the
    lock, [UnLock] never refuses the holder, and a core that does not hold the
    lock never reaches the stores that release it. *)
Theorem spinlock_mutual_exclusion (i : Z -> bool) (s : system) :
  reachable i s ->
  (forall c1 c2, owns (pcs s c1) = true -> owns (pcs s c2) = true -> c1 = c2) /\
  (forall c, pcs s c = Critical ->
     locked_ (lock s) = true /\ core_id_ (lock s) = c /\ intr s c = false) /\
  (forall c, pcs s c <> RecursiveError false /\ pcs s c <> NotOwnedError true /\
     pcs s c <> AtResetOwner false).
Proof.
  intros [U F O I N K Mk]%reachable_inv. split; [done|]. split.
  - intros c Hc. split; [apply (O c); by rewrite Hc|]. split; [apply (N c); by rewrite Hc|].
    specialize (Mk c). by rewrite Hc in Mk.
  - intros c. specialize (K c). by repeat split; intros E; rewrite E in K.
Qed.

(** Extend a reachable state by a step of core [c], whose premises hold by
    computation. *)
Ltac fwd H c ctor :=
  let H' := fresh "R" in
  eassert (reachable _ _) as H'
    by (eapply (ReachStep _ c _ _ H); [done|eapply ctor; reflexivity]);
  clear H; rename H' into H.

Lemma spinlock_mutual_exclusion_witness :
  exists s, reachable (fun _ => true) s /\ pcs s 0 = Critical /\
    core_id_ (lock s) = 0 /\ intr s 0 = false.
Proof.
  pose proof (ReachInit (fun _ => true)) as H.
  fwd H 0 LockEnter. fwd H 0 TestAndSetWins.
  fwd H 0 SetOwner. fwd H 0 SaveIntr.
  eexists. split; [exact H|]. split; [reflexivity|].
  apply (spinlock_mutual_exclusion (fun _ => true) _ H). reflexivity.
Defined.

(** the window in [UnLock].  [saved_intr_enable_] is read after the flag
    is cleared, so a core that acquires the lock in between overwrites it: two
    cores, the first with interrupts disabled throughout, reach a state where
    the first has returned from its [UnLock] with interrupts enabled. *)
Theorem unlock_restores_foreign_interrupt_state :
  exists i s, reachable i s /\ i 0 = false /\ pcs s 0 = Outside /\ intr s 0 = true /\
    pcs s 1 = Critical.
Proof.
  pose proof (ReachInit (fun c => c =? 1)) as H.
  fwd H 0 LockEnter. fwd H 0 TestAndSetWins.
  fwd H 0 SetOwner. fwd H 0 SaveIntr.
  fwd H 0 UnLockEnter. fwd H 0 TestFlagSet.
  fwd H 0 ReadOwnerSelf. fwd H 0 ResetOwner.
  fwd H 0 ClearFlag.
  fwd H 1 LockEnter. fwd H 1 TestAndSetWins.
  fwd H 1 SetOwner. fwd H 1 SaveIntr.
  fwd H 0 RestoreIntr.
  exists (fun c => c =? 1). eexists. split; [exact H|]. repeat split; reflexivity.
Qed.

(** ** The functions against the steps *)

(** Steps of one core with the others at rest. *)
Inductive runs (c : Z) : system -> system -> Prop :=
| RunsRefl s : runs c s s
| RunsStep s1 s2 s3 : step c s1 s2 -> runs c s2 s3 -> runs c s1 s3.

(** What the caller observes of a system. *)
Definition view (c : Z) (s : system) : SpinLock * bool * pc := (lock s, intr s c, pcs s c).

Ltac solo := cbn; rewrite ?fn_lookup_insert; try done; eauto.

(** The core loops between [test_and_set] and the owner test. *)
Definition spinning (c : Z) (held i : bool) (l : SpinLock) (s : system) : Prop :=
  lock s = l /\ (pcs s c = AtTestAndSet held i \/ pcs s c = AtCheckOwner held i).

Lemma spinning_runs c held i l s s' :
  locked_ l = true -> core_id_ l <> c -> runs c s s' ->
  spinning c held i l s -> spinning c held i l s'.
Proof.
  intros L I R. induction R as [|s1 s2 s3 St R IH]; intros [<- Hp]; [by split|].
  apply IH; [done..|]. inversion St; subst s2; destruct Hp; try congruence;
    (split; [done|]); cbn; rewrite fn_lookup_insert; [right|left]; congruence.
Qed.

(** C34: the executable [Lock] and [UnLock] are the step semantics of a core
    that is not disturbed: whenever the function returns, the steps of the
    core lead to the same lock, interrupt flag and outcome; [Lock] returns
    nothing exactly when the lock is held by another core, and then the core,
    however many steps it takes alone, only spins and leaves the lock as it is. *)
Theorem lock_functions_agree_with_steps (c : Z) (s : system) (held : bool) :
  pcs s c = (if held then Critical else Outside) ->
  match Lock c (intr s c) (lock s) with
  | Some (l, i, r) => exists s', runs c s s' /\
      view c s' = (l, i, match r with inl _ => Critical | inr _ => RecursiveError held end)
  | None => exists s0, step c s s0 /\
      forall s', runs c s0 s' -> spinning c held (intr s c) (lock s) s'
  end /\
  (let '(l, i, r) := UnLock c (intr s c) (lock s) in
   exists s', runs c s s' /\
     view c s' = (l, i, match r with inl _ => Outside | inr _ => NotOwnedError held end)).
Proof.
  intros E. split.
  - assert (step c s (goto (set_intr s c false) c (AtTestAndSet held (intr s c)))) as S0.
    { destruct held; [by apply LockNested|by apply LockEnter]. }
    unfold Lock. destruct (locked_ (lock s)) eqn:L; [destruct (core_id_ (lock s) =? c) eqn:I|];
      bool_cases.
    + eexists. split.
      * eapply RunsStep; [apply S0|]. eapply RunsStep; [eapply TestAndSetLoses; solo|].
        eapply RunsStep; [eapply CheckOwnerRecursive; solo|apply RunsRefl].
      * unfold view; solo. by rewrite orb_false_r.
    + eexists. split; [apply S0|]. intros s' R. eapply spinning_runs; [exact L|exact I|exact R|].
      split; [done|]. left. solo.
    + eexists. split.
      * eapply RunsStep; [apply S0|]. eapply RunsStep; [eapply TestAndSetWins; solo|].
        eapply RunsStep; [eapply SetOwner; solo|].
        eapply RunsStep; [eapply SaveIntr; solo|apply RunsRefl].
      * unfold view; solo.
  - assert (step c s (goto s c (AtTestFlag held))) as S0.
    { destruct held; [by apply UnLockEnter|by apply UnLockStray]. }
    unfold UnLock, IsLockedByCurrentCore.
    destruct (locked_ (lock s)) eqn:L; [destruct (core_id_ (lock s) =? c) eqn:I|];
      bool_cases; cbn [negb andb].
    + eexists. split.
      * eapply RunsStep; [apply S0|]. eapply RunsStep; [eapply TestFlagSet; solo|].
        eapply RunsStep; [eapply ReadOwnerSelf; solo|].
        eapply RunsStep; [eapply ResetOwner; solo|]. eapply RunsStep; [eapply ClearFlag; solo|].
        eapply RunsStep; [eapply RestoreIntr; solo|apply RunsRefl].
      * unfold view; solo.
    + eexists. split.
      * eapply RunsStep; [apply S0|]. eapply RunsStep; [eapply TestFlagSet; solo|].
        eapply RunsStep; [eapply ReadOwnerOther; solo|apply RunsRefl].
      * unfold view; solo.
    + eexists. split.
      * eapply RunsStep; [apply S0|]. eapply RunsStep; [eapply TestFlagClear; solo|apply RunsRefl].
      * unfold view; solo.
Qed.

Lemma lock_functions_agree_with_steps_witness :
  exists s', runs 2 (initial (fun _ => true)) s' /\
    view 2 s' = (MkSpinLock true 2 true, false, Critical).
Proof.
  apply (lock_functions_agree_with_steps 2 (initial (fun _ => true)) false). reflexivity.
Defined.

(** ** Locking inside a larger state *)

(** [lock.Lock()] and [lock.UnLock()] on a lock and an interrupt flag of a
    bigger state, and the scope of a [LockGuard]. *)
Section embed.
Context {St : Type} (get : St -> SpinLock) (set : SpinLock -> St -> St).
Context (get_intr : St -> bool) (put_intr : bool -> St -> St) (core : Z).

Definition lock_m : M St (Expected unit) := fun s =>
  match Lock core (get_intr s) (get s) with
  | Some (l, i, r) => Ret (put_intr i (set l s)) r
  | None => Halt s SpinWait
  end.

Definition unlock_m : M St (Expected unit) := fun s =>
  let '(l, i, r) := UnLock core (get_intr s) (get s) in Ret (put_intr i (set l s)) r.

(** The guard spins when [Lock] fails; its destructor ignores the result. *)
Definition with_guard {A} (body : M St A) : M St A :=
  let* r := lock_m in
  if has_value r then
    let* a := body in
    let* _ := unlock_m in
    ret a
  else halt_with LockGuardSpin.

End embed.

End SpinLock.
