(* ===== verification/Tcb.v ===== *)
(** * Task control blocks: src/src/task/include/task_control_block.hpp and
      src/src/task/task_control_block.cpp

    The record with the field defaults of the class, the heap of control
    blocks (a pointer outside it is null, wild or freed: following it halts
    with [BadPointer]), the intrusive thread-group list and the constructor of
    kernel threads. *)

From stdpp Require Import base numbers list gmap strings.
From Stdlib Require Import ZArith Lia.
From S2P Require Import Prelude ResourceId.

Local Open Scope Z_scope.

Module Tcb.

(** ** Data *)

Definition kCloneVm : Z := 0x00000100.
Definition kCloneFs : Z := 0x00000200.
Definition kCloneFiles : Z := 0x00000400.
Definition kCloneSighand : Z := 0x00000800.
Definition kCloneParent : Z := 0x00008000.
Definition kCloneThread : Z := 0x00010000.

Inductive TaskStatus :=
| kUnInit | kReady | kRunning | kSleeping | kBlocked | kExited | kZombie.

#[export] Instance TaskStatus_eq_dec : EqDecision TaskStatus.
Proof. solve_decision. Defined.

(** The enumeration is open: [kPolicyCount] is a value of the type. *)
Inductive SchedPolicy := kRealTime | kNormal | kIdle | kPolicyCount.

#[export] Instance SchedPolicy_eq_dec : EqDecision SchedPolicy.
Proof. solve_decision. Defined.

Definition policy_index (p : SchedPolicy) : nat :=
  match p with kRealTime => 0 | kNormal => 1 | kIdle => 2 | kPolicyCount => 3 end.

(** [kDefaultKernelStackSize] *)
Definition kDefaultKernelStackSize : Z := 16 * 1024.

(** [cpu_io::CalleeSavedContext] of riscv64: [ra], [sp], [s0], [s1] and the
    remaining callee-saved registers in order ([s2]..[s11], [fs0]..[fs11]). *)
Record Context := MkContext {
  ra : Z;
  sp : Z;
  s0 : Z;
  s1 : Z;
  saved_rest : list Z
}.

(** [TaskControlBlock::SchedInfo] *)
Record SchedInfo := MkSchedInfo {
  priority : Z;
  base_priority : Z;
  inherited_priority : Z;
  wake_tick : Z;
  time_slice_remaining : Z;
  time_slice_default : Z;
  total_runtime : Z;
  context_switches : Z
}.

(** [TaskControlBlock]; [sched_data] is the union's [cfs] member, the only one
    that the code reads or writes. *)
Record TCB := MkTCB {
  name : string;
  pid : Z;
  parent_pid : Z;
  pgid : Z;
  sid : Z;
  tgid : Z;
  thread_group_next : ptr;
  thread_group_prev : ptr;
  status : TaskStatus;
  policy : SchedPolicy;
  exit_code : Z;
  clone_flags : Z;
  sched_info : SchedInfo;
  vruntime : Z;
  weight : Z;
  kernel_stack : ptr;
  trap_context_ptr : ptr;
  task_context : Context;
  page_table : ptr;
  cpu_affinity : Z;
  blocked_on : ResourceId.t;
  is_interrupt_thread : bool;
  interrupt_number : Z
}.

Definition set_priority (v : Z) (i : SchedInfo) : SchedInfo :=
  MkSchedInfo v (base_priority i) (inherited_priority i) (wake_tick i) (time_slice_remaining i) (time_slice_default i) (total_runtime i) (context_switches i).
Definition set_base_priority (v : Z) (i : SchedInfo) : SchedInfo :=
  MkSchedInfo (priority i) v (inherited_priority i) (wake_tick i) (time_slice_remaining i) (time_slice_default i) (total_runtime i) (context_switches i).
Definition set_inherited_priority (v : Z) (i : SchedInfo) : SchedInfo :=
  MkSchedInfo (priority i) (base_priority i) v (wake_tick i) (time_slice_remaining i) (time_slice_default i) (total_runtime i) (context_switches i).
Definition set_wake_tick (v : Z) (i : SchedInfo) : SchedInfo :=
  MkSchedInfo (priority i) (base_priority i) (inherited_priority i) v (time_slice_remaining i) (time_slice_default i) (total_runtime i) (context_switches i).
Definition set_time_slice_remaining (v : Z) (i : SchedInfo) : SchedInfo :=
  MkSchedInfo (priority i) (base_priority i) (inherited_priority i) (wake_tick i) v (time_slice_default i) (total_runtime i) (context_switches i).
Definition set_time_slice_default (v : Z) (i : SchedInfo) : SchedInfo :=
  MkSchedInfo (priority i) (base_priority i) (inherited_priority i) (wake_tick i) (time_slice_remaining i) v (total_runtime i) (context_switches i).
Definition set_total_runtime (v : Z) (i : SchedInfo) : SchedInfo :=
  MkSchedInfo (priority i) (base_priority i) (inherited_priority i) (wake_tick i) (time_slice_remaining i) (time_slice_default i) v (context_switches i).
Definition set_context_switches (v : Z) (i : SchedInfo) : SchedInfo :=
  MkSchedInfo (priority i) (base_priority i) (inherited_priority i) (wake_tick i) (time_slice_remaining i) (time_slice_default i) (total_runtime i) v.

Definition set_name (v : string) (t : TCB) : TCB :=
  MkTCB v (pid t) (parent_pid t) (pgid t) (sid t) (tgid t) (thread_group_next t) (thread_group_prev t) (status t) (policy t) (exit_code t) (clone_flags t) (sched_info t) (vruntime t) (weight t) (kernel_stack t) (trap_context_ptr t) (task_context t) (page_table t) (cpu_affinity t) (blocked_on t) (is_interrupt_thread t) (interrupt_number t).
Definition set_pid (v : Z) (t : TCB) : TCB :=
  MkTCB (name t) v (parent_pid t) (pgid t) (sid t) (tgid t) (thread_group_next t) (thread_group_prev t) (status t) (policy t) (exit_code t) (clone_flags t) (sched_info t) (vruntime t) (weight t) (kernel_stack t) (trap_context_ptr t) (task_context t) (page_table t) (cpu_affinity t) (blocked_on t) (is_interrupt_thread t) (interrupt_number t).
Definition set_parent_pid (v : Z) (t : TCB) : TCB :=
  MkTCB (name t) (pid t) v (pgid t) (sid t) (tgid t) (thread_group_next t) (thread_group_prev t) (status t) (policy t) (exit_code t) (clone_flags t) (sched_info t) (vruntime t) (weight t) (kernel_stack t) (trap_context_ptr t) (task_context t) (page_table t) (cpu_affinity t) (blocked_on t) (is_interrupt_thread t) (interrupt_number t).
Definition set_pgid (v : Z) (t : TCB) : TCB :=
  MkTCB (name t) (pid t) (parent_pid t) v (sid t) (tgid t) (thread_group_next t) (thread_group_prev t) (status t) (policy t) (exit_code t) (clone_flags t) (sched_info t) (vruntime t) (weight t) (kernel_stack t) (trap_context_ptr t) (task_context t) (page_table t) (cpu_affinity t) (blocked_on t) (is_interrupt_thread t) (interrupt_number t).
Definition set_sid (v : Z) (t : TCB) : TCB :=
  MkTCB (name t) (pid t) (parent_pid t) (pgid t) v (tgid t) (thread_group_next t) (thread_group_prev t) (status t) (policy t) (exit_code t) (clone_flags t) (sched_info t) (vruntime t) (weight t) (kernel_stack t) (trap_context_ptr t) (task_context t) (page_table t) (cpu_affinity t) (blocked_on t) (is_interrupt_thread t) (interrupt_number t).
Definition set_tgid (v : Z) (t : TCB) : TCB :=
  MkTCB (name t) (pid t) (parent_pid t) (pgid t) (sid t) v (thread_group_next t) (thread_group_prev t) (status t) (policy t) (exit_code t) (clone_flags t) (sched_info t) (vruntime t) (weight t) (kernel_stack t) (trap_context_ptr t) (task_context t) (page_table t) (cpu_affinity t) (blocked_on t) (is_interrupt_thread t) (interrupt_number t).
Definition set_thread_group_next (v : ptr) (t : TCB) : TCB :=
  MkTCB (name t) (pid t) (parent_pid t) (pgid t) (sid t) (tgid t) v (thread_group_prev t) (status t) (policy t) (exit_code t) (clone_flags t) (sched_info t) (vruntime t) (weight t) (kernel_stack t) (trap_context_ptr t) (task_context t) (page_table t) (cpu_affinity t) (blocked_on t) (is_interrupt_thread t) (interrupt_number t).
Definition set_thread_group_prev (v : ptr) (t : TCB) : TCB :=
  MkTCB (name t) (pid t) (parent_pid t) (pgid t) (sid t) (tgid t) (thread_group_next t) v (status t) (policy t) (exit_code t) (clone_flags t) (sched_info t) (vruntime t) (weight t) (kernel_stack t) (trap_context_ptr t) (task_context t) (page_table t) (cpu_affinity t) (blocked_on t) (is_interrupt_thread t) (interrupt_number t).
Definition set_status (v : TaskStatus) (t : TCB) : TCB :=
  MkTCB (name t) (pid t) (parent_pid t) (pgid t) (sid t) (tgid t) (thread_group_next t) (thread_group_prev t) v (policy t) (exit_code t) (clone_flags t) (sched_info t) (vruntime t) (weight t) (kernel_stack t) (trap_context_ptr t) (task_context t) (page_table t) (cpu_affinity t) (blocked_on t) (is_interrupt_thread t) (interrupt_number t).
Definition set_policy (v : SchedPolicy) (t : TCB) : TCB :=
  MkTCB (name t) (pid t) (parent_pid t) (pgid t) (sid t) (tgid t) (thread_group_next t) (thread_group_prev t) (status t) v (exit_code t) (clone_flags t) (sched_info t) (vruntime t) (weight t) (kernel_stack t) (trap_context_ptr t) (task_context t) (page_table t) (cpu_affinity t) (blocked_on t) (is_interrupt_thread t) (interrupt_number t).
Definition set_exit_code (v : Z) (t : TCB) : TCB :=
  MkTCB (name t) (pid t) (parent_pid t) (pgid t) (sid t) (tgid t) (thread_group_next t) (thread_group_prev t) (status t) (policy t) v (clone_flags t) (sched_info t) (vruntime t) (weight t) (kernel_stack t) (trap_context_ptr t) (task_context t) (page_table t) (cpu_affinity t) (blocked_on t) (is_interrupt_thread t) (interrupt_number t).
Definition set_clone_flags (v : Z) (t : TCB) : TCB :=
  MkTCB (name t) (pid t) (parent_pid t) (pgid t) (sid t) (tgid t) (thread_group_next t) (thread_group_prev t) (status t) (policy t) (exit_code t) v (sched_info t) (vruntime t) (weight t) (kernel_stack t) (trap_context_ptr t) (task_context t) (page_table t) (cpu_affinity t) (blocked_on t) (is_interrupt_thread t) (interrupt_number t).
Definition set_sched_info (v : SchedInfo) (t : TCB) : TCB :=
  MkTCB (name t) (pid t) (parent_pid t) (pgid t) (sid t) (tgid t) (thread_group_next t) (thread_group_prev t) (status t) (policy t) (exit_code t) (clone_flags t) v (vruntime t) (weight t) (kernel_stack t) (trap_context_ptr t) (task_context t) (page_table t) (cpu_affinity t) (blocked_on t) (is_interrupt_thread t) (interrupt_number t).
Definition set_vruntime (v : Z) (t : TCB) : TCB :=
  MkTCB (name t) (pid t) (parent_pid t) (pgid t) (sid t) (tgid t) (thread_group_next t) (thread_group_prev t) (status t) (policy t) (exit_code t) (clone_flags t) (sched_info t) v (weight t) (kernel_stack t) (trap_context_ptr t) (task_context t) (page_table t) (cpu_affinity t) (blocked_on t) (is_interrupt_thread t) (interrupt_number t).
Definition set_weight (v : Z) (t : TCB) : TCB :=
  MkTCB (name t) (pid t) (parent_pid t) (pgid t) (sid t) (tgid t) (thread_group_next t) (thread_group_prev t) (status t) (policy t) (exit_code t) (clone_flags t) (sched_info t) (vruntime t) v (kernel_stack t) (trap_context_ptr t) (task_context t) (page_table t) (cpu_affinity t) (blocked_on t) (is_interrupt_thread t) (interrupt_number t).
Definition set_kernel_stack (v : ptr) (t : TCB) : TCB :=
  MkTCB (name t) (pid t) (parent_pid t) (pgid t) (sid t) (tgid t) (thread_group_next t) (thread_group_prev t) (status t) (policy t) (exit_code t) (clone_flags t) (sched_info t) (vruntime t) (weight t) v (trap_context_ptr t) (task_context t) (page_table t) (cpu_affinity t) (blocked_on t) (is_interrupt_thread t) (interrupt_number t).
Definition set_trap_context_ptr (v : ptr) (t : TCB) : TCB :=
  MkTCB (name t) (pid t) (parent_pid t) (pgid t) (sid t) (tgid t) (thread_group_next t) (thread_group_prev t) (status t) (policy t) (exit_code t) (clone_flags t) (sched_info t) (vruntime t) (weight t) (kernel_stack t) v (task_context t) (page_table t) (cpu_affinity t) (blocked_on t) (is_interrupt_thread t) (interrupt_number t).
Definition set_task_context (v : Context) (t : TCB) : TCB :=
  MkTCB (name t) (pid t) (parent_pid t) (pgid t) (sid t) (tgid t) (thread_group_next t) (thread_group_prev t) (status t) (policy t) (exit_code t) (clone_flags t) (sched_info t) (vruntime t) (weight t) (kernel_stack t) (trap_context_ptr t) v (page_table t) (cpu_affinity t) (blocked_on t) (is_interrupt_thread t) (interrupt_number t).
Definition set_page_table (v : ptr) (t : TCB) : TCB :=
  MkTCB (name t) (pid t) (parent_pid t) (pgid t) (sid t) (tgid t) (thread_group_next t) (thread_group_prev t) (status t) (policy t) (exit_code t) (clone_flags t) (sched_info t) (vruntime t) (weight t) (kernel_stack t) (trap_context_ptr t) (task_context t) v (cpu_affinity t) (blocked_on t) (is_interrupt_thread t) (interrupt_number t).
Definition set_cpu_affinity (v : Z) (t : TCB) : TCB :=
  MkTCB (name t) (pid t) (parent_pid t) (pgid t) (sid t) (tgid t) (thread_group_next t) (thread_group_prev t) (status t) (policy t) (exit_code t) (clone_flags t) (sched_info t) (vruntime t) (weight t) (kernel_stack t) (trap_context_ptr t) (task_context t) (page_table t) v (blocked_on t) (is_interrupt_thread t) (interrupt_number t).
Definition set_blocked_on (v : ResourceId.t) (t : TCB) : TCB :=
  MkTCB (name t) (pid t) (parent_pid t) (pgid t) (sid t) (tgid t) (thread_group_next t) (thread_group_prev t) (status t) (policy t) (exit_code t) (clone_flags t) (sched_info t) (vruntime t) (weight t) (kernel_stack t) (trap_context_ptr t) (task_context t) (page_table t) (cpu_affinity t) v (is_interrupt_thread t) (interrupt_number t).
Definition set_is_interrupt_thread (v : bool) (t : TCB) : TCB :=
  MkTCB (name t) (pid t) (parent_pid t) (pgid t) (sid t) (tgid t) (thread_group_next t) (thread_group_prev t) (status t) (policy t) (exit_code t) (clone_flags t) (sched_info t) (vruntime t) (weight t) (kernel_stack t) (trap_context_ptr t) (task_context t) (page_table t) (cpu_affinity t) (blocked_on t) v (interrupt_number t).
Definition set_interrupt_number (v : Z) (t : TCB) : TCB :=
  MkTCB (name t) (pid t) (parent_pid t) (pgid t) (sid t) (tgid t) (thread_group_next t) (thread_group_prev t) (status t) (policy t) (exit_code t) (clone_flags t) (sched_info t) (vruntime t) (weight t) (kernel_stack t) (trap_context_ptr t) (task_context t) (page_table t) (cpu_affinity t) (blocked_on t) (is_interrupt_thread t) v.

Definition on_priority (v : Z) (t : TCB) : TCB := set_sched_info (set_priority v (sched_info t)) t.
Definition on_base_priority (v : Z) (t : TCB) : TCB := set_sched_info (set_base_priority v (sched_info t)) t.
Definition on_inherited_priority (v : Z) (t : TCB) : TCB := set_sched_info (set_inherited_priority v (sched_info t)) t.
Definition on_wake_tick (v : Z) (t : TCB) : TCB := set_sched_info (set_wake_tick v (sched_info t)) t.
Definition on_time_slice_remaining (v : Z) (t : TCB) : TCB := set_sched_info (set_time_slice_remaining v (sched_info t)) t.
Definition on_time_slice_default (v : Z) (t : TCB) : TCB := set_sched_info (set_time_slice_default v (sched_info t)) t.
Definition on_total_runtime (v : Z) (t : TCB) : TCB := set_sched_info (set_total_runtime v (sched_info t)) t.
Definition on_context_switches (v : Z) (t : TCB) : TCB := set_sched_info (set_context_switches v (sched_info t)) t.

Definition zero_context : Context := MkContext 0 0 0 0 (replicate 22 0).

(** [TaskControlBlock() = default] *)
Definition default_sched_info : SchedInfo := MkSchedInfo 10 10 0 0 10 10 0 0.
Definition default_tcb : TCB :=
  MkTCB "Unnamed Task" 0 0 0 0 0 nullptr nullptr kUnInit kNormal 0 0 default_sched_info 0 0
    nullptr nullptr zero_context nullptr UINT64_MAX ResourceId.none false 0.

(** ** The heap of control blocks *)

Abbreviation heap := (gmap Z TCB) (only parsing).

(** [p->...]: reading or updating a block through a pointer. *)
Definition tcb (p : ptr) : M heap TCB := fun h =>
  match h !! p with Some t => Ret h t | None => Halt h (BadPointer p) end.

Definition upd (p : ptr) (f : TCB -> TCB) : M heap unit := fun h =>
  match h !! p with Some t => Ret (<[p := f t]> h) tt | None => Halt h (BadPointer p) end.

(** [delete p] ends the life of the block. *)
Definition free_tcb (p : ptr) : M heap unit := fun h =>
  match h !! p with Some _ => Ret (delete p h) tt | None => Halt h (BadPointer p) end.

(** [new TaskControlBlock(...)]: an address that is not in use and not null. *)
Definition new_tcb (t : TCB) : M heap ptr := fun h =>
  let p := fresh ({[nullptr]} ∪ dom h) in Ret (<[p := t]> h) p.

Arguments tcb p h /.
Arguments upd p f h /.

(** [InitTaskContext] (src/src/arch/riscv64/arch_main.cpp): the address of
    [kernel_thread_entry] is the link-time constant [entry_addr]. *)
Definition InitTaskContext (entry_addr entry arg stack_top : Z) : Context :=
  MkContext entry_addr stack_top entry arg (replicate 22 0).

(** The constructor of kernel threads; [alloc] is the result of
    [aligned_alloc] and [trap_size] is [sizeof(TrapContext)]. *)
Definition new_kernel_thread (entry_addr trap_size : Z) (alloc : ptr)
    (nm : string) (prio entry arg : Z) : TCB :=
  let t := set_name nm (on_base_priority prio (on_priority prio default_tcb)) in
  if alloc =? nullptr then set_status kExited t
  else
    set_task_context (InitTaskContext entry_addr entry arg (u64 (alloc + kDefaultKernelStackSize)))
      (set_trap_context_ptr (u64 (alloc + kDefaultKernelStackSize - trap_size))
        (set_kernel_stack alloc t)).

(** ** Thread groups *)

Definition IsThreadGroupLeader (t : TCB) : bool := pid t =? tgid t.

Definition InSameThreadGroup (t : TCB) (other : option TCB) : bool :=
  match other with
  | None => false
  | Some o => (tgid t =? tgid o) && negb (tgid t =? 0)
  end.

(** [this->JoinThreadGroup(leader)]: insertion behind the leader. *)
Definition JoinThreadGroup (this leader : ptr) : M heap unit :=
  if (leader =? nullptr) || (leader =? this) then ret tt
  else
    let* l := tcb leader in
    let* _ := upd this (set_tgid (tgid l)) in
    let* l := tcb leader in
    let* _ := (if thread_group_next l =? nullptr then ret tt
               else
                 let* _ := upd this (set_thread_group_next (thread_group_next l)) in
                 upd (thread_group_next l) (set_thread_group_prev this)) in
    let* _ := upd leader (set_thread_group_next this) in
    upd this (set_thread_group_prev leader).

Definition LeaveThreadGroup (this : ptr) : M heap unit :=
  let* t := tcb this in
  let* _ := (if thread_group_prev t =? nullptr then ret tt
             else upd (thread_group_prev t) (set_thread_group_next (thread_group_next t))) in
  let* t := tcb this in
  let* _ := (if thread_group_next t =? nullptr then ret tt
             else upd (thread_group_next t) (set_thread_group_prev (thread_group_prev t))) in
  let* _ := upd this (set_thread_group_prev nullptr) in
  upd this (set_thread_group_next nullptr).

(** [while (curr) { count++; curr = curr->next; }]; a cyclic list diverges. *)
Fixpoint count_links (fuel : nat) (link : TCB -> ptr) (curr : ptr) (count : Z) : M heap Z :=
  if curr =? nullptr then ret count
  else
    match fuel with
    | O => halt_with Diverges
    | S f => let* t := tcb curr in count_links f link (link t) (u64 (count + 1))
    end.

Definition GetThreadGroupSize (this : ptr) : M heap Z := fun h =>
  (let* t := tcb this in
   if tgid t =? 0 then ret 1
   else
     let* n := count_links (size h) thread_group_prev (thread_group_prev t) 1 in
     count_links (size h) thread_group_next (thread_group_next t) n) h.

(** ** The shape of a thread group

    [group h ps]: the blocks [ps] form a null-terminated doubly linked list,
    in this order; [seg] is a part of one, with its two neighbours. *)

Definition hd (after : ptr) (ps : list ptr) : ptr := default after (head ps).
Definition lst (before : ptr) (ps : list ptr) : ptr := default before (last ps).

(** The links of one block. *)
Definition links (h : heap) (p before after : ptr) : Prop :=
  p <> nullptr /\
  exists t, h !! p = Some t /\ thread_group_prev t = before /\ thread_group_next t = after.

Fixpoint seg (h : heap) (before : ptr) (ps : list ptr) (after : ptr) : Prop :=
  match ps with
  | [] => True
  | p :: ps' => links h p before (hd after ps') /\ seg h p ps' after
  end.

Definition group (h : heap) (ps : list ptr) : Prop := NoDup ps /\ seg h nullptr ps nullptr.

Ltac hsimp :=
  repeat first [rewrite lookup_insert_eq | rewrite lookup_insert_ne by congruence
               |match goal with H : ?h !! ?p = Some _ |- context [?h !! ?p] => rewrite H end
               |progress cbn [bind tcb upd ret hd lst head last default from_option id]].

Lemma seg_app h b ps1 ps2 a :
  seg h b (ps1 ++ ps2) a <-> seg h b ps1 (hd a ps2) /\ seg h (lst b ps1) ps2 a.
Proof.
  revert b. induction ps1 as [|p ps1 IH]; intros b; simpl; [tauto|]. rewrite IH.
  replace (hd a (ps1 ++ ps2)) with (hd (hd a ps2) ps1) by (by destruct ps1).
  replace (lst b (p :: ps1)) with (lst p ps1); [tauto|].
  unfold lst. destruct (last_cons_default p ps1) as [y Hy]. rewrite Hy. simpl.
  destruct ps1; [by injection Hy as ->|]. change (last (p :: z :: ps1)) with (last (z :: ps1)) in Hy.
  by rewrite Hy.
Qed.

Lemma links_frame h h' p b a : h' !! p = h !! p -> links h p b a -> links h' p b a.
Proof. unfold links. by intros ->. Qed.

Lemma seg_frame h h' b ps a :
  (forall p, p ∈ ps -> h' !! p = h !! p) -> seg h b ps a -> seg h' b ps a.
Proof.
  revert b. induction ps as [|p ps IH]; intros b Hf; simpl; [done|]. intros [H1 H2]. split.
  - eapply links_frame; [|exact H1]. apply Hf. by left.
  - apply IH; [|done]. intros q Hq. apply Hf. by right.
Qed.

(** The end of a part knows its new neighbour after an update of that link. *)
Lemma seg_set_last h b ps q a a' t :
  NoDup (ps ++ [q]) -> seg h b (ps ++ [q]) a -> h !! q = Some t ->
  seg (<[q := set_thread_group_next a' t]> h) b (ps ++ [q]) a'.
Proof.
  intros Hn [H1 [[Hq (t' & Ht & Hp & _)] _]]%seg_app Et. apply NoDup_app in Hn as (_ & Hd & _).
  apply seg_app. split.
  - eapply seg_frame; [|exact H1]. intros p Hp'. apply lookup_insert_ne. intros ->.
    apply (Hd p Hp'). by left.
  - split; [|done]. split; [done|]. exists (set_thread_group_next a' t).
    rewrite lookup_insert_eq. simpl. split; [done|]. split; [|done]. congruence.
Qed.

Lemma seg_set_first h b b' q ps a t :
  NoDup (q :: ps) -> seg h b (q :: ps) a -> h !! q = Some t ->
  seg (<[q := set_thread_group_prev b' t]> h) b' (q :: ps) a.
Proof.
  intros [Hq Hn]%NoDup_cons [[Hne (t' & Ht & _ & Ha)] H2] Et. split.
  - split; [done|]. exists (set_thread_group_prev b' t). rewrite lookup_insert_eq. simpl.
    split; [done|]. split; [done|]. congruence.
  - eapply seg_frame; [|exact H2]. intros p Hp. apply lookup_insert_ne. by intros ->.
Qed.

Lemma seg_null h b ps a p : seg h b ps a -> p ∈ ps -> p <> nullptr /\ is_Some (h !! p).
Proof.
  revert b. induction ps as [|q ps IH]; intros b Hs Hin; [by apply elem_of_nil in Hin|].
  destruct Hs as [[Hq (t & Ht & _)] H2].
  apply elem_of_cons in Hin as [->|Hin]; [by eauto|]. by eapply IH.
Qed.

Lemma join_spec h this leader ps1 ps2 tl tt0 :
  group h (ps1 ++ leader :: ps2) -> this ∉ ps1 ++ leader :: ps2 -> this <> nullptr ->
  h !! leader = Some tl -> h !! this = Some tt0 -> thread_group_next tt0 = nullptr ->
  exists h', JoinThreadGroup this leader h = Ret h' tt /\
    group h' (ps1 ++ leader :: this :: ps2) /\
    (exists t', h' !! this = Some t' /\ tgid t' = tgid tl) /\
    (forall p, p ∉ this :: leader :: take 1 ps2 -> h' !! p = h !! p).
Proof.
  intros [Hnd Hs] Hthis Hnz El Et Hnx.
  apply seg_app in Hs as [S1 [[Hlz (tl' & El' & Hlp & Hln)] S2]].
  rewrite El in El'. injection El' as <-.
  apply NoDup_app in Hnd as (N1 & Nd & N2). apply NoDup_cons in N2 as [Nl N2].
  assert (leader <> this) as Hne by elem_ne. assert (forall p, p ∈ ps1 -> p <> leader) as Hp1.
  { intros p Hp ->. apply (Nd leader Hp). by left. }
  unfold JoinThreadGroup. rewrite (proj2 (Z.eqb_neq leader nullptr)) by done.
  rewrite (proj2 (Z.eqb_neq leader this)) by done. cbn [orb]. hsimp. rewrite Hln. destruct ps2 as [|n ps3].
  - hsimp. rewrite Z.eqb_refl. hsimp. eexists. split; [reflexivity|]. split; [|split].
    + split.
      { apply NoDup_app. split; [done|]. split; [|apply NoDup_cons; split; [|apply NoDup_singleton]; elem_tauto].
        intros p Hp. specialize (Nd p Hp). elem_tauto. }
      apply seg_app. split.
      { eapply seg_frame; [|exact S1]. intros p Hp. rewrite !lookup_insert_ne; try done; try elem_ne.
        by apply not_eq_sym, Hp1. }
      split; [|split; [|done]]; (split; [done|]); hsimp; eexists; (split; [reflexivity|]); auto.
    + eexists. hsimp. split; [reflexivity|]. done.
    + intros p Hp. simpl in Hp. rewrite !lookup_insert_ne; [done|elem_ne..].
  - destruct S2 as [[Hn0 (tn & En & Hnp & Hnn)] S3]. apply NoDup_cons in N2 as [Nn N3].
    assert (n <> this) by elem_ne. assert (n <> leader) by elem_ne.
    assert (forall p, p ∈ ps1 -> p <> n) as Hp2.
    { intros p Hp ->. apply (Nd n Hp). elem_tauto. }
    hsimp. rewrite (proj2 (Z.eqb_neq n nullptr)) by done. hsimp.
    eexists. split; [reflexivity|]. split; [|split].
    + split.
      { apply NoDup_app. split; [done|]. rewrite !NoDup_cons. split; [|split_and!; elem_tauto].
        intros p Hp. specialize (Nd p Hp). elem_tauto. }
      apply seg_app. split.
      { eapply seg_frame; [|exact S1]. intros p Hp. specialize (Hp1 p Hp). specialize (Hp2 p Hp).
        rewrite !lookup_insert_ne; try done; elem_ne. }
      split; [|split; [|split]].
      * split; [done|]. hsimp. eexists. split; [reflexivity|]. auto.
      * split; [done|]. hsimp. eexists. split; [reflexivity|]. auto.
      * split; [done|]. hsimp. eexists. split; [reflexivity|]. auto.
      * eapply seg_frame; [|exact S3]. intros p Hp. rewrite !lookup_insert_ne; try done; elem_ne.
    + eexists. hsimp. split; [reflexivity|]. done.
    + intros p Hp. simpl in Hp. rewrite !lookup_insert_ne; [done|elem_ne..].
Qed.

(** Unlinking from the left: the part before learns its new right neighbour. *)
Lemma unlink_left h ps a a' :
  NoDup ps -> seg h nullptr ps a ->
  exists h', (if lst nullptr ps =? nullptr then ret tt
              else upd (lst nullptr ps) (set_thread_group_next a')) h = Ret h' tt /\
    seg h' nullptr ps a' /\ (forall p, p ∉ ps -> h' !! p = h !! p).
Proof.
  intros Hn Hs. destruct ps as [|q ps _] using rev_ind; [by exists h|].
  destruct (seg_null _ _ _ _ q Hs) as [Hq [t Ht]]; [elem_tauto|].
  unfold lst. rewrite last_snoc. cbn [default from_option id].
  rewrite (proj2 (Z.eqb_neq q nullptr)) by done. hsimp. eexists. split; [reflexivity|]. split.
  - by eapply seg_set_last.
  - intros p Hp. apply lookup_insert_ne. elem_ne.
Qed.

Lemma unlink_right h b b' ps :
  NoDup ps -> seg h b ps nullptr ->
  exists h', (if hd nullptr ps =? nullptr then ret tt
              else upd (hd nullptr ps) (set_thread_group_prev b')) h = Ret h' tt /\
    seg h' b' ps nullptr /\ (forall p, p ∉ ps -> h' !! p = h !! p).
Proof.
  intros Hn Hs. destruct ps as [|q ps]; [by exists h|].
  destruct (seg_null _ _ _ _ q Hs) as [Hq [t Ht]]; [by left|]. hsimp.
  rewrite (proj2 (Z.eqb_neq q nullptr)) by done. hsimp. eexists. split; [reflexivity|]. split.
  - by eapply seg_set_first.
  - intros p Hp. apply lookup_insert_ne. elem_ne.
Qed.

Lemma leave_spec h this ps1 ps2 :
  group h (ps1 ++ this :: ps2) ->
  exists h' t t', LeaveThreadGroup this h = Ret h' tt /\ group h' (ps1 ++ ps2) /\
    h !! this = Some t /\ h' !! this = Some t' /\
    t' = set_thread_group_next nullptr (set_thread_group_prev nullptr t) /\
    (forall p, p ∉ ps1 ++ this :: ps2 -> h' !! p = h !! p).
Proof.
  intros [Hnd Hs]. apply seg_app in Hs as [S1 [[Hz (t & Et & Hp & Hx)] S2]]. cbn [hd head default] in S1.
  pose proof Hnd as Hnd0. rewrite <- Permutation_middle in Hnd0. apply NoDup_cons in Hnd0 as [Ht Hnd0].
  apply NoDup_app in Hnd0 as (N1 & Nd & N2).
  destruct (unlink_left h ps1 _ (hd nullptr ps2) N1 S1) as (h1 & E1 & S1' & F1).
  assert (h1 !! this = Some t) as Et1 by (rewrite F1; [done|elem_tauto]).
  assert (seg h1 this ps2 nullptr) as S2'.
  { eapply seg_frame; [|exact S2]. intros p Hp2. apply F1. intros Hp1. by apply (Nd p). }
  destruct (unlink_right h1 this (lst nullptr ps1) ps2 N2 S2') as (h2 & E2 & S2'' & F2).
  assert (h2 !! this = Some t) as Et2 by (rewrite F2; [done|elem_tauto]).
  unfold LeaveThreadGroup. hsimp. rewrite Hp, Hx, E1. hsimp. rewrite Hp, Hx, E2. hsimp.
  eexists _, t, _. split; [reflexivity|]. hsimp. split; [|split_and!; try done].
  - split; [by apply NoDup_app|]. rewrite insert_insert_eq. apply seg_app. split.
    + eapply (seg_frame h1); [|exact S1']. intros p Hp1. rewrite lookup_insert_ne by elem_ne.
      apply F2. by apply Nd.
    + eapply (seg_frame h2); [|exact S2'']. intros p Hp2. rewrite lookup_insert_ne; [done|elem_ne].
  - intros p Hpn. rewrite insert_insert_eq, lookup_insert_ne by elem_ne.
    rewrite F2 by elem_tauto. apply F1. elem_tauto.
Qed.

(** Counting along the links. *)
Lemma count_next_spec h b ps : forall fuel c,
  seg h b ps nullptr -> (length ps <= fuel)%nat -> 0 <= c -> c + Z.of_nat (length ps) < 2 ^ 64 ->
  count_links fuel thread_group_next (hd nullptr ps) c h = Ret h (c + Z.of_nat (length ps)).
Proof.
  revert b. induction ps as [|p ps IH]; intros b fuel c Hs Hf Hc Hb; simpl in Hf, Hb.
  - destruct fuel; cbn; by rewrite Z.add_0_r.
  - destruct fuel as [|f]; [lia|]. destruct Hs as [[Hz (t & Et & _ & Hx)] Hs].
    cbn [count_links]. hsimp. rewrite (proj2 (Z.eqb_neq p nullptr)) by done. hsimp. rewrite Hx.
    rewrite u64_small, (IH p) by (done || lia). simpl length. f_equal. lia.
Qed.

Lemma count_prev_spec h ps : forall fuel a c,
  seg h nullptr ps a -> (length ps <= fuel)%nat -> 0 <= c -> c + Z.of_nat (length ps) < 2 ^ 64 ->
  count_links fuel thread_group_prev (lst nullptr ps) c h = Ret h (c + Z.of_nat (length ps)).
Proof.
  induction ps as [|p ps IH] using rev_ind; intros fuel a c Hs Hf Hc Hb.
  - destruct fuel; cbn; by rewrite Z.add_0_r.
  - rewrite length_app in *. simpl in Hf, Hb. destruct fuel as [|f]; [lia|].
    apply seg_app in Hs as [Hs [[Hz (t & Et & Hp & _)] _]].
    unfold lst at 1. rewrite last_snoc. cbn [count_links]. hsimp.
    rewrite (proj2 (Z.eqb_neq p nullptr)) by done. hsimp. rewrite Hp.
    rewrite u64_small, (IH f (hd a [p])) by (done || lia). simpl length. f_equal. lia.
Qed.

Lemma group_length h ps : group h ps -> (length ps <= size h)%nat.
Proof.
  intros [Hn Hs]. rewrite <- size_dom, <- (size_list_to_set (C := gset Z) ps Hn).
  apply subseteq_size. intros p Hp. apply elem_of_list_to_set in Hp. apply elem_of_dom.
  by apply (seg_null _ _ _ _ _ Hs).
Qed.

Lemma size_spec h ps1 this ps2 t :
  group h (ps1 ++ this :: ps2) -> h !! this = Some t -> tgid t <> 0 ->
  Z.of_nat (length (ps1 ++ this :: ps2)) < 2 ^ 64 ->
  GetThreadGroupSize this h = Ret h (Z.of_nat (length (ps1 ++ this :: ps2))).
Proof.
  intros Hg Et Htg Hb. pose proof (group_length _ _ Hg) as Hl. destruct Hg as [Hn Hs].
  apply seg_app in Hs as [S1 [[Hz (t' & Et' & Hp & Hx)] S2]].
  rewrite Et in Et'. injection Et' as <-. rewrite length_app in *. simpl length in *.
  unfold GetThreadGroupSize. hsimp. rewrite (proj2 (Z.eqb_neq (tgid t) 0)) by done. rewrite Hp, Hx.
  unfold bind. rewrite (count_prev_spec h ps1 (size h) _ 1 S1) by lia.
  rewrite (count_next_spec h this ps2 (size h) _ S2) by lia. f_equal. lia.
Qed.

(** the intrusive thread-group list.  In a heap where the blocks
    [ps1 ++ leader :: ps2] form a thread group, [JoinThreadGroup] of a fresh
    block puts it right behind the leader, gives it the leader's [tgid], and
    changes no block but the new one, the leader and the leader's old
    successor; [LeaveThreadGroup] of any member removes exactly that member and
    clears its links; and [GetThreadGroupSize] of any member of a group with a
    [tgid] counts the members. *)
Theorem thread_group_operations (h : heap) (this leader : ptr) (ps1 ps2 : list ptr) (tl tn : TCB) :
  group h (ps1 ++ leader :: ps2) -> h !! leader = Some tl ->
  this ∉ ps1 ++ leader :: ps2 -> this <> nullptr ->
  h !! this = Some tn -> thread_group_next tn = nullptr ->
  Z.of_nat (length (ps1 ++ leader :: ps2)) < 2 ^ 64 ->
  (exists h', JoinThreadGroup this leader h = Ret h' tt /\
     group h' (ps1 ++ leader :: this :: ps2) /\
     (exists t', h' !! this = Some t' /\ tgid t' = tgid tl) /\
     (forall p, p ∉ this :: leader :: take 1 ps2 -> h' !! p = h !! p)) /\
  (exists h' t', LeaveThreadGroup leader h = Ret h' tt /\ group h' (ps1 ++ ps2) /\
     h' !! leader = Some t' /\ thread_group_prev t' = nullptr /\ thread_group_next t' = nullptr /\
     (forall p, p ∉ ps1 ++ leader :: ps2 -> h' !! p = h !! p)) /\
  (tgid tl <> 0 -> GetThreadGroupSize leader h = Ret h (Z.of_nat (length (ps1 ++ leader :: ps2)))).
Proof.
  intros Hg El Hn Hz Et Hx Hb. split; [by eapply join_spec|]. split.
  - destruct (leave_spec _ _ _ _ Hg) as (h' & t & t' & E & G & _ & E' & -> & F).
    eexists h', _. by split_and!.
  - intros. by eapply size_spec.
Qed.

(** A leader 1 with one thread 2, and a block 3 outside the group. *)
Definition sample_group : heap :=
  {[1 := set_tgid 7 (set_thread_group_next 2 default_tcb);
    2 := set_tgid 7 (set_thread_group_prev 1 default_tcb);
    3 := default_tcb]}.

Lemma thread_group_operations_witness :
  GetThreadGroupSize 1 sample_group = Ret sample_group 2 /\
  exists h', JoinThreadGroup 3 1 sample_group = Ret h' tt /\ group h' [1; 3; 2].
Proof.
  destruct (thread_group_operations sample_group 3 1 [] [2]
    (set_tgid 7 (set_thread_group_next 2 default_tcb)) default_tcb) as (Hj & _ & Hs).
  - split; [by apply (bool_decide_unpack _)|].
    split; [|split; [|done]]; (split; [done|]); eexists; by split_and!.
  - reflexivity.
  - by apply (bool_decide_unpack _).
  - done.
  - reflexivity.
  - reflexivity.
  - simpl. lia.
  - split; [by apply Hs|]. destruct Hj as (h' & E & G & _). by exists h'.
Defined.

End Tcb.
