(* ===== verification/Schedulers.v ===== *)
(** * Schedulers: src/src/task/{fifo,rr,idle,cfs}_scheduler.cpp

    [SchedulerOps] is the abstract class [SchedulerBase]: the virtual methods
    that the task manager calls, with the default bodies of scheduler_base.hpp.
    [ReadyQueue] states what a scheduler that keeps a ready queue promises to
    the task manager; FIFO, round robin and CFS are instances.  The idle
    scheduler keeps one task and has its own laws.  A ready queue held in a
    [nk_std::list] is the list of its values, which [NkList] implements. *)

From stdpp Require Import base numbers list gmap strings.
From Stdlib Require Import ZArith Lia.
From S2P Require Import Prelude Tcb NkPriorityQueue.
Import Tcb.

Local Open Scope Z_scope.

Module Sched.

(** ** SchedulerBase *)

Record Stats := MkStats {
  total_enqueues : Z;
  total_dequeues : Z;
  total_picks : Z;
  total_preemptions : Z
}.

Definition zero_stats : Stats := MkStats 0 0 0 0.
Definition inc_enqueues (s : Stats) := MkStats (u64 (total_enqueues s + 1)) (total_dequeues s) (total_picks s) (total_preemptions s).
Definition inc_dequeues (s : Stats) := MkStats (total_enqueues s) (u64 (total_dequeues s + 1)) (total_picks s) (total_preemptions s).
Definition inc_picks (s : Stats) := MkStats (total_enqueues s) (total_dequeues s) (u64 (total_picks s + 1)) (total_preemptions s).
Definition inc_preemptions (s : Stats) := MkStats (total_enqueues s) (total_dequeues s) (total_picks s) (u64 (total_preemptions s + 1)).

Class SchedulerOps (S : Type) := {
  Enqueue : S -> ptr -> M heap S;
  Dequeue : S -> ptr -> M heap S;
  PickNext : S -> M heap (S * ptr);
  GetQueueSize : S -> Z;
  IsEmpty : S -> bool;
  OnTick : S -> ptr -> M heap (S * bool);
  OnTimeSliceExpired : S -> ptr -> M heap (S * bool);
  OnPreempted : S -> ptr -> S;
  OnScheduled : S -> ptr -> S
}.

(** Bodies of [SchedulerBase] that a class inherits. *)
Definition base_OnTick {S} (s : S) (_ : ptr) : M heap (S * bool) := ret (s, false).
Definition base_OnTimeSliceExpired {S} (s : S) (_ : ptr) : M heap (S * bool) := ret (s, true).
Definition base_OnScheduled {S} (s : S) (_ : ptr) : S := s.

(** ** FIFO *)

Record Fifo := MkFifo { fifo_queue : list ptr; fifo_stats : Stats }.

Definition fifo_Enqueue (s : Fifo) (task : ptr) : M heap Fifo :=
  ret (MkFifo (fifo_queue s ++ [task]) (inc_enqueues (fifo_stats s))).

(** [ready_queue_.remove(task)] drops every occurrence; the counter moves in
    any case. *)
Definition fifo_Dequeue (s : Fifo) (task : ptr) : M heap Fifo :=
  ret (MkFifo (List.filter (fun p => negb (p =? task)) (fifo_queue s)) (inc_dequeues (fifo_stats s))).

Definition fifo_PickNext (s : Fifo) : M heap (Fifo * ptr) :=
  match fifo_queue s with
  | [] => ret (s, nullptr)
  | next :: rest => ret (MkFifo rest (inc_picks (fifo_stats s)), next)
  end.

#[export] Instance fifo_ops : SchedulerOps Fifo := {|
  Enqueue := fifo_Enqueue;
  Dequeue := fifo_Dequeue;
  PickNext := fifo_PickNext;
  GetQueueSize s := Z.of_nat (length (fifo_queue s));
  IsEmpty s := (length (fifo_queue s) =? 0)%nat;
  OnTick := base_OnTick;
  OnTimeSliceExpired := base_OnTimeSliceExpired;
  OnPreempted s _ := MkFifo (fifo_queue s) (inc_preemptions (fifo_stats s));
  OnScheduled := base_OnScheduled
|}.

(** ** Round robin *)

Record RoundRobin := MkRr { rr_queue : list ptr; rr_stats : Stats }.

(** [time_slice_remaining = time_slice_default] *)
Definition reset_slice (t : TCB) : TCB :=
  on_time_slice_remaining (time_slice_default (sched_info t)) t.

Definition rr_Enqueue (s : RoundRobin) (task : ptr) : M heap RoundRobin :=
  if task =? nullptr then ret s
  else
    let* _ := upd task reset_slice in
    ret (MkRr (rr_queue s ++ [task]) (inc_enqueues (rr_stats s))).

(** The loop over the queue that erases the first match and stops. *)
Fixpoint erase_first (task : ptr) (q : list ptr) : option (list ptr) :=
  match q with
  | [] => None
  | p :: q' => if p =? task then Some q' else cons p <$> erase_first task q'
  end.

Definition rr_Dequeue (s : RoundRobin) (task : ptr) : M heap RoundRobin :=
  if task =? nullptr then ret s
  else
    match erase_first task (rr_queue s) with
    | Some q => ret (MkRr q (inc_dequeues (rr_stats s)))
    | None => ret s
    end.

Definition rr_PickNext (s : RoundRobin) : M heap (RoundRobin * ptr) :=
  match rr_queue s with
  | [] => ret (s, nullptr)
  | next :: rest => ret (MkRr rest (inc_picks (rr_stats s)), next)
  end.

Definition rr_OnTimeSliceExpired (s : RoundRobin) (task : ptr) : M heap (RoundRobin * bool) :=
  if task =? nullptr then ret (s, true)
  else let* _ := upd task reset_slice in ret (s, true).

#[export] Instance rr_ops : SchedulerOps RoundRobin := {|
  Enqueue := rr_Enqueue;
  Dequeue := rr_Dequeue;
  PickNext := rr_PickNext;
  GetQueueSize s := Z.of_nat (length (rr_queue s));
  IsEmpty s := (length (rr_queue s) =? 0)%nat;
  OnTick := base_OnTick;
  OnTimeSliceExpired := rr_OnTimeSliceExpired;
  OnPreempted s _ := MkRr (rr_queue s) (inc_preemptions (rr_stats s));
  OnScheduled := base_OnScheduled
|}.

(** ** Idle *)

Record Idle := MkIdle { idle_task_ : ptr; idle_stats : Stats }.

Definition idle_Enqueue (s : Idle) (task : ptr) : M heap Idle :=
  ret (MkIdle task (inc_enqueues (idle_stats s))).

Definition idle_Dequeue (s : Idle) (task : ptr) : M heap Idle :=
  if idle_task_ s =? task then ret (MkIdle nullptr (inc_dequeues (idle_stats s))) else ret s.

(** The idle task stays registered when it is picked. *)
Definition idle_PickNext (s : Idle) : M heap (Idle * ptr) :=
  if idle_task_ s =? nullptr then ret (s, nullptr)
  else ret (MkIdle (idle_task_ s) (inc_picks (idle_stats s)), idle_task_ s).

#[export] Instance idle_ops : SchedulerOps Idle := {|
  Enqueue := idle_Enqueue;
  Dequeue := idle_Dequeue;
  PickNext := idle_PickNext;
  GetQueueSize s := if idle_task_ s =? nullptr then 0 else 1;
  IsEmpty s := idle_task_ s =? nullptr;
  OnTick s _ := ret (s, false);
  OnTimeSliceExpired s _ := ret (s, false);
  OnPreempted s _ := MkIdle (idle_task_ s) (inc_preemptions (idle_stats s));
  OnScheduled s _ := s
|}.

(** ** CFS *)

Definition kDefaultWeight : Z := 1024.
Definition kMinGranularity : Z := 10.

Record Cfs := MkCfs { cfs_queue : list ptr; min_vruntime_ : Z; cfs_stats : Stats }.

Definition vruntime_of (h : heap) (p : ptr) : Z :=
  match h !! p with Some t => vruntime t | None => 0 end.

(** [VruntimeCompare]: [a] comes after [b]. *)
Definition vruntime_after (h : heap) (a b : ptr) : bool := vruntime_of h b <? vruntime_of h a.

(** The heap operations compare control blocks through their pointers: every
    queued block must be alive. *)
Fixpoint deref_all (q : list ptr) : M heap unit :=
  match q with [] => ret tt | p :: q' => let* _ := tcb p in deref_all q' end.

Definition cfs_push (q : list ptr) (task : ptr) : M heap (list ptr) :=
  let* _ := deref_all (q ++ [task]) in
  fun h => Ret h (NkPriorityQueue.push (vruntime_after h) q task).

Definition cfs_pop (q : list ptr) : M heap (list ptr) :=
  let* _ := deref_all q in
  fun h => Ret h (NkPriorityQueue.pop (vruntime_after h) q).

Definition cfs_Enqueue (s : Cfs) (task : ptr) : M heap Cfs :=
  if task =? nullptr then ret s
  else
    let* t := tcb task in
    let* _ := (if vruntime t =? 0 then upd task (set_vruntime (min_vruntime_ s)) else ret tt) in
    let* t := tcb task in
    let* _ := (if weight t =? 0 then upd task (set_weight kDefaultWeight) else ret tt) in
    let* q := cfs_push (cfs_queue s) task in
    ret (MkCfs q (min_vruntime_ s) (inc_enqueues (cfs_stats s))).

(** [while (!ready_queue_.empty())]: drain the heap in order. *)
Fixpoint cfs_drain (fuel : nat) (q : list ptr) : M heap (list ptr) :=
  match fuel with
  | O => ret []
  | S f =>
      match q with
      | [] => ret []
      | t :: _ => let* q' := cfs_pop q in let* r := cfs_drain f q' in ret (t :: r)
      end
  end.

Fixpoint cfs_refill (q : list ptr) (temp : list ptr) : M heap (list ptr) :=
  match temp with
  | [] => ret q
  | t :: temp' => let* q' := cfs_push q t in cfs_refill q' temp'
  end.

Definition cfs_Dequeue (s : Cfs) (task : ptr) : M heap Cfs :=
  if task =? nullptr then ret s
  else
    let* drained := cfs_drain (length (cfs_queue s)) (cfs_queue s) in
    let temp := List.filter (fun t => negb (t =? task)) drained in
    let found := existsb (fun t => t =? task) drained in
    let* q := cfs_refill [] temp in
    ret (MkCfs q (min_vruntime_ s) (if found then inc_dequeues (cfs_stats s) else cfs_stats s)).

Definition cfs_PickNext (s : Cfs) : M heap (Cfs * ptr) :=
  match cfs_queue s with
  | [] => ret (s, nullptr)
  | next :: _ =>
      let* q := cfs_pop (cfs_queue s) in
      let* t := tcb (default next (head q)) in
      ret (MkCfs q (vruntime t) (inc_picks (cfs_stats s)), next)
  end.

Definition cfs_OnTick (s : Cfs) (current : ptr) : M heap (Cfs * bool) :=
  let* _ := nk_assert_msg (negb (current =? nullptr)) "CfsScheduler::OnTick: current task must not be null" in
  let* t := tcb current in
  if weight t =? 0 then halt_with DivByZero
  else
    let delta := kDefaultWeight * 1000 / weight t in
    let* _ := upd current (set_vruntime (u64 (vruntime t + delta))) in
    match cfs_queue s with
    | [] => ret (s, false)
    | next :: _ =>
        let* n := tcb next in
        let* c := tcb current in
        if u64 (vruntime n + kMinGranularity) <? vruntime c
        then ret (MkCfs (cfs_queue s) (min_vruntime_ s) (inc_preemptions (cfs_stats s)), true)
        else ret (s, false)
    end.

Definition cfs_OnPreempted (s : Cfs) (task : ptr) : Cfs :=
  if task =? nullptr then s
  else MkCfs (cfs_queue s) (min_vruntime_ s) (inc_preemptions (cfs_stats s)).

#[export] Instance cfs_ops : SchedulerOps Cfs := {|
  Enqueue := cfs_Enqueue;
  Dequeue := cfs_Dequeue;
  PickNext := cfs_PickNext;
  GetQueueSize s := Z.of_nat (length (cfs_queue s));
  IsEmpty s := (length (cfs_queue s) =? 0)%nat;
  OnTick := cfs_OnTick;
  OnTimeSliceExpired := base_OnTimeSliceExpired;
  OnPreempted := cfs_OnPreempted;
  OnScheduled := base_OnScheduled
|}.

(** ** Dynamic dispatch: an object of some subclass of SchedulerBase *)

Inductive scheduler :=
| SFifo (s : Fifo)
| SRr (s : RoundRobin)
| SIdle (s : Idle)
| SCfs (s : Cfs).

(** Apply a method of the dynamic class and rewrap the object. *)
Definition dispatch {R} (s : scheduler)
    (f : forall S, SchedulerOps S -> S -> (S -> scheduler) -> R) : R :=
  match s with
  | SFifo x => f Fifo _ x SFifo
  | SRr x => f RoundRobin _ x SRr
  | SIdle x => f Idle _ x SIdle
  | SCfs x => f Cfs _ x SCfs
  end.

#[export] Instance scheduler_ops : SchedulerOps scheduler := {|
  Enqueue s p := dispatch s (fun S _ x w => let* y := Enqueue x p in ret (w y));
  Dequeue s p := dispatch s (fun S _ x w => let* y := Dequeue x p in ret (w y));
  PickNext s := dispatch s (fun S _ x w => let* r := PickNext x in ret (w r.1, r.2));
  GetQueueSize s := dispatch s (fun S _ x _ => GetQueueSize x);
  IsEmpty s := dispatch s (fun S _ x _ => IsEmpty x);
  OnTick s p := dispatch s (fun S _ x w => let* r := OnTick x p in ret (w r.1, r.2));
  OnTimeSliceExpired s p := dispatch s (fun S _ x w => let* r := OnTimeSliceExpired x p in ret (w r.1, r.2));
  OnPreempted s p := dispatch s (fun S _ x w => w (OnPreempted x p));
  OnScheduled s p := dispatch s (fun S _ x w => w (OnScheduled x p))
|}.

(** ** What a scheduler may change in a control block *)

(** The block without the fields that schedulers own: the remaining time
    slice, the virtual runtime and the weight. *)
Definition core_of (t : TCB) : TCB := set_vruntime 0 (set_weight 0 (on_time_slice_remaining 0 t)).

(** Two heaps that differ only in those fields. *)
Definition same_cores (h h' : heap) : Prop := core_of <$> h = core_of <$> h'.

#[export] Instance same_cores_equiv : Equivalence same_cores.
Proof. split; unfold same_cores; intros ?; intros; congruence. Qed.

Lemma same_cores_lookup h h' p t :
  same_cores h h' -> h !! p = Some t -> exists t', h' !! p = Some t' /\ core_of t' = core_of t.
Proof.
  intros E Ht. apply (f_equal (lookup p)) in E. rewrite !lookup_fmap, Ht in E.
  destruct (h' !! p) as [t'|]; [|done]. apply (inj Some) in E. exists t'. split; [done|]. by symmetry.
Qed.

Lemma same_cores_insert h p t t' :
  h !! p = Some t -> core_of t' = core_of t -> same_cores h (<[p := t']> h).
Proof.
  intros Ht E. unfold same_cores. rewrite fmap_insert, E. symmetry. apply insert_id.
  by rewrite lookup_fmap, Ht.
Qed.

Lemma same_cores_alive h h' p : same_cores h h' -> is_Some (h !! p) -> is_Some (h' !! p).
Proof. intros E [t Ht]. destruct (same_cores_lookup _ _ _ _ E Ht) as (t' & -> & _). eauto. Qed.

(** ** The interface of ready queues *)

Definition alive (h : heap) (q : list ptr) : Prop := forall p, p ∈ q -> p <> nullptr /\ is_Some (h !! p).

(** [ready] is the queue's contents and [good] the representation invariant.
    The laws: the observers agree with [ready]; [Enqueue] of a live task that
    is not queued adds it; [PickNext] removes one queued task, or answers
    [nullptr] on an empty queue; [Dequeue] removes exactly the task.  No
    operation touches more of a control block than the scheduler's fields. *)
Class ReadyQueue (S : Type) `{SchedulerOps S} := {
  ready : S -> list ptr;
  good : heap -> S -> Prop;
  ready_size : forall s, GetQueueSize s = Z.of_nat (length (ready s));
  ready_empty : forall s, IsEmpty s = bool_decide (ready s = []);
  ready_alive : forall h s, good h s -> alive h (ready s);
  ready_enqueue : forall h s p,
    good h s -> p <> nullptr -> is_Some (h !! p) -> p ∉ ready s ->
    exists h' s', Enqueue s p h = Ret h' s' /\ good h' s' /\ ready s' ≡ₚ p :: ready s /\
      same_cores h h';
  ready_pick_empty : forall h s, ready s = [] -> PickNext s h = Ret h (s, nullptr);
  ready_pick : forall h s, good h s -> ready s <> [] ->
    exists s' p, PickNext s h = Ret h (s', p) /\ good h s' /\ ready s ≡ₚ p :: ready s';
  ready_dequeue : forall h s p, good h s -> NoDup (ready s) -> p <> nullptr ->
    exists s', Dequeue s p h = Ret h s' /\ good h s' /\
      ready s' ≡ₚ List.filter (fun t => negb (t =? p)) (ready s);
  ready_expired : forall h s p, good h s -> is_Some (h !! p) -> p ∉ ready s ->
    exists h', OnTimeSliceExpired s p h = Ret h' (s, true) /\ good h' s /\ same_cores h h';
  ready_preempted : forall h s p, good h s -> good h (OnPreempted s p) /\ ready (OnPreempted s p) = ready s
}.

(** A queue in a list, and its liveness under [same_cores]. *)
Lemma alive_same h h' q : same_cores h h' -> alive h q -> alive h' q.
Proof. intros E A p Hp. destruct (A p Hp). split; [done|]. by eapply same_cores_alive. Qed.

Lemma empty_decide (q : list ptr) : (length q =? 0)%nat = bool_decide (q = []).
Proof. by destruct q. Qed.

Lemma filter_elem (f : ptr -> bool) q p : p ∈ List.filter f q -> p ∈ q.
Proof. rewrite !list_elem_of_In, filter_In. tauto. Qed.

Lemma alive_snoc h q p : alive h q -> p <> nullptr -> is_Some (h !! p) -> alive h (q ++ [p]).
Proof. intros A Hp Hs x [?| ->%list_elem_of_singleton]%elem_of_app; auto. Qed.

#[export] Program Instance fifo_ready : ReadyQueue Fifo := {|
  ready := fifo_queue;
  good h s := alive h (fifo_queue s)
|}.
Next Obligation. done. Qed.
Next Obligation. intros s. apply empty_decide. Qed.
Next Obligation. done. Qed.
Next Obligation.
  intros h s p A Hp Hs _. eexists h, _. split; [reflexivity|]. split; [by apply alive_snoc|].
  split; [|done]. symmetry. apply Permutation_cons_append.
Qed.
Next Obligation. intros h s E. simpl. unfold fifo_PickNext. by rewrite E. Qed.
Next Obligation.
  intros h s A Hne. simpl. unfold fifo_PickNext. destruct (fifo_queue s) as [|p q] eqn:E; [done|].
  eexists _, p. split; [reflexivity|]. split; [|done]. intros x Hx. apply A. rewrite E. by right.
Qed.
Next Obligation.
  intros h s p A Hn Hp. eexists. split; [reflexivity|]. split; [|done].
  intros x Hx. apply A. by apply filter_elem in Hx.
Qed.
Next Obligation. intros h s p A _ _. by exists h. Qed.
Next Obligation. done. Qed.

(** Resetting a time slice changes nothing else. *)
Lemma reset_slice_upd h p t :
  h !! p = Some t -> upd p reset_slice h = Ret (<[p := reset_slice t]> h) tt /\
  same_cores h (<[p := reset_slice t]> h).
Proof. intros E. simpl. rewrite E. split; [done|]. by eapply same_cores_insert. Qed.

Lemma erase_first_spec p q :
  NoDup q -> match erase_first p q with
             | Some q' => q' = List.filter (fun t => negb (t =? p)) q
             | None => List.filter (fun t => negb (t =? p)) q = q
             end.
Proof.
  induction q as [|x q IH]; [done|]. intros [Hx Hn]%NoDup_cons. specialize (IH Hn). simpl.
  destruct (Z.eqb_spec x p) as [->|Hne]; simpl.
  - symmetry. clear IH Hn. induction q as [|y q IH]; [done|]. simpl.
    apply not_elem_of_cons in Hx as [? Hx]. destruct (Z.eqb_spec y p); [congruence|]. simpl.
    f_equal. by apply IH.
  - destruct (erase_first p q); simpl; [by f_equal|by f_equal].
Qed.

#[export] Program Instance rr_ready : ReadyQueue RoundRobin := {|
  ready := rr_queue;
  good h s := alive h (rr_queue s)
|}.
Next Obligation. done. Qed.
Next Obligation. intros s. apply empty_decide. Qed.
Next Obligation. done. Qed.
Next Obligation.
  intros h s p A Hp [t Ht] _. simpl. unfold rr_Enqueue. rewrite (proj2 (Z.eqb_neq _ _) Hp).
  destruct (reset_slice_upd h p t Ht) as [E C]. unfold bind. rewrite E. eexists _, _.
  split; [reflexivity|]. split; [|split; [|done]].
  - eapply alive_same; [exact C|]. apply alive_snoc; eauto.
  - symmetry. apply Permutation_cons_append.
Qed.
Next Obligation. intros h s E. simpl. unfold rr_PickNext. by rewrite E. Qed.
Next Obligation.
  intros h s A Hne. simpl. unfold rr_PickNext. destruct (rr_queue s) as [|p q] eqn:E; [done|].
  eexists _, p. split; [reflexivity|]. split; [|done]. intros x Hx. apply A. rewrite E. by right.
Qed.
Next Obligation.
  intros h s p A Hn Hp. simpl. unfold rr_Dequeue. rewrite (proj2 (Z.eqb_neq _ _) Hp).
  pose proof (erase_first_spec p (rr_queue s) Hn) as E.
  destruct (erase_first p (rr_queue s)); subst; eexists; (split; [reflexivity|]).
  - split; [|done]. intros x Hx. apply A. by apply filter_elem in Hx.
  - by rewrite E.
Qed.
Next Obligation.
  intros h s p A [t Ht] _. simpl. unfold rr_OnTimeSliceExpired.
  destruct (p =? nullptr); [by exists h|].
  destruct (reset_slice_upd h p t Ht) as [E C]. unfold bind. rewrite E. eexists.
  split; [reflexivity|]. split; [|done]. by eapply alive_same.
Qed.
Next Obligation. done. Qed.

(** ** CFS as a ready queue *)

Import NkPriorityQueue.

#[export] Instance vruntime_order h : StrictWeakOrder (vruntime_after h) :=
  min_key_order (vruntime_of h).

Definition cfs_good (h : heap) (q : list ptr) : Prop := alive h q /\ is_heap (vruntime_after h) q.

Lemma deref_all_alive h q : alive h q -> deref_all q h = Ret h tt.
Proof.
  induction q as [|p q IH]; intros A; [done|]. destruct (A p) as [_ [t Ht]]; [by left|].
  simpl. rewrite Ht. apply IH. intros x Hx. apply A. by right.
Qed.

Lemma alive_perm h q q' : q ≡ₚ q' -> alive h q -> alive h q'.
Proof. intros P A x Hx. apply A. by rewrite P. Qed.

Lemma alive_cons h p q : alive h (p :: q) <-> (p <> nullptr /\ is_Some (h !! p)) /\ alive h q.
Proof.
  split.
  - intros A. split; [apply A; by left|]. intros x Hx. apply A. by right.
  - intros [? A] x [->|Hx]%elem_of_cons; auto.
Qed.

(** The heap order only reads the members' virtual runtimes. *)
Lemma is_heap_ext h h' q :
  (forall p, p ∈ q -> vruntime_of h' p = vruntime_of h p) ->
  is_heap (vruntime_after h) q -> is_heap (vruntime_after h') q.
Proof.
  intros E H j Hj. specialize (H j Hj). unfold vruntime_after in *.
  assert (forall i, (i < length q)%nat -> q !!! i ∈ q) as Hin.
  { intros i Hi. eapply list_elem_of_lookup_2, list_lookup_lookup_total_lt. done. }
  rewrite !E; [done|apply Hin; pose proof (parent_lt j); lia|apply Hin; lia].
Qed.

Lemma cfs_push_spec h q p :
  cfs_good h q -> p <> nullptr -> is_Some (h !! p) ->
  exists q', cfs_push q p h = Ret h q' /\ cfs_good h q' /\ q' ≡ₚ p :: q.
Proof.
  intros [A H] Hp Hs. unfold cfs_push, bind. rewrite deref_all_alive by (by apply alive_snoc).
  destruct (push_spec (vruntime_after h) q p H) as [H' P]. eexists. split; [reflexivity|].
  split; [|done]. split; [|done]. eapply alive_perm; [symmetry; exact P|]. by apply alive_cons.
Qed.

Lemma cfs_pop_spec h p q :
  cfs_good h (p :: q) ->
  exists q', cfs_pop (p :: q) h = Ret h q' /\ cfs_good h q' /\ p :: q ≡ₚ p :: q'.
Proof.
  intros [A H]. unfold cfs_pop, bind. rewrite deref_all_alive by done.
  destruct (pop_spec (vruntime_after h) (p :: q) p H eq_refl) as [H' P]. eexists.
  split; [reflexivity|]. split; [|by symmetry]. split; [|done].
  symmetry in P. eapply alive_perm in A; [|exact P]. by apply alive_cons in A as [_ A].
Qed.

Lemma cfs_drain_spec h : forall n q,
  cfs_good h q -> (length q <= n)%nat -> exists r, cfs_drain n q h = Ret h r /\ r ≡ₚ q.
Proof.
  induction n as [|n IH]; intros q G Hl; destruct q as [|p q]; simpl in Hl; try lia;
    [by exists []..|].
  destruct (cfs_pop_spec h p q G) as (q' & E & G' & P).
  assert (length q' = length q) as Hl'. { apply Permutation_length in P. simpl in P. lia. }
  destruct (IH q' G') as (r & Er & Pr); [lia|].
  exists (p :: r). cbn [cfs_drain]. unfold bind. rewrite E, Er. split; [done|]. by rewrite P, Pr.
Qed.

Lemma cfs_refill_spec h : forall temp q,
  cfs_good h q -> alive h temp ->
  exists q', cfs_refill q temp h = Ret h q' /\ cfs_good h q' /\ q' ≡ₚ temp ++ q.
Proof.
  induction temp as [|t temp IH]; intros q G A; [by exists q|].
  apply alive_cons in A as [[Ht Hs] A]. destruct (cfs_push_spec h q t G Ht Hs) as (q' & E & G' & P).
  destruct (IH q' G' A) as (q2 & E2 & G2 & P2). exists q2. cbn [cfs_refill]. unfold bind.
  rewrite E, E2. split; [done|]. split; [done|]. rewrite P2, P. symmetry. apply Permutation_middle.
Qed.

Lemma filter_perm {A} (f : A -> bool) q q' : q ≡ₚ q' -> List.filter f q ≡ₚ List.filter f q'.
Proof.
  induction 1 as [|x q q' P IH|x y q|]; simpl; [done| | |by etrans].
  - destruct (f x); [by f_equiv|done].
  - destruct (f x), (f y); try done. apply perm_swap.
Qed.

(** Initialising the virtual runtime and the weight of a task on its way in. *)
Lemma cfs_init_spec h s p t :
  h !! p = Some t -> p <> nullptr ->
  exists h' t', h' !! p = Some t' /\ same_cores h h' /\
    (forall x, x <> p -> h' !! x = h !! x) /\
    vruntime t' = (if vruntime t =? 0 then min_vruntime_ s else vruntime t) /\
    weight t' = (if weight t =? 0 then kDefaultWeight else weight t) /\
    cfs_Enqueue s p h =
      (let* q := cfs_push (cfs_queue s) p in
       ret (MkCfs q (min_vruntime_ s) (inc_enqueues (cfs_stats s)))) h'.
Proof.
  intros Ht Hp. set (t1 := if vruntime t =? 0 then set_vruntime (min_vruntime_ s) t else t).
  set (t2 := if weight t =? 0 then set_weight kDefaultWeight t1 else t1).
  exists (<[p := t2]> h), t2. split; [apply lookup_insert_eq|]. split.
  { eapply same_cores_insert; [done|]. unfold t2, t1. by destruct (vruntime t =? 0), (weight t =? 0). }
  split; [intros; by apply lookup_insert_ne|].
  split; [unfold t2, t1; by destruct (vruntime t =? 0), (weight t =? 0)|].
  split; [unfold t2, t1; by destruct (vruntime t =? 0), (weight t =? 0)|].
  unfold cfs_Enqueue. rewrite (proj2 (Z.eqb_neq _ _) Hp).
  assert (exists h1, (if vruntime t =? 0 then upd p (set_vruntime (min_vruntime_ s)) else ret tt) h
                     = Ret h1 tt /\ h1 = <[p := t1]> h) as (h1 & E1 & ->).
  { unfold t1. destruct (vruntime t =? 0); simpl; rewrite ?Ht; eexists; (split; [reflexivity|]).
    - done.
    - by rewrite insert_id. }
  assert (weight t1 = weight t) as Ew. { unfold t1. by destruct (vruntime t =? 0). }
  assert ((if weight t1 =? 0 then upd p (set_weight kDefaultWeight) else ret tt) (<[p := t1]> h)
          = Ret (<[p := t2]> h) tt) as E2.
  { unfold t2. rewrite Ew. destruct (weight t =? 0); simpl; [|done].
    by rewrite lookup_insert_eq, insert_insert_eq. }
  cbn [bind tcb]. rewrite Ht, E1, lookup_insert_eq, E2. done.
Qed.

#[export] Program Instance cfs_ready : ReadyQueue Cfs := {|
  ready := cfs_queue;
  good h s := cfs_good h (cfs_queue s)
|}.
Next Obligation. done. Qed.
Next Obligation. intros s. apply empty_decide. Qed.
Next Obligation. by intros h s [A _]. Qed.
Next Obligation.
  intros h s p [A H] Hp [t Ht] Hn. simpl.
  destruct (cfs_init_spec h s p t Ht Hp) as (h' & t' & Ht' & C & F & _ & _ & E).
  destruct (cfs_push_spec h' (cfs_queue s) p) as (q & Eq & G & P); [|done|by eauto|].
  - split; [by eapply alive_same|]. eapply is_heap_ext; [|exact H]. intros x Hx.
    unfold vruntime_of. rewrite F; [done|]. by intros ->.
  - rewrite E. unfold bind. rewrite Eq. by eexists _, _.
Qed.
Next Obligation. intros h s E. simpl. unfold cfs_PickNext. by rewrite E. Qed.
Next Obligation.
  intros h s G Hne. simpl. unfold cfs_PickNext. destruct (cfs_queue s) as [|p q] eqn:Eq; [done|].
  destruct (cfs_pop_spec h p q) as (q' & E & G' & P); [by rewrite <- Eq|].
  assert (is_Some (h !! default p (head q'))) as [t Ht].
  { assert (alive h (p :: q')) as A by (eapply alive_perm; [exact P|]; rewrite <- Eq; apply G).
    apply A. destruct q'; [by left|]. right. by left. }
  unfold bind. rewrite E. simpl. rewrite Ht. by eexists _, _.
Qed.
Next Obligation.
  intros h s p G Hn Hp. simpl. unfold cfs_Dequeue. rewrite (proj2 (Z.eqb_neq _ _) Hp).
  destruct (cfs_drain_spec h (length (cfs_queue s)) (cfs_queue s) G) as (r & Er & Pr); [done|].
  destruct (cfs_refill_spec h (List.filter (fun t => negb (t =? p)) r) []) as (q' & Eq & G' & P').
  - split; [by intros x ?%elem_of_nil|]. intros j Hj. simpl in Hj. lia.
  - intros x Hx%filter_elem. apply G. by rewrite <- Pr.
  - unfold bind. rewrite Er, Eq. eexists. split; [reflexivity|]. split; [done|]. simpl.
    rewrite P', app_nil_r. by apply filter_perm.
Qed.
Next Obligation. intros h s p G _ _. by exists h. Qed.
Next Obligation. intros h s p G. simpl. unfold cfs_OnPreempted. by destruct (p =? nullptr). Qed.

(** ** Theorems *)

(** Enqueue a list of tasks; pick [n] times. *)
Fixpoint enqueue_all {S} `{SchedulerOps S} (s : S) (ps : list ptr) : M heap S :=
  match ps with [] => ret s | p :: ps' => let* s' := Enqueue s p in enqueue_all s' ps' end.

Fixpoint pick_n {S} `{SchedulerOps S} (n : nat) (s : S) : M heap (S * list ptr) :=
  match n with
  | O => ret (s, [])
  | Datatypes.S n' =>
      let* r := PickNext s in
      let* r' := pick_n n' r.1 in
      ret (r'.1, r.2 :: r'.2)
  end.

Lemma enqueue_all_spec {S} `{ReadyQueue S} : forall ps h s,
  good h s -> alive h ps -> NoDup (ps ++ ready s) ->
  exists h' s', enqueue_all s ps h = Ret h' s' /\ good h' s' /\ ready s' ≡ₚ ps ++ ready s /\
    same_cores h h'.
Proof.
  induction ps as [|p ps IH]; intros h s G A Hn; [by exists h, s|].
  apply alive_cons in A as [[Hp Hs] A]. simpl in Hn. apply NoDup_cons in Hn as [Hpn Hn].
  destruct (ready_enqueue h s p G Hp Hs) as (h1 & s1 & E1 & G1 & P1 & C1); [elem_tauto|].
  destruct (IH h1 s1 G1) as (h2 & s2 & E2 & G2 & P2 & C2).
  - by eapply alive_same.
  - rewrite P1. rewrite <- Permutation_middle. by apply NoDup_cons.
  - exists h2, s2. cbn [enqueue_all]. unfold bind. rewrite E1, E2. split; [done|]. split; [done|].
    split; [|by etrans]. rewrite P2, P1. symmetry. apply Permutation_middle.
Qed.

Lemma pick_n_spec {S} `{ReadyQueue S} : forall n h s,
  good h s -> length (ready s) = n ->
  exists s' r, pick_n n s h = Ret h (s', r) /\ ready s' = [] /\ r ≡ₚ ready s.
Proof.
  induction n as [|n IH]; intros h s G Hl.
  - apply length_zero_iff_nil in Hl. exists s, []. by rewrite Hl.
  - destruct (ready_pick h s G) as (s1 & p & E & G1 & P); [by intros E; rewrite E in Hl|].
    destruct (IH h s1 G1) as (s2 & r & E2 & N2 & P2).
    { apply Permutation_length in P. simpl in P. lia. }
    exists s2, (p :: r). cbn [pick_n]. unfold bind. rewrite E. cbn [fst snd]. rewrite E2.
    split; [done|]. split; [done|]. by rewrite P, P2.
Qed.

(** no scheduler loses or duplicates a task.  For every scheduler that
    satisfies the [ReadyQueue] interface (FIFO, round robin and CFS do),
    enqueueing distinct live tasks that are not yet queued and then picking as
    often as [GetQueueSize] says returns each of them, and each task that was
    queued before, exactly once, leaves the queue empty, and changes in the
    control blocks nothing but the schedulers' own fields. *)
Theorem scheduler_picks_every_task_once {S} `{ReadyQueue S} (h : heap) (s : S) (ps : list ptr) :
  good h s -> alive h ps -> NoDup (ps ++ ready s) ->
  exists h' s', enqueue_all s ps h = Ret h' s' /\ same_cores h h' /\
    GetQueueSize s' = Z.of_nat (length (ps ++ ready s)) /\
    exists s'' r, pick_n (length (ps ++ ready s)) s' h' = Ret h' (s'', r) /\
      r ≡ₚ ps ++ ready s /\ IsEmpty s'' = true.
Proof.
  intros G A Hn. destruct (enqueue_all_spec ps h s G A Hn) as (h' & s' & E & G' & P & C).
  exists h', s'. split; [done|]. split; [done|].
  split; [by rewrite ready_size, (Permutation_length P)|].
  destruct (pick_n_spec (length (ps ++ ready s)) h' s' G') as (s2 & r & E2 & N & P2).
  { by rewrite (Permutation_length P). }
  exists s2, r. split; [done|]. split; [by rewrite P2, P|].
  rewrite ready_empty. by apply bool_decide_eq_true_2.
Qed.

(** Three live tasks. *)
Definition sample_heap : heap :=
  {[1 := set_vruntime 30 default_tcb; 2 := set_vruntime 10 default_tcb;
    3 := set_vruntime 20 default_tcb]}.

Lemma sample_alive : alive sample_heap [1; 2; 3].
Proof.
  intros p Hp. rewrite !elem_of_cons, elem_of_nil in Hp.
  destruct Hp as [-> |[-> |[-> | []]]]; (split; [done|]); by eexists.
Qed.

Lemma scheduler_picks_every_task_once_witness :
  exists h' s', enqueue_all (MkCfs [] 0 zero_stats) [1; 2; 3] sample_heap = Ret h' s' /\
    exists s'' r, pick_n 3 s' h' = Ret h' (s'', r) /\ r ≡ₚ [1; 2; 3].
Proof.
  destruct (scheduler_picks_every_task_once sample_heap (MkCfs [] 0 zero_stats) [1; 2; 3])
    as (h' & s' & E & _ & _ & s2 & r & E2 & P & _).
  - split; [by intros x ?%elem_of_nil|]. intros j Hj. simpl in Hj. lia.
  - apply sample_alive.
  - by apply (bool_decide_unpack _).
  - exists h', s'. split; [exact E|]. exists s2, r. split; [exact E2|exact P].
Defined.

(** One turn of round robin: the head runs and is queued again at the tail. *)
Fixpoint rr_turns (n : nat) (s : RoundRobin) : M heap (RoundRobin * list ptr) :=
  match n with
  | O => ret (s, [])
  | S n' =>
      let* r := PickNext s in
      let* s' := Enqueue r.1 r.2 in
      let* r' := rr_turns n' s' in
      ret (r'.1, r.2 :: r'.2)
  end.

Lemma rr_turns_spec q1 : forall q2 h st,
  alive h (q1 ++ q2) ->
  exists h' st', rr_turns (length q1) (MkRr (q1 ++ q2) st) h = Ret h' (MkRr (q2 ++ q1) st', q1) /\
    same_cores h h'.
Proof.
  induction q1 as [|p q1 IH]; intros q2 h st A.
  - rewrite app_nil_r. by exists h, st.
  - destruct (A p) as [Hp [t Ht]]; [by left|]. destruct (reset_slice_upd h p t Ht) as [E C].
    destruct (IH (q2 ++ [p]) (<[p := reset_slice t]> h) (inc_enqueues (inc_picks st))) as (h' & st' & E' & C').
    { eapply alive_same; [exact C|]. intros x Hx. apply A. elem_tauto. }
    exists h', st'. split; [|by etrans]. cbn [length rr_turns]. unfold bind. simpl.
    unfold rr_Enqueue. rewrite (proj2 (Z.eqb_neq _ _) Hp). unfold bind. rewrite E.
    cbn [rr_queue rr_stats]. rewrite <- app_assoc. cbn [ret]. rewrite E'. simpl.
    by rewrite <- app_assoc.
Qed.

Lemma fifo_order ps : forall q h st,
  enqueue_all (MkFifo q st) ps h = Ret h (MkFifo (q ++ ps) (Nat.iter (length ps) inc_enqueues st)) /\
  exists st', pick_n (length q) (MkFifo (q ++ ps) st) h = Ret h (MkFifo ps st', q).
Proof.
  intros q h st. split.
  - revert q st. induction ps as [|p ps IH]; intros q st; simpl; [by rewrite app_nil_r|].
    rewrite IH. rewrite <- app_assoc. simpl. do 3 f_equal.
    clear. induction (length ps) as [|n IHn]; simpl; [done|]. by f_equal.
  - revert st. induction q as [|p q IH]; intros st; [by exists st|].
    destruct (IH (inc_picks st)) as [st' E]. exists st'. simpl in *. unfold bind in *. by rewrite E.
Qed.

(** service order of the queue schedulers.  FIFO hands out tasks in the
    order they were enqueued.  Under round robin, with [n] tasks ready, [n]
    consecutive turns (pick the head, queue it again when its slice ends) run
    every task exactly once in queue order and restore the queue; each requeued
    task starts its next turn with a full time slice. *)
Theorem fifo_rr_service_order (q ps : list ptr) (h : heap) (st : Stats) (p : ptr) (t : TCB) :
  alive h q ->
  (exists st', enqueue_all (MkFifo q st) ps h = Ret h (MkFifo (q ++ ps) st')) /\
  (exists st', pick_n (length q) (MkFifo (q ++ ps) st) h = Ret h (MkFifo ps st', q)) /\
  (exists h' st', rr_turns (length q) (MkRr q st) h = Ret h' (MkRr q st', q) /\ same_cores h h') /\
  (p <> nullptr -> h !! p = Some t ->
   exists h' s' t', Enqueue (MkRr q st) p h = Ret h' s' /\ rr_queue s' = q ++ [p] /\
     h' !! p = Some t' /\
     time_slice_remaining (sched_info t') = time_slice_default (sched_info t)).
Proof.
  intros A. destruct (fifo_order ps q h st) as [E1 E2]. split; [eauto|]. split; [done|]. split.
  - destruct (rr_turns_spec q [] h st) as (h' & st' & E & C); [by rewrite app_nil_r|].
    rewrite app_nil_r in E. simpl in E. eauto.
  - intros Hp Ht. destruct (reset_slice_upd h p t Ht) as [E _]. simpl. unfold rr_Enqueue.
    rewrite (proj2 (Z.eqb_neq _ _) Hp). unfold bind. rewrite E. eexists _, _, _.
    split; [reflexivity|]. split; [done|]. by rewrite lookup_insert_eq.
Qed.

Lemma fifo_rr_service_order_witness :
  exists h' st', rr_turns 3 (MkRr [1; 2; 3] zero_stats) sample_heap =
    Ret h' (MkRr [1; 2; 3] st', [1; 2; 3]) /\ same_cores sample_heap h'.
Proof. apply (fifo_rr_service_order [1; 2; 3] [] sample_heap zero_stats 1 default_tcb). apply sample_alive. Defined.

(** CFS.  [PickNext] returns a task of minimal [vruntime] among the ready
    ones and sets [min_vruntime_] to the minimum of what remains (to the picked
    task's own [vruntime] when nothing remains), so that a task enqueued for the
    first time starts there; [OnTick] advances the current task's [vruntime] by
    [1024000 / weight] modulo 2^64 and asks for preemption exactly when some
    ready task is more than [kMinGranularity] behind it, reading a zero weight
    as a division by zero. *)
Theorem cfs_fairness (h : heap) (s : Cfs) (p cur n : ptr) (q : list ptr) (tc tn : TCB) :
  good h s -> cfs_queue s = p :: q -> cur <> nullptr -> h !! cur = Some tc -> cur ∉ cfs_queue s ->
  n <> nullptr -> h !! n = Some tn -> vruntime tn = 0 ->
  (exists s', PickNext s h = Ret h (s', p) /\ cfs_queue s ≡ₚ p :: cfs_queue s' /\
     (forall x, x ∈ cfs_queue s -> vruntime_of h p <= vruntime_of h x) /\
     (cfs_queue s' = [] -> min_vruntime_ s' = vruntime_of h p) /\
     (forall x, x ∈ cfs_queue s' -> min_vruntime_ s' <= vruntime_of h x) /\
     (cfs_queue s' <> [] -> exists x, x ∈ cfs_queue s' /\ min_vruntime_ s' = vruntime_of h x)) /\
  (exists h' s', Enqueue s n h = Ret h' s' /\ vruntime_of h' n = min_vruntime_ s) /\
  (if weight tc =? 0 then OnTick s cur h = Halt h DivByZero
   else
     let v := u64 (vruntime tc + 1024000 / weight tc) in
     exists h' s', OnTick s cur h = Ret h' (s', u64 (vruntime_of h p + kMinGranularity) <? v) /\
       h' = <[cur := set_vruntime v tc]> h /\ cfs_queue s' = cfs_queue s).
Proof.
  intros G Eq Hc Htc Hcn Hn Htn Hv. pose proof G as [A Hh]. rewrite Eq in A, Hh. split; [|split].
  - simpl. unfold cfs_PickNext. rewrite Eq. destruct (cfs_pop_spec h p q) as (q' & E & [A' H'] & P); [done|].
    assert (forall x r, is_heap (vruntime_after h) (x :: r) -> forall y, y ∈ x :: r ->
      vruntime_of h x <= vruntime_of h y) as Hmin.
    { intros x r Hr y [j Hj]%list_elem_of_lookup.
      pose proof (is_heap_top (vruntime_after h) (x :: r) j Hr (lookup_lt_Some _ _ _ Hj)) as X.
      rewrite (list_lookup_total_correct _ _ _ Hj) in X. by apply Z.ltb_ge in X. }
    unfold bind. rewrite E. destruct q' as [|x q']; simpl.
    + destruct (A p) as [_ [t Ht]]; [by left|]. rewrite Ht. eexists. split; [reflexivity|].
      split; [done|]. split; [by apply (Hmin p q)|]. unfold vruntime_of. rewrite Ht.
      split; [done|]. split; [by intros y ?%elem_of_nil|done].
    + destruct (A' x) as [_ [t Ht]]; [by left|]. rewrite Ht. eexists. split; [reflexivity|].
      split; [done|]. split; [by apply (Hmin p q)|]. split; [done|].
      assert (vruntime t = vruntime_of h x) as Ex by (unfold vruntime_of; by rewrite Ht).
      simpl. rewrite Ex. split; [by apply (Hmin x q')|]. intros _. exists x. split; [by left|done].
  - simpl. destruct (cfs_init_spec h s n tn Htn Hn) as (h' & t' & Ht' & C & F & Ev & _ & E).
    rewrite Hv in Ev. simpl in Ev. rewrite E. unfold cfs_push, bind.
    rewrite deref_all_alive.
    { eexists _, _. split; [reflexivity|]. unfold vruntime_of. by rewrite Ht'. }
    eapply alive_snoc; [|done|by eauto]. eapply alive_same; [exact C|]. by rewrite Eq.
  - simpl. unfold cfs_OnTick. rewrite (proj2 (Z.eqb_neq _ _) Hc). cbn [negb]. hsimp. simpl. rewrite Htc.
    destruct (weight tc =? 0); [done|]. simpl. rewrite Eq, Htc.
    assert (p <> cur) by (intros ->; apply Hcn; rewrite Eq; by left).
    destruct (A p) as [_ [t Ht]]; [by left|]. hsimp.
    assert (vruntime_of h p = vruntime t) as -> by (unfold vruntime_of; by rewrite Ht).
    unfold kDefaultWeight. simpl. destruct (_ <? _); eexists _, _; (split; [reflexivity|]); by rewrite ?Eq.
Qed.

Lemma cfs_fairness_witness :
  exists s', PickNext (MkCfs [2; 1] 0 zero_stats) sample_heap = Ret sample_heap (s', 2) /\
    [2; 1] ≡ₚ 2 :: cfs_queue s'.
Proof.
  destruct (cfs_fairness (<[4 := default_tcb]> sample_heap) (MkCfs [2; 1] 0 zero_stats) 2 3 4 [1]
    (set_vruntime 20 default_tcb) default_tcb) as [(s' & E & P & _) _].
  - split.
    + intros p Hp. change (p ∈ [2; 1]) in Hp. rewrite !elem_of_cons, elem_of_nil in Hp.
      destruct Hp as [-> |[-> | []]]; (split; [done|]); by eexists.
    + intros [|[|j]] Hj; simpl in Hj; try lia. reflexivity.
  - reflexivity.
  - done.
  - reflexivity.
  - by apply (bool_decide_unpack _).
  - done.
  - reflexivity.
  - reflexivity.
  - exists s'. split; [|exact P]. injection E as <-. reflexivity.
Defined.

End Sched.
