(* ===== verification/TaskManager.v ===== *)
(** * The task manager: src/src/task/{task_manager,schedule,tick_update,sleep,
      block,wakeup,exit,wait,clone}.cpp

    [Kernel] is the state the task manager works on: the heap of control
    blocks, the per-core scheduling data, the [PerCpu] records, the task table,
    the PID counter, and of each core the interrupt flag and the callee-saved
    registers.  Every operation takes the id of the core that runs it
    ([cpu_io::GetCurrentCoreId()]).  Logging is not modelled, but the reads of
    its arguments are where they touch freed memory. *)

From stdpp Require Import base numbers list gmap functions strings.
From Stdlib Require Import ZArith Lia.
From S2P Require Import Prelude Errors ResourceId SpinLock Tcb NkPriorityQueue NkUnorderedMap Schedulers.
Import Tcb Sched.

Local Open Scope Z_scope.

Module TaskManager.

(** ** State *)

Abbreviation SpinLock := SpinLock.SpinLock (only parsing).
Abbreviation umap := NkUnorderedMap.umap (only parsing).

Definition MAX_CORE_COUNT : nat := 4.
Definition NAILONG_KERNEL_TICK : Z := 1000.
Definition kMillisecondsPerSecond : Z := 1000.

(** Memory handed back: a kernel stack, a page directory. *)
Inductive release :=
| FreeStack (p : ptr)
| DestroyPageDirectory (p : ptr) (free_pages : bool).

(** [CpuSchedData]: the run queue of a core. *)
Record CpuSchedData := MkCpu {
  sched_lock : SpinLock;
  schedulers : list (option scheduler);
  sleeping_tasks : list ptr;
  blocked_tasks : umap Z (list ptr);
  local_tick : Z;
  idle_time : Z;
  total_schedules : Z
}.

(** [per_cpu::PerCpu] *)
Record PerCpu := MkPerCpu {
  running_task : ptr;
  idle_task : ptr
}.

(** The machine as the task manager sees it; [boot_done] and [boot_context] are
    the static locals of [Schedule]. *)
Record Kernel := MkKernel {
  tcbs : heap;
  cpus : Z -> CpuSchedData;
  percpu : Z -> PerCpu;
  task_table_lock_ : SpinLock;
  task_table_ : umap Z ptr;
  pid_allocator : Z;
  intr : Z -> bool;
  regs : Z -> Context;
  boot_done : bool;
  boot_context : Context;
  freed : list release
}.

Definition set_sched_lock (v : SpinLock) (c : CpuSchedData) : CpuSchedData :=
  MkCpu v (schedulers c) (sleeping_tasks c) (blocked_tasks c) (local_tick c) (idle_time c) (total_schedules c).
Definition set_schedulers (v : list (option scheduler)) (c : CpuSchedData) : CpuSchedData :=
  MkCpu (sched_lock c) v (sleeping_tasks c) (blocked_tasks c) (local_tick c) (idle_time c) (total_schedules c).
Definition set_sleeping_tasks (v : list ptr) (c : CpuSchedData) : CpuSchedData :=
  MkCpu (sched_lock c) (schedulers c) v (blocked_tasks c) (local_tick c) (idle_time c) (total_schedules c).
Definition set_blocked_tasks (v : umap Z (list ptr)) (c : CpuSchedData) : CpuSchedData :=
  MkCpu (sched_lock c) (schedulers c) (sleeping_tasks c) v (local_tick c) (idle_time c) (total_schedules c).
Definition set_local_tick (v : Z) (c : CpuSchedData) : CpuSchedData :=
  MkCpu (sched_lock c) (schedulers c) (sleeping_tasks c) (blocked_tasks c) v (idle_time c) (total_schedules c).
Definition set_idle_time (v : Z) (c : CpuSchedData) : CpuSchedData :=
  MkCpu (sched_lock c) (schedulers c) (sleeping_tasks c) (blocked_tasks c) (local_tick c) v (total_schedules c).
Definition set_total_schedules (v : Z) (c : CpuSchedData) : CpuSchedData :=
  MkCpu (sched_lock c) (schedulers c) (sleeping_tasks c) (blocked_tasks c) (local_tick c) (idle_time c) v.

Definition set_running_task (v : ptr) (c : PerCpu) : PerCpu :=
  MkPerCpu v (idle_task c).
Definition set_idle_task (v : ptr) (c : PerCpu) : PerCpu :=
  MkPerCpu (running_task c) v.

Definition set_tcbs (v : heap) (k : Kernel) : Kernel :=
  MkKernel v (cpus k) (percpu k) (task_table_lock_ k) (task_table_ k) (pid_allocator k) (intr k) (regs k) (boot_done k) (boot_context k) (freed k).
Definition set_cpus (v : Z -> CpuSchedData) (k : Kernel) : Kernel :=
  MkKernel (tcbs k) v (percpu k) (task_table_lock_ k) (task_table_ k) (pid_allocator k) (intr k) (regs k) (boot_done k) (boot_context k) (freed k).
Definition set_percpu (v : Z -> PerCpu) (k : Kernel) : Kernel :=
  MkKernel (tcbs k) (cpus k) v (task_table_lock_ k) (task_table_ k) (pid_allocator k) (intr k) (regs k) (boot_done k) (boot_context k) (freed k).
Definition set_task_table_lock_ (v : SpinLock) (k : Kernel) : Kernel :=
  MkKernel (tcbs k) (cpus k) (percpu k) v (task_table_ k) (pid_allocator k) (intr k) (regs k) (boot_done k) (boot_context k) (freed k).
Definition set_task_table_ (v : umap Z ptr) (k : Kernel) : Kernel :=
  MkKernel (tcbs k) (cpus k) (percpu k) (task_table_lock_ k) v (pid_allocator k) (intr k) (regs k) (boot_done k) (boot_context k) (freed k).
Definition set_pid_allocator (v : Z) (k : Kernel) : Kernel :=
  MkKernel (tcbs k) (cpus k) (percpu k) (task_table_lock_ k) (task_table_ k) v (intr k) (regs k) (boot_done k) (boot_context k) (freed k).
Definition set_intr (v : Z -> bool) (k : Kernel) : Kernel :=
  MkKernel (tcbs k) (cpus k) (percpu k) (task_table_lock_ k) (task_table_ k) (pid_allocator k) v (regs k) (boot_done k) (boot_context k) (freed k).
Definition set_regs (v : Z -> Context) (k : Kernel) : Kernel :=
  MkKernel (tcbs k) (cpus k) (percpu k) (task_table_lock_ k) (task_table_ k) (pid_allocator k) (intr k) v (boot_done k) (boot_context k) (freed k).
Definition set_boot_done (v : bool) (k : Kernel) : Kernel :=
  MkKernel (tcbs k) (cpus k) (percpu k) (task_table_lock_ k) (task_table_ k) (pid_allocator k) (intr k) (regs k) v (boot_context k) (freed k).
Definition set_boot_context (v : Context) (k : Kernel) : Kernel :=
  MkKernel (tcbs k) (cpus k) (percpu k) (task_table_lock_ k) (task_table_ k) (pid_allocator k) (intr k) (regs k) (boot_done k) v (freed k).
Definition set_freed (v : list release) (k : Kernel) : Kernel :=
  MkKernel (tcbs k) (cpus k) (percpu k) (task_table_lock_ k) (task_table_ k) (pid_allocator k) (intr k) (regs k) (boot_done k) (boot_context k) v.

Abbreviation KM A := (M Kernel A) (only parsing).

Definition hash_id (z : Z) : Z := z.

(** Operations on a part of the state. *)
Definition on_heap {A} (m : M heap A) : KM A := fun k =>
  match m (tcbs k) with
  | Ret h a => Ret (set_tcbs h k) a
  | Halt h w => Halt (set_tcbs h k) w
  end.

Definition upd_cpu (c : Z) (f : CpuSchedData -> CpuSchedData) : KM unit :=
  modify (fun k => set_cpus (<[c := f (cpus k c)]> (cpus k)) k).
Definition upd_percpu (c : Z) (f : PerCpu -> PerCpu) : KM unit :=
  modify (fun k => set_percpu (<[c := f (percpu k c)]> (percpu k)) k).
Definition put_intr (c : Z) (b : bool) : Kernel -> Kernel := fun k =>
  set_intr (<[c := b]> (intr k)) k.
Definition DisableInterrupt (c : Z) : KM unit := modify (put_intr c false).
Definition EnableInterrupt (c : Z) : KM unit := modify (put_intr c true).

(** The lock of core [d]'s run queue, taken by core [c]. *)
Definition sched_lock_m (c d : Z) : KM (Expected unit) :=
  SpinLock.lock_m (fun k => sched_lock (cpus k d))
    (fun l k => set_cpus (<[d := set_sched_lock l (cpus k d)]> (cpus k)) k)
    (fun k => intr k c) (put_intr c) c.
Definition sched_unlock_m (c d : Z) : KM (Expected unit) :=
  SpinLock.unlock_m (fun k => sched_lock (cpus k d))
    (fun l k => set_cpus (<[d := set_sched_lock l (cpus k d)]> (cpus k)) k)
    (fun k => intr k c) (put_intr c) c.
Definition sched_guard {A} (c : Z) (body : KM A) : KM A :=
  SpinLock.with_guard (fun k => sched_lock (cpus k c))
    (fun l k => set_cpus (<[c := set_sched_lock l (cpus k c)]> (cpus k)) k)
    (fun k => intr k c) (put_intr c) c body.
Definition table_guard {A} (c : Z) (body : KM A) : KM A :=
  SpinLock.with_guard task_table_lock_ set_task_table_lock_
    (fun k => intr k c) (put_intr c) c body.

Definition GetCurrentTask (c : Z) : KM ptr := gets (fun k => running_task (percpu k c)).

(** [cpu_sched.schedulers[policy]]: the array has [kPolicyCount] slots. *)
Definition scheduler_of (c : Z) (p : SchedPolicy) : KM (option scheduler) := fun k =>
  match schedulers (cpus k c) !! policy_index p with
  | Some s => Ret k s
  | None => Halt k (BadPointer (Z.of_nat (policy_index p)))
  end.
Definition put_scheduler (c : Z) (i : nat) (s : scheduler) : KM unit :=
  upd_cpu c (fun d => set_schedulers (<[i := Some s]> (schedulers d)) d).

(** [if (scheduler) scheduler->Enqueue(task)] *)
Definition enqueue_if (c : Z) (p : SchedPolicy) (task : ptr) : KM unit :=
  let* s := scheduler_of c p in
  match s with
  | None => ret tt
  | Some s => let* s' := on_heap (Enqueue s task) in put_scheduler c (policy_index p) s'
  end.

Section ops.
(** The address of the assembly routine that starts a new thread. *)
Context (kernel_thread_entry : Z).

(** ** InitCurrentCore *)

(** The critical section; [alloc] is the stack that [aligned_alloc] gave to the
    idle thread, [idle_entry] the address of [idle_thread]. *)
Definition init_core (c : Z) (trap_size : Z) (alloc : ptr) (idle_entry : Z) : KM unit :=
  let* s := scheduler_of c kNormal in
  let* _ := (match s with
             | Some _ => ret tt
             | None => upd_cpu c (set_schedulers
                 [Some (SFifo (MkFifo [] zero_stats)); Some (SRr (MkRr [] zero_stats));
                  Some (SIdle (MkIdle nullptr zero_stats))])
             end) in
  let* idle := on_heap (new_tcb
    (new_kernel_thread kernel_thread_entry trap_size alloc "Idle" INT_MAX idle_entry 0)) in
  let* _ := on_heap (upd idle (set_status kReady)) in
  let* _ := on_heap (upd idle (set_policy kIdle)) in
  let* _ := enqueue_if c kIdle idle in
  let* _ := upd_percpu c (set_idle_task idle) in
  upd_percpu c (set_running_task idle).

Definition InitCurrentCore (c : Z) (trap_size : Z) (alloc : ptr) (idle_entry : Z) : KM unit :=
  sched_guard c (init_core c trap_size alloc idle_entry).

(** ** Schedule *)

(** [if (current->status == kRunning) { ... }]: give a preempted task back. *)
Definition requeue_current (c : Z) (current : ptr) : KM unit :=
  let* t := on_heap (tcb current) in
  if bool_decide (status t = kRunning) then
    let* _ := on_heap (upd current (set_status kReady)) in
    let* s := scheduler_of c (policy t) in
    match s with
    | None => ret tt
    | Some s =>
        let i := policy_index (policy t) in
        let* r := on_heap (OnTimeSliceExpired (OnPreempted s current) current) in
        let* _ := put_scheduler c i r.1 in
        if r.2 then
          let* s' := on_heap (Enqueue r.1 current) in
          put_scheduler c i s'
        else ret tt
    end
  else ret tt.

(** The inner loop: pick until a task is [kReady]; [nullptr] when the queue
    runs out.  The idle scheduler never runs out. *)
Fixpoint pick_ready (fuel : nat) (s : scheduler) : M heap (scheduler * ptr) :=
  if IsEmpty s then ret (s, nullptr)
  else
    match fuel with
    | O => halt_with Diverges
    | S f =>
        let* r := PickNext s in
        if r.2 =? nullptr then ret r
        else
          let* t := tcb r.2 in
          if bool_decide (status t = kReady) then ret r else pick_ready f r.1
    end.

(** The loop over the schedulers in the order of the policies. *)
Fixpoint pick_next (c : Z) (i : nat) (ss : list (option scheduler)) : KM ptr :=
  match ss with
  | [] => ret nullptr
  | None :: ss' => pick_next c (S i) ss'
  | Some s :: ss' =>
      let* r := on_heap (pick_ready (S (Z.to_nat (GetQueueSize s))) s) in
      let* _ := put_scheduler c i r.1 in
      if r.2 =? nullptr then pick_next c (S i) ss' else ret r.2
  end.

(** No candidate: the current task if it can run, else the idle task, else
    park the core. *)
Definition fallback (c : Z) (current next : ptr) : KM ptr :=
  if negb (next =? nullptr) then ret next
  else
    let* t := on_heap (tcb current) in
    if bool_decide (status t = kReady) then ret current
    else
      let* idle := gets (fun k => idle_task (percpu k c)) in
      if negb (idle =? nullptr) then
        let* _ := on_heap (upd idle (set_status kReady)) in
        ret idle
      else
        let* _ := upd_cpu c (fun d => set_idle_time (u64 (idle_time d + 1)) d) in
        let* _ := sched_unlock_m c c in
        let* _ := EnableInterrupt c in
        halt_with Parked.

(** A task that cannot run must not be chosen again. *)
Definition avoid_self (c : Z) (current next : ptr) : KM ptr :=
  let* t := on_heap (tcb current) in
  if (current =? next) && negb (bool_decide (status t = kReady)) then
    let* idle := gets (fun k => idle_task (percpu k c)) in
    let* _ := nk_assert_msg (negb (idle =? nullptr) && negb (idle =? current))
                "Schedule: need idle while current is not runnable" in
    let* _ := on_heap (upd idle (set_status kReady)) in
    ret idle
  else ret next.

(** Marking the chosen task and its statistics. *)
Definition start_running (t : TCB) : TCB :=
  let t := set_status kRunning t in
  let t := on_time_slice_remaining (time_slice_default (sched_info t)) t in
  on_context_switches (u64 (context_switches (sched_info t) + 1)) t.

Definition commit (c : Z) (next : ptr) : KM unit :=
  let* _ := on_heap (upd next start_running) in
  let* _ := upd_cpu c (fun d => set_total_schedules (u64 (total_schedules d + 1)) d) in
  let* t := on_heap (tcb next) in
  let* s := scheduler_of c (policy t) in
  let* _ := (match s with
             | None => ret tt
             | Some s => put_scheduler c (policy_index (policy t)) (OnScheduled s next)
             end) in
  upd_percpu c (set_running_task next).

(** [switch_to(prev, next)]: the registers of the core go to [prev] (the boot
    context the first time) and come from [next].  A context whose return
    address is [kernel_thread_entry] starts a thread; any other one returns
    into the tail of [Schedule], which enables interrupts. *)
Definition switch_to (c : Z) (prev : option ptr) (next : ptr) : KM unit :=
  let* saved := gets (fun k => regs k c) in
  let* _ := (match prev with
             | None => modify (set_boot_context saved)
             | Some p => on_heap (upd p (set_task_context saved))
             end) in
  let* t := on_heap (tcb next) in
  let* _ := modify (fun k => set_regs (<[c := task_context t]> (regs k)) k) in
  if ra (task_context t) =? kernel_thread_entry then ret tt else EnableInterrupt c.

Definition Schedule (c : Z) : KM unit :=
  let* _ := sched_lock_m c c in
  let* current := GetCurrentTask c in
  let* _ := nk_assert_msg (negb (current =? nullptr)) "Schedule: No current task to schedule" in
  let* _ := requeue_current c current in
  let* ss := gets (fun k => schedulers (cpus k c)) in
  let* next := pick_next c 0 ss in
  let* next := fallback c current next in
  let* next := avoid_self c current next in
  let* t := on_heap (tcb current) in
  let must_leave := negb (bool_decide (status t = kReady)) in
  let* _ := nk_assert_msg (negb (next =? nullptr)) "Schedule: next task must not be null" in
  let* n := on_heap (tcb next) in
  let* _ := nk_assert_msg (bool_decide (status n = kReady)) "Schedule: next task must be kReady" in
  let* _ := nk_assert_msg (negb must_leave || negb (current =? next))
              "Schedule: must switch away from non-ready current" in
  let* _ := commit c next in
  let* _ := sched_unlock_m c c in
  let* booted := gets boot_done in
  let* _ := modify (set_boot_done true) in
  let* _ := DisableInterrupt c in
  if negb booted || negb (current =? next)
  then switch_to c (if booted then Some current else None) next
  else
    let* _ := nk_assert_msg (negb must_leave)
                "Schedule: refused no-op while current was not runnable" in
    EnableInterrupt c.

(** ** Sleeping *)

Definition wake_tick_of (h : heap) (p : ptr) : Z :=
  match h !! p with Some t => wake_tick (sched_info t) | None => 0 end.

(** [WakeTickCompare] *)
Definition wakes_after (h : heap) (a b : ptr) : bool := wake_tick_of h b <? wake_tick_of h a.

Definition sleep_push (c : Z) (task : ptr) : KM unit :=
  let* q := gets (fun k => sleeping_tasks (cpus k c)) in
  let* _ := on_heap (deref_all (q ++ [task])) in
  let* h := gets tcbs in
  upd_cpu c (set_sleeping_tasks (NkPriorityQueue.push (wakes_after h) q task)).

Definition sleep_pop (c : Z) : KM unit :=
  let* q := gets (fun k => sleeping_tasks (cpus k c)) in
  let* _ := on_heap (deref_all q) in
  let* h := gets tcbs in
  upd_cpu c (set_sleeping_tasks (NkPriorityQueue.pop (wakes_after h) q)).

(** Milliseconds to ticks, rounded up, at least one. *)
Definition sleep_ticks (ms : Z) : Z :=
  let t := u64 (ms * NAILONG_KERNEL_TICK + kMillisecondsPerSecond - 1) / kMillisecondsPerSecond in
  if t =? 0 then 1 else t.

(** The critical section of [Sleep]. *)
Definition enter_sleep (c : Z) (current : ptr) (ms : Z) : KM unit :=
  let* tick := gets (fun k => local_tick (cpus k c)) in
  let* _ := on_heap (upd current (on_wake_tick (u64 (tick + sleep_ticks ms)))) in
  let* t := on_heap (tcb current) in
  let* s := scheduler_of c (policy t) in
  let* _ := (match s with
             | None => ret tt
             | Some s => let* s' := on_heap (Dequeue s current) in
                         put_scheduler c (policy_index (policy t)) s'
             end) in
  let* _ := on_heap (upd current (set_status kSleeping)) in
  sleep_push c current.

Definition Sleep (c : Z) (ms : Z) : KM unit :=
  let* current := GetCurrentTask c in
  let* _ := nk_assert_msg (negb (current =? nullptr)) "Sleep: No current task to sleep" in
  let* t := on_heap (tcb current) in
  let* _ := nk_assert_msg (bool_decide (status t = kRunning)) "Sleep: current task status must be kRunning" in
  if ms =? 0 then Schedule c
  else
    let* _ := DisableInterrupt c in
    let* _ := sched_guard c (enter_sleep c current ms) in
    Schedule c.

(** ** TickUpdate *)

(** The loop that wakes the sleepers whose time has come. *)
Fixpoint wake_sleepers (fuel : nat) (c : Z) (current : ptr) (need : bool) : KM bool :=
  let* q := gets (fun k => sleeping_tasks (cpus k c)) in
  match NkPriorityQueue.top q with
  | None => ret need
  | Some task =>
      match fuel with
      | O => halt_with Diverges
      | S f =>
          let* t := on_heap (tcb task) in
          let* tick := gets (fun k => local_tick (cpus k c)) in
          if tick <? wake_tick (sched_info t) then ret need
          else
            let* _ := sleep_pop c in
            let* _ := on_heap (upd task (set_status kReady)) in
            let* _ := (if task =? current then ret tt else enqueue_if c (policy t) task) in
            wake_sleepers f c current true
      end
  end.

(** Statistics and time slice of the running task, and the scheduler's say. *)
Definition charge_current (c : Z) (current : ptr) (need : bool) : KM bool :=
  if current =? nullptr then ret need
  else
    let* t := on_heap (tcb current) in
    if negb (bool_decide (status t = kRunning)) then ret need
    else
      let* _ := on_heap (upd current (fun t => on_total_runtime (u64 (total_runtime (sched_info t) + 1)) t)) in
      let* _ := (if 0 <? time_slice_remaining (sched_info t)
                 then on_heap (upd current (fun t =>
                        on_time_slice_remaining (time_slice_remaining (sched_info t) - 1) t))
                 else ret tt) in
      let* s := scheduler_of c (policy t) in
      let* need := (match s with
                    | None => ret need
                    | Some s =>
                        if need then ret true
                        else
                          let* r := on_heap (OnTick s current) in
                          let* _ := put_scheduler c (policy_index (policy t)) r.1 in
                          ret r.2
                    end) in
      let* t := on_heap (tcb current) in
      ret (need || (time_slice_remaining (sched_info t) =? 0)).

(** The critical section of [TickUpdate]: whether to preempt. *)
Definition tick_core (c : Z) : KM bool :=
  let* _ := upd_cpu c (fun d => set_local_tick (u64 (local_tick d + 1)) d) in
  let* current := GetCurrentTask c in
  let* q := gets (fun k => sleeping_tasks (cpus k c)) in
  let* need := wake_sleepers (length q) c current false in
  charge_current c current need.

Definition TickUpdate (c : Z) : KM unit :=
  let* need := sched_guard c (tick_core c) in
  if need then Schedule c else ret tt.

(** ** Block and Wakeup *)

(** The critical section of [Block]. *)
Definition block_current (c : Z) (current : ptr) (resource_id : ResourceId.t) : KM unit :=
  let* _ := on_heap (upd current (set_status kBlocked)) in
  let* _ := on_heap (upd current (set_blocked_on resource_id)) in
  upd_cpu c (fun d =>
    let m := NkUnorderedMap.index hash_id [] (blocked_tasks d) resource_id in
    let q := default [] (NkUnorderedMap.find hash_id m resource_id) in
    set_blocked_tasks (NkUnorderedMap.set_value hash_id m resource_id (q ++ [current])) d).

Definition Block (c : Z) (resource_id : ResourceId.t) : KM unit :=
  let* current := GetCurrentTask c in
  let* _ := nk_assert_msg (negb (current =? nullptr)) "Block: No current task to block" in
  let* t := on_heap (tcb current) in
  let* _ := nk_assert_msg (bool_decide (status t = kRunning)) "Block: current task status must be kRunning" in
  let* _ := sched_guard c (block_current c current resource_id) in
  Schedule c.

(** [while (!waiting_tasks.empty())]; the waiting list is the one in the map. *)
Fixpoint wake_waiters (c : Z) (resource_id : ResourceId.t) (waiting : list ptr) : KM unit :=
  match waiting with
  | [] => ret tt
  | task :: rest =>
      let* _ := upd_cpu c (fun d => set_blocked_tasks
                  (NkUnorderedMap.set_value hash_id (blocked_tasks d) resource_id rest) d) in
      let* t := on_heap (tcb task) in
      let* _ := nk_assert_msg (bool_decide (status t = kBlocked)) "Wakeup: task status must be kBlocked" in
      let* _ := nk_assert_msg (ResourceId.eqb (blocked_on t) resource_id)
                  "Wakeup: task blocked_on must match resource_id" in
      let* _ := on_heap (upd task (set_status kReady)) in
      let* _ := on_heap (upd task (set_blocked_on ResourceId.none)) in
      let* s := scheduler_of c (policy t) in
      let* _ := (match s with
                 | None => nk_assert_msg false "Wakeup: scheduler must not be null"
                 | Some s => let* s' := on_heap (Enqueue s task) in
                             put_scheduler c (policy_index (policy t)) s'
                 end) in
      wake_waiters c resource_id rest
  end.

(** The critical section of [Wakeup]. *)
Definition wake_resource (c : Z) (resource_id : ResourceId.t) : KM unit :=
  let* m := gets (fun k => blocked_tasks (cpus k c)) in
  match NkUnorderedMap.find hash_id m resource_id with
  | None => ret tt
  | Some waiting =>
      let* _ := wake_waiters c resource_id waiting in
      upd_cpu c (fun d => set_blocked_tasks
        (NkUnorderedMap.erase hash_id (blocked_tasks d) resource_id).1 d)
  end.

Definition Wakeup (c : Z) (resource_id : ResourceId.t) : KM unit :=
  sched_guard c (wake_resource c resource_id).

(** ** Task table *)

Definition AllocatePid : KM Z := fun k =>
  Ret (set_pid_allocator (u64 (pid_allocator k + 1)) k) (pid_allocator k).

Definition FindTask (c : Z) (p : Z) : KM ptr :=
  table_guard c (gets (fun k => default nullptr (NkUnorderedMap.find hash_id (task_table_ k) p))).

(** The first core of the affinity mask, or the calling core. *)
Fixpoint first_core (aff : Z) (n : nat) (core_id : Z) (dflt : Z) : Z :=
  match n with
  | O => dflt
  | S n' => if negb (Z.land aff (Z.shiftl 1 core_id) =? 0) then core_id
            else first_core aff n' (core_id + 1) dflt
  end.

Definition target_core (c : Z) (aff : Z) : Z :=
  if aff =? UINT64_MAX then c else first_core aff MAX_CORE_COUNT 0 c.

(** The pid, and the group id of a task that has none. *)
Definition assign_ids (task : ptr) : KM unit :=
  let* t := on_heap (tcb task) in
  let* _ := (if pid t =? 0
             then let* p := AllocatePid in on_heap (upd task (set_pid p))
             else ret tt) in
  let* t := on_heap (tcb task) in
  if tgid t =? 0 then on_heap (upd task (set_tgid (pid t))) else ret tt.

(** [Lock], [Enqueue], [UnLock] on the run queue of core [d]; the results of
    [Lock] and [UnLock] are ignored. *)
Definition enqueue_on (c d : Z) (pol : SchedPolicy) (task : ptr) : KM unit :=
  let* _ := sched_lock_m c d in
  let* _ := (if (policy_index pol <? policy_index kPolicyCount)%nat then enqueue_if d pol task else ret tt) in
  let* _ := sched_unlock_m c d in
  ret tt.

(** The test for a preemption at the end of the C++ function has an empty body
    and is left out. *)
Definition AddTask (c : Z) (task : ptr) : KM unit :=
  let* _ := nk_assert_msg (negb (task =? nullptr)) "AddTask: task must not be null" in
  let* t := on_heap (tcb task) in
  let* _ := nk_assert_msg (bool_decide (status t = kUnInit)) "AddTask: task status must be kUnInit" in
  let* _ := assign_ids task in
  let* t := on_heap (tcb task) in
  let* _ := table_guard c (modify (fun k =>
    set_task_table_ (NkUnorderedMap.assign hash_id nullptr (task_table_ k) (pid t) task) k)) in
  let* _ := on_heap (upd task (set_status kReady)) in
  let* t := on_heap (tcb task) in
  enqueue_on c (target_core c (cpu_affinity t)) (policy t) task.

(** [delete task]: the destructor leaves the thread group, frees the kernel
    stack, and destroys the page table (its pages unless the address space was
    cloned with [kCloneVm]). *)
Definition delete_task (task : ptr) : KM unit :=
  let* _ := on_heap (LeaveThreadGroup task) in
  let* t := on_heap (tcb task) in
  let* _ := (if kernel_stack t =? nullptr then ret tt
             else modify (fun k => set_freed (freed k ++ [FreeStack (kernel_stack t)]) k)) in
  let* _ := (if page_table t =? nullptr then ret tt
             else modify (fun k => set_freed (freed k ++
               [DestroyPageDirectory (page_table t) (Z.land (clone_flags t) kCloneVm =? 0)]) k)) in
  on_heap (free_tcb task).

Definition ReapTask (c : Z) (task : ptr) : KM unit :=
  if task =? nullptr then ret tt
  else
    let* t := on_heap (tcb task) in
    if negb (bool_decide (status t = kZombie)) && negb (bool_decide (status t = kExited)) then ret tt
    else
      let* _ := table_guard c (modify (fun k =>
        set_task_table_ (NkUnorderedMap.erase hash_id (task_table_ k) (pid t)).1 k)) in
      let* _ := delete_task task in
      (* klog::Debug(..., task->pid) *)
      let* _ := on_heap (tcb task) in
      ret tt.

Definition kInitPid : Z := 1.

(** The loops over the task table. *)
Fixpoint reparent_loop (parent : ptr) (l : list (Z * ptr)) : M heap unit :=
  match l with
  | [] => ret tt
  | (_, task) :: l' =>
      let* _ := (if task =? nullptr then ret tt
                 else
                   let* t := tcb task in
                   let* p := tcb parent in
                   if parent_pid t =? pid p then upd task (set_parent_pid kInitPid) else ret tt) in
      reparent_loop parent l'
  end.

Definition ReparentChildren (c : Z) (parent : ptr) : KM unit :=
  if parent =? nullptr then ret tt
  else table_guard c (
    let* m := gets task_table_ in
    on_heap (reparent_loop parent (NkUnorderedMap.elements m))).

Fixpoint thread_group_loop (group_id : Z) (l : list (Z * ptr)) : M heap (list ptr) :=
  match l with
  | [] => ret []
  | (_, task) :: l' =>
      if task =? nullptr then thread_group_loop group_id l'
      else
        let* t := tcb task in
        let* r := thread_group_loop group_id l' in
        ret (if tgid t =? group_id then task :: r else r)
  end.

Definition GetThreadGroup (c : Z) (group_id : Z) : KM (list ptr) :=
  table_guard c (
    let* m := gets task_table_ in
    on_heap (thread_group_loop group_id (NkUnorderedMap.elements m))).

(** ** Exit *)

(** The critical section of [Exit]: the exit code and the thread group, then
    the notification of the parent or the release of an orphan. *)
Definition exit_group (c : Z) (current : ptr) (code : Z) : KM unit :=
  let* _ := on_heap (upd current (set_exit_code code)) in
  let* t := on_heap (tcb current) in
  let is_group_leader := IsThreadGroupLeader t in
  let* _ := (if is_group_leader
             then let* _ := on_heap (GetThreadGroupSize current) in ret tt
             else ret tt) in
  let* _ := on_heap (LeaveThreadGroup current) in
  if is_group_leader then ReparentChildren c current else ret tt.

Definition leave_core (c : Z) (current : ptr) (code : Z) : KM unit :=
  let* _ := exit_group c current code in
  let* t := on_heap (tcb current) in
  if negb (parent_pid t =? 0) then
    let* _ := on_heap (upd current (set_status kZombie)) in
    Wakeup c (ResourceId.mk ResourceId.kChildExit (parent_pid t))
  else
    let* _ := on_heap (upd current (set_status kExited)) in
    ReapTask c current.

Definition Exit (c : Z) (code : Z) : KM unit :=
  let* current := GetCurrentTask c in
  let* _ := nk_assert_msg (negb (current =? nullptr)) "Exit: No current task to exit" in
  let* t := on_heap (tcb current) in
  let* _ := nk_assert_msg (bool_decide (status t = kRunning)) "Exit: current task status must be kRunning" in
  let* _ := sched_guard c (leave_core c current code) in
  Schedule c.

(** ** Wait *)

(** [Pid] is unsigned, so [pid > 0] holds whenever the two tests before it
    failed. *)
Definition pid_matches (p : Z) (cur t : TCB) : bool :=
  let is_child := parent_pid t =? pid cur in
  if p =? UINT64_MAX then is_child
  else if p =? 0 then is_child && (pgid t =? pgid cur)
  else if 0 <? p then is_child && (pid t =? p)
  else is_child && (pgid t =? u64 (- p)).

Inductive scan_result :=
| Reapable (task : ptr)       (* a zombie or exited child *)
| Stopped (p : Z)             (* untraced: a blocked child *)
| NoMatch.

Fixpoint wait_scan (p : Z) (untraced : bool) (current : ptr) (l : list (Z * ptr)) : M heap scan_result :=
  match l with
  | [] => ret NoMatch
  | (_, task) :: l' =>
      let* t := tcb task in
      let* cur := tcb current in
      if negb (pid_matches p cur t) then wait_scan p untraced current l'
      else if bool_decide (status t = kZombie) || bool_decide (status t = kExited) then ret (Reapable task)
      else if untraced && bool_decide (status t = kBlocked) then ret (Stopped (pid t))
      else wait_scan p untraced current l'
  end.

(** The outcome of one round of the loop: the returned pid and what is stored
    through [status], or the task has blocked and goes round again when it is
    woken. *)
Inductive wait_outcome :=
| Waited (p : Z) (stored : option Z)
| WaitBlocked.

Definition Wait_round (c : Z) (p : Z) (has_status no_hang untraced : bool) : KM wait_outcome :=
  let* current := GetCurrentTask c in
  let* r := table_guard c (
    let* m := gets task_table_ in
    on_heap (wait_scan p untraced current (NkUnorderedMap.elements m))) in
  match r with
  | Stopped q => ret (Waited q (if has_status then Some 0 else None))
  | Reapable target =>
      let* t := on_heap (tcb target) in
      let* cur := on_heap (tcb current) in
      let* _ := nk_assert_msg (bool_decide (status t = kZombie) || bool_decide (status t = kExited))
                  "Wait: target task must be kZombie or kExited" in
      let* _ := nk_assert_msg (parent_pid t =? pid cur) "Wait: target parent_pid must match current pid" in
      let* _ := table_guard c (
        let* m := gets task_table_ in
        let* _ := nk_assert_msg (NkUnorderedMap.contains hash_id m (pid t)) "Wait: target must exist in task_table" in
        modify (set_task_table_ (NkUnorderedMap.erase hash_id m (pid t)).1)) in
      let* _ := delete_task target in
      ret (Waited (pid t) (if has_status then Some (exit_code t) else None))
  | NoMatch =>
      if no_hang then ret (Waited 0 None)
      else
        let* cur := on_heap (tcb current) in
        let* _ := Block c (ResourceId.mk ResourceId.kChildExit (pid cur)) in
        ret WaitBlocked
  end.

Definition Wait (c : Z) (p : Z) (has_status no_hang untraced : bool) : KM wait_outcome :=
  let* current := GetCurrentTask c in
  let* _ := nk_assert_msg (negb (current =? nullptr)) "Wait: No current task" in
  let* t := on_heap (tcb current) in
  let* _ := nk_assert_msg (bool_decide (status t = kRunning)) "Wait: current task status must be kRunning" in
  Wait_round c p has_status no_hang untraced.

(** ** Clone *)

(** The registers of a trap frame that [Clone] writes. *)
Record TrapRegs := MkTrap { UserStackPointer : Z; ThreadPointer : Z; ReturnValue : Z; trap_rest : list Z }.

Definition has (flags bit : Z) : bool := negb (Z.land flags bit =? 0).

Definition complete_flags (flags : Z) : Z :=
  if has flags kCloneThread &&
     (negb (has flags kCloneVm) || negb (has flags kCloneFiles) || negb (has flags kCloneSighand))
  then Z.lor flags (Z.lor (Z.lor kCloneVm kCloneFiles) kCloneSighand)
  else flags.

(** The child block after the "basic fields" and the parent-id part. *)
Definition clone_fields (flags new_pid : Z) (par : TCB) : TCB :=
  let t := set_sched_info (sched_info par) (set_policy (policy par)
             (set_status kReady (set_name (name par) (set_pid new_pid default_tcb)))) in
  set_parent_pid (if has flags kCloneParent then parent_pid par else pid par) t.

Definition join_group (c : Z) (flags new_pid : Z) (parent child : ptr) : KM unit :=
  let* par := on_heap (tcb parent) in
  if has flags kCloneThread then
    let* _ := on_heap (upd child (fun t => set_sid (sid par) (set_pgid (pgid par) (set_tgid (tgid par) t)))) in
    if IsThreadGroupLeader par then on_heap (JoinThreadGroup child parent)
    else
      let* leader := FindTask c (tgid par) in
      if negb (leader =? nullptr) then on_heap (JoinThreadGroup child leader)
      else on_heap (upd child (set_tgid (tgid par)))
  else on_heap (upd child (fun t => set_sid (sid par) (set_pgid (pgid par) (set_tgid new_pid t)))).

(** What the heap answers to the two allocations of [Clone]: whether [operator
    new] finds memory for the control block (the kernel is compiled with
    [-fcheck-new], so that the [new] expression is null when it does not), and
    the address [aligned_alloc] returns for the kernel stack, null on failure. *)
Record CloneMemory := MkCloneMemory { block_memory : bool; stack_memory : ptr }.

Section clone.
(** The other components that [Clone] calls: the page-table copy, the two
    allocations, and the size of a trap frame. *)
Context (ClonePageDirectory : ptr -> Expected ptr) (mem : CloneMemory) (trap_size : Z).

(** The result, the parent's trap frame after the call, the child's trap frame
    and the value stored through [parent_tid] and [child_tid]. *)
Record clone_result := MkClone {
  clone_pid : Expected Z;
  clone_parent_frame : TrapRegs;
  clone_child_frame : option TrapRegs;
  clone_tid : option Z
}.

Definition clone_error (e : ErrorCode) (frame : TrapRegs) : clone_result :=
  MkClone (Unexpected e) frame None None.

(** From the address space on: the page directory, the kernel stack, the trap
    frames, the task table and the scheduler. *)
Definition clone_memory (c flags user_stack tls : Z) (frame : TrapRegs) (new_pid : Z) (par : TCB) (child : ptr)
    : KM clone_result :=
  let pt := if has flags kCloneVm then Value (page_table par)
            else if page_table par =? nullptr then Value nullptr
            else ClonePageDirectory (page_table par) in
  match pt with
  | inr _ =>
      let* _ := delete_task child in ret (clone_error kTaskPageTableCloneFailed frame)
  | inl pt =>
      let* _ := on_heap (upd child (set_page_table pt)) in
      if stack_memory mem =? nullptr then
        let* _ := (if negb (pt =? nullptr) && negb (has flags kCloneVm)
                   then modify (fun k => set_freed (freed k ++ [DestroyPageDirectory pt false]) k)
                   else ret tt) in
        let* _ := delete_task child in
        ret (clone_error kTaskKernelStackAllocationFailed frame)
      else
        let* _ := on_heap (upd child (set_kernel_stack (stack_memory mem))) in
        let* _ := on_heap (upd child (set_trap_context_ptr
                    (u64 (stack_memory mem + kDefaultKernelStackSize - trap_size)))) in
        let child_frame := MkTrap
          (if user_stack =? 0 then UserStackPointer frame else user_stack)
          (if tls =? 0 then ThreadPointer frame else tls) 0 (trap_rest frame) in
        let parent_frame := MkTrap (UserStackPointer frame) (ThreadPointer frame) new_pid (trap_rest frame) in
        let* _ := table_guard c (
          let* m := gets task_table_ in
          let* _ := nk_assert_msg (negb (NkUnorderedMap.contains hash_id m new_pid))
                      "Clone: new_pid must not exist in task_table" in
          modify (set_task_table_ (NkUnorderedMap.assign hash_id nullptr m new_pid child))) in
        let* _ := AddTask c child in
        ret (MkClone (Value new_pid) parent_frame (Some child_frame) (Some new_pid))
  end.

Definition Clone (c : Z) (flags user_stack tls : Z) (frame : TrapRegs) : KM clone_result :=
  let* parent := GetCurrentTask c in
  if parent =? nullptr then ret (clone_error kTaskNoCurrentTask frame)
  else
    let flags := complete_flags flags in
    let* new_pid := AllocatePid in
    if new_pid =? 0 then ret (clone_error kTaskPidAllocationFailed frame)
    else if negb (block_memory mem) then ret (clone_error kTaskAllocationFailed frame)
    else
      let* par := on_heap (tcb parent) in
      let* child := on_heap (new_tcb (clone_fields flags new_pid par)) in
      let* _ := join_group c flags new_pid parent child in
      let* _ := on_heap (upd child (set_clone_flags flags)) in
      clone_memory c flags user_stack tls frame new_pid par child.
End clone.

End ops.
End TaskManager.
