(* ===== verification/KernelInv.v ===== *)
(** * The invariant of a core and the correctness of Schedule

    [core_ok] ties the status of every task to the one place where its pointer
    is kept: ready tasks in the queue of their policy, sleepers in the heap of
    wake times, blocked tasks in the list of their resource.  [Schedule] is
    shown to implement the abstract run queue [take_next (give_back ...)]. *)

From stdpp Require Import base numbers list gmap functions strings.
From Stdlib Require Import ZArith Lia.
From S2P Require Import Prelude Errors ResourceId SpinLock Tcb NkPriorityQueue NkUnorderedMap Schedulers TaskManager.
Import Tcb Sched TaskManager.

Local Open Scope Z_scope.

Module KernelInv.

(** ** Executing the primitives *)

Lemma set_tcbs_id k : set_tcbs (tcbs k) k = k.
Proof. by destruct k. Qed.

Lemma on_heap_tcb k p t : tcbs k !! p = Some t -> on_heap (tcb p) k = Ret k t.
Proof. intros E. unfold on_heap. simpl. by rewrite E, set_tcbs_id. Qed.

Lemma on_heap_upd k p t f :
  tcbs k !! p = Some t -> on_heap (upd p f) k = Ret (set_tcbs (<[p := f t]> (tcbs k)) k) tt.
Proof. intros E. unfold on_heap. simpl. by rewrite E. Qed.

Lemma on_heap_ret {A} k h (m : M heap A) a :
  m (tcbs k) = Ret h a -> on_heap m k = Ret (set_tcbs h k) a.
Proof. intros E. unfold on_heap. by rewrite E. Qed.

(** What an operation of core [c] leaves alone: the other cores' data, the
    task table and its lock, and the allocators. *)
Record frame (c : Z) (k k' : Kernel) : Prop := {
  frame_cpus : forall d, d <> c -> cpus k' d = cpus k d;
  frame_percpu : forall d, d <> c -> percpu k' d = percpu k d;
  frame_intr : forall d, d <> c -> intr k' d = intr k d;
  frame_regs : forall d, d <> c -> regs k' d = regs k d;
  frame_table : task_table_ k' = task_table_ k;
  frame_table_lock : task_table_lock_ k' = task_table_lock_ k;
  frame_pids : pid_allocator k' = pid_allocator k;
  frame_freed : freed k' = freed k
}.

#[export] Instance frame_preorder c : PreOrder (frame c).
Proof.
  split.
  - by intros k.
  - intros k1 k2 k3 [a1 a2 a3 a4 ? ? ? ?] [b1 b2 b3 b4 ? ? ? ?].
    split; [intros d Hd..| | | |]; [by rewrite b1, a1|by rewrite b2, a2|by rewrite b3, a3
      |by rewrite b4, a4|congruence..].
Qed.

(** The pieces of the state that core [c] works on. *)
Record view (c : Z) (k : Kernel) (H : heap) (X : CpuSchedData) (P : PerCpu) : Prop := {
  view_tcbs : tcbs k = H;
  view_cpu : cpus k c = X;
  view_percpu : percpu k c = P
}.

Ltac fn_simp := rewrite ?fn_lookup_insert; rewrite ?fn_lookup_insert_ne by congruence.

Ltac solve_frame :=
  split; intros; cbn; unfold put_intr; cbn; fn_simp; reflexivity.

(** ** Locking a free lock *)

Definition free_lock (l : SpinLock.SpinLock) : Prop :=
  SpinLock.locked_ l = false /\ SpinLock.core_id_ l = SpinLock.no_core.

(** [X] with the lock held by [c]. *)
Definition held (c : Z) (i : bool) (X : CpuSchedData) : CpuSchedData :=
  set_sched_lock (SpinLock.MkSpinLock true c i) X.

Definition released (i : bool) (X : CpuSchedData) : CpuSchedData :=
  set_sched_lock (SpinLock.MkSpinLock false SpinLock.no_core i) X.

Lemma lock_free c k :
  free_lock (sched_lock (cpus k c)) ->
  exists k', sched_lock_m c c k = Ret k' (Value tt) /\ frame c k k' /\
    view c k' (tcbs k) (held c (intr k c) (cpus k c)) (percpu k c) /\ intr k' c = false /\
    regs k' = regs k /\ boot_done k' = boot_done k /\ boot_context k' = boot_context k.
Proof.
  intros [L _]. unfold sched_lock_m, SpinLock.lock_m, SpinLock.Lock. rewrite L.
  eexists. split; [reflexivity|]. split; [solve_frame|]. split; [split|]; cbn; fn_simp; auto.
Qed.

Lemma unlock_held c i k X :
  c <> SpinLock.no_core -> cpus k c = held c i X ->
  exists k', sched_unlock_m c c k = Ret k' (Value tt) /\ frame c k k' /\
    view c k' (tcbs k) (released i X) (percpu k c) /\
    intr k' c = (if i then true else intr k c) /\
    regs k' = regs k /\ boot_done k' = boot_done k /\ boot_context k' = boot_context k.
Proof.
  intros Hc E. unfold sched_unlock_m, SpinLock.unlock_m, SpinLock.UnLock, SpinLock.IsLockedByCurrentCore.
  rewrite E. cbn. rewrite Z.eqb_refl. cbn.
  eexists. split; [reflexivity|]. split; [solve_frame|]. split; [split|]; cbn; fn_simp; auto.
Qed.

Lemma released_free i X : free_lock (sched_lock (released i X)).
Proof. done. Qed.

(** ** The invariant *)

(** A live task with a status and a policy. *)
Definition task_is (H : heap) (p : ptr) (st : TaskStatus) (pol : SchedPolicy) : Prop :=
  p <> nullptr /\ exists t, H !! p = Some t /\ status t = st /\ policy t = pol.

(** Tasks that run under a queueing scheduler. *)
Definition user_policy (pol : SchedPolicy) : Prop := pol = kRealTime \/ pol = kNormal.

Record queue_ok (H : heap) (pol : SchedPolicy) (q : list ptr) : Prop := {
  queue_nodup : NoDup q;
  queue_task : forall p, p ∈ q -> task_is H p kReady pol
}.

(** The part of the invariant about the waiting tasks. *)
Record waiting_ok (H : heap) (X : CpuSchedData) : Prop := {
  w_sleep_nodup : NoDup (sleeping_tasks X);
  w_sleep : forall p, p ∈ sleeping_tasks X -> exists pol, user_policy pol /\ task_is H p kSleeping pol;
  w_sleep_heap : NkPriorityQueue.is_heap (wakes_after H) (sleeping_tasks X);
  w_blocked_wf : NkUnorderedMap.wf hash_id (blocked_tasks X);
  w_blocked : forall rid l, NkUnorderedMap.to_map (blocked_tasks X) !! rid = Some l ->
    NoDup l /\ forall p, p ∈ l -> exists pol t, user_policy pol /\ p <> nullptr /\ H !! p = Some t /\
      status t = kBlocked /\ policy t = pol /\ blocked_on t = rid
}.

Record core_ok (H : heap) (X : CpuSchedData) (P : PerCpu) (f : Fifo) (r : RoundRobin) (i : Idle) : Prop := {
  ok_scheds : schedulers X = [Some (SFifo f); Some (SRr r); Some (SIdle i)];
  ok_idle : idle_task_ i = idle_task P;
  ok_idle_task : task_is H (idle_task P) kReady kIdle \/
                 task_is H (idle_task P) kRunning kIdle /\ running_task P = idle_task P;
  ok_fifo : queue_ok H kRealTime (fifo_queue f);
  ok_rr : queue_ok H kNormal (rr_queue r);
  ok_running : exists t, H !! running_task P = Some t /\ running_task P <> nullptr /\
    (running_task P = idle_task P \/ user_policy (policy t) /\ status t <> kReady);
  ok_waiting : waiting_ok H X
}.

(** The core between two operations: the lock is free and the pieces fit. *)
Definition kinv (c : Z) (k : Kernel) : Prop :=
  c <> SpinLock.no_core /\ free_lock (sched_lock (cpus k c)) /\
  exists f r i, core_ok (tcbs k) (cpus k c) (percpu k c) f r i.

(** ** The abstract run queue *)

Record runq := MkRunq { rt : list ptr; nm : list ptr }.

(** A task that becomes ready goes to the tail of its class. *)
Definition push_class (pol : SchedPolicy) (p : ptr) (q : runq) : runq :=
  match pol with
  | kRealTime => MkRunq (rt q ++ [p]) (nm q)
  | kNormal => MkRunq (rt q) (nm q ++ [p])
  | _ => q
  end.

(** A preempted task is ready again; a task that waits or has ended is not. *)
Definition give_back (cur : ptr) (t : TCB) (q : runq) : runq :=
  if bool_decide (status t = kRunning) then push_class (policy t) cur q else q.

(** The head of the highest non-empty class, or the idle task. *)
Definition take_next (idle : ptr) (q : runq) : ptr * runq :=
  match rt q, nm q with
  | x :: l, n => (x, MkRunq l n)
  | [], x :: l => (x, MkRunq [] l)
  | [], [] => (idle, q)
  end.

(** ** Stability of the invariant under updates of one block *)

Definition off (p : ptr) (H H' : heap) : Prop := forall q, q <> p -> H' !! q = H !! q.

Lemma off_insert p t H : off p H (<[p := t]> H).
Proof. intros q Hq. by apply lookup_insert_ne. Qed.

Lemma task_is_off p H H' q st pol : off p H H' -> q <> p -> task_is H q st pol -> task_is H' q st pol.
Proof. intros O Hq [Hz (t & E & ?)]. split; [done|]. exists t. by rewrite O. Qed.

Lemma task_is_status H p st pol t : task_is H p st pol -> H !! p = Some t -> status t = st /\ policy t = pol.
Proof. intros [_ (t' & E & ? & ?)] E'. by simplify_eq. Qed.

Lemma queue_ok_off p H H' pol q : off p H H' -> p ∉ q -> queue_ok H pol q -> queue_ok H' pol q.
Proof.
  intros O Hp [N T]. split; [done|]. intros x Hx. eapply task_is_off; [done| |by apply T]. by intros ->.
Qed.

Lemma queue_ok_snoc H pol q p : queue_ok H pol q -> p ∉ q -> task_is H p kReady pol -> queue_ok H pol (q ++ [p]).
Proof.
  intros [N T] Hp Ht. split.
  - apply NoDup_app. split; [done|]. split; [|apply NoDup_singleton].
    intros x Hx ->%list_elem_of_singleton. done.
  - intros x [Hx| ->%list_elem_of_singleton]%elem_of_app; auto.
Qed.

Lemma queue_ok_tail H pol x q : queue_ok H pol (x :: q) -> queue_ok H pol q /\ x ∉ q.
Proof.
  intros [N T]. apply NoDup_cons in N as [Hx N]. split; [|done]. split; [done|].
  intros y Hy. apply T. by right.
Qed.

Lemma queue_not H pol q p t : queue_ok H pol q -> H !! p = Some t -> status t <> kReady -> p ∉ q.
Proof. intros [_ T] E Hs Hp. by destruct (task_is_status _ _ _ _ _ (T p Hp) E). Qed.

Lemma queue_policy_not H pol q p t : queue_ok H pol q -> H !! p = Some t -> policy t <> pol -> p ∉ q.
Proof. intros [_ T] E Hs Hp. by destruct (task_is_status _ _ _ _ _ (T p Hp) E). Qed.

(** The heap of sleepers only reads the members' wake ticks. *)
Lemma sleep_heap_ext H H' q :
  (forall p, p ∈ q -> wake_tick_of H' p = wake_tick_of H p) ->
  NkPriorityQueue.is_heap (wakes_after H) q -> NkPriorityQueue.is_heap (wakes_after H') q.
Proof.
  intros E Hh j Hj. specialize (Hh j Hj). unfold wakes_after in *.
  assert (forall n, (n < length q)%nat -> q !!! n ∈ q) as Hin.
  { intros n Hn. eapply list_elem_of_lookup_2, list_lookup_lookup_total_lt. done. }
  rewrite !E; [done|apply Hin; pose proof (NkPriorityQueue.parent_lt j); lia|apply Hin; lia].
Qed.

(** A block that is neither sleeping nor blocked may change freely. *)
Lemma waiting_off p H H' X X' t :
  waiting_ok H X -> off p H H' -> H !! p = Some t -> status t <> kSleeping -> status t <> kBlocked ->
  sleeping_tasks X' = sleeping_tasks X -> blocked_tasks X' = blocked_tasks X -> waiting_ok H' X'.
Proof.
  intros [N S Hh W B] O E Hs Hb E1 E2.
  assert (forall q, q ∈ sleeping_tasks X -> q <> p) as Hq.
  { intros q Hin ->. destruct (S p Hin) as (pol & _ & T). by destruct (task_is_status _ _ _ _ _ T E). }
  split; rewrite ?E1, ?E2; try done.
  - intros q Hin. destruct (S q Hin) as (pol & U & T). exists pol. split; [done|].
    eapply task_is_off; eauto.
  - eapply sleep_heap_ext; [|exact Hh]. intros q Hin. unfold wake_tick_of. rewrite O; auto.
  - intros rid l Hl. destruct (B rid l Hl) as [Nl T]. split; [done|]. intros q Hin.
    destruct (T q Hin) as (pol & t' & U & Hz & Et & St & Hpol & Hon). exists pol, t'. split_and!; try done.
    rewrite O; [done|]. intros ->. by simplify_eq.
Qed.

(** ** Schedule, phase by phase *)

(** After the current task was given back: the idle task is ready, and the
    current task is ready or waiting. *)
Record mid_ok (H : heap) (X : CpuSchedData) (P : PerCpu) (f : Fifo) (r : RoundRobin) (i : Idle) : Prop := {
  mid_scheds : schedulers X = [Some (SFifo f); Some (SRr r); Some (SIdle i)];
  mid_idle : idle_task_ i = idle_task P;
  mid_idle_task : task_is H (idle_task P) kReady kIdle;
  mid_fifo : queue_ok H kRealTime (fifo_queue f);
  mid_rr : queue_ok H kNormal (rr_queue r);
  mid_waiting : waiting_ok H X
}.

(** What the phases of [Schedule] keep: registers, flags, interrupt state. *)
Definition same_machine (c : Z) (k k' : Kernel) : Prop :=
  regs k' = regs k /\ boot_done k' = boot_done k /\ boot_context k' = boot_context k /\
  intr k' c = intr k c.

#[export] Instance same_machine_preorder c : PreOrder (same_machine c).
Proof.
  split; [by intros k|]. intros k1 k2 k3 (?&?&?&?) (?&?&?&?). unfold same_machine.
  split_and!; congruence.
Qed.

Lemma put_scheduler_spec c n s k ss :
  schedulers (cpus k c) = ss ->
  exists k', put_scheduler c n s k = Ret k' tt /\ frame c k k' /\ same_machine c k k' /\
    view c k' (tcbs k) (set_schedulers (<[n := Some s]> ss) (cpus k c)) (percpu k c).
Proof.
  intros <-. eexists. split; [reflexivity|]. split; [solve_frame|]. split; [done|].
  split; cbn; fn_simp; done.
Qed.

Lemma set_tcbs_frame c H k : frame c k (set_tcbs H k) /\ same_machine c k (set_tcbs H k).
Proof. by split. Qed.

Lemma scheduler_of_spec c pol k ss s :
  schedulers (cpus k c) = ss -> ss !! policy_index pol = Some s -> scheduler_of c pol k = Ret k s.
Proof. intros <- E. unfold scheduler_of. by rewrite E. Qed.

Lemma set_schedulers_twice a b X : set_schedulers a (set_schedulers b X) = set_schedulers a X.
Proof. done. Qed.

(** The scheduler's part of giving a task back. *)
Lemma give_back_via c k n s s1 s2 h1 h2 cur ss :
  schedulers (cpus k c) = ss ->
  OnTimeSliceExpired (OnPreempted s cur) cur (tcbs k) = Ret h1 (s1, true) ->
  Enqueue s1 cur h1 = Ret h2 s2 ->
  exists k',
    (let* r := on_heap (OnTimeSliceExpired (OnPreempted s cur) cur) in
     let* _ := put_scheduler c n r.1 in
     if r.2 then let* s' := on_heap (Enqueue r.1 cur) in put_scheduler c n s' else ret tt) k = Ret k' tt /\
    frame c k k' /\ same_machine c k k' /\
    view c k' h2 (set_schedulers (<[n := Some s2]> ss) (cpus k c)) (percpu k c).
Proof.
  intros Es E1 E2. unfold bind. rewrite (on_heap_ret _ _ _ _ E1). cbn [fst snd].
  destruct (put_scheduler_spec c n s1 (set_tcbs h1 k) ss Es) as (k1 & -> & F1 & M1 & [A1 B1 C1]).
  rewrite (on_heap_ret k1 h2 _ s2) by (by rewrite A1).
  destruct (put_scheduler_spec c n s2 (set_tcbs h2 k1) (<[n := Some s1]> ss)) as (k2 & -> & F2 & M2 & [A2 B2 C2]).
  { cbn. by rewrite B1. }
  exists k2. split; [done|]. destruct (set_tcbs_frame c h1 k) as [Fa Ma], (set_tcbs_frame c h2 k1) as [Fb Mb].
  split; [exact (transitivity Fa (transitivity F1 (transitivity Fb F2)))|].
  split; [exact (transitivity Ma (transitivity M1 (transitivity Mb M2)))|].
  split; [done| |rewrite C2; cbn; by rewrite C1].
  rewrite B2. cbn. rewrite B1, list_insert_insert_eq. done.
Qed.

(** Giving back the current task. *)
Lemma requeue_spec c k H X P f r i t :
  view c k H X P -> core_ok H X P f r i -> H !! running_task P = Some t ->
  exists k' H' f' r' i', requeue_current c (running_task P) k = Ret k' tt /\
    frame c k k' /\ same_machine c k k' /\
    view c k' H' (set_schedulers [Some (SFifo f'); Some (SRr r'); Some (SIdle i')] X) P /\
    MkRunq (fifo_queue f') (rr_queue r') =
      give_back (running_task P) t (MkRunq (fifo_queue f) (rr_queue r)) /\
    mid_ok H' (set_schedulers [Some (SFifo f'); Some (SRr r'); Some (SIdle i')] X) P f' r' i' /\
    off (running_task P) H H' /\
    (exists t', H' !! running_task P = Some t' /\ task_context t' = task_context t /\
       policy t' = policy t /\ blocked_on t' = blocked_on t /\
       wake_tick (sched_info t') = wake_tick (sched_info t) /\
       status t' = if bool_decide (status t = kRunning) then kReady else status t).
Proof.
  intros [<- <- <-] [Es Ei It Qf Qr (t0 & Et0 & Hz & Hrun) W] Et.
  rewrite Et in Et0. injection Et0 as <-.
  set (cur := running_task (percpu k c)) in *. unfold requeue_current, give_back, push_class.
  cbn [bind]. rewrite (on_heap_tcb _ _ _ Et). case_bool_decide as Hst; cycle 1.
  { exists k, (tcbs k), f, r, i. split; [done|]. split; [done|]. split; [done|].
    assert (set_schedulers [Some (SFifo f); Some (SRr r); Some (SIdle i)] (cpus k c) = cpus k c) as ->.
    { rewrite <- Es. by destruct (cpus k c). }
    split; [done|]. split; [done|]. split; [|split; [done|by exists t]].
    split; try done. destruct It as [It|[It Ec]]; [done|]. exfalso. fold cur in Ec.
    rewrite Ec in Et. by destruct (task_is_status _ _ _ _ _ It Et). }
  cbn [bind]. rewrite (on_heap_upd _ _ _ _ Et). set (t1 := set_status kReady t).
  set (k1 := set_tcbs (<[cur := t1]> (tcbs k)) k).
  assert (cur ∉ fifo_queue f /\ cur ∉ rr_queue r) as [Nf Nr].
  { split; eapply queue_not; eauto; by rewrite Hst. }
  assert (schedulers (cpus k1 c) = [Some (SFifo f); Some (SRr r); Some (SIdle i)]) as Es1 by done.
  assert (forall X', sleeping_tasks X' = sleeping_tasks (cpus k c) ->
    blocked_tasks X' = blocked_tasks (cpus k c) -> forall H', off cur (tcbs k) H' -> waiting_ok H' X') as W'.
  { intros X' E1 E2 H' O. eapply waiting_off; eauto; by rewrite Hst. }
  assert (policy t <> kIdle -> cur <> idle_task (percpu k c)) as Hni.
  { intros Hp E. destruct It as [It|[It _]]; rewrite <- E in It; by destruct (task_is_status _ _ _ _ _ It Et). }
  assert (cur <> idle_task (percpu k c) -> task_is (tcbs k) (idle_task (percpu k c)) kReady kIdle) as Idle'.
  { intros Hne. by destruct It as [It|[It Ec]]. }
  assert (policy t <> kPolicyCount) as Hpc.
  { destruct Hrun as [E|[[-> | ->] _]]; [|done..]. intros Hp.
    destruct It as [It|[It _]]; rewrite <- E in It; destruct (task_is_status _ _ _ _ _ It Et); congruence. }
  destruct (set_tcbs_frame c (<[cur := t1]> (tcbs k)) k) as [F1 M1].
  destruct (policy t) eqn:Epol; [| | |done].
  - (* real time *)
    specialize (Hni ltac:(done)).
    rewrite (scheduler_of_spec c kRealTime k1 _ _ Es1 eq_refl).
    destruct (give_back_via c k1 0 (SFifo f) _ _ _ _ cur _ Es1 eq_refl eq_refl) as (k2 & E2 & F2 & M2 & V2).
    eexists k2, (<[cur := t1]> (tcbs k)), _, r, i. split; [exact E2|].
    split; [by etrans|]. split; [by etrans|]. split; [exact V2|]. split; [done|]. split.
    + split; try done.
      * eapply task_is_off; [apply off_insert|by apply not_eq_sym|]. by apply Idle'.
      * apply queue_ok_snoc; [eapply queue_ok_off; eauto using off_insert|done|].
        split; [done|]. exists t1. by rewrite lookup_insert_eq.
      * eapply queue_ok_off; eauto using off_insert.
      * by apply W', off_insert.
    + split; [apply off_insert|]. exists t1. by rewrite lookup_insert_eq.
  - (* normal *)
    specialize (Hni ltac:(done)).
    rewrite (scheduler_of_spec c kNormal k1 _ _ Es1 eq_refl).
    set (t2 := reset_slice (reset_slice t1)).
    assert (OnTimeSliceExpired (OnPreempted (SRr r) cur) cur (tcbs k1) =
      Ret (<[cur := reset_slice t1]> (tcbs k1)) (SRr (MkRr (rr_queue r) (inc_preemptions (rr_stats r))), true)) as E1.
    { simpl. unfold rr_OnTimeSliceExpired. rewrite (proj2 (Z.eqb_neq _ _) Hz). simpl.
      by rewrite lookup_insert_eq. }
    assert (Enqueue (SRr (MkRr (rr_queue r) (inc_preemptions (rr_stats r)))) cur (<[cur := reset_slice t1]> (tcbs k1))
      = Ret (<[cur := t2]> (tcbs k)) (SRr (MkRr (rr_queue r ++ [cur]) (inc_enqueues (inc_preemptions (rr_stats r)))))) as E2.
    { simpl. unfold rr_Enqueue. rewrite (proj2 (Z.eqb_neq _ _) Hz). simpl.
      rewrite lookup_insert_eq. simpl. by rewrite !insert_insert_eq. }
    destruct (give_back_via c k1 1 (SRr r) _ _ _ _ cur _ Es1 E1 E2) as (k2 & E3 & F2 & M2 & V2).
    eexists k2, (<[cur := t2]> (tcbs k)), f, _, i. split; [exact E3|].
    split; [by etrans|]. split; [by etrans|]. split; [exact V2|]. split; [done|]. split.
    + split; try done.
      * eapply task_is_off; [apply off_insert|by apply not_eq_sym|]. by apply Idle'.
      * eapply queue_ok_off; eauto using off_insert.
      * apply queue_ok_snoc; [eapply queue_ok_off; eauto using off_insert|done|].
        split; [done|]. exists t2. by rewrite lookup_insert_eq.
      * by apply W', off_insert.
    + split; [apply off_insert|]. exists t2. by rewrite lookup_insert_eq.
  - (* idle *)
    assert (cur = idle_task (percpu k c)) as Ec.
    { destruct Hrun as [E|[[E|E] _]]; [done|congruence..]. }
    rewrite (scheduler_of_spec c kIdle k1 _ _ Es1 eq_refl). cbn [bind].
    rewrite (on_heap_ret k1 (tcbs k1) _ (SIdle (MkIdle (idle_task_ i) (inc_preemptions (idle_stats i))), false)) by done.
    rewrite set_tcbs_id. cbn [fst snd policy_index].
    destruct (put_scheduler_spec c 2 (SIdle (MkIdle (idle_task_ i) (inc_preemptions (idle_stats i)))) k1 _ Es1)
      as (k2 & -> & F2 & M2 & V2).
    eexists k2, (<[cur := t1]> (tcbs k)), f, r, _. split; [reflexivity|].
    split; [by etrans|]. split; [by etrans|]. split; [exact V2|]. split; [done|]. split.
    + split; try done.
      * split; [by rewrite <- Ec|]. exists t1. rewrite <- Ec, lookup_insert_eq. done.
      * eapply queue_ok_off; eauto using off_insert.
      * eapply queue_ok_off; eauto using off_insert.
      * by apply W', off_insert.
    + split; [apply off_insert|]. exists t1. by rewrite lookup_insert_eq.
Qed.

(** The head of a well-formed queue is ready, so the inner loop stops there. *)
Lemma pick_ready_fifo H f n :
  queue_ok H kRealTime (fifo_queue f) ->
  pick_ready (S n) (SFifo f) H =
    Ret H (match fifo_queue f with
           | [] => (SFifo f, nullptr)
           | x :: q => (SFifo (MkFifo q (inc_picks (fifo_stats f))), x)
           end).
Proof.
  intros [_ T]. cbn [pick_ready]. cbn. unfold fifo_PickNext.
  destruct (fifo_queue f) as [|x q]; [done|]. destruct (T x) as [Hx (t & E & Hs & _)]; [by left|].
  cbn. rewrite (proj2 (Z.eqb_neq _ _) Hx). cbn. rewrite E. by rewrite bool_decide_eq_true_2.
Qed.

Lemma pick_ready_rr H r n :
  queue_ok H kNormal (rr_queue r) ->
  pick_ready (S n) (SRr r) H =
    Ret H (match rr_queue r with
           | [] => (SRr r, nullptr)
           | x :: q => (SRr (MkRr q (inc_picks (rr_stats r))), x)
           end).
Proof.
  intros [_ T]. cbn [pick_ready]. cbn. unfold rr_PickNext.
  destruct (rr_queue r) as [|x q]; [done|]. destruct (T x) as [Hx (t & E & Hs & _)]; [by left|].
  cbn. rewrite (proj2 (Z.eqb_neq _ _) Hx). cbn. rewrite E. by rewrite bool_decide_eq_true_2.
Qed.

Lemma pick_ready_idle H i n :
  task_is H (idle_task_ i) kReady kIdle ->
  pick_ready (S n) (SIdle i) H = Ret H (SIdle (MkIdle (idle_task_ i) (inc_picks (idle_stats i))), idle_task_ i).
Proof.
  intros [Hx (t & E & Hs & _)]. cbn [pick_ready]. cbn. unfold idle_PickNext.
  rewrite !(proj2 (Z.eqb_neq _ _) Hx). cbn. rewrite (proj2 (Z.eqb_neq _ _) Hx). cbn. rewrite E.
  by rewrite bool_decide_eq_true_2.
Qed.

(** One round of the loop over the schedulers. *)
Lemma pick_next_step c n s ss k s' x ss0 :
  pick_ready (S (Z.to_nat (GetQueueSize s))) s (tcbs k) = Ret (tcbs k) (s', x) ->
  schedulers (cpus k c) = ss0 ->
  exists k', pick_next c n (Some s :: ss) k =
      (if x =? nullptr then pick_next c (S n) ss else ret x) k' /\
    frame c k k' /\ same_machine c k k' /\
    view c k' (tcbs k) (set_schedulers (<[n := Some s']> ss0) (cpus k c)) (percpu k c).
Proof.
  intros E Es. cbn [pick_next]. cbn [bind]. rewrite (on_heap_ret _ _ _ _ E), set_tcbs_id. cbn [fst snd].
  destruct (put_scheduler_spec c n s' k _ Es) as (k' & -> & F & M & V). exists k'.
  by split_and!.
Qed.

Lemma pick_next_spec c k H X P f r i :
  view c k H X P -> mid_ok H X P f r i ->
  exists k' next f' r' i', pick_next c 0 (schedulers (cpus k c)) k = Ret k' next /\
    frame c k k' /\ same_machine c k k' /\
    view c k' H (set_schedulers [Some (SFifo f'); Some (SRr r'); Some (SIdle i')] X) P /\
    (next, MkRunq (fifo_queue f') (rr_queue r')) =
      take_next (idle_task P) (MkRunq (fifo_queue f) (rr_queue r)) /\
    idle_task_ i' = idle_task_ i.
Proof.
  intros [<- <- <-] [Es Ei It Qf Qr W]. unfold take_next. cbn [rt nm]. rewrite Es.
  pose proof (pick_ready_fifo _ f (Z.to_nat (GetQueueSize (SFifo f))) Qf) as Pf.
  pose proof (pick_ready_rr _ r (Z.to_nat (GetQueueSize (SRr r))) Qr) as Pr.
  rewrite <- Ei in It. pose proof (pick_ready_idle _ i (Z.to_nat (GetQueueSize (SIdle i))) It) as Pi.
  destruct (fifo_queue f) as [|x q] eqn:Ef; cycle 1.
  { destruct (pick_next_step c 0 (SFifo f) [Some (SRr r); Some (SIdle i)] k _ _ _ Pf Es) as (k1 & -> & F1 & M1 & V1).
    destruct (queue_task _ _ _ Qf x) as [Hx _]; [by left|]. rewrite (proj2 (Z.eqb_neq _ _) Hx).
    eexists k1, x, _, r, i. split_and!; [done|done|done|exact V1|done|done]. }
  destruct (pick_next_step c 0 (SFifo f) [Some (SRr r); Some (SIdle i)] k _ _ _ Pf Es)
    as (k1 & -> & F1 & M1 & [A1 B1 C1]). cbn [Z.eqb nullptr].
  rewrite <- A1 in Pr, Pi, It.
  assert (schedulers (cpus k1 c) = [Some (SFifo f); Some (SRr r); Some (SIdle i)]) as Es1 by (by rewrite B1).
  destruct (rr_queue r) as [|x q] eqn:Er; cycle 1.
  { destruct (pick_next_step c 1 (SRr r) [Some (SIdle i)] k1 _ _ _ Pr Es1) as (k2 & -> & F2 & M2 & [A2 B2 C2]).
    destruct (queue_task _ _ _ Qr x) as [Hx _]; [by left|]. rewrite (proj2 (Z.eqb_neq _ _) Hx).
    eexists k2, x, f, _, i. split; [done|]. split; [by etrans|]. split; [by etrans|]. split.
    { split; [by rewrite A2|rewrite B2, B1; reflexivity|by rewrite C2]. }
    by rewrite Ef. }
  destruct (pick_next_step c 1 (SRr r) [Some (SIdle i)] k1 _ _ _ Pr Es1) as (k2 & -> & F2 & M2 & [A2 B2 C2]).
  cbn [Z.eqb nullptr]. rewrite <- A2 in Pi, It.
  assert (schedulers (cpus k2 c) = [Some (SFifo f); Some (SRr r); Some (SIdle i)]) as Es2 by (by rewrite B2, B1).
  destruct (pick_next_step c 2 (SIdle i) [] k2 _ _ _ Pi Es2) as (k3 & -> & F3 & M3 & [A3 B3 C3]).
  destruct It as [Hx _]. rewrite (proj2 (Z.eqb_neq _ _) Hx).
  eexists k3, _, f, r, _. split; [done|]. split; [exact (transitivity F1 (transitivity F2 F3))|].
  split; [exact (transitivity M1 (transitivity M2 M3))|]. split.
  { split; [by rewrite A3, A2|rewrite B3, B2, B1; reflexivity|by rewrite C3, C2]. }
  by rewrite Ef, Er, Ei.
Qed.

(** The chosen task is ready and is no longer queued. *)
Lemma take_next_ok H X P f r i f' r' next :
  mid_ok H X P f r i ->
  (next, MkRunq (fifo_queue f') (rr_queue r')) = take_next (idle_task P) (MkRunq (fifo_queue f) (rr_queue r)) ->
  exists t, H !! next = Some t /\ next <> nullptr /\ status t = kReady /\ policy t <> kPolicyCount /\
    (policy t = kIdle -> next = idle_task P) /\
    queue_ok H kRealTime (fifo_queue f') /\ queue_ok H kNormal (rr_queue r') /\
    next ∉ fifo_queue f' /\ next ∉ rr_queue r'.
Proof.
  intros [_ _ [Hi (ti & Ei & Si & Pi)] Qf Qr _] E. unfold take_next in E. cbn [rt nm] in E.
  destruct (fifo_queue f) as [|x q] eqn:Ef; [destruct (rr_queue r) as [|x q] eqn:Er|];
    injection E as -> -> ->.
  - exists ti. split_and!; try done; try congruence; by intros ?%elem_of_nil.
  - destruct (queue_task _ _ _ Qr x) as [Hx (t & Et & St & Pt)]; [by left|].
    destruct (queue_ok_tail _ _ _ _ Qr) as [Q N]. exists t. split_and!; try done; try congruence.
    by intros ?%elem_of_nil.
  - destruct (queue_task _ _ _ Qf x) as [Hx (t & Et & St & Pt)]; [by left|].
    destruct (queue_ok_tail _ _ _ _ Qf) as [Q N]. exists t. split_and!; try done; try congruence.
    eapply queue_policy_not; [exact Qr|done|]. congruence.
Qed.

(** Updates that keep what the invariant reads of a block. *)
Definition like (t t' : TCB) : Prop :=
  status t' = status t /\ policy t' = policy t /\ blocked_on t' = blocked_on t /\
  wake_tick (sched_info t') = wake_tick (sched_info t).

Definition heap_like (H H' : heap) : Prop :=
  forall p t, H !! p = Some t -> exists t', H' !! p = Some t' /\ like t t'.

Lemma heap_like_insert H p t t' : H !! p = Some t -> like t t' -> heap_like H (<[p := t']> H).
Proof.
  intros E L q u Eq. destruct (decide (q = p)) as [->|Hne].
  - rewrite lookup_insert_eq. simplify_eq. eauto.
  - rewrite lookup_insert_ne by done. exists u. by split_and!.
Qed.

Lemma task_is_like H H' p st pol : heap_like H H' -> task_is H p st pol -> task_is H' p st pol.
Proof.
  intros L [Hz (t & E & S & Po)]. split; [done|].
  destruct (L p t E) as (t' & E' & A & B & _). exists t'. split_and!; congruence.
Qed.

Lemma queue_ok_like H H' pol q : heap_like H H' -> queue_ok H pol q -> queue_ok H' pol q.
Proof. intros L [N T]. split; [done|]. intros p Hp. eapply task_is_like; eauto. Qed.

Lemma waiting_ok_like H H' X : heap_like H H' -> waiting_ok H X -> waiting_ok H' X.
Proof.
  intros L [N S Hh W B]. split; try done.
  - intros p Hp. destruct (S p Hp) as (pol & U & T). exists pol. split; [done|]. by eapply task_is_like.
  - eapply sleep_heap_ext; [|exact Hh]. intros p Hp. destruct (S p Hp) as (pol & _ & _ & t & E & _).
    destruct (L p t E) as (t' & E' & _ & _ & _ & Wk). unfold wake_tick_of. by rewrite E, E'.
  - intros rid l Hl. destruct (B rid l Hl) as [Nl T]. split; [done|]. intros p Hp.
    destruct (T p Hp) as (pol & t & U & Hz & E & St & Po & On).
    destruct (L p t E) as (t' & E' & A1 & A2 & A3 & _). exists pol, t'. split_and!; congruence.
Qed.

Lemma core_ok_like H H' X P f r i : heap_like H H' -> core_ok H X P f r i -> core_ok H' X P f r i.
Proof.
  intros L [Es Ei It Qf Qr (t & Et & Hz & Hr) W]. split; try done.
  - destruct It as [It|[It Ec]]; [left|right; split; [|done]]; by eapply task_is_like.
  - by eapply queue_ok_like.
  - by eapply queue_ok_like.
  - destruct (L _ t Et) as (t' & E' & A1 & A2 & _). exists t'. split_and!; try done. by rewrite A1, A2.
  - by eapply waiting_ok_like.
Qed.

(** Marking the chosen task. *)
Lemma commit_spec c k H X P f r i next t :
  view c k H X P -> schedulers X = [Some (SFifo f); Some (SRr r); Some (SIdle i)] ->
  H !! next = Some t -> policy t <> kPolicyCount ->
  exists k', commit c next k = Ret k' tt /\ frame c k k' /\ same_machine c k k' /\
    view c k' (<[next := start_running t]> H)
      (set_total_schedules (u64 (total_schedules X + 1)) X) (set_running_task next P).
Proof.
  intros [<- <- <-] Es Et Hp. unfold commit. cbn [bind]. rewrite (on_heap_upd _ _ _ _ Et).
  cbn [bind upd_cpu modify]. unfold upd_cpu, modify. cbn [bind].
  set (k2 := set_cpus _ _).
  assert (tcbs k2 !! next = Some (start_running t)) as Et2 by (cbn; by rewrite lookup_insert_eq).
  rewrite (on_heap_tcb _ _ _ Et2). cbn [bind].
  assert (schedulers (cpus k2 c) = [Some (SFifo f); Some (SRr r); Some (SIdle i)]) as Es2.
  { cbn. rewrite fn_lookup_insert. cbn. exact Es. }
  assert (exists s, schedulers (cpus k2 c) !! policy_index (policy t) = Some (Some s) /\ OnScheduled s next = s) as (s & Hs & Ho).
  { rewrite Es2. destruct (policy t); try done; by eexists. }
  change (policy (start_running t)) with (policy t).
  rewrite (scheduler_of_spec c (policy t) k2 _ _ eq_refl Hs). cbn [bind]. rewrite Ho.
  destruct (put_scheduler_spec c (policy_index (policy t)) s k2 _ eq_refl) as (k3 & -> & F3 & M3 & [A3 B3 C3]).
  rewrite list_insert_id in B3 by done.
  eexists. split; [reflexivity|]. split; [|split].
  - etrans; [|etrans; [exact F3|solve_frame]]. solve_frame.
  - exact M3.
  - split; cbn; fn_simp.
    + rewrite A3. done.
    + rewrite B3. cbn. fn_simp. by destruct (cpus k c).
    + by rewrite C3.
Qed.

(** The invariant after the chosen task was marked. *)
Lemma commit_ok H X P f r i f' r' i' next X' t :
  mid_ok H X P f r i ->
  (next, MkRunq (fifo_queue f') (rr_queue r')) = take_next (idle_task P) (MkRunq (fifo_queue f) (rr_queue r)) ->
  idle_task_ i' = idle_task_ i -> H !! next = Some t ->
  schedulers X' = [Some (SFifo f'); Some (SRr r'); Some (SIdle i')] ->
  sleeping_tasks X' = sleeping_tasks X -> blocked_tasks X' = blocked_tasks X ->
  core_ok (<[next := start_running t]> H) X' (set_running_task next P) f' r' i'.
Proof.
  intros Hm E Ei Et Es E1 E2.
  destruct (take_next_ok _ _ _ _ _ _ _ _ _ Hm E) as (t0 & Et0 & Hz & St & Hp & Hid & Qf & Qr & Nf & Nr).
  rewrite Et in Et0. injection Et0 as <-. destruct Hm as [_ Hi It _ _ W].
  split; cbn; try done.
  - congruence.
  - destruct (decide (next = idle_task P)) as [Hn|Hne].
    + right. split; [|done]. rewrite <- Hn. split; [done|]. exists (start_running t).
      rewrite lookup_insert_eq. split_and!; try done.
      destruct It as [_ (ti & Eti & _ & Pi)]. rewrite <- Hn in Eti. by simplify_eq.
    + left. eapply task_is_off; [apply off_insert|by apply not_eq_sym|done].
  - by eapply queue_ok_off; [apply off_insert| |].
  - by eapply queue_ok_off; [apply off_insert| |].
  - exists (start_running t). rewrite lookup_insert_eq. split_and!; try done.
    destruct (policy t) eqn:Ep; [right; split; [by left|done]|right; split; [by right|done]|left; auto|done].
  - eapply waiting_off; [exact W|apply off_insert|exact Et|..]; congruence.
Qed.

(** The invariant reads three fields of the run queue. *)
Lemma core_ok_cpu H X X' P f r i :
  schedulers X' = schedulers X -> sleeping_tasks X' = sleeping_tasks X ->
  blocked_tasks X' = blocked_tasks X -> core_ok H X P f r i -> core_ok H X' P f r i.
Proof.
  intros E1 E2 E3 [Es Ei It Qf Qr R [N S Hh W B]]. split; try done; [congruence|].
  split; rewrite ?E2, ?E3; done.
Qed.

Lemma fallback_some c cur next k : next <> nullptr -> fallback c cur next k = Ret k next.
Proof. intros Hn. unfold fallback. by rewrite (proj2 (Z.eqb_neq _ _) Hn). Qed.

Lemma avoid_self_ready c cur next k t :
  tcbs k !! cur = Some t -> (cur = next -> status t = kReady) -> avoid_self c cur next k = Ret k next.
Proof.
  intros E Hr. unfold avoid_self. cbn [bind]. rewrite (on_heap_tcb _ _ _ E).
  destruct (Z.eqb_spec cur next) as [Heq|]; [|done]. by rewrite bool_decide_eq_true_2 by auto.
Qed.

(** The tail of [Schedule]: from the commit to the context switch. *)
Definition switched (k : Kernel) (cur next : ptr) : bool := negb (boot_done k) || negb (cur =? next).

(** How the registers, the interrupt flag and the saved contexts come out. *)
Record contexts (entry c : Z) (cur next : ptr) (k k' : Kernel) (cctx nctx : Context) : Prop := {
  ctx_regs : regs k' c = if switched k cur next then nctx else regs k c;
  ctx_intr : intr k' c = if switched k cur next then negb (ra nctx =? entry) else true;
  ctx_boot : boot_done k' = true;
  ctx_saved : exists t, tcbs k' !! cur = Some t /\
    task_context t = if boot_done k && negb (cur =? next) then regs k c else cctx;
  ctx_boot_saved : boot_context k' = if boot_done k then boot_context k else regs k c
}.

Definition finish (entry c : Z) (cur next : ptr) (must_leave : bool) : KM unit :=
  let* booted := gets boot_done in
  let* _ := modify (set_boot_done true) in
  let* _ := DisableInterrupt c in
  if negb booted || negb (cur =? next)
  then switch_to entry c (if booted then Some cur else None) next
  else
    let* _ := nk_assert_msg (negb must_leave)
                "Schedule: refused no-op while current was not runnable" in
    EnableInterrupt c.

Lemma finish_spec entry c cur next ml k tc tn :
  tcbs k !! cur = Some tc -> tcbs k !! next = Some tn -> (cur = next -> ml = false) ->
  exists k', finish entry c cur next ml k = Ret k' tt /\ frame c k k' /\
    heap_like (tcbs k) (tcbs k') /\ off cur (tcbs k) (tcbs k') /\ cpus k' = cpus k /\ percpu k' = percpu k /\
    contexts entry c cur next k k' (task_context tc) (task_context tn).
Proof.
  intros Ec En Hm. unfold finish, switched. cbn [bind gets modify DisableInterrupt].
  destruct (boot_done k) eqn:Eb; cbn [negb orb]; [destruct (Z.eqb_spec cur next) as [<-|Hne]; cbn [negb]|].
  - rewrite Hm by done. cbn. eexists. split; [reflexivity|]. split; [solve_frame|].
    split. { intros p t E. cbn. exists t. by split_and!. }
    split; [done|]. split; [done|]. split; [done|]. split; unfold switched; cbn; rewrite ?Eb, ?Z.eqb_refl; cbn; fn_simp; try done.
    by exists tc.
  - unfold switch_to. cbn [bind gets].
    match goal with |- context [on_heap (upd cur ?g) ?k1] => rewrite (on_heap_upd k1 cur tc g Ec) end.
    cbn [bind]. match goal with |- context [on_heap (tcb next) ?k1] => rewrite (on_heap_tcb k1 next tn) end.
    2: { cbn. by rewrite lookup_insert_ne. }
    cbn [bind modify]. destruct (Z.eqb_spec (ra (task_context tn)) entry) as [Hra|Hra];
      (eexists; split; [reflexivity|]; split; [solve_frame|]; split;
       [cbn; eapply heap_like_insert; [exact Ec|done]|]; split; [cbn; apply off_insert|];
       split; [done|]; split; [done|];
       split; unfold switched; cbn; rewrite ?Eb, ?(proj2 (Z.eqb_neq _ _) Hne); cbn; fn_simp; try done;
       [rewrite ?Hra, ?Z.eqb_refl, ?(proj2 (Z.eqb_neq _ _) Hra); done
       |eexists; rewrite lookup_insert_eq; split; [reflexivity|done]]).
  - unfold switch_to. cbn [bind gets modify].
    match goal with |- context [on_heap (tcb next) ?k1] => rewrite (on_heap_tcb k1 next tn) by exact En end.
    cbn [bind modify]. destruct (Z.eqb_spec (ra (task_context tn)) entry) as [Hra|Hra];
      (eexists; split; [reflexivity|]; split; [solve_frame|]; split;
       [intros p t E; cbn; exists t; by split_and!|]; split; [done|]; split; [done|]; split; [done|];
       split; unfold switched; cbn; rewrite ?Eb; cbn; fn_simp; try done;
       [rewrite ?Hra, ?Z.eqb_refl, ?(proj2 (Z.eqb_neq _ _) Hra); done|by exists tc]).
Qed.

Lemma contexts_from entry c cur next k0 k k' a b :
  regs k0 = regs k -> boot_done k0 = boot_done k -> boot_context k0 = boot_context k ->
  contexts entry c cur next k0 k' a b -> contexts entry c cur next k k' a b.
Proof.
  intros E1 E2 E3 [A B C D E]. unfold switched in *. rewrite E1, E2, ?E3 in *. by split.
Qed.

Lemma Schedule_unfold entry c :
  Schedule entry c =
  (let* _ := sched_lock_m c c in
   let* current := GetCurrentTask c in
   let* _ := nk_assert_msg (negb (current =? nullptr)) "Schedule: No current task to schedule" in
   let* _ := requeue_current c current in
   let* ss := gets (fun k => schedulers (cpus k c)) in
   let* next := pick_next c 0 ss in
   let* next := fallback c current next in
   let* next := avoid_self c current next in
   let* t := on_heap (tcb current) in
   let must_leave := negb (bool_decide (status t = kReady)) in
   let* _ := nk_assert_msg (negb (next =? nullptr)) "Schedule: next task must not be null" in
   let* n := on_heap (tcb next) in
   let* _ := nk_assert_msg (bool_decide (status n = kReady)) "Schedule: next task must be kReady" in
   let* _ := nk_assert_msg (negb must_leave || negb (current =? next))
               "Schedule: must switch away from non-ready current" in
   let* _ := commit c next in
   let* _ := sched_unlock_m c c in
   finish entry c current next must_leave).
Proof. reflexivity. Qed.

(** Everything that [Schedule] does to a core in good order. *)
Record scheduled (entry c : Z) (k k' : Kernel) (f : Fifo) (r : RoundRobin) (t : TCB)
    (next : ptr) (f' : Fifo) (r' : RoundRobin) (i' : Idle) : Prop := {
  sch_frame : frame c k k';
  sch_lock : free_lock (sched_lock (cpus k' c));
  sch_ok : core_ok (tcbs k') (cpus k' c) (percpu k' c) f' r' i';
  sch_next : (next, MkRunq (fifo_queue f') (rr_queue r')) =
    take_next (idle_task (percpu k c))
      (give_back (running_task (percpu k c)) t (MkRunq (fifo_queue f) (rr_queue r)));
  sch_running : running_task (percpu k' c) = next;
  sch_idle : idle_task (percpu k' c) = idle_task (percpu k c);
  sch_status : task_is (tcbs k') next kRunning (match tcbs k !! next with Some n => policy n | None => kIdle end);
  sch_waiting : sleeping_tasks (cpus k' c) = sleeping_tasks (cpus k c) /\
    blocked_tasks (cpus k' c) = blocked_tasks (cpus k c) /\
    local_tick (cpus k' c) = local_tick (cpus k c);
  sch_other : forall p n, p <> running_task (percpu k c) -> p <> next ->
    tcbs k !! p = Some n -> tcbs k' !! p = Some n;
  sch_cur : running_task (percpu k c) <> next -> exists t',
    tcbs k' !! running_task (percpu k c) = Some t' /\ policy t' = policy t /\ blocked_on t' = blocked_on t /\
    wake_tick (sched_info t') = wake_tick (sched_info t) /\
    status t' = if bool_decide (status t = kRunning) then kReady else status t;
  sch_contexts : exists n, tcbs k !! next = Some n /\
    contexts entry c (running_task (percpu k c)) next k k' (task_context t) (task_context n)
}.

Lemma schedule_spec entry c k f r i t :
  c <> SpinLock.no_core -> free_lock (sched_lock (cpus k c)) ->
  core_ok (tcbs k) (cpus k c) (percpu k c) f r i ->
  tcbs k !! running_task (percpu k c) = Some t ->
  exists k' next f' r' i', Schedule entry c k = Ret k' tt /\
    scheduled entry c k k' f r t next f' r' i'.
Proof.
  intros Hc Hl Hok Et. rewrite Schedule_unfold. set (cur := running_task (percpu k c)) in *.
  destruct (lock_free c k Hl) as (k1 & E1 & F1 & V1 & I1 & R1 & B1 & BC1).
  assert (cur <> nullptr) as Hz by (by destruct (ok_running _ _ _ _ _ _ Hok) as (? & _ & ? & _)).
  destruct (requeue_spec c k1 _ _ _ f r i t V1 (core_ok_cpu _ (cpus k c) (held c (intr k c) (cpus k c)) _ _ _ _ eq_refl eq_refl eq_refl Hok) Et)
    as (k2 & H2 & f2 & r2 & i2 & E2 & F2 & M2 & V2 & Q2 & Ok2 & Off2 & tc & Etc & Ctx & Pol & Bo & Wt & Stc).
  fold cur in E2, Q2, Off2, Etc.
  destruct (pick_next_spec c k2 _ _ _ _ _ _ V2 Ok2) as (k3 & next & f3 & r3 & i3 & E3 & F3 & M3 & V3 & Q3 & Ei3).
  destruct (take_next_ok _ _ _ _ _ _ _ _ _ Ok2 Q3) as (tn & Etn & Hnz & Stn & Hpol & _).
  assert (cur = next -> status tc = kReady) as Hsame by (intros <-; by simplify_eq).
  pose proof V3 as [V3a V3b V3c].
  destruct (commit_spec c k3 _ _ _ f3 r3 i3 next tn V3 eq_refl Etn Hpol) as (k4 & E4 & F4 & M4 & V4).
  pose proof V4 as [V4a V4b V4c].
  destruct (unlock_held c (intr k c) k4 (set_total_schedules (u64 (total_schedules (cpus k c) + 1))
    (set_schedulers [Some (SFifo f3); Some (SRr r3); Some (SIdle i3)] (cpus k c))) Hc)
    as (k5 & E5 & F5 & V5 & I5 & R5 & B5 & BC5); [by rewrite V4b|].
  pose proof V5 as [V5a V5b V5c]. rewrite V4a in V5a. rewrite V4c in V5c.
  assert (exists tc5, tcbs k5 !! cur = Some tc5 /\ task_context tc5 = task_context t) as (tc5 & Etc5 & Ctx5).
  { rewrite V5a. destruct (decide (cur = next)) as [Heq|Hne].
    - rewrite Heq, lookup_insert_eq. eexists. split; [reflexivity|]. rewrite Heq in Etc. simplify_eq. done.
    - rewrite lookup_insert_ne by done. by exists tc. }
  destruct (finish_spec entry c cur next (negb (bool_decide (status tc = kReady))) k5 tc5 (start_running tn))
    as (k6 & E6 & F6 & L6 & O6 & C6 & P6 & X6); [done|by rewrite V5a, lookup_insert_eq|
      intros Heq; by rewrite bool_decide_eq_true_2 by auto|].
  assert (core_ok (tcbs k5) (cpus k5 c) (percpu k5 c) f3 r3 i3) as Ok5.
  { rewrite V5a, V5b, V5c. eapply commit_ok; [exact Ok2|exact Q3|exact Ei3|exact Etn|done|done|done]. }
  exists k6, next, f3, r3, i3. split.
  { cbn [bind]. rewrite E1. cbn [bind GetCurrentTask gets].
    rewrite (view_percpu _ _ _ _ _ V1). fold cur. rewrite (proj2 (Z.eqb_neq _ _) Hz). cbn [negb nk_assert_msg bind].
    rewrite E2. cbn [bind gets]. rewrite E3. cbn [bind]. rewrite fallback_some by done. cbn [bind].
    rewrite (avoid_self_ready c cur next k3 tc) by (rewrite ?V3a; done). cbn [bind].
    rewrite (on_heap_tcb k3 cur tc) by (by rewrite V3a). cbn [bind].
    rewrite (proj2 (Z.eqb_neq _ _) Hnz). cbn [negb nk_assert_msg bind].
    rewrite (on_heap_tcb k3 next tn) by (by rewrite V3a). cbn [bind].
    rewrite bool_decide_eq_true_2 by done. cbn [nk_assert_msg bind].
    assert (negb (negb (bool_decide (status tc = kReady))) || negb (cur =? next) = true) as ->.
    { destruct (Z.eqb_spec cur next); [|by rewrite orb_true_r]. by rewrite bool_decide_eq_true_2 by auto. }
    cbn [nk_assert_msg bind]. rewrite E4. cbn [bind]. rewrite E5. cbn [bind]. exact E6. }
  split.
  - exact (transitivity F1 (transitivity F2 (transitivity F3 (transitivity F4 (transitivity F5 F6))))).
  - rewrite C6, V5b. done.
  - rewrite C6, P6. by eapply core_ok_like.
  - by rewrite Q3, Q2.
  - by rewrite P6, V5c.
  - by rewrite P6, V5c.
  - split; [done|]. destruct (L6 next (start_running tn)) as (n6 & En6 & A & B & _).
    { by rewrite V5a, lookup_insert_eq. }
    exists n6. split; [done|]. split; [done|]. rewrite B. cbn.
    destruct (decide (next = cur)) as [Heq|Hne].
    + subst next. rewrite Et. by simplify_eq.
    + rewrite Off2 in Etn by done. by rewrite Etn.
  - rewrite C6, V5b. done.
  - intros p n Hp Hpn En. fold cur in Hp. rewrite O6, V5a, lookup_insert_ne, Off2 by done. done.
  - fold cur. intros Hne. destruct (L6 cur tc) as (t6 & Et6 & A & B & C & D).
    { by rewrite V5a, lookup_insert_ne. }
    exists t6. split; [done|]. by rewrite B, C, D, A.
  - assert (contexts entry c cur next k k6 (task_context t) (task_context tn)) as Cx.
    { destruct M2 as (M2a & M2b & M2c & _), M3 as (M3a & M3b & M3c & _), M4 as (M4a & M4b & M4c & _).
      rewrite <- Ctx5. eapply (contexts_from _ _ _ _ k5); [congruence..|exact X6]. }
    destruct (decide (next = cur)) as [Heq|Hne].
    + exists t. subst next. split; [done|]. simplify_eq. by rewrite <- Ctx at 2.
    + exists tn. rewrite Off2 in Etn by done. by split.
Qed.


End KernelInv.
