(* ===== verification/KernelSpec.v ===== *)
(** * Sleeping, blocking, waking and ticking

    The operations of src/src/task/{sleep,block,wakeup,tick_update}.cpp on a
    core in good order, each against the abstract run queue, and the theorems
    about [Schedule]. *)

From stdpp Require Import base numbers list gmap functions strings.
From Stdlib Require Import ZArith Lia Sorted.
From S2P Require Import Prelude Errors ResourceId SpinLock Tcb NkPriorityQueue NkUnorderedMap Schedulers TaskManager KernelInv.
Import Tcb Sched TaskManager KernelInv.

Local Open Scope Z_scope.

Module KernelSpec.

(** ** The lock guard *)

Lemma guard_run {A} c k k1 k2 i (a : A) X2 (body : KM A) :
  c <> SpinLock.no_core -> sched_lock_m c c k = Ret k1 (Value tt) ->
  body k1 = Ret k2 a -> cpus k2 c = held c i X2 ->
  exists k3, sched_guard c body k = Ret k3 a /\ frame c k2 k3 /\
    view c k3 (tcbs k2) (released i X2) (percpu k2 c) /\
    intr k3 c = (if i then true else intr k2 c) /\
    regs k3 = regs k2 /\ boot_done k3 = boot_done k2 /\ boot_context k3 = boot_context k2.
Proof.
  intros Hc E1 E2 Hx. destruct (unlock_held c i k2 X2 Hc Hx) as (k3 & E3 & R).
  exists k3. split; [|exact R]. unfold sched_guard, SpinLock.with_guard. cbn [bind].
  unfold sched_lock_m in E1. rewrite E1. cbn [has_value bind]. rewrite E2. cbn [bind].
  unfold sched_unlock_m in E3. by rewrite E3.
Qed.

(** ** Becoming ready *)

(** Enqueueing a ready task of a queueing class. *)
Lemma enqueue_spec c k H X P f r i p t :
  view c k H X P -> schedulers X = [Some (SFifo f); Some (SRr r); Some (SIdle i)] ->
  H !! p = Some t -> p <> nullptr -> user_policy (policy t) ->
  exists k' t' f' r',
    enqueue_if c (policy t) p k = Ret k' tt /\ frame c k k' /\ same_machine c k k' /\
    view c k' (<[p := t']> H) (set_schedulers [Some (SFifo f'); Some (SRr r'); Some (SIdle i)] X) P /\
    core_of t' = core_of t /\
    MkRunq (fifo_queue f') (rr_queue r') = push_class (policy t) p (MkRunq (fifo_queue f) (rr_queue r)).
Proof.
  intros [<- <- <-] Es Et Hz U. unfold enqueue_if. cbn [bind].
  destruct U as [Hp|Hp]; rewrite Hp.
  - rewrite (scheduler_of_spec c kRealTime k _ _ Es eq_refl). cbn [bind].
    rewrite (on_heap_ret k (tcbs k) _ (SFifo (MkFifo (fifo_queue f ++ [p]) (inc_enqueues (fifo_stats f))))) by done.
    rewrite set_tcbs_id.
    destruct (put_scheduler_spec c (policy_index kRealTime) (SFifo (MkFifo (fifo_queue f ++ [p]) (inc_enqueues (fifo_stats f)))) k _ Es)
      as (k' & -> & F & M & V).
    eexists k', t, _, r. split; [done|]. split; [done|]. split; [done|].
    rewrite insert_id by done. by split; [exact V|].
  - rewrite (scheduler_of_spec c kNormal k _ _ Es eq_refl). cbn [bind].
    rewrite (on_heap_ret k (<[p := reset_slice t]> (tcbs k)) _ (SRr (MkRr (rr_queue r ++ [p]) (inc_enqueues (rr_stats r))))).
    2: { simpl. unfold rr_Enqueue. rewrite (proj2 (Z.eqb_neq _ _) Hz). simpl. by rewrite Et. }
    destruct (put_scheduler_spec c (policy_index kNormal) (SRr (MkRr (rr_queue r ++ [p]) (inc_enqueues (rr_stats r))))
      (set_tcbs (<[p := reset_slice t]> (tcbs k)) k) _ Es) as (k' & -> & F & M & V).
    destruct (set_tcbs_frame c (<[p := reset_slice t]> (tcbs k)) k) as [F0 M0].
    eexists k', (reset_slice t), f, _. split; [done|]. split; [by etrans|]. split; [by etrans|].
    by split; [exact V|].
Qed.

(** The invariant when a waiting task has become ready. *)
Lemma ready_ok H X P f r i p t t' X' f' r' :
  core_ok H X P f r i -> H !! p = Some t -> p <> nullptr -> p <> running_task P ->
  status t <> kReady -> status t <> kRunning -> user_policy (policy t) ->
  status t' = kReady -> policy t' = policy t ->
  MkRunq (fifo_queue f') (rr_queue r') = push_class (policy t) p (MkRunq (fifo_queue f) (rr_queue r)) ->
  schedulers X' = [Some (SFifo f'); Some (SRr r'); Some (SIdle i)] ->
  waiting_ok (<[p := t']> H) X' -> core_ok (<[p := t']> H) X' P f' r' i.
Proof.
  intros [Es Ei It Qf Qr (tr & Etr & Hrz & Hr) W] Et Hz Hne Sr Sn U St Sp Eq Es' W'.
  pose proof (off_insert p t' H) as Off.
  assert (p ∉ fifo_queue f) as Nf by (by eapply queue_not).
  assert (p ∉ rr_queue r) as Nr by (by eapply queue_not).
  assert (p <> idle_task P) as Ni.
  { intros ->. destruct It as [It|[It _]]; by destruct (task_is_status _ _ _ _ _ It Et). }
  assert (task_is (<[p := t']> H) p kReady (policy t)) as Tp.
  { split; [done|]. exists t'. by rewrite lookup_insert_eq. }
  assert (queue_ok (<[p := t']> H) kRealTime (fifo_queue f) /\ queue_ok (<[p := t']> H) kNormal (rr_queue r)) as [Qf' Qr'].
  { split; by eapply queue_ok_off. }
  split; try done.
  - destruct It as [It|[It Ec]]; [left|right; split; [|done]]; eapply task_is_off; eauto.
  - destruct U as [Hp|Hp]; rewrite Hp in Eq, Tp; injection Eq as Ef Er; rewrite Ef; [|done].
    by apply queue_ok_snoc.
  - destruct U as [Hp|Hp]; rewrite Hp in Eq, Tp; injection Eq as Ef Er; rewrite Er; [done|].
    by apply queue_ok_snoc.
  - exists tr. rewrite Off by done. done.
Qed.

(** ** Blocking *)

Lemma block_map (m : NkUnorderedMap.umap Z (list ptr)) rid p :
  NkUnorderedMap.wf hash_id m ->
  let m1 := NkUnorderedMap.index hash_id [] m rid in
  let q := default [] (NkUnorderedMap.find hash_id m1 rid) in
  let m' := NkUnorderedMap.set_value hash_id m1 rid (q ++ [p]) in
  NkUnorderedMap.wf hash_id m' /\
  NkUnorderedMap.to_map m' =
    <[rid := default [] (NkUnorderedMap.to_map m !! rid) ++ [p]]> (NkUnorderedMap.to_map m).
Proof.
  intros Hw. unfold NkUnorderedMap.index. rewrite (NkUnorderedMap.find_to_map hash_id m rid Hw).
  destruct (NkUnorderedMap.to_map m !! rid) as [l|] eqn:El; cbn zeta.
  - rewrite (NkUnorderedMap.find_to_map hash_id m rid Hw), El.
    apply NkUnorderedMap.set_value_spec; [done|]. by rewrite El.
  - pose proof (NkUnorderedMap.insert_spec hash_id m rid [] Hw) as Hi.
    destruct (NkUnorderedMap.insert hash_id m (rid, [])) as [m1 b]. rewrite El in Hi.
    destruct Hi as (Hw1 & _ & Hm1). cbn [fst].
    rewrite (NkUnorderedMap.find_to_map hash_id m1 rid Hw1), Hm1, lookup_insert_eq. cbn [default from_option id].
    destruct (NkUnorderedMap.set_value_spec hash_id m1 rid ([] ++ [p]) Hw1) as [A B].
    + rewrite Hm1, lookup_insert_eq. eauto.
    + split; [done|]. by rewrite B, Hm1, insert_insert_eq.
Qed.

(** A running task is in no waiting container. *)
Lemma waiting_not H X p t :
  waiting_ok H X -> H !! p = Some t -> status t = kRunning ->
  p ∉ sleeping_tasks X /\
  forall rid l, NkUnorderedMap.to_map (blocked_tasks X) !! rid = Some l -> p ∉ l.
Proof.
  intros [N S Hh W B] Et St. split.
  - intros Hp. destruct (S p Hp) as (pol & _ & T). destruct (task_is_status _ _ _ _ _ T Et). congruence.
  - intros rid l Hl Hp. destruct (B rid l Hl) as [_ T].
    destruct (T p Hp) as (pol & t' & _ & _ & Et' & St' & _). simplify_eq. congruence.
Qed.

Lemma waiting_block H X p t t' rid m' :
  waiting_ok H X -> H !! p = Some t -> p <> nullptr -> status t = kRunning -> user_policy (policy t) ->
  status t' = kBlocked -> policy t' = policy t -> blocked_on t' = rid ->
  NkUnorderedMap.wf hash_id m' ->
  NkUnorderedMap.to_map m' =
    <[rid := default [] (NkUnorderedMap.to_map (blocked_tasks X) !! rid) ++ [p]]> (NkUnorderedMap.to_map (blocked_tasks X)) ->
  waiting_ok (<[p := t']> H) (set_blocked_tasks m' X).
Proof.
  intros Hw Et Hz St U St' Pt' Bt' Wm Em. destruct (waiting_not _ _ _ _ Hw Et St) as [Ns Nb].
  destruct Hw as [N S Hh W B]. pose proof (off_insert p t' H) as Off.
  split; cbn; try done.
  - intros q Hq. destruct (S q Hq) as (pol & Up & T). exists pol. split; [done|].
    eapply task_is_off; [exact Off| |done]. by intros ->.
  - eapply sleep_heap_ext; [|exact Hh]. intros q Hq. unfold wake_tick_of. rewrite Off; [done|]. by intros ->.
  - assert (forall rid' l, NkUnorderedMap.to_map (blocked_tasks X) !! rid' = Some l ->
      NoDup l /\ forall q, q ∈ l -> exists pol t0, user_policy pol /\ q <> nullptr /\ <[p := t']> H !! q = Some t0 /\
        status t0 = kBlocked /\ policy t0 = pol /\ blocked_on t0 = rid') as Old.
    { intros rid' l Hl. destruct (B rid' l Hl) as [Nl T]. split; [done|]. intros q Hq.
      rewrite Off; [by apply T|]. intros ->. by apply (Nb rid' l). }
    intros rid' l. rewrite Em. destruct (decide (rid' = rid)) as [->|Hne].
    + rewrite lookup_insert_eq. intros [= <-].
      destruct (NkUnorderedMap.to_map (blocked_tasks X) !! rid) as [l0|] eqn:El; cbn [default from_option id].
      * destruct (Old rid l0 El) as [Nl T]. split.
        -- apply NoDup_app. split; [done|]. split; [|apply NoDup_singleton].
           intros q Hq ->%list_elem_of_singleton. by apply (Nb rid l0).
        -- intros q [Hq| ->%list_elem_of_singleton]%elem_of_app; [by apply T|].
           exists (policy t), t'. rewrite lookup_insert_eq. by split_and!.
      * split; [apply NoDup_singleton|]. intros q ->%list_elem_of_singleton.
        exists (policy t), t'. rewrite lookup_insert_eq. by split_and!.
    + rewrite lookup_insert_ne by done. apply Old.
Qed.

(** The running task stops running; the queues stay. *)
Lemma stop_ok H X X' P f r i f' r' t t' :
  core_ok H X P f r i -> H !! running_task P = Some t -> status t = kRunning ->
  running_task P <> idle_task P -> status t' <> kReady -> policy t' = policy t ->
  schedulers X' = [Some (SFifo f'); Some (SRr r'); Some (SIdle i)] ->
  fifo_queue f' = fifo_queue f -> rr_queue r' = rr_queue r ->
  waiting_ok (<[running_task P := t']> H) X' ->
  core_ok (<[running_task P := t']> H) X' P f' r' i.
Proof.
  intros [Es Ei It Qf Qr (tr & Etr & Hrz & Hr) W] Et St Hni St' Pt' Es' Ef Er W'. simplify_eq.
  pose proof (off_insert (running_task P) t' H) as Off.
  assert (running_task P ∉ fifo_queue f /\ running_task P ∉ rr_queue r) as [Nf Nr].
  { split; eapply queue_not; eauto; congruence. }
  split; try done.
  - destruct It as [It|[_ Ec]]; [|done]. left. eapply task_is_off; [exact Off|by apply not_eq_sym|done].
  - rewrite Ef. by eapply queue_ok_off.
  - rewrite Er. by eapply queue_ok_off.
  - exists t'. rewrite lookup_insert_eq. split_and!; try done. right.
    destruct Hr as [?|[U _]]; [done|]. by rewrite Pt'.
Qed.

(** What the caller of a suspending operation sees: [Schedule] ran on a core
    [k0] in which only the running task had changed. *)
Lemma block_spec entry c rid k f r i t :
  c <> SpinLock.no_core -> free_lock (sched_lock (cpus k c)) ->
  core_ok (tcbs k) (cpus k c) (percpu k c) f r i ->
  tcbs k !! running_task (percpu k c) = Some t -> status t = kRunning ->
  running_task (percpu k c) <> idle_task (percpu k c) ->
  exists k0 k' next f' r' i', Block entry c rid k = Ret k' tt /\ frame c k k0 /\
    core_ok (tcbs k0) (cpus k0 c) (percpu k0 c) f r i /\
    tcbs k0 = <[running_task (percpu k c) := set_blocked_on rid (set_status kBlocked t)]> (tcbs k) /\
    percpu k0 c = percpu k c /\ sleeping_tasks (cpus k0 c) = sleeping_tasks (cpus k c) /\
    local_tick (cpus k0 c) = local_tick (cpus k c) /\ Schedule entry c k0 = Ret k' tt /\
    NkUnorderedMap.to_map (blocked_tasks (cpus k0 c)) =
      <[rid := default [] (NkUnorderedMap.to_map (blocked_tasks (cpus k c)) !! rid) ++ [running_task (percpu k c)]]>
        (NkUnorderedMap.to_map (blocked_tasks (cpus k c))) /\
    scheduled entry c k0 k' f r (set_blocked_on rid (set_status kBlocked t)) next f' r' i'.
Proof.
  intros Hc Hl Hok Et St Hni. set (cur := running_task (percpu k c)) in *.
  destruct (lock_free c k Hl) as (k1 & E1 & F1 & [V1a V1b V1c] & I1 & R1 & B1 & BC1).
  assert (cur <> nullptr) as Hz by (by destruct (ok_running _ _ _ _ _ _ Hok) as (? & _ & ? & _)).
  assert (user_policy (policy t)) as U.
  { destruct (ok_running _ _ _ _ _ _ Hok) as (tr & Etr & _ & [?|[U _]]); [done|]. fold cur in Etr. congruence. }
  set (t2 := set_blocked_on rid (set_status kBlocked t)).
  destruct (block_map (blocked_tasks (cpus k c)) rid cur (w_blocked_wf _ _ (ok_waiting _ _ _ _ _ _ Hok))) as [Wm Em].
  set (m' := NkUnorderedMap.set_value _ _ _ _) in Wm, Em.
  set (k2 := set_cpus (<[c := set_blocked_tasks m' (cpus k1 c)]> (cpus k1)) (set_tcbs (<[cur := t2]> (tcbs k1)) k1)).
  destruct (guard_run c k k1 k2 (intr k c) tt (set_blocked_tasks m' (cpus k c))
    (block_current c cur rid) Hc E1)
    as (k3 & E3 & F3 & [V3a V3b V3c] & I3 & R3 & B3 & BC3).
  { unfold block_current. cbn [bind]. rewrite (on_heap_upd k1 cur t) by (by rewrite V1a). cbn [bind].
    rewrite (on_heap_upd _ cur (set_status kBlocked t)) by (cbn; by rewrite lookup_insert_eq).
    cbn. rewrite insert_insert_eq. unfold upd_cpu, modify, k2, m'. cbn. rewrite V1b. reflexivity. }
  { unfold k2. cbn. fn_simp. by rewrite V1b. }
  assert (frame c k k3) as F03. { etrans; [exact F1|]. etrans; [|exact F3]. unfold k2. solve_frame. }
  unfold k2 in V3a, V3c. cbn in V3a, V3c. rewrite V1a in V3a. rewrite V1c in V3c.
  assert (core_ok (tcbs k3) (cpus k3 c) (percpu k3 c) f r i) as Ok3.
  { rewrite V3a, V3b, V3c. eapply stop_ok; eauto; [apply Hok|].
    eapply (waiting_block _ (released (intr k c) (cpus k c))); eauto; [|done..].
    destruct (ok_waiting _ _ _ _ _ _ Hok) as [? ? ? ? ?]. by split. }
  destruct (schedule_spec entry c k3 f r i t2 Hc) as (k' & next & f' & r' & i' & E & Sc).
  { by rewrite V3b. } { done. } { rewrite V3c, V3a. fold cur. by rewrite lookup_insert_eq. }
  exists k3, k', next, f', r', i'. split.
  { unfold Block. cbn [bind GetCurrentTask gets]. fold cur. rewrite (proj2 (Z.eqb_neq _ _) Hz).
    cbn [negb nk_assert_msg bind]. rewrite (on_heap_tcb _ _ _ Et). cbn [bind].
    rewrite bool_decide_eq_true_2 by done. cbn [nk_assert_msg bind]. rewrite E3. cbn [bind]. exact E. }
  rewrite V3a, V3b, V3c in *. by split_and!.
Qed.

(** ** Waking *)

(** A run queue whose lock is already held by [c]. *)
Lemma held_id c i X Y : sched_lock X = sched_lock (held c i Y) -> X = held c i X.
Proof. intros E. unfold held in *. cbn in E. rewrite <- E. by destruct X. Qed.


Definition policy_of (H : heap) (p : ptr) : SchedPolicy :=
  match H !! p with Some t => policy t | None => kPolicyCount end.

(** The tasks become ready one after the other. *)
Definition push_all (H : heap) (ps : list ptr) (q : runq) : runq :=
  fold_left (fun q p => push_class (policy_of H p) p q) ps q.

Lemma push_all_ext H H' ps q :
  (forall p, p ∈ ps -> policy_of H' p = policy_of H p) -> push_all H' ps q = push_all H ps q.
Proof.
  revert q. induction ps as [|p ps IH]; intros q E; [done|]. cbn. rewrite E by (by left).
  apply IH. intros x Hx. apply E. by right.
Qed.

Lemma scheduler_user c k f r i pol :
  schedulers (cpus k c) = [Some (SFifo f); Some (SRr r); Some (SIdle i)] -> user_policy pol ->
  exists s, scheduler_of c pol k = Ret k (Some s).
Proof.
  intros Es [-> | ->]; eexists; by apply (scheduler_of_spec _ _ _ _ _ Es).
Qed.

Lemma core_of_fields t t' : core_of t' = core_of t ->
  status t' = status t /\ policy t' = policy t /\ blocked_on t' = blocked_on t /\
  wake_tick (sched_info t') = wake_tick (sched_info t).
Proof.
  intros E. split_and!; [by apply (f_equal status) in E|by apply (f_equal policy) in E
    |by apply (f_equal blocked_on) in E|by apply (f_equal (fun t => wake_tick (sched_info t))) in E].
Qed.

(** The containers after the first waiter of [rid] left its list. *)
Lemma waiting_unblock H X p rest t t' rid m' :
  waiting_ok H X -> NkUnorderedMap.to_map (blocked_tasks X) !! rid = Some (p :: rest) ->
  H !! p = Some t -> NkUnorderedMap.wf hash_id m' ->
  NkUnorderedMap.to_map m' = <[rid := rest]> (NkUnorderedMap.to_map (blocked_tasks X)) ->
  waiting_ok (<[p := t']> H) (set_blocked_tasks m' X).
Proof.
  intros [N S Hh W B] Hl Et Wm Em. pose proof (off_insert p t' H) as Off.
  destruct (B rid _ Hl) as [Nl Tl]. apply NoDup_cons in Nl as [Np Nl].
  destruct (Tl p ltac:(by left)) as (pol & t0 & _ & _ & Et0 & St0 & _ & On0). simplify_eq.
  assert (forall q, q ∈ sleeping_tasks X -> q <> p) as Hq.
  { intros q Hin ->. destruct (S p Hin) as (pl & _ & T). destruct (task_is_status _ _ _ _ _ T Et). congruence. }
  split; cbn; try done.
  - intros q Hin. destruct (S q Hin) as (pl & Up & T). exists pl. split; [done|]. eapply task_is_off; eauto.
  - eapply sleep_heap_ext; [|exact Hh]. intros q Hin. unfold wake_tick_of. rewrite Off; auto.
  - intros rid' l. rewrite Em. destruct (decide (rid' = blocked_on t)) as [->|Hne].
    + rewrite lookup_insert_eq. intros [= <-]. split; [done|]. intros q Hin.
      rewrite Off; [apply Tl; by right|]. by intros ->.
    + rewrite lookup_insert_ne by done. intros Hl'. destruct (B rid' l Hl') as [Nl' T]. split; [done|].
      intros q Hin. rewrite Off; [by apply T|]. intros ->.
      destruct (T p Hin) as (? & t1 & _ & _ & Et1 & _ & _ & On1). simplify_eq.
Qed.

Lemma wake_waiters_spec c rid P i : forall waiting k H X f r,
  view c k H X P -> core_ok H X P f r i ->
  NkUnorderedMap.to_map (blocked_tasks X) !! rid = Some waiting ->
  running_task P ∉ waiting ->
  exists k' H' X' f' r', wake_waiters c rid waiting k = Ret k' tt /\
    frame c k k' /\ same_machine c k k' /\ view c k' H' X' P /\ core_ok H' X' P f' r' i /\
    MkRunq (fifo_queue f') (rr_queue r') = push_all H waiting (MkRunq (fifo_queue f) (rr_queue r)) /\
    NkUnorderedMap.to_map (blocked_tasks X') = <[rid := []]> (NkUnorderedMap.to_map (blocked_tasks X)) /\
    sched_lock X' = sched_lock X /\ sleeping_tasks X' = sleeping_tasks X /\ local_tick X' = local_tick X /\
    (forall p, p ∈ waiting -> task_is H' p kReady (policy_of H p)) /\
    (forall p, p ∉ waiting -> H' !! p = H !! p).
Proof.
  induction waiting as [|p rest IH]; intros k H X f r V Ok Hl Hn.
  { exists k, H, X, f, r. split; [done|]. split; [done|]. split; [done|]. split; [done|]. split; [done|].
    split; [done|]. split; [by rewrite insert_id|]. split_and!; try done. by intros p ?%elem_of_nil. }
  pose proof V as [<- <- <-]. pose proof (ok_waiting _ _ _ _ _ _ Ok) as W.
  destruct (w_blocked _ _ W rid _ Hl) as [Nl Tl].
  destruct (Tl p ltac:(by left)) as (pol & t & U & Hz & Et & St & Pt & On).
  apply NoDup_cons in Nl as [Np Nl].
  destruct (NkUnorderedMap.set_value_spec hash_id (blocked_tasks (cpus k c)) rid rest (w_blocked_wf _ _ W)) as [Wm Em].
  { by rewrite Hl. }
  set (m' := NkUnorderedMap.set_value _ _ _ _) in Wm, Em.
  set (t1 := set_blocked_on ResourceId.none (set_status kReady t)).
  set (k1 := set_tcbs (<[p := t1]> (tcbs k)) (set_cpus (<[c := set_blocked_tasks m' (cpus k c)]> (cpus k)) k)).
  assert (frame c k k1 /\ same_machine c k k1) as [F1 M1]. { split; [unfold k1; solve_frame|done]. }
  assert (view c k1 (<[p := t1]> (tcbs k)) (set_blocked_tasks m' (cpus k c)) (percpu k c)) as V1.
  { split; unfold k1; cbn; fn_simp; done. }
  destruct (enqueue_spec c k1 _ _ _ f r i p t1 V1 (ok_scheds _ _ _ _ _ _ Ok)) as (k2 & t2 & f2 & r2 & E2 & F2 & M2 & V2 & C2 & Q2);
    [by rewrite lookup_insert_eq|done|by rewrite <- Pt in U|].
  change (policy t1) with (policy t) in E2, Q2. rewrite insert_insert_eq in V2.
  destruct (core_of_fields _ _ C2) as (S2 & P2 & B2 & _).
  assert (p <> running_task (percpu k c)) as Hpr by (intros ->; apply Hn; by left).
  set (X2 := set_schedulers [Some (SFifo f2); Some (SRr r2); Some (SIdle i)] (set_blocked_tasks m' (cpus k c))) in *.
  assert (waiting_ok (<[p := t2]> (tcbs k)) X2) as W2.
  { destruct (waiting_unblock _ _ p rest t t2 rid m' W Hl Et Wm Em). by split. }
  assert (core_ok (<[p := t2]> (tcbs k)) X2 (percpu k c) f2 r2 i) as Ok2.
  { eapply ready_ok; eauto; try congruence. }
  assert (forall x, x <> p -> policy_of (<[p := t2]> (tcbs k)) x = policy_of (tcbs k) x) as Po.
  { intros x Hx. unfold policy_of. by rewrite lookup_insert_ne. }
  destruct (IH k2 _ _ f2 r2 V2 Ok2) as (k3 & H3 & X3 & f3 & r3 & E3 & F3 & M3 & V3 & Ok3 & Q3 & Em3 & L3 & S3 & T3 & R3 & O3).
  { change (blocked_tasks X2) with m'. by rewrite Em, lookup_insert_eq. } { intros Hin. apply Hn. by right. }
  exists k3, H3, X3, f3, r3. split.
  { cbn [wake_waiters bind upd_cpu modify]. unfold upd_cpu, modify. cbn [bind].
    fold m'. set (ka := set_cpus _ k). rewrite (on_heap_tcb ka p t Et). cbn [bind].
    rewrite bool_decide_eq_true_2 by done. unfold ResourceId.eqb. rewrite On, Z.eqb_refl. cbn [nk_assert_msg bind].
    rewrite (on_heap_upd ka p t _ Et). cbn [bind].
    rewrite (on_heap_upd _ p (set_status kReady t)) by (cbn; by rewrite lookup_insert_eq). cbn [bind].
    change (tcbs (set_tcbs ?h ?q)) with h. rewrite insert_insert_eq.
    change (set_tcbs (<[p := set_blocked_on ResourceId.none (set_status kReady t)]> (tcbs ka))
      (set_tcbs (<[p := set_status kReady t]> (tcbs ka)) ka)) with k1.
    destruct (scheduler_user c k1 f r i (policy t)) as [s Hs]; [|by rewrite Pt|].
    { rewrite (view_cpu _ _ _ _ _ V1). apply (ok_scheds _ _ _ _ _ _ Ok). }
    unfold enqueue_if in E2. cbn [bind] in E2. rewrite Hs in E2 |- *. cbn [bind] in E2 |- *.
    destruct (on_heap (Enqueue s p) k1) as [k1' s'|]; [|done]. rewrite E2. exact E3. }
  split; [exact (transitivity F1 (transitivity F2 F3))|]. split; [exact (transitivity M1 (transitivity M2 M3))|].
  split; [done|]. split; [done|]. split.
  { rewrite Q3, Q2. cbn [push_all fold_left]. unfold policy_of at 2. rewrite Et.
    apply push_all_ext. intros x Hx. apply Po. by intros ->. }
  split. { rewrite Em3. change (blocked_tasks X2) with m'. by rewrite Em, insert_insert_eq. }
  split; [done|]. split; [done|]. split; [done|]. split.
  - intros x [->|Hx]%elem_of_cons.
    + split; [done|]. exists t2. rewrite O3, lookup_insert_eq by done.
      split_and!; [done|by rewrite S2|]. unfold policy_of. rewrite Et. by rewrite P2.
    + rewrite <- Po; [by apply R3|]. by intros ->.
  - intros x [Hx1 Hx2]%not_elem_of_cons. rewrite O3 by done. by apply lookup_insert_ne.
Qed.

Definition waiters (k : Kernel) (c rid : Z) : list ptr :=
  default [] (NkUnorderedMap.to_map (blocked_tasks (cpus k c)) !! rid).

Lemma waiting_erase H X rid :
  waiting_ok H X ->
  waiting_ok H (set_blocked_tasks (NkUnorderedMap.erase hash_id (blocked_tasks X) rid).1 X) /\
  NkUnorderedMap.to_map (NkUnorderedMap.erase hash_id (blocked_tasks X) rid).1 =
    delete rid (NkUnorderedMap.to_map (blocked_tasks X)).
Proof.
  intros [N S Hh W B]. pose proof (NkUnorderedMap.erase_spec hash_id (blocked_tasks X) rid W) as He.
  destruct (NkUnorderedMap.erase hash_id (blocked_tasks X) rid) as [m n]. destruct He as (Wm & _ & Em).
  split; [|done]. split; cbn; try done. intros rid' l. rewrite Em. intros [_ Hl]%lookup_delete_Some.
  by apply B.
Qed.

Lemma wakeup_spec c rid k f r i t :
  c <> SpinLock.no_core -> free_lock (sched_lock (cpus k c)) ->
  core_ok (tcbs k) (cpus k c) (percpu k c) f r i ->
  tcbs k !! running_task (percpu k c) = Some t -> status t <> kBlocked ->
  exists k' f' r', Wakeup c rid k = Ret k' tt /\ frame c k k' /\
    free_lock (sched_lock (cpus k' c)) /\ core_ok (tcbs k') (cpus k' c) (percpu k' c) f' r' i /\
    MkRunq (fifo_queue f') (rr_queue r') =
      push_all (tcbs k) (waiters k c rid) (MkRunq (fifo_queue f) (rr_queue r)) /\
    NkUnorderedMap.to_map (blocked_tasks (cpus k' c)) =
      delete rid (NkUnorderedMap.to_map (blocked_tasks (cpus k c))) /\
    (forall p, p ∈ waiters k c rid -> task_is (tcbs k') p kReady (policy_of (tcbs k) p)) /\
    (forall p, p ∉ waiters k c rid -> tcbs k' !! p = tcbs k !! p) /\
    percpu k' c = percpu k c /\ sleeping_tasks (cpus k' c) = sleeping_tasks (cpus k c) /\
    local_tick (cpus k' c) = local_tick (cpus k c) /\ intr k' c = intr k c.
Proof.
  intros Hc Hl Hok Et St.
  destruct (lock_free c k Hl) as (k1 & E1 & F1 & V1 & I1 & R1 & B1 & BC1). pose proof V1 as [V1a V1b V1c].
  pose proof (core_ok_cpu _ (cpus k c) (held c (intr k c) (cpus k c)) _ _ _ _ eq_refl eq_refl eq_refl Hok) as Ok1.
  pose proof (ok_waiting _ _ _ _ _ _ Ok1) as W1.
  unfold Wakeup, waiters.
  destruct (NkUnorderedMap.to_map (blocked_tasks (cpus k c)) !! rid) as [l|] eqn:El; cbn [default from_option id].
  - assert (running_task (percpu k c) ∉ l) as Hn.
    { intros Hin. destruct (w_blocked _ _ W1 rid l El) as [_ T].
      destruct (T _ Hin) as (? & t' & _ & _ & Et' & St' & _). by simplify_eq. }
    destruct (wake_waiters_spec c rid _ i l k1 _ _ f r V1 Ok1 El Hn)
      as (k2 & H2 & X2 & f2 & r2 & E2 & F2 & M2 & V2 & Ok2 & Q2 & Em2 & L2 & S2 & T2 & R2 & O2).
    pose proof V2 as [V2a V2b V2c].
    destruct (waiting_erase H2 X2 rid (ok_waiting _ _ _ _ _ _ Ok2)) as [W3 Em3].
    set (m3 := (NkUnorderedMap.erase hash_id (blocked_tasks X2) rid).1) in *.
    set (k3 := set_cpus (<[c := set_blocked_tasks m3 X2]> (cpus k2)) k2).
    destruct (guard_run c k k1 k3 (intr k c) tt (set_blocked_tasks m3 X2) (wake_resource c rid) Hc E1)
      as (k4 & E4 & F4 & [V4a V4b V4c] & I4 & _).
    { unfold wake_resource. cbn [bind gets]. rewrite V1b. cbn [blocked_tasks held set_sched_lock].
      rewrite (NkUnorderedMap.find_to_map hash_id (blocked_tasks (cpus k c)) rid (w_blocked_wf _ _ W1)), El. cbn [bind].
      rewrite E2. cbn [bind]. unfold upd_cpu, modify, k3, m3. rewrite V2b. reflexivity. }
    { unfold k3. cbn. fn_simp. by apply (held_id _ _ _ (cpus k c)). }
    exists k4, f2, r2. split; [exact E4|]. split.
    { etrans; [exact F1|]. etrans; [exact F2|]. etrans; [|exact F4]. unfold k3. solve_frame. }
    rewrite V4a, V4b, V4c. unfold k3. cbn [tcbs percpu set_cpus]. rewrite V2a, V2c.
    split; [done|]. split.
    { destruct Ok2. split; try done. by destruct W3. }
    split; [done|]. split.
    { cbn [blocked_tasks released set_blocked_tasks set_sched_lock]. rewrite Em3, Em2. apply delete_insert_eq. }
    split; [done|]. split; [done|]. split; [done|]. split; [done|]. split; [done|].
    rewrite I4. unfold k3. cbn [intr set_cpus].
    destruct M2 as (_ & _ & _ & ->). rewrite I1. by destruct (intr k c).
  - destruct (guard_run c k k1 k1 (intr k c) tt (cpus k c) (wake_resource c rid) Hc E1)
      as (k4 & E4 & F4 & [V4a V4b V4c] & I4 & _).
    { unfold wake_resource. cbn [bind gets]. rewrite V1b. cbn [blocked_tasks held set_sched_lock].
      by rewrite (NkUnorderedMap.find_to_map hash_id (blocked_tasks (cpus k c)) rid (w_blocked_wf _ _ W1)), El. }
    { done. }
    exists k4, f, r. split; [exact E4|]. split; [by etrans|]. rewrite V4a, V4b, V4c, V1a, V1c.
    split; [done|]. split; [by eapply (core_ok_cpu _ (cpus k c))|]. split; [done|].
    split; [by rewrite delete_id|]. split; [by intros p ?%elem_of_nil|]. split; [done|]. split; [done|].
    split; [done|]. split; [done|]. rewrite I4, I1. by destruct (intr k c).
Qed.

(** ** The timer tick *)

(** The containers after the earliest sleeper left. *)
Lemma waiting_unsleep H X p q' t t' :
  waiting_ok H X -> H !! p = Some t -> status t = kSleeping ->
  p :: q' ≡ₚ sleeping_tasks X -> NkPriorityQueue.is_heap (wakes_after H) q' ->
  waiting_ok (<[p := t']> H) (set_sleeping_tasks q' X).
Proof.
  intros [N S Hh W B] Et St Pm Hh'. pose proof (off_insert p t' H) as Off.
  rewrite <- Pm in N. apply NoDup_cons in N as [Np N].
  assert (forall q, q ∈ q' -> q ∈ sleeping_tasks X /\ q <> p) as Hq.
  { intros q Hin. split; [rewrite <- Pm; by right|by intros ->]. }
  split; cbn; try done.
  - intros q Hin. destruct (Hq q Hin) as [Hin' Hne]. destruct (S q Hin') as (pol & Up & T).
    exists pol. split; [done|]. by eapply task_is_off.
  - eapply sleep_heap_ext; [|exact Hh']. intros q Hin. unfold wake_tick_of. rewrite Off; [done|].
    by apply Hq.
  - intros rid l Hl. destruct (B rid l Hl) as [Nl T]. split; [done|]. intros q Hin.
    rewrite Off; [by apply T|]. intros ->.
    destruct (T p Hin) as (? & t1 & _ & _ & Et1 & St1 & _). simplify_eq. congruence.
Qed.

#[export] Instance wakes_order H : NkPriorityQueue.StrictWeakOrder (wakes_after H) :=
  NkPriorityQueue.min_key_order (wake_tick_of H).

Lemma sleep_pop_spec c k H X P p q :
  view c k H X P -> waiting_ok H X -> sleeping_tasks X = p :: q ->
  exists k' q', sleep_pop c k = Ret k' tt /\ frame c k k' /\ same_machine c k k' /\
    view c k' H (set_sleeping_tasks q' X) P /\ p :: q' ≡ₚ p :: q /\
    NkPriorityQueue.is_heap (wakes_after H) q'.
Proof.
  intros [<- <- <-] W Eq. destruct (NkPriorityQueue.pop_spec (wakes_after (tcbs k)) (p :: q) p) as [Hh Pm].
  { rewrite <- Eq. apply W. } { done. }
  unfold sleep_pop. cbn [bind gets]. rewrite Eq.
  rewrite (on_heap_ret k (tcbs k) (deref_all (p :: q)) tt).
  2: { apply deref_all_alive. intros x Hx. rewrite <- Eq in Hx.
       destruct (w_sleep _ _ W x Hx) as (? & _ & Hz & t & Et & _). eauto. }
  rewrite set_tcbs_id. cbn [bind gets]. eexists _, _. split; [reflexivity|]. split; [solve_frame|].
  split; [done|]. split; [split; cbn; fn_simp; done|]. by split.
Qed.

Lemma Sorted_strengthen {A} (R R' : A -> A -> Prop) l :
  Sorted.StronglySorted R l -> (forall a b, a ∈ l -> b ∈ l -> R a b -> R' a b) -> Sorted.StronglySorted R' l.
Proof.
  induction 1 as [|a l Hs IH Hf]; intros Hr; constructor.
  - apply IH. intros x y Hx Hy. apply Hr; by right.
  - apply List.Forall_forall. intros x Hx. rewrite List.Forall_forall in Hf.
    apply Hr; [by left|right; by apply list_elem_of_In|by apply Hf].
Qed.

(** The earliest sleeper is at the top. *)
Lemma sleep_top H X p q x :
  waiting_ok H X -> sleeping_tasks X = p :: q -> x ∈ sleeping_tasks X ->
  wake_tick_of H p <= wake_tick_of H x.
Proof.
  intros W Eq [j Hj]%list_elem_of_lookup. pose proof (w_sleep_heap _ _ W) as Hh. rewrite Eq in *.
  pose proof (NkPriorityQueue.is_heap_top (wakes_after H) (p :: q) j Hh (lookup_lt_Some _ _ _ Hj)) as T.
  rewrite (list_lookup_total_correct _ _ _ Hj) in T. by apply Z.ltb_ge in T.
Qed.

Record woken (H : heap) (X : CpuSchedData) (H' : heap) (X' : CpuSchedData) (ws : list ptr) : Prop := {
  wk_split : ws ++ sleeping_tasks X' ≡ₚ sleeping_tasks X;
  wk_due : forall p, p ∈ ws -> wake_tick_of H p <= local_tick X;
  wk_later : forall p, p ∈ sleeping_tasks X' -> local_tick X < wake_tick_of H p;
  wk_order : Sorted.StronglySorted (fun a b => wake_tick_of H a <= wake_tick_of H b) ws;
  wk_ready : forall p, p ∈ ws -> task_is H' p kReady (policy_of H p);
  wk_rest : forall p, p ∉ ws -> H' !! p = H !! p;
  wk_lock : sched_lock X' = sched_lock X;
  wk_tick : local_tick X' = local_tick X;
  wk_blocked : blocked_tasks X' = blocked_tasks X
}.

Lemma wake_sleepers_spec c P i : forall fuel k H X f r need,
  view c k H X P -> core_ok H X P f r i -> running_task P ∉ sleeping_tasks X ->
  (length (sleeping_tasks X) <= fuel)%nat ->
  exists k' H' X' f' r' ws,
    wake_sleepers fuel c (running_task P) need k = Ret k' (need || negb (bool_decide (ws = []))) /\
    frame c k k' /\ same_machine c k k' /\ view c k' H' X' P /\ core_ok H' X' P f' r' i /\
    MkRunq (fifo_queue f') (rr_queue r') = push_all H ws (MkRunq (fifo_queue f) (rr_queue r)) /\
    woken H X H' X' ws.
Proof.
  induction fuel as [|fuel IH]; intros k H X f r need V Ok Hn Hf; pose proof V as [VH VX VP].
  { destruct (sleeping_tasks X) as [|p q] eqn:Eq; [|simpl in Hf; lia].
    exists k, H, X, f, r, []. cbn [wake_sleepers bind gets]. rewrite VX, Eq. cbn. rewrite orb_false_r.
    split_and!; try done. split; try done; [by intros p ?%elem_of_nil| |constructor|by intros p ?%elem_of_nil].
    rewrite Eq. by intros p ?%elem_of_nil. }
  destruct (sleeping_tasks X) as [|p q] eqn:Eq.
  { exists k, H, X, f, r, []. cbn [wake_sleepers bind gets]. rewrite VX, Eq. cbn. rewrite orb_false_r.
    split_and!; try done. split; try done; [by intros p ?%elem_of_nil| |constructor|by intros p ?%elem_of_nil].
    rewrite Eq. by intros p ?%elem_of_nil. }
  pose proof (ok_waiting _ _ _ _ _ _ Ok) as W.
  destruct (w_sleep _ _ W p) as (pol & U & Hz & t & Et & St & Pt); [rewrite Eq; by left|].
  assert (wake_tick_of H p = wake_tick (sched_info t)) as Ew by (unfold wake_tick_of; by rewrite Et).
  cbn [wake_sleepers bind gets]. rewrite VX, Eq. cbn [NkPriorityQueue.top head bind].
  rewrite (on_heap_tcb k p t) by (by rewrite VH). cbn [bind gets]. rewrite VX.
  destruct (Z.ltb_spec (local_tick X) (wake_tick (sched_info t))) as [Hlt|Hge].
  { exists k, H, X, f, r, []. cbn. rewrite orb_false_r.
    split_and!; try done. split; try done; [by intros x ?%elem_of_nil| |constructor|by intros x ?%elem_of_nil].
    intros x Hx. pose proof (sleep_top _ _ _ _ _ W Eq Hx). lia. }
  destruct (sleep_pop_spec c k H X P p q V W Eq) as (k1 & q1 & E1 & F1 & M1 & [V1a V1b V1c] & P1 & Hh1).
  assert (p <> running_task P) as Hpr. { intros ->. apply Hn. by left. }
  set (t1 := set_status kReady t). set (k2 := set_tcbs (<[p := t1]> (tcbs k1)) k1).
  destruct (set_tcbs_frame c (<[p := t1]> (tcbs k1)) k1) as [F2 M2]. fold k2 in F2, M2.
  assert (view c k2 (<[p := t1]> H) (set_sleeping_tasks q1 X) P) as V2.
  { split; unfold k2; cbn; by rewrite ?V1a, ?V1b, ?V1c. }
  destruct (enqueue_spec c k2 _ _ _ f r i p t1 V2 (ok_scheds _ _ _ _ _ _ Ok)) as (k3 & t3 & f3 & r3 & E3 & F3 & M3 & V3 & C3 & Q3);
    [by rewrite lookup_insert_eq|done|by rewrite <- Pt in U|].
  change (policy t1) with (policy t) in E3, Q3. rewrite insert_insert_eq in V3.
  destruct (core_of_fields _ _ C3) as (S3 & P3 & B3 & _).
  set (X3 := set_schedulers [Some (SFifo f3); Some (SRr r3); Some (SIdle i)] (set_sleeping_tasks q1 X)) in *.
  rewrite <- Eq in P1.
  assert (core_ok (<[p := t3]> H) X3 P f3 r3 i) as Ok3.
  { eapply ready_ok; eauto; try congruence.
    destruct (waiting_unsleep H X p q1 t t3 W Et St P1 Hh1). by split. }
  assert (NoDup (p :: q1)) as N1 by (rewrite P1; apply W). apply NoDup_cons in N1 as [Np N1].
  destruct (IH k3 _ X3 f3 r3 true V3 Ok3) as (k4 & H4 & X4 & f4 & r4 & ws & E4 & F4 & M4 & V4 & Ok4 & Q4 & K4).
  { cbn. intros Hin. apply Hn. rewrite <- Eq, <- P1. by right. }
  { cbn. apply Permutation_length in P1. rewrite Eq in P1. simpl in P1, Hf. lia. }
  destruct K4 as [Ks Kd Kl Ko Kr Kx KL KT KB]. cbn in Ks, Kd, Kl.
  assert (forall x, x <> p -> wake_tick_of (<[p := t3]> H) x = wake_tick_of H x /\
    policy_of (<[p := t3]> H) x = policy_of H x) as Po.
  { intros x Hx. unfold wake_tick_of, policy_of. by rewrite lookup_insert_ne. }
  assert (forall x, x ∈ ws \/ x ∈ sleeping_tasks X4 -> x ∈ q1 /\ x <> p) as Hin.
  { intros x Hx. assert (x ∈ q1) as Hq by (rewrite <- Ks; by apply elem_of_app). split; [done|]. by intros ->. }
  exists k4, H4, X4, f4, r4, (p :: ws). split.
  { cbn [bind]. rewrite E1. cbn [bind]. rewrite (on_heap_upd k1 p t) by (by rewrite V1a). cbn [bind]. fold t1 k2.
    rewrite (proj2 (Z.eqb_neq _ _) Hpr). rewrite E3. cbn [bind]. rewrite E4. by destruct need. }
  split; [exact (transitivity F1 (transitivity F2 (transitivity F3 F4)))|].
  split; [exact (transitivity M1 (transitivity M2 (transitivity M3 M4)))|].
  split; [done|]. split; [done|]. split.
  { rewrite Q4, Q3. cbn [push_all fold_left]. unfold policy_of at 2. rewrite Et.
    apply push_all_ext. intros x Hx. apply Po, Hin. by left. }
  split; try done.
  - by rewrite <- P1, <- Ks.
  - intros x [->|Hx]%elem_of_cons; [lia|]. rewrite <- (proj1 (Po x ltac:(apply Hin; by left))). by apply Kd.
  - intros x Hx. rewrite <- (proj1 (Po x ltac:(apply Hin; by right))). by apply Kl.
  - constructor.
    + eapply Sorted_strengthen; [exact Ko|]. intros a b Ha Hb Hab. cbn beta in Hab.
      destruct (Po a ltac:(apply Hin; by left)) as [Ea _], (Po b ltac:(apply Hin; by left)) as [Eb _]. lia.
    + apply List.Forall_forall. intros x Hx%list_elem_of_In. eapply sleep_top; [exact W|exact Eq|].
      rewrite <- P1. right. apply Hin. by left.
  - intros x [->|Hx]%elem_of_cons.
    + split; [done|]. exists t3. rewrite Kx, lookup_insert_eq.
      * split_and!; [done|by rewrite S3|]. unfold policy_of. rewrite Et. by rewrite P3.
      * intros Hw. by destruct (Hin p ltac:(by left)).
    + rewrite <- (proj2 (Po x ltac:(apply Hin; by left))). by apply Kr.
  - intros x [Hx1 Hx2]%not_elem_of_cons. rewrite Kx by done. by apply lookup_insert_ne.
Qed.

(** The running task's block after a tick. *)
Definition charged (t : TCB) : TCB :=
  let t1 := on_total_runtime (u64 (total_runtime (sched_info t) + 1)) t in
  if 0 <? time_slice_remaining (sched_info t)
  then on_time_slice_remaining (time_slice_remaining (sched_info t) - 1) t1 else t1.

Lemma charge_spec c k H X P f r i t need :
  view c k H X P -> core_ok H X P f r i -> H !! running_task P = Some t ->
  exists k' H', charge_current c (running_task P) need k =
      Ret k' (if bool_decide (status t = kRunning)
              then need || (time_slice_remaining (sched_info (charged t)) =? 0) else need) /\
    frame c k k' /\ same_machine c k k' /\ view c k' H' X P /\
    H' = (if bool_decide (status t = kRunning) then <[running_task P := charged t]> H else H).
Proof.
  intros [<- <- <-] Ok Et. set (cur := running_task (percpu k c)) in *.
  destruct (ok_running _ _ _ _ _ _ Ok) as (t0 & Et0 & Hz & Hr). fold cur in Et0, Hz.
  rewrite Et in Et0. injection Et0 as <-.
  unfold charge_current. rewrite (proj2 (Z.eqb_neq _ _) Hz). cbn [bind]. rewrite (on_heap_tcb _ _ _ Et).
  case_bool_decide as St; cbn [negb]; [|by exists k, (tcbs k)].
  cbn [bind]. rewrite (on_heap_upd _ _ _ _ Et). cbn [bind].
  set (t1 := on_total_runtime _ t). set (k1 := set_tcbs _ k).
  assert (exists k2, (if 0 <? time_slice_remaining (sched_info t)
      then on_heap (upd cur (fun t => on_time_slice_remaining (time_slice_remaining (sched_info t) - 1) t))
      else ret tt) k1 = Ret k2 tt /\ k2 = set_tcbs (<[cur := charged t]> (tcbs k)) k) as (k2 & E2 & ->).
  { unfold charged. fold t1. destruct (0 <? time_slice_remaining (sched_info t)).
    - rewrite (on_heap_upd k1 cur t1) by (cbn; by rewrite lookup_insert_eq). eexists. split; [reflexivity|].
      cbn. by rewrite insert_insert_eq.
    - by eexists. }
  rewrite E2. clear E2. cbn [bind]. set (k2 := set_tcbs _ k).
  assert (tcbs k2 !! cur = Some (charged t)) as Et2 by (cbn; by rewrite lookup_insert_eq).
  assert (policy t <> kPolicyCount) as Hp.
  { destruct Hr as [E|[[U|U] _]]; [|congruence..].
    destruct (ok_idle_task _ _ _ _ _ _ Ok) as [It|[It _]]; rewrite <- E in It;
      destruct (task_is_status _ _ _ _ _ It Et); congruence. }
  assert (exists s, schedulers (cpus k2 c) !! policy_index (policy t) = Some (Some s) /\
    OnTick s cur (tcbs k2) = Ret (tcbs k2) (s, false)) as (s & Hs & Ho).
  { cbn. rewrite (ok_scheds _ _ _ _ _ _ Ok). destruct (policy t); try done; by eexists. }
  rewrite (scheduler_of_spec c (policy t) k2 _ _ eq_refl Hs). cbn [bind].
  assert (exists k3, (if need then ret true else
      let* r := on_heap (OnTick s cur) in
      let* _ := put_scheduler c (policy_index (policy t)) r.1 in ret r.2) k2 = Ret k3 need /\
    frame c k2 k3 /\ same_machine c k2 k3 /\ view c k3 (tcbs k2) (cpus k2 c) (percpu k2 c)) as (k3 & E3 & F3 & M3 & V3).
  { destruct need; [by exists k2|]. cbn [bind]. rewrite (on_heap_ret _ _ _ _ Ho), set_tcbs_id. cbn [fst snd].
    destruct (put_scheduler_spec c (policy_index (policy t)) s k2 _ eq_refl) as (k3 & -> & F3 & M3 & [A B C]).
    rewrite list_insert_id in B by done. exists k3. split_and!; try done. split; [done| |done].
    rewrite B. by destruct (cpus k2 c). }
  rewrite E3. cbn [bind]. rewrite (on_heap_tcb k3 cur (charged t)) by (by rewrite (view_tcbs _ _ _ _ _ V3)).
  cbn [bind]. destruct (set_tcbs_frame c (<[cur := charged t]> (tcbs k)) k) as [F0 M0].
  eexists k3, _. split; [reflexivity|]. split; [by etrans|]. split; [by etrans|]. by split.
Qed.

Lemma charged_like t : like t (charged t).
Proof. unfold charged. by destruct (0 <? _). Qed.

(** The core after the critical section of [TickUpdate]. *)
Record ticked (c : Z) (k k0 : Kernel) (f : Fifo) (r : RoundRobin) (i : Idle) (t : TCB)
    (f0 : Fifo) (r0 : RoundRobin) (H1 : heap) (ws : list ptr) : Prop := {
  tk_frame : frame c k k0;
  tk_lock : free_lock (sched_lock (cpus k0 c));
  tk_ok : core_ok (tcbs k0) (cpus k0 c) (percpu k0 c) f0 r0 i;
  tk_queue : MkRunq (fifo_queue f0) (rr_queue r0) = push_all (tcbs k) ws (MkRunq (fifo_queue f) (rr_queue r));
  tk_woken : woken (tcbs k) (set_local_tick (u64 (local_tick (cpus k c) + 1)) (cpus k c)) H1
               (set_sched_lock (sched_lock (cpus k c)) (cpus k0 c)) ws;
  tk_heap : tcbs k0 = (if bool_decide (status t = kRunning)
                       then <[running_task (percpu k c) := charged t]> H1 else H1);
  tk_percpu : percpu k0 c = percpu k c;
  tk_intr : intr k0 c = intr k c
}.

Lemma tick_spec entry c k f r i t :
  c <> SpinLock.no_core -> free_lock (sched_lock (cpus k c)) ->
  core_ok (tcbs k) (cpus k c) (percpu k c) f r i ->
  tcbs k !! running_task (percpu k c) = Some t -> status t <> kSleeping ->
  exists k0 f0 r0 H1 ws, ticked c k k0 f r i t f0 r0 H1 ws /\
    TickUpdate entry c k =
      (if (negb (bool_decide (ws = [])) ||
           (bool_decide (status t = kRunning) && (time_slice_remaining (sched_info (charged t)) =? 0)))
       then Schedule entry c k0 else Ret k0 tt).
Proof.
  intros Hc Hl Hok Et St. set (cur := running_task (percpu k c)) in *.
  destruct (lock_free c k Hl) as (k1 & E1 & F1 & V1 & I1 & R1 & B1 & BC1). pose proof V1 as [V1a V1b V1c].
  set (X1 := set_local_tick (u64 (local_tick (cpus k c) + 1)) (held c (intr k c) (cpus k c))).
  set (k2 := set_cpus (<[c := X1]> (cpus k1)) k1).
  assert (view c k2 (tcbs k) X1 (percpu k c)) as V2 by (split; unfold k2; cbn; fn_simp; done).
  assert (core_ok (tcbs k) X1 (percpu k c) f r i) as Ok2 by (by eapply (core_ok_cpu _ (cpus k c))).
  destruct (wake_sleepers_spec c (percpu k c) i (length (sleeping_tasks X1)) k2 _ _ f r false V2 Ok2)
    as (k3 & H3 & X3 & f3 & r3 & ws & E3 & F3 & M3 & V3 & Ok3 & Q3 & K3).
  { intros Hin. destruct (w_sleep _ _ (ok_waiting _ _ _ _ _ _ Ok2) _ Hin) as (? & _ & T).
    destruct (task_is_status _ _ _ _ _ T Et). congruence. } { done. }
  fold cur in E3.
  assert (H3 !! cur = Some t) as Et3.
  { rewrite (wk_rest _ _ _ _ _ K3); [done|]. intros Hin.
    assert (cur ∈ sleeping_tasks X1) as Hs by (rewrite <- (wk_split _ _ _ _ _ K3); apply elem_of_app; by left).
    destruct (w_sleep _ _ (ok_waiting _ _ _ _ _ _ Ok2) _ Hs) as (? & _ & T).
    destruct (task_is_status _ _ _ _ _ T Et). congruence. }
  destruct (charge_spec c k3 H3 X3 (percpu k c) f3 r3 i t (negb (bool_decide (ws = []))) V3 Ok3 Et3)
    as (k4 & H4 & E4 & F4 & M4 & V4 & EH4). fold cur in E4, EH4. pose proof V4 as [V4a V4b V4c].
  assert (core_ok H4 X3 (percpu k c) f3 r3 i) as Ok4.
  { rewrite EH4. case_bool_decide; [|done]. eapply core_ok_like; [|exact Ok3].
    eapply heap_like_insert; [done|apply charged_like]. }
  destruct (guard_run c k k1 k4 (intr k c)
    (if bool_decide (status t = kRunning) then negb (bool_decide (ws = [])) || (time_slice_remaining (sched_info (charged t)) =? 0)
     else negb (bool_decide (ws = []))) X3 (tick_core c) Hc E1) as (k5 & E5 & F5 & V5 & I5 & _).
  { unfold tick_core. cbn [bind]. unfold upd_cpu at 1, modify at 1. cbn [bind]. rewrite V1b.
    change (local_tick (held c (intr k c) (cpus k c))) with (local_tick (cpus k c)). fold X1 k2.
    unfold GetCurrentTask, gets. cbn [bind]. rewrite (view_percpu _ _ _ _ _ V2), (view_cpu _ _ _ _ _ V2). fold cur.
    rewrite E3. cbn [bind orb]. exact E4. }
  { rewrite V4b. apply (held_id _ _ _ (cpus k c)). apply (wk_lock _ _ _ _ _ K3). }
  pose proof V5 as [V5a V5b V5c]. exists k5, f3, r3, H3, ws. split.
  - split.
    + etrans; [exact F1|]. etrans; [|exact (transitivity F3 (transitivity F4 F5))]. unfold k2. solve_frame.
    + by rewrite V5b.
    + rewrite V5a, V5b, V5c, V4a, V4c. by eapply (core_ok_cpu _ X3).
    + done.
    + rewrite V5b. destruct K3. by split.
    + by rewrite V5a, V4a.
    + by rewrite V5c, V4c.
    + rewrite I5. destruct M4 as (_ & _ & _ & ->), M3 as (_ & _ & _ & ->). unfold k2. cbn. rewrite I1.
      by destruct (intr k c).
  - unfold TickUpdate. cbn [bind]. rewrite E5.
    destruct (bool_decide (status t = kRunning)), (negb (bool_decide (ws = []))); cbn; try done; by destruct (_ =? 0).
Qed.

(** ** Going to sleep *)

Lemma sleep_push_spec c k H X P p :
  view c k H X P -> alive H (sleeping_tasks X ++ [p]) ->
  NkPriorityQueue.is_heap (wakes_after H) (sleeping_tasks X) ->
  exists k' q', sleep_push c p k = Ret k' tt /\ frame c k k' /\ same_machine c k k' /\
    view c k' H (set_sleeping_tasks q' X) P /\ q' ≡ₚ p :: sleeping_tasks X /\
    NkPriorityQueue.is_heap (wakes_after H) q'.
Proof.
  intros [<- <- <-] A Hh.
  destruct (NkPriorityQueue.push_spec (wakes_after (tcbs k)) (sleeping_tasks (cpus k c)) p Hh) as [Hh' Pm].
  unfold sleep_push. cbn [bind gets].
  rewrite (on_heap_ret k (tcbs k) (deref_all (sleeping_tasks (cpus k c) ++ [p])) tt) by (by apply deref_all_alive).
  rewrite set_tcbs_id. cbn [bind gets]. eexists _, _. split; [reflexivity|]. split; [solve_frame|].
  split; [done|]. split; [split; cbn; fn_simp; done|]. by split.
Qed.

(** Removing the running task from its ready queue changes no queue. *)
Lemma dequeue_self H X P f r i t :
  core_ok H X P f r i -> H !! running_task P = Some t -> status t = kRunning -> user_policy (policy t) ->
  exists s s' f' r',
    [Some (SFifo f); Some (SRr r); Some (SIdle i)] !! policy_index (policy t) = Some (Some s) /\
    (forall h, Dequeue s (running_task P) h = Ret h s') /\
    <[policy_index (policy t) := Some s']> [Some (SFifo f); Some (SRr r); Some (SIdle i)] =
      [Some (SFifo f'); Some (SRr r'); Some (SIdle i)] /\
    fifo_queue f' = fifo_queue f /\ rr_queue r' = rr_queue r.
Proof.
  intros Ok Et St U. destruct (ok_running _ _ _ _ _ _ Ok) as (_ & _ & Hz & _).
  assert (forall q, running_task P ∉ q -> List.filter (fun x => negb (x =? running_task P)) q = q) as Hf.
  { intros q. induction q as [|x q IH]; [done|]. intros [? ?]%not_elem_of_cons. cbn.
    rewrite (proj2 (Z.eqb_neq x (running_task P))) by congruence. cbn. f_equal. by apply IH. }
  assert (running_task P ∉ fifo_queue f /\ running_task P ∉ rr_queue r) as [Nf Nr].
  { split; eapply queue_not; [apply Ok|done|congruence|apply Ok|done|congruence]. }
  destruct U as [-> | ->]; cbn [policy_index].
  - eexists (SFifo f), _, _, r. split; [done|]. split; [reflexivity|]. split; [reflexivity|]. cbn. by rewrite Hf.
  - pose proof (erase_first_spec (running_task P) (rr_queue r) (queue_nodup _ _ _ (ok_rr _ _ _ _ _ _ Ok))) as E.
    assert (erase_first (running_task P) (rr_queue r) = None) as En.
    { clear -Nr. induction (rr_queue r) as [|x q IH]; [done|]. apply not_elem_of_cons in Nr as [? ?]. cbn.
      rewrite (proj2 (Z.eqb_neq x (running_task P))) by congruence. by rewrite IH. }
    eexists (SRr r), (SRr r), f, r. split; [done|]. split; [|done]. intros h. cbn. unfold rr_Dequeue.
    by rewrite (proj2 (Z.eqb_neq _ _) Hz), En.
Qed.

Lemma waiting_sleep H X p t t' q' :
  waiting_ok H X -> H !! p = Some t -> p <> nullptr -> status t = kRunning -> user_policy (policy t) ->
  status t' = kSleeping -> policy t' = policy t -> q' ≡ₚ p :: sleeping_tasks X ->
  NkPriorityQueue.is_heap (wakes_after (<[p := t']> H)) q' ->
  waiting_ok (<[p := t']> H) (set_sleeping_tasks q' X).
Proof.
  intros Hw Et Hz St U St' Pt' Pm Hh'. destruct (waiting_not _ _ _ _ Hw Et St) as [Ns Nb].
  destruct Hw as [N S Hh W B]. pose proof (off_insert p t' H) as Off. split; cbn; try done.
  - rewrite Pm. by apply NoDup_cons.
  - intros q Hq. rewrite Pm in Hq. apply elem_of_cons in Hq as [->|Hq].
    + exists (policy t). split; [done|]. split; [done|]. exists t'. by rewrite lookup_insert_eq.
    + destruct (S q Hq) as (pol & Up & T). exists pol. split; [done|].
      eapply task_is_off; [exact Off| |done]. by intros ->.
  - intros rid l Hl. destruct (B rid l Hl) as [Nl T]. split; [done|]. intros q Hq.
    rewrite Off; [by apply T|]. intros ->. by apply (Nb rid l).
Qed.

Definition put_to_sleep (c ms : Z) (k : Kernel) (t : TCB) : TCB :=
  set_status kSleeping (on_wake_tick (u64 (local_tick (cpus k c) + sleep_ticks ms)) t).

Lemma sleep_spec entry c ms k f r i t :
  c <> SpinLock.no_core -> free_lock (sched_lock (cpus k c)) ->
  core_ok (tcbs k) (cpus k c) (percpu k c) f r i ->
  tcbs k !! running_task (percpu k c) = Some t -> status t = kRunning ->
  running_task (percpu k c) <> idle_task (percpu k c) -> ms <> 0 ->
  exists k0 k' next f0 r0 f' r' i', Sleep entry c ms k = Ret k' tt /\ frame c k k0 /\
    core_ok (tcbs k0) (cpus k0 c) (percpu k0 c) f0 r0 i /\
    fifo_queue f0 = fifo_queue f /\ rr_queue r0 = rr_queue r /\
    tcbs k0 = <[running_task (percpu k c) := put_to_sleep c ms k t]> (tcbs k) /\
    percpu k0 c = percpu k c /\
    sleeping_tasks (cpus k0 c) ≡ₚ running_task (percpu k c) :: sleeping_tasks (cpus k c) /\
    intr k0 c = false /\ blocked_tasks (cpus k0 c) = blocked_tasks (cpus k c) /\
    local_tick (cpus k0 c) = local_tick (cpus k c) /\ Schedule entry c k0 = Ret k' tt /\
    scheduled entry c k0 k' f0 r0 (put_to_sleep c ms k t) next f' r' i'.
Proof.
  intros Hc Hl Hok Et St Hni Hms. set (cur := running_task (percpu k c)) in *.
  set (ka := put_intr c false k).
  assert (frame c k ka) as Fa by (unfold ka; solve_frame).
  destruct (lock_free c ka Hl) as (k1 & E1 & F1 & V1 & I1 & R1 & B1 & BC1).
  assert (intr ka c = false) as Ia by (unfold ka; cbn; by fn_simp). rewrite Ia in V1.
  change (tcbs ka) with (tcbs k) in V1. change (cpus ka) with (cpus k) in V1. change (percpu ka) with (percpu k) in V1.
  pose proof V1 as [V1a V1b V1c].
  assert (cur <> nullptr) as Hz by (by destruct (ok_running _ _ _ _ _ _ Hok) as (? & _ & ? & _)).
  assert (user_policy (policy t)) as U.
  { destruct (ok_running _ _ _ _ _ _ Hok) as (tr & Etr & _ & [?|[U _]]); [done|]. fold cur in Etr. congruence. }
  destruct (dequeue_self _ _ _ _ _ _ _ Hok Et St U) as (s & s' & f0 & r0 & Hs & Hd & Hss & Hf & Hr). fold cur in Hd.
  set (t1 := on_wake_tick (u64 (local_tick (cpus k c) + sleep_ticks ms)) t).
  set (k2 := set_tcbs (<[cur := t1]> (tcbs k1)) k1).
  assert (schedulers (cpus k2 c) = [Some (SFifo f); Some (SRr r); Some (SIdle i)]) as Es2.
  { unfold k2. cbn. rewrite V1b. apply Hok. }
  destruct (put_scheduler_spec c (policy_index (policy t)) s' k2 _ Es2) as (k3 & E3 & F3 & M3 & [V3a V3b V3c]).
  rewrite Hss in V3b. unfold k2 in V3a, V3b, V3c. cbn in V3a, V3b, V3c. rewrite V1a in V3a. rewrite V1b in V3b. rewrite V1c in V3c.
  set (t2 := put_to_sleep c ms k t). set (k4 := set_tcbs (<[cur := t2]> (tcbs k)) k3).
  set (X4 := set_schedulers [Some (SFifo f0); Some (SRr r0); Some (SIdle i)] (held c false (cpus k c))) in *.
  assert (view c k4 (<[cur := t2]> (tcbs k)) X4 (percpu k c)) as V4.
  { split; unfold k4; cbn; [done|by rewrite V3b|by rewrite V3c]. }
  pose proof (ok_waiting _ _ _ _ _ _ Hok) as W.
  destruct (waiting_not _ _ _ _ W Et St) as [Ns _].
  destruct (sleep_push_spec c k4 _ _ _ cur V4) as (k5 & q5 & E5 & F5 & M5 & V5 & P5 & H5).
  { intros x Hx. cbn in Hx. apply elem_of_app in Hx as [Hx| ->%list_elem_of_singleton].
    - destruct (w_sleep _ _ W x Hx) as (? & _ & Hxz & tx & Etx & _). split; [done|].
      rewrite lookup_insert_ne; [by eauto|]. by intros <-.
    - split; [done|]. rewrite lookup_insert_eq. eauto. }
  { cbn. eapply sleep_heap_ext; [|apply W]. intros x Hx. unfold wake_tick_of.
    rewrite lookup_insert_ne; [done|]. by intros <-. }
  pose proof V5 as [V5a V5b V5c]. cbn in P5.
  destruct (guard_run c ka k1 k5 false tt (set_sleeping_tasks q5 X4) (enter_sleep c cur ms) Hc E1)
    as (k6 & E6 & F6 & [V6a V6b V6c] & I6 & _).
  { unfold enter_sleep. cbn [bind gets]. rewrite V1b. change (local_tick (held c false (cpus k c))) with (local_tick (cpus k c)).
    rewrite (on_heap_upd k1 cur t) by (by rewrite V1a). cbn [bind]. fold t1 k2.
    rewrite (on_heap_tcb k2 cur t1) by (cbn; by rewrite lookup_insert_eq). cbn [bind].
    change (policy t1) with (policy t). rewrite (scheduler_of_spec c (policy t) k2 _ (Some s) Es2 Hs). cbn [bind].
    rewrite (on_heap_ret k2 (tcbs k2) _ s') by apply Hd. rewrite set_tcbs_id. cbn [bind]. rewrite E3. cbn [bind].
    rewrite (on_heap_upd k3 cur t1) by (by rewrite V3a, lookup_insert_eq). cbn [bind].
    rewrite V3a, insert_insert_eq. exact E5. }
  { by rewrite V5b. }
  assert (frame c k k6) as F06.
  { etrans; [exact Fa|]. etrans; [exact F1|]. destruct (set_tcbs_frame c (<[cur := t1]> (tcbs k1)) k1) as [G1 _].
    etrans; [exact G1|]. etrans; [exact F3|]. destruct (set_tcbs_frame c (<[cur := t2]> (tcbs k)) k3) as [G2 _].
    exact (transitivity G2 (transitivity F5 F6)). }
  assert (core_ok (tcbs k6) (cpus k6 c) (percpu k6 c) f0 r0 i) as Ok6.
  { rewrite V6a, V6b, V6c, V5a, V5c. eapply (core_ok_cpu _ (set_sleeping_tasks q5 X4)); try done.
    eapply stop_ok; eauto; try done. eapply (waiting_sleep _ X4); eauto; [by destruct W; split|done..]. }
  destruct (schedule_spec entry c k6 f0 r0 i t2 Hc) as (k' & next & f' & r' & i' & E & Sc).
  { by rewrite V6b. } { done. } { rewrite V6c, V6a, V5a, V5c. fold cur. by rewrite lookup_insert_eq. }
  exists k6, k', next, f0, r0, f', r', i'. split.
  { unfold Sleep. cbn [bind GetCurrentTask gets]. fold cur. rewrite (proj2 (Z.eqb_neq _ _) Hz).
    cbn [negb nk_assert_msg bind]. rewrite (on_heap_tcb _ _ _ Et). cbn [bind].
    rewrite bool_decide_eq_true_2 by done. cbn [nk_assert_msg bind]. rewrite (proj2 (Z.eqb_neq _ _) Hms).
    cbn [bind DisableInterrupt modify]. fold ka. rewrite E6. cbn [bind]. exact E. }
  split; [done|]. split; [done|]. split; [done|]. split; [done|].
  split; [by rewrite V6a, V5a|]. split; [by rewrite V6c, V5c|].
  split; [by rewrite V6b|]. split; [|by rewrite V6b].
  rewrite I6. destruct M5 as (_ & _ & _ & ->), M3 as (_ & _ & _ & M3i).
  change (intr k4 c) with (intr k3 c). by rewrite M3i.
Qed.

(** The current task is not among the woken ones. *)
Lemma woken_not_current H X P f r i t X0 H' X' ws :
  core_ok H X P f r i -> H !! running_task P = Some t -> status t <> kSleeping ->
  woken H X0 H' X' ws -> sleeping_tasks X0 = sleeping_tasks X -> running_task P ∉ ws.
Proof.
  intros Ok Et St W Es Hin.
  assert (running_task P ∈ sleeping_tasks X) as Hs.
  { rewrite <- Es, <- (wk_split _ _ _ _ _ W). apply elem_of_app. by left. }
  destruct (w_sleep _ _ (ok_waiting _ _ _ _ _ _ Ok) _ Hs) as (? & _ & T).
  destruct (task_is_status _ _ _ _ _ T Et). congruence.
Qed.

(** A task that has stopped running leaves the core. *)
Lemma schedule_leaves entry c k k' f r i t next f' r' i' :
  core_ok (tcbs k) (cpus k c) (percpu k c) f r i -> scheduled entry c k k' f r t next f' r' i' ->
  tcbs k !! running_task (percpu k c) = Some t -> status t <> kReady -> status t <> kRunning ->
  running_task (percpu k c) <> idle_task (percpu k c) ->
  (next, MkRunq (fifo_queue f') (rr_queue r')) =
    take_next (idle_task (percpu k c)) (MkRunq (fifo_queue f) (rr_queue r)) /\
  next <> running_task (percpu k c) /\
  running_task (percpu k c) ∉ fifo_queue f' /\ running_task (percpu k c) ∉ rr_queue r' /\
  exists t', tcbs k' !! running_task (percpu k c) = Some t' /\ status t' = status t /\ policy t' = policy t /\
    blocked_on t' = blocked_on t /\ wake_tick (sched_info t') = wake_tick (sched_info t).
Proof.
  intros Ok S Et Sr Sn Hni. pose proof (sch_next _ _ _ _ _ _ _ _ _ _ _ S) as Q. unfold give_back in Q.
  rewrite bool_decide_eq_false_2 in Q by done. split; [done|].
  assert (next <> running_task (percpu k c)) as Hne.
  { intros ->. unfold take_next in Q. cbn [rt nm] in Q.
    destruct (fifo_queue f) as [|x q] eqn:Ef; [destruct (rr_queue r) as [|x q] eqn:Er|]; injection Q as Q _ _; [done| |].
    - apply (queue_not _ _ _ _ _ (ok_rr _ _ _ _ _ _ Ok) Et Sr). rewrite Er, Q. by left.
    - apply (queue_not _ _ _ _ _ (ok_fifo _ _ _ _ _ _ Ok) Et Sr). rewrite Ef, Q. by left. }
  split; [done|].
  destruct (sch_cur _ _ _ _ _ _ _ _ _ _ _ S) as (t' & Et' & P & B & W & St); [by apply not_eq_sym|].
  rewrite bool_decide_eq_false_2 in St by done. pose proof (sch_ok _ _ _ _ _ _ _ _ _ _ _ S) as Ok'.
  split; [eapply queue_not; [apply Ok'|exact Et'|congruence]|].
  split; [eapply queue_not; [apply Ok'|exact Et'|congruence]|]. by exists t'.
Qed.

End KernelSpec.
