(* ===== verification/KernelProps.v ===== *)
(** * Properties of scheduling, sleeping, blocking and ticking

    The claims about src/src/task/{schedule,sleep,block,wakeup,tick_update}.cpp
    and a small kernel on which each of them is exercised. *)

From stdpp Require Import base numbers list gmap functions strings.
From Stdlib Require Import ZArith Lia Sorted.
From S2P Require Import Prelude Errors ResourceId SpinLock Tcb NkPriorityQueue NkUnorderedMap Schedulers TaskManager KernelInv KernelSpec.
Import Tcb Sched TaskManager KernelInv KernelSpec.

Local Open Scope Z_scope.

Module KernelProps.

(** ** A small kernel

    Core 0 runs task 2; task 3 is ready, task 4 sleeps until tick 11, task 5
    waits for mutex 64; task 1 is the idle task.  The clock shows 10. *)

Definition sample_rid : Z := ResourceId.mk ResourceId.kMutex 64.

Definition sample_task (st : TaskStatus) : TCB := set_status st (set_pid 2 (set_tgid 2 default_tcb)).

Definition task1 : TCB := set_policy kIdle (set_status kReady default_tcb).
Definition task2 : TCB := set_task_context (MkContext 500 0 0 0 []) (sample_task kRunning).
Definition task3 : TCB := set_task_context (MkContext 900 0 0 0 []) (set_status kReady default_tcb).
Definition task4 : TCB := on_wake_tick 11 (set_status kSleeping default_tcb).
Definition task5 : TCB := set_blocked_on sample_rid (set_status kBlocked default_tcb).

Definition sample_tcbs : heap := {[1 := task1; 2 := task2; 3 := task3; 4 := task4; 5 := task5]}.

Definition sample_blocked : NkUnorderedMap.umap Z (list ptr) :=
  NkUnorderedMap.assign hash_id [] (NkUnorderedMap.new_map hash_id) sample_rid [5].

Definition sample_fifo : Fifo := MkFifo [] zero_stats.
Definition sample_rr : RoundRobin := MkRr [3] zero_stats.
Definition sample_idle : Idle := MkIdle 1 zero_stats.

Definition sample_cpu : CpuSchedData :=
  MkCpu SpinLock.unlocked [Some (SFifo sample_fifo); Some (SRr sample_rr); Some (SIdle sample_idle)]
    [4] sample_blocked 10 0 0.

Definition sample_kernel : Kernel :=
  MkKernel sample_tcbs (fun _ => sample_cpu) (fun _ => MkPerCpu 2 1) SpinLock.unlocked
    (NkUnorderedMap.new_map hash_id) 7 (fun _ => true) (fun _ => zero_context) true zero_context [].

Lemma sample_lookup :
  sample_tcbs !! 1 = Some task1 /\ sample_tcbs !! 2 = Some task2 /\ sample_tcbs !! 3 = Some task3 /\
  sample_tcbs !! 4 = Some task4 /\ sample_tcbs !! 5 = Some task5.
Proof. vm_compute. by split_and!. Qed.

Lemma sample_blocked_ok : NkUnorderedMap.wf hash_id sample_blocked /\
  NkUnorderedMap.to_map sample_blocked = {[sample_rid := [5]]}.
Proof.
  destruct (NkUnorderedMap.assign_spec hash_id ([] : list ptr) (NkUnorderedMap.new_map hash_id) sample_rid [5]) as [W E].
  { apply NkUnorderedMap.new_map_spec. }
  split; [exact W|]. unfold sample_blocked. rewrite E, (proj2 (NkUnorderedMap.new_map_spec hash_id)). done.
Qed.

Lemma sample_task_is p t st pol :
  sample_tcbs !! p = Some t -> p <> nullptr -> status t = st -> policy t = pol -> task_is sample_tcbs p st pol.
Proof. intros E Hp Hs Hq. split; [exact Hp|]. exists t. auto. Qed.

Lemma sample_ok :
  core_ok sample_tcbs sample_cpu (MkPerCpu 2 1) sample_fifo sample_rr sample_idle.
Proof.
  split; cbn [running_task idle_task].
  - reflexivity.
  - reflexivity.
  - left. by apply (sample_task_is 1 task1 _ _ (proj1 sample_lookup)).
  - split; [apply NoDup_nil_2|]. intros p Hp. by apply elem_of_nil in Hp.
  - split; [apply NoDup_singleton|]. intros p Hp%list_elem_of_singleton. subst p.
    by apply (sample_task_is 3 task3); [apply sample_lookup|..].
  - exists task2. split; [apply sample_lookup|]. split; [done|]. right. split; [by right|done].
  - split; cbn [sleeping_tasks blocked_tasks sample_cpu].
    + apply NoDup_singleton.
    + intros p Hp%list_elem_of_singleton. subst p. exists kNormal. split; [by right|].
      by apply (sample_task_is 4 task4); [apply sample_lookup|..].
    + intros j Hj. simpl in Hj. lia.
    + apply sample_blocked_ok.
    + intros rid l. rewrite (proj2 sample_blocked_ok). intros [<- <-]%lookup_singleton_Some.
      split; [apply NoDup_singleton|]. intros p Hp%list_elem_of_singleton. subst p. exists kNormal, task5.
      split; [by right|]. split; [done|]. split; [apply sample_lookup|]. by split_and!.
Qed.

(** The same core just after its initialisation: the idle task is current, and
    another core has scheduled already. *)
Definition fresh_kernel : Kernel := set_percpu (fun _ => MkPerCpu 1 1) sample_kernel.

Lemma fresh_ok :
  core_ok sample_tcbs sample_cpu (MkPerCpu 1 1) sample_fifo sample_rr sample_idle.
Proof.
  destruct sample_ok as [H1 H2 _ H4 H5 _ H7]. split; try assumption.
  - left. by apply (sample_task_is 1 task1 _ _ (proj1 sample_lookup)).
  - exists task1. split; [apply sample_lookup|]. split; [done|]. by left.
Qed.

(** ** Schedule *)

(** C1: [Schedule] implements the priority run queue.  On a core whose lock is
    free and whose invariant holds, it returns (no assertion fails, no pointer
    is dead, the core is not parked), the invariant holds again, the lock is
    free, and: a current task that was running goes to the tail of its class
    (a sleeping, blocked or exited one does not come back); the task that runs
    next is the head of the real-time queue, else the head of the round-robin
    queue, else the idle task, and it is [kRunning] and off the queues; the
    sleepers, the blocked tasks, every other control block, the other cores and
    the task table are untouched. *)
Theorem schedule_refines_run_queue (entry c : Z) (k : Kernel) (f : Fifo) (r : RoundRobin) (i : Idle) (t : TCB) :
  c <> SpinLock.no_core -> free_lock (sched_lock (cpus k c)) ->
  core_ok (tcbs k) (cpus k c) (percpu k c) f r i ->
  tcbs k !! running_task (percpu k c) = Some t ->
  exists k' next f' r' i', Schedule entry c k = Ret k' tt /\ frame c k k' /\
    free_lock (sched_lock (cpus k' c)) /\ core_ok (tcbs k') (cpus k' c) (percpu k' c) f' r' i' /\
    (next, MkRunq (fifo_queue f') (rr_queue r')) =
      take_next (idle_task (percpu k c))
        (give_back (running_task (percpu k c)) t (MkRunq (fifo_queue f) (rr_queue r))) /\
    running_task (percpu k' c) = next /\ next ∉ fifo_queue f' /\ next ∉ rr_queue r' /\
    (exists n, tcbs k' !! next = Some n /\ status n = kRunning) /\
    sleeping_tasks (cpus k' c) = sleeping_tasks (cpus k c) /\
    blocked_tasks (cpus k' c) = blocked_tasks (cpus k c) /\
    (forall p n, p <> running_task (percpu k c) -> p <> next -> tcbs k !! p = Some n -> tcbs k' !! p = Some n).
Proof.
  intros Hc Hl Hok Et. destruct (schedule_spec entry c k f r i t Hc Hl Hok Et) as (k' & next & f' & r' & i' & E & S).
  exists k', next, f', r', i'. destruct S as [F L Ok Q R _ [Hz (n & En & Sn & _)] (W1 & W2 & _) O _ _].
  split; [done|]. split; [done|]. split; [done|]. split; [done|]. split; [done|]. split; [done|].
  split; [eapply queue_not; [apply Ok|done|congruence]|].
  split; [eapply queue_not; [apply Ok|done|congruence]|].
  split; [by exists n|]. by split_and!.
Qed.

Lemma schedule_refines_run_queue_witness :
  exists k', Schedule 900 0 sample_kernel = Ret k' tt /\ running_task (percpu k' 0) = 3.
Proof.
  destruct (schedule_refines_run_queue 900 0 sample_kernel sample_fifo sample_rr sample_idle
    task2) as (k' & next & f' & r' & i' & E & _ & _ & _ & Q & R & _).
  - done.
  - done.
  - apply sample_ok.
  - apply sample_lookup.
  - exists k'. split; [exact E|]. rewrite R. injection Q as -> _ _. reflexivity.
Defined.

(** the context switch.  When [Schedule] moves to another task, the
    registers of the core become that task's saved context; the first call of
    the system parks the boot context in [boot_context] and leaves the current
    task's own context alone, every later one stores the registers into the
    outgoing task.  Interrupts are enabled on return, except when the incoming
    context is that of a thread that has never run (its return address is
    [kernel_thread_entry]): that thread starts with interrupts off. *)
Theorem schedule_switches_context (entry c : Z) (k : Kernel) (f : Fifo) (r : RoundRobin) (i : Idle) (t : TCB) :
  c <> SpinLock.no_core -> free_lock (sched_lock (cpus k c)) ->
  core_ok (tcbs k) (cpus k c) (percpu k c) f r i ->
  tcbs k !! running_task (percpu k c) = Some t ->
  exists k' n t', Schedule entry c k = Ret k' tt /\ boot_done k' = true /\
    let cur := running_task (percpu k c) in
    let next := running_task (percpu k' c) in
    tcbs k !! next = Some n /\ tcbs k' !! cur = Some t' /\
    (boot_done k = false \/ cur <> next ->
       regs k' c = task_context n /\ intr k' c = negb (ra (task_context n) =? entry)) /\
    (boot_done k = true -> cur = next -> regs k' c = regs k c /\ intr k' c = true) /\
    (boot_done k = false -> boot_context k' = regs k c /\ task_context t' = task_context t) /\
    (boot_done k = true -> cur <> next -> task_context t' = regs k c).
Proof.
  intros Hc Hl Hok Et. destruct (schedule_spec entry c k f r i t Hc Hl Hok Et) as (k' & next & f' & r' & i' & E & S).
  destruct (sch_contexts _ _ _ _ _ _ _ _ _ _ _ S) as (n & En & [Cr Ci Cb (t' & Et' & Cs) Cbs]).
  exists k', n, t'. rewrite (sch_running _ _ _ _ _ _ _ _ _ _ _ S). cbn zeta.
  split; [done|]. split; [done|]. split; [done|]. split; [done|]. unfold switched in *.
  destruct (boot_done k); cbn [negb orb andb] in *; [destruct (Z.eqb_spec (running_task (percpu k c)) next); cbn [negb] in *|];
    split_and!; intros; repeat match goal with H : _ \/ _ |- _ => destruct H end; try done; try congruence; auto.
Qed.

Lemma schedule_switches_context_witness :
  exists k' n, Schedule 900 0 sample_kernel = Ret k' tt /\ boot_done k' = true /\
    tcbs sample_kernel !! running_task (percpu k' 0) = Some n /\
    (2 <> running_task (percpu k' 0) -> regs k' 0 = task_context n).
Proof.
  destruct (schedule_switches_context 900 0 sample_kernel sample_fifo sample_rr sample_idle
    task2) as (k' & n & t' & E & B & En & _ & S & _).
  - done.
  - done.
  - exact sample_ok.
  - apply sample_lookup.
  - exists k', n. split; [exact E|]. split; [exact B|]. split; [exact En|]. intros Hne. apply S. right. exact Hne.
Defined.

(** [boot_done] is one flag for all cores.  On a core that was just
    initialised (the idle task is current) after another core has already
    scheduled, the first [Schedule] stores the boot registers of this core into
    the idle task's context, so the idle thread's entry point and stack are
    gone: the protection that the comment in schedule.cpp describes covers the
    first core only. *)
Theorem later_core_boot_overwrites_idle_context (entry c : Z) (k : Kernel) (f : Fifo) (r : RoundRobin) (i : Idle) (t : TCB) :
  c <> SpinLock.no_core -> free_lock (sched_lock (cpus k c)) ->
  core_ok (tcbs k) (cpus k c) (percpu k c) f r i ->
  running_task (percpu k c) = idle_task (percpu k c) -> tcbs k !! idle_task (percpu k c) = Some t ->
  status t = kReady -> boot_done k = true -> rr_queue r <> [] ->
  exists k' t', Schedule entry c k = Ret k' tt /\ tcbs k' !! idle_task (percpu k c) = Some t' /\
    task_context t' = regs k c.
Proof.
  intros Hc Hl Hok Ei Et St Hb Hq. rewrite <- Ei in Et |- *.
  destruct (schedule_spec entry c k f r i t Hc Hl Hok Et) as (k' & next & f' & r' & i' & E & S).
  destruct (sch_contexts _ _ _ _ _ _ _ _ _ _ _ S) as (n & En & [_ _ _ (t' & Et' & Cs) _]).
  exists k', t'. split; [done|]. split; [done|]. rewrite Cs, Hb. cbn [andb].
  destruct (Z.eqb_spec (running_task (percpu k c)) next) as [Heq|]; [|done]. exfalso.
  pose proof (sch_next _ _ _ _ _ _ _ _ _ _ _ S) as Q. unfold give_back in Q.
  rewrite bool_decide_eq_false_2 in Q by congruence. unfold take_next in Q. cbn [rt nm] in Q.
  assert (forall pol q, queue_ok (tcbs k) pol q -> policy t <> pol -> next ∉ q) as Hnot.
  { intros pol q Qk Hp. rewrite <- Heq. by eapply queue_policy_not. }
  assert (policy t = kIdle) as Hp.
  { destruct (ok_idle_task _ _ _ _ _ _ Hok) as [It|[It _]]; rewrite <- Ei in It; by destruct (task_is_status _ _ _ _ _ It Et). }
  destruct (fifo_queue f) as [|x q] eqn:Ef; [destruct (rr_queue r) as [|x q] eqn:Er; [done|]|]; injection Q as -> _ _.
  - apply (Hnot kNormal (x :: q)); [rewrite <- Er; apply Hok|congruence|by left].
  - apply (Hnot kRealTime (x :: q)); [rewrite <- Ef; apply Hok|congruence|by left].
Qed.

Lemma later_core_boot_overwrites_idle_context_witness :
  exists k' t', Schedule 900 0 fresh_kernel = Ret k' tt /\ tcbs k' !! 1 = Some t' /\
    task_context t' = zero_context.
Proof.
  apply (later_core_boot_overwrites_idle_context 900 0 fresh_kernel sample_fifo sample_rr sample_idle task1).
  - done.
  - done.
  - exact fresh_ok.
  - reflexivity.
  - apply sample_lookup.
  - reflexivity.
  - reflexivity.
  - discriminate.
Defined.

(** ** TickUpdate *)

(** one timer tick.  The tick counter goes up by one; the tasks woken are
    exactly the sleepers whose wake tick has come, earliest first, each ready
    and appended to the queue of its class in that order; the sleepers that stay
    are all due later.  The running task is charged one tick of run time and of
    its slice.  The core reschedules when a task was woken or the slice of the
    running task is used up, and otherwise not; either way the call returns with
    the invariant in place and the lock free. *)
Theorem tick_wakes_due_sleepers (entry c : Z) (k : Kernel) (f : Fifo) (r : RoundRobin) (i : Idle) (t : TCB) :
  c <> SpinLock.no_core -> free_lock (sched_lock (cpus k c)) ->
  core_ok (tcbs k) (cpus k c) (percpu k c) f r i ->
  tcbs k !! running_task (percpu k c) = Some t -> status t <> kSleeping ->
  exists k0 k' f0 r0 ws,
    frame c k k0 /\ core_ok (tcbs k0) (cpus k0 c) (percpu k0 c) f0 r0 i /\
    local_tick (cpus k0 c) = u64 (local_tick (cpus k c) + 1) /\
    ws ++ sleeping_tasks (cpus k0 c) ≡ₚ sleeping_tasks (cpus k c) /\
    (forall p, p ∈ ws -> wake_tick_of (tcbs k) p <= local_tick (cpus k0 c) /\
                         task_is (tcbs k0) p kReady (policy_of (tcbs k) p)) /\
    (forall p, p ∈ sleeping_tasks (cpus k0 c) -> local_tick (cpus k0 c) < wake_tick_of (tcbs k) p) /\
    Sorted.StronglySorted (fun a b => wake_tick_of (tcbs k) a <= wake_tick_of (tcbs k) b) ws /\
    MkRunq (fifo_queue f0) (rr_queue r0) = push_all (tcbs k) ws (MkRunq (fifo_queue f) (rr_queue r)) /\
    tcbs k0 !! running_task (percpu k c) = Some (if bool_decide (status t = kRunning) then charged t else t) /\
    TickUpdate entry c k = Ret k' tt /\ kinv c k' /\
    (if negb (bool_decide (ws = [])) ||
        (bool_decide (status t = kRunning) && (time_slice_remaining (sched_info (charged t)) =? 0))
     then Schedule entry c k0 = Ret k' tt else k' = k0).
Proof.
  intros Hc Hl Hok Et St.
  destruct (tick_spec entry c k f r i t Hc Hl Hok Et St) as (k0 & f0 & r0 & H1 & ws & [F L Ok Q W Hh P I] & E).
  assert (running_task (percpu k c) ∉ ws) as Hcur 
    by (exact (woken_not_current _ _ _ _ _ _ _ _ _ _ _ Hok Et St W eq_refl)).
  assert (exists t0, tcbs k0 !! running_task (percpu k c) = Some t0 /\
    t0 = if bool_decide (status t = kRunning) then charged t else t) as (t0 & Et0 & Dt0).
  { rewrite Hh. eexists. split; [|reflexivity].
    destruct (bool_decide (status t = kRunning)); [by rewrite lookup_insert_eq|].
    by rewrite (wk_rest _ _ _ _ _ W). }
  destruct (schedule_spec entry c k0 f0 r0 i t0 Hc L Ok) as (k' & next & f' & r' & i' & Es & S).
  { by rewrite P. }
  assert (forall p, p ∈ ws -> task_is (tcbs k0) p kReady (policy_of (tcbs k) p)) as Hready.
  { intros p Hp. rewrite Hh. case_bool_decide; [|by apply (wk_ready _ _ _ _ _ W)].
    eapply task_is_off; [apply off_insert| |by apply (wk_ready _ _ _ _ _ W)]. by intros ->. }
  set (need := _ || _) in E. exists k0, (if need then k' else k0), f0, r0, ws. fold need. clearbody need.
  pose proof (wk_tick _ _ _ _ _ W) as Tk. cbn in Tk.
  split; [done|]. split; [done|]. split; [done|]. split; [exact (wk_split _ _ _ _ _ W)|].
  split. { intros p Hp. split; [|by apply Hready]. rewrite Tk. by apply (wk_due _ _ _ _ _ W). }
  split. { intros p Hp. rewrite Tk. by apply (wk_later _ _ _ _ _ W). }
  split; [apply (wk_order _ _ _ _ _ W)|]. split; [done|]. split; [by rewrite Et0, Dt0|].
  destruct need.
  - split; [by rewrite E|]. split; [|exact Es]. split; [done|]. split; [apply S|]. exists f', r', i'. apply S.
  - split; [by rewrite E|]. split; [|done]. split; [done|]. split; [done|]. by exists f0, r0, i.
Qed.

Lemma tick_wakes_due_sleepers_witness :
  exists k0 k', local_tick (cpus k0 0) = 11 /\ TickUpdate 900 0 sample_kernel = Ret k' tt /\ kinv 0 k'.
Proof.
  destruct (tick_wakes_due_sleepers 900 0 sample_kernel sample_fifo sample_rr sample_idle task2)
    as (k0 & k' & f0 & r0 & ws & _ & _ & T & _ & _ & _ & _ & _ & _ & E & I & _).
  - done.
  - done.
  - exact sample_ok.
  - apply sample_lookup.
  - discriminate.
  - exists k0, k'. split; [exact T|]. split; [exact E|exact I].
Defined.

(** ** Sleep *)

(** [Sleep ms] with [ms <> 0].  The calling task (running, not the idle
    task) becomes a sleeper with wake tick [local_tick + sleep_ticks ms], on the
    heap of sleepers and on no ready queue; interrupts stay off from before the
    critical section until [Schedule] has run, so the task cannot be woken in
    between; then the core runs the next task of the run queue, which is never
    the sleeper, and the invariant holds again. *)
Theorem sleep_leaves_the_core (entry c ms : Z) (k : Kernel) (f : Fifo) (r : RoundRobin) (i : Idle) (t : TCB) :
  c <> SpinLock.no_core -> free_lock (sched_lock (cpus k c)) ->
  core_ok (tcbs k) (cpus k c) (percpu k c) f r i ->
  tcbs k !! running_task (percpu k c) = Some t -> status t = kRunning ->
  running_task (percpu k c) <> idle_task (percpu k c) -> ms <> 0 ->
  let cur := running_task (percpu k c) in
  exists k0 k' f' r' i' t',
    (frame c k k0 /\ intr k0 c = false /\ running_task (percpu k0 c) = cur /\ Schedule entry c k0 = Ret k' tt) /\
    Sleep entry c ms k = Ret k' tt /\
    free_lock (sched_lock (cpus k' c)) /\ core_ok (tcbs k') (cpus k' c) (percpu k' c) f' r' i' /\
    (running_task (percpu k' c), MkRunq (fifo_queue f') (rr_queue r')) =
      take_next (idle_task (percpu k c)) (MkRunq (fifo_queue f) (rr_queue r)) /\
    running_task (percpu k' c) <> cur /\ cur ∉ fifo_queue f' /\ cur ∉ rr_queue r' /\
    sleeping_tasks (cpus k' c) ≡ₚ cur :: sleeping_tasks (cpus k c) /\
    tcbs k' !! cur = Some t' /\ status t' = kSleeping /\
    wake_tick (sched_info t') = u64 (local_tick (cpus k c) + sleep_ticks ms) /\
    blocked_tasks (cpus k' c) = blocked_tasks (cpus k c).
Proof.
  intros Hc Hl Hok Et St Hni Hms cur.
  destruct (sleep_spec entry c ms k f r i t Hc Hl Hok Et St Hni Hms)
    as (k0 & k' & next & f0 & r0 & f' & r' & i' & E & F & Ok0 & Qf & Qr & Hh & P & Sl & I & Bl & _ & Es & S).
  assert (tcbs k0 !! running_task (percpu k0 c) = Some (put_to_sleep c ms k t)) as Et0
    by (by rewrite P, Hh, lookup_insert_eq).
  destruct (schedule_leaves _ _ _ _ _ _ _ _ _ _ _ _ Ok0 S Et0) as (Q & Hne & Nf & Nr & t' & Et' & St' & _ & _ & W').
  { done. } { done. } { by rewrite P. }
  rewrite P, Qf, Qr in *. fold cur in Hne, Nf, Nr, Et'. pose proof (sch_running _ _ _ _ _ _ _ _ _ _ _ S) as R.
  destruct (sch_waiting _ _ _ _ _ _ _ _ _ _ _ S) as (S1 & S2 & _).
  exists k0, k', f', r', i', t'. rewrite R, S1, S2, Bl. split; [by rewrite P|]. split; [done|].
  split; [apply S|]. split; [apply S|]. split_and!; try done.
Qed.

Lemma sleep_leaves_the_core_witness :
  exists k' t', Sleep 900 0 5 sample_kernel = Ret k' tt /\ tcbs k' !! 2 = Some t' /\
    status t' = kSleeping /\ wake_tick (sched_info t') = 15.
Proof.
  destruct (sleep_leaves_the_core 900 0 5 sample_kernel sample_fifo sample_rr sample_idle task2)
    as (k0 & k' & f' & r' & i' & t' & _ & E & _ & _ & _ & _ & _ & _ & _ & Et & St & W & _).
  - done.
  - done.
  - exact sample_ok.
  - apply sample_lookup.
  - reflexivity.
  - discriminate.
  - discriminate.
  - exists k', t'. split; [exact E|]. split; [exact Et|]. split; [exact St|exact W].
Defined.

(** milliseconds to ticks.  At the configured rate of 1000 ticks per second
    a tick is a millisecond: [Sleep ms] waits exactly [ms] ticks for every [ms]
    up to (2^64 - 1000) / 1000, and never less than one tick for any 64-bit
    argument; beyond that bound the product wraps around and the sleep is
    shorter than asked. *)
Theorem sleep_ticks_exact (ms : Z) :
  0 < ms < 2 ^ 64 ->
  1 <= sleep_ticks ms /\
  (ms <= (2 ^ 64 - 1000) / 1000 -> sleep_ticks ms = ms) /\
  ((2 ^ 64 - 1000) / 1000 < ms -> sleep_ticks ms < ms).
Proof.
  intros H. unfold sleep_ticks, NAILONG_KERNEL_TICK, kMillisecondsPerSecond, u64, wrap.
  change (2 ^ 64) with 18446744073709551616 in *. change ((18446744073709551616 - 1000) / 1000) with 18446744073709550.
  pose proof (Z.mod_pos_bound (ms * 1000 + 1000 - 1) 18446744073709551616 ltac:(lia)) as Hm.
  split; [|split; intros Hb].
  - destruct (Z.eqb_spec ((ms * 1000 + 1000 - 1) mod 18446744073709551616 / 1000) 0); [lia|].
    pose proof (Z.div_pos ((ms * 1000 + 1000 - 1) mod 18446744073709551616) 1000). lia.
  - rewrite Z.mod_small by lia. replace (ms * 1000 + 1000 - 1) with (999 + ms * 1000) by lia.
    rewrite Z.div_add by lia. change (999 / 1000) with 0. destruct (Z.eqb_spec (0 + ms) 0); lia.
  - destruct (Z.eqb_spec ((ms * 1000 + 1000 - 1) mod 18446744073709551616 / 1000) 0); [lia|].
    assert ((ms * 1000 + 1000 - 1) mod 18446744073709551616 / 1000 <= 18446744073709551) by (apply Z.lt_succ_r, Z.div_lt_upper_bound; lia).
    destruct (Z.le_gt_cases ms 18446744073709551) as [Hle|]; [|lia].
    assert (ms = 18446744073709551) as -> by lia. vm_compute. reflexivity.
Qed.

Lemma sleep_ticks_exact_witness : sleep_ticks 250 = 250.
Proof.
  destruct (sleep_ticks_exact 250) as (_ & E & _).
  - lia.
  - apply E. vm_compute. discriminate.
Defined.

(** ** Block and Wakeup *)

(** [Block] parks the calling task on a resource.  The task is [kBlocked],
    remembers the resource, is the last one of the waiting list of that
    resource, is on no ready queue and does not run; the other lists are as
    before and the core runs the next task of the run queue. *)
Theorem block_parks_the_task (entry c rid : Z) (k : Kernel) (f : Fifo) (r : RoundRobin) (i : Idle) (t : TCB) :
  c <> SpinLock.no_core -> free_lock (sched_lock (cpus k c)) ->
  core_ok (tcbs k) (cpus k c) (percpu k c) f r i ->
  tcbs k !! running_task (percpu k c) = Some t -> status t = kRunning ->
  running_task (percpu k c) <> idle_task (percpu k c) ->
  let cur := running_task (percpu k c) in
  exists k' f' r' i' t', Block entry c rid k = Ret k' tt /\
    free_lock (sched_lock (cpus k' c)) /\ core_ok (tcbs k') (cpus k' c) (percpu k' c) f' r' i' /\
    (running_task (percpu k' c), MkRunq (fifo_queue f') (rr_queue r')) =
      take_next (idle_task (percpu k c)) (MkRunq (fifo_queue f) (rr_queue r)) /\
    running_task (percpu k' c) <> cur /\ cur ∉ fifo_queue f' /\ cur ∉ rr_queue r' /\
    tcbs k' !! cur = Some t' /\ status t' = kBlocked /\ blocked_on t' = rid /\
    waiters k' c rid = waiters k c rid ++ [cur] /\
    (forall rid', rid' <> rid -> waiters k' c rid' = waiters k c rid') /\
    sleeping_tasks (cpus k' c) = sleeping_tasks (cpus k c).
Proof.
  intros Hc Hl Hok Et St Hni cur.
  destruct (block_spec entry c rid k f r i t Hc Hl Hok Et St Hni)
    as (k0 & k' & next & f' & r' & i' & E & F & Ok0 & Hh & P & Sl & _ & Es & Bl & S).
  set (t2 := set_blocked_on rid (set_status kBlocked t)) in *.
  assert (tcbs k0 !! running_task (percpu k0 c) = Some t2) as Et0 by (by rewrite P, Hh, lookup_insert_eq).
  destruct (schedule_leaves _ _ _ _ _ _ _ _ _ _ _ _ Ok0 S Et0) as (Q & Hne & Nf & Nr & t' & Et' & St' & _ & B' & _).
  { done. } { done. } { by rewrite P. }
  rewrite P in *. fold cur in Hne, Nf, Nr, Et'. pose proof (sch_running _ _ _ _ _ _ _ _ _ _ _ S) as R.
  destruct (sch_waiting _ _ _ _ _ _ _ _ _ _ _ S) as (S1 & S2 & _).
  exists k', f', r', i', t'. unfold waiters. rewrite R, S1, S2, Bl, Sl, lookup_insert_eq. split; [done|].
  split; [apply S|]. split; [apply S|]. split_and!; try done.
  intros rid' Hr. by rewrite lookup_insert_ne.
Qed.

Lemma block_parks_the_task_witness :
  exists k', Block 900 0 sample_rid sample_kernel = Ret k' tt /\
    waiters k' 0 sample_rid = waiters sample_kernel 0 sample_rid ++ [2].
Proof.
  destruct (block_parks_the_task 900 0 sample_rid sample_kernel sample_fifo sample_rr sample_idle task2)
    as (k' & f' & r' & i' & t' & E & _ & _ & _ & _ & _ & _ & _ & _ & _ & W & _).
  - done.
  - done.
  - exact sample_ok.
  - apply sample_lookup.
  - reflexivity.
  - discriminate.
  - exists k'. split; [exact E|exact W].
Defined.

(** [Wakeup] makes every task that waits for the resource ready, in the
    order in which they blocked, each at the tail of its class; no task waits
    for the resource afterwards, and no other task is touched.  The current
    task, the interrupt flag and the other cores stay as they are: waking does
    not switch, and a resource nobody waits for is a no-op on the queues. *)
Theorem wakeup_readies_all_waiters (c rid : Z) (k : Kernel) (f : Fifo) (r : RoundRobin) (i : Idle) (t : TCB) :
  c <> SpinLock.no_core -> free_lock (sched_lock (cpus k c)) ->
  core_ok (tcbs k) (cpus k c) (percpu k c) f r i ->
  tcbs k !! running_task (percpu k c) = Some t -> status t <> kBlocked ->
  exists k' f' r', Wakeup c rid k = Ret k' tt /\ frame c k k' /\
    free_lock (sched_lock (cpus k' c)) /\ core_ok (tcbs k') (cpus k' c) (percpu k' c) f' r' i /\
    MkRunq (fifo_queue f') (rr_queue r') =
      push_all (tcbs k) (waiters k c rid) (MkRunq (fifo_queue f) (rr_queue r)) /\
    waiters k' c rid = [] /\ (forall rid', rid' <> rid -> waiters k' c rid' = waiters k c rid') /\
    (forall p, p ∈ waiters k c rid -> task_is (tcbs k') p kReady (policy_of (tcbs k) p)) /\
    (forall p, p ∉ waiters k c rid -> tcbs k' !! p = tcbs k !! p) /\
    percpu k' c = percpu k c /\ intr k' c = intr k c.
Proof.
  intros Hc Hl Hok Et St.
  destruct (wakeup_spec c rid k f r i t Hc Hl Hok Et St) as (k' & f' & r' & E & F & L & Ok & Q & Em & R & O & P & _ & _ & I).
  exists k', f', r'. split_and!; try done.
  - unfold waiters. by rewrite Em, lookup_delete_eq.
  - intros rid' Hr. unfold waiters. by rewrite Em, lookup_delete_ne.
Qed.

Lemma wakeup_readies_all_waiters_witness :
  exists k', Wakeup 0 sample_rid sample_kernel = Ret k' tt /\ waiters k' 0 sample_rid = [].
Proof.
  destruct (wakeup_readies_all_waiters 0 sample_rid sample_kernel sample_fifo sample_rr sample_idle task2)
    as (k' & f' & r' & E & _ & _ & _ & _ & W & _).
  - done.
  - done.
  - exact sample_ok.
  - apply sample_lookup.
  - discriminate.
  - exists k'. split; [exact E|exact W].
Defined.

End KernelProps.
