(* ===== verification/KernelRun.v ===== *)
(** * Runs of one core

    The operations that one core performs between boot and power-off, as a
    step relation: timer ticks, preemptions, and the sleep, block and wake-up
    calls of its tasks.  Reachable states keep the invariant and never halt;
    sleepers and blocked tasks stay parked until their tick or wake-up comes;
    ready tasks get their turn. *)

From stdpp Require Import base numbers list gmap functions strings.
From Stdlib Require Import ZArith Lia Sorted.
From S2P Require Import Prelude Errors ResourceId SpinLock Tcb NkPriorityQueue NkUnorderedMap Schedulers TaskManager KernelInv KernelSpec KernelProps.
Import Tcb Sched TaskManager KernelInv KernelSpec KernelProps.

Local Open Scope Z_scope.

Module KernelRun.

(** ** Steps *)

Inductive core_op :=
| OpSchedule
| OpSleep (ms : Z)
| OpBlock (rid : Z)
| OpWakeup (rid : Z)
| OpTick.

Section runs.
Context (entry c : Z).

Definition run_op (op : core_op) : KM unit :=
  match op with
  | OpSchedule => Schedule entry c
  | OpSleep ms => Sleep entry c ms
  | OpBlock rid => Block entry c rid
  | OpWakeup rid => Wakeup c rid
  | OpTick => TickUpdate entry c
  end.

(** The idle thread neither sleeps nor blocks. *)
Definition permitted (op : core_op) (k : Kernel) : bool :=
  match op with
  | OpSleep _ | OpBlock _ => negb (running_task (percpu k c) =? idle_task (percpu k c))
  | _ => true
  end.

Inductive step : core_op -> Kernel -> Kernel -> Prop :=
| step_op op k k' : permitted op k = true -> run_op op k = Ret k' tt -> step op k k'.

Inductive run : list core_op -> Kernel -> Kernel -> Prop :=
| run_nil k : run [] k k
| run_cons op ops k k1 k2 : step op k k1 -> run ops k1 k2 -> run (op :: ops) k k2.

(** ** The invariant of a live core *)

Record live (k : Kernel) (f : Fifo) (r : RoundRobin) (i : Idle) (t : TCB) : Prop := {
  live_core : c <> SpinLock.no_core;
  live_lock : free_lock (sched_lock (cpus k c));
  live_ok : core_ok (tcbs k) (cpus k c) (percpu k c) f r i;
  live_task : tcbs k !! running_task (percpu k c) = Some t;
  live_status : status t = kRunning \/ status t = kReady /\ running_task (percpu k c) = idle_task (percpu k c)
}.

Definition alive_core (k : Kernel) : Prop := exists f r i t, live k f r i t.

Lemma live_running k f r i t : live k f r i t -> running_task (percpu k c) <> idle_task (percpu k c) -> status t = kRunning.
Proof. intros [_ _ _ _ [H|[_ H]]] Hn; [done|by elim Hn]. Qed.

Lemma live_not k f r i t st : live k f r i t -> st <> kRunning -> st <> kReady -> status t <> st.
Proof. intros [_ _ _ _ [H|[H _]]]; congruence. Qed.

(** [Schedule] leaves a live core. *)
Lemma scheduled_live k k' f r t next f' r' i' :
  c <> SpinLock.no_core -> scheduled entry c k k' f r t next f' r' i' -> exists n, live k' f' r' i' n.
Proof.
  intros Hc S. destruct (sch_status _ _ _ _ _ _ _ _ _ _ _ S) as [Hz (n & En & St & _)].
  rewrite <- (sch_running _ _ _ _ _ _ _ _ _ _ _ S) in En. exists n. split; [done|apply S|apply S|done|by left].
Qed.

Lemma Sleep_zero k f r i t : live k f r i t -> running_task (percpu k c) <> idle_task (percpu k c) ->
  Sleep entry c 0 k = Schedule entry c k.
Proof.
  intros L Hn. pose proof (live_running _ _ _ _ _ L Hn) as St. pose proof (live_task _ _ _ _ _ L) as Et.
  assert (running_task (percpu k c) <> nullptr) as Hz.
  { by destruct (ok_running _ _ _ _ _ _ (live_ok _ _ _ _ _ L)) as (? & _ & ? & _). }
  unfold Sleep. cbn [bind GetCurrentTask gets]. rewrite (proj2 (Z.eqb_neq _ _) Hz).
  cbn [negb nk_assert_msg bind]. rewrite (on_heap_tcb _ _ _ Et). cbn [bind].
  rewrite bool_decide_eq_true_2 by done. reflexivity.
Qed.

(** ** What a step keeps *)

Lemma waiters_blocked k f r i rid p :
  core_ok (tcbs k) (cpus k c) (percpu k c) f r i -> p ∈ waiters k c rid ->
  exists n, tcbs k !! p = Some n /\ status n = kBlocked /\ blocked_on n = rid.
Proof.
  intros Ok Hp. unfold waiters in Hp.
  destruct (NkUnorderedMap.to_map (blocked_tasks (cpus k c)) !! rid) as [l|] eqn:El; [|by apply elem_of_nil in Hp].
  destruct (w_blocked _ _ (ok_waiting _ _ _ _ _ _ Ok) rid l El) as [_ T].
  destruct (T p Hp) as (_ & n & _ & _ & En & Sn & _ & On). by exists n.
Qed.

Lemma sleepers_sleep k f r i p :
  core_ok (tcbs k) (cpus k c) (percpu k c) f r i -> p ∈ sleeping_tasks (cpus k c) ->
  exists n, tcbs k !! p = Some n /\ status n = kSleeping.
Proof.
  intros Ok Hp. destruct (w_sleep _ _ (ok_waiting _ _ _ _ _ _ Ok) p Hp) as (_ & _ & _ & n & En & Sn & _).
  by exists n.
Qed.

(** A parked task is one that sleeps or waits for [rid]. *)
Definition parked (k : Kernel) (p : ptr) : Prop :=
  p ∈ sleeping_tasks (cpus k c) \/ exists rid, p ∈ waiters k c rid.

Lemma parked_status k f r i p :
  core_ok (tcbs k) (cpus k c) (percpu k c) f r i -> parked k p ->
  exists n, tcbs k !! p = Some n /\ (status n = kSleeping \/ status n = kBlocked).
Proof.
  intros Ok [Hp|[rid Hp]]; [destruct (sleepers_sleep k _ _ _ p Ok Hp) as (n & ? & ?)
    |destruct (waiters_blocked k _ _ _ rid p Ok Hp) as (n & ? & ? & _)]; eauto.
Qed.

Lemma live_parked k f r i t p : live k f r i t -> parked k p -> p <> running_task (percpu k c).
Proof.
  intros L Hp ->. destruct (parked_status k _ _ _ _ (live_ok _ _ _ _ _ L) Hp) as (n & En & Sn).
  rewrite (live_task _ _ _ _ _ L) in En. injection En as <-.
  destruct Sn as [S|S]; [by apply (live_not _ _ _ _ _ kSleeping L)|by apply (live_not _ _ _ _ _ kBlocked L)].
Qed.

(** [Schedule] leaves the parked tasks other than the outgoing one alone. *)
Lemma scheduled_parked k k' f r t next f' r' i' p :
  scheduled entry c k k' f r t next f' r' i' -> parked k p -> p <> running_task (percpu k c) ->
  (exists n, tcbs k !! p = Some n) -> tcbs k' !! p = tcbs k !! p.
Proof.
  intros S Hp Hne [n En]. rewrite En. apply (sch_other _ _ _ _ _ _ _ _ _ _ _ S); [done| |done]. intros ->.
  destruct (sch_waiting _ _ _ _ _ _ _ _ _ _ _ S) as (S1 & S2 & _).
  assert (parked k' next) as Hp'. { unfold parked, waiters in *. by rewrite S1, S2. }
  destruct (parked_status k' _ _ _ _ (sch_ok _ _ _ _ _ _ _ _ _ _ _ S) Hp') as (n' & En' & Sn).
  destruct (sch_status _ _ _ _ _ _ _ _ _ _ _ S) as [_ (m & Em & Sm & _)].
  rewrite Em in En'. injection En' as <-. destruct Sn; congruence.
Qed.

(** What happens to the parked tasks and the clock in one step. *)
Record step_ok (op : core_op) (k k' : Kernel) : Prop := {
  so_alive : alive_core k';
  so_tick : local_tick (cpus k' c) =
    match op with OpTick => u64 (local_tick (cpus k c) + 1) | _ => local_tick (cpus k c) end;
  so_sleep : forall p, p ∈ sleeping_tasks (cpus k c) ->
    (op = OpTick -> local_tick (cpus k' c) < wake_tick_of (tcbs k) p) ->
    p ∈ sleeping_tasks (cpus k' c) /\ tcbs k' !! p = tcbs k !! p;
  so_wait : forall rid p, p ∈ waiters k c rid -> op <> OpWakeup rid ->
    p ∈ waiters k' c rid /\ tcbs k' !! p = tcbs k !! p
}.

Lemma alive_intro k : (exists f r i t, live k f r i t) -> alive_core k.
Proof. done. Qed.

Lemma step_schedule k f r i t :
  live k f r i t -> exists k', Schedule entry c k = Ret k' tt /\ step_ok OpSchedule k k'.
Proof.
  intros L. pose proof L as [Hc Hl Ok Et St].
  destruct (schedule_spec entry c k f r i t Hc Hl Ok Et) as (k' & next & f' & r' & i' & E & S).
  exists k'. split; [done|]. destruct (sch_waiting _ _ _ _ _ _ _ _ _ _ _ S) as (S1 & S2 & S3).
  split; [|done|..].
  - destruct (scheduled_live _ _ _ _ _ _ _ _ _ Hc S) as [n Ln]. by exists f', r', i', n.
  - intros p Hp _. rewrite S1. split; [done|]. eapply scheduled_parked; [exact S|by left| |].
    + eapply live_parked; [done|by left].
    + destruct (sleepers_sleep k _ _ _ p Ok Hp) as (n & ? & _). eauto.
  - intros rid p Hp _. split; [unfold waiters in *; by rewrite S2|]. eapply scheduled_parked; [exact S|right; by exists rid| |].
    + eapply live_parked; [done|right; by exists rid].
    + destruct (waiters_blocked k _ _ _ rid p Ok Hp) as (n & ? & _). eauto.
Qed.

(** The current task parks itself, then the core reschedules. *)
Lemma stop_step op k k0 k' f r i t t2 f0 r0 next f' r' i' :
  live k f r i t -> op <> OpTick ->
  tcbs k0 = <[running_task (percpu k c) := t2]> (tcbs k) -> percpu k0 c = percpu k c ->
  local_tick (cpus k0 c) = local_tick (cpus k c) ->
  (forall p, p ∈ sleeping_tasks (cpus k c) -> p ∈ sleeping_tasks (cpus k0 c)) ->
  (forall rid p, p ∈ waiters k c rid -> p ∈ waiters k0 c rid) ->
  scheduled entry c k0 k' f0 r0 t2 next f' r' i' -> step_ok op k k'.
Proof.
  intros L Hop Hh P T Hs Hw S. pose proof L as [Hc _ Ok _ _].
  destruct (sch_waiting _ _ _ _ _ _ _ _ _ _ _ S) as (S1 & S2 & S3).
  assert (forall p, parked k p -> parked k0 p) as Hpk.
  { intros p [Hp|[rid Hp]]; [left; by apply Hs|right; exists rid; by apply Hw]. }
  assert (forall p, parked k p -> tcbs k' !! p = tcbs k !! p) as Hkeep.
  { intros p Hp. pose proof (live_parked _ _ _ _ _ _ L Hp) as Hne.
    assert (tcbs k0 !! p = tcbs k !! p) as E0 by (by rewrite Hh, lookup_insert_ne).
    rewrite <- E0. eapply scheduled_parked; [exact S|by apply Hpk|by rewrite P|].
    rewrite E0. destruct (parked_status k _ _ _ p Ok Hp) as (n & ? & _). eauto. }
  split.
  - destruct (scheduled_live _ _ _ _ _ _ _ _ _ Hc S) as [n Ln]. by exists f', r', i', n.
  - rewrite S3, T. by destruct op.
  - intros p Hp _. rewrite S1. split; [by apply Hs|apply Hkeep; by left].
  - intros rid p Hp _. split; [|apply Hkeep; right; by exists rid].
    apply Hw in Hp. unfold waiters in *. by rewrite S2.
Qed.

Lemma step_sleep ms k f r i t :
  live k f r i t -> permitted (OpSleep ms) k = true ->
  exists k', Sleep entry c ms k = Ret k' tt /\ step_ok (OpSleep ms) k k'.
Proof.
  intros L Hp. apply negb_true_iff, Z.eqb_neq in Hp. pose proof L as [Hc Hl Ok Et _].
  destruct (decide (ms = 0)) as [->|Hms].
  - rewrite (Sleep_zero _ _ _ _ _ L Hp). destruct (step_schedule _ _ _ _ _ L) as (k' & E & [A B D F]).
    exists k'. split; [done|]. split; [done..| |]; [by intros p H _; apply D|by intros rid p H _; apply F].
  - pose proof (live_running _ _ _ _ _ L Hp) as St.
    destruct (sleep_spec entry c ms k f r i t Hc Hl Ok Et St Hp Hms)
      as (k0 & k' & next & f0 & r0 & f' & r' & i' & E & F & Ok0 & Qf & Qr & Hh & P & Sl & I & Bl & T & Es & S).
    exists k'. split; [done|]. eapply (stop_step _ k k0); try done.
    + intros p H. rewrite Sl. by right.
    + intros rid p H. unfold waiters in *. by rewrite Bl.
Qed.

Lemma step_block rid k f r i t :
  live k f r i t -> permitted (OpBlock rid) k = true ->
  exists k', Block entry c rid k = Ret k' tt /\ step_ok (OpBlock rid) k k'.
Proof.
  intros L Hp. apply negb_true_iff, Z.eqb_neq in Hp. pose proof L as [Hc Hl Ok Et _].
  pose proof (live_running _ _ _ _ _ L Hp) as St.
  destruct (block_spec entry c rid k f r i t Hc Hl Ok Et St Hp)
    as (k0 & k' & next & f' & r' & i' & E & F & Ok0 & Hh & P & Sl & T & Es & Bl & S).
  exists k'. split; [done|]. eapply (stop_step _ k k0); try done.
  - intros p H. by rewrite Sl.
  - intros rid' p H. unfold waiters in *. rewrite Bl. destruct (decide (rid' = rid)) as [->|Hne].
    + rewrite lookup_insert_eq. cbn. apply elem_of_app. by left.
    + by rewrite lookup_insert_ne.
Qed.

Lemma step_wakeup rid k f r i t :
  live k f r i t -> exists k', Wakeup c rid k = Ret k' tt /\ step_ok (OpWakeup rid) k k'.
Proof.
  intros L. pose proof L as [Hc Hl Ok Et St].
  destruct (wakeup_spec c rid k f r i t Hc Hl Ok Et) as (k' & f' & r' & E & F & Lk & Ok' & Q & Em & R & O & P & Sl & T & I).
  { by eapply live_not. }
  assert (forall p n, tcbs k !! p = Some n -> status n <> kBlocked \/ blocked_on n <> rid -> tcbs k' !! p = tcbs k !! p) as Hk.
  { intros p n En Hn. apply O. intros Hin. destruct (waiters_blocked k _ _ _ rid p Ok Hin) as (m & Em' & Sm & Om).
    rewrite En in Em'. injection Em' as <-. destruct Hn; congruence. }
  exists k'. split; [done|]. split; [|done|..].
  - exists f', r', i, t. split; try done; rewrite P; [|done]. rewrite (Hk _ t); [done|done|].
    left. by eapply live_not.
  - intros p Hp _. rewrite Sl. split; [done|]. destruct (sleepers_sleep k _ _ _ p Ok Hp) as (n & En & Sn).
    apply (Hk p n En). left. by rewrite Sn.
  - intros rid' p Hp Hne. destruct (waiters_blocked k _ _ _ rid' p Ok Hp) as (n & En & Sn & On). split.
    + unfold waiters in *. rewrite Em, lookup_delete_ne; [done|]. by intros ->.
    + apply (Hk p n En). right. rewrite On. by intros ->.
Qed.

(** The tick before it reschedules. *)
Lemma ticked_step k k0 f r i t f0 r0 H1 ws :
  live k f r i t -> ticked c k k0 f r i t f0 r0 H1 ws ->
  (exists t0, live k0 f0 r0 i t0) /\ step_ok OpTick k k0.
Proof.
  intros L [F Lk Ok0 Q W Hh P I]. pose proof L as [Hc Hl Ok Et St].
  assert (running_task (percpu k c) ∉ ws) as Hcur.
  { refine (woken_not_current _ _ _ _ _ _ _ _ _ _ _ Ok Et _ W eq_refl). by eapply live_not. }
  pose proof (wk_tick _ _ _ _ _ W) as T. cbn in T.
  assert (exists t0, live k0 f0 r0 i t0) as L0.
  { exists (if bool_decide (status t = kRunning) then charged t else t). split; try done; rewrite P.
    - rewrite Hh. destruct (bool_decide _); [by rewrite lookup_insert_eq|by rewrite (wk_rest _ _ _ _ _ W)].
    - case_bool_decide as B; [|done]. left. unfold charged. by destruct (0 <? _). }
  assert (forall p, parked k p -> p ∉ ws -> tcbs k0 !! p = tcbs k !! p) as Hk.
  { intros p Hp Hw. pose proof (live_parked _ _ _ _ _ _ L Hp). rewrite Hh.
    destruct (bool_decide _); rewrite ?lookup_insert_ne by done; by rewrite (wk_rest _ _ _ _ _ W). }
  split; [done|]. split; [destruct L0 as [t0 L0]; by exists f0, r0, i, t0|done|..].
  - intros p Hp Hlt. rewrite T in Hlt. specialize (Hlt eq_refl).
    assert (p ∉ ws) as Hw. { intros Hin. pose proof (wk_due _ _ _ _ _ W p Hin) as Hd. cbn in Hd. lia. }
    split; [|apply Hk; [by left|done]].
    pose proof (wk_split _ _ _ _ _ W) as Sp. cbn in Sp. rewrite <- Sp in Hp. by apply elem_of_app in Hp as [?|?].
  - intros rid p Hp _. pose proof (wk_blocked _ _ _ _ _ W) as B. cbn in B.
    split; [unfold waiters in *; by rewrite B|]. apply Hk; [right; by exists rid|]. intros Hin.
    destruct (waiters_blocked k _ _ _ rid p Ok Hp) as (n & En & Sn & _).
    destruct (sleepers_sleep k _ _ _ p Ok) as (m & Em & Sm); [|congruence].
    rewrite <- (wk_split _ _ _ _ _ W). apply elem_of_app. by left.
Qed.

Lemma step_tick k f r i t :
  live k f r i t -> exists k', TickUpdate entry c k = Ret k' tt /\ step_ok OpTick k k'.
Proof.
  intros L. pose proof L as [Hc Hl Ok Et St].
  destruct (tick_spec entry c k f r i t Hc Hl Ok Et) as (k0 & f0 & r0 & H1 & ws & Tk & ->); [by eapply live_not|].
  destruct (ticked_step _ _ _ _ _ _ _ _ _ _ L Tk) as [[t0 L0] [A0 T0 S0 W0]].
  destruct (_ || _); [|by exists k0].
  destruct (step_schedule _ _ _ _ _ L0) as (k' & E & [A T S W]). exists k'. split; [done|].
  split; [done|by rewrite T|..].
  - intros p Hp Hlt. destruct (S0 p Hp) as [Hp0 E0]; [by rewrite <- T|].
    destruct (S p Hp0) as [Hp' E']; [done|]. by rewrite E', E0.
  - intros rid p Hp Hne. destruct (W0 rid p Hp Hne) as [Hp0 E0]. destruct (W rid p Hp0) as [Hp' E']; [done|].
    by rewrite E', E0.
Qed.

(** Every permitted operation of a live core returns and leaves it live. *)
Lemma step_total op k : alive_core k -> permitted op k = true ->
  exists k', run_op op k = Ret k' tt /\ step_ok op k k'.
Proof.
  intros (f & r & i & t & L) Hp. destruct op; cbn [run_op].
  - by eapply step_schedule.
  - by eapply step_sleep.
  - by eapply step_block.
  - by eapply step_wakeup.
  - by eapply step_tick.
Qed.

Lemma core_step_inv op k k' : alive_core k -> step op k k' -> step_ok op k k'.
Proof.
  intros A S. revert A. destruct S as [op' k0 k1 Hp E]. intros A. destruct (step_total op' k0 A Hp) as (k2 & E2 & S). rewrite E in E2.
  by injection E2 as <-.
Qed.

(** ** Properties of runs *)

Lemma run_alive ops k k' : alive_core k -> run ops k k' -> alive_core k'.
Proof.
  intros A R. revert A. induction R as [|op ops k k1 k2 S R IH]; intros A; [done|].
  apply IH. by apply (so_alive op k k1), core_step_inv.
Qed.

(** The number of timer ticks in a run. *)
Fixpoint ticks (ops : list core_op) : Z :=
  match ops with
  | [] => 0
  | OpTick :: ops => 1 + ticks ops
  | _ :: ops => ticks ops
  end.

Lemma ticks_nonneg ops : 0 <= ticks ops.
Proof. induction ops as [|[] ops IH]; cbn; lia. Qed.

(** A sleeper stays asleep while the clock is before its wake tick. *)
Lemma run_sleeper ops k k' p : alive_core k -> run ops k k' ->
  p ∈ sleeping_tasks (cpus k c) -> 0 <= local_tick (cpus k c) -> wake_tick_of (tcbs k) p < 2 ^ 64 ->
  local_tick (cpus k c) + ticks ops < wake_tick_of (tcbs k) p ->
  p ∈ sleeping_tasks (cpus k' c) /\ tcbs k' !! p = tcbs k !! p /\
  local_tick (cpus k' c) = local_tick (cpus k c) + ticks ops.
Proof.
  intros A R. revert A. induction R as [k|op ops k k1 k2 S R IH]; intros A Hp H0 Hw Ht; cbn in Ht |- *.
  { split_and!; [done..|lia]. }
  destruct (core_step_inv op k k1 A S) as [A1 T1 S1 _]. pose proof (ticks_nonneg ops) as Hn.
  assert (local_tick (cpus k1 c) = local_tick (cpus k c) + match op with OpTick => 1 | _ => 0 end /\
    local_tick (cpus k1 c) + ticks ops < wake_tick_of (tcbs k) p) as [T1' Ht1].
  { rewrite T1. destruct op; try lia. unfold u64, wrap. rewrite Z.mod_small by lia. lia. }
  destruct (S1 p Hp) as [Hp1 E1]. { lia. }
  assert (wake_tick_of (tcbs k1) p = wake_tick_of (tcbs k) p) as Ew by (unfold wake_tick_of; by rewrite E1).
  destruct (IH A1 Hp1) as (Hp2 & E2 & T2); [destruct op; lia|lia|lia|].
  split; [done|]. split; [by rewrite E2|]. rewrite T2, T1'. destruct op; lia.
Qed.

Lemma run_waiter ops k k' rid p : alive_core k -> run ops k k' ->
  p ∈ waiters k c rid -> OpWakeup rid ∉ ops -> p ∈ waiters k' c rid /\ tcbs k' !! p = tcbs k !! p.
Proof.
  intros A R. revert A. induction R as [k|op ops k k1 k2 S R IH]; intros A Hp Hn; [done|].
  apply not_elem_of_cons in Hn as [Hne Hn].
  destruct (core_step_inv op k k1 A S) as [A1 _ _ W1]. destruct (W1 rid p Hp) as [Hp1 E1]; [by apply not_eq_sym|].
  destruct (IH A1 Hp1 Hn) as [Hp2 E2]. by rewrite E2, E1.
Qed.

(** What the tick does to a sleeper that is due. *)
Lemma tick_due k k' p : alive_core k -> step OpTick k k' -> p ∈ sleeping_tasks (cpus k c) ->
  wake_tick_of (tcbs k) p <= u64 (local_tick (cpus k c) + 1) ->
  p ∉ sleeping_tasks (cpus k' c) /\ exists n, tcbs k' !! p = Some n /\ (status n = kReady \/ status n = kRunning).
Proof.
  intros (f & r & i & t & L) St Hp Hd. pose proof L as [Hc Hl Ok Et _]. inversion St as [? ? ? _ E]; subst.
  cbn [run_op] in E. destruct (tick_spec entry c k f r i t Hc Hl Ok Et) as (k0 & f0 & r0 & H1 & ws & Tk & Es).
  { by eapply live_not. }
  destruct (ticked_step _ _ _ _ _ _ _ _ _ _ L Tk) as [[t0 L0] _]. destruct Tk as [F Lk Ok0 Q W Hh P I].
  assert (p ∉ sleeping_tasks (cpus k0 c)) as Hns.
  { intros Hin. pose proof (wk_later _ _ _ _ _ W p Hin) as Hl'. cbn in Hl'. lia. }
  assert (p ∈ ws) as Hws.
  { pose proof (wk_split _ _ _ _ _ W) as Sp. cbn in Sp. rewrite <- Sp in Hp. by apply elem_of_app in Hp as [?|?]. }
  assert (p <> running_task (percpu k c)) as Hne by (eapply live_parked; [done|by left]).
  assert (task_is (tcbs k0) p kReady (policy_of (tcbs k) p)) as [_ (n & En & Sn & _)].
  { rewrite Hh. pose proof (wk_ready _ _ _ _ _ W p Hws). destruct (bool_decide _); [|done].
    by eapply task_is_off; [apply off_insert|..]. }
  rewrite (bool_decide_eq_false_2 (ws = [])) in Es by (intros ->; by apply elem_of_nil in Hws). cbn in Es.
  pose proof L0 as [_ Hl0 _ Et0 _].
  destruct (schedule_spec entry c k0 f0 r0 i t0 Hc Hl0 Ok0 Et0) as (k2 & next & f' & r' & i' & E2 & S).
  rewrite Es, E2 in E. injection E as <-. destruct (sch_waiting _ _ _ _ _ _ _ _ _ _ _ S) as (-> & _).
  split; [done|]. destruct (decide (p = next)) as [->|Hpn].
  - destruct (sch_status _ _ _ _ _ _ _ _ _ _ _ S) as [_ (m & Em & Sm & _)]. eauto.
  - exists n. split; [|by left]. apply (sch_other _ _ _ _ _ _ _ _ _ _ _ S); [by rewrite P|done|done].
Qed.

(** What a timer tick makes of the core.  The clock goes up by one.  A sleeper is
    ready or running afterwards if its wake tick has come, and sleeps on unchanged
    if not; the blocked tasks wait on.  With [ws] the sleepers that are due, the
    earliest first: if there are none and the time slice of the running task is not
    used up by this tick, the task runs on, charged one tick; otherwise the next
    task is the head of the run queue with the woken tasks and then the running one
    appended to their classes. *)
Definition tick_effects (k k' : Kernel) : Prop :=
  local_tick (cpus k' c) = u64 (local_tick (cpus k c) + 1) /\
  (forall p, p ∈ sleeping_tasks (cpus k c) ->
     if wake_tick_of (tcbs k) p <=? local_tick (cpus k' c)
     then p ∉ sleeping_tasks (cpus k' c) /\ exists n, tcbs k' !! p = Some n /\ (status n = kReady \/ status n = kRunning)
     else p ∈ sleeping_tasks (cpus k' c) /\ tcbs k' !! p = tcbs k !! p) /\
  (forall rid p, p ∈ waiters k c rid -> p ∈ waiters k' c rid /\ tcbs k' !! p = tcbs k !! p) /\
  forall f r i t, live k f r i t -> exists ws,
    (forall p, p ∈ ws <-> p ∈ sleeping_tasks (cpus k c) /\ wake_tick_of (tcbs k) p <= local_tick (cpus k' c)) /\
    Sorted.StronglySorted (fun a b => wake_tick_of (tcbs k) a <= wake_tick_of (tcbs k) b) ws /\
    let cur := running_task (percpu k c) in
    if bool_decide (ws = []) && negb (bool_decide (status t = kRunning) && (time_slice_remaining (sched_info (charged t)) =? 0))
    then running_task (percpu k' c) = cur /\
         tcbs k' !! cur = Some (if bool_decide (status t = kRunning) then charged t else t)
    else running_task (percpu k' c) =
           fst (take_next (idle_task (percpu k c)) (give_back cur t (push_all (tcbs k) ws (MkRunq (fifo_queue f) (rr_queue r))))).

Lemma tick_effects_hold k k' : alive_core k -> TickUpdate entry c k = Ret k' tt -> tick_effects k k'.
Proof.
  intros A E. assert (step OpTick k k') as St by (by constructor).
  destruct (core_step_inv OpTick k k' A St) as [A' T S W]. split; [done|]. split; [|split].
  - intros p Hp. destruct (Z.leb_spec (wake_tick_of (tcbs k) p) (local_tick (cpus k' c))) as [Hd|Hd].
    + apply (tick_due k k' p A St Hp). by rewrite <- T.
    + by apply S.
  - intros rid p Hp. by apply W.
  - intros f r i t L. pose proof L as [Hc Hl Ok Et _].
    destruct (tick_spec entry c k f r i t Hc Hl Ok Et) as (k0 & f0 & r0 & H1 & ws & Tk & Es); [by eapply live_not|].
    destruct (ticked_step _ _ _ _ _ _ _ _ _ _ L Tk) as [_ [_ T0 _ _]]. destruct Tk as [F Lk Ok0 Q Wk Hh P I].
    assert (running_task (percpu k c) ∉ ws) as Hcur.
    { refine (woken_not_current _ _ _ _ _ _ _ _ _ _ _ Ok Et _ Wk eq_refl). by eapply live_not. }
    assert (tcbs k0 !! running_task (percpu k c) = Some (if bool_decide (status t = kRunning) then charged t else t)) as Ec.
    { rewrite Hh. destruct (bool_decide _); [by rewrite lookup_insert_eq|by rewrite (wk_rest _ _ _ _ _ Wk)]. }
    exists ws. split; [|split; [apply (wk_order _ _ _ _ _ Wk)|]].
    + intros p. rewrite T. pose proof (wk_split _ _ _ _ _ Wk) as Sp. cbn in Sp. rewrite <- Sp, elem_of_app. split.
      * intros Hp. split; [by left|]. by apply (wk_due _ _ _ _ _ Wk).
      * intros [[Hp|Hp] Hd]; [done|]. pose proof (wk_later _ _ _ _ _ Wk p Hp) as Hlt. cbn in Hlt. lia.
    + cbv zeta. rewrite E in Es. rewrite <- (negb_involutive (bool_decide (ws = []))), <- negb_orb.
      destruct (_ || _); cbn [negb].
      * destruct (schedule_spec entry c k0 f0 r0 i _ Hc Lk Ok0 ltac:(by rewrite P)) as (k2 & next & f' & r' & i' & E2 & Sc).
        rewrite E2 in Es. injection Es as <-. rewrite (sch_running _ _ _ _ _ _ _ _ _ _ _ Sc).
        pose proof (sch_next _ _ _ _ _ _ _ _ _ _ _ Sc) as Qn. rewrite P, Q in Qn.
        replace (give_back (running_task (percpu k c)) t) with
          (give_back (running_task (percpu k c)) (if bool_decide (status t = kRunning) then charged t else t)); [by rewrite <- Qn|].
        unfold give_back. destruct (bool_decide (status t = kRunning)) eqn:B; [|by rewrite B].
        unfold charged. by destruct (0 <? _); cbn; rewrite B.
      * injection Es as ->. by rewrite P.
Qed.

(** ** Turns *)

Fixpoint schedules (n : nat) : KM unit :=
  match n with
  | O => ret tt
  | S n' => let* _ := Schedule entry c in schedules n'
  end.

(** One preemption without real-time tasks: the head of the queue runs, the
    others move up. *)
Lemma schedule_turn k f r i t x q :
  live k f r i t -> fifo_queue f = [] -> policy t <> kRealTime -> rr_queue r = x :: q ->
  exists k' f' r' i' t' tail, Schedule entry c k = Ret k' tt /\ live k' f' r' i' t' /\
    running_task (percpu k' c) = x /\ fifo_queue f' = [] /\ policy t' <> kRealTime /\ rr_queue r' = q ++ tail.
Proof.
  intros [Hc Hl Ok Et St] Ef Hp Er.
  destruct (schedule_spec entry c k f r i t Hc Hl Ok Et) as (k' & next & f' & r' & i' & E & S).
  pose proof (sch_next _ _ _ _ _ _ _ _ _ _ _ S) as Q. rewrite Ef, Er in Q.
  assert (exists tail, give_back (running_task (percpu k c)) t (MkRunq [] (x :: q)) = MkRunq [] (x :: q ++ tail)) as [tail G].
  { unfold give_back, push_class. case_bool_decide; [destruct (policy t); try done|];
      first [by exists [running_task (percpu k c)]|exists []; by rewrite app_nil_r]. }
  rewrite G in Q. cbn in Q. injection Q as -> Qf Qr.
  destruct (sch_status _ _ _ _ _ _ _ _ _ _ _ S) as [_ (n & En & Sn & Pn)].
  destruct (queue_task _ _ _ (ok_rr _ _ _ _ _ _ Ok) x) as [_ (m & Em & _ & Pm)]; [rewrite Er; by left|].
  rewrite Em in Pn. pose proof (sch_running _ _ _ _ _ _ _ _ _ _ _ S) as R.
  exists k', f', r', i', n, tail. split; [done|].
  split; [split; [done|apply S|apply S|by rewrite R|by left]|]. split_and!; congruence.
Qed.

Lemma schedules_turn j : forall k f r i t p,
  live k f r i t -> fifo_queue f = [] -> policy t <> kRealTime -> rr_queue r !! j = Some p ->
  exists k', schedules (S j) k = Ret k' tt /\ alive_core k' /\ running_task (percpu k' c) = p.
Proof.
  induction j as [|j IH]; intros k f r i t p L Ef Hp Hj;
    (destruct (rr_queue r) as [|x q] eqn:Er; [done|]);
    destruct (schedule_turn _ _ _ _ _ _ _ L Ef Hp Er) as (k' & f' & r' & i' & t' & tail & E & L' & R & Ef' & Hp' & Er');
    cbn [schedules bind]; rewrite E; cbn [bind].
  - exists k'. split; [done|]. split; [by exists f', r', i', t'|]. cbn in Hj. congruence.
  - apply (IH k' f' r' i' t' p L' Ef' Hp'). rewrite Er'. cbn in Hj. by apply lookup_app_l_Some.
Qed.

End runs.

(** ** The claims *)

(** C2: the invariant and progress of a core.  From a live core (lock free,
    queues, sleepers and waiting lists consistent with the control blocks, the
    current task running or the idle task) every run of operations leads to a
    live core, and in every state reached every operation that the idle-task
    rule permits returns: no assertion of schedule.cpp, sleep.cpp, block.cpp,
    wakeup.cpp and tick_update.cpp fails and no lock is left held. *)
Theorem core_never_gets_stuck (entry c : Z) (k : Kernel) :
  alive_core c k ->
  forall ops k', run entry c ops k k' ->
    alive_core c k' /\
    forall op, permitted c op k' = true -> exists k'', step entry c op k' k'' /\ alive_core c k''.
Proof.
  intros A ops k' R. pose proof (run_alive _ _ _ _ _ A R) as A'. split; [done|]. intros op Hp.
  destruct (step_total entry c op k' A' Hp) as (k'' & E & S). exists k''. split; [by constructor|apply S].
Qed.

Lemma sample_live : live 0 sample_kernel sample_fifo sample_rr sample_idle task2.
Proof. split; [done|done|exact sample_ok|apply sample_lookup|by left]. Qed.

Lemma core_never_gets_stuck_witness :
  alive_core 0 sample_kernel /\
  exists k', step 900 0 (OpSleep 5) sample_kernel k' /\ alive_core 0 k'.
Proof.
  assert (alive_core 0 sample_kernel) as A
    by exact (ex_intro _ _ (ex_intro _ _ (ex_intro _ _ (ex_intro _ _ sample_live)))).
  split; [exact A|].
  apply (core_never_gets_stuck 900 0 sample_kernel A [] sample_kernel (run_nil _ _ _)). reflexivity.
Defined.

(** C12: sleeping takes the time it should.  In any run of a live core in which
    exactly [wake_tick - local_tick - 1] timer ticks occur, interleaved with any
    other operations, a sleeping task stays asleep with its control block
    untouched; the very next timer tick takes it off the heap of sleepers and
    makes it ready (or running already).  So a task is woken neither early nor
    late. *)
Theorem sleeper_wakes_at_its_tick (entry c : Z) (k k1 k2 : Kernel) (ops : list core_op) (p : ptr) :
  alive_core c k -> p ∈ sleeping_tasks (cpus k c) -> 0 <= local_tick (cpus k c) ->
  wake_tick_of (tcbs k) p < 2 ^ 64 ->
  local_tick (cpus k c) + ticks ops + 1 = wake_tick_of (tcbs k) p ->
  run entry c ops k k1 -> step entry c OpTick k1 k2 ->
  p ∈ sleeping_tasks (cpus k1 c) /\ tcbs k1 !! p = tcbs k !! p /\
  p ∉ sleeping_tasks (cpus k2 c) /\
  exists n, tcbs k2 !! p = Some n /\ (status n = kReady \/ status n = kRunning).
Proof.
  intros A Hp H0 Hw Ht R S. destruct (run_sleeper entry c ops k k1 p A R Hp H0 Hw) as (Hp1 & E1 & T1); [lia|].
  pose proof (run_alive _ _ _ _ _ A R) as A1. split; [done|]. split; [done|].
  apply (tick_due entry c k1 k2 p A1 S Hp1). rewrite T1. unfold wake_tick_of in *. rewrite E1.
  pose proof (ticks_nonneg ops). unfold u64, wrap. rewrite Z.mod_small; lia.
Qed.

Lemma sleeper_wakes_at_its_tick_witness :
  exists k2, step 900 0 OpTick sample_kernel k2 /\ 4 ∉ sleeping_tasks (cpus k2 0).
Proof.
  assert (alive_core 0 sample_kernel) as A
    by exact (ex_intro _ _ (ex_intro _ _ (ex_intro _ _ (ex_intro _ _ sample_live)))).
  destruct (step_total 900 0 OpTick sample_kernel A eq_refl) as (k2 & E & _). exists k2.
  assert (step 900 0 OpTick sample_kernel k2) as S by exact (step_op 900 0 OpTick _ k2 eq_refl E).
  split; [exact S|].
  refine (proj1 (proj2 (proj2 (sleeper_wakes_at_its_tick 900 0 sample_kernel sample_kernel k2 [] 4
    A _ _ _ _ (run_nil _ _ _) S)))).
  - by left.
  - vm_compute. discriminate.
  - vm_compute. reflexivity.
  - vm_compute. reflexivity.
Defined.

(** C13: blocking lasts until the wake-up.  In any run of a live core without a
    [Wakeup] of its resource, a blocked task stays in the waiting list with its
    control block untouched; a [Wakeup] of the resource then leaves no waiter
    and the task ready. *)
Theorem blocked_until_wakeup (entry c : Z) (k k1 k2 : Kernel) (ops : list core_op) (rid : Z) (p : ptr) :
  alive_core c k -> p ∈ waiters k c rid -> OpWakeup rid ∉ ops ->
  run entry c ops k k1 -> step entry c (OpWakeup rid) k1 k2 ->
  p ∈ waiters k1 c rid /\ tcbs k1 !! p = tcbs k !! p /\
  waiters k2 c rid = [] /\ exists n, tcbs k2 !! p = Some n /\ status n = kReady.
Proof.
  intros A Hp Hn R S. destruct (run_waiter entry c ops k k1 rid p A R Hp Hn) as [Hp1 E1].
  destruct (run_alive _ _ _ _ _ A R) as (f & r & i & t & L). split; [done|]. split; [done|].
  inversion S as [? ? ? _ E]; subst. cbn [run_op] in E.
  destruct (wakeup_spec c rid k1 f r i t (live_core _ _ _ _ _ _ L) (live_lock _ _ _ _ _ _ L) (live_ok _ _ _ _ _ _ L)
    (live_task _ _ _ _ _ _ L)) as (k' & f' & r' & E' & _ & _ & _ & _ & Em & Rd & _).
  { by eapply live_not. }
  rewrite E in E'. injection E' as <-. split; [unfold waiters; by rewrite Em, lookup_delete_eq|].
  destruct (Rd p Hp1) as [_ (n & En & Sn & _)]. by exists n.
Qed.

Lemma sample_waiters : waiters sample_kernel 0 sample_rid = [5].
Proof. unfold waiters. cbn [cpus sample_kernel blocked_tasks sample_cpu]. by rewrite (proj2 sample_blocked_ok). Qed.

Lemma blocked_until_wakeup_witness :
  exists k2, step 900 0 (OpWakeup sample_rid) sample_kernel k2 /\ waiters k2 0 sample_rid = [].
Proof.
  assert (alive_core 0 sample_kernel) as A
    by exact (ex_intro _ _ (ex_intro _ _ (ex_intro _ _ (ex_intro _ _ sample_live)))).
  destruct (step_total 900 0 (OpWakeup sample_rid) sample_kernel A eq_refl) as (k2 & E & _). exists k2.
  assert (step 900 0 (OpWakeup sample_rid) sample_kernel k2) as S by exact (step_op 900 0 (OpWakeup sample_rid) sample_kernel k2 eq_refl E).
  split; [exact S|].
  refine (proj1 (proj2 (proj2 (blocked_until_wakeup 900 0 sample_kernel sample_kernel k2 [] sample_rid 5
    A _ _ (run_nil _ _ _) S)))).
  - rewrite sample_waiters. by left.
  - apply not_elem_of_nil.
Defined.

(** C24: no starvation among normal tasks.  On a live core without real-time
    tasks, the task at position [j] of the round-robin queue runs after exactly
    [j + 1] calls of [Schedule], whatever the current task does with its turn. *)
Theorem round_robin_turns (entry c : Z) (k : Kernel) (f : Fifo) (r : RoundRobin) (i : Idle) (t : TCB) (j : nat) (p : ptr) :
  live c k f r i t -> fifo_queue f = [] -> policy t <> kRealTime -> rr_queue r !! j = Some p ->
  exists k', schedules entry c (S j) k = Ret k' tt /\ alive_core c k' /\ running_task (percpu k' c) = p.
Proof. apply schedules_turn. Qed.

Lemma round_robin_turns_witness :
  exists k', schedules 900 0 1 sample_kernel = Ret k' tt /\ running_task (percpu k' 0) = 3.
Proof.
  destruct (round_robin_turns 900 0 sample_kernel sample_fifo sample_rr sample_idle task2 0 3) as (k' & E & _ & R).
  - exact sample_live.
  - reflexivity.
  - discriminate.
  - reflexivity.
  - exists k'. split; [exact E|exact R].
Defined.

End KernelRun.
