(* ===== verification/TaskTable.v ===== *)
(** * The task table: adding, finding and reparenting tasks

    [TaskManager::InitCurrentCore], [AddTask], [FindTask], [ReparentChildren]
    and [GetThreadGroup] of src/src/task/task_manager.cpp.  [InitCurrentCore]
    establishes the invariant that the runs of KernelRun.v keep; [AddTask] keeps
    it on the core that receives the task. *)

From stdpp Require Import base numbers list gmap functions strings.
From Stdlib Require Import ZArith Lia.
From S2P Require Import Prelude Errors ResourceId SpinLock Tcb NkPriorityQueue NkUnorderedMap Schedulers TaskManager KernelInv KernelSpec KernelProps KernelRun.
Import Tcb Sched TaskManager KernelInv KernelSpec KernelProps KernelRun.

Local Open Scope Z_scope.

Module TaskTable.

(** ** Critical sections of the table *)

Definition table_held (c : Z) (k : Kernel) : Kernel :=
  put_intr c false (set_task_table_lock_ (SpinLock.MkSpinLock true c (intr k c)) k).

Definition table_released (c : Z) (k : Kernel) : Kernel :=
  let l := task_table_lock_ k in
  put_intr c (if SpinLock.saved_intr_enable_ l then true else intr k c)
    (set_task_table_lock_ (SpinLock.MkSpinLock false SpinLock.no_core (SpinLock.saved_intr_enable_ l)) k).

Lemma table_guard_run {A} c k k2 (a : A) (body : KM A) :
  free_lock (task_table_lock_ k) -> body (table_held c k) = Ret k2 a ->
  task_table_lock_ k2 = task_table_lock_ (table_held c k) ->
  table_guard c body k = Ret (table_released c k2) a.
Proof.
  intros [L _] E Hl. unfold table_guard, SpinLock.with_guard. cbn [bind].
  unfold SpinLock.lock_m, SpinLock.Lock. rewrite L. cbn [has_value bind].
  change (put_intr c false _) with (table_held c k). rewrite E. cbn [bind].
  unfold SpinLock.unlock_m, SpinLock.UnLock, SpinLock.IsLockedByCurrentCore, table_released. rewrite Hl. cbn.
  by rewrite Z.eqb_refl.
Qed.

Lemma table_released_held c k g :
  (forall k, task_table_lock_ (g k) = task_table_lock_ k) -> (forall k, intr (g k) = intr k) ->
  intr (table_released c (g (table_held c k))) c = intr k c.
Proof.
  intros Hl Hi. unfold table_released. rewrite Hl, Hi. cbn. unfold put_intr. cbn. fn_simp. by destruct (intr k c).
Qed.

Lemma table_erase {V} (m : NkUnorderedMap.umap Z V) n : NkUnorderedMap.wf hash_id m ->
  NkUnorderedMap.to_map (NkUnorderedMap.erase hash_id m n).1 = delete n (NkUnorderedMap.to_map m).
Proof.
  intros W. pose proof (NkUnorderedMap.erase_spec hash_id m n W) as He.
  destruct (NkUnorderedMap.erase hash_id m n) as [m' n']. cbn [fst]. by destruct He as (_ & _ & ->).
Qed.

(** ** InitCurrentCore *)

(** A core before its initialisation. *)
Record untouched (X : CpuSchedData) : Prop := {
  un_lock : free_lock (sched_lock X);
  un_scheds : schedulers X = [None; None; None];
  un_sleep : sleeping_tasks X = [];
  un_wf : NkUnorderedMap.wf hash_id (blocked_tasks X);
  un_blocked : NkUnorderedMap.to_map (blocked_tasks X) = ∅
}.

Definition fresh_ptr (h : heap) : ptr := fresh ({[nullptr]} ∪ dom h).

Lemma fresh_ptr_spec h : fresh_ptr h <> nullptr /\ h !! fresh_ptr h = None.
Proof.
  pose proof (is_fresh ({[nullptr]} ∪ dom h : gset ptr)) as Hf. fold (fresh_ptr h) in Hf.
  apply not_elem_of_union in Hf as [H1 H2]. split; [by intros E; apply H1, elem_of_singleton|by apply not_elem_of_dom].
Qed.

Definition idle_tcb (entry trap_size alloc idle_entry : Z) : TCB :=
  set_policy kIdle (set_status kReady
    (new_kernel_thread entry trap_size alloc "Idle" INT_MAX idle_entry 0)).

Lemma init_spec entry c trap alloc ie k :
  c <> SpinLock.no_core -> untouched (cpus k c) ->
  let p := fresh_ptr (tcbs k) in let t := idle_tcb entry trap alloc ie in
  exists k', InitCurrentCore entry c trap alloc ie k = Ret k' tt /\
    tcbs k' = <[p := t]> (tcbs k) /\ percpu k' c = MkPerCpu p p /\ task_table_ k' = task_table_ k /\
    live c k' (MkFifo [] zero_stats) (MkRr [] zero_stats) (MkIdle p (inc_enqueues zero_stats)) t.
Proof.
  intros Hc [Lk Sc Sl Wf Bl] p t. destruct (fresh_ptr_spec (tcbs k)) as [Hz Hn]. fold p in Hz, Hn.
  destruct (lock_free c k Lk) as (k1 & E1 & F1 & [V1a V1b V1c] & I1 & R1 & B1 & BC1).
  set (X2 := set_schedulers [Some (SFifo (MkFifo [] zero_stats)); Some (SRr (MkRr [] zero_stats));
    Some (SIdle (MkIdle nullptr zero_stats))] (held c (intr k c) (cpus k c))).
  set (k2 := set_cpus (<[c := X2]> (cpus k1)) k1).
  set (t0 := new_kernel_thread entry trap alloc "Idle" INT_MAX ie 0).
  set (k3 := set_tcbs (<[p := t]> (tcbs k)) k2).
  set (ss := [Some (SFifo (MkFifo [] zero_stats)); Some (SRr (MkRr [] zero_stats));
    Some (SIdle (MkIdle p (inc_enqueues zero_stats)))]).
  assert (exists k4, init_core entry c trap alloc ie k1 = Ret k4 tt /\
    view c k4 (<[p := t]> (tcbs k)) (set_schedulers ss X2) (MkPerCpu p p) /\ task_table_ k4 = task_table_ k1)
    as (k4 & E4 & [V4a V4b V4c] & T4).
  { unfold init_core. cbn [bind]. rewrite (scheduler_of_spec c kNormal k1 [None; None; None] None) by (by rewrite V1b || done).
    cbn [bind]. unfold upd_cpu at 1. cbn [modify bind]. rewrite V1b. fold X2 k2.
    rewrite (on_heap_ret k2 (<[p := t0]> (tcbs k)) _ p) by (unfold new_tcb, k2; cbn; by rewrite V1a).
    cbn [bind]. rewrite (on_heap_upd _ p t0) by (cbn; by rewrite lookup_insert_eq). cbn [bind].
    rewrite (on_heap_upd _ p (set_status kReady t0)) by (cbn; by rewrite lookup_insert_eq). cbn [bind tcbs set_tcbs].
    rewrite !insert_insert_eq. change (set_tcbs _ (set_tcbs _ (set_tcbs _ k2))) with k3.
    unfold enqueue_if. cbn [bind].
    rewrite (scheduler_of_spec c kIdle k3 _ (Some (SIdle (MkIdle nullptr zero_stats)))
      (f_equal schedulers (fn_lookup_insert (cpus k1) c X2))) by done.
    cbn [bind]. rewrite (on_heap_ret k3 (tcbs k3) _ (SIdle (MkIdle p (inc_enqueues zero_stats)))) by done.
    rewrite set_tcbs_id. cbn [bind]. eexists. split; [reflexivity|].
    split; [|done]. split; cbn; fn_simp; [done|by unfold k3, k2; cbn; fn_simp|done]. }
  destruct (guard_run c k k1 k4 (intr k c) tt (set_schedulers ss (cpus k c)) (init_core entry c trap alloc ie) Hc E1 E4)
    as (k5 & E5 & F5 & [V5a V5b V5c] & _); [by rewrite V4b|].
  exists k5. split; [exact E5|]. split; [by rewrite V5a, V4a|]. split; [by rewrite V5c, V4c|].
  split; [by rewrite (frame_table _ _ _ F5), T4, (frame_table _ _ _ F1)|].
  split; rewrite ?V5a, ?V5b, ?V5c, ?V4a, ?V4c; [done|done| |by rewrite lookup_insert_eq|by right].
  assert (task_is (<[p := t]> (tcbs k)) p kReady kIdle) as Hi.
  { split; [done|]. exists t. by rewrite lookup_insert_eq. }
  split; cbn [running_task idle_task]; [done|done|by left|..].
  - split; [apply NoDup_nil_2|]. by intros q ?%elem_of_nil.
  - split; [apply NoDup_nil_2|]. by intros q ?%elem_of_nil.
  - exists t. rewrite lookup_insert_eq. split; [done|]. split; [done|]. by left.
  - split; cbn; rewrite ?Sl, ?Bl; [apply NoDup_nil_2|by intros q ?%elem_of_nil|..].
    + intros j Hj. simpl in Hj. lia.
    + done.
    + intros rid l. rewrite lookup_empty. done.
Qed.

(** ** AddTask *)

(** The control block with its ids. *)
Definition with_ids (k : Kernel) (t : TCB) : TCB :=
  let t := if pid t =? 0 then set_pid (pid_allocator k) t else t in
  if tgid t =? 0 then set_tgid (pid t) t else t.

Definition next_pid (k : Kernel) (t : TCB) : Z :=
  if pid t =? 0 then u64 (pid_allocator k + 1) else pid_allocator k.

Lemma set_pid_allocator_id k : set_pid_allocator (pid_allocator k) k = k.
Proof. by destruct k. Qed.

Lemma assign_ids_spec k task t :
  tcbs k !! task = Some t ->
  assign_ids task k = Ret (set_tcbs (<[task := with_ids k t]> (tcbs k)) (set_pid_allocator (next_pid k t) k)) tt.
Proof.
  intros Et. unfold assign_ids, with_ids, next_pid. cbn [bind]. rewrite (on_heap_tcb _ _ _ Et). cbn [bind].
  destruct (pid t =? 0).
  - unfold AllocatePid at 1. cbn [bind]. rewrite (on_heap_upd _ task t) by done. cbn [bind].
    rewrite (on_heap_tcb _ task (set_pid (pid_allocator k) t)) by (cbn; by rewrite lookup_insert_eq). cbn [bind].
    destruct (tgid (set_pid (pid_allocator k) t) =? 0); [|done].
    rewrite (on_heap_upd _ task (set_pid (pid_allocator k) t)) by (cbn; by rewrite lookup_insert_eq).
    cbn. by rewrite insert_insert_eq.
  - cbn [ret]. rewrite (on_heap_tcb _ _ _ Et). cbn [bind]. rewrite set_pid_allocator_id. destruct (tgid t =? 0).
    + by rewrite (on_heap_upd _ task t).
    + rewrite insert_id by done. by rewrite set_tcbs_id.
Qed.

Lemma with_ids_keeps k t :
  status (with_ids k t) = status t /\ policy (with_ids k t) = policy t /\
  cpu_affinity (with_ids k t) = cpu_affinity t /\
  pid (with_ids k t) = (if pid t =? 0 then pid_allocator k else pid t).
Proof. unfold with_ids. by destruct (pid t =? 0), (tgid _ =? 0). Qed.

(** The run queue of another core. *)
Lemma lock_on c d k :
  free_lock (sched_lock (cpus k d)) ->
  sched_lock_m c d k =
    Ret (put_intr c false (set_cpus (<[d := held c (intr k c) (cpus k d)]> (cpus k)) k)) (Value tt).
Proof. intros [L _]. unfold sched_lock_m, SpinLock.lock_m, SpinLock.Lock. by rewrite L. Qed.

Lemma unlock_on c d i X k :
  cpus k d = held c i X ->
  sched_unlock_m c d k =
    Ret (put_intr c (if i then true else intr k c) (set_cpus (<[d := released i X]> (cpus k)) k)) (Value tt).
Proof.
  intros E. unfold sched_unlock_m, SpinLock.unlock_m, SpinLock.UnLock, SpinLock.IsLockedByCurrentCore.
  rewrite E. cbn. by rewrite Z.eqb_refl.
Qed.

Lemma enqueue_on_spec c d k f r i task t :
  free_lock (sched_lock (cpus k d)) -> tcbs k !! task = Some t -> task <> nullptr -> user_policy (policy t) ->
  schedulers (cpus k d) = [Some (SFifo f); Some (SRr r); Some (SIdle i)] ->
  exists k' t' f' r', enqueue_on c d (policy t) task k = Ret k' tt /\
    view d k' (<[task := t']> (tcbs k))
      (released (intr k c) (set_schedulers [Some (SFifo f'); Some (SRr r'); Some (SIdle i)] (cpus k d))) (percpu k d) /\
    core_of t' = core_of t /\
    MkRunq (fifo_queue f') (rr_queue r') = push_class (policy t) task (MkRunq (fifo_queue f) (rr_queue r)) /\
    (forall e, e <> d -> cpus k' e = cpus k e) /\ (forall e, e <> d -> percpu k' e = percpu k e) /\
    task_table_ k' = task_table_ k /\ task_table_lock_ k' = task_table_lock_ k /\
    pid_allocator k' = pid_allocator k /\ intr k' c = intr k c.
Proof.
  intros Lk Et Hz U Es. unfold enqueue_on. cbn [bind]. rewrite (lock_on c d k Lk). cbn [bind].
  assert (policy_index (policy t) <? policy_index kPolicyCount = true)%nat as -> by (destruct U as [-> | ->]; done).
  set (k1 := put_intr c false _). set (X1 := held c (intr k c) (cpus k d)).
  assert (view d k1 (tcbs k) X1 (percpu k d)) as V1 by (split; unfold k1; cbn; fn_simp; done).
  destruct (enqueue_spec d k1 _ _ _ f r i task t V1 Es Et Hz U) as (k2 & t' & f' & r' & E2 & F2 & M2 & [V2a V2b V2c] & C & Q).
  rewrite E2. cbn [bind].
  rewrite (unlock_on c d (intr k c) (set_schedulers [Some (SFifo f'); Some (SRr r'); Some (SIdle i)] (cpus k d))) by (by rewrite V2b).
  cbn [bind ret]. eexists _, t', f', r'. split; [reflexivity|].
  split; [split; cbn; fn_simp; done|]. split; [done|]. split; [done|].
  destruct F2 as [Fc Fp Fi Fr Ft Ftl Fpd Ff]. split_and!; try done.
  - intros e He. cbn. fn_simp. rewrite Fc by done. unfold k1. cbn. by fn_simp.
  - unfold put_intr. cbn. fn_simp. assert (intr k1 c = false) as I1 by (unfold k1, put_intr; cbn; by fn_simp).
    destruct (decide (c = d)) as [->|Hne].
    + destruct M2 as (_ & _ & _ & ->). rewrite I1. by destruct (intr k d).
    + rewrite Fi, I1 by done. by destruct (intr k c).
Qed.

Lemma add_task_spec c k f r i task t :
  let d := target_core c (cpu_affinity t) in
  task <> nullptr -> tcbs k !! task = Some t -> status t = kUnInit -> user_policy (policy t) ->
  free_lock (task_table_lock_ k) -> NkUnorderedMap.wf hash_id (task_table_ k) ->
  free_lock (sched_lock (cpus k d)) -> core_ok (tcbs k) (cpus k d) (percpu k d) f r i ->
  task <> running_task (percpu k d) ->
  exists k' t' f' r', AddTask c task k = Ret k' tt /\
    tcbs k' = <[task := t']> (tcbs k) /\ core_of t' = core_of (set_status kReady (with_ids k t)) /\
    NkUnorderedMap.wf hash_id (task_table_ k') /\
    NkUnorderedMap.to_map (task_table_ k') = <[pid (with_ids k t) := task]> (NkUnorderedMap.to_map (task_table_ k)) /\
    free_lock (task_table_lock_ k') /\ pid_allocator k' = next_pid k t /\
    free_lock (sched_lock (cpus k' d)) /\ core_ok (tcbs k') (cpus k' d) (percpu k' d) f' r' i /\
    MkRunq (fifo_queue f') (rr_queue r') = push_class (policy t) task (MkRunq (fifo_queue f) (rr_queue r)) /\
    (forall e, e <> d -> cpus k' e = cpus k e) /\ (forall e, percpu k' e = percpu k e) /\ intr k' c = intr k c.
Proof.
  intros d Hz Et St U Lt Wt Lk Ok Hnr. destruct (with_ids_keeps k t) as (W1 & W2 & W3 & W4).
  set (t1 := with_ids k t) in *.
  set (k1 := set_tcbs (<[task := t1]> (tcbs k)) (set_pid_allocator (next_pid k t) k)).
  set (g := fun k => set_task_table_ (NkUnorderedMap.assign hash_id nullptr (task_table_ k) (pid t1) task) k).
  set (k2 := table_released c (g (table_held c k1))).
  set (t2 := set_status kReady t1). set (k3 := set_tcbs (<[task := t2]> (tcbs k)) k2).
  assert (intr k2 c = intr k c) as I2 by (unfold k2; by rewrite table_released_held).
  destruct (NkUnorderedMap.assign_spec hash_id nullptr (task_table_ k) (pid t1) task Wt) as [Wt' Et'].
  destruct (enqueue_on_spec c d k3 f r i task t2 Lk) as (k4 & t' & f' & r' & E4 & [V4a V4b V4c] & C & Q & Oc & Op & Ot & Otl & Opd & Oi).
  { unfold k3. cbn. by rewrite lookup_insert_eq. } { done. } { cbn. by rewrite W2. } { apply Ok. }
  exists k4, t', f', r'.
  assert (tcbs k4 = <[task := t']> (tcbs k)) as Eh by (rewrite V4a; cbn; by rewrite insert_insert_eq).
  destruct (core_of_fields _ _ C) as (Cs & Cp & _ & _). cbn in Cp. rewrite W2 in Cp.
  split.
  { unfold AddTask. cbn [bind]. rewrite (proj2 (Z.eqb_neq _ _) Hz). cbn [negb nk_assert_msg bind].
    rewrite (on_heap_tcb _ _ _ Et). cbn [bind]. rewrite bool_decide_eq_true_2 by done. cbn [nk_assert_msg bind].
    rewrite (assign_ids_spec _ _ _ Et). cbn [bind]. fold t1 k1.
    rewrite (on_heap_tcb k1 task t1) by (cbn; by rewrite lookup_insert_eq). cbn [bind].
    rewrite (table_guard_run c k1 (g (table_held c k1)) tt) by done. fold k2. cbn [bind].
    rewrite (on_heap_upd k2 task t1) by (cbn; by rewrite lookup_insert_eq). cbn [bind].
    change (tcbs k2) with (<[task := t1]> (tcbs k)). rewrite insert_insert_eq. fold t2 k3.
    rewrite (on_heap_tcb k3 task t2) by (cbn; by rewrite lookup_insert_eq). cbn [bind].
    change (cpu_affinity t2) with (cpu_affinity t1). rewrite W3. exact E4. }
  split; [done|]. split; [done|]. rewrite Ot, Otl, Opd, Oi, V4b, V4c. split; [exact Wt'|]. split; [exact Et'|].
  split; [done|]. split; [done|]. split; [done|]. split.
  { rewrite Eh. eapply (ready_ok (tcbs k) (cpus k d) _ f r i task t); try done; try congruence.
    - by rewrite Q; cbn; rewrite W2.
    - eapply (waiting_off task (tcbs k) _ (cpus k d)); [apply Ok|apply off_insert|exact Et|congruence|congruence|done|done]. }
  split; [by rewrite Q; cbn; rewrite W2|]. split; [intros e He; by rewrite Oc|]. split; [|exact I2].
  intros e. destruct (decide (e = d)) as [->|He]; [by rewrite V4c|by rewrite Op].
Qed.

(** ** Walking the table *)

(** Every non-null entry of a list of table entries is alive. *)
Definition entries_alive (h : heap) (l : list (Z * ptr)) : Prop :=
  forall n p, (n, p) ∈ l -> p <> nullptr -> is_Some (h !! p).

Lemma entries_alive_cons h e l : entries_alive h (e :: l) -> entries_alive h l.
Proof. intros A n p Hp. apply (A n p). by right. Qed.

Definition reparented (ppid : Z) (t : TCB) : TCB :=
  if parent_pid t =? ppid then set_parent_pid kInitPid t else t.

Lemma reparented_twice ppid t : reparented ppid (reparented ppid t) = reparented ppid t.
Proof.
  unfold reparented. destruct (parent_pid t =? ppid) eqn:E; [|by rewrite E].
  by destruct (parent_pid (set_parent_pid kInitPid t) =? ppid).
Qed.

Lemma reparented_pid ppid t : pid (reparented ppid t) = pid t.
Proof. unfold reparented. by destruct (parent_pid t =? ppid). Qed.

Lemma reparent_upd h p t ppid :
  h !! p = Some t ->
  (if parent_pid t =? ppid then upd p (set_parent_pid kInitPid) else ret tt) h = Ret (<[p := reparented ppid t]> h) tt.
Proof.
  intros E. unfold reparented. destruct (parent_pid t =? ppid); cbn; [by rewrite E|by rewrite insert_id].
Qed.

Definition listed (l : list (Z * ptr)) (p : ptr) : Prop := p <> nullptr /\ exists n, (n, p) ∈ l.

Lemma listed_cons n q l p : listed ((n, q) :: l) p <-> (p = q /\ q <> nullptr) \/ listed l p.
Proof.
  unfold listed. split.
  - intros [Hz [m Hm]]. apply elem_of_cons in Hm as [[= -> ->]|Hm]; [by left|right; eauto].
  - intros [[-> Hz]|[Hz [m Hm]]]; (split; [done|]); [exists n; by left|exists m; by right].
Qed.

#[export] Instance listed_dec l p : Decision (listed l p).
Proof.
  refine (cast_if (decide (p <> nullptr /\ Exists (fun e => e.2 = p) l))); unfold listed; rewrite Exists_exists in *.
  - destruct a as [Hz ([n q] & Hin & Hq)]. cbn in Hq. subst q. eauto.
  - intros [Hz [m Hm]]. apply n. split; [done|]. by exists (m, p).
Defined.

Lemma reparent_loop_spec parent ppid l : forall h tp,
  h !! parent = Some tp -> pid tp = ppid -> entries_alive h l ->
  exists h', reparent_loop parent l h = Ret h' tt /\ dom h' = dom h /\
    (forall p t, listed l p -> h !! p = Some t -> h' !! p = Some (reparented ppid t)) /\
    (forall p, ~ listed l p -> h' !! p = h !! p).
Proof.
  induction l as [|[n q] l IH]; intros h tp Ep Hp A.
  { exists h. split; [done|]. split; [done|]. split; [|done]. by intros p t [_ [m ?%elem_of_nil]]. }
  cbn [reparent_loop bind]. destruct (Z.eqb_spec q nullptr) as [->|Hq].
  { destruct (IH h tp Ep Hp (entries_alive_cons _ _ _ A)) as (h' & E & D & L & O).
    exists h'. split; [done|]. split; [done|]. split.
    - intros p t [[_ ?]|?]%listed_cons; [done|by apply L].
    - intros p Hn. apply O. intros Hl. apply Hn, listed_cons. by right. }
  destruct (A n q) as [t Et]; [by left|done|].
  cbn [bind tcb]. rewrite Et, Ep, Hp. rewrite (reparent_upd h q t ppid Et). cbn [bind].
  set (h1 := <[q := reparented ppid t]> h).
  assert (exists tp1, h1 !! parent = Some tp1 /\ pid tp1 = ppid) as (tp1 & Ep1 & Hp1).
  { unfold h1. destruct (decide (q = parent)) as [->|Hne].
    - rewrite lookup_insert_eq. eexists. split; [reflexivity|]. rewrite reparented_pid. congruence.
    - rewrite lookup_insert_ne by done. eauto. }
  destruct (IH h1 tp1 Ep1 Hp1) as (h' & E & D & L & O).
  { intros m p Hm Hz. destruct (decide (q = p)) as [->|Hne]; unfold h1.
    - rewrite lookup_insert_eq. eauto.
    - rewrite lookup_insert_ne by done. apply (A m p); [by right|done]. }
  exists h'. split; [done|]. split. { rewrite D. unfold h1. by apply dom_insert_lookup_L. } split.
  - intros p u Hl Eu. destruct (decide (p = q)) as [->|Hne].
    + rewrite Et in Eu. injection Eu as <-.
      assert (h1 !! q = Some (reparented ppid t)) as E1 by (unfold h1; by rewrite lookup_insert_eq).
      destruct (decide (listed l q)) as [Hq'|Hq']; [|by rewrite O].
      by rewrite (L q _ Hq' E1), reparented_twice.
    + apply listed_cons in Hl as [[? _]|Hl]; [done|]. apply L; [done|]. unfold h1. by rewrite lookup_insert_ne.
  - intros p Hn. rewrite O.
    + unfold h1. rewrite lookup_insert_ne; [done|]. intros ->. apply Hn, listed_cons. by left.
    + intros Hl. apply Hn, listed_cons. by right.
Qed.

Lemma thread_group_loop_spec g l h :
  entries_alive h l ->
  exists r, thread_group_loop g l h = Ret h r /\
    forall p, p ∈ r <-> listed l p /\ exists t, h !! p = Some t /\ tgid t = g.
Proof.
  induction l as [|[n q] l IH]; intros A.
  { exists []. split; [done|]. intros p. split; [by intros ?%elem_of_nil|]. by intros [[_ [m ?%elem_of_nil]] _]. }
  destruct (IH (entries_alive_cons _ _ _ A)) as (r & E & Hr). cbn [thread_group_loop].
  destruct (Z.eqb_spec q nullptr) as [->|Hq].
  { exists r. split; [done|]. intros p. rewrite Hr, listed_cons. split; [intros []; auto|].
    intros [[[_ ?]|?] ?]; [done|auto]. }
  destruct (A n q) as [t Et]; [by left|done|]. cbn [bind tcb]. rewrite Et. cbn [bind]. rewrite E. cbn.
  eexists. split; [reflexivity|]. intros p. rewrite listed_cons. destruct (Z.eqb_spec (tgid t) g) as [Hg|Hg].
  - rewrite elem_of_cons, Hr. split.
    + intros [->|[? ?]]; [split; [by left|eauto]|auto].
    + intros [[[-> _]|Hl] Ht]; auto.
  - rewrite Hr. split; [intros []; auto|]. intros [[[-> _]|Hl] (u & Eu & Hu)]; [|eauto]. congruence.
Qed.

Definition table_alive (k : Kernel) : Prop :=
  forall n p, NkUnorderedMap.to_map (task_table_ k) !! n = Some p -> p <> nullptr -> is_Some (tcbs k !! p).

Definition in_table (k : Kernel) (p : ptr) : Prop :=
  p <> nullptr /\ exists n, NkUnorderedMap.to_map (task_table_ k) !! n = Some p.

Lemma table_entries k : NkUnorderedMap.wf hash_id (task_table_ k) ->
  (table_alive k -> entries_alive (tcbs k) (NkUnorderedMap.elements (task_table_ k))) /\
  (forall p, listed (NkUnorderedMap.elements (task_table_ k)) p <-> in_table k p).
Proof.
  intros W. split.
  - intros A n p Hp. apply (A n p). by apply (NkUnorderedMap.elements_to_map hash_id).
  - intros p. unfold listed, in_table.
    by setoid_rewrite (fun n => NkUnorderedMap.elements_to_map hash_id (task_table_ k) n p W).
Qed.

(** The children of [parent] in the table get a new parent; a definition of
    what [ReparentChildren] does to the heap. *)
Lemma reparent_spec c parent k tp :
  parent <> nullptr -> tcbs k !! parent = Some tp -> free_lock (task_table_lock_ k) ->
  NkUnorderedMap.wf hash_id (task_table_ k) -> table_alive k ->
  exists k' h, ReparentChildren c parent k = Ret k' tt /\
    k' = table_released c (set_tcbs h (table_held c k)) /\ dom h = dom (tcbs k) /\
    (forall p t, in_table k p -> tcbs k !! p = Some t -> h !! p = Some (reparented (pid tp) t)) /\
    (forall p, ~ in_table k p -> h !! p = tcbs k !! p) /\
    (forall p t, tcbs k !! p = Some t -> h !! p = Some t \/ h !! p = Some (reparented (pid tp) t)).
Proof.
  intros Hz Ep L W A. destruct (table_entries k W) as [Ha Hl].
  destruct (reparent_loop_spec parent (pid tp) _ _ _ Ep eq_refl (Ha A)) as (h & E & D & Li & O).
  exists (table_released c (set_tcbs h (table_held c k))), h. split.
  { unfold ReparentChildren. rewrite (proj2 (Z.eqb_neq _ _) Hz). apply table_guard_run; [done| |done].
    cbn [bind gets]. by rewrite (on_heap_ret _ h _ tt). }
  split; [done|]. split; [done|]. split; [|split].
  - intros p t Hp. apply Li. by apply Hl.
  - intros p Hp. apply O. by rewrite Hl.
  - intros p t Et. destruct (decide (listed (NkUnorderedMap.elements (task_table_ k)) p)) as [Hp|Hp].
    + right. by apply Li.
    + left. by rewrite O.
Qed.

(** ** The claims *)

(** C27: initialising a core.  [InitCurrentCore] on a core that has no
    schedulers yet returns with the core live: the three schedulers are
    installed, the lock is free, the idle thread is registered with the idle
    scheduler, current and ready, with policy [kIdle], and no other control
    block or table entry changes.  This is the state from which the runs of
    KernelRun.v start. *)
Theorem init_current_core_goes_live (entry c trap_size alloc idle_entry : Z) (k : Kernel) :
  c <> SpinLock.no_core -> untouched (cpus k c) ->
  exists k' idle t, InitCurrentCore entry c trap_size alloc idle_entry k = Ret k' tt /\
    tcbs k !! idle = None /\ tcbs k' = <[idle := t]> (tcbs k) /\
    percpu k' c = MkPerCpu idle idle /\ task_table_ k' = task_table_ k /\
    status t = kReady /\ policy t = kIdle /\
    (alloc <> nullptr -> task_context t =
      InitTaskContext entry idle_entry 0 (u64 (alloc + kDefaultKernelStackSize))) /\
    live c k' (MkFifo [] zero_stats) (MkRr [] zero_stats) (MkIdle idle (inc_enqueues zero_stats)) t.
Proof.
  intros Hc Hu. destruct (init_spec entry c trap_size alloc idle_entry k Hc Hu) as (k' & E & Eh & P & T & L).
  destruct (fresh_ptr_spec (tcbs k)) as [_ Hn].
  exists k', (fresh_ptr (tcbs k)), (idle_tcb entry trap_size alloc idle_entry). split_and!; try done.
  intros Ha. unfold idle_tcb, new_kernel_thread. by rewrite (proj2 (Z.eqb_neq _ _) Ha).
Qed.

Definition boot_cpu : CpuSchedData :=
  MkCpu SpinLock.unlocked [None; None; None] [] (NkUnorderedMap.new_map hash_id) 0 0 0.
Definition boot_kernel : Kernel :=
  MkKernel ∅ (fun _ => boot_cpu) (fun _ => MkPerCpu 0 0) SpinLock.unlocked
    (NkUnorderedMap.new_map hash_id) 1 (fun _ => true) (fun _ => zero_context) false zero_context [].

Lemma boot_untouched : untouched boot_cpu.
Proof. split; try done; apply NkUnorderedMap.new_map_spec. Qed.

Lemma init_current_core_goes_live_witness :
  exists k' idle, InitCurrentCore 900 0 280 4096 500 boot_kernel = Ret k' tt /\ percpu k' 0 = MkPerCpu idle idle.
Proof.
  destruct (init_current_core_goes_live 900 0 280 4096 500 boot_kernel) as (k' & idle & t & E & _ & _ & P & _).
  - discriminate.
  - exact boot_untouched.
  - exists k', idle. split; [exact E|exact P].
Defined.

(** [AddTask].  A fresh task of a queueing policy gets the next pid when it
    has none (and the counter moves on), and its own pid as group id when it has
    none; the table maps the pid to it; it is ready and the last one in the
    queue of its class on its target core (the first core of its affinity mask,
    else the calling core); the invariant holds on that core, no other core is
    touched, the running tasks stay and both locks are free again. *)
Theorem add_task_registers_and_enqueues (c : Z) (k : Kernel) (f : Fifo) (r : RoundRobin) (i : Idle) (task : ptr) (t : TCB) :
  let d := target_core c (cpu_affinity t) in
  task <> nullptr -> tcbs k !! task = Some t -> status t = kUnInit -> user_policy (policy t) ->
  free_lock (task_table_lock_ k) -> NkUnorderedMap.wf hash_id (task_table_ k) ->
  free_lock (sched_lock (cpus k d)) -> core_ok (tcbs k) (cpus k d) (percpu k d) f r i ->
  task <> running_task (percpu k d) ->
  exists k' t' f' r', AddTask c task k = Ret k' tt /\
    tcbs k' = <[task := t']> (tcbs k) /\ status t' = kReady /\ policy t' = policy t /\
    pid t' = (if pid t =? 0 then pid_allocator k else pid t) /\
    tgid t' = (if tgid t =? 0 then pid t' else tgid t) /\
    pid_allocator k' = (if pid t =? 0 then u64 (pid_allocator k + 1) else pid_allocator k) /\
    NkUnorderedMap.to_map (task_table_ k') = <[pid t' := task]> (NkUnorderedMap.to_map (task_table_ k)) /\
    free_lock (task_table_lock_ k') /\ free_lock (sched_lock (cpus k' d)) /\
    core_ok (tcbs k') (cpus k' d) (percpu k' d) f' r' i /\
    MkRunq (fifo_queue f') (rr_queue r') = push_class (policy t) task (MkRunq (fifo_queue f) (rr_queue r)) /\
    (forall e, e <> d -> cpus k' e = cpus k e) /\ (forall e, percpu k' e = percpu k e) /\ intr k' c = intr k c.
Proof.
  intros d Hz Et St U Lt Wt Lk Ok Hnr.
  destruct (add_task_spec c k f r i task t Hz Et St U Lt Wt Lk Ok Hnr)
    as (k' & t' & f' & r' & E & Eh & C & _ & Em & L1 & P & L2 & Ok' & Q & Oc & Op & I).
  destruct (with_ids_keeps k t) as (_ & W2 & _ & W4). destruct (core_of_fields _ _ C) as (Cs & Cp & _ & _).
  assert (pid t' = pid (with_ids k t)) as Ep by (by apply (f_equal pid) in C).
  assert (tgid t' = tgid (with_ids k t)) as Eg by (by apply (f_equal tgid) in C).
  exists k', t', f', r'. rewrite Ep, Eg, W4. split_and!; try done.
  - by rewrite Cp.
  - unfold with_ids. by destruct (pid t =? 0); cbn; destruct (tgid t =? 0).
  - by rewrite <- W4.
Qed.

(** The sample kernel with a new task 6 that may run anywhere. *)
Definition task6 : TCB := set_cpu_affinity UINT64_MAX default_tcb.
Definition adding_kernel : Kernel := set_tcbs (<[6 := task6]> sample_tcbs) sample_kernel.

Lemma adding_ok : core_ok (tcbs adding_kernel) sample_cpu (MkPerCpu 2 1) sample_fifo sample_rr sample_idle.
Proof.
  eapply (core_ok_like sample_tcbs); [|exact sample_ok]. intros p t E. exists t. split; [|done].
  cbn [tcbs adding_kernel set_tcbs]. rewrite lookup_insert_ne; [exact E|]. intros <-. vm_compute in E. discriminate.
Qed.

Lemma add_task_registers_and_enqueues_witness :
  exists k' t', AddTask 0 6 adding_kernel = Ret k' tt /\ tcbs k' = <[6 := t']> (tcbs adding_kernel) /\
    status t' = kReady /\ pid t' = 7.
Proof.
  destruct (add_task_registers_and_enqueues 0 adding_kernel sample_fifo sample_rr sample_idle 6 task6)
    as (k' & t' & f' & r' & E & H & S & _ & P & _).
  - discriminate.
  - apply lookup_insert_eq.
  - reflexivity.
  - right. reflexivity.
  - split; reflexivity.
  - apply NkUnorderedMap.new_map_spec.
  - split; reflexivity.
  - exact adding_ok.
  - discriminate.
  - exists k', t'. split; [exact E|]. split; [exact H|]. split; [exact S|exact P].
Defined.

(** the walks over the task table.  [FindTask] is the table lookup;
    [ReparentChildren] hands every task of the table whose parent is [parent] to
    the init process and changes no other block; [GetThreadGroup] returns exactly
    the tasks of the table with the given group id.  All three leave the table,
    its lock and the caller's interrupt flag as they were. *)
Theorem task_table_walks (c : Z) (k : Kernel) (parent : ptr) (tp : TCB) (g n : Z) :
  free_lock (task_table_lock_ k) -> NkUnorderedMap.wf hash_id (task_table_ k) -> table_alive k ->
  parent <> nullptr -> tcbs k !! parent = Some tp ->
  (exists k1, FindTask c n k = Ret k1 (default nullptr (NkUnorderedMap.to_map (task_table_ k) !! n)) /\
     tcbs k1 = tcbs k /\ free_lock (task_table_lock_ k1) /\ intr k1 c = intr k c) /\
  (exists k2, ReparentChildren c parent k = Ret k2 tt /\ dom (tcbs k2) = dom (tcbs k) /\
     (forall p t, in_table k p -> tcbs k !! p = Some t ->
        tcbs k2 !! p = Some (if parent_pid t =? pid tp then set_parent_pid kInitPid t else t)) /\
     (forall p, ~ in_table k p -> tcbs k2 !! p = tcbs k !! p) /\
     task_table_ k2 = task_table_ k /\ free_lock (task_table_lock_ k2) /\ intr k2 c = intr k c) /\
  (exists k3 r, GetThreadGroup c g k = Ret k3 r /\ tcbs k3 = tcbs k /\
     (forall p, p ∈ r <-> in_table k p /\ exists t, tcbs k !! p = Some t /\ tgid t = g) /\
     free_lock (task_table_lock_ k3) /\ intr k3 c = intr k c).
Proof.
  intros L W A Hz Ep. split; [|split].
  - exists (table_released c (table_held c k)). split; [|by split_and!; try apply (table_released_held c k (fun k => k))].
    apply table_guard_run; [done| |done]. cbn [gets]. by rewrite (NkUnorderedMap.find_to_map hash_id _ n W).
  - destruct (reparent_spec c parent k tp Hz Ep L W A) as (k2 & h & E & -> & D & Li & O & _).
    eexists. split; [exact E|]. split_and!; try done. by apply (table_released_held c k (set_tcbs h)).
  - destruct (table_entries k W) as [Ha Hl]. destruct (thread_group_loop_spec g _ _ (Ha A)) as (r & E & Hr).
    exists (table_released c (table_held c k)), r. split.
    { apply table_guard_run; [done| |done]. cbn [bind gets]. rewrite (on_heap_ret _ (tcbs (table_held c k)) _ r) by done.
      by rewrite set_tcbs_id. }
    split; [done|]. split; [|by split; [|apply (table_released_held c k (fun k => k))]].
    intros p. by rewrite Hr, Hl.
Qed.

(** Pid 8 is task 2, and task 3 is its child with pid 9. *)
Definition family_table : NkUnorderedMap.umap Z ptr :=
  NkUnorderedMap.assign hash_id nullptr (NkUnorderedMap.assign hash_id nullptr
    (NkUnorderedMap.new_map hash_id) 8 2) 9 3.
Definition family_parent : TCB := set_pid 8 (set_tgid 8 task2).
Definition family_child : TCB := set_pid 9 (set_tgid 9 (set_parent_pid 8 task3)).
Definition family_kernel : Kernel :=
  set_task_table_ family_table (set_tcbs {[2 := family_parent; 3 := family_child]} sample_kernel).

Lemma family_ok : NkUnorderedMap.wf hash_id family_table /\ table_alive family_kernel /\
  NkUnorderedMap.to_map family_table = {[9 := 3; 8 := 2]}.
Proof.
  destruct (NkUnorderedMap.assign_spec hash_id nullptr (NkUnorderedMap.new_map hash_id) 8 2) as [W1 E1];
    [apply NkUnorderedMap.new_map_spec|].
  destruct (NkUnorderedMap.assign_spec hash_id nullptr _ 9 3 W1) as [W2 E2].
  rewrite E1, (proj2 (NkUnorderedMap.new_map_spec hash_id)) in E2. split; [exact W2|]. split; [|exact E2].
  intros n p Hp _. cbn [task_table_ family_kernel set_task_table_] in Hp. unfold family_table in Hp. rewrite E2 in Hp.
  apply lookup_insert_Some in Hp as [[_ <-]|[_ Hp]]; [vm_compute; eauto|].
  apply lookup_insert_Some in Hp as [[_ <-]|[_ Hp]]; [vm_compute; eauto|]. by rewrite lookup_empty in Hp.
Qed.

Lemma task_table_walks_witness :
  exists k1, FindTask 0 8 family_kernel = Ret k1 2.
Proof.
  destruct (task_table_walks 0 family_kernel 2 family_parent 8 8) as [(k1 & E & _) _].
  - split; reflexivity.
  - apply family_ok.
  - apply family_ok.
  - discriminate.
  - reflexivity.
  - exists k1. rewrite E. cbn [task_table_ family_kernel set_task_table_].
    rewrite (proj2 (proj2 family_ok)). reflexivity.
Defined.

End TaskTable.
