(* ===== verification/TaskLifecycle.v ===== *)
(** * The end and the birth of tasks: Exit, Wait, Clone

    src/src/task/{exit,wait,clone}.cpp and [TaskManager::ReapTask].  [Exit] is
    followed to the point where it stops: a task with a parent takes the lock of
    its run queue twice, a task without one is used after it was deleted.
    [Clone] is followed through its error paths and to the assertion of
    [AddTask]; [Wait] reaps a child that has ended. *)

From stdpp Require Import base numbers list gmap functions strings.
From Stdlib Require Import ZArith Lia.
From S2P Require Import Prelude Errors ResourceId SpinLock Tcb NkPriorityQueue NkUnorderedMap Schedulers TaskManager KernelInv KernelSpec KernelProps KernelRun TaskTable.
Import Tcb Sched TaskManager KernelInv KernelSpec KernelProps KernelRun TaskTable.

Local Open Scope Z_scope.

Module TaskLifecycle.

(** ** Exit *)

(** Updates that keep the links keep the group. *)
Lemma seg_links_ext h h' b ps a :
  (forall p x y, p ∈ ps -> links h p x y -> links h' p x y) -> seg h b ps a -> seg h' b ps a.
Proof.
  revert b. induction ps as [|p ps IH]; intros b Hf; simpl; [done|]. intros [H1 H2]. split.
  - apply Hf; [by left|done].
  - apply IH; [|done]. intros q x y Hq. apply Hf. by right.
Qed.

Lemma group_insert h p t t' ps :
  h !! p = Some t -> thread_group_prev t' = thread_group_prev t -> thread_group_next t' = thread_group_next t ->
  group h ps -> group (<[p := t']> h) ps.
Proof.
  intros E E1 E2 [N S]. split; [done|]. eapply seg_links_ext; [|exact S].
  intros q x y _ [Hz (u & Eu & H1 & H2)]. split; [done|]. destruct (decide (p = q)) as [->|Hne].
  - exists t'. rewrite lookup_insert_eq. split; [done|]. simplify_eq. by rewrite E1, E2.
  - exists u. by rewrite lookup_insert_ne.
Qed.

Lemma group_alive h ps p : group h ps -> p ∈ ps -> p <> nullptr /\ is_Some (h !! p).
Proof. intros [_ S] Hp. by eapply seg_null. Qed.

Lemma size_returns h ps1 this ps2 t :
  group h (ps1 ++ this :: ps2) -> h !! this = Some t -> Z.of_nat (length (ps1 ++ this :: ps2)) < 2 ^ 64 ->
  exists n, GetThreadGroupSize this h = Ret h n.
Proof.
  intros G E B. destruct (decide (tgid t = 0)) as [Ht|Ht].
  - exists 1. unfold GetThreadGroupSize. cbn. rewrite E. cbn. by rewrite Ht.
  - eexists. by apply (size_spec h ps1 this ps2 t).
Qed.

(** What [Exit] needs of the state around the running task. *)
Record exiting (k : Kernel) (cur : ptr) (t : TCB) (ps1 ps2 : list ptr) : Prop := {
  ex_tcb : tcbs k !! cur = Some t;
  ex_group : group (tcbs k) (ps1 ++ cur :: ps2);
  ex_bound : Z.of_nat (length (ps1 ++ cur :: ps2)) < 2 ^ 64;
  ex_lock : free_lock (task_table_lock_ k);
  ex_wf : NkUnorderedMap.wf hash_id (task_table_ k);
  ex_alive : table_alive k
}.

Lemma exit_group_spec c cur code k t ps1 ps2 :
  exiting k cur t ps1 ps2 ->
  exists k' t', exit_group c cur code k = Ret k' tt /\ cpus k' = cpus k /\ task_table_ k' = task_table_ k /\
    free_lock (task_table_lock_ k') /\ intr k' c = intr k c /\ tcbs k' !! cur = Some t' /\
    exit_code t' = code /\ pid t' = pid t /\ thread_group_prev t' = nullptr /\ thread_group_next t' = nullptr /\
    kernel_stack t' = kernel_stack t /\ page_table t' = page_table t /\
    (parent_pid t' = parent_pid t \/ parent_pid t = pid t /\ parent_pid t' = kInitPid).
Proof.
  intros [Et G B L W A]. destruct (group_alive _ _ cur G) as [Hz _]; [apply elem_of_app; right; by left|].
  set (t1 := set_exit_code code t). set (k1 := set_tcbs (<[cur := t1]> (tcbs k)) k).
  assert (tcbs k1 !! cur = Some t1) as Et1 by (cbn; by rewrite lookup_insert_eq).
  assert (group (tcbs k1) (ps1 ++ cur :: ps2)) as G1 by (by eapply group_insert).
  destruct (size_returns _ _ _ _ _ G1 Et1 B) as [n En].
  destruct (leave_spec _ _ _ _ G1) as (h2 & u & t2 & E2 & G2 & Eu & Et2 & D2 & O2).
  rewrite Et1 in Eu. injection Eu as <-. set (k2 := set_tcbs h2 k1).
  assert (table_alive k2) as A2.
  { intros m p Hm Hp. cbn. destruct (decide (p = cur)) as [->|Hne]; [eauto|].
    destruct (decide (p ∈ ps1 ++ ps2)) as [Hin|Hout]; [by eapply group_alive|].
    rewrite O2.
    - cbn. rewrite lookup_insert_ne by done. by apply (A m).
    - intros [Hi|[-> |Hi]%elem_of_cons]%elem_of_app; [|done|]; apply Hout, elem_of_app; auto. }
  assert (exit_group c cur code k = (if IsThreadGroupLeader t1 then ReparentChildren c cur else ret tt) k2) as ->.
  { unfold exit_group. cbn [bind]. rewrite (on_heap_upd _ _ _ _ Et). cbn [bind]. fold t1 k1.
    rewrite (on_heap_tcb _ _ _ Et1). cbn [bind].
    assert ((if IsThreadGroupLeader t1 then let* _ := on_heap (GetThreadGroupSize cur) in ret tt else ret tt) k1 = Ret k1 tt) as ->.
    { destruct (IsThreadGroupLeader t1); [|done]. cbn [bind]. rewrite (on_heap_ret k1 (tcbs k1) _ n En). by rewrite set_tcbs_id. }
    cbn [bind]. by rewrite (on_heap_ret k1 h2 _ tt E2). }
  destruct (IsThreadGroupLeader t1) eqn:El.
  - destruct (reparent_spec c cur k2 t2 Hz Et2 L W A2) as (k3 & h & E3 & -> & _ & _ & _ & Or).
    rewrite E3. eexists. destruct (Or cur t2 Et2) as [Eh|Eh]; eexists; (split; [reflexivity|]);
      (split; [done|]); (split; [done|]); (split; [done|]);
      (split; [by apply (table_released_held c k2 (set_tcbs h))|]); (split; [exact Eh|]).
    + rewrite D2. split_and!; try done. by left.
    + unfold reparented. rewrite D2. cbn. destruct (Z.eqb_spec (parent_pid t) (pid t)); cbn; split_and!; auto.
  - exists k2, t2. split; [done|]. split; [done|]. split; [done|]. split; [done|]. split; [done|].
    split; [exact Et2|]. rewrite D2. split_and!; try done. by left.
Qed.

(** A second [Lock] of the same run queue by the same core. *)
Lemma guard_recursive {A} c i X k (body : KM A) :
  cpus k c = held c i X -> exists k', sched_guard c body k = Halt k' LockGuardSpin /\
    sched_lock (cpus k' c) = sched_lock (cpus k c) /\ intr k' c = intr k c /\ tcbs k' = tcbs k.
Proof.
  intros E. unfold sched_guard, SpinLock.with_guard. cbn [bind]. unfold SpinLock.lock_m, SpinLock.Lock.
  rewrite E. cbn. rewrite Z.eqb_refl. cbn. eexists. split; [reflexivity|]. cbn. fn_simp. done.
Qed.

(** The start of [Exit]: the checks and the lock. *)
Lemma exit_enters entry c code k t :
  let cur := running_task (percpu k c) in
  cur <> nullptr -> tcbs k !! cur = Some t -> status t = kRunning -> free_lock (sched_lock (cpus k c)) ->
  exists k1, view c k1 (tcbs k) (held c (intr k c) (cpus k c)) (percpu k c) /\ intr k1 c = false /\ frame c k k1 /\
    forall k2 w, leave_core c cur code k1 = Halt k2 w -> Exit entry c code k = Halt k2 w.
Proof.
  intros cur Hz Et St Lk. destruct (lock_free c k Lk) as (k1 & E1 & F1 & V1 & I1 & _).
  exists k1. split; [done|]. split; [done|]. split; [done|]. intros k2 w E2.
  unfold Exit. cbn [bind GetCurrentTask gets]. fold cur. rewrite (proj2 (Z.eqb_neq _ _) Hz).
  cbn [negb nk_assert_msg bind]. rewrite (on_heap_tcb _ _ _ Et). cbn [bind].
  rewrite bool_decide_eq_true_2 by done. cbn [nk_assert_msg bind].
  unfold sched_guard, SpinLock.with_guard. cbn [bind]. unfold sched_lock_m in E1. rewrite E1.
  cbn [has_value bind]. by rewrite E2.
Qed.

Lemma exiting_frame c k k1 cur t ps1 ps2 :
  frame c k k1 -> tcbs k1 = tcbs k -> exiting k cur t ps1 ps2 -> exiting k1 cur t ps1 ps2.
Proof.
  intros F Eh [A B C D E G]. destruct F as [_ _ _ _ Ft Ftl _ _].
  split; rewrite ?Eh, ?Ft, ?Ftl; try done. intros n p. rewrite Ft, Eh. apply G.
Qed.

Lemma exit_parent_spec c code k cur t ps1 ps2 i X :
  exiting k cur t ps1 ps2 -> cpus k c = held c i X -> parent_pid t <> 0 ->
  exists k' t', leave_core c cur code k = Halt k' LockGuardSpin /\
    sched_lock (cpus k' c) = sched_lock (cpus k c) /\ intr k' c = intr k c /\
    tcbs k' !! cur = Some t' /\ status t' = kZombie.
Proof.
  intros Ex Hh Hp. destruct (exit_group_spec c cur code k t ps1 ps2 Ex) as
    (k1 & t1 & E1 & C1 & T1 & L1 & I1 & Et1 & _ & _ & _ & _ & _ & _ & Hpar).
  assert (parent_pid t1 <> 0) as Hp1 by (destruct Hpar as [-> |[_ ->]]; done).
  set (k2 := set_tcbs (<[cur := set_status kZombie t1]> (tcbs k1)) k1).
  destruct (guard_recursive c i X k2 (wake_resource c (ResourceId.mk ResourceId.kChildExit (parent_pid t1))))
    as (k3 & E3 & S3 & I3 & H3); [unfold k2; cbn; by rewrite C1|].
  exists k3, (set_status kZombie t1). split.
  { unfold leave_core. cbn [bind]. rewrite E1. cbn [bind]. rewrite (on_heap_tcb _ _ _ Et1). cbn [bind].
    rewrite (proj2 (Z.eqb_neq _ _) Hp1). cbn [negb bind]. rewrite (on_heap_upd _ _ _ _ Et1). exact E3. }
  rewrite S3, I3, H3. unfold k2. cbn. rewrite C1, I1, lookup_insert_eq. done.
Qed.

(** ** Releasing a task *)

(** What the destructor gives back. *)
Definition releases (t : TCB) : list release :=
  (if kernel_stack t =? nullptr then [] else [FreeStack (kernel_stack t)]) ++
  (if page_table t =? nullptr then []
   else [DestroyPageDirectory (page_table t) (Z.land (clone_flags t) kCloneVm =? 0)]).

Lemma set_freed_id k : set_freed (freed k ++ []) k = k.
Proof. rewrite app_nil_r. by destruct k. Qed.

Lemma delete_task_spec task k t ps1 ps2 :
  tcbs k !! task = Some t -> group (tcbs k) (ps1 ++ task :: ps2) ->
  exists h, delete_task task k = Ret (set_freed (freed k ++ releases t) (set_tcbs h k)) tt /\
    h !! task = None /\ group h (ps1 ++ ps2) /\
    (forall p, p ∉ ps1 ++ task :: ps2 -> h !! p = tcbs k !! p).
Proof.
  intros Et G. destruct (leave_spec _ _ _ _ G) as (h1 & u & t1 & E1 & G1 & Eu & Et1 & D1 & O1).
  rewrite Et in Eu. injection Eu as <-. exists (delete task h1). split.
  { unfold delete_task, releases. cbn [bind]. rewrite (on_heap_ret k h1 _ tt E1). cbn [bind].
    rewrite (on_heap_tcb _ _ t1) by done. cbn [bind]. rewrite D1. cbn [kernel_stack page_table clone_flags
      set_thread_group_next set_thread_group_prev].
    destruct (kernel_stack t =? nullptr), (page_table t =? nullptr); cbn [ret modify bind app];
      unfold on_heap, free_tcb; cbn [tcbs set_tcbs set_freed freed]; rewrite Et1; rewrite ?app_nil_r, <- ?app_assoc;
      done. }
  split; [apply lookup_delete_eq|].
  assert (task ∉ ps1 ++ ps2) as Hn.
  { destruct G as [N _]. rewrite <- Permutation_middle in N. by apply NoDup_cons in N as [? _]. }
  split.
  - destruct G1 as [N S]. split; [done|]. eapply seg_frame; [|exact S]. intros p Hp.
    apply lookup_delete_ne. by intros ->.
  - intros p Hp. rewrite lookup_delete_ne, O1; [done..|]. intros <-. apply Hp, elem_of_app. right. by left.
Qed.

Lemma exit_orphan_spec c code k cur t ps1 ps2 :
  exiting k cur t ps1 ps2 -> parent_pid t = 0 -> pid t <> 0 ->
  exists k', leave_core c cur code k = Halt k' (BadPointer cur) /\ tcbs k' !! cur = None /\
    NkUnorderedMap.to_map (task_table_ k') = delete (pid t) (NkUnorderedMap.to_map (task_table_ k)).
Proof.
  intros Ex Hp Hpid. destruct (exit_group_spec c cur code k t ps1 ps2 Ex) as
    (k1 & t1 & E1 & C1 & T1 & L1 & I1 & Et1 & _ & Pid1 & Pr & Nx & _ & _ & Hpar).
  assert (parent_pid t1 = 0) as Hp1 by (destruct Hpar as [-> |[? _]]; congruence).
  assert (cur <> nullptr) as Hz.
  { destruct (group_alive _ _ cur (ex_group _ _ _ _ _ Ex)); [apply elem_of_app; right; by left|done]. }
  set (t2 := set_status kExited t1). set (k2 := set_tcbs (<[cur := t2]> (tcbs k1)) k1).
  assert (tcbs k2 !! cur = Some t2) as Et2 by (cbn; by rewrite lookup_insert_eq).
  set (m := NkUnorderedMap.erase hash_id (task_table_ k2) (pid t2)).
  set (g := set_task_table_ m.1). set (k3 := table_released c (g (table_held c k2))).
  destruct (delete_task_spec cur k3 t2 [] []) as (h & E4 & Hn & _); [done| |].
  { split; [apply NoDup_singleton|]. split; [|done]. split; [done|]. exists t2. done. }
  eexists. split; [|split].
  - unfold leave_core. cbn [bind]. rewrite E1. cbn [bind]. rewrite (on_heap_tcb _ _ _ Et1). cbn [bind].
    rewrite Hp1. cbn [negb Z.eqb bind]. rewrite (on_heap_upd _ _ _ _ Et1). cbn [bind]. fold t2 k2.
    unfold ReapTask. rewrite (proj2 (Z.eqb_neq _ _) Hz). cbn [bind]. rewrite (on_heap_tcb _ _ _ Et2). cbn [bind].
    change (status t2) with kExited. cbn [negb andb bool_decide decide_rel].
    rewrite (bool_decide_eq_true_2 (kExited = kExited)) by done. rewrite andb_false_r.
    cbn [bind]. rewrite (table_guard_run c k2 (g (table_held c k2)) tt) by done. fold k3. cbn [bind].
    rewrite E4. cbn [bind]. unfold on_heap at 1, tcb at 1. cbn [tcbs set_freed set_tcbs]. rewrite Hn. reflexivity.
  - exact Hn.
  - change (NkUnorderedMap.to_map (NkUnorderedMap.erase hash_id (task_table_ k1) (pid t1)).1 =
      delete (pid t) (NkUnorderedMap.to_map (task_table_ k))).
    rewrite T1, Pid1. apply table_erase, Ex.
Qed.

(** ** Wait *)

(** A child that [Wait p] may reap. *)
Definition reapable (p : Z) (cur t : TCB) : bool :=
  pid_matches p cur t && (bool_decide (status t = kZombie) || bool_decide (status t = kExited)).

Definition stopped (p : Z) (untraced : bool) (cur t : TCB) : bool :=
  pid_matches p cur t && untraced && bool_decide (status t = kBlocked).

(** What the scan finds. *)
Definition scan_ok (h : heap) (p : Z) (untraced : bool) (cur : TCB) (l : list (Z * ptr)) (r : scan_result) : Prop :=
  match r with
  | Reapable q => exists n t, (n, q) ∈ l /\ h !! q = Some t /\ reapable p cur t = true
  | Stopped x => exists n q t, (n, q) ∈ l /\ h !! q = Some t /\ stopped p untraced cur t = true /\ pid t = x
  | NoMatch => forall n q t, (n, q) ∈ l -> h !! q = Some t -> reapable p cur t = false /\ stopped p untraced cur t = false
  end.

Lemma wait_scan_spec p untraced current cur l : forall h,
  h !! current = Some cur -> (forall n q, (n, q) ∈ l -> is_Some (h !! q)) ->
  exists r, wait_scan p untraced current l h = Ret h r /\ scan_ok h p untraced cur l r.
Proof.
  induction l as [|[n q] l IH]; intros h Ec A.
  { exists NoMatch. split; [done|]. by intros ? ? ? ?%elem_of_nil. }
  destruct (A n q) as [t Et]; [by left|].
  destruct (IH h Ec) as (r & E & Hr). { intros m x Hm. apply (A m). by right. }
  cbn [wait_scan bind tcb]. rewrite Et, Ec.
  assert (reapable p cur t = false -> stopped p untraced cur t = false ->
    exists r, wait_scan p untraced current l h = Ret h r /\ scan_ok h p untraced cur ((n, q) :: l) r) as Skip.
  { intros R S. exists r. split; [done|]. destruct r as [x|x|]; cbn in Hr |- *.
    - destruct Hr as (m & u & Hm & ?). exists m, u. split; [by right|done].
    - destruct Hr as (m & x' & u & Hm & ?). exists m, x', u. split; [by right|done].
    - intros m x u [[= -> ->]|Hm]%elem_of_cons Eu; [by simplify_eq|by apply (Hr m x u)]. }
  unfold reapable, stopped in Skip. destruct (pid_matches p cur t) eqn:Em; cbn [negb andb] in *; [|by apply Skip].
  destruct (bool_decide (status t = kZombie) || bool_decide (status t = kExited)) eqn:Ez.
  { exists (Reapable q). split; [done|]. exists n, t. split; [by left|]. split; [done|]. unfold reapable. by rewrite Em, Ez. }
  destruct (untraced && bool_decide (status t = kBlocked)) eqn:Eb; [|by apply Skip].
  exists (Stopped (pid t)). split; [done|]. exists n, q, t. split; [by left|]. split; [done|]. split; [|done].
  unfold stopped. by rewrite Em, andb_true_l.
Qed.

(** [Pid] is unsigned: the last case of the matching is never reached. *)
Lemma pid_matches_cases p cur t : 0 <= p < 2 ^ 64 ->
  pid_matches p cur t =
    (parent_pid t =? pid cur) &&
    (if p =? UINT64_MAX then true else if p =? 0 then pgid t =? pgid cur else pid t =? p).
Proof.
  intros H. unfold pid_matches. destruct (p =? UINT64_MAX); [by rewrite andb_true_r|].
  destruct (Z.eqb_spec p 0); [done|]. by rewrite (proj2 (Z.ltb_lt 0 p)) by lia.
Qed.

(** ** The requests of [Wait] as its comments describe them *)

(** task_manager.hpp: -1 stands for any child, 0 for the children of the caller's
    process group, a positive number for the child with that pid. *)
Inductive Request := AnyChild | OwnGroup | Child (n : Z).
Definition pid_argument (r : Request) : Z :=
  match r with AnyChild => 2 ^ 64 - 1 | OwnGroup => 0 | Child n => n end.
Definition legal (r : Request) : Prop := match r with Child n => 0 < n < 2 ^ 63 | _ => True end.

(** The task [t] is a child of [cur] that the request is about. *)
Definition asks_for (r : Request) (cur t : TCB) : Prop :=
  parent_pid t = pid cur /\
  match r with AnyChild => True | OwnGroup => pgid t = pgid cur | Child n => pid t = n end.
Definition ended (t : TCB) : Prop := status t = kZombie \/ status t = kExited.

Lemma pid_matches_request r cur t : legal r -> pid_matches (pid_argument r) cur t = true <-> asks_for r cur t.
Proof.
  intros Hl. rewrite pid_matches_cases by (destruct r; cbn in *; lia). unfold asks_for. rewrite andb_true_iff, Z.eqb_eq.
  destruct r as [| |n]; cbn [pid_argument]; [change (2 ^ 64 - 1 =? UINT64_MAX) with true; by split; intros [? _]| |].
  - change (0 =? UINT64_MAX) with false. cbn [Z.eqb]. by rewrite Z.eqb_eq.
  - cbn in Hl. rewrite (proj2 (Z.eqb_neq n UINT64_MAX)), (proj2 (Z.eqb_neq n 0)) by (change UINT64_MAX with (2 ^ 64 - 1); lia).
    by rewrite Z.eqb_eq.
Qed.

Lemma reapable_request r cur t : legal r -> reapable (pid_argument r) cur t = true <-> asks_for r cur t /\ ended t.
Proof.
  intros Hl. unfold reapable, ended. by rewrite andb_true_iff, orb_true_iff, !bool_decide_eq_true, pid_matches_request.
Qed.

Lemma stopped_request r ut cur t : legal r ->
  stopped (pid_argument r) ut cur t = true <-> asks_for r cur t /\ ut = true /\ status t = kBlocked.
Proof.
  intros Hl. unfold stopped. rewrite !andb_true_iff, bool_decide_eq_true, pid_matches_request by done. tauto.
Qed.

(** What [Wait] needs of the table: every entry is a live block under its own
    pid, in a well-formed thread group. *)
Record table_ok (k : Kernel) : Prop := {
  tab_lock : free_lock (task_table_lock_ k);
  tab_wf : NkUnorderedMap.wf hash_id (task_table_ k);
  tab_entry : forall n q, NkUnorderedMap.to_map (task_table_ k) !! n = Some q ->
    exists t ps1 ps2, tcbs k !! q = Some t /\ pid t = n /\ group (tcbs k) (ps1 ++ q :: ps2)
}.

(** The scan as a critical section. *)
Lemma wait_scan_guard c p untraced k cur :
  table_ok k -> tcbs k !! running_task (percpu k c) = Some cur ->
  exists r, table_guard c (let* m := gets task_table_ in
      on_heap (wait_scan p untraced (running_task (percpu k c)) (NkUnorderedMap.elements m))) k =
      Ret (table_released c (table_held c k)) r /\
    scan_ok (tcbs k) p untraced cur (NkUnorderedMap.elements (task_table_ k)) r.
Proof.
  intros [L W A] Ec.
  destruct (wait_scan_spec p untraced _ cur (NkUnorderedMap.elements (task_table_ k)) (tcbs k) Ec) as (r & E & Hr).
  { intros n q Hq. apply (NkUnorderedMap.elements_to_map hash_id _ _ _ W) in Hq.
    destruct (A n q Hq) as (t & _ & _ & Et & _). eauto. }
  exists r. split; [|done]. apply table_guard_run; [done| |done]. cbn [bind gets].
  rewrite (on_heap_ret _ (tcbs (table_held c k)) _ r) by done. by rewrite set_tcbs_id.
Qed.

Definition rescanned (c : Z) (k : Kernel) : Kernel := table_released c (table_held c k).

(** [Wait] after its checks. *)
Lemma Wait_enters entry c p hs nh ut k cur :
  running_task (percpu k c) <> nullptr -> tcbs k !! running_task (percpu k c) = Some cur -> status cur = kRunning ->
  Wait entry c p hs nh ut k = Wait_round entry c p hs nh ut k.
Proof.
  intros Hz Ec Sc. unfold Wait. cbn [bind GetCurrentTask gets]. rewrite (proj2 (Z.eqb_neq _ _) Hz).
  cbn [negb nk_assert_msg bind]. rewrite (on_heap_tcb _ _ _ Ec). cbn [bind].
  by rewrite bool_decide_eq_true_2.
Qed.

(** The release of the child that was found. *)
Lemma wait_reap entry c p hs nh ut k cur q t n ps1 ps2 :
  table_ok k -> tcbs k !! running_task (percpu k c) = Some cur ->
  NkUnorderedMap.to_map (task_table_ k) !! n = Some q -> tcbs k !! q = Some t -> pid t = n ->
  group (tcbs k) (ps1 ++ q :: ps2) -> reapable p cur t = true ->
  table_guard c (let* m := gets task_table_ in
      on_heap (wait_scan p ut (running_task (percpu k c)) (NkUnorderedMap.elements m))) k =
    Ret (rescanned c k) (Reapable q) ->
  exists k', Wait_round entry c p hs nh ut k = Ret k' (Waited n (if hs then Some (exit_code t) else None)) /\
    tcbs k' !! q = None /\ NkUnorderedMap.to_map (task_table_ k') = delete n (NkUnorderedMap.to_map (task_table_ k)) /\
    freed k' = freed k ++ releases t /\ free_lock (task_table_lock_ k') /\
    (forall x, x ∉ ps1 ++ q :: ps2 -> tcbs k' !! x = tcbs k !! x).
Proof.
  intros [L W A] Ec Hq Et Hn G R E. apply andb_true_iff in R as [M Z].
  assert (parent_pid t =? pid cur = true) as Par.
  { unfold pid_matches in M. destruct (parent_pid t =? pid cur); [done|].
    by destruct (p =? UINT64_MAX), (p =? 0), (0 <? p). }
  set (m := NkUnorderedMap.erase hash_id (task_table_ k) n).
  set (k1 := rescanned c k). set (k2 := table_released c (set_task_table_ m.1 (table_held c k1))).
  destruct (delete_task_spec q k2 t ps1 ps2 Et G) as (h & E3 & H1 & _ & H2).
  eexists. split.
  - unfold Wait_round. cbn [bind GetCurrentTask gets]. rewrite E. fold k1. cbn [bind].
    rewrite (on_heap_tcb k1 q t Et). cbn [bind]. rewrite (on_heap_tcb k1 _ cur Ec). cbn [bind].
    rewrite Z, Par. cbn [nk_assert_msg bind].
    rewrite (table_guard_run c k1 (set_task_table_ m.1 (table_held c k1)) tt); [|done| |done].
    2: { cbn [bind gets]. unfold NkUnorderedMap.contains.
         change (task_table_ (table_held c k1)) with (task_table_ k).
         rewrite Hn, (NkUnorderedMap.find_to_map hash_id _ n W), Hq. done. }
    fold k2. cbn [bind]. rewrite E3. cbn [bind ret]. by rewrite Hn.
  - split; [exact H1|]. split; [|by split].
    change (NkUnorderedMap.to_map m.1 = delete n (NkUnorderedMap.to_map (task_table_ k))).
    by apply table_erase.
Qed.

(** ** Clone *)

(** Computations that leave the status of one block alone, on the heap and on
    the kernel. *)
Definition hkeeps {A} (p : ptr) (m : M heap A) : Prop := forall h h' a t,
  m h = Ret h' a -> h !! p = Some t -> exists t', h' !! p = Some t' /\ status t' = status t.
Definition keeps {A} (p : ptr) (m : KM A) : Prop := forall k k' a t,
  m k = Ret k' a -> tcbs k !! p = Some t -> exists t', tcbs k' !! p = Some t' /\ status t' = status t.

Create HintDb keeps discriminated.

Lemma hkeeps_ret {A} p (a : A) : hkeeps p (ret a).
Proof. intros h h' b t [= <- <-]. eauto. Qed.
Lemma hkeeps_tcb p q : hkeeps p (tcb q).
Proof. intros h h' b t. cbn. destruct (h !! q); [|done]. intros [= <- <-]. eauto. Qed.
Lemma hkeeps_upd p q f : (forall t, status (f t) = status t) -> hkeeps p (upd q f).
Proof.
  intros Hf h h' b t. cbn. destruct (h !! q) as [u|] eqn:E; [|done]. intros [= <- <-] Et.
  destruct (decide (q = p)) as [->|Hne].
  - rewrite lookup_insert_eq. eexists. split; [reflexivity|]. rewrite Hf. congruence.
  - rewrite lookup_insert_ne by done. eauto.
Qed.
Lemma hkeeps_bind {A B} p (m : M heap A) (f : A -> M heap B) :
  hkeeps p m -> (forall a, hkeeps p (f a)) -> hkeeps p (bind m f).
Proof.
  intros Hm Hf h h' b t E Et. apply bind_ret_inv in E as (h1 & a & E1 & E2).
  destruct (Hm _ _ _ _ E1 Et) as (t1 & Et1 & S1). destruct (Hf a _ _ _ _ E2 Et1) as (t2 & Et2 & S2).
  exists t2. split; [done|congruence].
Qed.
Lemma hkeeps_if {A} p (b : bool) (m n : M heap A) : hkeeps p m -> hkeeps p n -> hkeeps p (if b then m else n).
Proof. by destruct b. Qed.

Lemma keeps_on_heap {A} p (m : M heap A) : hkeeps p m -> keeps p (on_heap m).
Proof.
  intros Hm k k' a t. unfold on_heap. destruct (m (tcbs k)) as [h b|] eqn:E; [|done].
  intros [= <- <-]. by apply (Hm _ _ _ _ E).
Qed.
Lemma keeps_bind {A B} p (m : KM A) (f : A -> KM B) :
  keeps p m -> (forall a, keeps p (f a)) -> keeps p (bind m f).
Proof.
  intros Hm Hf k k' b t E Et. apply bind_ret_inv in E as (k1 & a & E1 & E2).
  destruct (Hm _ _ _ _ E1 Et) as (t1 & Et1 & S1). destruct (Hf a _ _ _ _ E2 Et1) as (t2 & Et2 & S2).
  exists t2. split; [done|congruence].
Qed.
Lemma keeps_same {A} p (m : KM A) : (forall k k' a, m k = Ret k' a -> tcbs k' = tcbs k) -> keeps p m.
Proof. intros H k k' a t E Et. rewrite (H _ _ _ E). eauto. Qed.
Lemma keeps_if {A} p (b : bool) (m n : KM A) : keeps p m -> keeps p n -> keeps p (if b then m else n).
Proof. by destruct b. Qed.

Lemma keeps_set p q f : (forall t, status (f t) = status t) -> keeps p (on_heap (upd q f)).
Proof. intros Hf. by apply keeps_on_heap, hkeeps_upd. Qed.

#[export] Hint Resolve hkeeps_ret hkeeps_tcb hkeeps_bind hkeeps_if hkeeps_upd keeps_on_heap keeps_bind keeps_if : keeps.

Lemma keeps_join p this leader : hkeeps p (JoinThreadGroup this leader).
Proof. unfold JoinThreadGroup. auto 12 with keeps. Qed.

Lemma keeps_guard {A} p c (body : KM A) : keeps p body -> keeps p (table_guard c body).
Proof.
  intros Hb. unfold table_guard, SpinLock.with_guard. apply keeps_bind.
  - apply keeps_same. intros k k' a. unfold SpinLock.lock_m.
    destruct (SpinLock.Lock c (intr k c) (task_table_lock_ k)) as [[[l i] r]|]; [|done]. by intros [= <- _].
  - intros r. destruct (has_value r); [|by apply keeps_same]. apply keeps_bind; [done|]. intros a.
    apply keeps_bind; [|intros []; apply keeps_same; by intros ? ? ? [= <- _]].
    apply keeps_same. intros k k' x. unfold SpinLock.unlock_m.
    destruct (SpinLock.UnLock c (intr k c) (task_table_lock_ k)) as [[l i] r']. by intros [= <- _].
Qed.

Lemma keeps_find p c n : keeps p (FindTask c n).
Proof. apply keeps_guard, keeps_same. by intros ? ? ? [= <- _]. Qed.
#[export] Hint Resolve keeps_join keeps_find : keeps.

Lemma keeps_join_group p c flags n parent child : keeps p (join_group c flags n parent child).
Proof. unfold join_group. auto 12 with keeps. Qed.
#[export] Hint Resolve keeps_join_group : keeps.

(** [AddTask] accepts only a task that was not initialised. *)
Lemma add_task_status c task k k' :
  AddTask c task k = Ret k' tt -> exists t, tcbs k !! task = Some t /\ status t = kUnInit.
Proof.
  unfold AddTask. intros (k1 & [] & E1 & E)%bind_ret_inv. unfold nk_assert_msg in E1.
  destruct (negb _); [|done]. injection E1 as <-. apply bind_ret_inv in E as (k2 & t & E2 & E).
  unfold on_heap, tcb in E2. destruct (tcbs k !! task) as [u|] eqn:Et; [|done]. injection E2 as <- <-.
  apply bind_ret_inv in E as (k3 & [] & E3 & _). unfold nk_assert_msg in E3.
  destruct (bool_decide (status u = kUnInit)) eqn:B; [|done]. exists u. split; [done|]. by apply bool_decide_eq_true in B.
Qed.

(** The status of the child on the way through [Clone]. *)
Lemma new_tcb_status t k k' child :
  on_heap (new_tcb t) k = Ret k' child -> exists t', tcbs k' !! child = Some t' /\ status t' = status t.
Proof. unfold on_heap, new_tcb. intros [= <- <-]. cbn. rewrite lookup_insert_eq. eauto. Qed.

(** The last part of [Clone] cannot return: the child is [kReady]. *)
Lemma ready_child_not_added {A B} c child (m : KM A) (f : KM B) k k' b t :
  keeps child m -> tcbs k !! child = Some t -> status t = kReady ->
  (let* _ := m in let* _ := AddTask c child in f) k <> Ret k' b.
Proof.
  intros Hm Et St E. apply bind_ret_inv in E as (k1 & a & E1 & E). apply bind_ret_inv in E as (k2 & [] & E2 & _).
  destruct (Hm _ _ _ _ E1 Et) as (t1 & Et1 & S1). destruct (add_task_status _ _ _ _ E2) as (t2 & Et2 & S2). congruence.
Qed.

(** The child is [kReady] when it reaches [AddTask]. *)
Lemma clone_fails (ClonePageDirectory : ptr -> Expected ptr) (mem : CloneMemory) (trap_size c flags user_stack tls : Z)
    (frame : TrapRegs) (k k' : Kernel) (r : clone_result) :
  Clone ClonePageDirectory mem trap_size c flags user_stack tls frame k = Ret k' r ->
  exists e, clone_pid r = Unexpected e /\ clone_parent_frame r = frame /\ clone_child_frame r = None.
Proof.
  unfold Clone. intros (k1 & parent & E1 & E)%bind_ret_inv. destruct (parent =? nullptr).
  { injection E as _ <-. by eexists. }
  apply bind_ret_inv in E as (k2 & new_pid & E2 & E). destruct (new_pid =? 0). { injection E as _ <-. by eexists. }
  destruct (negb (block_memory mem)). { injection E as _ <-. by eexists. }
  apply bind_ret_inv in E as (k3 & par & E3 & E). apply bind_ret_inv in E as (k4 & child & E4 & E).
  destruct (new_tcb_status _ _ _ _ E4) as (t4 & Et4 & S4).
  apply bind_ret_inv in E as (k5 & [] & E5 & E). destruct (keeps_join_group child _ _ _ _ _ _ _ _ _ E5 Et4) as (t5 & Et5 & S5).
  apply bind_ret_inv in E as (k6 & [] & E6 & E).
  destruct (keeps_set child child (set_clone_flags (complete_flags flags)) (fun t => eq_refl) _ _ _ _ E6 Et5) as (t6 & Et6 & S6).
  unfold clone_memory in E. destruct (if has (complete_flags flags) kCloneVm then _ else _) as [pt|e].
  2: { apply bind_ret_inv in E as (k7 & [] & E7 & E). injection E as _ <-. by eexists. }
  apply bind_ret_inv in E as (k7 & [] & E7 & E).
  destruct (keeps_set child child (set_page_table pt) (fun t => eq_refl) _ _ _ _ E7 Et6) as (t7 & Et7 & S7).
  destruct (stack_memory mem =? nullptr).
  { apply bind_ret_inv in E as (k8 & [] & E8 & E). apply bind_ret_inv in E as (k9 & [] & E9 & E).
    injection E as _ <-. by eexists. }
  apply bind_ret_inv in E as (k8 & [] & E8 & E).
  destruct (keeps_set child child (set_kernel_stack (stack_memory mem)) (fun t => eq_refl) _ _ _ _ E8 Et7) as (t8 & Et8 & S8).
  apply bind_ret_inv in E as (k9 & [] & E9 & E).
  destruct (keeps_set child child (set_trap_context_ptr (u64 (stack_memory mem + kDefaultKernelStackSize - trap_size))) (fun t => eq_refl) _ _ _ _ E9 Et8) as (t9 & Et9 & S9).
  exfalso. revert E. eapply ready_child_not_added; [|exact Et9|].
  - apply keeps_guard, keeps_same. intros x x' a (y & m & [= <- <-] & E)%bind_ret_inv.
    apply bind_ret_inv in E as (z & [] & Ez & E). unfold nk_assert_msg in Ez. destruct (negb _); [|done].
    injection Ez as <-. by injection E as <-.
  - rewrite S9, S8, S7, S6, S5, S4. done.
Qed.

(** ** The claims *)

(** One round of [Wait], for any argument. *)
Lemma wait_round_cases (entry c p : Z) (hs nh ut : bool) (k : Kernel) (cur : TCB) :
  running_task (percpu k c) <> nullptr ->
  tcbs k !! running_task (percpu k c) = Some cur -> status cur = kRunning -> table_ok k ->
  (exists k' n q t, Wait entry c p hs nh ut k = Ret k' (Waited n (if hs then Some (exit_code t) else None)) /\
     NkUnorderedMap.to_map (task_table_ k) !! n = Some q /\ tcbs k !! q = Some t /\ reapable p cur t = true /\ pid t = n /\
     tcbs k' !! q = None /\ NkUnorderedMap.to_map (task_table_ k') = delete n (NkUnorderedMap.to_map (task_table_ k)) /\
     freed k' = freed k ++ releases t) \/
  (exists k' n q t, Wait entry c p hs nh ut k = Ret k' (Waited n (if hs then Some 0 else None)) /\
     NkUnorderedMap.to_map (task_table_ k) !! n = Some q /\ tcbs k !! q = Some t /\ pid t = n /\
     stopped p ut cur t = true /\ tcbs k' = tcbs k /\ task_table_ k' = task_table_ k) \/
  ((forall n q t, NkUnorderedMap.to_map (task_table_ k) !! n = Some q -> tcbs k !! q = Some t ->
      reapable p cur t = false /\ stopped p ut cur t = false) /\
   exists k1, tcbs k1 = tcbs k /\ task_table_ k1 = task_table_ k /\
     Wait entry c p hs nh ut k =
       if nh then Ret k1 (Waited 0 None)
       else (let* _ := Block entry c (ResourceId.mk ResourceId.kChildExit (pid cur)) in ret WaitBlocked) k1).
Proof.
  intros Hz Ec Sc T. rewrite (Wait_enters entry c p hs nh ut k cur Hz Ec Sc).
  destruct (wait_scan_guard c p ut k cur T Ec) as (r & E & Hr). pose proof T as [L W A].
  destruct r as [q|x|]; cbn in Hr.
  - left. destruct Hr as (n & t & Hin & Et & R). apply (NkUnorderedMap.elements_to_map hash_id _ _ _ W) in Hin.
    destruct (A n q Hin) as (t' & ps1 & ps2 & Et' & Hn & G). rewrite Et in Et'. injection Et' as <-.
    destruct (wait_reap entry c p hs nh ut k cur q t n ps1 ps2 T Ec Hin Et Hn G R E) as (k' & Ek & H1 & H2 & H3 & _).
    exists k', n, q, t. by split_and!.
  - right. left. destruct Hr as (n & q & t & Hin & Et & S & Hx). apply (NkUnorderedMap.elements_to_map hash_id _ _ _ W) in Hin.
    destruct (A n q Hin) as (t' & _ & _ & Et' & Hn & _). rewrite Et in Et'. injection Et' as <-.
    exists (rescanned c k), n, q, t. split; [|done].
    unfold Wait_round. cbn [bind GetCurrentTask gets]. rewrite E. cbn [bind ret]. by rewrite <- Hx, Hn.
  - right. right. split.
    + intros n q t Hin. apply (Hr n q t). by apply (NkUnorderedMap.elements_to_map hash_id).
    + exists (rescanned c k). split; [done|]. split; [done|].
      unfold Wait_round. cbn [bind GetCurrentTask gets]. rewrite E. cbn [bind]. destruct nh; [done|]. cbn [bind].
      fold (rescanned c k). by rewrite (on_heap_tcb (rescanned c k) _ cur Ec).
Qed.

(** C31: [Wait] reaps.  The request is one of those that the comments describe: any
    child, the children of the caller's process group, or the child with a given pid;
    and some child fits it.  When a child that fits has ended, or with [untraced] is
    blocked, one such child is dealt with: an ended one is released (its block is
    freed, its stack and page table are given back, its table entry is removed) and its
    pid and exit code are returned; of a blocked one the pid and the status 0 are
    returned, and nothing changes.  When there is none, a call that must not wait
    returns 0 at once and any other blocks the caller on the resource of its children's exits. *)
Theorem wait_reaps_ended_child (entry c : Z) (req : Request) (hs nh ut : bool) (k : Kernel) (cur : TCB) :
  running_task (percpu k c) <> nullptr ->
  tcbs k !! running_task (percpu k c) = Some cur -> status cur = kRunning -> table_ok k -> legal req ->
  (exists n q t, NkUnorderedMap.to_map (task_table_ k) !! n = Some q /\ tcbs k !! q = Some t /\ asks_for req cur t) ->
  (exists k' n q t, Wait entry c (pid_argument req) hs nh ut k = Ret k' (Waited n (if hs then Some (exit_code t) else None)) /\
     NkUnorderedMap.to_map (task_table_ k) !! n = Some q /\ tcbs k !! q = Some t /\ asks_for req cur t /\ ended t /\ pid t = n /\
     tcbs k' !! q = None /\ NkUnorderedMap.to_map (task_table_ k') = delete n (NkUnorderedMap.to_map (task_table_ k)) /\
     freed k' = freed k ++ releases t) \/
  (ut = true /\ exists k' n q t, Wait entry c (pid_argument req) hs nh ut k = Ret k' (Waited n (if hs then Some 0 else None)) /\
     NkUnorderedMap.to_map (task_table_ k) !! n = Some q /\ tcbs k !! q = Some t /\ asks_for req cur t /\ status t = kBlocked /\ pid t = n /\
     tcbs k' = tcbs k /\ task_table_ k' = task_table_ k) \/
  ((forall n q t, NkUnorderedMap.to_map (task_table_ k) !! n = Some q -> tcbs k !! q = Some t -> asks_for req cur t ->
      ~ ended t /\ ~ (ut = true /\ status t = kBlocked)) /\
   exists k1, tcbs k1 = tcbs k /\ task_table_ k1 = task_table_ k /\
     Wait entry c (pid_argument req) hs nh ut k =
       if nh then Ret k1 (Waited 0 None)
       else (let* _ := Block entry c (ResourceId.mk ResourceId.kChildExit (pid cur)) in ret WaitBlocked) k1).
Proof.
  intros Hz Ec Sc T Hl _.
  destruct (wait_round_cases entry c (pid_argument req) hs nh ut k cur Hz Ec Sc T)
    as [(k' & n & q & t & E & Hin & Et & [R1 R2]%(reapable_request _ _ _ Hl) & R)|
       [(k' & n & q & t & E & Hin & Et & Hn & (S1 & S2 & S3)%(stopped_request _ _ _ _ Hl) & R)|[Hno R]]].
  - left. by exists k', n, q, t.
  - right. left. split; [done|]. exists k', n, q, t. destruct R. by split_and!.
  - right. right. split; [|done]. intros n q t Hin Et Ha. destruct (Hno n q t Hin Et) as [H1 H2]. split; intros He.
    + rewrite (proj2 (reapable_request req cur t Hl)) in H1; done.
    + rewrite (proj2 (stopped_request req ut cur t Hl)) in H2; done.
Qed.

(** Without any child that fits, task_manager.hpp promises an error; the call returns
    0 or blocks for ever. *)
Theorem wait_without_child (entry c : Z) (req : Request) (hs nh ut : bool) (k : Kernel) (cur : TCB) :
  running_task (percpu k c) <> nullptr ->
  tcbs k !! running_task (percpu k c) = Some cur -> status cur = kRunning -> table_ok k -> legal req ->
  (forall n q t, NkUnorderedMap.to_map (task_table_ k) !! n = Some q -> tcbs k !! q = Some t -> ~ asks_for req cur t) ->
  exists k1, tcbs k1 = tcbs k /\ task_table_ k1 = task_table_ k /\
    Wait entry c (pid_argument req) hs nh ut k =
      if nh then Ret k1 (Waited 0 None)
      else (let* _ := Block entry c (ResourceId.mk ResourceId.kChildExit (pid cur)) in ret WaitBlocked) k1.
Proof.
  intros Hz Ec Sc T Hl Hno.
  destruct (wait_round_cases entry c (pid_argument req) hs nh ut k cur Hz Ec Sc T)
    as [(k' & n & q & t & E & Hin & Et & [R1 R2]%(reapable_request _ _ _ Hl) & _)|
       [(k' & n & q & t & E & Hin & Et & _ & (S1 & _)%(stopped_request _ _ _ _ Hl) & _)|[_ R]]]; [by destruct (Hno n q t Hin Et)..|done].
Qed.

(** A reaped child: the parent (task 2, pid 8) runs, its child (task 3, pid 9)
    is a zombie with exit code 7. *)
Definition zombie_child : TCB := set_exit_code 7 (set_status kZombie family_child).
Definition zombie_kernel : Kernel :=
  set_tcbs {[2 := family_parent; 3 := zombie_child]} family_kernel.

Lemma singleton_group h p t : p <> nullptr -> h !! p = Some t ->
  thread_group_prev t = nullptr -> thread_group_next t = nullptr -> group h ([] ++ p :: []).
Proof. intros Hz E E1 E2. split; [apply NoDup_singleton|]. split; [|done]. split; [done|]. by exists t. Qed.

Lemma family_entries n q : NkUnorderedMap.to_map family_table !! n = Some q -> n = 9 /\ q = 3 \/ n = 8 /\ q = 2.
Proof.
  rewrite (proj2 (proj2 family_ok)). intros [[<- <-]|[_ H]]%lookup_insert_Some; [by left|].
  apply lookup_singleton_Some in H as [<- <-]. by right.
Qed.

Lemma zombie_table_ok : table_ok zombie_kernel.
Proof.
  split; [split; reflexivity|apply family_ok|]. intros n q [[-> ->]|[-> ->]]%family_entries; eexists _, [], [].
  - split; [reflexivity|]. split; [reflexivity|]. by eapply singleton_group.
  - split; [reflexivity|]. split; [reflexivity|]. by eapply singleton_group.
Qed.

Lemma zombie_entry : NkUnorderedMap.to_map (task_table_ zombie_kernel) !! 9 = Some 3.
Proof. cbn [task_table_ zombie_kernel family_kernel set_task_table_ set_tcbs]. by rewrite (proj2 (proj2 family_ok)). Qed.

Lemma wait_reaps_ended_child_witness :
  exists k', Wait 900 0 9 true true false zombie_kernel = Ret k' (Waited 9 (Some 7)) /\ tcbs k' !! 3 = None.
Proof.
  destruct (wait_reaps_ended_child 900 0 (Child 9) true true false zombie_kernel family_parent)
    as [(k' & n & q & t & E & Hn & Et & [_ R] & _ & _ & H & _)|[[F _]|[F _]]].
  - discriminate.
  - reflexivity.
  - reflexivity.
  - exact zombie_table_ok.
  - cbn. lia.
  - exists 9, 3, zombie_child. split; [exact zombie_entry|]. split; [reflexivity|]. split; reflexivity.
  - destruct (family_entries n q Hn) as [[-> ->]|[-> ->]]; vm_compute in Et; injection Et as <-.
    + exists k'. split; [exact E|exact H].
    + vm_compute in R. discriminate.
  - discriminate F.
  - destruct (F 9 3 zombie_child zombie_entry) as [Hf _]; [reflexivity|split; reflexivity|].
    exfalso. apply Hf. left. reflexivity.
Defined.

(** [Exit] of a task with a parent never finishes.  It holds the lock of
    its run queue while it calls [Wakeup], which takes the same lock again: the
    lock reports the recursion and the guard spins.  The core stays in that loop
    with the lock held and interrupts off, and the task, already a zombie, is
    still its current task. *)
Theorem exit_with_parent_deadlocks (entry c code : Z) (k : Kernel) (t : TCB) (ps1 ps2 : list ptr) :
  let cur := running_task (percpu k c) in
  exiting k cur t ps1 ps2 -> status t = kRunning -> parent_pid t <> 0 -> free_lock (sched_lock (cpus k c)) ->
  exists k' t', Exit entry c code k = Halt k' LockGuardSpin /\
    SpinLock.locked_ (sched_lock (cpus k' c)) = true /\ SpinLock.core_id_ (sched_lock (cpus k' c)) = c /\
    intr k' c = false /\ tcbs k' !! cur = Some t' /\ status t' = kZombie.
Proof.
  intros cur Ex St Hp Lk. destruct (group_alive _ _ cur (ex_group _ _ _ _ _ Ex)) as [Hz _]; [apply elem_of_app; right; by left|].
  destruct (exit_enters entry c code k t Hz (ex_tcb _ _ _ _ _ Ex) St Lk) as (k1 & [V1 V2 V3] & I1 & F1 & Hx).
  destruct (exit_parent_spec c code k1 cur t ps1 ps2 _ _ (exiting_frame c k k1 _ _ _ _ F1 V1 Ex) V2 Hp)
    as (k2 & t2 & E2 & L2 & I2 & Et2 & S2).
  exists k2, t2. split; [by apply Hx|]. rewrite L2, V2, I2. by split_and!.
Qed.

(** The child of the family runs. *)
Definition running_child : TCB := set_status kRunning family_child.
Definition child_kernel : Kernel :=
  set_percpu (fun _ => MkPerCpu 3 1) (set_tcbs {[2 := family_parent; 3 := running_child]} family_kernel).

Lemma family_exiting k cur t :
  task_table_ k = family_table -> free_lock (task_table_lock_ k) -> is_Some (tcbs k !! 2) -> is_Some (tcbs k !! 3) ->
  cur <> nullptr -> tcbs k !! cur = Some t -> thread_group_prev t = nullptr -> thread_group_next t = nullptr ->
  exiting k cur t [] [].
Proof.
  intros T L A2 A3 Hz E E1 E2. split; [done|by eapply singleton_group|done|done|rewrite T; apply family_ok|].
  intros n p. rewrite T. by intros [[-> ->]|[-> ->]]%family_entries.
Qed.

Lemma exit_with_parent_deadlocks_witness :
  exists k', Exit 900 0 1 child_kernel = Halt k' LockGuardSpin.
Proof.
  destruct (exit_with_parent_deadlocks 900 0 1 child_kernel running_child [] []) as (k' & t' & E & _).
  - apply family_exiting; [reflexivity|split; reflexivity|vm_compute; eauto|vm_compute; eauto|discriminate|reflexivity..].
  - reflexivity.
  - discriminate.
  - split; reflexivity.
  - exists k'. exact E.
Defined.

(** [Exit] of a task without a parent uses freed memory.  [ReapTask] takes
    the task out of the table and deletes it, and then reads its pid for the log
    message: a read through a pointer to a block that is gone. *)
Theorem exit_without_parent_uses_freed_task (entry c code : Z) (k : Kernel) (t : TCB) (ps1 ps2 : list ptr) :
  let cur := running_task (percpu k c) in
  exiting k cur t ps1 ps2 -> status t = kRunning -> parent_pid t = 0 -> pid t <> 0 ->
  free_lock (sched_lock (cpus k c)) ->
  exists k', Exit entry c code k = Halt k' (BadPointer cur) /\ tcbs k' !! cur = None /\
    NkUnorderedMap.to_map (task_table_ k') = delete (pid t) (NkUnorderedMap.to_map (task_table_ k)).
Proof.
  intros cur Ex St Hp Hpid Lk. destruct (group_alive _ _ cur (ex_group _ _ _ _ _ Ex)) as [Hz _]; [apply elem_of_app; right; by left|].
  destruct (exit_enters entry c code k t Hz (ex_tcb _ _ _ _ _ Ex) St Lk) as (k1 & [V1 V2 V3] & I1 & F1 & Hx).
  destruct (exit_orphan_spec c code k1 cur t ps1 ps2 (exiting_frame c k k1 _ _ _ _ F1 V1 Ex) Hp Hpid)
    as (k2 & E2 & H2 & T2).
  exists k2. split; [by apply Hx|]. split; [done|]. by rewrite T2, (frame_table _ _ _ F1).
Qed.

Lemma exit_without_parent_uses_freed_task_witness :
  exists k', Exit 900 0 1 family_kernel = Halt k' (BadPointer 2).
Proof.
  destruct (exit_without_parent_uses_freed_task 900 0 1 family_kernel family_parent [] []) as (k' & E & _).
  - apply family_exiting; [reflexivity|split; reflexivity|vm_compute; eauto|vm_compute; eauto|discriminate|reflexivity..].
  - reflexivity.
  - reflexivity.
  - discriminate.
  - split; reflexivity.
  - exists k'. exact E.
Defined.

(** [Clone] never succeeds.  Whatever the flags, the stack, the memory
    manager and the allocator answer, a call that returns returns an error: the
    child is marked [kReady] before it is handed to [AddTask], whose assertion
    demands [kUnInit]. *)
Theorem clone_never_succeeds (ClonePageDirectory : ptr -> Expected ptr) (mem : CloneMemory) (trap_size c flags user_stack tls : Z)
    (frame : TrapRegs) (k k' : Kernel) (r : clone_result) :
  Clone ClonePageDirectory mem trap_size c flags user_stack tls frame k = Ret k' r ->
  exists e, clone_pid r = Unexpected e /\ clone_parent_frame r = frame /\ clone_child_frame r = None.
Proof. apply clone_fails. Qed.

Lemma clone_never_succeeds_witness :
  exists k' r e, Clone (fun p => Value p) (MkCloneMemory true 0) 280 0 0 0 0 (MkTrap 0 0 0 []) family_kernel = Ret k' r /\
    clone_pid r = Unexpected e.
Proof.
  assert (exists k' r, Clone (fun p => Value p) (MkCloneMemory true 0) 280 0 0 0 0 (MkTrap 0 0 0 []) family_kernel = Ret k' r) as (k' & r & E)
    by (eexists _, _; vm_compute; reflexivity).
  destruct (clone_never_succeeds (fun p => Value p) (MkCloneMemory true 0) 280 0 0 0 0 (MkTrap 0 0 0 []) family_kernel k' r E) as (e & He & _).
  exists k', r, e. split; [exact E|exact He].
Defined.

(** ** Clone of a process

    Without [kCloneThread] the child starts a thread group of its own. *)

Definition process_child (flags new_pid : Z) (par : TCB) : TCB :=
  set_clone_flags flags (set_sid (sid par) (set_pgid (pgid par) (set_tgid new_pid (clone_fields flags new_pid par)))).

Definition pid_taken (k : Kernel) : Kernel := set_pid_allocator (u64 (pid_allocator k + 1)) k.

Section process.
Context (cpd : ptr -> Expected ptr) (mem : CloneMemory) (trap_size c flags user_stack tls : Z) (frame : TrapRegs).
Context (k : Kernel) (par : TCB) (Ht : has flags kCloneThread = false).
Hypothesis Hz : running_task (percpu k c) <> nullptr.
Hypothesis Ep : tcbs k !! running_task (percpu k c) = Some par.
Abbreviation child := (fresh_ptr (tcbs k)).
Abbreviation clone := (Clone cpd mem trap_size c flags user_stack tls frame).
Abbreviation rest := (clone_memory cpd mem trap_size c flags user_stack tls frame (pid_allocator k) par child).
Abbreviation error e := (clone_error e frame).

Lemma clone_process_start :
  pid_allocator k <> 0 -> block_memory mem = true -> clone k = rest (set_tcbs (<[child := process_child flags (pid_allocator k) par]> (tcbs k)) (pid_taken k)).
Proof.
  intros Hpid Hb. assert (complete_flags flags = flags) as Hf by (unfold complete_flags; by rewrite Ht).
  destruct (fresh_ptr_spec (tcbs k)) as [Hcz Hcn]. assert (running_task (percpu k c) <> child) as Hne by congruence.
  set (k1 := pid_taken k). set (t0 := clone_fields flags (pid_allocator k) par).
  unfold Clone. cbn [bind GetCurrentTask gets]. rewrite (proj2 (Z.eqb_neq _ _) Hz), Hf. cbn [bind].
  unfold AllocatePid at 1. cbn [bind]. fold (pid_taken k) k1. rewrite (proj2 (Z.eqb_neq (pid_allocator k) 0) Hpid), Hb. cbn [bind negb].
  rewrite (on_heap_tcb k1 _ _ Ep). cbn [bind]. fold t0.
  rewrite (on_heap_ret k1 (<[child := t0]> (tcbs k)) _ child) by done. cbn [bind]. unfold join_group at 1. cbn [bind].
  rewrite (on_heap_tcb _ (running_task (percpu k c)) par) by (cbn; by rewrite lookup_insert_ne by done). cbn [bind]. rewrite Ht.
  rewrite (on_heap_upd _ child t0) by (cbn; by rewrite lookup_insert_eq). cbn [bind tcbs set_tcbs].
  rewrite (on_heap_upd _ child (set_sid (sid par) (set_pgid (pgid par) (set_tgid (pid_allocator k) t0))))
    by (cbn; by rewrite insert_insert_eq, lookup_insert_eq).
  cbn [bind tcbs set_tcbs]. rewrite !insert_insert_eq. reflexivity.
Qed.

Abbreviation made := (process_child flags (pid_allocator k) par).

Lemma made_upd t f : on_heap (upd child f) (set_tcbs (<[child := t]> (tcbs k)) (pid_taken k)) =
  Ret (set_tcbs (<[child := f t]> (tcbs k)) (pid_taken k)) tt.
Proof. rewrite (on_heap_upd _ _ t) by (cbn; by rewrite lookup_insert_eq). cbn [tcbs set_tcbs]. by rewrite insert_insert_eq. Qed.

(** The address space of the child. *)
Definition clone_space : Expected ptr :=
  if has flags kCloneVm then Value (page_table par)
  else if page_table par =? nullptr then Value nullptr
  else cpd (page_table par).

(** A pid, a control block, an address space and a stack are to be had. *)
Definition can_clone : bool :=
  negb (pid_allocator k =? 0) && block_memory mem && has_value clone_space && negb (stack_memory mem =? nullptr).

(** The block of the child can be deleted again. *)
Lemma delete_child t f :
  thread_group_prev t = nullptr -> thread_group_next t = nullptr ->
  exists h, delete_task child (set_freed f (set_tcbs (<[child := t]> (tcbs k)) (pid_taken k))) =
      Ret (set_freed (f ++ releases t) (set_tcbs h (pid_taken k))) tt /\
    forall p, h !! p = tcbs k !! p.
Proof.
  intros E1 E2. destruct (fresh_ptr_spec (tcbs k)) as [Hcz Hcn].
  destruct (delete_task_spec child (set_freed f (set_tcbs (<[child := t]> (tcbs k)) (pid_taken k))) t [] [])
    as (h & E & Hd & _ & Ho).
  { cbn. by rewrite lookup_insert_eq. } { eapply singleton_group; [done|cbn; by rewrite lookup_insert_eq|done|done]. }
  exists h. split; [exact E|]. intros p. destruct (decide (p = child)) as [->|Hp]; [by rewrite Hd, Hcn|].
  rewrite Ho by (intros ->%list_elem_of_singleton; done). cbn. by rewrite lookup_insert_ne by congruence.
Qed.

Lemma undone k1 k2 e : delete_task child k1 = Ret k2 tt ->
  (let* _ := delete_task child in ret (error e)) k1 = Ret k2 (error e).
Proof. intros E. cbn [bind]. by rewrite E. Qed.

(** Without one of them the call returns an error and the blocks are as before. *)
Lemma clone_process_error :
  can_clone = false -> exists k' e, clone k = Ret k' (error e) /\ (forall p, tcbs k' !! p = tcbs k !! p).
Proof.
  intros Hc. unfold can_clone, clone_space in Hc. destruct (Z.eqb_spec (pid_allocator k) 0) as [Hp|Hp].
  { eexists _, _. split; [unfold Clone; cbn [bind GetCurrentTask gets]; rewrite (proj2 (Z.eqb_neq _ _) Hz);
      cbn [bind]; unfold AllocatePid; cbn [bind]; rewrite Hp; reflexivity|done]. }
  destruct (block_memory mem) eqn:Hb.
  2: { eexists _, _. split; [unfold Clone; cbn [bind GetCurrentTask gets]; rewrite (proj2 (Z.eqb_neq _ _) Hz);
      cbn [bind]; unfold AllocatePid; cbn [bind]; rewrite (proj2 (Z.eqb_neq (pid_allocator k) 0) Hp), Hb; reflexivity|done]. }
  rewrite clone_process_start by done. unfold clone_memory. destruct (if has flags kCloneVm then _ else _) as [pt|e].
  - cbn in Hc. apply negb_false_iff in Hc. cbn [bind]. rewrite made_upd. cbn [bind]. rewrite Hc.
    destruct (negb (pt =? nullptr) && negb (has flags kCloneVm)); cbn [bind modify ret].
    + destruct (delete_child (set_page_table pt made) (freed k ++ [DestroyPageDirectory pt false])) as (h & E & Ho); [done..|].
      eexists _, _. split; [exact (undone _ _ _ E)|exact Ho].
    + destruct (delete_child (set_page_table pt made) (freed k)) as (h & E & Ho); [done..|].
      eexists _, _. split; [exact (undone _ _ _ E)|exact Ho].
  - destruct (delete_child made (freed k)) as (h & E & Ho); [done..|].
    eexists _, _. split; [exact (undone _ _ _ E)|exact Ho].
Qed.

(** With all of them the core stops in the assertion of [AddTask]: the child is
    [kReady], and by then it is in the task table. *)
Lemma clone_process_stops :
  free_lock (task_table_lock_ k) -> NkUnorderedMap.wf hash_id (task_table_ k) ->
  NkUnorderedMap.to_map (task_table_ k) !! pid_allocator k = None -> can_clone = true ->
  exists k', clone k = Halt k' (AssertFailed "AddTask: task status must be kUnInit") /\
    NkUnorderedMap.to_map (task_table_ k') = <[pid_allocator k := child]> (NkUnorderedMap.to_map (task_table_ k)).
Proof.
  intros L W N Hc. unfold can_clone, clone_space in Hc. rewrite !andb_true_iff, !negb_true_iff, !Z.eqb_neq in Hc. destruct Hc as [[[Hp Hb] Hs] Hm].
  destruct (fresh_ptr_spec (tcbs k)) as [Hcz Hcn].
  rewrite clone_process_start by done. unfold clone_memory. destruct (if has flags kCloneVm then _ else _) as [pt|e]; [|done].
  cbn [bind]. rewrite made_upd. cbn [bind]. rewrite (proj2 (Z.eqb_neq _ _) Hm). cbn [bind].
  rewrite made_upd. cbn [bind]. rewrite made_upd. cbn [bind].
  set (t := set_trap_context_ptr _ _). set (k1 := set_tcbs (<[child := t]> (tcbs k)) (pid_taken k)).
  set (m := NkUnorderedMap.assign hash_id nullptr (task_table_ k) (pid_allocator k) child).
  set (k2 := set_task_table_ m (table_held c k1)).
  rewrite (table_guard_run c k1 k2 tt); [| exact L | | reflexivity].
  - exists (table_released c k2). cbn [bind]. split; [|by apply (NkUnorderedMap.assign_spec hash_id)]. unfold AddTask at 1. cbn [bind].
    rewrite (proj2 (Z.eqb_neq _ _) Hcz). cbn [negb nk_assert_msg bind].
    rewrite (on_heap_tcb _ _ t) by (cbn; by rewrite lookup_insert_eq). reflexivity.
  - cbn [bind gets table_held task_table_]. unfold NkUnorderedMap.contains. cbn. rewrite (NkUnorderedMap.find_to_map hash_id _ _ W), N. reflexivity.
Qed.
End process.

(** [Clone] without memory for the kernel stack destroys the copied page
    directory twice.  In a fork (neither thread nor shared memory), when the
    stack allocation fails, the copy is destroyed once by [Clone] itself and once
    more by the destructor of the child, whose [page_table] still points to it.
    The rest is undone: no control block is left behind; only the pid is spent. *)
Theorem clone_stack_failure_destroys_twice (ClonePageDirectory : ptr -> Expected ptr) (trap_size c flags user_stack tls : Z)
    (frame : TrapRegs) (k : Kernel) (par : TCB) (pt : ptr) :
  let parent := running_task (percpu k c) in
  parent <> nullptr -> tcbs k !! parent = Some par -> pid_allocator k <> 0 ->
  has flags kCloneThread = false -> has flags kCloneVm = false ->
  page_table par <> nullptr -> ClonePageDirectory (page_table par) = Value pt -> pt <> nullptr ->
  exists k', Clone ClonePageDirectory (MkCloneMemory true nullptr) trap_size c flags user_stack tls frame k =
      Ret k' (clone_error kTaskKernelStackAllocationFailed frame) /\
    freed k' = freed k ++ [DestroyPageDirectory pt false; DestroyPageDirectory pt true] /\
    (forall p, tcbs k' !! p = tcbs k !! p) /\ task_table_ k' = task_table_ k /\
    pid_allocator k' = u64 (pid_allocator k + 1).
Proof.
  intros parent Hz Ep Hpid Ht Hv Hpt Hc Hn.
  destruct (delete_child k (set_page_table pt (process_child flags (pid_allocator k) par))
    (freed k ++ [DestroyPageDirectory pt false])) as (h & E & Ho); [done..|].
  eexists. split.
  { rewrite (clone_process_start _ _ _ _ _ _ _ _ _ par) by done. unfold clone_memory.
    rewrite Hv, (proj2 (Z.eqb_neq _ _) Hpt), Hc. cbn [bind]. rewrite made_upd. cbn [bind stack_memory]. rewrite Z.eqb_refl, (proj2 (Z.eqb_neq _ _) Hn).
    cbn [negb andb bind modify freed set_tcbs pid_taken set_pid_allocator]. rewrite E. reflexivity. }
  split; [|split; [exact Ho|done]].
  cbn. unfold releases. cbn. rewrite (proj2 (Z.eqb_neq _ _) Hn), <- app_assoc. cbn.
  unfold has in Hv. apply negb_false_iff in Hv. by rewrite Hv.
Qed.

(** Forking a task with an address space (page directory 8192). *)
Definition fork_parent : TCB := set_page_table 8192 family_parent.
Definition fork_kernel : Kernel := set_tcbs {[2 := fork_parent]} sample_kernel.

Lemma clone_stack_failure_destroys_twice_witness :
  exists k', Clone (fun p => Value 12288) (MkCloneMemory true nullptr) 280 0 0 0 0 (MkTrap 0 0 0 []) fork_kernel =
      Ret k' (clone_error kTaskKernelStackAllocationFailed (MkTrap 0 0 0 [])) /\
    freed k' = [DestroyPageDirectory 12288 false; DestroyPageDirectory 12288 true].
Proof.
  destruct (clone_stack_failure_destroys_twice (fun p => Value 12288) 280 0 0 0 0 (MkTrap 0 0 0 []) fork_kernel fork_parent 12288)
    as (k' & E & F & _).
  - discriminate.
  - reflexivity.
  - discriminate.
  - reflexivity.
  - reflexivity.
  - discriminate.
  - reflexivity.
  - discriminate.
  - exists k'. split; [exact E|exact F].
Defined.

End TaskLifecycle.
