(* ===== verification/Mutex.v ===== *)
(** * Mutex: src/src/include/mutex.hpp, src/src/task/mutex.cpp

    The calls as functions on the mutex and the kernel ([Lock] up to the point
    where the task blocks: the caller goes round its loop when it is woken), and
    the interleavings of any number of tasks at the granularity of the atomic
    accesses.  Mutual exclusion and ownership are invariants of the
    interleavings; so is not that a waiting task is woken: the window between
    the failed compare-and-swap and [Block] is open. *)

From stdpp Require Import base numbers list gmap functions strings.
From Stdlib Require Import ZArith Lia.
From S2P Require Import Prelude Errors ResourceId SpinLock Tcb NkPriorityQueue NkUnorderedMap Schedulers TaskManager KernelInv KernelSpec KernelProps.
Import Tcb Sched TaskManager KernelInv KernelSpec KernelProps.

Local Open Scope Z_scope.

Module Mutex.

(** ** The calls *)

Record Mutex := MkMutex { locked_ : bool; owner_ : Z; resource_id_ : ResourceId.t }.

(** [std::numeric_limits<Pid>::max()] *)
Definition no_owner : Z := UINT64_MAX.

(** The constructor with a name; [this] is the address of the object. *)
Definition new_mutex (this : ptr) : Mutex := MkMutex false no_owner (ResourceId.mk ResourceId.kMutex this).

Definition IsLockedByCurrentTask (c : Z) (m : Mutex) : KM bool :=
  let* cur := GetCurrentTask c in
  if cur =? nullptr then ret false
  else
    let* t := on_heap (tcb cur) in
    ret (locked_ m && (owner_ m =? pid t)).

Definition TryLock (c : Z) (m : Mutex) : KM (Mutex * bool) :=
  let* cur := GetCurrentTask c in
  if cur =? nullptr then ret (m, false)
  else
    let* t := on_heap (tcb cur) in
    let* mine := IsLockedByCurrentTask c m in
    if mine then ret (m, false)
    else if negb (locked_ m) then ret (MkMutex true (pid t) (resource_id_ m), true)
    else ret (m, false).

Definition UnLock (c : Z) (m : Mutex) : KM (Mutex * bool) :=
  let* cur := GetCurrentTask c in
  if cur =? nullptr then ret (m, false)
  else
    let* mine := IsLockedByCurrentTask c m in
    if negb mine then ret (m, false)
    else
      let* _ := Wakeup c (resource_id_ m) in
      ret (MkMutex false no_owner (resource_id_ m), true).

(** [Lock] until it returns or blocks ([None]); [cas_fails] says that the weak
    compare-and-swap fails spuriously. *)
Definition Lock (entry c : Z) (cas_fails : bool) (m : Mutex) : KM (Mutex * option bool) :=
  let* cur := GetCurrentTask c in
  if cur =? nullptr then ret (m, Some false)
  else
    let* t := on_heap (tcb cur) in
    let* mine := IsLockedByCurrentTask c m in
    if mine then ret (m, Some false)
    else if negb (locked_ m) && negb cas_fails then ret (MkMutex true (pid t) (resource_id_ m), Some true)
    else
      let* _ := DisableInterrupt c in
      let* _ := Block entry c (resource_id_ m) in
      ret (m, None).

(** ** Interleavings *)

(** Where a task is inside the calls; [held] is a ghost: the task owns the
    mutex when it makes the call. *)
Inductive pc :=
| Outside
| Holding
| LoadLocked (call : bool) (held : bool)   (* Lock / TryLock: IsLockedByCurrentTask, first load *)
| LoadOwner (call : bool) (held : bool)    (* second load; [call]: Lock blocks, TryLock does not *)
| AtCas (call : bool)
| AtBlock                                  (* the CAS failed, Block not reached *)
| Waiting                                  (* in the waiting list *)
| AtSetOwner
| UnLoadLocked (held : bool)               (* UnLock: first load *)
| UnLoadOwner (held : bool)
| AtClearOwner
| AtClearLocked
| AtWakeup.

#[export] Instance pc_eq_dec : EqDecision pc.
Proof. solve_decision. Defined.

Record state := MkState { locked : bool; owner : Z; pcs : Z -> pc }.

Definition home (held : bool) : pc := if held then Holding else Outside.
Definition go (p : Z) (x : pc) (s : state) : state := MkState (locked s) (owner s) (<[p := x]> (pcs s)).
(** [Wakeup]: every waiting task tries again. *)
Definition wake_all (f : Z -> pc) : Z -> pc := fun q => if decide (f q = Waiting) then AtCas true else f q.

(** One atomic step of task [p]. *)
Inductive step (p : Z) : state -> state -> Prop :=
| s_call s call held : pcs s p = home held -> step p s (go p (LoadLocked call held) s)
| s_load_locked s call held : pcs s p = LoadLocked call held ->
    step p s (go p (if locked s then LoadOwner call held else AtCas call) s)
| s_load_owner s call held : pcs s p = LoadOwner call held ->
    step p s (go p (if owner s =? p then home held else AtCas call) s)
| s_cas_ok s call : pcs s p = AtCas call -> locked s = false ->
    step p s (MkState true (owner s) (<[p := AtSetOwner]> (pcs s)))
| s_cas_fail s : pcs s p = AtCas true -> step p s (go p AtBlock s)
| s_try_fail s : pcs s p = AtCas false -> locked s = true -> step p s (go p Outside s)
| s_block s : pcs s p = AtBlock -> step p s (go p Waiting s)
| s_set_owner s : pcs s p = AtSetOwner -> step p s (MkState (locked s) p (<[p := Holding]> (pcs s)))
| s_unlock s held : pcs s p = home held -> step p s (go p (UnLoadLocked held) s)
| s_un_locked s held : pcs s p = UnLoadLocked held ->
    step p s (go p (if locked s then UnLoadOwner held else home held) s)
| s_un_owner s held : pcs s p = UnLoadOwner held ->
    step p s (go p (if owner s =? p then AtClearOwner else home held) s)
| s_clear_owner s : pcs s p = AtClearOwner -> step p s (MkState (locked s) no_owner (<[p := AtClearLocked]> (pcs s)))
| s_clear_locked s : pcs s p = AtClearLocked -> step p s (MkState false (owner s) (<[p := AtWakeup]> (pcs s)))
| s_wakeup s : pcs s p = AtWakeup ->
    step p s (MkState (locked s) (owner s) (<[p := Outside]> (wake_all (pcs s)))).

Definition init : state := MkState false no_owner (fun _ => Outside).

Inductive reachable : state -> Prop :=
| r_init : reachable init
| r_step s s' p : reachable s -> p <> no_owner -> step p s s' -> reachable s'.

(** The task is recorded as the owner. *)
Definition recorded (x : pc) : bool :=
  match x with
  | Holding | AtClearOwner => true
  | LoadLocked _ held | LoadOwner _ held | UnLoadLocked held | UnLoadOwner held => held
  | _ => false
  end.
(** The task has the flag [locked_] to itself. *)
Definition owns (x : pc) : bool :=
  recorded x || match x with AtSetOwner | AtClearLocked => true | _ => false end.

Record inv (s : state) : Prop := {
  inv_owns : forall p, owns (pcs s p) = true -> locked s = true;
  inv_unique : forall p q, owns (pcs s p) = true -> owns (pcs s q) = true -> p = q;
  inv_recorded : forall p, p <> no_owner -> owner s = p <-> recorded (pcs s p) = true
}.

Lemma recorded_owns x : recorded x = true -> owns x = true.
Proof. unfold owns. by intros ->. Qed.

Lemma owns_home held : owns (home held) = held /\ recorded (home held) = held.
Proof. by destruct held. Qed.

(** A step of [p] that keeps its class. *)
Lemma inv_go p x s : owns x = owns (pcs s p) -> recorded x = recorded (pcs s p) -> inv s -> inv (go p x s).
Proof.
  intros Ho Hr [A B C].
  assert (forall q, owns (<[p := x]> (pcs s) q) = owns (pcs s q) /\ recorded (<[p := x]> (pcs s) q) = recorded (pcs s q)) as E.
  { intros q. destruct (decide (p = q)) as [<-|Hne]; [by rewrite fn_lookup_insert|by rewrite fn_lookup_insert_ne]. }
  split; cbn.
  - intros q. rewrite (proj1 (E q)). apply A.
  - intros q r. rewrite (proj1 (E q)), (proj1 (E r)). apply B.
  - intros q Hq. rewrite (proj2 (E q)). by apply C.
Qed.

(** A step of [p] that changes the flag or the owner. *)
Lemma inv_set p x l o s :
  (forall q, q <> p -> owns (pcs s q) = true -> l = true /\ owns x = false) ->
  (owns x = true -> l = true) -> (p <> no_owner -> o = p <-> recorded x = true) ->
  (forall q, q <> p -> q <> no_owner -> o = q <-> recorded (pcs s q) = true) ->
  inv s -> inv (MkState l o (<[p := x]> (pcs s))).
Proof.
  intros H1 H2 H3 H4 [A B C]. split; cbn.
  - intros q. destruct (decide (p = q)) as [<-|Hne]; rewrite ?fn_lookup_insert, ?fn_lookup_insert_ne by done; [done|].
    intros Hq. by apply (H1 q).
  - intros q r. destruct (decide (p = q)) as [<-|Hq], (decide (p = r)) as [<-|Hr];
      rewrite ?fn_lookup_insert, ?fn_lookup_insert_ne by done; [done| | |by apply B].
    + intros Hx Hr'. destruct (H1 r) as [_ H]; [by apply not_eq_sym|done|congruence].
    + intros Hq' Hx. destruct (H1 q) as [_ H]; [by apply not_eq_sym|done|congruence].
  - intros q Hq. destruct (decide (p = q)) as [<-|Hne]; rewrite ?fn_lookup_insert, ?fn_lookup_insert_ne by done.
    + by apply H3.
    + apply H4; [by apply not_eq_sym|done].
Qed.

Lemma inv_wake s : inv s -> inv (MkState (locked s) (owner s) (wake_all (pcs s))).
Proof.
  intros [A B C].
  assert (forall q, owns (wake_all (pcs s) q) = owns (pcs s q) /\ recorded (wake_all (pcs s) q) = recorded (pcs s q)) as E.
  { intros q. unfold wake_all. destruct (decide (pcs s q = Waiting)) as [->|]; done. }
  split; cbn.
  - intros q. rewrite (proj1 (E q)). apply A.
  - intros q r. rewrite (proj1 (E q)), (proj1 (E r)). apply B.
  - intros q Hq. rewrite (proj2 (E q)). by apply C.
Qed.

Lemma mutex_inv_step p s s' : p <> no_owner -> step p s s' -> inv s -> inv s'.
Proof.
  intros Hp St I. pose proof I as [A B C]. pose proof (C p Hp) as Cp.
  assert (forall q, q <> p -> owns (pcs s p) = true -> owns (pcs s q) = false) as Only.
  { intros q Hq Ho. destruct (owns (pcs s q)) eqn:E; [|done]. elim Hq. by apply B. }
  assert (forall q, recorded (pcs s q) = true -> owns (pcs s q) = true) as RO by (intros; by apply recorded_owns).
  destruct St as [s call held E|s call held E|s call held E|s call E L|s E|s E L|s E|s E|s held E|s held E|s held E|s E|s E|s E];
    rewrite E in Cp.
  - apply inv_go; rewrite ?E; [by destruct held..|done].
  - apply inv_go; [..|done]; rewrite E; destruct (locked s) eqn:L; try done; destruct held; try done;
      exfalso; specialize (A p); rewrite E in A; by specialize (A eq_refl).
  - apply inv_go; [..|done]; rewrite E; destruct (Z.eqb_spec (owner s) p); destruct held; try done;
      exfalso; by apply n, Cp.
  - apply inv_set; [..|done].
    + intros q Hq Ho. specialize (A q Ho). congruence.
    + done.
    + intros _. cbn in Cp |- *. exact Cp.
    + intros q _ Hq. by apply C.
  - apply inv_go; by rewrite ?E.
  - apply inv_go; by rewrite ?E.
  - apply inv_go; by rewrite ?E.
  - rewrite E in Only. apply inv_set; [..|done].
    + intros q Hq Ho. rewrite Only in Ho by done. done.
    + intros _. apply (A p). by rewrite E.
    + done.
    + intros q Hq Hn. split; [by intros <-|]. intros Hr%RO. by rewrite Only in Hr.
  - apply inv_go; rewrite ?E; [by destruct held..|done].
  - apply inv_go; [..|done]; rewrite E; destruct (locked s), held; done.
  - apply inv_go; [..|done]; rewrite E; destruct (Z.eqb_spec (owner s) p) as [Ho|]; destruct held; try done;
      apply Cp in Ho; done.
  - rewrite E in Only. apply inv_set; [..|done].
    + intros q Hq Ho. rewrite Only in Ho by done. done.
    + intros _. apply (A p). by rewrite E.
    + intros _. split; [by intros <-|done].
    + intros q Hq Hn. split; [by intros <-|]. intros Hr%RO. by rewrite Only in Hr.
  - rewrite E in Only. apply inv_set; [..|done].
    + intros q Hq Ho. rewrite Only in Ho by done. done.
    + done.
    + intros _. exact Cp.
    + intros q Hq Hn. by apply C.
  - apply (inv_go p Outside (MkState (locked s) (owner s) (wake_all (pcs s)))); [..|by apply inv_wake];
      cbn; unfold wake_all; by rewrite E.
Qed.

Lemma mutex_reachable_inv s : reachable s -> inv s.
Proof.
  induction 1 as [|s s' p R I Hp St]; [|by eapply mutex_inv_step].
  split; cbn; [done|done|]. intros p Hp. split; [by intros <-|done].
Qed.

(** An executor of steps, for concrete traces. *)
Inductive act := CallLock | CallTryLock | CallUnLock | Go (cas_fails : bool).

Definition exec (p : Z) (a : act) (s : state) : option state :=
  match a, pcs s p with
  | CallLock, Outside => Some (go p (LoadLocked true false) s)
  | CallLock, Holding => Some (go p (LoadLocked true true) s)
  | CallTryLock, Outside => Some (go p (LoadLocked false false) s)
  | CallTryLock, Holding => Some (go p (LoadLocked false true) s)
  | CallUnLock, Outside => Some (go p (UnLoadLocked false) s)
  | CallUnLock, Holding => Some (go p (UnLoadLocked true) s)
  | Go _, LoadLocked call held => Some (go p (if locked s then LoadOwner call held else AtCas call) s)
  | Go _, LoadOwner call held => Some (go p (if owner s =? p then home held else AtCas call) s)
  | Go fails, AtCas call =>
      if locked s || (fails && call) then Some (go p (if call then AtBlock else Outside) s)
      else Some (MkState true (owner s) (<[p := AtSetOwner]> (pcs s)))
  | Go _, AtBlock => Some (go p Waiting s)
  | Go _, AtSetOwner => Some (MkState (locked s) p (<[p := Holding]> (pcs s)))
  | Go _, UnLoadLocked held => Some (go p (if locked s then UnLoadOwner held else home held) s)
  | Go _, UnLoadOwner held => Some (go p (if owner s =? p then AtClearOwner else home held) s)
  | Go _, AtClearOwner => Some (MkState (locked s) no_owner (<[p := AtClearLocked]> (pcs s)))
  | Go _, AtClearLocked => Some (MkState false (owner s) (<[p := AtWakeup]> (pcs s)))
  | Go _, AtWakeup => Some (MkState (locked s) (owner s) (<[p := Outside]> (wake_all (pcs s))))
  | _, _ => None
  end.

Lemma exec_sound p a s s' : exec p a s = Some s' -> step p s s'.
Proof.
  unfold exec. destruct a, (pcs s p) eqn:E; intros H; try discriminate H;
    try (injection H as <-; first
      [ by apply s_call with (held := false) | by apply s_call with (held := true)
      | by apply s_unlock with (held := false) | by apply s_unlock with (held := true)
      | by apply s_load_locked | by apply s_load_owner | by apply s_block | by apply s_set_owner
      | by apply s_un_locked | by apply s_un_owner | by apply s_clear_owner | by apply s_clear_locked
      | by apply s_wakeup ]).
  destruct (locked s || cas_fails && call) eqn:B; injection H as <-.
  - destruct call; [by apply s_cas_fail|]. apply s_try_fail; [done|]. by rewrite andb_false_r, orb_false_r in B.
  - apply orb_false_iff in B as [B _]. by apply s_cas_ok with (call := call).
Qed.

Fixpoint exec_all (tr : list (Z * act)) (s : state) : option state :=
  match tr with
  | [] => Some s
  | (p, a) :: tr' => match exec p a s with Some s' => exec_all tr' s' | None => None end
  end.

Lemma exec_all_reachable tr : forall s s',
  reachable s -> forallb (fun e => negb (e.1 =? no_owner)) tr = true -> exec_all tr s = Some s' -> reachable s'.
Proof.
  induction tr as [|[p a] tr IH]; intros s s' R Hf; cbn; [by intros [= <-]|].
  apply andb_true_iff in Hf as [Hp Hf]. apply negb_true_iff, Z.eqb_neq in Hp. cbn in Hp.
  destruct (exec p a s) as [s1|] eqn:E; [|done]. intros H. eapply IH; [|done|exact H].
  eapply r_step; [exact R|exact Hp|by eapply exec_sound].
Qed.

(** Four steps of [Lock]: to [Holding] when the mutex is free, to [AtBlock] when
    it is taken. *)
Definition lock_steps (p : Z) : list (Z * act) := [(p, CallLock); (p, Go false); (p, Go false); (p, Go false)].
Definition release (p : Z) : list (Z * act) :=
  [(p, CallUnLock); (p, Go false); (p, Go false); (p, Go false); (p, Go false); (p, Go false)].

(** ** The claims *)

(** C16: the mutex excludes.  In every interleaving of any number of tasks that
    call [Lock], [TryLock] and [UnLock] (recursive and unowned calls included,
    with compare-and-swaps that may fail spuriously), at most one task is past
    its successful compare-and-swap and has not yet cleared [locked_]; while a
    task holds the mutex, [locked_] is set and [owner_] is its pid, so that no
    other task's [UnLock] can pass the ownership check. *)
Theorem mutex_excludes (s : state) :
  reachable s ->
  (forall p q, owns (pcs s p) = true -> owns (pcs s q) = true -> p = q) /\
  (forall p, p <> no_owner -> pcs s p = Holding -> locked s = true /\ owner s = p) /\
  (forall p q, p <> no_owner -> pcs s p = Holding -> pcs s q = AtClearOwner \/ pcs s q = AtClearLocked -> q = p).
Proof.
  intros R. destruct (mutex_reachable_inv s R) as [A B C]. split; [done|]. split.
  - intros p Hp E. split; [apply (A p); by rewrite E|]. apply C; [done|]. by rewrite E.
  - intros p q Hp E Hq. apply B; [|by rewrite E]. by destruct Hq as [-> | ->].
Qed.

Lemma mutex_excludes_witness :
  exists s, exec_all (lock_steps 1 ++ lock_steps 2) init = Some s /\ locked s = true /\ owner s = 1.
Proof.
  destruct (exec_all (lock_steps 1 ++ lock_steps 2) init) as [s|] eqn:E; [|vm_compute in E; discriminate].
  exists s. split; [reflexivity|].
  destruct (mutex_excludes s (exec_all_reachable (lock_steps 1 ++ lock_steps 2) init s r_init eq_refl E)) as (_ & H & _).
  apply (H 1); [vm_compute; discriminate|]. vm_compute in E. injection E as <-. reflexivity.
Defined.

(** C36: wake-ups can be lost.  There is an interleaving of two tasks in which
    the second finds the mutex taken, the first releases it and wakes nobody
    before the second has reached [Block], and the second then waits for a mutex
    that is free and that no task holds or is about to release.  The interrupts
    are disabled only after the compare-and-swap has failed, so the window that
    the comment in mutex.cpp describes stays open.  The same happens with one
    task alone when the weak compare-and-swap fails spuriously. *)
Theorem mutex_wakeup_can_be_lost :
  (exists s, reachable s /\ locked s = false /\ pcs s 2 = Waiting /\ (forall q, q <> 2 -> pcs s q = Outside)) /\
  (exists s, reachable s /\ locked s = false /\ pcs s 1 = Waiting /\ (forall q, q <> 1 -> pcs s q = Outside)).
Proof.
  split.
  - destruct (exec_all (lock_steps 1 ++ lock_steps 2 ++ release 1 ++ [(2, Go false)]) init) as [s|] eqn:E; [|vm_compute in E; discriminate].
    exists s. split; [refine (exec_all_reachable _ _ _ r_init _ E); reflexivity|]. injection E as <-.
    split; [reflexivity|]. split; [reflexivity|]. intros q Hq. cbn. destruct (decide (q = 1)) as [->|H1]; [reflexivity|].
    unfold wake_all. rewrite ?fn_lookup_insert_ne by congruence.
    repeat (destruct (decide (_ = Waiting)) as [Hw|_]; [rewrite ?fn_lookup_insert_ne in Hw by congruence; discriminate Hw|]).
    by rewrite ?fn_lookup_insert_ne by congruence.
  - destruct (exec_all [(1, CallLock); (1, Go false); (1, Go true); (1, Go false)] init) as [s|] eqn:E; [|vm_compute in E; discriminate].
    exists s. split; [refine (exec_all_reachable _ _ _ r_init _ E); reflexivity|]. injection E as <-.
    split; [reflexivity|]. split; [reflexivity|]. intros q Hq. cbn. by rewrite ?fn_lookup_insert_ne by congruence.
Qed.

(** the calls.  For a running task: [TryLock] takes a free mutex and records
    the task as its owner, and otherwise returns false, changing nothing and
    never blocking; [Lock] by the owner is refused; [UnLock] by a task that does
    not own the mutex is refused and changes nothing; [UnLock] by the owner frees
    the mutex and makes every task that waits for it ready (not one of them, as
    the comment in mutex.cpp says), in the order in which they blocked. *)
Theorem mutex_calls (entry c : Z) (fails : bool) (m : Mutex) (k : Kernel) (f : Fifo) (r : RoundRobin) (i : Idle) (t : TCB) :
  c <> SpinLock.no_core -> free_lock (sched_lock (cpus k c)) ->
  core_ok (tcbs k) (cpus k c) (percpu k c) f r i ->
  tcbs k !! running_task (percpu k c) = Some t -> status t = kRunning ->
  let mine := locked_ m && (owner_ m =? pid t) in
  TryLock c m k = Ret k (if locked_ m then (m, false) else (MkMutex true (pid t) (resource_id_ m), true)) /\
  (mine = true -> Lock entry c fails m k = Ret k (m, Some false)) /\
  (mine = false -> UnLock c m k = Ret k (m, false)) /\
  (mine = true -> exists k' f' r',
     UnLock c m k = Ret k' (MkMutex false no_owner (resource_id_ m), true) /\
     core_ok (tcbs k') (cpus k' c) (percpu k' c) f' r' i /\
     MkRunq (fifo_queue f') (rr_queue r') =
       push_all (tcbs k) (waiters k c (resource_id_ m)) (MkRunq (fifo_queue f) (rr_queue r)) /\
     waiters k' c (resource_id_ m) = [] /\ running_task (percpu k' c) = running_task (percpu k c)).
Proof.
  intros Hc Hl Ok Et St mine.
  assert (running_task (percpu k c) <> nullptr) as Hz.
  { by destruct (ok_running _ _ _ _ _ _ Ok) as (? & _ & ? & _). }
  assert (IsLockedByCurrentTask c m k = Ret k mine) as Em.
  { unfold IsLockedByCurrentTask. cbn [bind GetCurrentTask gets]. rewrite (proj2 (Z.eqb_neq _ _) Hz). cbn [bind].
    by rewrite (on_heap_tcb _ _ _ Et). }
  split; [|split; [|split]].
  - unfold TryLock. cbn [bind GetCurrentTask gets]. rewrite (proj2 (Z.eqb_neq _ _) Hz). cbn [bind].
    rewrite (on_heap_tcb _ _ _ Et). cbn [bind]. rewrite Em. cbn [bind]. unfold mine.
    destruct (locked_ m); [|done]. by destruct (owner_ m =? pid t).
  - intros Hm. unfold Lock. cbn [bind GetCurrentTask gets]. rewrite (proj2 (Z.eqb_neq _ _) Hz). cbn [bind].
    rewrite (on_heap_tcb _ _ _ Et). cbn [bind]. by rewrite Em, Hm.
  - intros Hm. unfold UnLock. cbn [bind GetCurrentTask gets]. rewrite (proj2 (Z.eqb_neq _ _) Hz). cbn [bind].
    by rewrite Em, Hm.
  - intros Hm. destruct (wakeup_spec c (resource_id_ m) k f r i t Hc Hl Ok Et) as (k' & f' & r' & E & _ & _ & Ok' & Q & Ew & _ & _ & P & _).
    { by rewrite St. }
    exists k', f', r'. split.
    { unfold UnLock. cbn [bind GetCurrentTask gets]. rewrite (proj2 (Z.eqb_neq _ _) Hz). cbn [bind].
      rewrite Em, Hm. cbn [negb bind]. by rewrite E. }
    split; [done|]. split; [done|]. split; [unfold waiters; by rewrite Ew, lookup_delete_eq|by rewrite P].
Qed.

Lemma mutex_calls_witness :
  exists k', UnLock 0 (MkMutex true 2 sample_rid) sample_kernel = Ret k' (MkMutex false no_owner sample_rid, true) /\
    waiters k' 0 sample_rid = [].
Proof.
  destruct (mutex_calls 900 0 false (MkMutex true 2 sample_rid) sample_kernel sample_fifo sample_rr sample_idle task2)
    as (_ & _ & _ & H).
  - discriminate.
  - split; reflexivity.
  - exact sample_ok.
  - apply sample_lookup.
  - reflexivity.
  - destruct (H eq_refl) as (k' & f' & r' & E & _ & _ & W & _). exists k'. split; [exact E|exact W].
Defined.

End Mutex.
