(* ===== verification/Csr.v ===== *)
(** * riscv64 registers: src/3rd/cpu_io/include/riscv64/{regs,cpu}.hpp and regs/

    The register file is a function from register to 64-bit value.  Every
    accessor of regs/read_write.hpp selects, by the register it is instantiated
    for, one instruction ([instr]); [exec] is what the instruction does.  The
    branches of an accessor are the same instruction on the register that the
    branch is for, and are one case of the model; that every branch names its own
    register is read off the source, not proved.  An
    instantiation the source rejects ([static_assert], a member that does not
    exist) or an immediate that does not fit the instruction has no result
    ([None]).  The registers are plain storage: the bits that the hardware keeps
    read-only or legalises on a write are not modelled. *)

From stdpp Require Import base numbers list functions.
From Stdlib Require Import ZArith Lia.
From S2P Require Import Prelude.

Local Open Scope Z_scope.

Module Csr.

(** ** Registers and their fields: regs/register_info.hpp *)

Inductive RegInfo :=
| FpInfo | TpInfo
| SstatusInfo | StvecInfo | SipInfo | SieInfo | TimeInfo | CycleInfo | InstretInfo
| SscratchInfo | SepcInfo | ScauseInfo | StvalInfo | SatpInfo | StimecmpInfo.

#[export] Instance RegInfo_eq_dec : EqDecision RegInfo.
Proof. solve_decision. Defined.

(** A bit field: its register, the width of its [DataType], offset, width and
    mask. *)
Record Field := MkField {
  f_reg : RegInfo;
  f_data : Z;
  kBitOffset : Z;
  kBitWidth : Z;
  kBitMask : Z;
  kAllSetMask : Z
}.

#[export] Instance Field_eq_dec : EqDecision Field.
Proof. solve_decision. Defined.

Definition kCsrImmOpMask : Z := 31.

(** [(kBitWidth < 64) ? ((1ULL << kBitWidth) - 1) << kBitOffset : ~0ULL] *)
Definition field (r : RegInfo) (data off width : Z) : Field :=
  MkField r data off width
    (if width <? 64 then u64 (Z.shiftl (u64 (Z.shiftl 1 width) - 1) off) else UINT64_MAX)
    (if width <? 64 then u64 (Z.shiftl 1 width) - 1 else UINT64_MAX).

Definition Sstatus_Sie : Field := field SstatusInfo 1 1 1.
Definition Sstatus_Spie : Field := field SstatusInfo 1 5 1.
Definition Sstatus_Spp : Field := field SstatusInfo 1 8 1.
Definition Stvec_Mode : Field := field StvecInfo 8 0 2.
Definition Stvec_Base : Field :=
  MkField StvecInfo 64 0 62 (u64 (Z.lnot 3)) (u64 (Z.lnot 3)).
Definition Sip_Ssip : Field := field SipInfo 1 1 1.
Definition Sip_Stip : Field := field SipInfo 1 5 1.
Definition Sip_Seip : Field := field SipInfo 1 9 1.
Definition Sie_Ssie : Field := field SieInfo 1 1 1.
Definition Sie_Stie : Field := field SieInfo 1 5 1.
Definition Sie_Seie : Field := field SieInfo 1 9 1.
Definition Scause_ExceptionCode : Field := field ScauseInfo 64 0 63.
Definition Scause_Interrupt : Field := field ScauseInfo 1 63 1.
Definition Satp_Ppn : Field := field SatpInfo 64 0 44.
Definition Satp_Asid : Field := field SatpInfo 16 44 16.
Definition Satp_Mode : Field := field SatpInfo 8 60 4.

Definition kDirect : Z := 0.
Definition kVectored : Z := 1.
Definition kBare : Z := 0.
Definition kSv39 : Z := 8.
Definition kPpnOffset : Z := 12.

(** The enumerators of [ScauseInfo] that the trap handlers use. *)
Definition kInterrupt : Z := u64 (Z.shiftl 1 63).
Definition kSupervisorSoftwareInterrupt : Z := kInterrupt + 1.
Definition kSupervisorTimerInterrupt : Z := kInterrupt + 5.
Definition kSupervisorExternalInterrupt : Z := kInterrupt + 9.

(** ** Instructions *)

Inductive instr :=
| mv_from (r : RegInfo) | mv_to (r : RegInfo) (v : Z)
| csrr (r : RegInfo)
| csrw (r : RegInfo) (v : Z) | csrwi (r : RegInfo) (v : Z)
| csrrw (r : RegInfo) (v : Z) | csrrwi (r : RegInfo) (v : Z)
| csrrs (r : RegInfo) (m : Z) | csrrsi (r : RegInfo) (m : Z)
| csrrc (r : RegInfo) (m : Z) | csrrci (r : RegInfo) (m : Z).

Abbreviation regs := (RegInfo -> Z).

(** The value left in the destination register and the new register file.  The
    immediate forms take a 5-bit unsigned operand. *)
Definition exec (i : instr) (s : regs) : option (Z * regs) :=
  match i with
  | mv_from r | csrr r => Some (s r, s)
  | mv_to r v | csrw r v => Some (0, <[r := u64 v]> s)
  | csrrw r v => Some (s r, <[r := u64 v]> s)
  | csrrs r m => Some (s r, <[r := Z.lor (s r) (u64 m)]> s)
  | csrrc r m => Some (s r, <[r := Z.ldiff (s r) (u64 m)]> s)
  | csrwi r v => if v <? 32 then Some (0, <[r := v]> s) else None
  | csrrwi r v => if v <? 32 then Some (s r, <[r := v]> s) else None
  | csrrsi r m => if m <? 32 then Some (s r, <[r := Z.lor (s r) m]> s) else None
  | csrrci r m => if m <? 32 then Some (s r, <[r := Z.ldiff (s r) m]> s) else None
  end.

(** A register access: no result when the code does not build. *)
Definition access (A : Type) : Type := regs -> option (A * regs).

Definition run_instr (i : option instr) : access Z := fun s =>
  match i with Some i => exec i s | None => None end.
Definition a_bind {A B} (m : access A) (k : A -> access B) : access B := fun s =>
  match m s with Some (a, s') => k a s' | None => None end.
Definition a_ret {A} (a : A) : access A := fun s => Some (a, s).
Notation "x <-- m ;;; k" := (a_bind m (fun x => k))
  (at level 80, m at next level, right associativity).
Definition a_void {A} (m : access A) : access unit := _ <-- m ;;; a_ret tt.

(** ** Register accessors: regs/read_write.hpp *)

(** [ReadOnlyRegBase::Read] *)
Definition Read (r : RegInfo) : access Z := run_instr
  match r with
  | FpInfo | TpInfo => Some (mv_from r)
  | SstatusInfo | StvecInfo | SipInfo | SieInfo | TimeInfo | CycleInfo | InstretInfo
  | SscratchInfo | SepcInfo | ScauseInfo | StvalInfo | SatpInfo | StimecmpInfo =>
      Some (csrr r)
  end.

(** [WriteOnlyRegBase::Write] *)
Definition Write (r : RegInfo) (value : Z) : access unit := a_void (run_instr
  match r with
  | FpInfo | TpInfo => Some (mv_to r value)
  | SstatusInfo | StvecInfo | SipInfo | SieInfo
  | SscratchInfo | SepcInfo | ScauseInfo | StvalInfo | SatpInfo => Some (csrw r value)
  | _ => None
  end).

(** The registers the other accessors accept. *)
Definition writable_csr (r : RegInfo) (i : instr) : option instr :=
  match r with
  | SstatusInfo | StvecInfo | SipInfo | SieInfo
  | SscratchInfo | SepcInfo | ScauseInfo | StvalInfo | SatpInfo => Some i
  | _ => None
  end.

Definition WriteImm (r : RegInfo) (value : Z) : access unit :=
  a_void (run_instr (writable_csr r (csrwi r (u8 value)))).
Definition SetBits (r : RegInfo) (mask : Z) : access unit :=
  a_void (run_instr (writable_csr r (csrrs r mask))).
Definition ClearBits (r : RegInfo) (mask : Z) : access unit :=
  a_void (run_instr (writable_csr r (csrrc r mask))).
Definition SetBitsImm (r : RegInfo) (mask : Z) : access unit :=
  a_void (run_instr (writable_csr r (csrrsi r (u8 mask)))).
Definition ClearBitsImm (r : RegInfo) (mask : Z) : access unit :=
  a_void (run_instr (writable_csr r (csrrci r (u8 mask)))).

(** [if constexpr ((v & kCsrImmOpMask) == v)] *)
Definition fits_imm (v : Z) : bool := Z.land v kCsrImmOpMask =? v.

Definition WriteConst (r : RegInfo) (value : Z) : access unit :=
  if fits_imm value then WriteImm r value else Write r value.
Definition SetConst (r : RegInfo) (mask : Z) : access unit :=
  if fits_imm mask then SetBitsImm r mask else SetBits r mask.
Definition ClearConst (r : RegInfo) (mask : Z) : access unit :=
  if fits_imm mask then ClearBitsImm r mask else ClearBits r mask.

(** [ReadWriteRegBase] *)
Definition ReadWrite (r : RegInfo) (value : Z) : access Z :=
  run_instr (writable_csr r (csrrw r value)).
Definition ReadWriteImm (r : RegInfo) (value : Z) : access Z :=
  run_instr (writable_csr r (csrrwi r (u8 value))).
Definition ReadSetBits (r : RegInfo) (mask : Z) : access Z :=
  run_instr (writable_csr r (csrrs r mask)).
Definition ReadSetBitsImm (r : RegInfo) (mask : Z) : access Z :=
  run_instr (writable_csr r (csrrsi r (u8 mask))).
Definition ReadClearBits (r : RegInfo) (mask : Z) : access Z :=
  run_instr (writable_csr r (csrrc r mask)).
Definition ReadClearBitsImm (r : RegInfo) (mask : Z) : access Z :=
  run_instr (writable_csr r (csrrci r (u8 mask))).
Definition ReadWriteConst (r : RegInfo) (value : Z) : access Z :=
  if fits_imm value then ReadWriteImm r value else ReadWrite r value.
Definition ReadSetBitsConst (r : RegInfo) (mask : Z) : access Z :=
  if fits_imm mask then ReadSetBitsImm r mask else ReadSetBits r mask.

(** The immediate branch names [WriteOnlyRegBase::ReadClearBitsImm]: that class
    has no such member, so an instantiation with a small mask does not build. *)
Definition ReadClearBitsConst (r : RegInfo) (mask : Z) : access Z :=
  if fits_imm mask then run_instr None else ReadClearBits r mask.

(** ** Field accessors *)

(** [static_cast<DataType>]: conversion to [bool] tests for non-zero. *)
Definition to_data (f : Field) (v : Z) : Z :=
  if f_data f =? 1 then b2z (negb (v =? 0)) else wrap (f_data f) v.

(** [ReadOnlyField::Get(value)] and [Get()] *)
Definition field_of (f : Field) (value : Z) : Z :=
  to_data f (Z.shiftr (Z.land value (kBitMask f)) (kBitOffset f)).
Definition Get (f : Field) : access Z :=
  v <-- Read (f_reg f) ;;; a_ret (field_of f v).

(** [WriteOnlyField::Set], [Clear] *)
Definition Set_ (f : Field) : access unit :=
  if fits_imm (kBitMask f) then SetBitsImm (f_reg f) (kBitMask f)
  else SetBits (f_reg f) (kBitMask f).
Definition Clear (f : Field) : access unit :=
  if fits_imm (kBitMask f) then ClearBitsImm (f_reg f) (kBitMask f)
  else ClearBits (f_reg f) (kBitMask f).

(** [(org & ~kBitMask) | ((value << kBitOffset) & kBitMask)] *)
Definition with_field (f : Field) (org value : Z) : Z :=
  Z.lor (Z.land org (u64 (Z.lnot (kBitMask f))))
        (Z.land (u64 (Z.shiftl (to_data f value) (kBitOffset f))) (kBitMask f)).

(** [ReadWriteField::Write], [ReadWrite] *)
Definition WriteField (f : Field) (value : Z) : access unit :=
  org <-- Read (f_reg f) ;;; Write (f_reg f) (with_field f org value).
Definition ReadWriteField (f : Field) (value : Z) : access Z :=
  org <-- Read (f_reg f) ;;;
  _ <-- Write (f_reg f) (with_field f org value) ;;;
  a_ret (field_of f org).

(** ** Uses: regs.hpp, cpu.hpp, virtual_memory.hpp *)

(** [Stvec::SetDirect] *)
Definition SetDirect (addr : Z) : access bool :=
  if negb (Z.land addr 3 =? 0) then a_ret false
  else _ <-- WriteField Stvec_Base addr ;;;
       _ <-- WriteField Stvec_Mode kDirect ;;; a_ret true.

Definition EnableInterrupt : access unit := Set_ Sstatus_Sie.
Definition DisableInterrupt : access unit := Clear Sstatus_Sie.
Definition GetInterruptStatus : access Z := Get Sstatus_Sie.
Definition GetCurrentCoreId : access Z := Read TpInfo.

Definition EnablePage : access unit :=
  _ <-- WriteField Satp_Asid 0 ;;; WriteField Satp_Mode kSv39.
Definition DisablePage : access unit := WriteField Satp_Mode kBare.
Definition SetPageDirectory (pgd : Z) : access unit :=
  WriteField Satp_Ppn (Z.shiftr pgd kPpnOffset).
Definition GetPageDirectory : access Z :=
  ppn <-- Get Satp_Ppn ;;; a_ret (u64 (Z.shiftl ppn kPpnOffset)).

Definition all_fields : list Field :=
  [Sstatus_Sie; Sstatus_Spie; Sstatus_Spp; Stvec_Mode; Stvec_Base;
   Sip_Ssip; Sip_Stip; Sip_Seip; Sie_Ssie; Sie_Stie; Sie_Seie;
   Scause_ExceptionCode; Scause_Interrupt; Satp_Ppn; Satp_Asid; Satp_Mode].

(** ** Lemmas on words *)

Definition word (x : Z) : Prop := 0 <= x < 2 ^ 64.
#[local] Hint Unfold word : core.

Lemma testbit_high x n i : 0 <= x < 2 ^ n -> n <= i -> Z.testbit x i = false.
Proof.
  intros Hx Hi. destruct (decide (x = 0)) as [-> | Hz]; [apply Z.testbit_0_l|].
  apply Z.bits_above_log2; [lia|].
  apply Z.log2_lt_pow2; [lia|]. pose proof (Z.pow_le_mono_r 2 n i). lia.
Qed.

Lemma testbit_word_high x i : word x -> 64 <= i -> Z.testbit x i = false.
Proof. apply testbit_high. Qed.

Lemma testbit_u64 x i : 0 <= i -> Z.testbit (u64 x) i = (i <? 64) && Z.testbit x i.
Proof. intros Hi. unfold u64, wrap. by rewrite Z.testbit_mod_pow2 by lia. Qed.

Lemma word_of_bits x : 0 <= x -> (forall i, 64 <= i -> Z.testbit x i = false) -> word x.
Proof.
  intros H0 Hb. split; [done|]. destruct (decide (x = 0)) as [-> | Hz]; [lia|].
  apply Z.log2_lt_pow2; [lia|].
  destruct (Z.lt_ge_cases (Z.log2 x) 64) as [H | H]; [done|].
  specialize (Hb _ H). rewrite Z.bit_log2 in Hb by lia. done.
Qed.

Lemma word_land_l x y : word x -> word (Z.land x y).
Proof.
  intros Hx. apply word_of_bits; [apply Z.land_nonneg; unfold word in *; lia|].
  intros i Hi. rewrite Z.land_spec, (testbit_word_high x) by done. done.
Qed.

Lemma word_lor x y : word x -> word y -> word (Z.lor x y).
Proof.
  intros Hx Hy. apply word_of_bits; [apply Z.lor_nonneg; unfold word in *; lia|].
  intros i Hi. rewrite Z.lor_spec, !testbit_word_high by done. done.
Qed.

Lemma word_u64 x : word (u64 x).
Proof. apply u64_range. Qed.

Lemma word_with_field f org v : word org -> word (with_field f org v).
Proof. intros H. apply word_lor; apply word_land_l; auto using word_u64. Qed.

(** Bits outside the mask of the field come from the old value, bits inside
    from the shifted new one. *)
Lemma testbit_with_field f org v i :
  0 <= i ->
  Z.testbit (with_field f org v) i =
    if Z.testbit (kBitMask f) i
    then (i <? 64) && Z.testbit (Z.shiftl (to_data f v) (kBitOffset f)) i
    else (i <? 64) && Z.testbit org i.
Proof.
  intros Hi. unfold with_field.
  rewrite Z.lor_spec, !Z.land_spec, !testbit_u64, Z.lnot_spec by done.
  destruct (Z.testbit (kBitMask f) i), (i <? 64); simpl;
    rewrite ?andb_true_r, ?andb_false_r, ?orb_false_r; done.
Qed.

(** A value masked outside of the field does not see the write. *)
Lemma with_field_disjoint f org v m :
  word org -> Z.land m (kBitMask f) = 0 ->
  Z.land (with_field f org v) m = Z.land org m.
Proof.
  intros Ho Hm. apply Z.bits_inj'. intros i Hi.
  rewrite !Z.land_spec, testbit_with_field by done.
  assert (Z.testbit (Z.land m (kBitMask f)) i = false) as Hb
    by (rewrite Hm; apply Z.testbit_0_l).
  rewrite Z.land_spec in Hb.
  destruct (Z.testbit m i), (Z.testbit (kBitMask f) i); simpl in *;
    rewrite ?andb_true_r, ?andb_false_r; try done.
  destruct (Z.ltb_spec i 64); [done|]. by rewrite (testbit_word_high org).
Qed.

(** What a field reads back after a write of it. *)
Lemma field_of_with_field f org v :
  word org -> word (kBitMask f) ->
  field_of f (with_field f org v) =
    to_data f (Z.shiftr (Z.land (Z.shiftl (to_data f v) (kBitOffset f)) (kBitMask f)) (kBitOffset f)).
Proof.
  intros Ho Hm. unfold field_of. do 2 f_equal. apply Z.bits_inj'. intros i Hi.
  rewrite !Z.land_spec, testbit_with_field by done.
  destruct (Z.testbit (kBitMask f) i) eqn:E; rewrite ?andb_true_r, ?andb_false_r; [|done].
  destruct (Z.ltb_spec i 64); [done|]. rewrite testbit_word_high in E by done. done.
Qed.

(** The fields whose mask is [kBitWidth] ones at [kBitOffset]. *)
Definition regular (f : Field) : bool :=
  (kBitMask f =? Z.shiftl (Z.ones (kBitWidth f)) (kBitOffset f)) &&
  (0 <=? kBitOffset f) && (0 <? kBitWidth f) && (kBitOffset f + kBitWidth f <=? 64) &&
  (kBitWidth f <=? f_data f).

Lemma to_data_small f v :
  regular f = true -> 0 <= v < 2 ^ kBitWidth f -> to_data f v = v.
Proof.
  unfold regular, to_data. intros H Hv. bool_cases.
  destruct (Z.eqb_spec (f_data f) 1) as [E | E].
  - assert (kBitWidth f = 1) as Hw by lia. rewrite Hw in Hv.
    assert (v = 0 \/ v = 1) as [-> | ->] by lia; done.
  - apply wrap_small. pose proof (Z.pow_le_mono_r 2 (kBitWidth f) (f_data f)). lia.
Qed.

Lemma regular_mask f : regular f = true -> word (kBitMask f).
Proof.
  unfold regular. intros H. bool_cases.
  rewrite H. apply word_of_bits.
  - apply Z.shiftl_nonneg. rewrite Z.ones_equiv.
    pose proof (Z.pow_pos_nonneg 2 (kBitWidth f)). lia.
  - intros i Hi. rewrite Z.shiftl_spec, Z.testbit_ones_nonneg by lia. lia.
Qed.

Lemma regular_roundtrip f v :
  regular f = true -> 0 <= v < 2 ^ kBitWidth f ->
  Z.shiftr (Z.land (Z.shiftl v (kBitOffset f)) (kBitMask f)) (kBitOffset f) = v.
Proof.
  intros Hr Hv. unfold regular in Hr. bool_cases.
  apply Z.bits_inj'. intros i Hi.
  rewrite Z.shiftr_spec, Z.land_spec, H, !Z.shiftl_spec, Z.testbit_ones_nonneg by lia.
  replace (i + kBitOffset f - kBitOffset f) with i by lia.
  destruct (Z.ltb_spec i (kBitWidth f)); rewrite ?andb_true_r, ?andb_false_r; [done|].
  by rewrite (testbit_high v (kBitWidth f)).
Qed.

(** The declared fields: in range, on registers that can be written, and fields
    of one register do not overlap. *)
Definition writable (r : RegInfo) : bool :=
  match r with TimeInfo | CycleInfo | InstretInfo | StimecmpInfo => false | _ => true end.

Lemma all_fields_shape :
  forallb (fun f => (0 <=? kBitMask f) && (kBitMask f <? 2 ^ 64) &&
    match writable_csr (f_reg f) (csrr (f_reg f)) with Some _ => true | None => false end)
    all_fields = true.
Proof. reflexivity. Qed.

Lemma all_fields_regular f : f ∈ all_fields -> f = Stvec_Base \/ regular f = true.
Proof.
  intros H. repeat (apply elem_of_cons in H as [-> | H]; [by auto|]). by apply elem_of_nil in H.
Qed.

Lemma all_fields_disjoint f g :
  f ∈ all_fields -> g ∈ all_fields -> f_reg g = f_reg f -> kBitMask g <> kBitMask f ->
  Z.land (kBitMask g) (kBitMask f) = 0.
Proof.
  assert (forallb (fun f => forallb (fun g =>
    implb (bool_decide (f_reg g = f_reg f) && negb (kBitMask g =? kBitMask f))
      (Z.land (kBitMask g) (kBitMask f) =? 0)) all_fields) all_fields = true) as H
    by (vm_compute; reflexivity).
  rewrite forallb_forall in H. intros Hf Hg Hr Hm.
  apply list_elem_of_In in Hf, Hg. specialize (H f Hf). rewrite forallb_forall in H.
  specialize (H g Hg). rewrite bool_decide_eq_true_2 in H by done.
  rewrite (proj2 (Z.eqb_neq _ _) Hm) in H. by apply Z.eqb_eq in H.
Qed.

Lemma all_fields_ok f :
  f ∈ all_fields -> word (kBitMask f) /\ writable (f_reg f) = true /\
  forall i, writable_csr (f_reg f) i = Some i.
Proof.
  intros H. repeat (apply elem_of_cons in H as [-> | H];
    [split; [split; [by apply Z.leb_le | by apply Z.ltb_lt] | by split]|]).
  by apply elem_of_nil in H.
Qed.

Lemma read_run r s : Read r s = Some (s r, s).
Proof. by destruct r. Qed.

Lemma write_run r v s : writable r = true -> word v -> Write r v s = Some (tt, <[r := v]> s).
Proof.
  intros H Hv. rewrite <- (u64_small v) at 2 by done.
  destruct r; done.
Qed.

Lemma get_run f s : Get f s = Some (field_of f (s (f_reg f)), s).
Proof. unfold Get, a_bind. by rewrite read_run. Qed.

Lemma write_field_run f v s :
  writable (f_reg f) = true -> word (s (f_reg f)) ->
  WriteField f v s = Some (tt, <[f_reg f := with_field f (s (f_reg f)) v]> s).
Proof.
  intros Hw Hs. unfold WriteField, a_bind. rewrite read_run.
  apply write_run; [done|]. by apply word_with_field.
Qed.

Lemma fits_imm_small m : fits_imm m = true -> 0 <= m < 32.
Proof.
  unfold fits_imm, kCsrImmOpMask. intros H. apply Z.eqb_eq in H. rewrite <- H.
  change 31 with (Z.ones 5). rewrite Z.land_ones by lia. apply Z.mod_pos_bound. lia.
Qed.

Lemma testbit_regular f i :
  regular f = true -> 0 <= i ->
  Z.testbit (kBitMask f) i = (kBitOffset f <=? i) && (i <? kBitOffset f + kBitWidth f).
Proof.
  unfold regular. intros H Hi. bool_cases. rewrite H, Z.shiftl_spec by done.
  destruct (Z.leb_spec (kBitOffset f) i).
  - rewrite Z.testbit_ones_nonneg by lia. simpl.
    destruct (Z.ltb_spec (i - kBitOffset f) (kBitWidth f)),
      (Z.ltb_spec i (kBitOffset f + kBitWidth f)); lia || done.
  - by rewrite Z.testbit_neg_r by lia.
Qed.

Lemma testbit_concat a r k i :
  0 <= k -> 0 <= r < 2 ^ k -> 0 <= i ->
  Z.testbit (a * 2 ^ k + r) i = if i <? k then Z.testbit r i else Z.testbit a (i - k).
Proof.
  intros Hk Hr Hi. destruct (Z.ltb_spec i k).
  - rewrite <- (Z.mod_pow2_bits_low _ k) by done.
    rewrite Z.add_comm, Z.mod_add, Z.mod_small by lia. done.
  - replace i with (i - k + k) at 1 by lia. rewrite <- Z.div_pow2_bits by lia.
    rewrite Z.div_add_l, Z.div_small, Z.add_0_r by lia. done.
Qed.

(** [satp] put together from its three fields. *)
Lemma satp_fields org ppn asid mode :
  0 <= ppn < 2 ^ 44 -> 0 <= asid < 2 ^ 16 -> 0 <= mode < 2 ^ 4 ->
  with_field Satp_Mode (with_field Satp_Asid (with_field Satp_Ppn org ppn) asid) mode =
  (mode * 2 ^ 16 + asid) * 2 ^ 44 + ppn.
Proof.
  intros Hp Ha Hm. apply Z.bits_inj'. intros i Hi.
  rewrite !testbit_with_field, !testbit_regular, !to_data_small, !Z.shiftl_spec by done.
  rewrite testbit_concat by lia. simpl kBitOffset. simpl kBitWidth. rewrite Z.sub_0_r.
  destruct (Z.ltb_spec i 44).
  - rewrite (proj2 (Z.leb_gt 60 i)), (proj2 (Z.leb_gt 44 i)), (proj2 (Z.leb_le 0 i)),
      !(proj2 (Z.ltb_lt i 64)), (proj2 (Z.ltb_lt i (0 + 44))) by lia. done.
  - rewrite testbit_concat by lia. rewrite (proj2 (Z.leb_le 44 i)) by lia.
    destruct (Z.ltb_spec (i - 44) 16).
    + rewrite (proj2 (Z.leb_gt 60 i)), (proj2 (Z.ltb_lt i (44 + 16))),
        !(proj2 (Z.ltb_lt i 64)) by lia. done.
    + rewrite (proj2 (Z.leb_le 60 i)) by lia. replace (i - 44 - 16) with (i - 60) by lia.
      change (60 + 4) with 64. destruct (Z.ltb_spec i 64); [done|].
      rewrite (testbit_high mode 4) by lia.
      rewrite (proj2 (Z.ltb_ge i (44 + 16))) by lia. simpl.
      by rewrite ?andb_false_r.
Qed.

Lemma with_field_twice f org v w :
  with_field f (with_field f org v) w = with_field f org w.
Proof.
  apply Z.bits_inj'. intros i Hi. rewrite !testbit_with_field by done.
  destruct (Z.testbit (kBitMask f) i), (i <? 64); done.
Qed.

Lemma field_of_satp_ppn a n : 0 <= n < 2 ^ 44 -> field_of Satp_Ppn (a * 2 ^ 44 + n) = n.
Proof.
  intros Hn. unfold field_of. change (kBitMask Satp_Ppn) with (Z.ones 44).
  change (kBitOffset Satp_Ppn) with 0.
  rewrite Z.shiftr_0_r, Z.land_ones, Z.add_comm, Z.mod_add, Z.mod_small by lia.
  by apply (to_data_small Satp_Ppn).
Qed.

Lemma stvec_direct org addr :
  word addr -> addr mod 4 = 0 ->
  with_field Stvec_Mode (with_field Stvec_Base org addr) kDirect = addr.
Proof.
  intros Hw Ha. apply Z.bits_inj'. intros i Hi.
  rewrite !testbit_with_field, (testbit_regular Stvec_Mode), to_data_small by done.
  simpl kBitOffset. simpl kBitWidth. rewrite (proj2 (Z.leb_le 0 i)) by done.
  destruct (Z.ltb_spec i (0 + 2)) as [Hl | Hl]; simpl andb.
  - rewrite Z.shiftl_0_l, Z.testbit_0_l, andb_false_r.
    rewrite <- (Z.mod_pow2_bits_low addr 2) by lia. change (2 ^ 2) with 4.
    by rewrite Ha, Z.testbit_0_l.
  - assert (Z.testbit (u64 (Z.lnot 3)) i = (i <? 64)) as ->.
    { rewrite testbit_u64 by done. rewrite Z.lnot_spec by done.
      change 3 with (Z.ones 2). rewrite Z.testbit_ones_nonneg by lia.
      rewrite (proj2 (Z.ltb_ge i 2)) by lia. apply andb_true_r. }
    rewrite Z.shiftl_0_r.
    unfold to_data. simpl f_data. change (64 =? 1) with false. cbv iota.
    rewrite (wrap_small 64) by done.
    destruct (Z.ltb_spec i 64); [done|]. simpl. by rewrite testbit_word_high.
Qed.

Lemma land_bit x k : 0 <= k -> negb (Z.shiftr (Z.land x (2 ^ k)) k =? 0) = Z.testbit x k.
Proof.
  intros Hk.
  replace (Z.shiftr (Z.land x (2 ^ k)) k) with (Z.b2z (Z.testbit x k)).
  - by destruct (Z.testbit x k).
  - rewrite Z.testbit_spec' by done. apply Z.bits_inj'. intros i Hi.
    rewrite Z.shiftr_spec, Z.land_spec, Z.pow2_bits_eqb by lia.
    change 2 with (2 ^ 1) at 2. rewrite Z.testbit_mod_pow2, Z.div_pow2_bits by lia.
    destruct (Z.ltb_spec i 1), (Z.eqb_spec k (i + k)); try lia; simpl; by rewrite ?andb_true_r, ?andb_false_r.
Qed.

(** Setting and clearing a field, by whichever instruction form fits. *)
Lemma set_clear_run f s :
  f ∈ all_fields ->
  Set_ f s = Some (tt, <[f_reg f := Z.lor (s (f_reg f)) (kBitMask f)]> s) /\
  Clear f s = Some (tt, <[f_reg f := Z.ldiff (s (f_reg f)) (kBitMask f)]> s).
Proof.
  intros Hf. destruct (all_fields_ok f Hf) as (Hm & _ & Hi).
  unfold Set_, Clear, SetBitsImm, SetBits, ClearBitsImm, ClearBits, a_void, a_bind, run_instr.
  rewrite !Hi. destruct (fits_imm (kBitMask f)) eqn:E; simpl.
  - apply fits_imm_small in E. rewrite u8_small by lia.
    rewrite (proj2 (Z.ltb_lt (kBitMask f) 32)) by lia. done.
  - by rewrite u64_small by done.
Qed.

(** writing a declared bit field of a riscv64 register and reading it back
    gives the value written (for [Stvec::Base], whose field keeps the address
    in place, the value with its two low bits cleared); the other fields of the
    register and the other registers do not change. *)
Theorem csr_field_roundtrip f v s :
  f ∈ all_fields -> word (s (f_reg f)) -> 0 <= v < 2 ^ kBitWidth f ->
  exists s', WriteField f v s = Some (tt, s') /\
    Get f s' = Some (if decide (f = Stvec_Base) then Z.land v (kBitMask f) else v, s') /\
    (forall g, g ∈ all_fields -> f_reg g = f_reg f -> kBitMask g <> kBitMask f ->
       field_of g (s' (f_reg f)) = field_of g (s (f_reg f))) /\
    (forall r, r <> f_reg f -> s' r = s r) /\ word (s' (f_reg f)).
Proof.
  intros Hf Hs Hv. destruct (all_fields_ok f Hf) as (Hm & Hw & _).
  exists (<[f_reg f := with_field f (s (f_reg f)) v]> s).
  split; [by apply write_field_run|]. rewrite !fn_lookup_insert.
  split; [|split; [|split]].
  - rewrite get_run, fn_lookup_insert, field_of_with_field by done.
    destruct (all_fields_regular f Hf) as [-> | Hr].
    + rewrite decide_True by done. unfold to_data. simpl f_data.
      change (64 =? 1) with false. cbv iota. change (kBitOffset Stvec_Base) with 0.
      rewrite Z.shiftl_0_r, Z.shiftr_0_r, !(wrap_small 64); [done| |].
      * simpl in Hv. lia.
      * rewrite (wrap_small 64) by (simpl in Hv; lia). apply (word_land_l v).
        simpl in Hv. unfold word. lia.
    + rewrite decide_False by (intros ->; discriminate Hr).
      rewrite (to_data_small f v), regular_roundtrip, to_data_small by done. done.
  - intros g Hg Hr Hd. unfold field_of.
    rewrite with_field_disjoint; [done|done|]. by apply all_fields_disjoint.
  - intros r Hr. by rewrite fn_lookup_insert_ne.
  - by apply word_with_field.
Qed.

Lemma csr_field_roundtrip_witness :
  exists s', WriteField Satp_Asid 7 (fun _ => 5) = Some (tt, s') /\ Get Satp_Asid s' = Some (7, s').
Proof.
  destruct (csr_field_roundtrip Satp_Asid 7 (fun _ => 5)) as (s' & H1 & H2 & _).
  - apply list_elem_of_In. simpl. tauto.
  - unfold word. lia.
  - simpl. lia.
  - exists s'. split; [exact H1 | exact H2].
Defined.

Lemma satp_setup pgd s :
  word (s SatpInfo) -> 0 <= pgd < 2 ^ 56 -> pgd mod 2 ^ 12 = 0 ->
  exists s1 s2 s3,
    SetPageDirectory pgd s = Some (tt, s1) /\ EnablePage s1 = Some (tt, s2) /\
    s2 SatpInfo = 8 * 2 ^ 60 + pgd / 2 ^ 12 /\
    GetPageDirectory s2 = Some (pgd, s2) /\
    DisablePage s2 = Some (tt, s3) /\ s3 SatpInfo = pgd / 2 ^ 12 /\
    (forall r, r <> SatpInfo -> s3 r = s r).
Proof.
  intros Hs Hp Ha. set (n := Z.shiftr pgd kPpnOffset).
  assert (n = pgd / 2 ^ 12) as Hn by (unfold n; by rewrite Z.shiftr_div_pow2).
  assert (0 <= n < 2 ^ 44) as Hr by (rewrite Hn; split; [apply Z.div_pos; lia|];
    apply Z.div_lt_upper_bound; lia).
  assert (forall f s, f_reg f = SatpInfo -> word (s SatpInfo) -> forall v,
    WriteField f v s = Some (tt, <[SatpInfo := with_field f (s SatpInfo) v]> s)) as W.
  { intros f s' Hf Hw v. rewrite <- Hf in Hw |- *. apply write_field_run; [by rewrite Hf | done]. }
  pose proof (word_with_field Satp_Ppn (s SatpInfo) n Hs) as W1.
  pose proof (word_with_field Satp_Asid _ 0 W1) as W2.
  pose proof (word_with_field Satp_Mode _ kSv39 W2) as W3.
  unfold SetPageDirectory. fold n. rewrite W by done. do 3 eexists.
  split; [reflexivity|]. unfold EnablePage, a_bind.
  rewrite W by (rewrite ?fn_lookup_insert; done).
  rewrite W by (rewrite ?fn_lookup_insert; done).
  split; [reflexivity|]. rewrite !fn_lookup_insert.
  split; [rewrite satp_fields by (lia || done); rewrite Hn; change kSv39 with 8; lia|]. split.
  { unfold GetPageDirectory, a_bind. rewrite get_run, fn_lookup_insert.
    rewrite satp_fields, field_of_satp_ppn by (lia || done).
    unfold a_ret. rewrite Z.shiftl_mul_pow2, Hn by done. change kPpnOffset with 12.
    assert (pgd / 2 ^ 12 * 2 ^ 12 = pgd) as E by (pose proof (Z.div_mod pgd (2 ^ 12)); lia).
    rewrite E, u64_small by lia. done. }
  unfold DisablePage. rewrite W by (rewrite ?fn_lookup_insert; done).
  split; [reflexivity|]. rewrite !fn_lookup_insert, with_field_twice, satp_fields by (lia || done).
  split; [rewrite Hn; change kBare with 0; lia|]. intros r Hne. by rewrite !fn_lookup_insert_ne by done.
Qed.

(** pointing the core at a page directory and enabling paging on riscv64
    ([SetPageDirectory] then [EnablePage]) leaves [satp] with mode Sv39, ASID 0
    and the directory's page number, whatever it held; [GetPageDirectory] reads
    the directory back, and [DisablePage] changes the mode alone. *)
Theorem satp_holds_directory pgd s :
  word (s SatpInfo) -> 0 <= pgd < 2 ^ 56 -> pgd mod 2 ^ 12 = 0 ->
  exists s1 s2 s3,
    SetPageDirectory pgd s = Some (tt, s1) /\ EnablePage s1 = Some (tt, s2) /\
    s2 SatpInfo = 8 * 2 ^ 60 + pgd / 2 ^ 12 /\
    GetPageDirectory s2 = Some (pgd, s2) /\
    DisablePage s2 = Some (tt, s3) /\ s3 SatpInfo = pgd / 2 ^ 12 /\
    (forall r, r <> SatpInfo -> s3 r = s r).
Proof. apply satp_setup. Qed.

Lemma satp_holds_directory_witness :
  exists s1 s2, SetPageDirectory (524288 * 4096) (fun _ => UINT64_MAX) = Some (tt, s1) /\
    EnablePage s1 = Some (tt, s2) /\ s2 SatpInfo = 8 * 2 ^ 60 + 524288.
Proof.
  destruct (satp_holds_directory (524288 * 4096) (fun _ => UINT64_MAX))
    as (s1 & s2 & s3 & H1 & H2 & H3 & _); [done | done | done |].
  exists s1, s2. split; [exact H1|]. split; [exact H2 | exact H3].
Defined.

(** the boot code can install a trap vector only at a 4-byte aligned
    address: [Stvec::SetDirect] then leaves exactly the address in [stvec] (mode
    direct) and reports success, and otherwise reports failure with no register
    changed.  Enabling and disabling interrupts sets and clears bit 1 of
    [sstatus], which [GetInterruptStatus] reads, and nothing else. *)
Theorem trap_setup_registers addr s :
  word addr -> word (s StvecInfo) ->
  (addr mod 4 <> 0 -> SetDirect addr s = Some (false, s)) /\
  (addr mod 4 = 0 -> exists s', SetDirect addr s = Some (true, s') /\ s' StvecInfo = addr /\
     forall r, r <> StvecInfo -> s' r = s r) /\
  EnableInterrupt s = Some (tt, <[SstatusInfo := Z.setbit (s SstatusInfo) 1]> s) /\
  DisableInterrupt s = Some (tt, <[SstatusInfo := Z.clearbit (s SstatusInfo) 1]> s) /\
  GetInterruptStatus s = Some (b2z (Z.testbit (s SstatusInfo) 1), s).
Proof.
  intros Ha Hs. split; [|split; [|split; [|split]]].
  - intros H. unfold SetDirect. change 3 with (Z.ones 2). rewrite Z.land_ones by lia.
    by rewrite (proj2 (Z.eqb_neq _ _)) by done.
  - intros H. unfold SetDirect. change 3 with (Z.ones 2). rewrite Z.land_ones by lia.
    change (2 ^ 2) with 4. rewrite H. cbn [negb Z.eqb]. unfold a_bind.
    pose proof (word_with_field Stvec_Base (s StvecInfo) addr Hs) as W1.
    rewrite (write_field_run Stvec_Base) by done.
    rewrite (write_field_run Stvec_Mode) by (rewrite ?fn_lookup_insert; done).
    eexists. split; [reflexivity|]. rewrite !fn_lookup_insert. split.
    + apply stvec_direct; done.
    + intros r Hr. by rewrite !fn_lookup_insert_ne.
  - destruct (set_clear_run Sstatus_Sie s) as [H _]; [by left|]. exact H.
  - destruct (set_clear_run Sstatus_Sie s) as [_ H]; [by left|]. exact H.
  - unfold GetInterruptStatus. rewrite get_run. unfold field_of. simpl f_reg.
    change (kBitMask Sstatus_Sie) with (2 ^ 1). change (kBitOffset Sstatus_Sie) with 1.
    unfold to_data. simpl f_data. cbn [Z.eqb Pos.eqb].
    repeat f_equal. by apply land_bit.
Qed.

Lemma trap_setup_registers_witness :
  SetDirect 4096 (fun _ => 3) <> SetDirect 4098 (fun _ => 3).
Proof.
  destruct (trap_setup_registers 4096 (fun _ => 3)) as (_ & H & _); [done | done |].
  destruct (trap_setup_registers 4098 (fun _ => 3)) as (G & _); [done | done |].
  destruct H as (s' & H & _); [done|]. rewrite H, G by done. discriminate.
Defined.

End Csr.
