(* ===== verification/X86_64.v ===== *)
(** * x86_64 paging: src/3rd/cpu_io/include/x86_64/virtual_memory.hpp

    Four levels; read and execute are software bits (9 and 10) of an entry. *)

From stdpp Require Import base numbers.
From Stdlib Require Import ZArith.
From S2P Require Import Prelude.

Local Open Scope Z_scope.

Module X86_64.

Definition kValid : Z := Z.shiftl 1 0.
Definition kWrite : Z := Z.shiftl 1 1.
Definition kUser : Z := Z.shiftl 1 2.
Definition kWriteThrough : Z := Z.shiftl 1 3.
Definition kCacheDisable : Z := Z.shiftl 1 4.
Definition kAccessed : Z := Z.shiftl 1 5.
Definition kDirty : Z := Z.shiftl 1 6.
Definition kHugePage : Z := Z.shiftl 1 7.
Definition kGlobal : Z := Z.shiftl 1 8.
Definition kRead : Z := Z.shiftl 1 9.
Definition kExec : Z := Z.shiftl 1 10.

Definition kPageSize : Z := 4096.
Definition kKernelOffset : Z := 0.
Definition kPteAttributeBits : Z := 12.
Definition kPageOffsetBits : Z := 12.
Definition kVpnBits : Z := 9.
Definition kVpnMask : Z := 511.
Definition kPageTableLevels : nat := 4.

(** [0x000FFFFFFFFFF000ULL] *)
Definition address_mask : Z := Z.shiftl (Z.ones 40) 12.

Definition PhysicalToPageTableEntry (physical_addr flags : Z) : Z :=
  Z.lor (Z.lor (Z.land physical_addr address_mask) (Z.land flags 4095))
        (Z.land flags (Z.shiftl 1 63)).
Definition PageTableEntryToPhysical (pte : Z) : Z := Z.land pte address_mask.
Definition IsPageTableEntryValid (pte : Z) : bool := negb (Z.land pte kValid =? 0).

Definition GetVirtualPageNumber (virtual_addr level : Z) : Z :=
  Z.land (Z.shiftr virtual_addr (u64 (kPageOffsetBits + level * kVpnBits))) kVpnMask.
Definition GetPageTableLevelShift (level : Z) : Z := u64 (kPageOffsetBits + level * kVpnBits).
Definition VirtualToPhysical (virtual_addr : Z) : Z := u64 (virtual_addr - kKernelOffset).
Definition PhysicalToVirtual (physical_addr : Z) : Z := u64 (physical_addr + kKernelOffset).
Definition PageAlign (addr : Z) : Z := Z.land addr (u64 (Z.lnot (kPageSize - 1))).
Definition PageAlignUp (addr : Z) : Z :=
  Z.land (u64 (addr + kPageSize - 1)) (u64 (Z.lnot (kPageSize - 1))).
Definition IsPageAligned (addr : Z) : bool := Z.land addr (kPageSize - 1) =? 0.
Definition GetPageOffset (addr : Z) : Z := Z.land addr (kPageSize - 1).

Definition CreatePageTableEntry (physical_addr : Z)
    (readable writable executable user_accessible global : bool) : Z :=
  let flags := kValid in
  let flags := if readable then Z.lor flags kRead else flags in
  let flags := if writable then Z.lor flags kWrite else flags in
  let flags := if executable then Z.lor flags kExec else flags in
  let flags := if user_accessible then Z.lor flags kUser else flags in
  let flags := if global then Z.lor flags kGlobal else flags in
  PhysicalToPageTableEntry physical_addr flags.

Definition CheckPageTableEntryPermissions (pte : Z)
    (check_read check_write check_exec check_user : bool) : bool :=
  if negb (IsPageTableEntryValid pte) then false
  else if check_read && (Z.land pte kRead =? 0) then false
  else if check_write && (Z.land pte kWrite =? 0) then false
  else if check_exec && (Z.land pte kExec =? 0) then false
  else if check_user && (Z.land pte kUser =? 0) then false
  else true.

Definition GetPageCount (start_addr end_addr : Z) : Z :=
  let aligned_start := PageAlign start_addr in
  let aligned_end := PageAlignUp end_addr in
  u64 (aligned_end - aligned_start) / kPageSize.

Definition GetTableEntryPermissions : Z := Z.lor (Z.lor (Z.lor (Z.lor kValid kWrite) kUser) kRead) kExec.

Definition GetKernelPagePermissions (readable writable executable global : bool) : Z :=
  let flags := kValid in
  let flags := if readable then Z.lor flags kRead else flags in
  let flags := if writable then Z.lor flags kWrite else flags in
  let flags := if executable then Z.lor flags kExec else flags in
  if global then Z.lor flags kGlobal else flags.

Definition GetUserPagePermissions (readable writable executable global : bool) : Z :=
  let flags := Z.lor kValid kUser in
  let flags := if readable then Z.lor flags kRead else flags in
  let flags := if writable then Z.lor flags kWrite else flags in
  let flags := if executable then Z.lor flags kExec else flags in
  if global then Z.lor flags kGlobal else flags.

End X86_64.
