(* ===== verification/Aarch64.v ===== *)
(** * AArch64 paging: src/3rd/cpu_io/include/aarch64/virtual_memory.hpp

    Four levels; execution is denied by bits 53 and 54.  The set-up of the
    system registers is not modelled. *)

From stdpp Require Import base numbers.
From Stdlib Require Import ZArith.
From S2P Require Import Prelude.

Local Open Scope Z_scope.

Module Aarch64.

Definition kValid : Z := Z.shiftl 1 0.
Definition kTable : Z := Z.shiftl 1 1.
Definition kAttrIndx : Z := Z.shiftl 7 2.
Definition kNs : Z := Z.shiftl 1 5.
Definition kAp : Z := Z.shiftl 3 6.
Definition kSh : Z := Z.shiftl 3 8.
Definition kAf : Z := Z.shiftl 1 10.
Definition kNg : Z := Z.shiftl 1 11.
Definition kDbm : Z := Z.shiftl 1 51.
Definition kPxn : Z := Z.shiftl 1 53.
Definition kUxn : Z := Z.shiftl 1 54.
Definition kApReadWrite : Z := Z.shiftl 0 6.
Definition kApReadOnly : Z := Z.shiftl 2 6.
Definition kApUserReadWrite : Z := Z.shiftl 1 6.
Definition kApUserReadOnly : Z := Z.shiftl 3 6.
Definition kShNonShareable : Z := Z.shiftl 0 8.
Definition kShOuterShareable : Z := Z.shiftl 2 8.
Definition kShInnerShareable : Z := Z.shiftl 3 8.
Definition kAttrDevice : Z := Z.shiftl 0 2.
Definition kAttrNormalNc : Z := Z.shiftl 1 2.
Definition kAttrNormalWt : Z := Z.shiftl 2 2.
Definition kAttrNormalWb : Z := Z.shiftl 3 2.

Definition kPageSize : Z := 4096.
Definition kKernelOffset : Z := 0.
Definition kPteAttributeBits : Z := 12.
Definition kPageOffsetBits : Z := 12.
Definition kVpnBits : Z := 9.
Definition kVpnMask : Z := 511.
Definition kPageTableLevels : nat := 4.

Definition PhysicalToPageTableEntry (physical_addr flags : Z) : Z :=
  Z.lor (u64 (Z.shiftl (Z.shiftr physical_addr kPageOffsetBits) kPteAttributeBits))
        (Z.land flags (Z.shiftl 1 kPteAttributeBits - 1)).
Definition PageTableEntryToPhysical (pte : Z) : Z :=
  u64 (Z.shiftl (Z.shiftr pte kPteAttributeBits) kPageOffsetBits).
Definition IsPageTableEntryValid (pte : Z) : bool := negb (Z.land pte kValid =? 0).

Definition GetVirtualPageNumber (virtual_addr level : Z) : Z :=
  Z.land (Z.shiftr virtual_addr (u64 (kPageOffsetBits + level * kVpnBits))) kVpnMask.
Definition GetPageTableLevelShift (level : Z) : Z := u64 (kPageOffsetBits + level * kVpnBits).
Definition VirtualToPhysical (virtual_addr : Z) : Z := u64 (virtual_addr - kKernelOffset).
Definition PhysicalToVirtual (physical_addr : Z) : Z := u64 (physical_addr + kKernelOffset).
Definition PageAlign (addr : Z) : Z := Z.land addr (u64 (Z.lnot (kPageSize - 1))).
Definition PageAlignUp (addr : Z) : Z :=
  Z.land (u64 (addr + kPageSize - 1)) (u64 (Z.lnot (kPageSize - 1))).
Definition IsPageAligned (addr : Z) : bool := Z.land addr (kPageSize - 1) =? 0.
Definition GetPageOffset (addr : Z) : Z := Z.land addr (kPageSize - 1).

Definition CreatePageTableEntry (physical_addr : Z)
    (readable writable executable user_accessible global : bool) : Z :=
  let flags := Z.lor (Z.lor kValid kTable) kAf in
  let flags :=
    if user_accessible
    then if writable then Z.lor flags kApUserReadWrite else Z.lor flags kApUserReadOnly
    else if writable then Z.lor flags kApReadWrite else Z.lor flags kApReadOnly in
  let flags :=
    if negb executable
    then if user_accessible then Z.lor flags kUxn else Z.lor flags kPxn
    else flags in
  let flags := if negb global then Z.lor flags kNg else flags in
  let flags := Z.lor flags (Z.lor kAttrNormalWb kShInnerShareable) in
  PhysicalToPageTableEntry physical_addr flags.

Definition CheckPageTableEntryPermissions (pte : Z)
    (check_read check_write check_exec check_user : bool) : bool :=
  if negb (IsPageTableEntryValid pte) then false
  else
  let ap := Z.land pte kAp in
  if check_write && ((ap =? kApReadOnly) || (ap =? kApUserReadOnly)) then false
  else if check_exec && (check_user && negb (Z.land pte kUxn =? 0)) then false
  else if check_exec && (negb check_user && negb (Z.land pte kPxn =? 0)) then false
  else if check_user && (negb (ap =? kApUserReadWrite) && negb (ap =? kApUserReadOnly)) then false
  else true.

Definition GetPageCount (start_addr end_addr : Z) : Z :=
  let aligned_start := PageAlign start_addr in
  let aligned_end := PageAlignUp end_addr in
  u64 (aligned_end - aligned_start) / kPageSize.

Definition GetTableEntryPermissions : Z := Z.lor kValid kTable.

Definition GetKernelPagePermissions (readable writable executable global : bool) : Z :=
  let flags := Z.lor (Z.lor kValid kTable) kAf in
  let flags := if writable then Z.lor flags kApReadWrite else Z.lor flags kApReadOnly in
  let flags := if negb executable then Z.lor flags kPxn else flags in
  let flags := if negb global then Z.lor flags kNg else flags in
  Z.lor flags (Z.lor kAttrNormalWb kShInnerShareable).

Definition GetUserPagePermissions (readable writable executable global : bool) : Z :=
  let flags := Z.lor (Z.lor kValid kTable) kAf in
  let flags := if writable then Z.lor flags kApUserReadWrite else Z.lor flags kApUserReadOnly in
  let flags := if negb executable then Z.lor flags kUxn else flags in
  let flags := if negb global then Z.lor flags kNg else flags in
  Z.lor flags (Z.lor kAttrNormalWb kShInnerShareable).

End Aarch64.
