(* ===== verification/Paging.v ===== *)
(** * Page-table entries: src/3rd/cpu_io/include/{riscv64,x86_64,aarch64}/virtual_memory.hpp

    The class [Paging] is the part of a header that src/src/virtual_memory.cpp
    uses, and [PagingLaws] what the page-table code relies on; the three
    architectures are instances of both. *)

From stdpp Require Import base numbers list.
From Stdlib Require Import ZArith Lia.
From S2P Require Import Prelude Csr Riscv64 X86_64 Aarch64.

Local Open Scope Z_scope.

(** ** The interface of the page-table code *)

Definition kPageSize : Z := 4096.
Definition kEntriesPerTable : nat := 512.
Lemma kEntriesPerTable_eq : kEntriesPerTable = 512%nat.
Proof. reflexivity. Qed.

Class Paging := {
  levels : nat;
  pte_attribute_bits : Z;
  vpn : Z -> Z -> Z;
  pte_of : Z -> Z -> Z;
  pa_of : Z -> Z;
  valid : Z -> bool;
  table_permissions : Z;
  kernel_permissions : Z;
  page_align : Z -> Z;
  page_align_up : Z -> Z
}.

#[export] Instance riscv64_paging : Paging := {
  levels := Riscv64.kPageTableLevels;
  pte_attribute_bits := Riscv64.kPteAttributeBits;
  vpn := Riscv64.GetVirtualPageNumber;
  pte_of := Riscv64.PhysicalToPageTableEntry;
  pa_of := Riscv64.PageTableEntryToPhysical;
  valid := Riscv64.IsPageTableEntryValid;
  table_permissions := Riscv64.GetTableEntryPermissions;
  kernel_permissions := Riscv64.GetKernelPagePermissions true true true true;
  page_align := Riscv64.PageAlign;
  page_align_up := Riscv64.PageAlignUp
}.
#[export] Instance x86_64_paging : Paging | 10 := {
  levels := X86_64.kPageTableLevels;
  pte_attribute_bits := X86_64.kPteAttributeBits;
  vpn := X86_64.GetVirtualPageNumber;
  pte_of := X86_64.PhysicalToPageTableEntry;
  pa_of := X86_64.PageTableEntryToPhysical;
  valid := X86_64.IsPageTableEntryValid;
  table_permissions := X86_64.GetTableEntryPermissions;
  kernel_permissions := X86_64.GetKernelPagePermissions true true true true;
  page_align := X86_64.PageAlign;
  page_align_up := X86_64.PageAlignUp
}.
#[export] Instance aarch64_paging : Paging | 10 := {
  levels := Aarch64.kPageTableLevels;
  pte_attribute_bits := Aarch64.kPteAttributeBits;
  vpn := Aarch64.GetVirtualPageNumber;
  pte_of := Aarch64.PhysicalToPageTableEntry;
  pa_of := Aarch64.PageTableEntryToPhysical;
  valid := Aarch64.IsPageTableEntryValid;
  table_permissions := Aarch64.GetTableEntryPermissions;
  kernel_permissions := Aarch64.GetKernelPagePermissions true true true true;
  page_align := Aarch64.PageAlign;
  page_align_up := Aarch64.PageAlignUp
}.

(** What the page-table code relies on.  [phys_limit] bounds the physical
    addresses an entry can hold. *)
Class PagingLaws (P : Paging) := {
  phys_limit : Z;
  phys_limit_word : 4096 <= phys_limit <= 2 ^ 64;
  levels_pos : (0 < levels)%nat;
  vpn_spec : forall va l, 0 <= va < 2 ^ 64 -> 0 <= l < Z.of_nat levels ->
    vpn va l = (va / 2 ^ (12 + 9 * l)) mod 512;
  pte_word : forall pa flags, 0 <= pa < 2 ^ 64 -> 0 <= flags < 2 ^ 32 ->
    0 <= pte_of pa flags < 2 ^ 64;
  pa_of_pte : forall pa flags, 0 <= pa < phys_limit -> pa mod 4096 = 0 -> 0 <= flags < 2 ^ 32 ->
    pa_of (pte_of pa flags) = pa;
  valid_pte : forall pa flags, 0 <= pa < 2 ^ 64 -> 0 <= flags < 2 ^ 32 ->
    valid (pte_of pa flags) = Z.testbit flags 0;
  attrs_pte : forall pa flags, 0 <= pa < 2 ^ 64 -> 0 <= flags < 2 ^ 32 ->
    Z.land (pte_of pa flags) (Z.ones pte_attribute_bits) = Z.land flags (Z.ones pte_attribute_bits);
  valid_is_bit : forall w, valid w = Z.testbit w 0;
  pte_attrs : 0 < pte_attribute_bits;
  invalid_zero : valid 0 = false;
  table_valid : Z.testbit table_permissions 0 = true /\ 0 <= table_permissions < 2 ^ 32;
  kernel_valid : Z.testbit kernel_permissions 0 = true /\ 0 <= kernel_permissions < 2 ^ 32;
  align_spec : forall a, 0 <= a < 2 ^ 64 -> page_align a = a / 4096 * 4096;
  align_up_spec : forall a, 0 <= a < 2 ^ 64 ->
    page_align_up a = if a <=? 2 ^ 64 - 4096 then (a + 4095) / 4096 * 4096 else 0
}.

(** ** Bits of an entry *)

Section bits.
Import Csr.
Implicit Types (pa pte flags i b : Z).

Lemma valid_bit x : negb (Z.land x (Z.shiftl 1 0) =? 0) = Z.testbit x 0.
Proof.
  change (Z.shiftl 1 0) with (2 ^ 0). rewrite <- (land_bit x 0) by done.
  by rewrite Z.shiftr_0_r.
Qed.

Lemma mod_bits a n i : 0 <= n -> a mod 2 ^ n = 0 -> 0 <= i < n -> Z.testbit a i = false.
Proof.
  intros Hn Ha Hi. rewrite <- (Z.mod_pow2_bits_low a n) by lia.
  by rewrite Ha, Z.testbit_0_l.
Qed.

Lemma align_bits a n : 0 <= n -> Z.ldiff a (Z.ones n) = a / 2 ^ n * 2 ^ n.
Proof. intros Hn. rewrite Z.ldiff_ones_r, Z.shiftr_div_pow2, Z.shiftl_mul_pow2; lia. Qed.

Lemma land_lnot_word a n :
  word a -> 0 <= n -> Z.land a (u64 (Z.lnot (Z.ones n))) = a / 2 ^ n * 2 ^ n.
Proof.
  intros Ha Hn. rewrite <- align_bits by done. apply Z.bits_inj'. intros i Hi.
  rewrite Z.land_spec, testbit_u64, Z.lnot_spec, Z.ldiff_spec by done.
  destruct (Z.ltb_spec i 64); [done|]. by rewrite (testbit_word_high a).
Qed.

Lemma align_up_bits a :
  word a ->
  Z.land (u64 (a + 4096 - 1)) (u64 (Z.lnot (Z.ones 12))) =
    if a <=? 2 ^ 64 - 4096 then (a + 4095) / 4096 * 4096 else 0.
Proof.
  unfold word. intros Ha. rewrite land_lnot_word by (apply word_u64 || done).
  replace (a + 4096 - 1) with (a + 4095) by lia. change (2 ^ 12) with 4096.
  destruct (Z.leb_spec a (2 ^ 64 - 4096)).
  - rewrite u64_small by lia. done.
  - unfold u64, wrap. replace (a + 4095) with (a + 4095 - 2 ^ 64 + 1 * 2 ^ 64) by lia.
    rewrite Z.mod_add, (Z.mod_small (a + 4095 - 2 ^ 64)) by lia.
    rewrite Z.div_small by lia. done.
Qed.

(** The entry layout of riscv64 and AArch64: page number above [b] attribute
    bits. *)
Lemma testbit_pte b pa flags i :
  0 <= b <= 12 -> word pa -> 0 <= i ->
  Z.testbit (Z.lor (u64 (Z.shiftl (Z.shiftr pa 12) b)) (Z.land flags (Z.shiftl 1 b - 1))) i =
    if i <? b then Z.testbit flags i else Z.testbit pa (i - b + 12).
Proof.
  intros Hb Hp Hi. replace (Z.shiftl 1 b - 1) with (Z.ones b) by done.
  rewrite Z.lor_spec, Z.land_spec, testbit_u64, Z.shiftl_spec, Z.testbit_ones_nonneg by lia.
  destruct (Z.ltb_spec i b).
  - rewrite Z.testbit_neg_r, andb_false_r, andb_true_r by lia. done.
  - rewrite Z.shiftr_spec, andb_false_r, orb_false_r by lia.
    destruct (Z.ltb_spec i 64); [done|]. by rewrite testbit_word_high by (done || lia).
Qed.

Lemma shift_pte_word b pa flags :
  0 <= b <= 12 -> word pa -> 0 <= flags ->
  word (Z.lor (u64 (Z.shiftl (Z.shiftr pa 12) b)) (Z.land flags (Z.shiftl 1 b - 1))).
Proof.
  intros Hb Hp Hf. apply word_of_bits.
  - apply Z.lor_nonneg. split; [apply word_u64|]. apply Z.land_nonneg. by left.
  - intros i Hi. rewrite testbit_pte by (done || lia).
    rewrite (proj2 (Z.ltb_ge i b)) by lia. apply testbit_word_high; [done|lia].
Qed.

Lemma shift_pa_of_pte b pa flags :
  0 <= b <= 12 -> word pa -> pa mod 4096 = 0 -> 0 <= flags ->
  u64 (Z.shiftl (Z.shiftr
    (Z.lor (u64 (Z.shiftl (Z.shiftr pa 12) b)) (Z.land flags (Z.shiftl 1 b - 1))) b) 12) = pa.
Proof.
  intros Hb Hp Ha Hf. apply Z.bits_inj'. intros i Hi.
  rewrite testbit_u64, Z.shiftl_spec by done.
  destruct (Z.lt_ge_cases i 12).
  - rewrite Z.testbit_neg_r, andb_false_r by lia. by rewrite (mod_bits pa 12) by (done || lia).
  - rewrite Z.shiftr_spec, testbit_pte by (done || lia).
    rewrite (proj2 (Z.ltb_ge (i - 12 + b) b)) by lia.
    replace (i - 12 + b - b + 12) with i by lia.
    destruct (Z.ltb_spec i 64); [done|]. by rewrite testbit_word_high.
Qed.

Lemma shift_attrs_pte b pa flags :
  0 <= b <= 12 -> word pa ->
  Z.land (Z.lor (u64 (Z.shiftl (Z.shiftr pa 12) b)) (Z.land flags (Z.shiftl 1 b - 1))) (Z.ones b) =
  Z.land flags (Z.ones b).
Proof.
  intros Hb Hp. apply Z.bits_inj'. intros i Hi.
  rewrite !Z.land_spec, testbit_pte, Z.testbit_ones_nonneg by (done || lia).
  destruct (Z.ltb_spec i b); [done|]. by rewrite !andb_false_r.
Qed.

Lemma vpn_bits va l :
  word va -> 0 <= l < 16 ->
  Z.land (Z.shiftr va (u64 (12 + l * 9))) 511 = (va / 2 ^ (12 + 9 * l)) mod 512.
Proof.
  intros Hv Hl. rewrite u64_small by lia. change 511 with (Z.ones 9).
  rewrite Z.land_ones, Z.shiftr_div_pow2 by lia. do 3 f_equal. lia.
Qed.

(** The x86_64 layout: the address in place, attributes in bits 0-11. *)
Lemma testbit_x86_pte pa flags i :
  word pa -> 0 <= flags < 2 ^ 32 -> 0 <= i ->
  Z.testbit (X86_64.PhysicalToPageTableEntry pa flags) i =
    if i <? 12 then Z.testbit flags i else (i <? 52) && Z.testbit pa i.
Proof.
  intros Hp Hf Hi. unfold X86_64.PhysicalToPageTableEntry, X86_64.address_mask.
  change 4095 with (Z.ones 12). change (Z.shiftl 1 63) with (2 ^ 63).
  rewrite !Z.lor_spec, !Z.land_spec, Z.shiftl_spec, !Z.pow2_bits_eqb by lia.
  rewrite (Z.testbit_ones_nonneg 12) by lia.
  destruct (Z.eqb_spec 63 i) as [<- | Hn].
  { rewrite (testbit_high flags 32) by lia. rewrite (Z.testbit_ones_nonneg 40) by lia.
    simpl. by rewrite andb_false_r. }
  rewrite andb_false_r, orb_false_r. destruct (Z.ltb_spec i 12).
  - rewrite (Z.testbit_neg_r (Z.ones 40)), andb_false_r, andb_true_r by lia. done.
  - rewrite (Z.testbit_ones_nonneg 40), andb_false_r, orb_false_r, andb_comm by lia.
    f_equal. destruct (Z.ltb_spec (i - 12) 40), (Z.ltb_spec i 52); done || lia.
Qed.

Lemma x86_pte_word pa flags :
  word pa -> 0 <= flags < 2 ^ 32 -> word (X86_64.PhysicalToPageTableEntry pa flags).
Proof.
  intros Hp Hf. apply word_of_bits.
  - unfold X86_64.PhysicalToPageTableEntry. rewrite !Z.lor_nonneg, !Z.land_nonneg.
    unfold word in Hp. lia.
  - intros i Hi. rewrite testbit_x86_pte by (done || lia).
    rewrite (proj2 (Z.ltb_ge i 12)), (proj2 (Z.ltb_ge i 52)) by lia. done.
Qed.

Lemma x86_pa_of_pte pa flags :
  0 <= pa < 2 ^ 52 -> pa mod 4096 = 0 -> 0 <= flags < 2 ^ 32 ->
  X86_64.PageTableEntryToPhysical (X86_64.PhysicalToPageTableEntry pa flags) = pa.
Proof.
  intros Hp Ha Hf. apply Z.bits_inj'. intros i Hi.
  unfold X86_64.PageTableEntryToPhysical, X86_64.address_mask.
  assert (word pa) as Hw by (unfold word; lia).
  rewrite Z.land_spec, Z.shiftl_spec, testbit_x86_pte by (done || lia).
  destruct (Z.ltb_spec i 12).
  - rewrite (Z.testbit_neg_r (Z.ones 40)), andb_false_r by lia. by rewrite (mod_bits pa 12) by (done || lia).
  - rewrite Z.testbit_ones_nonneg by lia.
    destruct (Z.ltb_spec (i - 12) 40), (Z.ltb_spec i 52); try lia; simpl.
    + by rewrite andb_true_r.
    + by rewrite (testbit_high pa 52).
Qed.

Lemma x86_attrs_pte pa flags :
  word pa -> 0 <= flags < 2 ^ 32 ->
  Z.land (X86_64.PhysicalToPageTableEntry pa flags) (Z.ones 12) = Z.land flags (Z.ones 12).
Proof.
  intros Hp Hf. apply Z.bits_inj'. intros i Hi.
  rewrite !Z.land_spec, testbit_x86_pte, Z.testbit_ones_nonneg by (done || lia).
  destruct (Z.ltb_spec i 12); [done|]. by rewrite !andb_false_r.
Qed.

End bits.

#[export] Instance riscv64_laws : PagingLaws riscv64_paging.
Proof.
  refine {| phys_limit := 2 ^ 56 |}; simpl; try done.
  - unfold Riscv64.kPageTableLevels. lia.
  - intros va l Hv Hl. unfold Riscv64.kPageTableLevels in Hl. apply vpn_bits; [done|lia].
  - intros. apply shift_pte_word; unfold Csr.word; done || lia.
  - intros. apply shift_pa_of_pte; unfold Csr.word; done || lia.
  - intros pa flags Hp Hf. unfold Riscv64.IsPageTableEntryValid. rewrite valid_bit.
    apply testbit_pte; done.
  - intros. apply shift_attrs_pte; done.
  - intros w. apply valid_bit.
  - intros a Ha. exact (land_lnot_word a 12 Ha ltac:(done)).   
  - intros a Ha. exact (align_up_bits a Ha).
Defined.

#[export] Instance aarch64_laws : PagingLaws aarch64_paging.
Proof.
  refine {| phys_limit := 2 ^ 48 |}; simpl; try done.
  - unfold Aarch64.kPageTableLevels. lia.
  - intros va l Hv Hl. unfold Aarch64.kPageTableLevels in Hl. apply vpn_bits; [done|lia].
  - intros. apply shift_pte_word; unfold Csr.word; done || lia.
  - intros. apply shift_pa_of_pte; unfold Csr.word; done || lia.
  - intros pa flags Hp Hf. unfold Aarch64.IsPageTableEntryValid. rewrite valid_bit.
    apply testbit_pte; done.
  - intros. apply shift_attrs_pte; done.
  - intros w. apply valid_bit.
  - intros a Ha. exact (land_lnot_word a 12 Ha ltac:(done)).
  - intros a Ha. exact (align_up_bits a Ha).
Defined.

#[export] Instance x86_64_laws : PagingLaws x86_64_paging.
Proof.
  refine {| phys_limit := 2 ^ 52 |}; simpl; try done.
  - unfold X86_64.kPageTableLevels. lia.
  - intros va l Hv Hl. unfold X86_64.kPageTableLevels in Hl. apply vpn_bits; [done|lia].
  - intros. apply x86_pte_word; done || lia.
  - intros. apply x86_pa_of_pte; done || lia.
  - intros pa flags Hp Hf. unfold X86_64.IsPageTableEntryValid. rewrite valid_bit.
    rewrite testbit_x86_pte by (done || lia). done.
  - intros. apply x86_attrs_pte; done.
  - intros w. apply valid_bit.
  - intros a Ha. exact (land_lnot_word a 12 Ha ltac:(done)).
  - intros a Ha. exact (align_up_bits a Ha).
Defined.

(** ** Permissions *)

Lemma land_pow2_zero x k : 0 <= k -> (Z.land x (2 ^ k) =? 0) = negb (Z.testbit x k).
Proof.
  intros Hk. destruct (Z.testbit x k) eqn:E; simpl.
  - apply Z.eqb_neq. intros H. apply (f_equal (fun z => Z.testbit z k)) in H.
    rewrite Z.land_spec, E, Z.pow2_bits_true, Z.testbit_0_l in H by done. done.
  - apply Z.eqb_eq, Z.bits_inj'. intros i Hi. rewrite Z.land_spec, Z.testbit_0_l, Z.pow2_bits_eqb by done.
    destruct (Z.eqb_spec k i) as [<- | _]; [by rewrite E | by rewrite andb_false_r].
Qed.

(** a page-table entry made with [CreatePageTableEntry] passes
    [CheckPageTableEntryPermissions] exactly when every permission asked for was
    granted, on riscv64 and x86_64. *)
Theorem created_entry_permissions pa r w x u g cr cw cx cu :
  0 <= pa < 2 ^ 64 ->
  let spec := implb cr r && implb cw w && implb cx x && implb cu u in
  Riscv64.CheckPageTableEntryPermissions (Riscv64.CreatePageTableEntry pa r w x u g) cr cw cx cu = spec /\
  X86_64.CheckPageTableEntryPermissions (X86_64.CreatePageTableEntry pa r w x u g) cr cw cx cu = spec.
Proof.
  intros Hp spec.
  assert (forall k flags, 0 <= k < 10 -> 
    Z.testbit (Riscv64.PhysicalToPageTableEntry pa flags) k = Z.testbit flags k) as HR.
  { intros k flags Hk. unfold Riscv64.PhysicalToPageTableEntry.
    change Riscv64.kPageOffsetBits with 12. change Riscv64.kPteAttributeBits with 10.
    rewrite testbit_pte by (done || lia). by rewrite (proj2 (Z.ltb_lt k 10)) by lia. }
  assert (forall k flags, 0 <= k < 12 -> 0 <= flags < 2 ^ 32 ->
    Z.testbit (X86_64.PhysicalToPageTableEntry pa flags) k = Z.testbit flags k) as HX.
  { intros k flags Hk Hf. rewrite testbit_x86_pte by (done || lia).
    by rewrite (proj2 (Z.ltb_lt k 12)) by lia. }
  unfold Riscv64.CheckPageTableEntryPermissions, Riscv64.CreatePageTableEntry,
    X86_64.CheckPageTableEntryPermissions, X86_64.CreatePageTableEntry,
    Riscv64.IsPageTableEntryValid, X86_64.IsPageTableEntryValid.
  unfold Riscv64.kValid, Riscv64.kRead, Riscv64.kWrite, Riscv64.kExec, Riscv64.kUser, Riscv64.kGlobal,
    X86_64.kValid, X86_64.kRead, X86_64.kWrite, X86_64.kExec, X86_64.kUser, X86_64.kGlobal.
  rewrite !Z.shiftl_1_l, !land_pow2_zero, !HR, !HX by (lia || done || destruct r, w, x, u, g; done).
  subst spec. split; destruct r, w, x, u, g, cr, cw, cx, cu; reflexivity.
Qed.

Lemma created_entry_permissions_witness :
  Riscv64.CheckPageTableEntryPermissions
    (Riscv64.CreatePageTableEntry 4096 true false true false false) true false true false = true.
Proof.
  exact (proj1 (created_entry_permissions 4096 true false true false false true false true false
    ltac:(lia))).
Defined.

(** on AArch64 [CreatePageTableEntry] puts the execute-never bits (53 and 54)
    into the flags, but [PhysicalToPageTableEntry] keeps the low twelve bits
    only: an entry created as not executable passes the check for execution, as
    user or as kernel, and is the same entry as the executable one. *)
Theorem aarch64_execute_never_is_lost pa r w x u g :
  0 <= pa < 2 ^ 48 -> pa mod 4096 = 0 ->
  Aarch64.CreatePageTableEntry pa r w x u g = Aarch64.CreatePageTableEntry pa r w true u g /\
  Aarch64.CheckPageTableEntryPermissions (Aarch64.CreatePageTableEntry pa r w x u g)
    true false true u = true.
Proof.
  intros Hp Ha. split; [by destruct r, w, x, u, g|].
  assert (Csr.word pa) as Hw by (unfold Csr.word; lia).
  assert (forall flags m, Z.land (Z.ones 12) m = m ->
    Z.land (Aarch64.PhysicalToPageTableEntry pa flags) m = Z.land flags m) as Hlow.
  { intros flags m Hm. rewrite <- Hm, !Z.land_assoc. f_equal. exact (shift_attrs_pte 12 pa flags ltac:(lia) Hw). }
  assert (forall flags k, 48 <= k ->
    Z.testbit (Aarch64.PhysicalToPageTableEntry pa flags) k = false) as Hhigh.
  { intros flags k Hk. unfold Aarch64.PhysicalToPageTableEntry.
    change Aarch64.kPageOffsetBits with 12. change Aarch64.kPteAttributeBits with 12.
    rewrite testbit_pte by (done || lia). rewrite (proj2 (Z.ltb_ge k 12)) by lia.
    apply (Csr.testbit_high pa 48); lia. }
  unfold Aarch64.CheckPageTableEntryPermissions, Aarch64.CreatePageTableEntry,
    Aarch64.IsPageTableEntryValid, Aarch64.kUxn, Aarch64.kPxn.
  rewrite !Z.shiftl_1_l, !(land_pow2_zero _ 53), !(land_pow2_zero _ 54), !Hhigh, !Hlow by done.
  by destruct r, w, x, u, g.
Qed.

Lemma aarch64_execute_never_is_lost_witness :
  Aarch64.CreatePageTableEntry 4096 true true false true false =
  Aarch64.CreatePageTableEntry 4096 true true true true false.
Proof.
  exact (proj1 (aarch64_execute_never_is_lost 4096 true true false true false
    ltac:(lia) ltac:(reflexivity))).
Defined.
