(* ===== verification/VirtualMemory.v ===== *)
(** * Virtual memory: src/src/virtual_memory.cpp, src/src/include/virtual_memory.hpp

    Page tables live in [memory], a map from the address of a 4 KiB block to its
    512 words; an access outside a block stops the run ([BadPointer]).  The
    entry format is the class [Paging] (one instance per architecture) and the
    heap behind [aligned_alloc]/[aligned_free] the class [PageAllocator]:
    allocation may fail at any call, and freeing a block that is not allocated
    stops the run.  The operations are written for any number of levels. *)

From stdpp Require Import base numbers list gmap sets strings.
From Stdlib Require Import ZArith Lia.
From S2P Require Import Prelude Errors Csr Paging.

Local Open Scope Z_scope.

(** ** The heap the page tables come from *)

(** [aligned_alloc(kPageSize, kPageSize)] gives an address and what the block
    happens to contain. *)
Class PageAllocator (A : Type) := {
  pa_alloc : A -> option (Z * list Z) * A;
  pa_free : Z -> A -> A;
  pa_live : A -> gset Z
}.

Class PageAllocatorLaws (A : Type) `{PageAllocator A} (limit : Z) := {
  alloc_some : forall a a' p ws, pa_alloc a = (Some (p, ws), a') ->
    p ∉ pa_live a /\ pa_live a' = {[p]} ∪ pa_live a /\
    0 < p < limit /\ p mod 4096 = 0 /\ length ws = kEntriesPerTable;
  alloc_none : forall a a', pa_alloc a = (None, a') -> pa_live a' = pa_live a;
  free_live : forall p a, pa_live (pa_free p a) = pa_live a ∖ {[p]}
}.

Module VirtualMemory.

Section operations.
Context {P : Paging} {A : Type} `{PageAllocator A}.

Record Vm := MkVm {
  memory : gmap Z (list Z);
  alloc_state : A;
  tlb_flushes : Z;
  kernel_page_dir_ : Z
}.

Definition set_memory (m : gmap Z (list Z)) (s : Vm) : Vm :=
  MkVm m (alloc_state s) (tlb_flushes s) (kernel_page_dir_ s).
Definition set_alloc (a : A) (s : Vm) : Vm :=
  MkVm (memory s) a (tlb_flushes s) (kernel_page_dir_ s).
Definition set_dir (d : Z) (s : Vm) : Vm :=
  MkVm (memory s) (alloc_state s) (tlb_flushes s) d.

Abbreviation VM T := (M Vm T).

(** ** Memory and heap primitives *)

Definition load (table : Z) (i : nat) : VM Z := fun s =>
  match memory s !! table ≫= (.!! i) with
  | Some w => Ret s w
  | None => Halt s (BadPointer table)
  end.

Definition store (table : Z) (i : nat) (w : Z) : VM unit := fun s =>
  match memory s !! table with
  | Some ws => if (i <? length ws)%nat
               then Ret (set_memory (<[table := <[i := w]> ws]> (memory s)) s) tt
               else Halt s (BadPointer table)
  | None => Halt s (BadPointer table)
  end.

(** [aligned_alloc(kPageSize, kPageSize)]; a failure is the null pointer. *)
Definition aligned_alloc : VM Z := fun s =>
  match pa_alloc (alloc_state s) with
  | (Some (p, ws), a) => Ret (set_memory (<[p := ws]> (memory s)) (set_alloc a s)) p
  | (None, a) => Ret (set_alloc a s) nullptr
  end.

Definition aligned_free (p : Z) : VM unit := fun s =>
  if p =? nullptr then Ret s tt
  else if bool_decide (p ∈ pa_live (alloc_state s))
  then Ret (set_memory (delete p (memory s)) (set_alloc (pa_free p (alloc_state s)) s)) tt
  else Halt s (BadPointer p).

(** [memset(p, 0, kPageSize)] *)
Definition clear_page (p : Z) : VM unit := fun s =>
  match memory s !! p with
  | Some _ => Ret (set_memory (<[p := replicate kEntriesPerTable 0]> (memory s)) s) tt
  | None => Halt s (BadPointer p)
  end.

Definition FlushTLBAll : VM unit :=
  modify (fun s => MkVm (memory s) (alloc_state s) (tlb_flushes s + 1) (kernel_page_dir_ s)).

(** [for] loops over the entries of a table, without and with early return. *)
Fixpoint for_each {T} (l : list T) (body : T -> VM unit) : VM unit :=
  match l with
  | [] => ret tt
  | x :: l' => let* _ := body x in for_each l' body
  end.

Fixpoint for_each_e {T} (l : list T) (body : T -> VM (Expected unit)) : VM (Expected unit) :=
  match l with
  | [] => ret (Value tt)
  | x :: l' =>
      let* r := body x in
      match r with Value _ => for_each_e l' body | Unexpected e => ret (Unexpected e) end
  end.

(** ** Operations *)

(** [FindPageTableEntry]: the loop over the levels; the entry is returned as
    its table and index. *)
Fixpoint find_loop (level : nat) (current_table vaddr : Z) (allocate : bool)
    : VM (Expected (Z * nat)) :=
  match level with
  | O => ret (Value (current_table, Z.to_nat (vpn vaddr 0)))
  | S level' =>
      let i := Z.to_nat (vpn vaddr (Z.of_nat level)) in
      let* pte := load current_table i in
      if valid pte then find_loop level' (pa_of pte) vaddr allocate
      else if allocate then
        let* new_table := aligned_alloc in
        if new_table =? nullptr then ret (Unexpected kVmAllocationFailed)
        else
        let* _ := clear_page new_table in
        let* _ := store current_table i (pte_of new_table table_permissions) in
        find_loop level' new_table vaddr allocate
      else ret (Unexpected kVmPageNotMapped)
  end.

Definition FindPageTableEntry (page_dir virtual_addr : Z) (allocate : bool)
    : VM (Expected (Z * nat)) :=
  find_loop (levels - 1) page_dir virtual_addr allocate.

Definition MapPage (page_dir virtual_addr physical_addr flags : Z) : VM (Expected unit) :=
  let* _ := nk_assert_msg (negb (page_dir =? nullptr)) "MapPage: page_dir is null" in
  let* pte_result := FindPageTableEntry page_dir virtual_addr true in
  match pte_result with
  | Unexpected _ => ret (Unexpected kVmMapFailed)
  | Value (table, i) =>
      let* pte := load table i in
      let attr_mask := Z.shiftl 1 pte_attribute_bits - 1 in
      if valid pte && ((pa_of pte =? physical_addr) && (Z.land pte attr_mask =? flags))
      then ret (Value tt)
      else
      let* _ := store table i (pte_of physical_addr flags) in
      let* _ := FlushTLBAll in
      ret (Value tt)
  end.

Definition UnmapPage (page_dir virtual_addr : Z) : VM (Expected unit) :=
  let* _ := nk_assert_msg (negb (page_dir =? nullptr)) "UnmapPage: page_dir is null" in
  let* pte_result := FindPageTableEntry page_dir virtual_addr false in
  match pte_result with
  | Unexpected _ => ret (Unexpected kVmPageNotMapped)
  | Value (table, i) =>
      let* pte := load table i in
      if negb (valid pte) then ret (Unexpected kVmPageNotMapped)
      else
      let* _ := store table i 0 in
      let* _ := FlushTLBAll in
      ret (Value tt)
  end.

Definition GetMapping (page_dir virtual_addr : Z) : VM (Expected Z) :=
  let* _ := nk_assert_msg (negb (page_dir =? nullptr)) "GetMapping: page_dir is null" in
  let* pte_result := FindPageTableEntry page_dir virtual_addr false in
  match pte_result with
  | Unexpected _ => ret (Unexpected kVmPageNotMapped)
  | Value (table, i) =>
      let* pte := load table i in
      if negb (valid pte) then ret (Unexpected kVmPageNotMapped)
      else ret (Value (pa_of pte))
  end.

(** [MapMMIO]: the loop runs on the number of pages of the range. *)
Fixpoint mmio_loop (fuel : nat) (addr end_page flags : Z) : VM (Expected unit) :=
  if addr <? end_page then
    match fuel with
    | O => halt_with Diverges
    | S fuel' =>
        let* dir := gets kernel_page_dir_ in
        let* result := MapPage dir addr addr flags in
        match result with
        | Unexpected e => ret (Unexpected e)
        | Value _ => mmio_loop fuel' (u64 (addr + kPageSize)) end_page flags
        end
    end
  else ret (Value tt).

Definition MapMMIO (phys_addr size flags : Z) : VM (Expected Z) :=
  let start_page := page_align phys_addr in
  let end_page := page_align_up (u64 (phys_addr + size)) in
  let* r := mmio_loop (Z.to_nat ((end_page - start_page) / kPageSize)) start_page end_page flags in
  match r with
  | Unexpected e => ret (Unexpected e)
  | Value _ => ret (Value phys_addr)
  end.

Fixpoint RecursiveFreePageTable (table : Z) (level : nat) (free_pages : bool) {struct level}
    : VM unit :=
  if table =? nullptr then ret tt
  else
  let* _ := for_each (seq 0 kEntriesPerTable) (fun i =>
    let* pte := load table i in
    if negb (valid pte) then ret tt
    else
    let pa := pa_of pte in
    let* _ := match level with
              | S level' => RecursiveFreePageTable pa level' free_pages
              | O => if free_pages then aligned_free pa else ret tt
              end in
    store table i 0) in
  when (level <? levels - 1)%nat (aligned_free table).

Definition DestroyPageDirectory (page_dir : Z) (free_pages : bool) : VM unit :=
  if page_dir =? nullptr then ret tt
  else
  let* _ := RecursiveFreePageTable page_dir (levels - 1) free_pages in
  aligned_free page_dir.

Fixpoint RecursiveClonePageTable (src_table dst_table : Z) (level : nat) (copy_mappings : bool)
    {struct level} : VM (Expected unit) :=
  let* _ := nk_assert_msg (negb (src_table =? nullptr))
    "RecursiveClonePageTable: src_table is null" in
  let* _ := nk_assert_msg (negb (dst_table =? nullptr))
    "RecursiveClonePageTable: dst_table is null" in
  for_each_e (seq 0 kEntriesPerTable) (fun i =>
    let* src_pte := load src_table i in
    if negb (valid src_pte) then ret (Value tt)
    else
    match level with
    | S level' =>
        let src_next := pa_of src_pte in
        let* dst_next := aligned_alloc in
        if dst_next =? nullptr then ret (Unexpected kVmAllocationFailed)
        else
        let* _ := clear_page dst_next in
        let* result := RecursiveClonePageTable src_next dst_next level' copy_mappings in
        match result with
        | Unexpected e =>
            let* _ := aligned_free dst_next in
            ret (Unexpected e)
        | Value _ =>
            let* _ := store dst_table i (pte_of dst_next table_permissions) in
            ret (Value tt)
        end
    | O =>
        let* _ := when copy_mappings (store dst_table i src_pte) in
        ret (Value tt)
    end).

Definition ClonePageDirectory (src_page_dir : Z) (copy_mappings : bool) : VM (Expected Z) :=
  let* _ := nk_assert_msg (negb (src_page_dir =? nullptr))
    "ClonePageDirectory: source page directory is nullptr" in
  let* dst_page_dir := aligned_alloc in
  if dst_page_dir =? nullptr then ret (Unexpected kVmAllocationFailed)
  else
  let* _ := clear_page dst_page_dir in
  let* result := RecursiveClonePageTable src_page_dir dst_page_dir (levels - 1) copy_mappings in
  match result with
  | Unexpected e =>
      let* _ := DestroyPageDirectory dst_page_dir false in
      ret (Unexpected e)
  | Value _ => ret (Value dst_page_dir)
  end.

(** The constructor; [physical_memory_addr], [physical_memory_size] are fields
    of [BasicInfo].  A failed mapping is logged and the core pauses for ever. *)
Definition VirtualMemory_ctor (physical_memory_addr physical_memory_size : Z) : VM unit :=
  let* dir := aligned_alloc in
  let* _ := modify (set_dir dir) in
  let* _ := nk_assert_msg (negb (dir =? nullptr)) "Failed to allocate kernel page directory" in
  let* _ := clear_page dir in
  let* r := MapMMIO physical_memory_addr physical_memory_size kernel_permissions in
  match r with
  | Unexpected _ => halt_with Parked
  | Value _ => ret tt
  end.

End operations.

Arguments Vm A : clear implicits.
Arguments MkVm {A}.

(** [InitCurrentCore] on riscv64: the registers of the core that runs it. *)
Definition InitCurrentCore {A} (s : Vm A) : Csr.access unit :=
  Csr.a_bind (Csr.SetPageDirectory (kernel_page_dir_ s)) (fun _ => Csr.EnablePage).

End VirtualMemory.
