(* ===== verification/VmInv.v ===== *)
(** * Page-table trees: the invariant of src/src/virtual_memory.cpp

    [walk] is the reference: the translation the MMU performs over the words in
    memory.  [tables] lists the blocks a directory of [l + 1] levels is made of;
    the invariant [tables_ok] says that they are whole, pairwise distinct,
    allocated and not null.  [grown] relates the states before and after a walk
    that may add tables. *)

From stdpp Require Import base numbers list gmap sets.
From Stdlib Require Import ZArith Lia.
From S2P Require Import Prelude Errors Paging VirtualMemory.
Import VirtualMemory.

Local Open Scope Z_scope.
#[local] Opaque kEntriesPerTable.

(** ** Lists of lists *)

Section concat.
Context {T : Type}.
Implicit Types (ls : list (list T)) (a b n : list T).

Lemma concat_lookup ls i a x : ls !! i = Some a -> x ∈ a -> x ∈ concat ls.
Proof.
  intros Hi Hx. apply list_elem_of_In, in_concat. exists a.
  split; apply list_elem_of_In; [by eapply list_elem_of_lookup_2 | done].
Qed.

Lemma concat_elem ls x : x ∈ concat ls -> exists i a, ls !! i = Some a /\ x ∈ a.
Proof.
  intros Hx. apply list_elem_of_In, in_concat in Hx as (a & Ha & Hx).
  apply list_elem_of_In, list_elem_of_lookup_1 in Ha as (i & Hi).
  exists i, a. split; [done|]. by apply list_elem_of_In.
Qed.

Lemma NoDup_concat_part ls i a : NoDup (concat ls) -> ls !! i = Some a -> NoDup a.
Proof.
  revert i. induction ls as [|b ls IH]; intros [|i] Hn Hi; simplify_eq/=;
    apply NoDup_app in Hn as (H1 & H2 & H3); eauto.
Qed.

Lemma NoDup_concat_disjoint ls i j a b x :
  NoDup (concat ls) -> ls !! i = Some a -> ls !! j = Some b -> x ∈ a -> x ∈ b -> i = j.
Proof.
  revert i j. induction ls as [|c ls IH]; intros [|i] [|j] Hn Hi Hj Ha Hb; simplify_eq/=;
    try done; apply NoDup_app in Hn as (H1 & H2 & H3).
  - destruct (H2 x Ha). by eapply concat_lookup.
  - destruct (H2 x Hb). by eapply concat_lookup.
  - f_equal. by eapply IH.
Qed.

Lemma concat_replace ls i a b n :
  ls !! i = Some a -> b ≡ₚ n ++ a -> concat (<[i := b]> ls) ≡ₚ n ++ concat ls.
Proof.
  revert i. induction ls as [|c ls IH]; intros [|i] Hi Hp; simplify_eq/=.
  - by rewrite Hp, <- app_assoc.
  - rewrite (IH i Hi Hp), !(assoc_L (++)). by rewrite (Permutation_app_comm c n).
Qed.

End concat.

Module VmInv.

Section trees.
Context {P : Paging}.
Implicit Types (m : gmap Z (list Z)) (l : nat) (p q t va w : Z).

Definition index va l : nat := Z.to_nat (vpn va (Z.of_nat l)).

(** The word a walk reads at level [l] of the table [p]. *)
Definition entry m l p va : option Z := m !! p ≫= (.!! index va l).

(** The MMU: the valid leaf entry for [va], if there is one. *)
Fixpoint walk m l p va : option Z :=
  w ← entry m l p va;
  if valid w then match l with O => Some w | S l' => walk m l' (pa_of w) va end
  else None.

(** Where the leaf entry is, valid or not. *)
Fixpoint slot m l p va : option (Z * nat) :=
  match l with
  | O => Some (p, index va 0)
  | S l' => w ← entry m l p va; if valid w then slot m l' (pa_of w) va else None
  end.

(** The blocks of a page directory, itself first. *)
Fixpoint tables m l p : list Z :=
  p :: match l with
       | O => []
       | S l' => concat ((fun w => if valid w then tables m l' (pa_of w) else []) <$>
                           default [] (m !! p))
       end.

Fixpoint shape m l p : Prop :=
  exists ws, m !! p = Some ws /\ length ws = kEntriesPerTable /\
    match l with
    | O => True
    | S l' => forall i w, ws !! i = Some w -> valid w = true -> shape m l' (pa_of w)
    end.

Definition same_page l va va' : Prop := forall k, (k <= l)%nat -> index va k = index va' k.

(** Physical address and attributes of the page of [va]. *)
Definition translation w : Z * Z := (pa_of w, Z.land w (Z.ones pte_attribute_bits)).
Definition translate m l p va : option (Z * Z) := translation <$> walk m l p va.

Definition kids m l p : list (list Z) :=
  (fun w => if valid w then tables m l (pa_of w) else []) <$> default [] (m !! p).

Lemma tables_S m l p : tables m (S l) p = p :: concat (kids m l p).
Proof. done. Qed.

Lemma tables_root m l p : p ∈ tables m l p.
Proof. destruct l; left. Qed.

Lemma kids_lookup m l p ws i w :
  m !! p = Some ws -> ws !! i = Some w -> valid w = true ->
  kids m l p !! i = Some (tables m l (pa_of w)).
Proof.
  intros Hp Hi Hv. unfold kids. rewrite Hp. simpl. rewrite list_lookup_fmap, Hi. simpl. by rewrite Hv.
Qed.

Lemma kids_inv m l p i a x :
  kids m l p !! i = Some a -> x ∈ a ->
  exists ws w, m !! p = Some ws /\ ws !! i = Some w /\ valid w = true /\ a = tables m l (pa_of w).
Proof.
  unfold kids. destruct (m !! p) as [ws|]; simpl; [|by rewrite lookup_nil].
  rewrite list_lookup_fmap. destruct (ws !! i) as [w|] eqn:Hi; simpl; [|done].
  intros [= <-] Hx. destruct (valid w) eqn:Hv; [|by apply elem_of_nil in Hx].
  by exists ws, w.
Qed.

Lemma kid_in m l p ws i w q :
  m !! p = Some ws -> ws !! i = Some w -> valid w = true ->
  q ∈ tables m l (pa_of w) -> q ∈ tables m (S l) p.
Proof.
  intros Hp Hi Hv Hq. rewrite tables_S. right. eapply concat_lookup; [|done].
  by eapply kids_lookup.
Qed.

(** A child of a directory without duplicates: without duplicates itself, apart
    from its parent and its siblings. *)
Lemma kid_NoDup m l p ws i w :
  NoDup (tables m (S l) p) -> m !! p = Some ws -> ws !! i = Some w -> valid w = true ->
  NoDup (tables m l (pa_of w)) /\ p ∉ tables m l (pa_of w) /\
  (forall j w' q, ws !! j = Some w' -> valid w' = true -> q ∈ tables m l (pa_of w) ->
     q ∈ tables m l (pa_of w') -> i = j).
Proof.
  rewrite tables_S. intros [Hp Hn]%NoDup_cons Hm Hi Hv.
  pose proof (kids_lookup m l p ws i w Hm Hi Hv) as Hk. split; [|split].
  - by eapply NoDup_concat_part.
  - intros Hx. apply Hp. by eapply concat_lookup.
  - intros j w' q Hj Hv' Hq Hq'. eapply NoDup_concat_disjoint; eauto.
    by eapply kids_lookup.
Qed.

(** ** A tree depends on its own tables only *)

Lemma tables_ext m m' l p :
  (forall q, q ∈ tables m l p -> m' !! q = m !! q) ->
  tables m' l p = tables m l p /\ (shape m l p -> shape m' l p) /\
  (forall va, walk m' l p va = walk m l p va) /\ (forall va, slot m' l p va = slot m l p va).
Proof.
  revert p. induction l as [|l IH]; intros p Hq.
  - assert (m' !! p = m !! p) as E by (apply Hq, tables_root).
    split_and!; [done| |intros va; simpl; unfold entry; by rewrite E|done].
    simpl. rewrite E. done.
  - assert (m' !! p = m !! p) as E by (apply Hq, tables_root).
    assert (forall ws i w, m !! p = Some ws -> ws !! i = Some w -> valid w = true ->
      forall q, q ∈ tables m l (pa_of w) -> m' !! q = m !! q) as Hk
      by (intros ws i w Hp Hi Hv q Hin; apply Hq; by eapply kid_in).
    split_and!.
    + rewrite !tables_S. do 2 f_equal. unfold kids. rewrite E.
      destruct (m !! p) as [ws|] eqn:Hp; [|done]. simpl. apply list_fmap_ext. intros i w Hi.
      destruct (valid w) eqn:Hv; [|done]. apply IH. by eapply Hk.
    + intros (ws & Hp & Hl & Hs). exists ws. rewrite E. split_and!; [done|done|].
      intros i w Hi Hv. apply IH; eauto.
    + intros va. simpl. unfold entry. rewrite E. destruct (m !! p) as [ws|] eqn:Hp; [|done]. simpl.
      destruct (ws !! index va (S l)) as [w|] eqn:Hi; [|done]. simpl.
      destruct (valid w) eqn:Hv; [|done]. apply IH. eauto.
    + intros va. simpl. unfold entry. rewrite E. destruct (m !! p) as [ws|] eqn:Hp; [|done]. simpl.
      destruct (ws !! index va (S l)) as [w|] eqn:Hi; [|done]. simpl.
      destruct (valid w) eqn:Hv; [|done]. apply IH. eauto.
Qed.

(** ** Slots *)

Lemma walk_slot m l p va :
  walk m l p va = ('(t, i) ← slot m l p va; w ← m !! t ≫= (.!! i); if valid w then Some w else None).
Proof.
  revert p. induction l as [|l IH]; intros p; [done|]. simpl.
  destruct (entry m (S l) p va) as [w|]; [|done]. simpl. destruct (valid w); [|done]. apply IH.
Qed.

Lemma slot_in m l p va t i : slot m l p va = Some (t, i) -> t ∈ tables m l p.
Proof.
  revert p. induction l as [|l IH]; intros p H; [injection H as <- <-; left|].
  cbn [slot] in H. unfold entry in H. destruct (m !! p) as [ws|] eqn:Hp; [|done].
  simpl in H. destruct (ws !! index va (S l)) as [w|] eqn:Hi; [|done]. simpl in H.
  destruct (valid w) eqn:Hv; [|done]. eapply kid_in; eauto.
Qed.

Lemma slot_index m l p va t i : slot m l p va = Some (t, i) -> i = index va 0.
Proof.
  revert p. induction l as [|l IH]; intros p H; [by injection H|].
  cbn [slot] in H. destruct (entry m (S l) p va) as [w|]; [|done]. simpl in H.
  destruct (valid w); [|done]. by eapply IH.
Qed.

Lemma slot_inj m l p va va' t i :
  NoDup (tables m l p) -> slot m l p va = Some (t, i) -> slot m l p va' = Some (t, i) ->
  same_page l va va'.
Proof.
  intros Hn H1 H2. pose proof (slot_index _ _ _ _ _ _ H1) as E1.
  pose proof (slot_index _ _ _ _ _ _ H2) as E2.
  revert p Hn H1 H2. induction l as [|l IH]; intros p Hn H1 H2 k Hk.
  - assert (k = 0%nat) as -> by lia. congruence.
  - cbn [slot] in H1, H2. unfold entry in H1, H2.
    destruct (m !! p) as [ws|] eqn:Hp; [|done]. simpl in H1, H2.
    destruct (ws !! index va (S l)) as [w|] eqn:Hi; [|done].
    destruct (ws !! index va' (S l)) as [w'|] eqn:Hi'; [|done]. simpl in H1, H2.
    destruct (valid w) eqn:Hv, (valid w') eqn:Hv'; try done.
    destruct (kid_NoDup m l p ws _ w Hn Hp Hi Hv) as (Hd & _ & Hs).
    assert (index va (S l) = index va' (S l)) as Ei
      by (eapply Hs; eauto using slot_in).
    destruct (decide (k = S l)) as [-> | Hne]; [done|].
    rewrite <- Ei, Hi in Hi'. injection Hi' as <-. eapply IH; eauto. lia.
Qed.

Lemma slot_same m l p va va' : same_page l va va' -> slot m l p va = slot m l p va'.
Proof.
  revert p. induction l as [|l IH]; intros p Hs; simpl.
  - by rewrite (Hs 0%nat).
  - unfold entry. rewrite (Hs (S l)) by lia.
    destruct (m !! p ≫= _) as [w|]; [|done]. simpl. destruct (valid w); [|done].
    apply IH. intros k Hk. apply Hs. lia.
Qed.

Lemma same_page_sym l va va' : same_page l va va' -> same_page l va' va.
Proof. intros H k Hk. symmetry. by apply H. Qed.

#[export] Instance same_page_dec l va va' : Decision (same_page l va va').
Proof.
  destruct (decide (Forall (fun k => index va k = index va' k) (seq 0 (S l)))) as [H | H].
  - left. intros k Hk. rewrite Forall_forall in H. apply H, elem_of_seq. lia.
  - right. intros Hs. apply H, Forall_forall. intros k Hk%elem_of_seq. apply Hs. lia.
Defined.

(** ** Writing a leaf entry *)

Lemma update_slot m l p va t i ws w :
  NoDup (tables m l p) -> shape m l p -> slot m l p va = Some (t, i) -> m !! t = Some ws ->
  let m' := <[t := <[i := w]> ws]> m in
  tables m' l p = tables m l p /\ shape m' l p /\
  (forall va', slot m' l p va' = slot m l p va').
Proof.
  cbv zeta. revert p. induction l as [|l IH]; intros p Hn Hs Hsl Ht.
  { injection Hsl as <- <-. split_and!; [done| |done]. destruct Hs as (ws' & Hp & Hl & _).
    exists (<[index va 0 := w]> ws). rewrite lookup_insert_eq, length_insert.
    split_and!; [done| |done]. congruence. }
  destruct Hs as (ks & Hp & Hl & Hk). cbn [slot] in Hsl. unfold entry in Hsl.
  rewrite Hp in Hsl. simpl in Hsl.
  destruct (ks !! index va (S l)) as [e|] eqn:Hi; [|done]. simpl in Hsl.
  destruct (valid e) eqn:Hv; [|done].
  destruct (kid_NoDup m l p ks _ e Hn Hp Hi Hv) as (Hd & Hpn & Hsib).
  destruct (IH (pa_of e) Hd (Hk _ _ Hi Hv) Hsl Ht) as (I1 & I2 & I3).
  pose proof (slot_in _ _ _ _ _ _ Hsl) as Hin.
  set (m' := <[t := <[i := w]> ws]> m) in *.
  assert (m' !! p = Some ks) as Hp' by (unfold m'; rewrite lookup_insert_ne; [done|]; by intros ->).
  assert (forall j e', ks !! j = Some e' -> valid e' = true -> j <> index va (S l) ->
    forall q, q ∈ tables m l (pa_of e') -> m' !! q = m !! q) as Hother.
  { intros j e' Hj Hv' Hne q Hq. unfold m'. rewrite lookup_insert_ne; [done|]. intros ->.
    destruct Hne. symmetry. by eapply Hsib. }
  assert (forall j e', ks !! j = Some e' -> valid e' = true ->
    tables m' l (pa_of e') = tables m l (pa_of e') /\ shape m' l (pa_of e') /\
    forall va', slot m' l (pa_of e') va' = slot m l (pa_of e') va') as Hall.
  { intros j e' Hj Hv'. destruct (decide (j = index va (S l))) as [-> | Hne].
    - rewrite Hi in Hj. injection Hj as <-. done.
    - destruct (tables_ext m m' l (pa_of e') (Hother j e' Hj Hv' Hne)) as (E1 & E2 & _ & E3).
      split_and!; eauto. }
  split_and!.
  - rewrite !tables_S. do 2 f_equal. unfold kids. rewrite Hp, Hp'. simpl.
    apply list_fmap_ext. intros j e' Hj. destruct (valid e') eqn:Hv'; [|done].
    by eapply Hall.
  - exists ks. split_and!; [done|done|]. intros j e' Hj Hv'. by eapply Hall.
  - intros va'. cbn [slot]. unfold entry. rewrite Hp, Hp'. simpl.
    destruct (ks !! index va' (S l)) as [e'|] eqn:Hj; [|done]. simpl.
    destruct (valid e') eqn:Hv'; [|done]. by eapply Hall.
Qed.

Lemma walk_update m l p va t i ws w va' :
  NoDup (tables m l p) -> shape m l p -> slot m l p va = Some (t, i) -> m !! t = Some ws ->
  (i < length ws)%nat ->
  walk (<[t := <[i := w]> ws]> m) l p va' =
    if decide (same_page l va' va) then (if valid w then Some w else None) else walk m l p va'.
Proof.
  intros Hn Hs Hsl Ht Hi. destruct (update_slot m l p va t i ws w Hn Hs Hsl Ht) as (_ & _ & E).
  rewrite !walk_slot, E. case_decide as Hp.
  - rewrite (slot_same m l p va' va Hp), Hsl. simpl.
    rewrite lookup_insert_eq. simpl. by rewrite list_lookup_insert_eq.
  - destruct (slot m l p va') as [[t' i']|] eqn:Hsl'; [|done]. simpl.
    destruct (decide (t' = t)) as [-> | Hne]; [|by rewrite lookup_insert_ne].
    rewrite lookup_insert_eq, Ht. simpl.
    rewrite list_lookup_insert_ne; [done|]. intros ->. apply Hp.
    apply same_page_sym. by eapply slot_inj.
Qed.

(** ** A cleared table *)

Context {L : PagingLaws P}.

Lemma index_lt va l :
  0 <= va < 2 ^ 64 -> (l < levels)%nat -> (index va l < kEntriesPerTable)%nat.
Proof.
  intros Hv Hl. unfold index. rewrite vpn_spec by lia.
  pose proof (Z.mod_pos_bound (va / 2 ^ (12 + 9 * Z.of_nat l)) 512). rewrite kEntriesPerTable_eq. lia.
Qed.

Lemma zero_entry m p i w :
  m !! p = Some (replicate kEntriesPerTable 0) -> m !! p ≫= (.!! i) = Some w -> valid w = false.
Proof.
  intros -> Hw. simpl in Hw. apply lookup_replicate in Hw as [-> _]. apply invalid_zero.
Qed.

Lemma zero_table m l p :
  m !! p = Some (replicate kEntriesPerTable 0) ->
  tables m l p = [p] /\ shape m l p /\ (forall va, walk m l p va = None).
Proof.
  intros Hp. split_and!.
  - destruct l as [|l]; [done|]. rewrite tables_S. f_equal. unfold kids. rewrite Hp. simpl.
    generalize kEntriesPerTable as n. induction n as [|n IH]; [done|]. simpl.
    rewrite invalid_zero. exact IH.
  - destruct l as [|l]; exists (replicate kEntriesPerTable 0); (split; [done|]);
      rewrite length_replicate; (split; [done|]); [done|].
    intros i w Hi Hv. apply lookup_replicate in Hi as [-> _].
    rewrite invalid_zero in Hv. discriminate.
  - intros va. destruct l as [|l]; simpl; unfold entry;
      destruct (m !! p ≫= _) as [w|] eqn:Hw; try done; simpl;
      by rewrite (zero_entry m p _ w Hp Hw).
Qed.

End trees.

(** ** States *)

Section states.
Context {P : Paging} {L : PagingLaws P} {A : Type} {H : PageAllocator A}.
Context {HA : PageAllocatorLaws A phys_limit}.
Implicit Types (s : Vm A) (l : nat) (p q va : Z).

Abbreviation live s := (pa_live (alloc_state s)).

Definition tables_ok s l p : Prop :=
  shape (memory s) l p /\ NoDup (tables (memory s) l p) /\
  (forall q, q ∈ tables (memory s) l p -> q ∈ live s /\ q <> nullptr).

(** [s'] has the tree of [s] at [p], possibly with tables [new] added, and the
    same translations; other blocks are untouched. *)
Record grown_by (g_new : list Z) s s' l p : Prop := Grown {
  g_tables : tables (memory s') l p ≡ₚ g_new ++ tables (memory s) l p;
  g_fresh : forall q, q ∈ g_new -> q ∉ live s /\ q <> nullptr;
  g_NoDup : NoDup g_new;
  g_live : live s' = live s ∪ list_to_set g_new;
  g_shape : shape (memory s') l p;
  g_frame : forall q, q ∉ tables (memory s) l p -> q ∉ g_new -> memory s' !! q = memory s !! q;
  g_walk : forall va, walk (memory s') l p va = walk (memory s) l p va;
  g_rest : tlb_flushes s' = tlb_flushes s /\ kernel_page_dir_ s' = kernel_page_dir_ s
}.

Definition grown s s' l p : Prop := exists new, grown_by new s s' l p.

Lemma grown_ok s s' l p : tables_ok s l p -> grown s s' l p -> tables_ok s' l p.
Proof.
  intros (Hs & Hn & Hl) [n [T F D Lv Sh R W X]]. split_and!; [done| |].
  - rewrite T. apply NoDup_app. split_and!; [done| |done].
    intros q Hq Ht. destruct (F q Hq) as [Hf _]. apply Hf, Hl, Ht.
  - intros q. rewrite T, elem_of_app. intros [Hq | Hq].
    + split; [rewrite Lv; set_solver | by apply F].
    + destruct (Hl q Hq). split; [rewrite Lv; set_solver | done].
Qed.

Lemma grown_refl s s' l p :
  shape (memory s) l p -> memory s' = memory s -> live s' = live s ->
  tlb_flushes s' = tlb_flushes s -> kernel_page_dir_ s' = kernel_page_dir_ s -> grown s s' l p.
Proof.
  intros Hs Hm Hl Ht Hd. exists []; split; rewrite ?Hm, ?Hl; try done.
  - intros q Hq. by apply elem_of_nil in Hq.
  - constructor.
  - set_solver.
Qed.

Lemma grown_trans s1 s2 s3 l p :
  grown s1 s2 l p -> grown s2 s3 l p -> grown s1 s3 l p.
Proof.
  intros [n1 [T1 F1 D1 L1 S1 R1 W1 [X1 Y1]]] [n2 [T2 F2 D2 L2 S2 R2 W2 [X2 Y2]]].
  assert (forall q, q ∈ n2 -> q ∉ live s1 /\ q ∉ n1) as Hd.
  { intros q Hq. destruct (F2 q Hq) as [Hf _]. rewrite L1 in Hf. set_solver. }
  exists (n2 ++ n1). split.
  - by rewrite T2, T1, (assoc_L (++)).
  - intros q [Hq | Hq]%elem_of_app; [|by apply F1]. split; [by apply Hd | by apply F2].
  - apply NoDup_app. split_and!; [done| |done]. intros q Hq. by apply Hd.
  - rewrite L2, L1, list_to_set_app_L. set_solver.
  - done.
  - intros q Hq Hn. rewrite elem_of_app in Hn.
    rewrite R2; [apply R1; tauto| |tauto]. rewrite T1, elem_of_app. tauto.
  - intros va. by rewrite W2.
  - split; congruence.
Qed.

(** Growth of a child is growth of the parent. *)
Lemma grown_child s s' l p ws i w :
  tables_ok s (S l) p -> memory s !! p = Some ws -> ws !! i = Some w -> valid w = true ->
  grown s s' l (pa_of w) -> grown s s' (S l) p.
Proof.
  intros (Hs & Hn & Hl) Hp Hi Hv [n [T F D Lv Sh R W X]].
  destruct (kid_NoDup _ l p ws i w Hn Hp Hi Hv) as (Hd & Hpn & Hsib).
  assert (forall q, q ∈ tables (memory s) (S l) p -> q ∉ n) as Hnew.
  { intros q Hq Hqn. apply (proj1 (F q Hqn)), Hl, Hq. }
  assert (memory s' !! p = Some ws) as Hp'.
  { rewrite R; [done|done|]. apply Hnew, tables_root. }
  assert (forall j e, ws !! j = Some e -> valid e = true -> j <> i ->
    forall q, q ∈ tables (memory s) l (pa_of e) -> memory s' !! q = memory s !! q) as Hother.
  { intros j e Hj Hve Hne q Hq. apply R.
    - intros Hq'. apply Hne. symmetry. by eapply Hsib.
    - apply Hnew. by eapply kid_in. }
  exists n; split; try done.
  - rewrite !tables_S. rewrite <- Permutation_middle. f_equiv.
    rewrite <- (concat_replace (kids (memory s) l p) i (tables (memory s) l (pa_of w)) (tables (memory s') l (pa_of w)) n).
    + enough (kids (memory s') l p = <[i := tables (memory s') l (pa_of w)]> (kids (memory s) l p)) as -> by done.
      apply list_eq. intros j.
      destruct (decide (j = i)) as [-> | Hne].
      * rewrite list_lookup_insert_eq by (eapply lookup_lt_Some, kids_lookup; eauto).
        by eapply kids_lookup.
      * rewrite list_lookup_insert_ne by done. unfold kids. rewrite Hp, Hp'. simpl.
        rewrite !list_lookup_fmap. destruct (ws !! j) as [e|] eqn:Hj; [|done]. simpl.
        destruct (valid e) eqn:Hve; [|done]. f_equal. eapply tables_ext, Hother; eauto.
    + by eapply kids_lookup.
    + done.
  - destruct Hs as (ws' & Hp2 & Hlen & Hk). rewrite Hp in Hp2. injection Hp2 as <-.
    exists ws. split_and!; [done|done|]. intros j e Hj Hve.
    destruct (decide (j = i)) as [-> | Hne]; [by rewrite Hi in Hj; injection Hj as <-|].
    eapply tables_ext; [eapply Hother; eauto|]. eauto.
  - intros q Hq Hqn. apply R; [|done]. intros Hq'. apply Hq. by eapply kid_in.
  - intros va. cbn [walk]. unfold entry. rewrite Hp, Hp'. simpl.
    destruct (ws !! index va (S l)) as [e|] eqn:Hj; [|done]. simpl.
    destruct (valid e) eqn:Hve; [|done].
    destruct (decide (index va (S l) = i)) as [<- | Hne].
    + rewrite Hi in Hj. injection Hj as <-. apply W.
    + eapply tables_ext, Hother; eauto.
Qed.


(** A table entered where there was none. *)
Lemma grown_entry s l p ws i w0 c a ws0 :
  tables_ok s (S l) p -> memory s !! p = Some ws -> ws !! i = Some w0 -> valid w0 = false ->
  pa_alloc (alloc_state s) = (Some (c, ws0), a) ->
  let w := pte_of c table_permissions in
  let s' := set_memory (<[p := <[i := w]> ws]> (<[c := replicate kEntriesPerTable 0]> (memory s)))
              (set_alloc a s) in
  valid w = true /\ pa_of w = c /\ c <> nullptr /\ c <> p /\ grown s s' (S l) p /\
  tables_ok s' l c.
Proof.
  intros (Hs & Hn & Hl) Hp Hi Hv Ha w s'.
  destruct (alloc_some _ _ _ _ Ha) as (Hc & La & Hr & Hm & _).
  destruct table_valid as [Hb Hf].
  pose proof phys_limit_word as HL.
  assert (valid w = true) as Hw by (unfold w; rewrite valid_pte by lia; done).
  assert (pa_of w = c) as Hpa by (unfold w; apply pa_of_pte; lia).
  assert (c ∉ tables (memory s) (S l) p) as Hct by (intros Hin; apply Hc, Hl, Hin).
  assert (c <> p) as Hcp by (intros ->; apply Hct, tables_root).
  assert (memory s' !! p = Some (<[i := w]> ws)) as Hp' by apply lookup_insert_eq.
  assert (memory s' !! c = Some (replicate kEntriesPerTable 0)) as Hc'
    by (simpl; rewrite lookup_insert_ne, lookup_insert_eq; done).
  assert (forall q, q <> p -> q <> c -> memory s' !! q = memory s !! q) as Hq'
    by (intros q H1 H2; simpl; rewrite !lookup_insert_ne; congruence).
  assert (live s' = {[c]} ∪ live s) as Ls by exact La.
  assert (tlb_flushes s' = tlb_flushes s /\ kernel_page_dir_ s' = kernel_page_dir_ s) as Rs by done.
  clearbody s' w.
  destruct (zero_table (memory s') l c Hc') as (Z1 & Z2 & Z3).
  assert (forall j e, ws !! j = Some e -> valid e = true ->
    forall q, q ∈ tables (memory s) l (pa_of e) -> memory s' !! q = memory s !! q) as Hother.
  { intros j e Hj Hve q Hq. destruct (kid_NoDup _ l p ws j e Hn Hp Hj Hve) as (_ & Hpn & _).
    apply Hq'; [by intros ->|]. intros ->. apply Hct. by eapply kid_in. }
  assert (forall j, (<[i := w]> ws) !! j = if decide (j = i) then Some w else ws !! j) as Hws.
  { intros j. case_decide as Hj; [rewrite Hj|by rewrite list_lookup_insert_ne].
    apply list_lookup_insert_eq. by eapply lookup_lt_Some. }
  split_and!; [done|done|unfold nullptr; lia|done| |].
  - exists [c]. split.
    + rewrite !tables_S. simpl ([c] ++ _). rewrite (Permutation_swap p c). f_equiv.
      change (c :: concat ?x) with ([c] ++ concat x).
      rewrite <- (concat_replace (kids (memory s) l p) i [] [c] [c]); [| |done].
      * enough (kids (memory s') l p = <[i := [c]]> (kids (memory s) l p)) as -> by done.
        apply list_eq. intros j. unfold kids at 1. rewrite Hp'. simpl.
        rewrite list_lookup_fmap, Hws. case_decide as Hj; [subst j|].
        -- simpl. rewrite Hw, Hpa, Z1. symmetry. apply list_lookup_insert_eq.
           unfold kids. rewrite Hp. simpl. rewrite length_fmap. by eapply lookup_lt_Some.
        -- rewrite list_lookup_insert_ne by done. unfold kids. rewrite Hp. simpl.
           rewrite list_lookup_fmap. destruct (ws !! j) as [e|] eqn:Hje; [|done]. simpl.
           destruct (valid e) eqn:Hve; [|done]. f_equal. eapply tables_ext, Hother; eauto.
      * unfold kids. rewrite Hp. simpl. rewrite list_lookup_fmap, Hi. simpl. by rewrite Hv.
    + intros q ->%list_elem_of_singleton. split; [done|]. unfold nullptr. lia.
    + apply NoDup_singleton.
    + rewrite Ls. set_solver.
    + destruct Hs as (ws' & Hp2 & Hlen & Hk). rewrite Hp in Hp2. injection Hp2 as <-.
      exists (<[i := w]> ws). rewrite length_insert. split_and!; [done|done|].
      intros j e. rewrite Hws. case_decide as Hj.
      * intros [= <-] _. by rewrite Hpa.
      * intros Hje Hve. eapply tables_ext; [by eapply Hother|]. eauto.
    + intros q Hq Hqc. rewrite list_elem_of_singleton in Hqc.
      apply Hq'; [|done]. intros ->. apply Hq, tables_root.
    + intros va. cbn [walk]. unfold entry. rewrite Hp, Hp'. simpl. rewrite Hws.
      case_decide as Hj.
      * rewrite Hj, Hi. simpl. rewrite Hw, Hv, Hpa. apply Z3.
      * destruct (ws !! index va (S l)) as [e|] eqn:Hje; [|done]. simpl.
        destruct (valid e) eqn:Hve; [|done]. eapply tables_ext, Hother; eauto.
    + done.
  - split_and!; [done| |].
    + rewrite Z1. apply NoDup_singleton.
    + rewrite Z1. intros q ->%list_elem_of_singleton. rewrite Ls.
      split; [set_solver|]. unfold nullptr. lia.
Qed.

(** ** Running the primitives *)

Lemma load_run s p i ws w :
  memory s !! p = Some ws -> ws !! i = Some w -> load p i s = Ret s w.
Proof. intros Hp Hi. unfold load. rewrite Hp. simpl. by rewrite Hi. Qed.

Lemma store_run s p i ws w :
  memory s !! p = Some ws -> (i < length ws)%nat ->
  store p i w s = Ret (set_memory (<[p := <[i := w]> ws]> (memory s)) s) tt.
Proof. intros Hp Hi. unfold store. rewrite Hp, (proj2 (Nat.ltb_lt _ _)); done. Qed.

Lemma shape_words s l p : shape (memory s) l p ->
  exists ws, memory s !! p = Some ws /\ length ws = kEntriesPerTable.
Proof. destruct l; intros (ws & Hp & Hl & _); by exists ws. Qed.

Lemma child_ok s l p ws i w :
  tables_ok s (S l) p -> memory s !! p = Some ws -> ws !! i = Some w -> valid w = true ->
  tables_ok s l (pa_of w).
Proof.
  intros (Hs & Hn & Hl) Hp Hi Hv. destruct Hs as (ws' & Hp' & _ & Hk).
  rewrite Hp in Hp'. injection Hp' as <-. split_and!.
  - by eapply Hk.
  - by eapply kid_NoDup.
  - intros q Hq. apply Hl. by eapply kid_in.
Qed.

(** The word of a level, in bounds. *)
Lemma entry_run s l p va :
  shape (memory s) l p -> 0 <= va < 2 ^ 64 -> (l < levels)%nat ->
  exists ws w, memory s !! p = Some ws /\ ws !! index va l = Some w /\
    length ws = kEntriesPerTable /\ load p (index va l) s = Ret s w.
Proof.
  intros Hs Hv Hl. destruct (shape_words s l p Hs) as (ws & Hp & Hlen).
  destruct (lookup_lt_is_Some_2 ws (index va l)) as [w Hw].
  { rewrite Hlen. by apply index_lt. }
  exists ws, w. split_and!; [done|done|done|]. by eapply load_run.
Qed.

Lemma find_lookup s l p va :
  tables_ok s l p -> 0 <= va < 2 ^ 64 -> (l < levels)%nat ->
  find_loop l p va false s =
    Ret s (match slot (memory s) l p va with
           | Some e => Value e | None => Unexpected kVmPageNotMapped end).
Proof.
  intros Hok Hv. revert p Hok. induction l as [|l IH]; intros p Hok Hl; [done|].
  destruct (entry_run s (S l) p va) as (ws & w & Hp & Hi & _ & Hld); [apply Hok|done|done|].
  cbn [find_loop slot]. fold (index va (S l)). unfold bind at 1. rewrite Hld.
  unfold entry. rewrite Hp. simpl. rewrite Hi. simpl.
  destruct (valid w) eqn:Hw; [|done]. apply IH; [|lia]. by eapply child_ok.
Qed.

(** ** Requests to the heap *)

(** One of the next [n] requests for a page is refused. *)
Fixpoint refuses_within (n : nat) (a : A) : bool :=
  match n with
  | O => false
  | S n' => match pa_alloc a with
            | (None, _) => true
            | (Some _, a') => refuses_within n' a'
            end
  end.

(** [k] requests in a row, all of them granted. *)
Inductive took : nat -> A -> A -> Prop :=
| took_O a : took 0 a a
| took_S k a p ws a1 a2 : pa_alloc a = (Some (p, ws), a1) -> took k a1 a2 -> took (S k) a a2.

(** At most [n] requests, all of them granted. *)
Definition drew (n : nat) (a a' : A) : Prop := exists k, (k <= n)%nat /\ took k a a'.

Lemma refuses_mono n n' a : (n <= n')%nat -> refuses_within n a = true -> refuses_within n' a = true.
Proof.
  revert n' a. induction n as [|n IH]; intros [|n'] a Hn; cbn; try done || lia.
  destruct (pa_alloc a) as [[?|] a']; [|done]. apply IH. lia.
Qed.

Lemma refuses_now n a : fst (pa_alloc a) = None -> (0 < n)%nat -> refuses_within n a = true.
Proof. destruct n as [|n]; [lia|]. cbn. by destruct (pa_alloc a) as [[?|] a']. Qed.

Lemma took_trans j k a1 a2 a3 : took j a1 a2 -> took k a2 a3 -> took (j + k) a1 a3.
Proof. induction 1 as [|j a p ws b1 b2 Ha _ IH]; intros Hk; [done|]. econstructor; [exact Ha|by apply IH]. Qed.

Lemma took_refuses k n a a' : took k a a' -> refuses_within (k + n) a = refuses_within n a'.
Proof. induction 1 as [|k a p ws a1 a2 Ha _ IH]; [done|]. cbn. by rewrite Ha. Qed.

Lemma took_one a p ws a' : pa_alloc a = (Some (p, ws), a') -> drew 1 a a'.
Proof. intros Ha. exists 1%nat. split; [done|]. econstructor; [exact Ha|constructor]. Qed.

Lemma drew_nil n a : drew n a a.
Proof. exists 0%nat. split; [lia|constructor]. Qed.

Lemma drew_mono n n' a a' : (n <= n')%nat -> drew n a a' -> drew n' a a'.
Proof. intros Hn (k & Hk & Ht). exists k. split; [lia|done]. Qed.

Lemma drew_trans n n' a1 a2 a3 : drew n a1 a2 -> drew n' a2 a3 -> drew (n + n') a1 a3.
Proof. intros (j & Hj & Ht) (k & Hk & Ht'). exists (j + k)%nat. split; [lia|]. by eapply took_trans. Qed.

Lemma drew_refuses n n' a a' : drew n a a' -> refuses_within n' a' = true -> refuses_within (n + n') a = true.
Proof. intros (k & Hk & Ht) Hr. apply (refuses_mono (k + n')); [lia|]. by rewrite (took_refuses _ _ _ _ Ht). Qed.

(** What a function asked the heap for: at most [n] requests; it fails only if
    one of them is refused. *)
Definition asked {B} (n : nat) s s' (r : Expected B) : Prop :=
  match r with
  | Value _ => drew n (alloc_state s) (alloc_state s')
  | Unexpected _ => refuses_within n (alloc_state s) = true
  end.

Lemma asked_seq {B C} n n' s s1 s' (x : B) (r : Expected C) :
  asked n s s1 (Value x) -> asked n' s1 s' r -> asked (n + n') s s' r.
Proof. unfold asked. destruct r; [apply drew_trans|apply drew_refuses]. Qed.

Lemma asked_mono {B} n n' s s' (r : Expected B) : (n <= n')%nat -> asked n s s' r -> asked n' s s' r.
Proof. intros Hn. unfold asked. destruct r; [by apply drew_mono|by apply refuses_mono]. Qed.

(** The tables that a walk for [va] does not find. *)
Fixpoint missing (m : gmap Z (list Z)) l p va : nat :=
  match l with
  | O => 0
  | S l' => match entry m l p va with
            | Some w => if valid w then missing m l' (pa_of w) va else l
            | None => l
            end
  end.

Lemma missing_le m l p va : (missing m l p va <= l)%nat.
Proof.
  revert p. induction l as [|l IH]; intros p; cbn [missing]; [done|].
  destruct (entry m (S l) p va) as [w|]; [|done]. destruct (valid w); [|done]. specialize (IH (pa_of w)). lia.
Qed.

Lemma missing_slot m l p va : is_Some (slot m l p va) -> missing m l p va = 0%nat.
Proof.
  revert p. induction l as [|l IH]; intros p [e He]; [done|]. cbn [slot missing] in *.
  destruct (entry m (S l) p va) as [w|]; [|done]. cbn in He. destruct (valid w); [|done]. apply IH. by exists e.
Qed.

Lemma find_loop_asked l : forall s p va s' r, find_loop l p va true s = Ret s' r -> asked (missing (memory s) l p va) s s' r.
Proof.
  induction l as [|l IH]; intros s p va s' r E; cbn [find_loop] in E; [injection E as <- <-; apply drew_nil|].
  unfold bind at 1 in E. fold (index va (S l)) in E. unfold load in E. cbn [missing]. unfold entry.
  destruct (memory s !! p ≫= (.!! index va (S l))) as [w|]; [|done]. cbn in E. destruct (valid w); [by apply IH|].
  unfold bind at 1, aligned_alloc in E. destruct (pa_alloc (alloc_state s)) as [[[c ws]|] a1] eqn:Ea.
  - destruct (c =? nullptr) eqn:Ec.
    { apply Z.eqb_eq in Ec. pose proof (alloc_some _ _ _ _ Ea) as (_ & _ & Hc & _). unfold nullptr in Ec. lia. }
    unfold bind at 1 in E. destruct (clear_page c _) as [s2 u|] eqn:Ecl; [|done].
    assert (alloc_state s2 = a1) as E2 by (unfold clear_page in Ecl; destruct (_ !! _); [|done]; by injection Ecl as <-).
    unfold bind at 1 in E. destruct (store _ _ _ s2) as [s3 u'|] eqn:Est; [|done].
    assert (alloc_state s3 = a1) as E3.
    { unfold store in Est. destruct (_ !! _); [|done]. destruct (_ <? _)%nat; [|done]. by injection Est as <-. }
    apply IH in E. unfold asked in *. pose proof (missing_le (memory s3) l c va). rewrite E3 in E.
    destruct r as [e|e].
    + apply (drew_mono (1 + missing (memory s3) l c va)); [lia|]. eapply drew_trans; [by eapply took_one|done].
    + apply (refuses_mono (1 + missing (memory s3) l c va)); [lia|]. eapply drew_refuses; [by eapply took_one|done].
  - injection E as <- <-. apply refuses_now; [by rewrite Ea|lia].
Qed.

Lemma find_allocate s l p va :
  tables_ok s l p -> 0 <= va < 2 ^ 64 -> (l < levels)%nat ->
  exists s' r, find_loop l p va true s = Ret s' r /\ grown s s' l p /\
    match r with
    | Value e => slot (memory s') l p va = Some e
    | Unexpected e => e = kVmAllocationFailed
    end.
Proof.
  intros Hok Hv. revert s p Hok. induction l as [|l IH]; intros s p Hok Hl.
  { eexists s, _. split; [reflexivity|]. split; [|done]. apply grown_refl; try done. apply Hok. }
  destruct (entry_run s (S l) p va) as (ws & w & Hp & Hi & Hlen & Hld); [apply Hok|done|done|].
  cbn [find_loop]. fold (index va (S l)). unfold bind at 1. rewrite Hld.
  destruct (valid w) eqn:Hw.
  - destruct (IH s (pa_of w)) as (s' & r & Hr & Hg & Hm); [by eapply child_ok|lia|].
    exists s', r. split; [done|]. pose proof (grown_child s s' l p ws _ w Hok Hp Hi Hw Hg) as Hg'.
    split; [done|]. destruct r as [e|]; [|done].
    cbn [slot]. unfold entry. destruct Hg as [n [T F D Lv Sh R W X]].
    rewrite R, Hp; simpl; [rewrite Hi; simpl; by rewrite Hw| |].
    + by eapply kid_NoDup; [apply Hok| | |].
    + intros Hpn. apply (proj1 (F p Hpn)). apply Hok, tables_root.
  - unfold bind at 1, aligned_alloc at 1.
    destruct (pa_alloc (alloc_state s)) as [[[c ws0]|] a] eqn:Ha.
    + destruct (grown_entry s l p ws _ w c a ws0 Hok Hp Hi Hw Ha)
        as (Hv' & Hpa & Hc0 & Hcp & Hg & Hok').
      rewrite (proj2 (Z.eqb_neq c nullptr)) by done.
      unfold bind at 1, clear_page at 1. cbn [memory set_memory]. rewrite lookup_insert_eq.
      unfold bind at 1. rewrite (store_run _ p (index va (S l)) ws);
        [|cbn [memory set_memory]; by rewrite !lookup_insert_ne|rewrite Hlen; by apply index_lt].
      cbn [memory set_memory]. rewrite insert_insert_eq.
      match goal with |- context [find_loop l c va true ?x] => set (s1 := x) end.
      match type of Hok' with tables_ok ?x _ _ => assert (s1 = x) as Es by done end.
      rewrite <- Es in Hg, Hok'.
      assert (memory s1 !! p = Some (<[index va (S l) := pte_of c table_permissions]> ws)) as Hp1
        by apply lookup_insert_eq.
      clearbody s1. clear Es.
      destruct (IH s1 c Hok' ltac:(lia)) as (s' & r & Hr & Hg' & Hm).
      exists s', r. split; [done|].
      assert (tables_ok s1 (S l) p) as Hok1 by (by eapply grown_ok).
      assert ((<[index va (S l) := pte_of c table_permissions]> ws) !! index va (S l) =
        Some (pte_of c table_permissions)) as Hi1
        by (apply list_lookup_insert_eq; by eapply lookup_lt_Some).
      rewrite <- Hpa in Hg'.
      split; [eapply grown_trans; [exact Hg|]; by eapply grown_child|].
      destruct r as [e|]; [|done]. cbn [slot]. unfold entry.
      destruct Hg' as [n [T F D Lv Sh R W X]].
      rewrite R, Hp1; simpl; [rewrite Hi1; simpl; by rewrite Hv', Hpa| |].
      * by eapply kid_NoDup; [apply Hok1| | |].
      * intros Hpn. apply (proj1 (F p Hpn)). apply Hok1, tables_root.
    + eexists _, _. split; [reflexivity|]. split.
      * apply grown_refl; try done; [apply Hok|]. by eapply alloc_none.
      * done.
Qed.

End states.
End VmInv.
