(* ===== verification/VmProps.v ===== *)
(** * Virtual memory: the operations as updates of one translation map

    For a directory that satisfies [tables_ok], [view] is the map from page
    numbers to physical address and attributes that the MMU sees; the theorems
    state what each operation does to it. *)

From stdpp Require Import base numbers list gmap sets.
From Stdlib Require Import ZArith Lia.
From S2P Require Import Prelude Errors Csr Paging VirtualMemory VmInv.
Import VirtualMemory VmInv.

Local Open Scope Z_scope.
#[local] Opaque kEntriesPerTable.

Module VmProps.

Section props.
Context {P : Paging} {L : PagingLaws P} {A : Type} {H : PageAllocator A}.
Context {HA : PageAllocatorLaws A phys_limit}.
Implicit Types (s : Vm A) (root va pa flags : Z).

Definition top : nat := (levels - 1)%nat.

(** What the MMU sees of the directory [root]. *)
Definition view s root va : option (Z * Z) := translate (memory s) top root va.

(** The page number a walk uses: bits above it are ignored. *)
Definition page_of va : Z := (va / 4096) mod 512 ^ Z.of_nat levels.

Definition dir_ok s root : Prop := tables_ok s top root.

Lemma top_lt : (top < levels)%nat.
Proof. pose proof levels_pos. unfold top. lia. Qed.

(** ** Page numbers *)

Lemma index_page va k :
  0 <= va < 2 ^ 64 -> (k < levels)%nat ->
  Z.of_nat (index va k) = (va / 4096 / 512 ^ Z.of_nat k) mod 512.
Proof.
  intros Hv Hk. unfold index. rewrite vpn_spec by lia.
  rewrite Z2Nat.id by (apply Z.mod_pos_bound; lia). f_equal.
  rewrite Z.div_div by (try apply Z.pow_pos_nonneg; lia). f_equal.
  change 512 with (2 ^ 9). change 4096 with (2 ^ 12). rewrite <- Z.pow_mul_r by lia.
  rewrite Z.pow_add_r by lia. lia.
Qed.

(** Numbers below [512 ^ n] are equal when their [n] digits are. *)
Lemma digits_eq n x y :
  (forall k, (k < n)%nat -> (x / 512 ^ Z.of_nat k) mod 512 = (y / 512 ^ Z.of_nat k) mod 512) <->
  x mod 512 ^ Z.of_nat n = y mod 512 ^ Z.of_nat n.
Proof.
  induction n as [|n IH].
  { split; [|lia]. intros _. by rewrite !Z.mod_1_r. }
  assert (forall z, z mod 512 ^ Z.of_nat (S n) =
    z mod 512 ^ Z.of_nat n + 512 ^ Z.of_nat n * ((z / 512 ^ Z.of_nat n) mod 512)) as E.
  { intros z. rewrite Nat2Z.inj_succ, Z.pow_succ_r, Z.mul_comm by lia.
    apply Z.rem_mul_r; [|lia]. pose proof (Z.pow_pos_nonneg 512 (Z.of_nat n)). lia. }
  rewrite !E. pose proof (Z.pow_pos_nonneg 512 (Z.of_nat n) ltac:(lia) ltac:(lia)) as Hpos.
  pose proof (Z.mod_pos_bound x _ Hpos). pose proof (Z.mod_pos_bound y _ Hpos).
  split.
  - intros Hd. rewrite (proj1 IH) by (intros k Hk; apply Hd; lia). by rewrite (Hd n) by lia.
  - intros He. assert ((x / 512 ^ Z.of_nat n) mod 512 = (y / 512 ^ Z.of_nat n) mod 512) as Hn by nia.
    intros k Hk. destruct (decide (k = n)) as [-> | Hne]; [done|].
    apply (proj2 IH); [|lia]. nia.
Qed.

Lemma same_page_iff va va' :
  0 <= va < 2 ^ 64 -> 0 <= va' < 2 ^ 64 -> same_page top va va' <-> page_of va = page_of va'.
Proof.
  intros Hv Hv'. unfold page_of. rewrite <- digits_eq. pose proof top_lt as Ht. unfold top in Ht.
  split.
  - intros Hs k Hk. rewrite <- !index_page by done. f_equal. apply Hs. unfold top. lia.
  - intros Hd k Hk. unfold top in Hk. apply Nat2Z.inj. rewrite !index_page by (done || lia).
    apply Hd. lia.
Qed.

(** ** Reading and writing the entry of a page *)

Lemma dir_nonnull s root : dir_ok s root -> (root =? nullptr) = false.
Proof. intros (_ & _ & Hl). apply Z.eqb_neq, Hl, tables_root. Qed.

Lemma slot_run s root va t i :
  dir_ok s root -> 0 <= va < 2 ^ 64 -> slot (memory s) top root va = Some (t, i) ->
  exists ws w, memory s !! t = Some ws /\ ws !! i = Some w /\ (i < length ws)%nat /\
    load t i s = Ret s w /\
    walk (memory s) top root va = (if valid w then Some w else None).
Proof.
  intros (Hs & _) Hv Hsl.
  assert (exists ws, memory s !! t = Some ws /\ length ws = kEntriesPerTable) as (ws & Ht & Hl).
  { pose proof (slot_in _ _ _ _ _ _ Hsl) as Hin. clear Hsl. revert root Hs Hin.
    induction top as [|l IH]; intros p Hs Hin.
    - apply list_elem_of_singleton in Hin as ->. by eapply (shape_words s 0).
    - rewrite tables_S in Hin. apply elem_of_cons in Hin as [-> | Hin].
      + by eapply (shape_words s (S l)).
      + apply concat_elem in Hin as (j & a & Hj & Hin).
        destruct (kids_inv _ _ _ _ _ _ Hj Hin) as (ks & e & Hp & He & Hve & ->).
        destruct Hs as (ks' & Hp' & _ & Hk). rewrite Hp in Hp'. injection Hp' as <-.
        eapply IH; eauto. }
  pose proof (slot_index _ _ _ _ _ _ Hsl) as ->.
  assert (index va 0 < length ws)%nat as Hi
    by (rewrite Hl; apply index_lt; [done|apply levels_pos]).
  destruct (lookup_lt_is_Some_2 ws _ Hi) as [w Hw]. exists ws, w.
  split_and!; [done|done|done|by eapply load_run|].
  rewrite walk_slot, Hsl. simpl. rewrite Ht. simpl. by rewrite Hw.
Qed.

(** Writing an entry changes the translation of its page alone. *)
Lemma view_update s root va t i ws w :
  dir_ok s root -> 0 <= va < 2 ^ 64 -> slot (memory s) top root va = Some (t, i) ->
  memory s !! t = Some ws -> (i < length ws)%nat ->
  let s' := set_memory (<[t := <[i := w]> ws]> (memory s)) s in
  dir_ok s' root /\
  forall va', 0 <= va' < 2 ^ 64 ->
    view s' root va' = if page_of va' =? page_of va
                       then (if valid w then Some (translation w) else None) else view s root va'.
Proof.
  intros (Hs & Hn & Hl) Hv Hsl Ht Hi s'.
  destruct (update_slot _ _ _ _ _ _ _ w Hn Hs Hsl Ht) as (E1 & E2 & _). split.
  - split_and!; [done|simpl; by rewrite E1|]. simpl. intros q. rewrite E1. apply Hl.
  - intros va' Hv'. unfold view, translate. simpl.
    rewrite (walk_update _ _ _ _ _ _ _ w va' Hn Hs Hsl Ht Hi).
    case_decide as Hp; [|rewrite same_page_iff, <- Z.eqb_neq in Hp by done; by rewrite Hp].
    apply same_page_iff in Hp as ->; [|done|done]. rewrite Z.eqb_refl. by destruct (valid w).
Qed.

Lemma find_top s root va :
  dir_ok s root -> 0 <= va < 2 ^ 64 ->
  exists s' r, FindPageTableEntry root va true s = Ret s' r /\ grown s s' top root /\
    dir_ok s' root /\ asked (missing (memory s) top root va) s s' r /\
    match r with
    | Value e => slot (memory s') top root va = Some e
    | Unexpected e => e = kVmAllocationFailed
    end.
Proof.
  intros Hok Hv. destruct (find_allocate s top root va Hok Hv top_lt) as (s' & r & Hr & Hg & Hm).
  exists s', r. split_and!; [done|done| | |done]; [by eapply grown_ok|by apply find_loop_asked].
Qed.

Lemma grown_view s s' root va : grown s s' top root -> view s' root va = view s root va.
Proof. intros [n [T F D Lv Sh R W X]]. unfold view, translate. by rewrite W. Qed.

Lemma grown_dir s s' root : grown s s' top root -> kernel_page_dir_ s' = kernel_page_dir_ s.
Proof. intros [n [T F D Lv Sh R W [_ X]]]. exact X. Qed.

(** The effect of a successful [MapPage]: [va]'s page maps to [pa] with the
    attribute bits of [flags] (or to nothing, if [flags] lacks the valid bit). *)
Definition mapped_page flags pa : option (Z * Z) :=
  if Z.testbit flags 0 then Some (pa, Z.land flags (Z.ones pte_attribute_bits)) else None.

(** Two entries with the same address and attributes translate alike. *)
Lemma duplicate_entry w pa flags :
  valid w && ((pa_of w =? pa) && (Z.land w (Z.shiftl 1 pte_attribute_bits - 1) =? flags)) = true ->
  Some (translation w) = mapped_page flags pa.
Proof.
  intros Hd. bool_cases. change (Z.shiftl 1 pte_attribute_bits - 1)
    with (Z.ones pte_attribute_bits) in *. pose proof pte_attrs. unfold mapped_page, translation.
  subst flags pa. rewrite Z.land_spec, <- valid_is_bit, Z.testbit_ones_nonneg by lia.
  rewrite (proj2 (Z.ltb_lt 0 _)) by lia.
  match goal with Hv : valid w = true |- _ => rewrite Hv end. simpl. do 2 f_equal.
  by rewrite <- Z.land_assoc, Z.land_diag.
Qed.

Lemma new_entry pa flags :
  0 <= pa < phys_limit -> pa mod 4096 = 0 -> 0 <= flags < 2 ^ 32 ->
  (if valid (pte_of pa flags) then Some (translation (pte_of pa flags)) else None) =
  mapped_page flags pa.
Proof.
  intros Hp Ha Hf. pose proof phys_limit_word. unfold mapped_page, translation.
  rewrite valid_pte, pa_of_pte, attrs_pte by lia. done.
Qed.

Lemma map_page_run s root va pa flags :
  dir_ok s root -> 0 <= va < 2 ^ 64 -> 0 <= pa < phys_limit -> pa mod 4096 = 0 ->
  0 <= flags < 2 ^ 32 ->
  exists s' r, MapPage root va pa flags s = Ret s' r /\ dir_ok s' root /\
    kernel_page_dir_ s' = kernel_page_dir_ s /\ asked (missing (memory s) top root va) s s' r /\
    match r with
    | Value _ => forall va', 0 <= va' < 2 ^ 64 ->
        view s' root va' = if page_of va' =? page_of va then mapped_page flags pa else view s root va'
    | Unexpected e => e = kVmMapFailed /\ forall va', view s' root va' = view s root va'
    end.
Proof.
  intros Hok Hv Hp Ha Hf.
  destruct (find_top s root va Hok Hv) as (s1 & r & Hr & Hg & Hok1 & Ha' & Hm).
  unfold MapPage. unfold bind at 1, nk_assert_msg. rewrite (dir_nonnull s root Hok). simpl.
  unfold bind at 1. rewrite Hr. destruct r as [[t i] | e].
  - destruct (slot_run s1 root va t i Hok1 Hv Hm) as (ws & w & Ht & Hi & Hlt & Hld & Hwk).
    unfold bind at 1. rewrite Hld.
    destruct (valid w && _) eqn:Hd.
    + exists s1, (inl tt). split_and!; [done|done|exact (grown_dir s s1 root Hg)|done|].
      intros va' Hv'. destruct (Z.eqb_spec (page_of va') (page_of va)) as [E | _];
        [|by apply grown_view].
      apply same_page_iff in E; [|done|done]. unfold view, translate.
      rewrite walk_slot, (slot_same _ _ _ va' va E), <- walk_slot, Hwk.
      rewrite <- (duplicate_entry w pa flags Hd). by apply andb_true_iff in Hd as [-> _].
    + unfold bind at 1. rewrite (store_run s1 t i ws) by done.
      destruct (view_update s1 root va t i ws (pte_of pa flags) Hok1 Hv Hm Ht Hlt) as (Hok2 & Hvw).
      eexists _, (inl tt). split; [reflexivity|]. split; [exact Hok2|].
      split; [exact (grown_dir s s1 root Hg)|]. split; [exact Ha'|].
      intros va' Hv'. rewrite <- new_entry by done. rewrite <- (grown_view s s1) by done.
      by apply Hvw.
  - subst e. exists s1, (inr kVmMapFailed). split_and!; [done|done| |done|done|].
    + exact (grown_dir s s1 root Hg).
    + intros va'. by apply grown_view.
Qed.

(** C3: [MapPage] on a well-formed directory always returns.  On success the page
    of [va] translates to [pa] with the attributes of [flags] and every other
    page translates as before.  It asks the heap for at most as many pages as the
    walk for [va] misses tables: the only failure is [kVmMapFailed], it happens
    only if the heap refuses one of that many requests (so never when the tables
    are there already), and then no translation has changed.  The directory stays
    well-formed (whole, unaliased, allocated tables) either way. *)
Theorem map_page_updates_one_page s root va pa flags :
  dir_ok s root -> 0 <= va < 2 ^ 64 -> 0 <= pa < phys_limit -> pa mod 4096 = 0 ->
  0 <= flags < 2 ^ 32 ->
  exists s' r, MapPage root va pa flags s = Ret s' r /\ dir_ok s' root /\
    match r with
    | Value _ => drew (missing (memory s) top root va) (alloc_state s) (alloc_state s') /\
        forall va', 0 <= va' < 2 ^ 64 ->
          view s' root va' = if page_of va' =? page_of va then mapped_page flags pa else view s root va'
    | Unexpected e => e = kVmMapFailed /\
        refuses_within (missing (memory s) top root va) (alloc_state s) = true /\
        forall va', view s' root va' = view s root va'
    end.
Proof.
  intros. destruct (map_page_run s root va pa flags) as (s' & r & ? & ? & _ & Ha & Hm); eauto.
  exists s', r. split_and!; [done|done|]. destruct r; [done|]. by destruct Hm as [-> ?].
Qed.

Lemma view_lookup s root va :
  dir_ok s root -> 0 <= va < 2 ^ 64 ->
  match slot (memory s) top root va with
  | Some (t, i) => exists ws w, memory s !! t = Some ws /\ ws !! i = Some w /\ (i < length ws)%nat /\
      load t i s = Ret s w /\ view s root va = (if valid w then Some (translation w) else None)
  | None => view s root va = None
  end.
Proof.
  intros Hok Hv. destruct (slot (memory s) top root va) as [[t i]|] eqn:Hsl.
  - destruct (slot_run s root va t i Hok Hv Hsl) as (ws & w & H1 & H2 & H3 & H4 & H5).
    exists ws, w. split_and!; try done. unfold view, translate. rewrite H5. by destruct (valid w).
  - unfold view, translate. by rewrite walk_slot, Hsl.
Qed.

Lemma get_mapping_run s root va :
  dir_ok s root -> 0 <= va < 2 ^ 64 ->
  GetMapping root va s =
    Ret s (match view s root va with
           | Some (pa, _) => Value pa | None => Unexpected kVmPageNotMapped end).
Proof.
  intros Hok Hv. pose proof (view_lookup s root va Hok Hv) as Hl.
  unfold GetMapping, FindPageTableEntry, bind, nk_assert_msg. fold top.
  rewrite (dir_nonnull s root Hok). cbn [negb].
  rewrite (find_lookup s top root va Hok Hv top_lt).
  destruct (slot (memory s) top root va) as [[t i]|]; [|by rewrite Hl].
  destruct Hl as (ws & w & Ht & Hi & Hlt & Hld & Hvw).
  rewrite Hld, Hvw. by destruct (valid w).
Qed.

Lemma unmap_page_run s root va :
  dir_ok s root -> 0 <= va < 2 ^ 64 ->
  match view s root va with
  | Some _ => exists s', UnmapPage root va s = Ret s' (Value tt) /\ dir_ok s' root /\
      tlb_flushes s' = tlb_flushes s + 1 /\
      forall va', 0 <= va' < 2 ^ 64 ->
        view s' root va' = if page_of va' =? page_of va then None else view s root va'
  | None => UnmapPage root va s = Ret s (Unexpected kVmPageNotMapped)
  end.
Proof.
  intros Hok Hv. pose proof (view_lookup s root va Hok Hv) as Hl.
  unfold UnmapPage, FindPageTableEntry, bind, nk_assert_msg. fold top.
  rewrite (dir_nonnull s root Hok). cbn [negb].
  rewrite (find_lookup s top root va Hok Hv top_lt).
  destruct (slot (memory s) top root va) as [[t i]|] eqn:Hsl; [|by rewrite Hl].
  destruct Hl as (ws & w & Ht & Hi & Hlt & Hld & Hvw).
  rewrite Hld, Hvw. destruct (valid w) eqn:Hw; simpl; [|done].
  rewrite (store_run s t i ws) by done.
  destruct (view_update s root va t i ws 0 Hok Hv Hsl Ht Hlt) as (Hok' & Hv').
  rewrite invalid_zero in Hv'. eexists. split; [reflexivity|].
  split; [exact Hok'|]. split; [done|exact Hv'].
Qed.

(** C17: [GetMapping] returns the physical address of the page the MMU would use
    and [kVmPageNotMapped] when there is none, and changes nothing; [UnmapPage]
    removes exactly that page (flushing the TLB once) and otherwise reports
    [kVmPageNotMapped] with the state unchanged. *)
Theorem lookup_and_unmap s root va :
  dir_ok s root -> 0 <= va < 2 ^ 64 ->
  GetMapping root va s =
    Ret s (match view s root va with
           | Some (pa, _) => Value pa | None => Unexpected kVmPageNotMapped end) /\
  match view s root va with
  | Some _ => exists s', UnmapPage root va s = Ret s' (Value tt) /\ dir_ok s' root /\
      tlb_flushes s' = tlb_flushes s + 1 /\
      forall va', 0 <= va' < 2 ^ 64 ->
        view s' root va' = if page_of va' =? page_of va then None else view s root va'
  | None => UnmapPage root va s = Ret s (Unexpected kVmPageNotMapped)
  end.
Proof. intros Hok Hv. split; [by apply get_mapping_run | by apply unmap_page_run]. Qed.

End props.

(** ** A concrete heap *)

(** Blocks are handed out from a list, which runs dry. *)
Record Pool := MkPool { pool : list Z; pool_live : gset Z }.

#[export] Instance pool_allocator : PageAllocator Pool := {
  pa_alloc a :=
    match pool a with
    | p :: r => if bool_decide (p ∉ pool_live a) && (0 <? p) && (p <? 2 ^ 48) && (p mod 4096 =? 0)
                then (Some (p, replicate kEntriesPerTable 3405691582), MkPool r ({[p]} ∪ pool_live a))
                else (None, a)
    | [] => (None, a)
    end;
  pa_free p a := MkPool (pool a) (pool_live a ∖ {[p]});
  pa_live := pool_live
}.

Lemma pool_laws limit : 2 ^ 48 <= limit -> PageAllocatorLaws Pool limit.
Proof.
  intros Hl. split.
  - intros a a' p ws. simpl. destruct (pool a) as [|q r]; [done|].
    destruct (bool_decide _ && _ && _ && _) eqn:E; [|done]. bool_cases. intros [= <- <- <-].
    rewrite length_replicate. split_and!; done || lia.
  - intros a a'. simpl. destruct (pool a) as [|q r]; [congruence|].
    destruct (bool_decide _ && _ && _ && _); congruence.
  - done.
Qed.

#[export] Instance pool_laws_riscv64 : PageAllocatorLaws Pool (@phys_limit _ riscv64_laws).
Proof. apply pool_laws. simpl. lia. Qed.

(** An empty riscv64 directory at 0x80000000 and a heap of [n] more pages. *)
Definition sample_root : Z := 2147483648.
Definition sample_vm (n : nat) : Vm Pool :=
  MkVm {[ sample_root := replicate kEntriesPerTable 0 ]}
    (MkPool ((fun i => sample_root + 4096 * Z.of_nat (S i)) <$> seq 0 n) {[ sample_root ]})
    0 sample_root.

Lemma sample_vm_ok n : dir_ok (sample_vm n) sample_root.
Proof.
  destruct (zero_table (memory (sample_vm n)) top sample_root) as (T & S & _).
  { apply lookup_singleton_eq. }
  split_and!; [done|rewrite T; apply NoDup_singleton|].
  rewrite T. intros q ->%list_elem_of_singleton. split; [|done]. simpl. set_solver.
Qed.

(** Two pages are enough for the two tables of the first mapping; with one the
    call fails. *)
Lemma map_page_updates_one_page_witness :
  (exists s', MapPage sample_root 4096 8192 7 (sample_vm 2) = Ret s' (Value tt) /\ dir_ok s' sample_root /\
     view s' sample_root 5000 = Some (8192, 7)) /\
  exists s', MapPage sample_root 4096 8192 7 (sample_vm 1) = Ret s' (Unexpected kVmMapFailed) /\
    forall va, view s' sample_root va = view (sample_vm 1) sample_root va.
Proof.
  split.
  - destruct (map_page_updates_one_page (sample_vm 2) sample_root 4096 8192 7)
      as (s' & [[]|e] & Hr & Hok & Hm); [apply sample_vm_ok|lia|simpl; lia|done|lia| |].
    + exists s'. split; [exact Hr|]. split; [exact Hok|]. destruct Hm as [_ Hm]. rewrite Hm by lia. vm_compute. reflexivity.
    + destruct Hm as (_ & Hm & _). vm_compute in Hm. discriminate Hm.
  - destruct (map_page_updates_one_page (sample_vm 1) sample_root 4096 8192 7)
      as (s' & [[]|e] & Hr & Hok & Hm); [apply sample_vm_ok|lia|simpl; lia|done|lia| |].
    + exfalso. assert (match MapPage sample_root 4096 8192 7 (sample_vm 1) with Ret _ (Value _) => False | _ => True end) as G
        by (vm_compute; exact I).
      rewrite Hr in G. exact G.
    + destruct Hm as (-> & _ & Hm). exists s'. split; [exact Hr|exact Hm].
Defined.

Lemma lookup_and_unmap_witness :
  GetMapping sample_root 4096 (sample_vm 0) = Ret (sample_vm 0) (Unexpected kVmPageNotMapped).
Proof.
  destruct (lookup_and_unmap (sample_vm 0) sample_root 4096) as [E _]; [apply sample_vm_ok|lia|].
  etransitivity; [exact E|]. reflexivity.
Defined.

(** Mapping, looking up and unmapping a page of the sample directory. *)
Example map_then_get :
  match MapPage sample_root 4096 8192 7 (sample_vm 2) with
  | Ret s (Value _) =>
      match GetMapping sample_root 4100 s, GetMapping sample_root 8192 s with
      | Ret _ a, Ret _ b => (a, b) = (Value 8192, Unexpected kVmPageNotMapped)
      | _, _ => False
      end
  | _ => False
  end.
Proof. vm_compute. reflexivity. Qed.

End VmProps.
