(* ===== verification/VmBoot.v ===== *)
(** * Virtual memory: identity mappings and the boot directory

    [MapMMIO], the constructor of [VirtualMemory], and the translation that the
    riscv64 MMU performs once [InitCurrentCore] has run. *)

From stdpp Require Import base numbers list gmap sets strings.
From Stdlib Require Import ZArith Lia.
From S2P Require Import Prelude Errors Csr Riscv64 Paging VirtualMemory VmInv VmProps.
Import VirtualMemory VmInv VmProps.

Local Open Scope Z_scope.
#[local] Opaque kEntriesPerTable.

Module VmBoot.

Section mmio.
Context {P : Paging} {L : PagingLaws P} {A : Type} {H : PageAllocator A}.
Context {HA : PageAllocatorLaws A phys_limit}.
Implicit Types (s : Vm A) (root va pa flags : Z).

(** Addresses below this bound have pages of their own. *)
Definition va_limit : Z := Z.min (2 ^ 64) (4096 * 512 ^ Z.of_nat levels).

Lemma page_of_small va : 0 <= va < va_limit -> page_of va = va / 4096.
Proof.
  unfold va_limit. intros Hv. unfold page_of. apply Z.mod_small. split; [apply Z.div_pos; lia|].
  apply Z.div_lt_upper_bound; lia.
Qed.

(** The pages of [lo, hi) mapped to themselves, over what was there. *)
Definition identity_over (lo hi flags : Z) (old : option (Z * Z)) va : option (Z * Z) :=
  if (lo <=? va) && (va <? hi) then mapped_page flags (va / 4096 * 4096) else old.

Lemma identity_over_nil lo flags old va : identity_over lo lo flags old va = old.
Proof. unfold identity_over. destruct (Z.leb_spec lo va), (Z.ltb_spec va lo); done || lia. Qed.

(** One page of the range, then the rest. *)
Lemma identity_over_step addr stop flags old va :
  0 <= va < va_limit -> 0 <= addr < va_limit -> addr mod 4096 = 0 -> addr + 4096 <= stop ->
  identity_over (addr + 4096) stop flags
    (if page_of va =? page_of addr then mapped_page flags addr else old) va =
  identity_over addr stop flags old va.
Proof.
  intros Hv Ha Hm Hs. rewrite !page_of_small by done. unfold identity_over.
  pose proof (Z.div_mod addr 4096). pose proof (Z.div_mod va 4096).
  pose proof (Z.mod_pos_bound va 4096).
  destruct (Z.eqb_spec (va / 4096) (addr / 4096)) as [E | E].
  - rewrite E. replace (addr / 4096 * 4096) with addr by lia.
    destruct (Z.leb_spec (addr + 4096) va), (Z.leb_spec addr va), (Z.ltb_spec va stop); simpl;
      done || lia.
  - destruct (Z.leb_spec (addr + 4096) va), (Z.leb_spec addr va), (Z.ltb_spec va stop); simpl;
      done || nia.
Qed.

Lemma mmio_loop_run fuel s root addr end_page flags :
  dir_ok s root -> kernel_page_dir_ s = root -> 0 <= flags < 2 ^ 32 ->
  0 <= addr <= end_page -> addr mod 4096 = 0 -> end_page mod 4096 = 0 ->
  end_page <= Z.min va_limit phys_limit -> end_page < 2 ^ 64 ->
  end_page - addr <= 4096 * Z.of_nat fuel ->
  exists s' r, mmio_loop fuel addr end_page flags s = Ret s' r /\ dir_ok s' root /\
    kernel_page_dir_ s' = root /\
    exists stop, addr <= stop <= end_page /\
    (forall va, 0 <= va < va_limit ->
       view s' root va = identity_over addr stop flags (view s root va) va) /\
    asked (top * fuel) s s' r /\
    match r with
    | Value _ => stop = end_page
    | Unexpected e => e = kVmMapFailed /\ stop < end_page
    end.
Proof.
  revert s addr. induction fuel as [|fuel IH]; intros s addr Hok Hd Hf Ha Hm He Hl Hw Hfu;
    cbn [mmio_loop]; destruct (Z.ltb_spec addr end_page) as [Hlt | Hge]; [lia| | |].
  1, 3: exists s, (inl tt); split_and!; [done|done|done|]; exists addr;
    split_and!; [lia|lia|intros va Hv; by rewrite identity_over_nil|apply drew_nil|lia].
  unfold bind at 1, gets. rewrite Hd.
  destruct (map_page_run s root addr addr flags) as (s1 & r & Hr & Hok1 & Hd1 & Hq1 & Hv1);
    [done|lia|lia|done|done|].
  pose proof (missing_le (memory s) top root addr) as Hmis.
  unfold bind at 1. rewrite Hr. destruct r as [[] | e].
  - assert (addr + 4096 <= end_page) as Hstep.
    { pose proof (Z.div_mod addr 4096). pose proof (Z.div_mod end_page 4096). lia. }
    rewrite u64_small by (unfold kPageSize; lia).
    destruct (IH s1 (addr + kPageSize)) as (s' & r & Hr' & Hok' & Hd' & stop & Hs & Hvw & Hq & Hm');
      unfold kPageSize in *; try done; try lia; try congruence.
    { rewrite Z.add_mod, Hm by lia. done. }
    exists s', r. split_and!; [done|done|done|]. exists stop. split_and!; [lia|lia| | |done].
    + intros va Hv. rewrite (Hvw va Hv), Hv1 by (unfold va_limit in Hv; lia).
      apply identity_over_step; done || lia.
    + rewrite Nat.mul_succ_r, Nat.add_comm. apply (asked_seq top (top * fuel) s s1 s' tt); [|done].
      by apply (drew_mono _ top) in Hq1.
  - destruct Hv1 as (-> & Hsame). exists s1, (inr kVmMapFailed).
    split_and!; [done|done|congruence|]. exists addr. split_and!; [lia|lia| | |done|lia].
    + intros va Hv. by rewrite Hsame, identity_over_nil.
    + apply (refuses_mono (missing (memory s) top root addr)); [lia|done].
Qed.

(** The page-aligned end of a range, and its pages. *)
Definition range_end phys size : Z := (phys + size + 4095) / 4096 * 4096.
Definition range_pages phys size : nat := Z.to_nat ((range_end phys size - phys / 4096 * 4096) / 4096).

Lemma map_mmio_run s root phys size flags :
  dir_ok s root -> kernel_page_dir_ s = root -> 0 <= flags < 2 ^ 32 ->
  0 <= phys -> 0 <= size -> range_end phys size <= Z.min va_limit phys_limit ->
  range_end phys size < 2 ^ 64 ->
  exists s' r, MapMMIO phys size flags s = Ret s' r /\ dir_ok s' root /\
    kernel_page_dir_ s' = root /\
    exists stop, phys / 4096 * 4096 <= stop <= range_end phys size /\
    (forall va, 0 <= va < va_limit ->
       view s' root va = identity_over (phys / 4096 * 4096) stop flags (view s root va) va) /\
    asked (top * range_pages phys size) s s' r /\
    match r with
    | Value p => p = phys /\ stop = range_end phys size
    | Unexpected e => e = kVmMapFailed /\ stop < range_end phys size
    end.
Proof.
  intros Hok Hd Hf Hp Hs Hl Hw. unfold range_pages, range_end in *.
  pose proof (Z.div_mod (phys + size + 4095) 4096). pose proof (Z.mod_pos_bound (phys + size + 4095) 4096).
  pose proof (Z.div_mod phys 4096). pose proof (Z.mod_pos_bound phys 4096).
  unfold MapMMIO. rewrite (u64_small (phys + size)), align_spec, align_up_spec by lia.
  rewrite (proj2 (Z.leb_le (phys + size) _)) by lia.
  set (st := phys / 4096 * 4096). set (en := (phys + size + 4095) / 4096 * 4096).
  destruct (mmio_loop_run (Z.to_nat ((en - st) / kPageSize)) s root st en flags)
    as (s' & r & Hr & Hok' & Hd' & stop & Hst & Hv & Hq & Hm); subst st en; try done; try lia.
  - apply Z.mod_mul. lia.
  - apply Z.mod_mul. lia.
  - unfold kPageSize. rewrite Z2Nat.id by (apply Z.div_pos; lia).
    replace ((phys + size + 4095) / 4096 * 4096 - phys / 4096 * 4096)
      with (((phys + size + 4095) / 4096 - phys / 4096) * 4096) by lia.
    rewrite Z.div_mul by lia. lia.
  - unfold bind. rewrite Hr. destruct r as [[] | e].
    + exists s', (inl phys). split_and!; try done. exists stop. split_and!; done || lia.
    + exists s', (inr e). split_and!; try done. exists stop. split_and!; try done; try lia; apply Hm.
Qed.

(** [MapMMIO] always returns (its loop ends), and on success every page of
    the page-rounded range [phys_addr, phys_addr + size) translates to itself
    with the given attributes while the rest of the address space translates as
    before.  A refused allocation is reported as [kVmMapFailed], with a prefix of
    the range mapped.  The range must end below the last page of the 64-bit
    address space: past it the rounded end wraps to 0, nothing is mapped and
    success is reported. *)
Theorem map_mmio_identity s root phys size flags :
  dir_ok s root -> kernel_page_dir_ s = root -> 0 <= flags < 2 ^ 32 ->
  0 <= phys < 2 ^ 64 -> 0 <= size ->
  (range_end phys size <= Z.min va_limit phys_limit -> range_end phys size < 2 ^ 64 ->
   exists s' r, MapMMIO phys size flags s = Ret s' r /\ dir_ok s' root /\
     match r with
     | Value p => p = phys /\ forall va, 0 <= va < va_limit ->
         view s' root va =
           identity_over (phys / 4096 * 4096) (range_end phys size) flags (view s root va) va
     | Unexpected e => e = kVmMapFailed /\
         refuses_within (top * range_pages phys size) (alloc_state s) = true /\
         exists stop, stop < range_end phys size /\ forall va, 0 <= va < va_limit ->
           view s' root va = identity_over (phys / 4096 * 4096) stop flags (view s root va) va
     end) /\
  (2 ^ 64 - 4096 < phys + size <= 2 ^ 64 -> MapMMIO phys size flags s = Ret s (Value phys)).
Proof.
  intros Hok Hd Hf Hp Hs. split.
  - intros Hl Hw. destruct (map_mmio_run s root phys size flags)
      as (s' & r & Hr & Hok' & _ & stop & Hst & Hv & Hq & Hm); try done; try lia.
    exists s', r. split_and!; [done|done|]. destruct r as [p | e].
    + destruct Hm as [-> ->]. done.
    + destruct Hm as (-> & Hlt). split_and!; [done|done|]. by exists stop.
  - intros Hwr. unfold MapMMIO. rewrite align_spec by lia.
    assert (page_align_up (u64 (phys + size)) = 0) as ->.
    { rewrite align_up_spec by apply u64_range.
      destruct (decide (phys + size = 2 ^ 64)) as [-> | Hne]; [reflexivity|].
      rewrite u64_small by lia. by rewrite (proj2 (Z.leb_gt (phys + size) _)) by lia. }
    assert (0 <= phys / 4096) by (apply Z.div_pos; lia).
    unfold bind. destruct (Z.to_nat _); cbn [mmio_loop];
      rewrite (proj2 (Z.ltb_ge (phys / 4096 * 4096) 0)) by lia; done.
Qed.

(** The directory the constructor starts from. *)
Lemma fresh_directory s p ws a :
  pa_alloc (alloc_state s) = (Some (p, ws), a) ->
  let s' := set_memory (<[p := replicate kEntriesPerTable 0]> (memory s)) (set_dir p (set_alloc a s)) in
  dir_ok s' p /\ kernel_page_dir_ s' = p /\ (forall va, view s' p va = None) /\
  0 < p < phys_limit /\ p mod 4096 = 0.
Proof.
  intros Ha s'. destruct (alloc_some _ _ _ _ Ha) as (Hn & Hl & Hr & Hm & _).
  destruct (zero_table (memory s') top p) as (T & S & W); [apply lookup_insert_eq|].
  split_and!; try done; try lia.
  - split_and!; [done|rewrite T; apply NoDup_singleton|]. rewrite T.
    intros q ->%list_elem_of_singleton. simpl. rewrite Hl. split; [set_solver|].
    unfold nullptr. lia.
  - intros va. unfold view, translate. by rewrite W.
Qed.

Lemma ctor_run s phys size :
  0 <= phys -> 0 <= size -> range_end phys size <= Z.min va_limit phys_limit ->
  range_end phys size < 2 ^ 64 ->
  match VirtualMemory_ctor phys size s with
  | Ret s' _ =>
      let root := kernel_page_dir_ s' in
      dir_ok s' root /\ 0 < root < phys_limit /\ root mod 4096 = 0 /\
      drew (1 + top * range_pages phys size) (alloc_state s) (alloc_state s') /\
      forall va, 0 <= va < va_limit ->
        view s' root va =
          identity_over (phys / 4096 * 4096) (range_end phys size) kernel_permissions None va
  | Halt _ why => refuses_within (1 + top * range_pages phys size) (alloc_state s) = true /\
      (why = AssertFailed "Failed to allocate kernel page directory" \/ why = Parked)
  end.
Proof.
  intros Hp Hs Hl Hw. unfold VirtualMemory_ctor. unfold bind at 1, aligned_alloc.
  destruct (pa_alloc (alloc_state s)) as [[[p ws]|] a] eqn:Ha.
  - destruct (fresh_directory s p ws a Ha) as (Hok & Hd & Hv & Hr & Hm).
    unfold bind at 1, modify. unfold bind at 1, nk_assert_msg.
    rewrite (proj2 (Z.eqb_neq p nullptr)) by (unfold nullptr; lia). cbn [negb].
    unfold bind at 1, clear_page. cbn [memory set_memory set_dir]. rewrite lookup_insert_eq.
    cbn [memory set_memory]. rewrite insert_insert_eq.
    match type of Hok with dir_ok ?x _ => set (s1 := x) in * end.
    match goal with |- context [bind (MapMMIO _ _ _) _ ?x] => change x with s1 end.
    assert (alloc_state s1 = a) as Ea by done. clearbody s1. destruct kernel_valid as [_ Hf].
    destruct (map_mmio_run s1 p phys size kernel_permissions)
      as (s' & r & Hr' & Hok' & Hd' & stop & Hst & Hv' & Hq & Hm'); try done.
    unfold bind. rewrite Hr'. destruct r as [q | e].
    + simpl. rewrite Hd'. split_and!; try done; try lia.
      { apply (drew_trans 1 _ _ a); [by eapply took_one|]. by rewrite <- Ea. }
      intros va Hva. destruct Hm' as [_ <-]. by rewrite (Hv' va Hva), Hv.
    + split; [|by right]. apply (drew_refuses 1 _ _ a); [by eapply took_one|]. by rewrite <- Ea.
  - split; [|by left]. apply refuses_now; [by rewrite Ha|lia].
Qed.

End mmio.

(** ** The entries of a directory *)

Section wired.
Context {P : Paging} {L : PagingLaws P} {A : Type} {H : PageAllocator A}.
Context {HA : PageAllocatorLaws A phys_limit}.
Implicit Types (s : Vm A) (m : gmap Z (list Z)) (l : nat) (p w root va pa flags : Z).

(** An entry for a page, and one for a table. *)
Definition leaf_entry w : Prop :=
  exists pa flags, 0 <= pa < phys_limit /\ pa mod 4096 = 0 /\ 0 <= flags < 2 ^ 32 /\ w = pte_of pa flags.
Definition table_entry w : Prop :=
  exists pa, 0 <= pa < phys_limit /\ pa mod 4096 = 0 /\ w = pte_of pa table_permissions.

(** Every valid word of the tree is an entry of the kind its level asks for. *)
Fixpoint wired m l p : Prop :=
  forall ws i w, m !! p = Some ws -> ws !! i = Some w -> valid w = true ->
    match l with O => leaf_entry w | S l' => table_entry w /\ wired m l' (pa_of w) end.

Lemma wired_ext m m' l p : (forall q, q ∈ tables m l p -> m' !! q = m !! q) -> wired m l p -> wired m' l p.
Proof.
  revert p. induction l as [|l IH]; intros p He Hw ws i w Hp Hi Hv;
    rewrite (He p (tables_root _ _ _)) in Hp; [by apply (Hw ws i)|].
  destruct (Hw ws i w Hp Hi Hv) as [Ht Hk]. split; [done|]. apply IH; [|done].
  intros q Hq. apply He. by eapply kid_in.
Qed.

Lemma wired_zero m l p : m !! p = Some (replicate kEntriesPerTable 0) -> wired m l p.
Proof.
  intros Hz. destruct l; intros ws i w Hp Hi Hv; exfalso; rewrite Hz in Hp; injection Hp as <-;
    apply lookup_replicate in Hi as [-> _]; by rewrite invalid_zero in Hv.
Qed.

(** A child that grew. *)
Lemma wired_child s s' l p ws i w :
  tables_ok s (S l) p -> memory s !! p = Some ws -> ws !! i = Some w -> valid w = true ->
  grown s s' l (pa_of w) -> wired (memory s) (S l) p -> wired (memory s') l (pa_of w) ->
  wired (memory s') (S l) p.
Proof.
  intros (Hs & Hn & Hl) Hp Hi Hv [n G] Hw Hw' ws' j e Hp' Hj Hve.
  destruct (kid_NoDup _ l p ws i w Hn Hp Hi Hv) as (_ & Hpn & Hsib).
  assert (forall q, q ∈ tables (memory s) (S l) p -> q ∉ n) as Hnew.
  { intros q Hq Hqn. apply (proj1 (g_fresh _ _ _ _ _ G q Hqn)), Hl, Hq. }
  rewrite (g_frame _ _ _ _ _ G) in Hp' by (done || apply Hnew, tables_root).
  rewrite Hp in Hp'. injection Hp' as <-. destruct (Hw ws j e Hp Hj Hve) as [Ht Hk]. split; [done|].
  destruct (decide (j = i)) as [->|Hne]; [by rewrite Hi in Hj; injection Hj as <-|].
  eapply wired_ext; [|exact Hk]. intros q Hq. apply (g_frame _ _ _ _ _ G); [|apply Hnew; by eapply kid_in].
  intros Hq'. apply Hne. symmetry. by eapply Hsib.
Qed.

(** A walk that adds tables. *)
Lemma wired_find s l p va s' r :
  tables_ok s l p -> 0 <= va < 2 ^ 64 -> (l < levels)%nat -> wired (memory s) l p ->
  find_loop l p va true s = Ret s' r -> wired (memory s') l p.
Proof.
  intros Hok Hv. revert s p Hok. induction l as [|l IH]; intros s p Hok Hl Hw E.
  { by injection E as <- <-. }
  destruct (entry_run s (S l) p va) as (ws & w & Hp & Hi & Hlen & Hld); [apply Hok|done|done|].
  cbn [find_loop] in E. fold (index va (S l)) in E. unfold bind at 1 in E. rewrite Hld in E.
  destruct (valid w) eqn:Hvw.
  - assert (tables_ok s l (pa_of w)) as Hk by (by eapply child_ok).
    destruct (find_allocate s l (pa_of w) va Hk Hv ltac:(lia)) as (s1 & r1 & E1 & Hg & _).
    rewrite E in E1. injection E1 as <- <-. eapply wired_child; eauto.
    eapply IH; eauto; [lia|]. by apply (Hw ws _ w Hp Hi Hvw).
  - unfold bind at 1, aligned_alloc at 1 in E.
    destruct (pa_alloc (alloc_state s)) as [[[c ws0]|] a] eqn:Ha; [|by injection E as <- <-].
    destruct (grown_entry s l p ws _ w c a ws0 Hok Hp Hi Hvw Ha) as (Hv' & Hpa & Hc0 & Hcp & Hg & Hok').
    destruct (alloc_some _ _ _ _ Ha) as (Hcf & _ & Hcr & Hcm & _).
    rewrite (proj2 (Z.eqb_neq c nullptr)) in E by done.
    unfold bind at 1, clear_page at 1 in E. cbn [memory set_memory] in E. rewrite lookup_insert_eq in E.
    unfold bind at 1 in E. rewrite (store_run _ p (index va (S l)) ws) in E;
      [|cbn [memory set_memory]; by rewrite !lookup_insert_ne|rewrite Hlen; by apply index_lt].
    cbn [memory set_memory] in E. rewrite insert_insert_eq in E.
    match type of E with find_loop l c va true ?x = _ => set (s1 := x) in E end.
    match type of Hok' with tables_ok ?x _ _ => change x with s1 in Hg, Hok' end.
    assert (memory s1 !! p = Some (<[index va (S l) := pte_of c table_permissions]> ws)) as Hp1
      by apply lookup_insert_eq.
    assert (memory s1 !! c = Some (replicate kEntriesPerTable 0)) as Hc1
      by (cbn; rewrite lookup_insert_ne by done; apply lookup_insert_eq).
    assert (forall q, q <> p -> q <> c -> memory s1 !! q = memory s !! q) as Hq1
      by (intros q H1 H2; cbn; by rewrite !lookup_insert_ne).
    clearbody s1. assert (tables_ok s1 (S l) p) as Hok1 by (by eapply grown_ok).
    set (e := pte_of c table_permissions) in *.
    assert ((<[index va (S l) := e]> ws) !! index va (S l) = Some e) as Hi1
      by (apply list_lookup_insert_eq; by eapply lookup_lt_Some).
    destruct (find_allocate s1 l c va Hok' Hv ltac:(lia)) as (s2 & r2 & E2 & Hg2 & _).
    rewrite E in E2. injection E2 as <- <-. rewrite <- Hpa in Hg2, Hok', E.
    eapply wired_child; [exact Hok1|exact Hp1|exact Hi1|done|exact Hg2| |].
    + intros ws' j x Hp' Hj Hvx. rewrite Hp1 in Hp'. injection Hp' as <-.
      destruct (decide (j = index va (S l))) as [->|Hne].
      * rewrite Hi1 in Hj. injection Hj as <-. split; [exists c; split_and!; done || lia|].
        rewrite Hpa. by apply wired_zero.
      * rewrite list_lookup_insert_ne in Hj by done. destruct (Hw ws j x Hp Hj Hvx) as [Ht Hk]. split; [done|].
        eapply wired_ext; [|exact Hk]. intros q Hq. destruct Hok as (_ & Hn & Hlv).
        destruct (kid_NoDup _ l p ws j x Hn Hp Hj Hvx) as (_ & Hpn & _).
        apply Hq1; [by intros ->|]. intros ->. apply Hcf, Hlv. by eapply kid_in.
    + eapply IH; [exact Hok'|lia| |exact E]. rewrite Hpa. by apply wired_zero.
Qed.

(** A leaf entry that is written. *)
Lemma wired_store m l p va t i ws w :
  NoDup (tables m l p) -> slot m l p va = Some (t, i) -> m !! t = Some ws ->
  leaf_entry w -> wired m l p -> wired (<[t := <[i := w]> ws]> m) l p.
Proof.
  intros Hn Hsl Ht Hw. revert p Hn Hsl. induction l as [|l IH]; intros p Hn Hsl Hwd ws' j e Hp Hj Hve.
  - injection Hsl as <- <-. rewrite lookup_insert_eq in Hp. injection Hp as <-.
    apply list_lookup_insert_Some in Hj as [(_ & <- & _)|(_ & Hj)]; [done|by apply (Hwd ws j)].
  - pose proof Hsl as Hsl'. cbn [slot] in Hsl. unfold entry in Hsl.
    destruct (m !! p) as [ks|] eqn:Hpm; [|done]. cbn in Hsl.
    destruct (ks !! index va (S l)) as [x|] eqn:Hi; [|done]. cbn in Hsl. destruct (valid x) eqn:Hvx; [|done].
    destruct (kid_NoDup m l p ks _ x Hn Hpm Hi Hvx) as (Hd & Hpn & Hsib). pose proof (slot_in _ _ _ _ _ _ Hsl) as Hin.
    rewrite lookup_insert_ne in Hp by (by intros ->). rewrite Hpm in Hp. injection Hp as <-.
    destruct (Hwd ks j e Hpm Hj Hve) as [Hte Hk]. split; [done|].
    destruct (decide (j = index va (S l))) as [->|Hne]; [rewrite Hi in Hj; injection Hj as <-; by apply IH|].
    eapply wired_ext; [|exact Hk]. intros q Hq. apply lookup_insert_ne. intros ->. apply Hne. symmetry. by eapply Hsib.
Qed.

Lemma map_page_wired s root va pa flags s' r :
  dir_ok s root -> 0 <= va < 2 ^ 64 -> 0 <= pa < phys_limit -> pa mod 4096 = 0 -> 0 <= flags < 2 ^ 32 ->
  wired (memory s) top root -> MapPage root va pa flags s = Ret s' r -> wired (memory s') top root.
Proof.
  intros Hok Hv Hp Ha Hf Hw. destruct (find_top s root va Hok Hv) as (s1 & r1 & Hr & _ & Hok1 & _ & Hm).
  assert (wired (memory s1) top root) as Hw1 by (eapply wired_find; [exact Hok|exact Hv|apply top_lt|exact Hw|exact Hr]).
  unfold MapPage. unfold bind at 1, nk_assert_msg. rewrite (dir_nonnull s root Hok). cbn [negb].
  unfold bind at 1. rewrite Hr. destruct r1 as [[t i]|e]; [|by intros [= <- <-]].
  destruct (slot_run s1 root va t i Hok1 Hv Hm) as (ws & w & Ht & Hi & Hlt & Hld & _).
  unfold bind at 1. rewrite Hld. destruct (valid w && _); [by intros [= <- <-]|].
  unfold bind at 1. rewrite (store_run s1 t i ws) by done. cbn [bind FlushTLBAll modify ret]. intros [= <- <-].
  cbn [memory set_memory]. destruct Hok1 as (_ & Hn1 & _). eapply wired_store; [done|exact Hm|done| |done].
  by exists pa, flags.
Qed.

Lemma mmio_loop_wired fuel : forall s root addr end_page flags s' r,
  dir_ok s root -> kernel_page_dir_ s = root -> 0 <= flags < 2 ^ 32 -> 0 <= addr -> addr mod 4096 = 0 ->
  end_page <= phys_limit -> end_page < 2 ^ 64 -> end_page mod 4096 = 0 ->
  wired (memory s) top root -> mmio_loop fuel addr end_page flags s = Ret s' r -> wired (memory s') top root.
Proof.
  induction fuel as [|fuel IH]; intros s root addr end_page flags s' r Hok Hd Hf Ha Hm Hl He Hem Hw E; cbn [mmio_loop] in E;
    destruct (Z.ltb_spec addr end_page) as [Hlt|_]; try done; try (by injection E as <- <-).
  unfold bind at 1, gets in E. rewrite Hd in E.
  destruct (map_page_run s root addr addr flags) as (s1 & r1 & E1 & Hok1 & Hd1 & _); [done|lia|lia|done|done|].
  assert (wired (memory s1) top root) as Hw1 by (eapply (map_page_wired s root addr addr flags); done || lia).
  unfold bind at 1 in E. rewrite E1 in E. destruct r1 as [u|e]; [|by injection E as <- <-].
  assert (addr + 4096 <= end_page) by (pose proof (Z.div_mod addr 4096); pose proof (Z.div_mod end_page 4096); lia).
  rewrite u64_small in E by (unfold kPageSize; lia). unfold kPageSize in E.
  eapply IH; [exact Hok1|congruence|exact Hf| | |exact Hl|exact He|exact Hem|exact Hw1|exact E]; [lia|].
  by rewrite Z.add_mod, Hm by lia.
Qed.

Lemma map_mmio_wired s root phys size flags s' r :
  dir_ok s root -> kernel_page_dir_ s = root -> 0 <= flags < 2 ^ 32 -> 0 <= phys -> 0 <= size ->
  range_end phys size <= phys_limit -> range_end phys size < 2 ^ 64 ->
  wired (memory s) top root -> MapMMIO phys size flags s = Ret s' r -> wired (memory s') top root.
Proof.
  intros Hok Hd Hf Hp Hs Hl Hw Hwd. unfold range_end in *.
  pose proof (Z.div_mod (phys + size + 4095) 4096). pose proof (Z.mod_pos_bound (phys + size + 4095) 4096).
  pose proof (Z.div_mod phys 4096). pose proof (Z.mod_pos_bound phys 4096).
  unfold MapMMIO. rewrite (u64_small (phys + size)), align_spec, align_up_spec by lia.
  rewrite (proj2 (Z.leb_le (phys + size) _)) by lia. unfold bind.
  destruct (mmio_loop _ _ _ _ s) as [s1 r1|] eqn:E; [|done]. intros Er.
  assert (memory s1 = memory s') as <- by (destruct r1; by injection Er as <- <-).
  eapply mmio_loop_wired; [exact Hok|exact Hd|exact Hf| | | | | |exact Hwd|exact E]; try lia; apply Z.mod_mul; lia.
Qed.

(** The directory that the constructor builds. *)
Lemma ctor_wired s phys size s' u :
  0 <= phys -> 0 <= size -> range_end phys size <= Z.min va_limit phys_limit -> range_end phys size < 2 ^ 64 ->
  VirtualMemory_ctor phys size s = Ret s' u -> wired (memory s') top (kernel_page_dir_ s').
Proof.
  intros Hp Hs Hl Hw. unfold VirtualMemory_ctor. unfold bind at 1, aligned_alloc.
  destruct (pa_alloc (alloc_state s)) as [[[p ws]|] a] eqn:Ha; [|done].
  destruct (fresh_directory s p ws a Ha) as (Hok & Hd & Hv & Hr & Hm).
  unfold bind at 1, modify. unfold bind at 1, nk_assert_msg.
  rewrite (proj2 (Z.eqb_neq p nullptr)) by (unfold nullptr; lia). cbn [negb].
  unfold bind at 1, clear_page. cbn [memory set_memory set_dir]. rewrite lookup_insert_eq.
  cbn [memory set_memory]. rewrite insert_insert_eq.
  match type of Hok with dir_ok ?x _ => set (s1 := x) in * end.
  match goal with |- context [bind (MapMMIO _ _ _) _ ?x] => change x with s1 end.
  assert (wired (memory s1) top p) as Hw1 by (apply wired_zero, lookup_insert_eq). clearbody s1.
  destruct (map_mmio_run s1 p phys size kernel_permissions Hok Hd (proj2 kernel_valid) Hp Hs Hl Hw)
    as (s2 & r & E & _ & Hd2 & _).
  unfold bind. rewrite E. destruct r as [q|e]; [|done]. intros [= <- _]. rewrite Hd2.
  apply (map_mmio_wired s1 p phys size kernel_permissions s2 (inl q)); try done; [apply kernel_valid|lia].
Qed.

End wired.

(** ** The riscv64 MMU *)

(** Address translation as the RISC-V privileged architecture defines it for
    supervisor mode with SUM = 0, in terms of bit positions only.  [None] is a
    page fault.  [ad] says whether the hardware sets the A and D bits itself; if
    not, an access that needs them set faults. *)

Inductive Access := Fetch | Load | Store.

Definition field (w lo n : Z) : Z := (w / 2 ^ lo) mod 2 ^ n.

(** Bits 63 to 39 equal bit 38. *)
Definition canonical (va : Z) : bool := (field va 38 26 =? 0) || (field va 38 26 =? 2 ^ 26 - 1).

Definition permits (acc : Access) (pte : Z) : bool :=
  match acc with Fetch => Z.testbit pte 3 | Load => Z.testbit pte 1 | Store => Z.testbit pte 2 end.

(** A leaf: its permissions, U = 0, the A bit and for a store the D bit. *)
Definition allows (ad : bool) (acc : Access) (pte : Z) : bool :=
  permits acc pte && negb (Z.testbit pte 4) &&
  (ad || Z.testbit pte 6 && match acc with Store => Z.testbit pte 7 | _ => true end).

(** The table at [a] is the one of level [i]. *)
Fixpoint sv39 (ad : bool) (m : gmap Z (list Z)) (acc : Access) (va a : Z) (i : nat) : option Z :=
  pte ← m !! a ≫= (.!! Z.to_nat (field va (12 + 9 * Z.of_nat i) 9));
  let ppn := field pte 10 44 in
  if negb (Z.testbit pte 0) || negb (Z.testbit pte 1) && Z.testbit pte 2 || negb (field pte 54 10 =? 0) then None
  else if Z.testbit pte 1 || Z.testbit pte 3 then
    if allows ad acc pte && (ppn mod 2 ^ (9 * Z.of_nat i) =? 0)
    then Some (ppn * 4096 + va mod 2 ^ (12 + 9 * Z.of_nat i)) else None
  else if Z.testbit pte 4 || Z.testbit pte 6 || Z.testbit pte 7 then None
  else match i with O => None | S i' => sv39 ad m acc va (ppn * 4096) i' end.

(** The mode of [satp] is 0 (no translation) or 8 (Sv39); the others are not
    implemented. *)
Definition mmu (ad : bool) (satp : Z) (m : gmap Z (list Z)) (acc : Access) (va : Z) : option Z :=
  if field satp 60 4 =? 0 then Some va
  else if field satp 60 4 =? 8 then
    if canonical va then sv39 ad m acc va (field satp 0 44 * 4096) 2 else None
  else None.

(** The bits of an entry that the code makes. *)
Lemma entry_bits pa flags :
  0 <= pa < 2 ^ 56 -> pa mod 4096 = 0 -> 0 <= flags < 2 ^ 32 ->
  let w := Riscv64.PhysicalToPageTableEntry pa flags in
  field w 10 44 * 4096 = pa /\ field w 54 10 = 0 /\ forall i, 0 <= i < 10 -> Z.testbit w i = Z.testbit flags i.
Proof.
  intros Hp Ha Hf w.
  assert (forall i, 0 <= i -> Z.testbit w i = if i <? 10 then Z.testbit flags i else Z.testbit pa (i - 10 + 12)) as Hb.
  { intros i Hi. unfold w, Riscv64.PhysicalToPageTableEntry. apply testbit_pte; [done|unfold Csr.word; lia|done]. }
  assert (forall i, 56 <= i -> Z.testbit pa i = false) as Hhi.
  { intros i Hi. destruct (decide (pa = 0)) as [->|]; [apply Z.testbit_0_l|]. apply Z.bits_above_log2; [lia|].
    assert (Z.log2 pa < 56) by (apply Z.log2_lt_pow2; lia). lia. }
  split_and!.
  - unfold field. rewrite <- (Z.shiftr_div_pow2 w), <- Z.land_ones by lia. change 4096 with (2 ^ 12). rewrite <- Z.shiftl_mul_pow2 by lia.
    apply Z.bits_inj'. intros i Hi. destruct (Z.ltb_spec i 12) as [Hlt|Hge].
    + rewrite Z.shiftl_spec_low by lia. symmetry. by apply (mod_bits pa 12).
    + rewrite Z.shiftl_spec, Z.land_spec, Z.shiftr_spec, Z.testbit_ones_nonneg, Hb by lia.
      rewrite (proj2 (Z.ltb_ge _ 10)) by lia. replace (i - 12 + 10 - 10 + 12) with i by lia.
      destruct (Z.ltb_spec (i - 12) 44); [by rewrite andb_true_r|]. rewrite andb_false_r. symmetry. apply Hhi. lia.
  - unfold field. rewrite <- (Z.shiftr_div_pow2 w), <- Z.land_ones by lia. apply Z.bits_inj'. intros i Hi.
    rewrite Z.land_spec, Z.shiftr_spec, Z.testbit_0_l, Hb by lia. rewrite (proj2 (Z.ltb_ge _ 10)) by lia.
    by rewrite Hhi by lia.
  - intros i Hi. rewrite Hb by lia. by rewrite (proj2 (Z.ltb_lt i 10)) by lia.
Qed.

(** On a directory made of such entries the hardware walk is [walk], with the
    permissions of the leaf checked. *)
Lemma sv39_walk ad m acc va l : 0 <= va < 2 ^ 64 -> (l <= 2)%nat -> forall p, wired m l p ->
  sv39 ad m acc va p l =
    w ← walk m l p va;
    if (Z.testbit w 1 || Z.testbit w 3) && (Z.testbit w 1 || negb (Z.testbit w 2)) && allows ad acc w
    then Some (pa_of w + va mod 4096) else None.
Proof.
  intros Hv. induction l as [|l IH]; intros Hl p Hw.
  all: assert (Z.to_nat (field va (12 + 9 * Z.of_nat 0) 9) = index va 0) as E0
    by (unfold index; rewrite vpn_spec by (done || lia); reflexivity).
  - cbn [sv39 walk]. unfold entry. rewrite E0. destruct (m !! p) as [ws|] eqn:Hp; [|done]. cbn [mbind option_bind].
    destruct (ws !! index va 0) as [w|] eqn:Hi; [|done]. cbn [mbind option_bind]. rewrite valid_is_bit.
    destruct (Z.testbit w 0) eqn:H0; [|done]. cbn [negb orb mbind option_bind].
    destruct (Hw ws _ w Hp Hi) as (pa & f & Hpa & Hm & Hf & Ew); [by rewrite valid_is_bit|].
    destruct (entry_bits pa f Hpa Hm Hf) as (B1 & B2 & _). rewrite Ew in *.
    change (pte_of pa f) with (Riscv64.PhysicalToPageTableEntry pa f) in *. rewrite B1, B2.
    change (pa_of (Riscv64.PhysicalToPageTableEntry pa f)) with (pa_of (pte_of pa f)). rewrite pa_of_pte by done.
    change (9 * Z.of_nat 0) with 0. rewrite Z.mod_1_r, andb_true_r.
    destruct (Z.testbit _ 1), (Z.testbit _ 2), (Z.testbit _ 3); cbn [negb orb andb]; try done.
    rewrite Z.eqb_refl. cbn [negb]. by case_match.
  - assert (Z.to_nat (field va (12 + 9 * Z.of_nat (S l)) 9) = index va (S l)) as E1
      by (unfold index; rewrite vpn_spec by (cbn [levels riscv64_paging]; unfold Riscv64.kPageTableLevels; lia); reflexivity).
    cbn [sv39 walk]. unfold entry. rewrite E1. destruct (m !! p) as [ws|] eqn:Hp; [|done]. cbn [mbind option_bind].
    destruct (ws !! index va (S l)) as [w|] eqn:Hi; [|done]. cbn [mbind option_bind]. rewrite valid_is_bit.
    destruct (Z.testbit w 0) eqn:H0; [|done]. cbn [negb orb].
    destruct (Hw ws _ w Hp Hi) as ((pa & Hpa & Hm & Ew) & Hk); [by rewrite valid_is_bit|].
    destruct (entry_bits pa table_permissions Hpa Hm (proj2 table_valid)) as (B1 & B2 & B3).
    rewrite Ew in *. change (pte_of pa table_permissions) with (Riscv64.PhysicalToPageTableEntry pa table_permissions) in *.
    rewrite B1, B2, !B3 by lia. change (pa_of (Riscv64.PhysicalToPageTableEntry pa table_permissions)) with (pa_of (pte_of pa table_permissions)) in *.
    rewrite pa_of_pte in * by (done || apply table_valid).
    apply (IH ltac:(lia) pa Hk).
Qed.

(** [InitCurrentCore] makes the MMU translate by the kernel's directory. *)
Lemma init_core_mmu {A} (s : Vm A) (regs : Csr.RegInfo -> Z) :
  0 < kernel_page_dir_ s < 2 ^ 56 -> kernel_page_dir_ s mod 4096 = 0 -> Csr.word (regs Csr.SatpInfo) ->
  exists regs', InitCurrentCore s regs = Some (tt, regs') /\ forall ad m acc va,
    mmu ad (regs' Csr.SatpInfo) m acc va = if canonical va then sv39 ad m acc va (kernel_page_dir_ s) 2 else None.
Proof.
  intros Hr Hm Hw.
  destruct (Csr.satp_setup (kernel_page_dir_ s) regs) as (s1 & s2 & s3 & H1 & H2 & H3 & _); [done|lia|done|].
  exists s2. unfold InitCurrentCore, Csr.a_bind. rewrite H1. split; [done|].
  intros ad m acc va. rewrite H3. set (n := kernel_page_dir_ s / 2 ^ 12).
  assert (0 <= n < 2 ^ 44) as Hn by (unfold n; split; [apply Z.div_pos; lia|];
    apply Z.div_lt_upper_bound; lia).
  unfold mmu, field. replace ((8 * 2 ^ 60 + n) / 2 ^ 60) with 8
    by (rewrite Z.div_add_l, Z.div_small; lia).
  replace ((8 * 2 ^ 60 + n) / 2 ^ 0 mod 2 ^ 44 * 4096) with (kernel_page_dir_ s); [done|].
  change (2 ^ 0) with 1. rewrite Z.div_1_r.
  replace (8 * 2 ^ 60 + n) with (n + (8 * 2 ^ 16) * 2 ^ 44) by lia.
  rewrite Z.mod_add, Z.mod_small by lia. unfold n.
  pose proof (Z.div_mod (kernel_page_dir_ s) 4096). change (2 ^ 12) with 4096. lia.
Qed.

(** The pages that the MMU reaches: [t] holds the physical address and the
    attributes of the page of [va]. *)
Definition reached (ad : bool) (acc : Access) (va : Z) (t : Z * Z) : option Z :=
  if (Z.testbit t.2 1 || Z.testbit t.2 3) && (Z.testbit t.2 1 || negb (Z.testbit t.2 2)) && allows ad acc t.2
  then Some (t.1 + va mod 4096) else None.

Lemma sv39_translate ad m acc va p : 0 <= va < 2 ^ 64 -> wired m 2 p ->
  sv39 ad m acc va p 2 = translate m 2 p va ≫= reached ad acc va.
Proof.
  intros Hv Hw. rewrite sv39_walk by done. unfold translate. destruct (walk m 2 p va) as [w|]; [|done].
  assert (forall i, 0 <= i < 10 -> Z.testbit w i = Z.testbit (translation w).2 i) as Hb.
  { intros i Hi. change (translation w).2 with (Z.land w (Z.ones 10)).
    rewrite Z.land_spec, Z.testbit_ones_nonneg, (proj2 (Z.ltb_lt _ _)) by lia. by rewrite andb_true_r. }
  cbn [mbind option_bind fmap option_fmap option_map]. unfold reached, allows, permits.
  rewrite !(Hb 1), !(Hb 2), !(Hb 3), !(Hb 4), !(Hb 6), !(Hb 7) by lia. done.
Qed.

(** A mapping with the kernel's permissions allows every access, if the hardware
    sets the A and D bits. *)
Lemma reached_kernel ad acc lo hi va old :
  identity_over lo hi kernel_permissions old va ≫= reached ad acc va =
    if (lo <=? va) && (va <? hi) then (if ad then Some va else None) else old ≫= reached ad acc va.
Proof.
  unfold identity_over, mapped_page. rewrite (proj1 kernel_valid).
  destruct (_ && _); [|done]. cbn [mbind option_bind]. unfold reached. cbn [fst].
  assert (va / 4096 * 4096 + va mod 4096 = va) as -> by (pose proof (Z.div_mod va 4096); lia).
  by destruct ad, acc.
Qed.

(** Sv39 addresses above the lower half use the entries of the upper half. *)
Lemma canonical_page va : 0 <= va < 2 ^ 64 -> canonical va = true ->
  0 <= va mod 2 ^ 39 < 2 ^ 39 /\ same_page 2 va (va mod 2 ^ 39) /\ (va < 2 ^ 38 \/ 2 ^ 38 <= va mod 2 ^ 39 /\ 2 ^ 39 <= va).
Proof.
  intros Hv Hc. split; [by apply Z.mod_pos_bound|]. split.
  - change 2%nat with (@top riscv64_paging). pose proof (Z.mod_pos_bound va (2 ^ 39)).
    apply same_page_iff; [done|lia|]. unfold page_of. change (512 ^ Z.of_nat levels) with (2 ^ 27). change 4096 with (2 ^ 12).
    rewrite <- !Z.shiftr_div_pow2, <- !Z.land_ones by lia. apply Z.bits_inj'. intros i Hi.
    rewrite !Z.land_spec, !Z.shiftr_spec, !Z.testbit_ones_nonneg by lia. destruct (Z.ltb_spec i 27); [|by rewrite !andb_false_r].
    rewrite Z.land_spec, Z.testbit_ones_nonneg, (proj2 (Z.ltb_lt (i + 12) 39)) by lia. by rewrite !andb_true_r.
  - unfold canonical, field in Hc. rewrite (Z.mod_small (va / 2 ^ 38)) in Hc
      by (split; [apply Z.div_pos; lia|apply Z.div_lt_upper_bound; lia]).
    pose proof (Z.div_mod va (2 ^ 38)). pose proof (Z.mod_pos_bound va (2 ^ 38)). apply orb_true_iff in Hc as [Hc%Z.eqb_eq|Hc%Z.eqb_eq]; [left; lia|right].
    split; [|lia]. rewrite (Z.mod_eq va (2 ^ 39)) by lia.
    assert (va / 2 ^ 39 = 2 ^ 25 - 1) as ->; [|lia]. symmetry. apply (Z.div_unique va (2 ^ 39) _ (va - 2 ^ 39 * (2 ^ 25 - 1))); lia.
Qed.

(** What the core sees of a directory of identity mappings below 2^38: nothing
    else, and nothing at addresses that are not canonical. *)
Lemma identity_mmu ad m acc root (inside : Z -> bool) :
  wired m 2 root -> (forall va, inside va = true -> 0 <= va < 2 ^ 38) ->
  (forall va, 0 <= va < 2 ^ 39 -> translate m 2 root va ≫= reached ad acc va = if inside va then (if ad then Some va else None) else None) ->
  forall va, 0 <= va < 2 ^ 64 ->
    (if canonical va then sv39 ad m acc va root 2 else None) = if ad && inside va then Some va else None.
Proof.
  intros Hw Hin Ht va Hv. destruct (canonical va) eqn:Hc.
  - destruct (canonical_page va Hv Hc) as (Hr & Hs & Hcase). rewrite sv39_translate by done.
    destruct Hcase as [Hlo|[Hhi Hbig]].
    + rewrite Ht by lia. by destruct ad, (inside va).
    + assert (inside va = false) as -> by (destruct (inside va) eqn:E; [apply Hin in E; lia|done]).
      specialize (Ht (va mod 2 ^ 39) Hr).
      assert (inside (va mod 2 ^ 39) = false) as E by (destruct (inside _) eqn:E; [apply Hin in E; lia|done]). rewrite E in Ht.
      rewrite andb_false_r. unfold translate in *. rewrite walk_slot, (slot_same _ _ _ _ _ Hs), <- walk_slot.
      destruct (walk m 2 root (va mod 2 ^ 39)) as [w|]; [|done]. revert Ht. cbn. unfold reached. by destruct (_ && _ && _).
  - destruct (inside va) eqn:E; [|by rewrite andb_false_r]. exfalso. apply Hin in E.
    revert Hc. unfold canonical, field. rewrite Z.div_small by lia. done.
Qed.

(** on riscv64, when the constructor of [VirtualMemory] returns, a core that
    then runs [InitCurrentCore] translates every address of physical memory to
    itself, if the hardware keeps the A and D bits, and faults on every other
    address, whatever [satp] held before; the constructor fails only when the heap
    refuses one of the pages it asks for. *)
Theorem boot_identity_mapping {A} `{PageAllocator A} `{!PageAllocatorLaws A phys_limit}
    (s : Vm A) phys size (regs : Csr.RegInfo -> Z) :
  0 <= phys -> 0 <= size -> range_end phys size <= 2 ^ 38 -> Csr.word (regs Csr.SatpInfo) ->
  match VirtualMemory_ctor phys size s with
  | Ret s' _ => exists regs', InitCurrentCore s' regs = Some (tt, regs') /\
      forall ad acc va, 0 <= va < 2 ^ 64 ->
        mmu ad (regs' Csr.SatpInfo) (memory s') acc va =
          if ad && ((phys / 4096 * 4096 <=? va) && (va <? range_end phys size)) then Some va else None
  | Halt _ _ => refuses_within (1 + 2 * range_pages phys size) (alloc_state s) = true
  end.
Proof.
  intros Hp Hs Hl Hw.
  assert (range_end phys size <= Z.min va_limit phys_limit) as Hl'.
  { change va_limit with (2 ^ 39). change phys_limit with (2 ^ 56). lia. }
  assert (range_end phys size < 2 ^ 64) as Hb by lia.
  pose proof (ctor_run s phys size Hp Hs Hl' Hb) as Hc. pose proof (ctor_wired s phys size) as Hwd.
  destruct (VirtualMemory_ctor phys size s) as [s' u | s' why]; [|by apply Hc].
  specialize (Hwd s' u Hp Hs Hl' Hb eq_refl). destruct Hc as (Hok & Hr & Hm & _ & Hv).
  destruct (init_core_mmu s' regs Hr Hm Hw) as (regs' & Hi & Hmmu). exists regs'. split; [done|].
  intros ad acc va Hva. rewrite Hmmu. assert (0 <= phys / 4096) by (apply Z.div_pos; lia).
  apply (identity_mmu ad (memory s') acc (kernel_page_dir_ s') (fun va => (phys / 4096 * 4096 <=? va) && (va <? range_end phys size)));
    [done|intros x Hx; bool_cases; lia| |done].
  intros x Hx. specialize (Hv x Hx). unfold view in Hv. change (@top riscv64_paging) with 2%nat in Hv.
  rewrite Hv, reached_kernel. done.
Qed.

Lemma boot_identity_mapping_witness :
  match VirtualMemory_ctor sample_root 8192 (MkVm ∅ (MkPool [4096; 8192; 12288] ∅) 0 0) with
  | Ret s' _ => exists regs', InitCurrentCore s' (fun _ => 0) = Some (tt, regs') /\
      mmu true (regs' Csr.SatpInfo) (memory s') Store (sample_root + 5) = Some (sample_root + 5)
  | Halt _ _ => False
  end.
Proof.
  pose proof (boot_identity_mapping (MkVm ∅ (MkPool [4096; 8192; 12288] ∅) 0 0) sample_root 8192
    (fun _ => 0) ltac:(done) ltac:(done) ltac:(done) ltac:(done)) as W.
  destruct (VirtualMemory_ctor sample_root 8192 (MkVm ∅ (MkPool [4096; 8192; 12288] ∅) 0 0))
    as [s' u | s' why] eqn:E.
  - destruct W as (regs' & Hr & Hv). exists regs'. split; [exact Hr|].
    rewrite Hv by (unfold sample_root; lia). reflexivity.
  - vm_compute in E. discriminate E.
Defined.


Lemma map_mmio_identity_witness :
  exists s' r, MapMMIO 8192 10000 7 (sample_vm 4) = Ret s' r /\ dir_ok s' sample_root.
Proof.
  destruct (map_mmio_identity (sample_vm 4) sample_root 8192 10000 7) as [W _];
    [apply sample_vm_ok|done|lia|lia|lia|].
  destruct W as (s' & r & Hr & Hok & _); [done|done|].
  exists s', r. split; [exact Hr | exact Hok].
Defined.

End VmBoot.
