(* ===== verification/VmCount.v ===== *)
(** * Page tables: how many pages the heap must have

    Mapping a range in order asks the heap for tables only when it enters a new
    region of 512 pages.  A heap that serves that many requests is enough. *)

From stdpp Require Import base numbers list gmap.
From Stdlib Require Import ZArith Lia.
From S2P Require Import Prelude Errors Csr Paging VirtualMemory VmInv VmProps VmBoot.
Import Errors VirtualMemory VmInv VmProps VmBoot.

Local Open Scope Z_scope.

Module VmCount.

Section count.
Context {P : Paging} {L : PagingLaws P} {A : Type} {H : PageAllocator A}.
Context {HA : PageAllocatorLaws A phys_limit}.
Implicit Types (s : Vm A) (a : A) (root va addr flags : Z) (k n l : nat).

(** ** Requests that are served *)

(** The next [k] requests are granted. *)
Definition serves k a : Prop := refuses_within k a = false.

Lemma serves_intro k a : (forall j a', (j < k)%nat -> took j a a' -> fst (pa_alloc a') <> None) -> serves k a.
Proof.
  unfold serves. revert a. induction k as [|k IH]; intros a Hs; cbn; [done|].
  pose proof (Hs 0%nat a ltac:(lia) (took_O a)) as H0. destruct (pa_alloc a) as [[[p ws]|] a'] eqn:Ha; [|done].
  apply IH. intros j b Hj Hb. apply (Hs (S j)); [lia|]. by econstructor.
Qed.

Lemma serves_le k n a : (k <= n)%nat -> serves n a -> serves k a.
Proof.
  unfold serves. intros Hk Hs. apply not_true_is_false. intros Hr. apply (refuses_mono k n) in Hr; [|done]. congruence.
Qed.

Lemma drew_serves k n a a' : drew k a a' -> serves (k + n) a -> serves n a'.
Proof.
  unfold serves. intros Hd Hs. apply not_true_is_false. intros Hr. apply (drew_refuses k n a) in Hr; [|done]. congruence.
Qed.

Lemma serves_first n a : serves (S n) a -> exists p ws a', pa_alloc a = (Some (p, ws), a') /\ serves n a'.
Proof. unfold serves. cbn. destruct (pa_alloc a) as [[[p ws]|] a']; [|done]. intros Hs. by exists p, ws, a'. Qed.

Lemma asked_ok {B} n m s s' (r : Expected B) : asked n s s' r -> serves (n + m) (alloc_state s) ->
  exists b, r = Value b /\ serves m (alloc_state s').
Proof.
  intros Ha Hs. destruct r as [b|e]; cbn in Ha.
  - exists b. split; [done|]. by eapply drew_serves.
  - apply (serves_le n) in Hs; [|lia]. unfold serves in Hs. congruence.
Qed.

(** ** The walk *)

(** Whether there is a path depends on the indices above the last level only. *)
Lemma slot_prefix m l : forall p va va', (forall k, (1 <= k <= l)%nat -> index va k = index va' k) ->
  is_Some (slot m l p va) -> is_Some (slot m l p va').
Proof.
  induction l as [|l IH]; intros p va va' Hi; cbn [slot]; [by eauto|]. unfold entry. rewrite (Hi (S l)) by lia.
  destruct (m !! p ≫= _) as [w|]; cbn; [|by intros [? ?]]. destruct (valid w); [|by intros [? ?]]. apply IH. intros k Hk. apply Hi. lia.
Qed.

Lemma walk_has_slot m l : forall p va, is_Some (walk m l p va) -> is_Some (slot m l p va).
Proof. intros p va. rewrite walk_slot. destruct (slot m l p va); [by eauto|by intros [? ?]]. Qed.

(** Two addresses of the same region of 512 pages. *)
Lemma region_index va va' k : 0 <= va < 2 ^ 64 -> 0 <= va' < 2 ^ 64 -> va / 2 ^ 21 = va' / 2 ^ 21 -> (1 <= k <= top)%nat -> index va k = index va' k.
Proof.
  intros Hv Hv' Hr Hk. unfold index. pose proof levels_pos as Hl. rewrite !vpn_spec by (unfold top in *; lia).
  replace (12 + 9 * Z.of_nat k) with (21 + 9 * (Z.of_nat k - 1)) by lia. rewrite Z.pow_add_r by lia.
  rewrite <- !Z.div_div by (apply Z.pow_pos_nonneg || apply Z.pow_nonzero; lia). by rewrite Hr.
Qed.

(** ** Mapping *)

(** The regions that the range [addr, stop) enters; [fresh] is whether the first has no table yet. *)
Definition regions (addr stop : Z) (fresh : bool) : nat := Z.to_nat ((stop - 1) / 2 ^ 21 - addr / 2 ^ 21 + (if fresh then 1 else 0)).

Lemma mmio_loop_served n fuel : forall s root addr end_page flags fresh,
  dir_ok s root -> kernel_page_dir_ s = root -> 0 <= flags < 2 ^ 32 -> Z.testbit flags 0 = true ->
  0 <= addr <= end_page -> addr mod 4096 = 0 -> end_page mod 4096 = 0 ->
  end_page <= Z.min va_limit phys_limit -> end_page < 2 ^ 64 -> end_page - addr <= 4096 * Z.of_nat fuel ->
  (fresh = false -> is_Some (slot (memory s) top root addr)) ->
  serves (top * regions addr end_page fresh + n) (alloc_state s) ->
  exists s', mmio_loop fuel addr end_page flags s = Ret s' (Value tt) /\ serves n (alloc_state s').
Proof.
  induction fuel as [|fuel IH]; intros s root addr end_page flags fresh Hok Hd Hf Hvf Ha Hm He Hl Hw Hfu Hfr Hs;
    cbn [mmio_loop]; destruct (Z.ltb_spec addr end_page) as [Hlt|Hge]; [lia| | |].
  1, 3: exists s; split; [done|]; by apply (serves_le _ _ _ (Nat.le_add_l n _) Hs).
  unfold bind at 1, gets. rewrite Hd.
  destruct (map_page_run s root addr addr flags) as (s1 & r & Hr & Hok1 & Hd1 & Hq1 & Hv1); [done|lia|lia|done|done|].
  assert (addr + 4096 <= end_page) as Hstep by (pose proof (Z.div_mod addr 4096); pose proof (Z.div_mod end_page 4096); lia).
  set (rest := regions addr end_page false).
  assert (addr / 2 ^ 21 <= (end_page - 1) / 2 ^ 21) as Hreg by (apply Z.div_le_mono; lia).
  assert (exists b, r = Value b /\ serves (top * rest + n) (alloc_state s1)) as (b & -> & Hs1).
  { unfold rest. destruct fresh.
    - apply (asked_ok top _ s s1 r (asked_mono _ _ _ _ _ (missing_le _ _ _ _) Hq1)). replace (top + (top * regions addr end_page false + n))%nat with (top * regions addr end_page true + n)%nat; [done|].
      unfold regions. rewrite Z.add_0_r, Z2Nat.inj_add by lia. change (Z.to_nat 1) with 1%nat. lia.
    - rewrite (missing_slot _ _ _ _ (Hfr eq_refl)) in Hq1. by apply (asked_ok 0 _ s s1 r Hq1). }
  unfold bind at 1. rewrite Hr. rewrite u64_small by (unfold kPageSize; lia). unfold kPageSize.
  assert (is_Some (slot (memory s1) top root addr)) as Hslot.
  { apply walk_has_slot. specialize (Hv1 addr ltac:(lia)). rewrite Z.eqb_refl in Hv1. unfold view, translate, mapped_page in Hv1.
    rewrite Hvf in Hv1. destruct (walk _ _ _ _); [by eauto|done]. }
  assert (addr + 4096 < end_page -> regions (addr + 4096) end_page (negb ((addr + 4096) / 2 ^ 21 =? addr / 2 ^ 21)) = rest) as Hn.
  { intros Hlt'. unfold rest, regions. destruct (Z.eqb_spec ((addr + 4096) / 2 ^ 21) (addr / 2 ^ 21)) as [->|Hne]; [done|]. cbn [negb]. f_equal.
    assert ((addr + 4096) / 2 ^ 21 = addr / 2 ^ 21 + 1); [|lia].
    pose proof (Z.div_mod addr (2 ^ 21)). pose proof (Z.div_mod (addr + 4096) (2 ^ 21)). pose proof (Z.mod_pos_bound addr (2 ^ 21)).
    pose proof (Z.mod_pos_bound (addr + 4096) (2 ^ 21)). lia. }
  destruct (decide (addr + 4096 < end_page)) as [Hlt'|Hend].
  - apply (IH s1 root (addr + 4096) end_page flags (negb ((addr + 4096) / 2 ^ 21 =? addr / 2 ^ 21))); try done; try lia; try congruence.
    + rewrite Z.add_mod, Hm by lia. done.
    + rewrite negb_false_iff, Z.eqb_eq. intros E. revert Hslot. apply slot_prefix. intros k Hk. apply region_index; lia || done.
    + by rewrite Hn.
  - exists s1. replace (addr + 4096) with end_page by lia. split; [destruct fuel; cbn [mmio_loop]; by rewrite Z.ltb_irrefl|].
    by apply (serves_le _ _ _ (Nat.le_add_l n _) Hs1).
Qed.

(** [MapMMIO] succeeds when the heap serves the tables of the regions it enters. *)
Lemma map_mmio_served n s root phys size flags :
  dir_ok s root -> kernel_page_dir_ s = root -> 0 <= flags < 2 ^ 32 -> Z.testbit flags 0 = true -> 0 <= phys -> 0 <= size ->
  range_end phys size <= Z.min va_limit phys_limit -> range_end phys size < 2 ^ 64 ->
  serves (top * regions (phys / 4096 * 4096) (range_end phys size) true + n) (alloc_state s) ->
  exists s', MapMMIO phys size flags s = Ret s' (Value phys) /\ serves n (alloc_state s').
Proof.
  intros Hok Hd Hf Hvf Hp Hz Hl Hw Hs. unfold range_end in *.
  pose proof (Z.div_mod (phys + size + 4095) 4096). pose proof (Z.mod_pos_bound (phys + size + 4095) 4096).
  pose proof (Z.div_mod phys 4096). pose proof (Z.mod_pos_bound phys 4096).
  unfold MapMMIO. rewrite (u64_small (phys + size)), align_spec, align_up_spec by lia. rewrite (proj2 (Z.leb_le (phys + size) _)) by lia.
  set (st := phys / 4096 * 4096) in *. set (en := (phys + size + 4095) / 4096 * 4096) in *.
  destruct (mmio_loop_served n (Z.to_nat ((en - st) / kPageSize)) s root st en flags true) as (s' & E & Hn); subst st en; try done; try lia.
  - apply Z.mod_mul. lia.
  - apply Z.mod_mul. lia.
  - unfold kPageSize. rewrite Z2Nat.id by (apply Z.div_pos; lia).
    replace ((phys + size + 4095) / 4096 * 4096 - phys / 4096 * 4096) with (((phys + size + 4095) / 4096 - phys / 4096) * 4096) by lia.
    rewrite Z.div_mul by lia. lia.
  - exists s'. unfold bind. by rewrite E.
Qed.

End count.
End VmCount.
