(* ===== verification/VmDestroy.v ===== *)
(** * Virtual memory: destroying a page directory

    [owned] lists what a directory holds: its tables and, when the pages are to
    be freed too, the frames its leaf entries map.  [DestroyPageDirectory] gives
    back exactly these blocks, each once. *)

From stdpp Require Import base numbers list gmap sets.
From Stdlib Require Import ZArith Lia.
From S2P Require Import Prelude Errors Paging VirtualMemory VmInv VmProps.
Import VirtualMemory VmInv VmProps.

Local Open Scope Z_scope.
#[local] Opaque kEntriesPerTable.

Module VmDestroy.

Section destroy.
Context {P : Paging} {L : PagingLaws P} {A : Type} {H : PageAllocator A}.
Context {HA : PageAllocatorLaws A phys_limit}.
Implicit Types (s : Vm A) (m : gmap Z (list Z)) (l : nat) (p q w : Z) (fp : bool).

Abbreviation live s := (pa_live (alloc_state s)).

Fixpoint owned fp m l p : list Z :=
  p :: concat ((fun w =>
    if valid w then
      match l with
      | S l' => owned fp m l' (pa_of w)
      | O => if fp && negb (pa_of w =? nullptr) then [pa_of w] else []
      end
    else []) <$> default [] (m !! p)).

(** What entry [w] of a level-[l] table leads to. *)
Definition sub fp m l w : list Z :=
  if valid w then
    match l with
    | S l' => owned fp m l' (pa_of w)
    | O => if fp && negb (pa_of w =? nullptr) then [pa_of w] else []
    end
  else [].

Lemma owned_eq fp m l p :
  owned fp m l p = p :: concat (sub fp m l <$> default [] (m !! p)).
Proof. by destruct l. Qed.

Lemma owned_root fp m l p : p ∈ owned fp m l p.
Proof. rewrite owned_eq. left. Qed.

Lemma owned_ext fp m m' l p :
  (forall q, q ∈ owned fp m l p -> m' !! q = m !! q) ->
  owned fp m' l p = owned fp m l p /\ (shape m l p -> shape m' l p).
Proof.
  revert p. induction l as [|l IH]; intros p Hq;
    assert (m' !! p = m !! p) as E by (apply Hq, owned_root).
  { rewrite !owned_eq, E. split; [done|]. intros (ws & Hp & Hl & _). exists ws. by rewrite E. }
  assert (forall ws i w, m !! p = Some ws -> ws !! i = Some w -> valid w = true ->
    forall q, q ∈ owned fp m l (pa_of w) -> m' !! q = m !! q) as Hk.
  { intros ws i w Hp Hi Hv q Hin. apply Hq. rewrite owned_eq, Hp. right.
    change (default [] (Some ws)) with ws.
    apply (concat_lookup _ i (sub fp m (S l) w)); [by rewrite list_lookup_fmap, Hi|].
    unfold sub. by rewrite Hv. }
  split.
  - rewrite !owned_eq, E. do 2 f_equal. destruct (m !! p) as [ws|] eqn:Hp; [|done].
    apply list_fmap_ext. intros i w Hi. unfold sub. destruct (valid w) eqn:Hv; [|done].
    apply IH. by eapply Hk.
  - intros (ws & Hp & Hl & Hs). exists ws. rewrite E. split_and!; [done|done|].
    intros i w Hi Hv. eapply IH; eauto.
Qed.

Lemma owned_tables m l p : owned false m l p = tables m l p.
Proof.
  revert p. induction l as [|l IH]; intros p; rewrite owned_eq.
  - simpl. f_equal. generalize (default [] (m !! p)) as ws. intros ws.
    induction ws as [|w ws IHw]; [done|]. simpl. unfold sub at 1. by destruct (valid w).
  - rewrite tables_S. do 2 f_equal. apply list_fmap_ext. intros i w _. unfold sub.
    destruct (valid w); [apply IH|done].
Qed.

(** ** The loop over the entries *)

Definition entry_action l fp (pa : Z) : M (Vm A) unit :=
  match l with
  | S l' => RecursiveFreePageTable pa l' fp
  | O => if fp then aligned_free pa else ret tt
  end.

Definition free_body p l fp (i : nat) : M (Vm A) unit :=
  let* pte := load p i in
  if negb (valid pte) then ret tt
  else let* _ := entry_action l fp (pa_of pte) in store p i 0.

Lemma free_unfold p l fp s :
  p <> nullptr ->
  RecursiveFreePageTable p l fp s =
    bind (for_each (seq 0 kEntriesPerTable) (free_body p l fp))
         (fun _ => when (l <? levels - 1)%nat (aligned_free p)) s.
Proof.
  intros Hp. destruct l; cbn [RecursiveFreePageTable]; by rewrite (proj2 (Z.eqb_neq _ _) Hp).
Qed.

(** [s'] is [s] without the blocks [f]. *)
Definition released f s s' : Prop :=
  live s' = live s ∖ list_to_set f /\
  (forall q, q ∉ f -> memory s' !! q = memory s !! q) /\
  tlb_flushes s' = tlb_flushes s /\ kernel_page_dir_ s' = kernel_page_dir_ s.

Definition holds f s : Prop := NoDup f /\ forall q, q ∈ f -> q ∈ live s /\ q <> nullptr.

(** The action of an entry gives back what the entry leads to. *)
Definition action_ok l fp : Prop := forall s w,
  valid w = true -> (match l with S l' => shape (memory s) l' (pa_of w) | O => True end) ->
  holds (sub fp (memory s) l w) s ->
  exists s', entry_action l fp (pa_of w) s = Ret s' tt /\ released (sub fp (memory s) l w) s s'.

Lemma take_fmap_S {X Y} (f : X -> list Y) (xs : list X) k x :
  xs !! k = Some x -> concat (take (S k) (f <$> xs)) = concat (take k (f <$> xs)) ++ f x.
Proof.
  intros Hx. rewrite (take_S_r _ k (f x)) by (by rewrite list_lookup_fmap, Hx).
  rewrite concat_app. simpl. by rewrite app_nil_r.
Qed.

Lemma free_loop l fp p ws s n k sk :
  action_ok l fp -> shape (memory s) l p -> memory s !! p = Some ws ->
  holds (owned fp (memory s) l p) s ->
  (k + n)%nat = kEntriesPerTable ->
  (exists wk, memory sk !! p = Some wk /\ length wk = kEntriesPerTable /\
     forall j, (k <= j)%nat -> wk !! j = ws !! j) ->
  live sk = live s ∖ list_to_set (concat (take k (sub fp (memory s) l <$> ws))) ->
  (forall q, q ∉ p :: concat (take k (sub fp (memory s) l <$> ws)) -> memory sk !! q = memory s !! q) ->
  tlb_flushes sk = tlb_flushes s -> kernel_page_dir_ sk = kernel_page_dir_ s ->
  exists s', for_each (seq k n) (free_body p l fp) sk = Ret s' tt /\
    live s' = live s ∖ list_to_set (concat (sub fp (memory s) l <$> ws)) /\
    (forall q, q ∉ owned fp (memory s) l p -> memory s' !! q = memory s !! q) /\
    tlb_flushes s' = tlb_flushes s /\ kernel_page_dir_ s' = kernel_page_dir_ s.
Proof.
  intros Hact Hsh Hp [Hn Hl] Hk. rewrite owned_eq, Hp in Hn, Hl. simpl in Hn, Hl.
  assert (length ws = kEntriesPerTable) as Hlen.
  { destruct l; destruct Hsh as (ws' & Hp' & Hlen & _); congruence. }
  revert k sk Hk. induction n as [|n IH]; intros k sk Hk (wk & Hpk & Hlk & Hsame) Hlv Hfr Ht Hd.
  { exists sk. rewrite take_ge in Hlv, Hfr by (rewrite length_fmap; lia).
    rewrite owned_eq, Hp. done. }
  destruct (lookup_lt_is_Some_2 ws k ltac:(lia)) as [w Hw].
  pose proof (take_fmap_S (sub fp (memory s) l) ws k w Hw) as Htk.
  cbn [for_each seq]. unfold bind at 1, free_body at 1, bind at 1.
  rewrite (load_run sk p k wk w Hpk) by (rewrite Hsame; done).
  destruct (valid w) eqn:Hv; cbn [negb].
  2: { assert (sub fp (memory s) l w = []) as E by (unfold sub; by rewrite Hv).
       rewrite E, app_nil_r in Htk. apply IH; rewrite ?Htk; try done; [lia|].
       exists wk. split_and!; [done|done|]. intros j Hj. apply Hsame. lia. }
  (* the entry is valid: its blocks are apart from the table and from those freed *)
  apply NoDup_cons in Hn as [Hpn Hn].
  set (subs := sub fp (memory s) l <$> ws) in *.
  assert (subs !! k = Some (sub fp (memory s) l w)) as Hsk
    by (unfold subs; by rewrite list_lookup_fmap, Hw).
  assert (forall q, q ∈ sub fp (memory s) l w -> q ∉ p :: concat (take k subs)) as Hap.
  { intros q Hq. rewrite not_elem_of_cons. split.
    - intros ->. apply Hpn. by eapply concat_lookup.
    - intros Hin. apply concat_elem in Hin as (j & a & Hj & Hin).
      apply lookup_take_Some in Hj as [Hj Hlt].
      assert (k = j) by (by eapply NoDup_concat_disjoint). lia. }
  assert (sub fp (memory sk) l w = sub fp (memory s) l w /\
    match l with S l' => shape (memory sk) l' (pa_of w) | O => True end) as [Esub Eshape].
  { unfold sub in *. rewrite Hv in *. destruct l as [|l']; [done|].
    destruct Hsh as (ws' & Hp' & _ & Hkid). rewrite Hp in Hp'. injection Hp' as <-.
    destruct (owned_ext fp (memory s) (memory sk) l' (pa_of w)) as [E1 E2].
    { intros q Hq. apply Hfr. by apply Hap. }
    split; [done|]. apply E2. by eapply Hkid. }
  destruct (Hact sk w Hv Eshape) as (s1 & Hr1 & Hlv1 & Hfr1 & Ht1 & Hd1).
  { rewrite Esub. split; [by eapply NoDup_concat_part|]. intros q Hq.
    destruct (Hl q) as [Hq1 Hq2]; [right; by eapply concat_lookup|].
    split; [|done]. rewrite Hlv. apply elem_of_difference. split; [done|].
    rewrite elem_of_list_to_set. intros Hin. apply (Hap q Hq). by right. }
  rewrite Esub in Hlv1, Hfr1. unfold bind at 1. rewrite Hr1.
  assert (memory s1 !! p = Some wk) as Hp1.
  { rewrite Hfr1; [done|]. intros Hin. apply Hpn. by eapply concat_lookup. }
  rewrite (store_run s1 p k wk) by (done || lia).
  apply IH; simpl; try congruence; try lia.
  - exists (<[k := 0]> wk). rewrite lookup_insert_eq, length_insert. split_and!; [done|done|].
    intros j Hj. rewrite list_lookup_insert_ne by lia. apply Hsame. lia.
  - rewrite Hlv1, Hlv, Htk, list_to_set_app_L. set_solver.
  - intros q Hq. rewrite Htk in Hq. rewrite not_elem_of_cons, not_elem_of_app in Hq.
    destruct Hq as (Hqp & Hqk & Hqw). rewrite lookup_insert_ne by done.
    rewrite Hfr1 by done. apply Hfr. rewrite not_elem_of_cons. done.
Qed.

Lemma holds_root fp l p s : holds (owned fp (memory s) l p) s -> p ∈ live s /\ p <> nullptr.
Proof. intros [_ Hl]. apply Hl, owned_root. Qed.

(** The whole loop, from the state the call starts in. *)
Lemma free_entries l fp p s :
  action_ok l fp -> shape (memory s) l p -> holds (owned fp (memory s) l p) s ->
  exists s' f, owned fp (memory s) l p = p :: f /\
    for_each (seq 0 kEntriesPerTable) (free_body p l fp) s = Ret s' tt /\
    live s' = live s ∖ list_to_set f /\ p ∈ live s' /\
    (forall q, q ∉ owned fp (memory s) l p -> memory s' !! q = memory s !! q) /\
    tlb_flushes s' = tlb_flushes s /\ kernel_page_dir_ s' = kernel_page_dir_ s.
Proof.
  intros Hact Hsh Hh. destruct (shape_words s l p Hsh) as (ws & Hp & Hlen).
  destruct (free_loop l fp p ws s kEntriesPerTable 0 s) as (s' & Hr & Hlv & Hrest); try done.
  - exists ws. done.
  - simpl. set_solver.
  - exists s', (concat (sub fp (memory s) l <$> ws)). rewrite owned_eq, Hp in *.
    split_and!; try done; [|by apply Hrest|by apply Hrest|by apply Hrest].
    rewrite Hlv. apply elem_of_difference. destruct Hh as [Hn Hl]. split; [apply Hl; left|].
    apply NoDup_cons in Hn as [Hn _]. by rewrite elem_of_list_to_set.
Qed.

Lemma aligned_free_run p s :
  p ∈ live s -> p <> nullptr ->
  aligned_free p s = Ret (set_memory (delete p (memory s)) (set_alloc (pa_free p (alloc_state s)) s)) tt.
Proof.
  intros Hp Hn. unfold aligned_free. rewrite (proj2 (Z.eqb_neq p nullptr)) by done.
  by rewrite bool_decide_eq_true_2.
Qed.

Lemma free_table_run l fp : action_ok l fp -> (l < levels - 1)%nat -> action_ok (S l) fp.
Proof.
  intros Hact Hlt s w Hv Hsh Hh. unfold sub in *. rewrite Hv in *. simpl entry_action.
  destruct (holds_root _ _ _ _ Hh) as [Hp0 Hp]. rewrite free_unfold by done.
  destruct (free_entries l fp (pa_of w) s Hact Hsh Hh) as (s1 & f & Hf & Hr & Hlv & Hin & Hfr & Ht & Hd).
  unfold bind. rewrite Hr. unfold when. rewrite (proj2 (Nat.ltb_lt _ _)) by done.
  rewrite aligned_free_run by done. eexists. split; [reflexivity|].
  split_and!; simpl; try done.
  - rewrite free_live, Hlv, Hf. simpl. set_solver.
  - intros q Hq. rewrite lookup_delete_ne; [by apply Hfr|]. intros <-. apply Hq, owned_root.
Qed.

Lemma action_ok_all l fp : (l <= levels - 1)%nat -> action_ok l fp.
Proof.
  induction l as [|l IH]; intros Hl.
  - intros s w Hv _ Hh. unfold sub in *. rewrite Hv in *. simpl. destruct fp; simpl in *.
    + destruct (Z.eqb_spec (pa_of w) nullptr) as [E | E]; simpl in *.
      * exists s. unfold aligned_free. rewrite E. split; [done|]. split_and!; try done. set_solver.
      * destruct Hh as [_ Hh]. destruct (Hh (pa_of w)) as [H1 H2]; [left|].
        rewrite aligned_free_run by done. eexists. split; [reflexivity|].
        split_and!; simpl; try done; [rewrite free_live; set_solver|].
        intros q Hq. rewrite lookup_delete_ne; [done|]. intros <-. apply Hq. left.
    + exists s. split; [done|]. split_and!; try done. set_solver.
  - apply free_table_run; [apply IH; lia | lia].
Qed.

Lemma destroy_run s root fp :
  shape (memory s) top root -> NoDup (owned fp (memory s) top root) ->
  (forall q, q ∈ owned fp (memory s) top root -> q ∈ live s /\ q <> nullptr) ->
  exists s', DestroyPageDirectory root fp s = Ret s' tt /\
    live s' = live s ∖ list_to_set (owned fp (memory s) top root) /\
    (forall q, q ∉ owned fp (memory s) top root -> memory s' !! q = memory s !! q).
Proof.
  intros Hsh Hn Hl. assert (holds (owned fp (memory s) top root) s) as Hh by done.
  destruct (holds_root _ _ _ _ Hh) as [Hp0 Hp].
  unfold DestroyPageDirectory. rewrite (proj2 (Z.eqb_neq root nullptr)) by done.
  fold top. unfold bind at 1. rewrite free_unfold by done.
  destruct (free_entries top fp root s) as (s1 & f & Hf & Hr & Hlv & Hin & Hfr & Ht & Hd); try done.
  { by apply action_ok_all. }
  unfold bind. rewrite Hr. unfold when. rewrite (proj2 (Nat.ltb_ge top (levels - 1))) by done.
  simpl. rewrite aligned_free_run by done. eexists. split; [reflexivity|]. simpl. split.
  - rewrite free_live, Hlv, Hf. simpl. set_solver.
  - intros q Hq. rewrite lookup_delete_ne; [by apply Hfr|]. intros <-. apply Hq, owned_root.
Qed.

(** C19: [DestroyPageDirectory] frees each table of the directory exactly once,
    and with [free_pages] each mapped frame exactly once, and nothing else: the
    run never touches a block that is not allocated, the allocated blocks
    afterwards are the ones before without those owned, and no other block's
    contents change.  (The frames must be distinct heap blocks: a frame mapped
    twice, or shared with another directory that is also destroyed, would be
    freed twice.)  A null directory is ignored. *)
Theorem destroy_frees_the_directory s root fp :
  shape (memory s) top root -> NoDup (owned fp (memory s) top root) ->
  (forall q, q ∈ owned fp (memory s) top root -> q ∈ live s /\ q <> nullptr) ->
  (exists s', DestroyPageDirectory root fp s = Ret s' tt /\
    live s' = live s ∖ list_to_set (owned fp (memory s) top root) /\
    (forall q, q ∉ owned fp (memory s) top root -> memory s' !! q = memory s !! q)) /\
  DestroyPageDirectory nullptr fp s = Ret s tt.
Proof. intros Hsh Hn Hl. split; [by apply destroy_run | done]. Qed.

End destroy.
End VmDestroy.
