(* ===== verification/VmClone.v ===== *)
(** * Virtual memory: cloning a page directory *)

From stdpp Require Import base numbers list gmap sets strings.
From Stdlib Require Import ZArith Lia.
From S2P Require Import Prelude Errors Paging VirtualMemory VmInv VmProps VmDestroy.
Import VirtualMemory VmInv VmProps VmDestroy.

Local Open Scope Z_scope.
#[local] Opaque kEntriesPerTable.

Module VmClone.

Section clone.
Context {P : Paging} {L : PagingLaws P} {A : Type} {H : PageAllocator A}.
Context {HA : PageAllocatorLaws A phys_limit}.
Implicit Types (s : Vm A) (m : gmap Z (list Z)) (l : nat) (p q w src dst : Z) (copy : bool).

Abbreviation live s := (pa_live (alloc_state s)).

Lemma tables_ok_ext s s' l p :
  tables_ok s l p ->
  (forall q, q ∈ tables (memory s) l p -> memory s' !! q = memory s !! q /\ q ∈ live s') ->
  tables_ok s' l p /\ tables (memory s') l p = tables (memory s) l p /\
  (forall va, walk (memory s') l p va = walk (memory s) l p va).
Proof.
  intros (Hs & Hn & Hl) He.
  destruct (tables_ext (memory s) (memory s') l p) as (E1 & E2 & E3 & _).
  { intros q Hq. by apply He. }
  split_and!; [|done|done]. split_and!; [by apply E2|by rewrite E1|].
  rewrite E1. intros q Hq. split; [by apply He | by apply Hl].
Qed.

(** A subtree entered into a table. *)
Lemma enter_child s l p ws i w0 w c :
  tables_ok s (S l) p -> memory s !! p = Some ws -> ws !! i = Some w0 -> valid w0 = false ->
  tables_ok s l c -> (forall q, q ∈ tables (memory s) l c -> q ∉ tables (memory s) (S l) p) ->
  valid w = true -> pa_of w = c ->
  let s' := set_memory (<[p := <[i := w]> ws]> (memory s)) s in
  tables_ok s' (S l) p /\
  tables (memory s') (S l) p ≡ₚ tables (memory s) l c ++ tables (memory s) (S l) p /\
  (forall va, walk (memory s') (S l) p va =
     if decide (index va (S l) = i) then walk (memory s) l c va else walk (memory s) (S l) p va).
Proof.
  intros Hok Hp Hi Hv Hok' Hdis Hw Hpa s'. pose proof Hok as (Hs & Hn & Hl).
  pose proof Hok' as (Hs' & Hn' & Hl').
  assert (memory s' !! p = Some (<[i := w]> ws)) as Hp' by apply lookup_insert_eq.
  assert (forall q, q <> p -> memory s' !! q = memory s !! q) as Hq'
    by (intros q Hq; simpl; by rewrite lookup_insert_ne).
  assert (live s' = live s) as Els by done.
  clearbody s'.
  assert (forall j, (<[i := w]> ws) !! j = if decide (j = i) then Some w else ws !! j) as Hws.
  { intros j. case_decide as Hj; [rewrite Hj|by rewrite list_lookup_insert_ne].
    apply list_lookup_insert_eq. by eapply lookup_lt_Some. }
  assert (forall q, q ∈ tables (memory s) l c -> memory s' !! q = memory s !! q) as Hkc.
  { intros q Hq. apply Hq'. intros ->. apply (Hdis p Hq), tables_root. }
  assert (forall j e, ws !! j = Some e -> valid e = true ->
    forall q, q ∈ tables (memory s) l (pa_of e) -> memory s' !! q = memory s !! q) as Hother.
  { intros j e Hj Hve q Hq. destruct (kid_NoDup _ l p ws j e Hn Hp Hj Hve) as (_ & Hpn & _).
    apply Hq'. by intros ->. }
  destruct (tables_ext _ _ l c Hkc) as (E1 & E2 & E3 & _).
  assert (tables (memory s') (S l) p ≡ₚ tables (memory s) l c ++ tables (memory s) (S l) p) as HP.
  { rewrite !tables_S, <- Permutation_middle. f_equiv.
    rewrite <- (concat_replace (kids (memory s) l p) i [] (tables (memory s) l c) (tables (memory s) l c));
      [| |by rewrite app_nil_r].
    - enough (kids (memory s') l p = <[i := tables (memory s) l c]> (kids (memory s) l p)) as -> by done.
      apply list_eq. intros j. unfold kids at 1. rewrite Hp'. simpl.
      rewrite list_lookup_fmap, Hws. case_decide as Hj; [subst j|].
      + simpl. rewrite Hw, Hpa, E1. symmetry. apply list_lookup_insert_eq.
        unfold kids. rewrite Hp. simpl. rewrite length_fmap. by eapply lookup_lt_Some.
      + rewrite list_lookup_insert_ne by done. unfold kids. rewrite Hp. simpl.
        rewrite list_lookup_fmap. destruct (ws !! j) as [e|] eqn:Hje; [|done]. simpl.
        destruct (valid e) eqn:Hve; [|done]. f_equal. eapply tables_ext, Hother; eauto.
    - unfold kids. rewrite Hp. simpl. rewrite list_lookup_fmap, Hi. simpl. by rewrite Hv. }
  split_and!; [|done|].
  - split_and!.
    + destruct Hs as (ws' & Hp2 & Hlen & Hk). rewrite Hp in Hp2. injection Hp2 as <-.
      exists (<[i := w]> ws). rewrite length_insert. split_and!; [done|done|].
      intros j e. rewrite Hws. case_decide as Hj.
      * intros [= <-] _. rewrite Hpa. by apply E2.
      * intros Hje Hve. eapply tables_ext; [by eapply Hother|]. eauto.
    + rewrite HP. apply NoDup_app. split_and!; [done|done|done].
    + intros q. rewrite HP, elem_of_app, Els. intros [Hq | Hq]; [by apply Hl' | by apply Hl].
  - intros va. cbn [walk]. unfold entry. rewrite Hp, Hp'. simpl. rewrite Hws.
    case_decide as Hj; simpl.
    + rewrite Hw, Hpa. apply E3.
    + destruct (ws !! index va (S l)) as [e|] eqn:Hje; [|done]. simpl.
      destruct (valid e) eqn:Hve; [|done]. eapply tables_ext, Hother; eauto.
Qed.

(** ** One run of the recursive clone *)

(** [s'] holds a tree at [dst] made of blocks that [s] did not have; the blocks
    of [s] other than [dst] are as they were. *)
Definition cloned s s' l dst : Prop :=
  tables_ok s' l dst /\
  (forall q, q ∈ tables (memory s') l dst -> q = dst \/ q ∉ live s) /\
  live s ⊆ live s' /\
  (forall q, q ∈ live s -> q <> dst -> memory s' !! q = memory s !! q) /\
  kernel_page_dir_ s' = kernel_page_dir_ s.

Definition clone_body src dst l copy (i : nat) : M (Vm A) (Expected unit) :=
  let* src_pte := load src i in
  if negb (valid src_pte) then ret (Value tt)
  else
  match l with
  | S l' =>
      let* dst_next := aligned_alloc in
      if dst_next =? nullptr then ret (Unexpected kVmAllocationFailed)
      else
      let* _ := clear_page dst_next in
      let* result := RecursiveClonePageTable (pa_of src_pte) dst_next l' copy in
      match result with
      | Unexpected e => let* _ := aligned_free dst_next in ret (Unexpected e)
      | Value _ => let* _ := store dst i (pte_of dst_next table_permissions) in ret (Value tt)
      end
  | O => let* _ := when copy (store dst i src_pte) in ret (Value tt)
  end.

Lemma clone_unfold src dst l copy s :
  src <> nullptr -> dst <> nullptr ->
  RecursiveClonePageTable src dst l copy s =
    for_each_e (seq 0 kEntriesPerTable) (clone_body src dst l copy) s.
Proof.
  intros Hs Hd. destruct l; cbn [RecursiveClonePageTable]; unfold bind at 1, nk_assert_msg;
    rewrite (proj2 (Z.eqb_neq _ _) Hs); cbn [negb]; unfold bind at 1;
    rewrite (proj2 (Z.eqb_neq _ _) Hd); reflexivity.
Qed.

(** The tables below the first [k] entries of [src], each of which is a page for
    the clone. *)
Definition copied m l src (k : nat) : nat :=
  match l with O => 0 | S l' => length (concat (take k (kids m l' src))) end.

Lemma copied_le m l src k : (copied m l src k <= length (tables m l src) - 1)%nat.
Proof.
  destruct l as [|l]; cbn [copied]; [lia|]. rewrite tables_S. cbn [length].
  rewrite <- (take_drop k (kids m l src)) at 2. rewrite concat_app, length_app. lia.
Qed.

Lemma copied_mono m l src k : (copied m l src k <= copied m l src (S k))%nat.
Proof.
  destruct l as [|l]; cbn [copied]; [lia|]. rewrite <- (take_drop k (take (S k) (kids m l src))), take_take.
  replace (k `min` S k)%nat with k by lia. rewrite concat_app, length_app. lia.
Qed.

Lemma copied_child m l src ws j w :
  m !! src = Some ws -> ws !! j = Some w -> valid w = true ->
  copied m (S l) src (S j) = (copied m (S l) src j + length (tables m l (pa_of w)))%nat.
Proof.
  intros Hp Hi Hv. cbn [copied]. rewrite (take_S_r _ _ _ (kids_lookup m l src ws j w Hp Hi Hv)).
  rewrite concat_app, length_app. cbn. by rewrite app_nil_r.
Qed.

Lemma tables_nonempty m l p : (0 < length (tables m l p))%nat.
Proof. destruct l; cbn; lia. Qed.

(** The clone's entries before [k] translate as they should, the others are
    still clear; a page was drawn for each table. *)
Definition clone_inv (k : nat) s sk l src dst copy : Prop :=
  cloned s sk l dst /\
  (exists dk, memory sk !! dst = Some dk /\ forall j, (k <= j < kEntriesPerTable)%nat -> dk !! j = Some 0) /\
  (forall va, 0 <= va < 2 ^ 64 -> (index va l < k)%nat ->
     walk (memory sk) l dst va = if copy then walk (memory s) l src va else None) /\
  drew (copied (memory s) l src k) (alloc_state s) (alloc_state sk).

Definition clone_result s l src dst copy (o : outcome (Vm A) (Expected unit)) (k : nat) : Prop :=
  exists s' r, o = Ret s' r /\
    match r with
    | Value _ => clone_inv k s s' l src dst copy
    | Unexpected e => cloned s s' l dst /\ e = kVmAllocationFailed /\
        refuses_within (length (tables (memory s) l src) - 1) (alloc_state s) = true
    end.

(** The loop, given that the body takes the invariant one entry further. *)
Lemma clone_loop l src dst copy s n k sk :
  (forall j sj, (j < kEntriesPerTable)%nat -> clone_inv j s sj l src dst copy ->
     clone_result s l src dst copy (clone_body src dst l copy j sj) (S j)) ->
  (k + n)%nat = kEntriesPerTable -> clone_inv k s sk l src dst copy ->
  clone_result s l src dst copy (for_each_e (seq k n) (clone_body src dst l copy) sk) kEntriesPerTable.
Proof.
  intros Hb. revert k sk. induction n as [|n IH]; intros k sk Hk Hi.
  - exists sk, (inl tt). split; [done|]. by replace kEntriesPerTable with k by lia.
  - cbn [for_each_e seq]. destruct (Hb k sk ltac:(lia) Hi) as (s' & r & Hr & Hm).
    unfold bind. rewrite Hr. destruct r as [[] | e].
    + apply IH; [lia|done].
    + exists s', (inr e). done.
Qed.

Lemma walk_index_invalid m l p va w :
  entry m l p va = Some w -> valid w = false -> walk m l p va = None.
Proof. intros He Hv. destruct l; simpl; rewrite He; simpl; by rewrite Hv. Qed.

Section step.
Context (s : Vm A) (l : nat) (src dst : Z) (copy : bool).
Context (Hsrc : tables_ok s l src) (Hdst : dst ∉ tables (memory s) l src).

Lemma src_entry j sj :
  (j < kEntriesPerTable)%nat -> cloned s sj l dst ->
  exists ws w, memory s !! src = Some ws /\ ws !! j = Some w /\ load src j sj = Ret sj w.
Proof.
  intros Hj (_ & _ & _ & Hfr & _). destruct Hsrc as (Hs & _ & Hl).
  destruct (shape_words s l src Hs) as (ws & Hp & Hlen).
  destruct (lookup_lt_is_Some_2 ws j ltac:(lia)) as [w Hw]. exists ws, w. split_and!; [done|done|].
  eapply load_run; [|done]. rewrite Hfr; [done|apply Hl, tables_root|].
  intros <-. apply Hdst, tables_root.
Qed.

(** An entry that needs no copy. *)
Lemma clone_inv_skip j sj ws w :
  (j < kEntriesPerTable)%nat -> clone_inv j s sj l src dst copy ->
  memory s !! src = Some ws -> ws !! j = Some w -> (valid w = false \/ copy = false) ->
  clone_inv (S j) s sj l src dst copy.
Proof.
  intros Hj (Hc & (dk & Hd & Hz) & Hw & Hq) Hp Hi Hcase. split_and!; [done| | |].
  - exists dk. split; [done|]. intros i Hlt. apply Hz. lia.
  - intros va Hva Hlt. destruct (decide (index va l = j)) as [E | E]; [|apply Hw; [done|lia]].
    rewrite (walk_index_invalid (memory sj) l dst va 0);
      [|unfold entry; rewrite Hd, E; apply Hz; lia|apply invalid_zero].
    destruct copy; [|done]. symmetry. eapply walk_index_invalid.
    + unfold entry. rewrite Hp, E. exact Hi.
    + by destruct Hcase.
  - eapply drew_mono; [apply copied_mono|done].
Qed.

End step.

Lemma clone_step_leaf s src dst copy j sj :
  tables_ok s 0 src -> dst ∉ tables (memory s) 0 src -> (j < kEntriesPerTable)%nat ->
  clone_inv j s sj 0 src dst copy ->
  clone_result s 0 src dst copy (clone_body src dst 0 copy j sj) (S j).
Proof.
  intros Hsrc Hd Hj Hinv. pose proof Hinv as (Hc & (dk & Hdk & Hz) & Hw & Hdr).
  destruct (src_entry s 0 src dst Hsrc Hd j sj Hj Hc) as (ws & w & Hp & Hi & Hld).
  unfold clone_body, bind. rewrite Hld. destruct (valid w) eqn:Hv; cbn [negb].
  2: { exists sj, (inl tt). split; [done|]. eapply clone_inv_skip; eauto. }
  destruct copy; cbn [when].
  2: { exists sj, (inl tt). split; [done|]. eapply clone_inv_skip; eauto. }
  assert (j < length dk)%nat as Hlt by (eapply lookup_lt_Some, Hz; lia).
  rewrite (store_run sj dst j dk) by done. eexists _, (inl tt). split; [reflexivity|].
  destruct Hc as (Hok & Hnew & Hlv & Hfr & Hdir). split_and!.
  - split_and!; simpl; try done.
    + split_and!; simpl; [|apply Hok|apply Hok].
      destruct Hok as ((ds & Hds & Hlen & _) & _). rewrite Hdk in Hds. injection Hds as <-.
      exists (<[j := w]> dk). rewrite lookup_insert_eq, length_insert. done.
    + intros q Hq Hne. rewrite lookup_insert_ne by done. by apply Hfr.
  - exists (<[j := w]> dk). simpl. rewrite lookup_insert_eq. split; [done|].
    intros i Hr. rewrite list_lookup_insert_ne by lia. apply Hz. lia.
  - intros va Hva Hr. cbn [walk]. unfold entry. simpl. rewrite lookup_insert_eq. simpl.
    destruct (decide (index va 0 = j)) as [E | E].
    + rewrite E, list_lookup_insert_eq by done. simpl. rewrite Hv, Hp. simpl. rewrite Hi. simpl. by rewrite Hv.
    + rewrite list_lookup_insert_ne by done. pose proof (Hw va Hva ltac:(lia)) as Hw'.
      cbn [walk] in Hw'. unfold entry in Hw'. rewrite Hdk in Hw'. exact Hw'.
  - exact Hdr.
Qed.

(** The clone of [dst] is carried over a change that keeps its blocks. *)
Lemma cloned_frame s sj s' l dst :
  cloned s sj l dst -> live sj ⊆ live s' ->
  (forall q, q ∈ live sj -> memory s' !! q = memory sj !! q) ->
  kernel_page_dir_ s' = kernel_page_dir_ sj ->
  cloned s s' l dst /\ tables (memory s') l dst = tables (memory sj) l dst /\
  (forall va, walk (memory s') l dst va = walk (memory sj) l dst va).
Proof.
  intros (Hok & Hnew & Hlv & Hfr & Hdir) Hsub Hmem Hd.
  destruct (tables_ok_ext sj s' l dst Hok) as (Hok' & Et & Ew).
  { intros q Hq. destruct Hok as (_ & _ & Hl). destruct (Hl q Hq). split; [by apply Hmem|set_solver]. }
  split_and!; [|done|done]. split_and!; [done|by rewrite Et|set_solver| |congruence].
  intros q Hq Hne. rewrite Hmem by set_solver. by apply Hfr.
Qed.

(** The subtree [c], cloned from the source's entry, entered at [j]. *)
Lemma clone_inv_enter s l src dst copy j sj s2 ws w c :
  tables_ok s (S l) src -> dst ∉ tables (memory s) (S l) src -> (j < kEntriesPerTable)%nat ->
  clone_inv j s sj (S l) src dst copy ->
  memory s !! src = Some ws -> ws !! j = Some w -> valid w = true ->
  0 < c < phys_limit -> c mod 4096 = 0 -> c ∉ live sj ->
  live sj ⊆ live s2 -> (forall q, q ∈ live sj -> memory s2 !! q = memory sj !! q) ->
  kernel_page_dir_ s2 = kernel_page_dir_ sj ->
  tables_ok s2 l c -> (forall q, q ∈ tables (memory s2) l c -> q ∉ live sj) ->
  (forall va, 0 <= va < 2 ^ 64 ->
     walk (memory s2) l c va = if copy then walk (memory s) l (pa_of w) va else None) ->
  drew (length (tables (memory s) l (pa_of w))) (alloc_state sj) (alloc_state s2) ->
  exists s3, store dst j (pte_of c table_permissions) s2 = Ret s3 tt /\
    clone_inv (S j) s s3 (S l) src dst copy.
Proof.
  intros Hsrc Hd Hj (Hc & (dk & Hdk & Hz) & Hw & Hq0) Hp Hi Hv Hr Hm Hcn Hsub Hmem Hdir Hokc Hnewc Hwc Hqc.
  pose proof Hc as (Hok & Hnew & Hlv & Hfr & Hdir0).
  assert (dst ∈ live sj) as Hdl by apply Hok, tables_root.
  assert (memory s2 !! dst = Some dk) as Hd2 by (by rewrite Hmem).
  assert (dk !! j = Some 0) as Hj0 by (apply Hz; lia).
  rewrite (store_run s2 dst j dk) by (done || by eapply lookup_lt_Some).
  eexists. split; [reflexivity|].
  destruct (cloned_frame s sj s2 (S l) dst Hc Hsub Hmem Hdir) as (Hc2 & Et & Ew).
  destruct table_valid as [Hb Hf]. pose proof phys_limit_word as HL.
  destruct (enter_child s2 l dst dk j 0 (pte_of c table_permissions) c) as (Hok3 & HP & Hw3).
  { apply Hc2. }
  { done. } { done. } { apply invalid_zero. } { done. }
  { intros q Hq Hq'. rewrite Et in Hq'. apply (Hnewc q Hq). by apply Hok. }
  { by rewrite valid_pte by lia. }
  { apply pa_of_pte; done || lia. }
  split_and!.
  - split_and!; [done| |set_solver| |simpl; congruence].
    + intros q. rewrite HP, elem_of_app, Et. intros [Hq | Hq]; [|by apply Hnew].
      right. intros Hin. apply (Hnewc q Hq). set_solver.
    + intros q Hq Hne. simpl. rewrite lookup_insert_ne by done.
      rewrite Hmem by set_solver. by apply Hfr.
  - exists (<[j := pte_of c table_permissions]> dk). simpl. rewrite lookup_insert_eq. split; [done|].
    intros i Hlt. rewrite list_lookup_insert_ne by lia. apply Hz. lia.
  - intros va Hva Hlt. rewrite Hw3. case_decide as E.
    + rewrite Hwc by done. destruct copy; [|done]. cbn [walk]. unfold entry. rewrite Hp, E. simpl.
      rewrite Hi. simpl. by rewrite Hv.
    + rewrite Ew. apply Hw; [done|lia].
  - rewrite (copied_child _ _ _ _ _ _ Hp Hi Hv). by eapply drew_trans.
Qed.

Lemma clone_step_dir s l src dst copy j sj :
  (forall s src dst, tables_ok s l src -> memory s !! dst = Some (replicate kEntriesPerTable 0) ->
     dst ∈ live s -> dst <> nullptr -> dst ∉ tables (memory s) l src ->
     clone_result s l src dst copy (RecursiveClonePageTable src dst l copy s) kEntriesPerTable) ->
  (S l < levels)%nat ->
  tables_ok s (S l) src -> dst ∉ tables (memory s) (S l) src -> (j < kEntriesPerTable)%nat ->
  clone_inv j s sj (S l) src dst copy ->
  clone_result s (S l) src dst copy (clone_body src dst (S l) copy j sj) (S j).
Proof.
  intros IH Hlev Hsrc Hd Hj Hinv. pose proof Hinv as (Hc & _ & _ & Hdr).
  destruct (src_entry s (S l) src dst Hsrc Hd j sj Hj Hc) as (ws & w & Hp & Hi & Hld).
  unfold clone_body, bind at 1. rewrite Hld. destruct (valid w) eqn:Hv; cbn [negb].
  2: { exists sj, (inl tt). split; [done|]. eapply clone_inv_skip; eauto. }
  pose proof Hc as (Hok & Hnew & Hlv & Hfr & Hdir).
  pose proof (copied_le (memory s) (S l) src (S j)) as Hle. rewrite (copied_child _ _ _ _ _ _ Hp Hi Hv) in Hle.
  pose proof (tables_nonempty (memory s) l (pa_of w)) as Hne.
  unfold bind at 1, aligned_alloc.
  destruct (pa_alloc (alloc_state sj)) as [[[c ws0]|] a] eqn:Ha.
  2: { simpl. eexists _, (inr _). split; [reflexivity|]. pose proof (alloc_none _ _ Ha) as Hl0.
       split; [|split; [done|]].
       2: { eapply refuses_mono; [|eapply drew_refuses; [exact Hdr|apply (refuses_now 1); [by rewrite Ha|lia]]]. lia. }
       eapply cloned_frame; [exact Hc| | |]; simpl; [by rewrite Hl0|done|done]. }
  destruct (alloc_some _ _ _ _ Ha) as (Hcn & La & Hr & Hm & _).
  rewrite (proj2 (Z.eqb_neq c nullptr)) by (unfold nullptr; lia).
  unfold bind at 1, clear_page. cbn [memory set_memory]. rewrite lookup_insert_eq.
  cbn [memory set_memory]. rewrite insert_insert_eq.
  match goal with |- clone_result _ _ _ _ _ (bind _ _ ?x) _ => set (s1 := x) end.
  assert (memory s1 !! c = Some (replicate kEntriesPerTable 0)) as Hc1 by apply lookup_insert_eq.
  assert (live s1 = {[c]} ∪ live sj) as L1 by exact La.
  assert (forall q, q ∈ live sj -> memory s1 !! q = memory sj !! q) as M1.
  { intros q Hq. simpl. rewrite lookup_insert_ne; [done|]. by intros ->. }
  assert (kernel_page_dir_ s1 = kernel_page_dir_ sj) as D1 by done.
  assert (drew 1 (alloc_state sj) (alloc_state s1)) as Q1 by exact (took_one _ _ _ _ Ha). clearbody s1.
  assert (c ∈ live s1) as Hcl by (rewrite L1; by apply elem_of_union_l, elem_of_singleton).
  assert (forall q, q ∈ live sj -> q ∈ live s1) as Hj1 by (intros q Hq; rewrite L1; by apply elem_of_union_r).
  assert (forall q, q ∈ tables (memory s) l (pa_of w) -> q ∈ live s /\ q <> dst) as Hkid.
  { intros q Hq. assert (q ∈ tables (memory s) (S l) src) as Hin by (by eapply kid_in).
    split; [by apply Hsrc|]. by intros ->. }
  destruct (tables_ok_ext s s1 l (pa_of w)) as (Hok1 & Et1 & Ew1).
  { by eapply child_ok. }
  { intros q Hq. destruct (Hkid q Hq) as [Hql Hqd]. split; [|by apply Hj1, Hlv].
    rewrite M1 by (by apply Hlv). by apply Hfr. }
  destruct (IH s1 (pa_of w) c Hok1 Hc1) as (s2 & r & Hr2 & Hm2); [done|unfold nullptr; lia| |].
  { rewrite Et1. intros Hq. apply Hkid in Hq as [Hq _]. by apply Hcn, Hlv. }
  unfold bind at 1. rewrite Hr2.
  assert (forall q, q ∈ live sj -> q <> c) as Hqc by (intros q Hq ->; done).
  destruct r as [[] | e].
  - destruct Hm2 as ((Hok2 & Hn2 & Hl2 & Hf2 & Hd2) & _ & Hw2 & Hq2).
    destruct (clone_inv_enter s l src dst copy j sj s2 ws w c) as (s3 & Hs3 & Hi3);
      try done; try congruence; [intros q Hq'; by apply Hl2, Hj1| | | | |].
    + intros q Hq'. rewrite Hf2; [by apply M1|by apply Hj1|by apply Hqc].
    + intros q Hq'. destruct (Hn2 q Hq') as [-> | Hq3]; [done|]. intros Hqj. by apply Hq3, Hj1.
    + intros va Hva. rewrite Hw2, Ew1 by (done || (apply index_lt; [done|lia])). done.
    + pose proof (copied_le (memory s1) l (pa_of w) kEntriesPerTable) as Hle1. rewrite Et1 in Hle1.
      eapply drew_mono; [|eapply drew_trans; [exact Q1|exact Hq2]]. lia.
    + exists s3, (inl tt). unfold bind. by rewrite Hs3.
  - destruct Hm2 as ((Hok2 & Hn2 & Hl2 & Hf2 & Hd2) & -> & Hfail). rewrite Et1 in Hfail.
    unfold bind. rewrite aligned_free_run; [|by apply Hl2|unfold nullptr; lia].
    eexists _, (inr _). split; [reflexivity|].
    split; [|split; [done|eapply refuses_mono; [|eapply drew_refuses; [exact Hdr|eapply drew_refuses; [exact Q1|exact Hfail]]]; lia]].
    eapply cloned_frame; [exact Hc| | |]; simpl; try congruence.
    + rewrite free_live. intros q Hq'. apply elem_of_difference. split; [by apply Hl2, Hj1|].
      rewrite elem_of_singleton. by apply Hqc.
    + intros q Hq. rewrite lookup_delete_ne by (intros <-; done).
      rewrite Hf2; [by apply M1|by apply Hj1|by apply Hqc].
Qed.

Lemma clone_run l copy s src dst :
  (l < levels)%nat -> tables_ok s l src -> memory s !! dst = Some (replicate kEntriesPerTable 0) ->
  dst ∈ live s -> dst <> nullptr -> dst ∉ tables (memory s) l src ->
  clone_result s l src dst copy (RecursiveClonePageTable src dst l copy s) kEntriesPerTable.
Proof.
  revert s src dst. induction l as [|l IH]; intros s src dst Hlev Hsrc Hz Hl Hn Hd.
  all: rewrite clone_unfold by (done || apply Hsrc, tables_root).
  all: assert (forall k, clone_inv 0 s s k src dst copy) as H0.
  1, 3: intros k; destruct (zero_table (memory s) k dst Hz) as (T & Sh & _); split_and!;
    [split_and!; rewrite ?T; try done| |intros va _ Hlt; lia|apply drew_nil].
  1, 4: split_and!; rewrite ?T; [done|apply NoDup_singleton|]; by intros q ->%list_elem_of_singleton.
  1, 3: intros q ->%list_elem_of_singleton; by left.
  1, 2: exists (replicate kEntriesPerTable 0); split; [done|]; intros j Hj;
    apply lookup_replicate; lia.
  - apply clone_loop; [|lia|done]. intros j sj Hj Hi. by apply clone_step_leaf.
  - apply clone_loop; [|lia|done]. intros j sj Hj Hi. apply clone_step_dir; try done.
    intros. apply IH; done || lia.
Qed.

Lemma clone_start s p ws a src :
  dir_ok s src -> pa_alloc (alloc_state s) = (Some (p, ws), a) ->
  let s1 := set_memory (<[p := replicate kEntriesPerTable 0]> (memory s)) (set_alloc a s) in
  dir_ok s1 src /\ (forall va, walk (memory s1) top src va = walk (memory s) top src va) /\
  p ∈ live s1 /\ p <> nullptr /\ p ∉ tables (memory s1) top src /\ live s ⊆ live s1 /\ p ∉ live s /\
  live s1 = {[p]} ∪ live s /\ tables (memory s1) top src = tables (memory s) top src.
Proof.
  intros Hok Ha s1. destruct (alloc_some _ _ _ _ Ha) as (Hn & Hl & Hr & _).
  assert (live s1 = {[p]} ∪ live s) as L1 by exact Hl.
  destruct (tables_ok_ext s s1 top src Hok) as (Hok1 & Et & Ew).
  { intros q Hq. destruct Hok as (_ & _ & Hlv). destruct (Hlv q Hq) as [Hq1 _].
    split; [|rewrite L1; by apply elem_of_union_r]. simpl. rewrite lookup_insert_ne; [done|]. by intros ->. }
  split_and!; try done.
  - rewrite L1. by apply elem_of_union_l, elem_of_singleton.
  - unfold nullptr. lia.
  - rewrite Et. intros Hin. apply Hn. by apply Hok.
  - rewrite L1. apply union_subseteq_r.
Qed.

(** C18: [ClonePageDirectory] of a well-formed directory always returns.  On
    success the new directory is made of freshly allocated tables only and
    translates every address as the source did, or nothing when the mappings
    are not copied; the source directory and its translations are untouched.
    It asks the heap for at most as many pages as the source has tables: the only
    error is [kVmAllocationFailed], it happens only if the heap refuses one of
    that many requests, and it too leaves the source untouched. *)
Theorem clone_page_directory_spec s src copy :
  dir_ok s src ->
  exists s' r, ClonePageDirectory src copy s = Ret s' r /\ dir_ok s' src /\
    (forall va, view s' src va = view s src va) /\
    match r with
    | Value dst => dir_ok s' dst /\
        (forall q, q ∈ tables (memory s') top dst -> q ∉ live s) /\
        (forall va, 0 <= va < 2 ^ 64 ->
           view s' dst va = if copy then view s src va else None)
    | Unexpected e => e = kVmAllocationFailed /\
        refuses_within (length (tables (memory s) top src)) (alloc_state s) = true
    end.
Proof.
  intros Hok. pose proof (tables_nonempty (memory s) top src) as Hne. unfold ClonePageDirectory. unfold bind at 1, nk_assert_msg.
  rewrite (dir_nonnull s src Hok). cbn [negb]. unfold bind at 1, aligned_alloc.
  destruct (pa_alloc (alloc_state s)) as [[[p ws]|] a] eqn:Ha.
  2: { simpl. eexists _, (inr _). split; [reflexivity|]. pose proof (alloc_none _ _ Ha) as Hl0.
       destruct (tables_ok_ext s (set_alloc a s) top src Hok) as (Hok' & _ & Ew).
       { intros q Hq. split; [done|]. simpl. rewrite Hl0. by apply Hok. }
       split_and!; [done|intros va; unfold view, translate; by rewrite Ew|done|]. apply refuses_now; [by rewrite Ha|done]. }
  destruct (clone_start s p ws a src Hok Ha) as (Hok1 & Ew1 & Hp1 & Hp0 & Hpt & Hsub & Hpn & L1 & Et1).
  rewrite (proj2 (Z.eqb_neq p nullptr)) by done.
  unfold bind at 1, clear_page. cbn [memory set_memory]. rewrite lookup_insert_eq.
  cbn [memory set_memory]. rewrite insert_insert_eq.
  match type of Hok1 with dir_ok ?x _ => set (s1 := x) in * end.
  match goal with |- context [bind (RecursiveClonePageTable _ _ _ _) _ ?x] => change x with s1 end.
  assert (memory s1 !! p = Some (replicate kEntriesPerTable 0)) as Hz by apply lookup_insert_eq.
  assert (drew 1 (alloc_state s) (alloc_state s1)) as Q1 by exact (took_one _ _ _ _ Ha).
  clearbody s1. fold top.
  destruct (clone_run top copy s1 src p top_lt Hok1 Hz Hp1 Hp0 Hpt) as (s2 & r & Hr & Hm).
  unfold bind at 1. rewrite Hr.
  assert (cloned s1 s2 top p) as Hc by (destruct r; apply Hm).
  destruct Hc as (Hok2 & Hn2 & Hl2 & Hf2 & _).
  destruct (tables_ok_ext s1 s2 top src Hok1) as (Hsrc2 & Et2 & Ew2).
  { intros q Hq. pose proof (proj2 (proj2 Hok1) q Hq) as [Hq1 _]. split; [|by apply Hl2].
    apply Hf2; [done|]. by intros ->. }
  destruct r as [[] | e].
  - exists s2, (inl p). split_and!; try done.
    + intros va. unfold view, translate. by rewrite Ew2, Ew1.
    + intros q Hq. destruct (Hn2 q Hq) as [-> | Hq1]; [done|]. intros Hq'. by apply Hq1, Hsub.
    + intros va Hva. destruct Hm as (_ & _ & Hw & _). unfold view, translate.
      rewrite Hw by (done || (apply index_lt; [done|apply top_lt])).
      destruct copy; [by rewrite Ew1|done].
  - destruct Hm as (_ & -> & Hfail).
    destruct (destroy_run s2 p false) as (s3 & Hd3 & Hl3 & Hm3); try apply Hok2;
      rewrite ?owned_tables in *; try apply Hok2.
    unfold bind. rewrite Hd3. exists s3, (inr kVmAllocationFailed).
    destruct (tables_ok_ext s2 s3 top src Hsrc2) as (Hsrc3 & _ & Ew3).
    { intros q Hq. rewrite Et2 in Hq. pose proof (proj2 (proj2 Hok1) q Hq) as [Hq1 _].
      assert (q ∉ tables (memory s2) top p) as Hnin.
      { intros Hin. destruct (Hn2 q Hin) as [-> | Hq2]; done. }
      split; [by apply Hm3|]. rewrite Hl3. apply elem_of_difference. split; [by apply Hl2|].
      by rewrite elem_of_list_to_set. }
    split_and!; try done; [intros va; unfold view, translate; by rewrite Ew3, Ew2, Ew1|].
    rewrite Et1 in Hfail. eapply refuses_mono; [|eapply drew_refuses; [exact Q1|exact Hfail]]. lia.
Qed.

End clone.

(** ** A directory with two leaf tables and three pages left in the heap *)

Definition outcome_state {S T} (o : outcome S T) : S :=
  match o with Ret s _ => s | Halt s _ => s end.

Definition mapped_two : Vm Pool :=
  outcome_state (MapPage sample_root 2097152 12288 7
    (outcome_state (MapPage sample_root 4096 8192 7 (sample_vm 6)))).

Lemma mapped_two_ok : dir_ok mapped_two sample_root.
Proof.
  unfold mapped_two.
  destruct (map_page_run (sample_vm 6) sample_root 4096 8192 7)
    as (s1 & r1 & E1 & Hok1 & _); [apply sample_vm_ok|lia|simpl; lia|done|lia|].
  rewrite E1. simpl.
  destruct (map_page_run s1 sample_root 2097152 12288 7) as (s2 & r2 & E2 & Hok2 & _);
    [done|lia|simpl; lia|done|lia|].
  by rewrite E2.
Qed.

(** The four tables of the directory with four pages left, and with three. *)
Definition mapped_two_more : Vm Pool :=
  set_alloc (MkPool ((fun i => 4096 * Z.of_nat (S i)) <$> seq 0 4) (pa_live (alloc_state mapped_two))) mapped_two.

Lemma clone_page_directory_spec_witness :
  (exists s' dst, ClonePageDirectory sample_root true mapped_two_more = Ret s' (Value dst) /\ dir_ok s' dst /\
     view s' dst 4096 = Some (8192, 7) /\ view s' dst 0 = None) /\
  exists s', ClonePageDirectory sample_root true mapped_two = Ret s' (Unexpected kVmAllocationFailed) /\
    dir_ok s' sample_root.
Proof.
  split.
  - destruct (clone_page_directory_spec mapped_two_more sample_root true) as (s' & [dst|e] & Hr & _ & _ & Hm).
    + exact mapped_two_ok.
    + destruct Hm as (Hok & _ & Hv). exists s', dst. split; [exact Hr|]. split; [exact Hok|].
      rewrite !Hv by lia. split; vm_compute; reflexivity.
    + destruct Hm as [_ Hm]. vm_compute in Hm. discriminate Hm.
  - destruct (clone_page_directory_spec mapped_two sample_root true mapped_two_ok) as (s' & [dst|e] & Hr & Hok & _ & Hm).
    + exfalso. assert (match ClonePageDirectory sample_root true mapped_two with Ret _ (Value _) => False | _ => True end) as G
        by (vm_compute; exact I).
      rewrite Hr in G. exact G.
    + destruct Hm as [-> _]. exists s'. split; [exact Hr|exact Hok].
Defined.

(** a clone that fails half-way leaks.  When the second leaf table cannot be
    allocated, [RecursiveClonePageTable] frees the new middle table but not the
    leaf table that the middle table already points to; the later
    [DestroyPageDirectory] of the new root no longer reaches it.  The call
    reports the error with one page more allocated than before. *)
Theorem failed_clone_leaks :
  dir_ok mapped_two sample_root /\
  exists s', ClonePageDirectory sample_root true mapped_two =
      Ret s' (Unexpected kVmAllocationFailed) /\
    pa_live (alloc_state s') =
      pa_live (alloc_state mapped_two) ∪ {[ sample_root + 4096 * 6 ]} /\
    sample_root + 4096 * 6 ∉ pa_live (alloc_state mapped_two).
Proof.
  split; [apply mapped_two_ok|].
  exists (outcome_state (ClonePageDirectory sample_root true mapped_two)).
  split; [vm_compute; reflexivity|]. split; [vm_compute; reflexivity|].
  assert (bool_decide (sample_root + 4096 * 6 ∈ pa_live (alloc_state mapped_two)) = false) as E
    by (vm_compute; reflexivity).
  by apply bool_decide_eq_false in E.
Qed.

(** With enough pages the clone of the sample directory translates alike. *)
Example clone_translates :
  match ClonePageDirectory sample_root true
          (set_alloc (MkPool ((fun i => 4096 * Z.of_nat (S i)) <$> seq 0 8)
             (pa_live (alloc_state mapped_two))) mapped_two) with
  | Ret s (Value dst) => (view s dst 4096, view s dst 2097152, view s dst 0) =
                         (Some (8192, 7), Some (12288, 7), None)
  | _ => False
  end.
Proof. vm_compute. reflexivity. Qed.

Lemma destroy_frees_the_directory_witness :
  exists s', DestroyPageDirectory sample_root false mapped_two = Ret s' tt /\
    pa_live (alloc_state s') = pa_live (alloc_state mapped_two) ∖
      list_to_set (owned false (memory mapped_two) top sample_root).
Proof.
  pose proof mapped_two_ok as (Hs & Hn & Hl). rewrite <- owned_tables in Hn.
  assert (forall q, q ∈ owned false (memory mapped_two) top sample_root ->
    q ∈ pa_live (alloc_state mapped_two) /\ q <> nullptr) as Hl'
    by (intros q Hq; rewrite owned_tables in Hq; exact (Hl q Hq)).
  destruct (destroy_frees_the_directory mapped_two sample_root false Hs Hn Hl')
    as ((s' & H1 & H2 & _) & _).
  exists s'. split; [exact H1 | exact H2].
Defined.

End VmClone.
