(* ===== verification/Libfdt.v ===== *)
(** * The device-tree reader: src/3rd/dtc/libfdt/{fdt,fdt_ro,fdt_check,fdt_addresses}.c

    The blob lies in the byte memory of [CMem] at the address [fdt]; a read
    outside the memory is [Fault].  C integers are kept at their width: [int]
    results of unsigned arithmetic go through [s32], [uint32_t] ones through
    [u32].  A string argument is the list of its bytes; an out-parameter is a
    second component of the result.  The build sets no [FDT_ASSUME_MASK], so
    every check is compiled in.  Loops over the blob run on the fuel
    [S (size m)]. *)

From stdpp Require Import base numbers list gmap.
From Stdlib Require Import ZArith Lia Ascii String.
From S2P Require Import Prelude CMem CString.
Import CString.

Local Open Scope Z_scope.

Module Libfdt.

(** ** Constants: fdt.h, libfdt.h *)

Definition FDT_MAGIC : Z := 3490578157.
Definition FDT_SW_MAGIC : Z := u32 (Z.lnot FDT_MAGIC).
Definition FDT_TAGSIZE : Z := 4.
Definition FDT_BEGIN_NODE : Z := 1.
Definition FDT_END_NODE : Z := 2.
Definition FDT_PROP : Z := 3.
Definition FDT_NOP : Z := 4.
Definition FDT_END : Z := 9.
Definition FDT_V1_SIZE : Z := 28.
Definition FDT_V2_SIZE : Z := FDT_V1_SIZE + 4.
Definition FDT_V3_SIZE : Z := FDT_V2_SIZE + 4.
Definition FDT_V16_SIZE : Z := FDT_V3_SIZE.
Definition FDT_V17_SIZE : Z := FDT_V16_SIZE + 4.
Definition FDT_FIRST_SUPPORTED_VERSION : Z := 2.
Definition FDT_LAST_SUPPORTED_VERSION : Z := 17.
Definition FDT_ERR_NOTFOUND : Z := 1.
Definition FDT_ERR_NOSPACE : Z := 3.
Definition FDT_ERR_BADOFFSET : Z := 4.
Definition FDT_ERR_BADPATH : Z := 5.
Definition FDT_ERR_BADPHANDLE : Z := 6.
Definition FDT_ERR_BADSTATE : Z := 7.
Definition FDT_ERR_TRUNCATED : Z := 8.
Definition FDT_ERR_BADMAGIC : Z := 9.
Definition FDT_ERR_BADVERSION : Z := 10.
Definition FDT_ERR_BADSTRUCTURE : Z := 11.
Definition FDT_ERR_INTERNAL : Z := 13.
Definition FDT_ERR_BADNCELLS : Z := 14.
Definition FDT_ERR_BADVALUE : Z := 15.
Definition FDT_ERR_NOPHANDLES : Z := 17.
Definition FDT_ERR_ALIGNMENT : Z := 19.
Definition FDT_MAX_PHANDLE : Z := 4294967294.
Definition FDT_MAX_NCELLS : Z := 4.

(** [FDT_TAGALIGN], converted to [int] *)
Definition FDT_TAGALIGN (x : Z) : Z :=
  s32 (Z.land (u64 (x + FDT_TAGSIZE - 1)) (u64 (Z.lnot (FDT_TAGSIZE - 1)))).

(** The bytes of a string literal. *)
Fixpoint lit (s : string) : list Z :=
  match s with
  | EmptyString => []
  | String c s' => Z.of_nat (nat_of_ascii c) :: lit s'
  end.

Section reader.
Context (m : mem) (fdt : Z).

(** ** Loads *)

(** [fdt32_ld]; [fdt32_to_cpu] of a word in memory *)
Definition fdt32_ld (p : ptr) : run Z :=
  let+ b0 := load8 m p in
  let+ b1 := load8 m (p + 1) in
  let+ b2 := load8 m (p + 2) in
  let+ b3 := load8 m (p + 3) in
  Done (b0 * 2 ^ 24 + b1 * 2 ^ 16 + b2 * 2 ^ 8 + b3).

Definition fdt64_ld (p : ptr) : run Z :=
  let+ hi := fdt32_ld p in
  let+ lo := fdt32_ld (p + 4) in
  Done (hi * 2 ^ 32 + lo).

(** The header fields. *)
Definition fdt_magic : run Z := fdt32_ld fdt.
Definition fdt_totalsize : run Z := fdt32_ld (fdt + 4).
Definition fdt_off_dt_struct : run Z := fdt32_ld (fdt + 8).
Definition fdt_off_dt_strings : run Z := fdt32_ld (fdt + 12).
Definition fdt_off_mem_rsvmap : run Z := fdt32_ld (fdt + 16).
Definition fdt_version : run Z := fdt32_ld (fdt + 20).
Definition fdt_last_comp_version : run Z := fdt32_ld (fdt + 24).
Definition fdt_size_dt_strings : run Z := fdt32_ld (fdt + 32).
Definition fdt_size_dt_struct : run Z := fdt32_ld (fdt + 36).

(** [memcmp(p, s, len) == 0] against the bytes [s]. *)
Fixpoint bytes_eq (p : ptr) (s : list Z) : run bool :=
  match s with
  | [] => Done true
  | c :: s' =>
      let+ b := load8 m p in
      if b =? c then bytes_eq (p + 1) s' else Done false
  end.

(** The bytes of the C string at [p]. *)
Fixpoint read_bytes (n : nat) (p : ptr) : run (list Z) :=
  match n with
  | O => Done []
  | S n' =>
      let+ b := load8 m p in
      let+ r := read_bytes n' (p + 1) in
      Done (b :: r)
  end.
Definition read_string (p : ptr) : run (list Z) :=
  let+ n := strlen p m in read_bytes (Z.to_nat n) p.

(** ** fdt.c *)

Definition fdt_ro_probe_ : run Z :=
  let+ totalsize := fdt_totalsize in
  if negb (Z.land fdt 7 =? 0) then Done (- FDT_ERR_ALIGNMENT)
  else
  let finish := if totalsize <? 2 ^ 31 - 1 then Done totalsize else Done (- FDT_ERR_TRUNCATED) in
  let+ magic := fdt_magic in
  if magic =? FDT_MAGIC then
    let+ version := fdt_version in
    if version <? FDT_FIRST_SUPPORTED_VERSION then Done (- FDT_ERR_BADVERSION)
    else
    let+ last := fdt_last_comp_version in
    if FDT_LAST_SUPPORTED_VERSION <? last then Done (- FDT_ERR_BADVERSION)
    else finish
  else if magic =? FDT_SW_MAGIC then
    let+ size := fdt_size_dt_struct in
    if size =? 0 then Done (- FDT_ERR_BADSTATE) else finish
  else Done (- FDT_ERR_BADMAGIC).

Definition check_off_ (hdrsize totalsize off : Z) : bool :=
  (hdrsize <=? off) && (off <=? totalsize).

Definition check_block_ (hdrsize totalsize base size : Z) : bool :=
  if negb (check_off_ hdrsize totalsize base) then false
  else if u32 (base + size) <? base then false
  else if negb (check_off_ hdrsize totalsize (u32 (base + size))) then false
  else true.

Definition fdt_header_size_ (version : Z) : Z :=
  if version <=? 1 then FDT_V1_SIZE
  else if version <=? 2 then FDT_V2_SIZE
  else if version <=? 3 then FDT_V3_SIZE
  else if version <=? 16 then FDT_V16_SIZE
  else FDT_V17_SIZE.

Definition fdt_header_size : run Z :=
  let+ version := fdt_version in Done (fdt_header_size_ version).

Definition fdt_check_header : run Z :=
  if negb (Z.land fdt 7 =? 0) then Done (- FDT_ERR_ALIGNMENT)
  else
  let+ magic := fdt_magic in
  if negb (magic =? FDT_MAGIC) then Done (- FDT_ERR_BADMAGIC)
  else
  let+ version := fdt_version in
  let+ last := fdt_last_comp_version in
  if (version <? FDT_FIRST_SUPPORTED_VERSION) || (FDT_LAST_SUPPORTED_VERSION <? last)
  then Done (- FDT_ERR_BADVERSION)
  else if version <? last then Done (- FDT_ERR_BADVERSION)
  else
  let+ hdrsize := fdt_header_size in
  let+ totalsize := fdt_totalsize in
  if (totalsize <? hdrsize) || (2 ^ 31 - 1 <? totalsize) then Done (- FDT_ERR_TRUNCATED)
  else
  let+ rsv := fdt_off_mem_rsvmap in
  if negb (check_off_ hdrsize totalsize rsv) then Done (- FDT_ERR_TRUNCATED)
  else
  let+ off_struct := fdt_off_dt_struct in
  let+ struct_ok :=
    (if version <? 17 then Done (check_off_ hdrsize totalsize off_struct)
     else let+ size_struct := fdt_size_dt_struct in
          Done (check_block_ hdrsize totalsize off_struct size_struct)) in
  if negb struct_ok then Done (- FDT_ERR_TRUNCATED)
  else
  let+ off_strings := fdt_off_dt_strings in
  let+ size_strings := fdt_size_dt_strings in
  if negb (check_block_ hdrsize totalsize off_strings size_strings)
  then Done (- FDT_ERR_TRUNCATED)
  else Done 0.

(** [fdt_offset_ptr_]: no check. *)
Definition fdt_offset_ptr_ (offset : Z) : run ptr :=
  let+ off_struct := fdt_off_dt_struct in Done (fdt + off_struct + offset).

Definition fdt_offset_ptr (offset len : Z) : run ptr :=
  let+ off_struct := fdt_off_dt_struct in
  let uoffset := u32 offset in
  let absoffset := u32 (offset + off_struct) in
  if offset <? 0 then Done nullptr
  else
  let+ totalsize := fdt_totalsize in
  if (absoffset <? uoffset) || (u32 (absoffset + len) <? absoffset) ||
     (totalsize <? u32 (absoffset + len)) then Done nullptr
  else
  let+ version := fdt_version in
  let+ past :=
    (if 17 <=? version then
       let+ size_struct := fdt_size_dt_struct in
       Done ((u32 (uoffset + len) <? uoffset) || (size_struct <? u32 (offset + len)))
     else Done false) in
  if past then Done nullptr else fdt_offset_ptr_ offset.

(** [do { p = fdt_offset_ptr(fdt, offset++, 1); } while (p && ( *p != 0));] *)
Fixpoint skip_name (fuel : nat) (offset : Z) : run (ptr * Z) :=
  match fuel with
  | O => NoFuel
  | S fuel' =>
      let+ p := fdt_offset_ptr offset 1 in
      if p =? nullptr then Done (p, offset + 1)
      else
      let+ b := load8 m p in
      if b =? 0 then Done (p, offset + 1) else skip_name fuel' (offset + 1)
  end.

(** The tag and [*nextoffset]. *)
Definition fdt_next_tag (startoffset : Z) : run (Z * Z) :=
  let+ tagp := fdt_offset_ptr startoffset FDT_TAGSIZE in
  if tagp =? nullptr then Done (FDT_END, - FDT_ERR_TRUNCATED)
  else
  let+ tag := fdt32_ld tagp in
  let offset := startoffset + FDT_TAGSIZE in
  let bad := Done (FDT_END, - FDT_ERR_BADSTRUCTURE) in
  let finish offset :=
    let+ p := fdt_offset_ptr startoffset (u32 (offset - startoffset)) in
    if p =? nullptr then bad else Done (tag, FDT_TAGALIGN offset) in
  if tag =? FDT_BEGIN_NODE then
    let+ '(p, offset) := skip_name (S (size m)) offset in
    if p =? nullptr then bad else finish offset
  else if tag =? FDT_PROP then
    let+ lenp := fdt_offset_ptr offset 4 in
    if lenp =? nullptr then bad
    else
    let+ len := fdt32_ld lenp in
    let sum := u32 (len + offset) in
    if (INT_MAX <=? sum) || (sum <? u32 offset) then bad
    else
    let offset := s32 (offset + 12 - FDT_TAGSIZE + len) in
    let+ version := fdt_version in
    finish (if (version <? 16) && (8 <=? len) && negb (u32 (offset - len) mod 8 =? 0)
            then offset + 4 else offset)
  else if (tag =? FDT_END) || (tag =? FDT_END_NODE) || (tag =? FDT_NOP) then finish offset
  else bad.

Definition fdt_check_node_offset_ (offset : Z) : run Z :=
  if (offset <? 0) || negb (offset mod FDT_TAGSIZE =? 0) then Done (- FDT_ERR_BADOFFSET)
  else
  let+ '(tag, offset) := fdt_next_tag offset in
  if negb (tag =? FDT_BEGIN_NODE) then Done (- FDT_ERR_BADOFFSET) else Done offset.

Definition fdt_check_prop_offset_ (offset : Z) : run Z :=
  if (offset <? 0) || negb (offset mod FDT_TAGSIZE =? 0) then Done (- FDT_ERR_BADOFFSET)
  else
  let+ '(tag, offset) := fdt_next_tag offset in
  if negb (tag =? FDT_PROP) then Done (- FDT_ERR_BADOFFSET) else Done offset.

(** The loop of [fdt_next_node]; [depth] is the optional counter.  The result is
    the return value and the counter. *)
Fixpoint next_node_loop (fuel : nat) (offset : Z) (depth : option Z) : run (Z * option Z) :=
  match fuel with
  | O => NoFuel
  | S fuel' =>
      let+ '(tag, nextoffset) := fdt_next_tag offset in
      if tag =? FDT_BEGIN_NODE then Done (offset, (fun d => d + 1) <$> depth)
      else if tag =? FDT_END_NODE then
        match depth with
        | Some d => if d - 1 <? 0 then Done (nextoffset, Some (d - 1))
                    else next_node_loop fuel' nextoffset (Some (d - 1))
        | None => next_node_loop fuel' nextoffset None
        end
      else if tag =? FDT_END then
        if (0 <=? nextoffset) ||
           ((nextoffset =? - FDT_ERR_TRUNCATED) && negb (bool_decide (is_Some depth)))
        then Done (- FDT_ERR_NOTFOUND, depth) else Done (nextoffset, depth)
      else next_node_loop fuel' nextoffset depth
  end.

Definition fdt_next_node (offset : Z) (depth : option Z) : run (Z * option Z) :=
  if 0 <=? offset then
    let+ nextoffset := fdt_check_node_offset_ offset in
    if nextoffset <? 0 then Done (nextoffset, depth)
    else next_node_loop (S (size m)) nextoffset depth
  else next_node_loop (S (size m)) 0 depth.

Definition fdt_first_subnode (offset : Z) : run Z :=
  let+ '(offset, depth) := fdt_next_node offset (Some 0) in
  if (offset <? 0) || negb (default 0 depth =? 1) then Done (- FDT_ERR_NOTFOUND) else Done offset.

Fixpoint next_subnode_loop (fuel : nat) (offset : Z) (depth : Z) : run Z :=
  match fuel with
  | O => NoFuel
  | S fuel' =>
      let+ '(offset, depth) := fdt_next_node offset (Some depth) in
      let depth := default 0 depth in
      if (offset <? 0) || (depth <? 1) then Done (- FDT_ERR_NOTFOUND)
      else if 1 <? depth then next_subnode_loop fuel' offset depth
      else Done offset
  end.

Definition fdt_next_subnode (offset : Z) : run Z := next_subnode_loop (S (size m)) offset 1.

End reader.

Arguments bytes_eq : simpl nomatch.

End Libfdt.
