(* ===== verification/LibfdtRo.v ===== *)
(** * Read access to a device tree: src/3rd/dtc/libfdt/fdt_ro.c, fdt_check.c,
      fdt_addresses.c, fdt_strerror.c

    Conventions as in [Libfdt].  A pointer result is an address, null on
    failure, paired with the value left in [*lenp]. *)

From stdpp Require Import base numbers list gmap.
From Stdlib Require Import ZArith Lia Ascii String.
From S2P Require Import Prelude CMem CString Libfdt.
Import CString Libfdt.

Local Open Scope Z_scope.

Module LibfdtRo.

Section ro.
Context (m : mem) (fdt : Z).

Abbreviation fdt_next_tag := (Libfdt.fdt_next_tag m fdt).
Abbreviation fdt_next_node := (Libfdt.fdt_next_node m fdt).
Abbreviation fdt_ro_probe_ := (Libfdt.fdt_ro_probe_ m fdt).
Abbreviation fdt_version := (Libfdt.fdt_version m fdt).
Abbreviation fdt_magic := (Libfdt.fdt_magic m fdt).
Abbreviation fdt_totalsize := (Libfdt.fdt_totalsize m fdt).
Abbreviation fdt_off_mem_rsvmap := (Libfdt.fdt_off_mem_rsvmap m fdt).
Abbreviation fdt_off_dt_strings := (Libfdt.fdt_off_dt_strings m fdt).
Abbreviation fdt_size_dt_strings := (Libfdt.fdt_size_dt_strings m fdt).
Abbreviation fdt_check_node_offset_ := (Libfdt.fdt_check_node_offset_ m fdt).
Abbreviation fdt_check_prop_offset_ := (Libfdt.fdt_check_prop_offset_ m fdt).
Abbreviation fdt_offset_ptr_ := (Libfdt.fdt_offset_ptr_ m fdt).
Abbreviation fdt32_ld := (Libfdt.fdt32_ld m).
Abbreviation fdt64_ld := (Libfdt.fdt64_ld m).
Abbreviation bytes_eq := (Libfdt.bytes_eq m).

(** ** Strings and names *)

Definition fdt_get_string (stroffset : Z) : run (ptr * Z) :=
  let fail err := Done (nullptr, err) in
  let+ totalsize := fdt_ro_probe_ in
  if totalsize <? 0 then fail totalsize
  else
  let+ off_strings := fdt_off_dt_strings in
  let absoffset := u32 (stroffset + off_strings) in
  if totalsize <=? absoffset then fail (- FDT_ERR_BADOFFSET)
  else
  let len := totalsize - absoffset in
  let scan len :=
    let s := fdt + absoffset in
    let+ n := memchr s 0 len m in
    if n =? nullptr then fail (- FDT_ERR_TRUNCATED) else Done (s, n - s) in
  let+ magic := fdt_magic in
  if magic =? FDT_MAGIC then
    if stroffset <? 0 then fail (- FDT_ERR_BADOFFSET)
    else
    let+ version := fdt_version in
    if 17 <=? version then
      let+ size_strings := fdt_size_dt_strings in
      if size_strings <=? stroffset then fail (- FDT_ERR_BADOFFSET)
      else scan (if size_strings - stroffset <? len then size_strings - stroffset else len)
    else scan len
  else if magic =? FDT_SW_MAGIC then
    let sw_stroffset := u32 (- stroffset) in
    let+ size_strings := fdt_size_dt_strings in
    if (0 <=? stroffset) || (size_strings <? sw_stroffset) then fail (- FDT_ERR_BADOFFSET)
    else scan (if sw_stroffset <? len then sw_stroffset else len)
  else fail (- FDT_ERR_INTERNAL).

Definition fdt_string (stroffset : Z) : run ptr :=
  let+ '(p, _) := fdt_get_string stroffset in Done p.

Definition fdt_string_eq_ (stroffset : Z) (s : list Z) : run bool :=
  let+ '(p, slen) := fdt_get_string stroffset in
  if (p =? nullptr) || negb (slen =? Z.of_nat (List.length s)) then Done false
  else bytes_eq p s.

Definition fdt_get_name (nodeoffset : Z) : run (ptr * Z) :=
  let+ nh := fdt_offset_ptr_ nodeoffset in
  let+ err := fdt_ro_probe_ in
  if err <? 0 then Done (nullptr, err)
  else
  let+ err := fdt_check_node_offset_ nodeoffset in
  if err <? 0 then Done (nullptr, err)
  else
  let nameptr := nh + 4 in
  let+ version := fdt_version in
  if version <? 16 then
    let+ leaf := strrchr nameptr 47 m in
    if leaf =? nullptr then Done (nullptr, - FDT_ERR_BADSTRUCTURE)
    else let+ n := strlen (leaf + 1) m in Done (leaf + 1, n)
  else let+ n := strlen nameptr m in Done (nameptr, n).

Definition fdt_nodename_eq_ (offset : Z) (s : list Z) : run bool :=
  let+ '(p, olen) := fdt_get_name offset in
  let len := Z.of_nat (List.length s) in
  if (p =? nullptr) || (olen <? len) then Done false
  else
  let+ eq := bytes_eq p s in
  if negb eq then Done false
  else
  let+ c := load8 m (p + len) in
  if c =? 0 then Done true
  else Done (negb (bool_decide (64 ∈ s)) && (c =? 64)).

(** ** Reservations *)

Definition fdt_mem_rsv (n : Z) : run ptr :=
  let offset := u32 (n * 16) in
  let+ off_rsv := fdt_off_mem_rsvmap in
  let absoffset := u32 (off_rsv + offset) in
  if absoffset <? off_rsv then Done nullptr
  else
  let+ totalsize := fdt_totalsize in
  if u64 (totalsize - 16) <? absoffset then Done nullptr
  else Done (fdt + off_rsv + n * 16).

(** The return value, [*address] and [*size]. *)
Definition fdt_get_mem_rsv (n : Z) : run (Z * option (Z * Z)) :=
  let+ total := fdt_ro_probe_ in
  if total <? 0 then Done (total, None)
  else
  let+ re := fdt_mem_rsv n in
  if re =? nullptr then Done (- FDT_ERR_BADOFFSET, None)
  else
  let+ address := fdt64_ld re in
  let+ size := fdt64_ld (re + 8) in
  Done (0, Some (address, size)).

Fixpoint num_mem_rsv_loop (fuel : nat) (i : Z) : run Z :=
  match fuel with
  | O => NoFuel
  | S fuel' =>
      let+ re := fdt_mem_rsv i in
      if re =? nullptr then Done (- FDT_ERR_TRUNCATED)
      else
      let+ size := fdt64_ld (re + 8) in
      if size =? 0 then Done i else num_mem_rsv_loop fuel' (i + 1)
  end.

Definition fdt_num_mem_rsv : run Z := num_mem_rsv_loop (S (size m)) 0.

(** ** Properties *)

Fixpoint nextprop_loop (fuel : nat) (offset : Z) : run Z :=
  match fuel with
  | O => NoFuel
  | S fuel' =>
      let+ '(tag, nextoffset) := fdt_next_tag offset in
      if tag =? FDT_END then
        if 0 <=? nextoffset then Done (- FDT_ERR_BADSTRUCTURE) else Done nextoffset
      else if tag =? FDT_PROP then Done offset
      else if tag =? FDT_NOP then nextprop_loop fuel' nextoffset
      else Done (- FDT_ERR_NOTFOUND)
  end.

Definition nextprop_ (offset : Z) : run Z := nextprop_loop (S (size m)) offset.

Definition fdt_first_property_offset (nodeoffset : Z) : run Z :=
  let+ offset := fdt_check_node_offset_ nodeoffset in
  if offset <? 0 then Done offset else nextprop_ offset.

Definition fdt_next_property_offset (offset : Z) : run Z :=
  let+ offset := fdt_check_prop_offset_ offset in
  if offset <? 0 then Done offset else nextprop_ offset.

Definition fdt_get_property_by_offset_ (offset : Z) : run (ptr * Z) :=
  let+ err := fdt_check_prop_offset_ offset in
  if err <? 0 then Done (nullptr, err)
  else
  let+ prop := fdt_offset_ptr_ offset in
  let+ len := fdt32_ld (prop + 4) in
  Done (prop, s32 len).

Definition fdt_get_property_by_offset (offset : Z) : run (ptr * Z) :=
  let+ version := fdt_version in
  if version <? 16 then Done (nullptr, - FDT_ERR_BADVERSION)
  else fdt_get_property_by_offset_ offset.

(** The property, [*lenp] and [*poffset]. *)
Fixpoint get_property_loop (fuel : nat) (offset : Z) (name : list Z) : run (ptr * Z * Z) :=
  match fuel with
  | O => NoFuel
  | S fuel' =>
      if offset <? 0 then Done (nullptr, offset, 0)
      else
      let+ '(prop, len) := fdt_get_property_by_offset_ offset in
      if prop =? nullptr then Done (nullptr, - FDT_ERR_INTERNAL, 0)
      else
      let+ nameoff := fdt32_ld (prop + 8) in
      let+ eq := fdt_string_eq_ (s32 nameoff) name in
      if eq then Done (prop, len, offset)
      else
      let+ offset := fdt_next_property_offset offset in
      get_property_loop fuel' offset name
  end.

Definition fdt_get_property_namelen_ (offset : Z) (name : list Z) : run (ptr * Z * Z) :=
  let+ offset := fdt_first_property_offset offset in
  get_property_loop (S (size m)) offset name.

Definition fdt_get_property_namelen (offset : Z) (name : list Z) : run (ptr * Z) :=
  let+ version := fdt_version in
  if version <? 16 then Done (nullptr, - FDT_ERR_BADVERSION)
  else let+ '(prop, len, _) := fdt_get_property_namelen_ offset name in Done (prop, len).

Definition fdt_get_property (nodeoffset : Z) (name : list Z) : run (ptr * Z) :=
  fdt_get_property_namelen nodeoffset name.

(** The address of [prop->data], past the realignment of old versions. *)
Definition prop_data (prop poffset : Z) : run ptr :=
  let+ version := fdt_version in
  let+ realign :=
    (if (version <? 16) && negb ((poffset + 12) mod 8 =? 0)
     then let+ len := fdt32_ld (prop + 4) in Done (8 <=? len) else Done false) in
  Done (if realign then prop + 12 + 4 else prop + 12).

Definition fdt_getprop_namelen (nodeoffset : Z) (name : list Z) : run (ptr * Z) :=
  let+ '(prop, len, poffset) := fdt_get_property_namelen_ nodeoffset name in
  if prop =? nullptr then Done (nullptr, len)
  else let+ p := prop_data prop poffset in Done (p, len).

(** Data, [*namep] and [*lenp], with a name asked for. *)
Definition fdt_getprop_by_offset (offset : Z) : run (ptr * ptr * Z) :=
  let+ '(prop, len) := fdt_get_property_by_offset_ offset in
  if prop =? nullptr then Done (nullptr, nullptr, len)
  else
  let+ nameoff := fdt32_ld (prop + 8) in
  let+ '(name, namelen) := fdt_get_string (s32 nameoff) in
  if name =? nullptr then Done (nullptr, nullptr, namelen)
  else let+ p := prop_data prop offset in Done (p, name, len).

Definition fdt_getprop (nodeoffset : Z) (name : list Z) : run (ptr * Z) :=
  fdt_getprop_namelen nodeoffset name.

Definition fdt_get_phandle (nodeoffset : Z) : run Z :=
  let+ '(php, len) := fdt_getprop nodeoffset (lit "phandle"%string) in
  if (php =? nullptr) || negb (len =? 4) then
    let+ '(php, len) := fdt_getprop nodeoffset (lit "linux,phandle"%string) in
    if (php =? nullptr) || negb (len =? 4) then Done 0 else fdt32_ld php
  else fdt32_ld php.

(** The return value and [*phandle]. *)
Fixpoint max_phandle_loop (fuel : nat) (offset max : Z) : run (Z * Z) :=
  match fuel with
  | O => NoFuel
  | S fuel' =>
      let+ '(offset, _) := fdt_next_node offset None in
      if offset <? 0 then
        if offset =? - FDT_ERR_NOTFOUND then Done (0, max) else Done (offset, 0)
      else
      let+ value := fdt_get_phandle offset in
      max_phandle_loop fuel' offset (if max <? value then value else max)
  end.

Definition fdt_find_max_phandle : run (Z * Z) := max_phandle_loop (S (size m)) (-1) 0.

Definition fdt_generate_phandle : run (Z * Z) :=
  let+ '(err, max) := fdt_find_max_phandle in
  if err <? 0 then Done (err, 0)
  else if max =? FDT_MAX_PHANDLE then Done (- FDT_ERR_NOPHANDLES, 0)
  else Done (0, max + 1).

(** ** Paths *)

Fixpoint subnode_loop (fuel : nat) (offset depth : Z) (name : list Z) : run Z :=
  match fuel with
  | O => NoFuel
  | S fuel' =>
      if (0 <=? offset) && (0 <=? depth) then
        let+ found := (if depth =? 1 then fdt_nodename_eq_ offset name else Done false) in
        if found then Done offset
        else
        let+ '(offset, depth) := fdt_next_node offset (Some depth) in
        subnode_loop fuel' offset (default 0 depth) name
      else if depth <? 0 then Done (- FDT_ERR_NOTFOUND)
      else Done offset
  end.

Definition fdt_subnode_offset_namelen (offset : Z) (name : list Z) : run Z :=
  let+ total := fdt_ro_probe_ in
  if total <? 0 then Done total else subnode_loop (S (size m)) offset 0 name.

Definition fdt_subnode_offset (parentoffset : Z) (name : list Z) : run Z :=
  fdt_subnode_offset_namelen parentoffset name.

(** The part of [s] before the first slash, and the rest from it on. *)
Fixpoint split_slash (s : list Z) : list Z * list Z :=
  match s with
  | [] => ([], [])
  | c :: s' => if c =? 47 then ([], s) else let '(a, b) := split_slash s' in (c :: a, b)
  end.

(** [while (p < end)]: skip slashes, look up one component, go on after it. *)
Fixpoint path_loop (fuel : nat) (offset : Z) (p : list Z) : run Z :=
  match fuel with
  | O => NoFuel
  | S fuel' =>
      match p with
      | [] => Done offset
      | c :: p' =>
          if c =? 47 then path_loop fuel' offset p'
          else
          let '(comp, rest) := split_slash p in
          let+ offset := fdt_subnode_offset_namelen offset comp in
          if offset <? 0 then Done offset else path_loop fuel' offset rest
      end
  end.

(** [fdt_path_offset_namelen], [fdt_path_offset], [fdt_path_getprop_namelen] and
    [fdt_get_alias_namelen] call each other; [depth] bounds the nesting.  An
    alias must be an absolute path, and so is the path of the aliases: two
    levels are enough. *)
Fixpoint fdt_path_offset_namelen (depth : nat) (path : list Z) : run Z :=
  let+ total := fdt_ro_probe_ in
  if total <? 0 then Done total
  else
  match path with
  | [] => Done (- FDT_ERR_BADPATH)
  | c :: _ =>
      if c =? 47 then path_loop (S (List.length path)) 0 path
      else
      match depth with
      | O => NoFuel
      | S depth' =>
          let '(name, rest) := split_slash path in
          let+ aliases := fdt_path_offset_namelen depth' (lit "/aliases"%string) in
          let+ '(alias, len) :=
            (if aliases <? 0 then Done (nullptr, 0) else fdt_getprop_namelen aliases name) in
          let+ good :=
            (if (alias =? nullptr) || (len <=? 0) then Done false
             else let+ last := load8 m (alias + len - 1) in
                  let+ first := load8 m alias in
                  Done ((last =? 0) && (first =? 47))) in
          if negb good then Done (- FDT_ERR_BADPATH)
          else
          let+ target := read_string m alias in
          let+ offset := fdt_path_offset_namelen depth' target in
          path_loop (S (List.length path)) offset rest
      end
  end.

Definition fdt_path_offset (path : list Z) : run Z := fdt_path_offset_namelen 1 path.

Definition fdt_path_getprop_namelen (path propname : list Z) : run (ptr * Z) :=
  let+ offset := fdt_path_offset path in
  if offset <? 0 then Done (nullptr, 0) else fdt_getprop_namelen offset propname.

Definition fdt_get_alias_namelen (name : list Z) : run ptr :=
  let+ '(alias, len) := fdt_path_getprop_namelen (lit "/aliases"%string) name in
  if (alias =? nullptr) || (len <=? 0) then Done nullptr
  else
  let+ last := load8 m (alias + len - 1) in
  let+ first := load8 m alias in
  Done (if (last =? 0) && (first =? 47) then alias else nullptr).

Definition fdt_get_alias (name : list Z) : run ptr := fdt_get_alias_namelen name.

Definition fdt_get_symbol (name : list Z) : run ptr :=
  let+ '(p, _) := fdt_path_getprop_namelen (lit "/__symbols__"%string) name in Done p.

(** ** Ancestors *)

(** The return value and [*nodedepth]. *)
Fixpoint supernode_loop (fuel : nat) (offset depth nodeoffset supernodedepth super : Z)
    : run (Z * Z) :=
  match fuel with
  | O => NoFuel
  | S fuel' =>
      if (0 <=? offset) && (offset <=? nodeoffset) then
        let super := if depth =? supernodedepth then offset else super in
        if offset =? nodeoffset then
          Done (if depth <? supernodedepth then - FDT_ERR_NOTFOUND else super, depth)
        else
        let+ '(offset, depth) := fdt_next_node offset (Some depth) in
        supernode_loop fuel' offset (default 0 depth) nodeoffset supernodedepth super
      else if (offset =? - FDT_ERR_NOTFOUND) || (0 <=? offset) then Done (- FDT_ERR_BADOFFSET, 0)
      else if offset =? - FDT_ERR_BADOFFSET then Done (- FDT_ERR_BADSTRUCTURE, 0)
      else Done (offset, 0)
  end.

Definition fdt_supernode_atdepth_offset (nodeoffset supernodedepth : Z) : run (Z * Z) :=
  let+ total := fdt_ro_probe_ in
  if total <? 0 then Done (total, 0)
  else if supernodedepth <? 0 then Done (- FDT_ERR_NOTFOUND, 0)
  else supernode_loop (S (size m)) 0 0 nodeoffset supernodedepth (- FDT_ERR_INTERNAL).

Definition fdt_node_depth (nodeoffset : Z) : run Z :=
  let+ '(err, nodedepth) := fdt_supernode_atdepth_offset nodeoffset 0 in
  if negb (err =? 0) then Done (if err <? 0 then err else - FDT_ERR_INTERNAL)
  else Done nodedepth.

Definition fdt_parent_offset (nodeoffset : Z) : run Z :=
  let+ nodedepth := fdt_node_depth nodeoffset in
  if nodedepth <? 0 then Done nodedepth
  else let+ '(r, _) := fdt_supernode_atdepth_offset nodeoffset (nodedepth - 1) in Done r.

(** ** Searches over all nodes *)

(** [for (offset = fdt_next_node(..); offset >= 0; offset = fdt_next_node(..))]
    around a test that may end the loop with a value. *)
Fixpoint search_nodes (fuel : nat) (test : Z -> run (option Z)) (offset : Z) : run Z :=
  match fuel with
  | O => NoFuel
  | S fuel' =>
      let+ '(offset, _) := fdt_next_node offset None in
      if offset <? 0 then Done offset
      else
      let+ r := test offset in
      match r with Some v => Done v | None => search_nodes fuel' test offset end
  end.

Definition fdt_node_offset_by_prop_value (startoffset : Z) (propname propval : list Z) : run Z :=
  let+ total := fdt_ro_probe_ in
  if total <? 0 then Done total
  else search_nodes (S (size m)) (fun offset =>
    let+ '(val, len) := fdt_getprop offset propname in
    if negb (val =? nullptr) && (len =? Z.of_nat (List.length propval)) then
      let+ eq := bytes_eq val propval in Done (if eq then Some offset else None)
    else Done None) startoffset.

Definition fdt_node_offset_by_phandle (phandle : Z) : run Z :=
  if (phandle =? 0) || (phandle =? 2 ^ 32 - 1) then Done (- FDT_ERR_BADPHANDLE)
  else
  let+ total := fdt_ro_probe_ in
  if total <? 0 then Done total
  else search_nodes (S (size m)) (fun offset =>
    let+ ph := fdt_get_phandle offset in
    Done (if ph =? phandle then Some offset else None)) (-1).

(** ** String lists *)

Fixpoint stringlist_contains_loop (fuel : nat) (strlist listlen : Z) (str : list Z) : run bool :=
  match fuel with
  | O => NoFuel
  | S fuel' =>
      if Z.of_nat (List.length str) <=? listlen then
        let+ eq := bytes_eq strlist (str ++ [0]) in
        if eq then Done true
        else
        let+ p := memchr strlist 0 listlen m in
        if p =? nullptr then Done false
        else stringlist_contains_loop fuel' (p + 1) (listlen - (p - strlist + 1)) str
      else Done false
  end.

Definition fdt_stringlist_contains (strlist listlen : Z) (str : list Z) : run bool :=
  stringlist_contains_loop (S (size m)) strlist listlen str.

(** The common walk of the three list functions: [visit idx list length] may
    end it. *)
Fixpoint stringlist_walk {R} (fuel : nat) (visit : Z -> Z -> Z -> run (option R))
    (bad fin : Z -> R) (idx lst end_ : Z) : run R :=
  match fuel with
  | O => NoFuel
  | S fuel' =>
      if lst <? end_ then
        let+ n := strnlen lst (end_ - lst) m in
        let length := n + 1 in
        if end_ <? lst + length then Done (bad idx)
        else
        let+ r := visit idx lst length in
        match r with
        | Some v => Done v
        | None => stringlist_walk fuel' visit bad fin (idx + 1) (lst + length) end_
        end
      else Done (fin idx)
  end.

Definition fdt_stringlist_count (nodeoffset : Z) (property : list Z) : run Z :=
  let+ '(lst, length) := fdt_getprop nodeoffset property in
  if lst =? nullptr then Done length
  else stringlist_walk (S (size m)) (fun _ _ _ => Done None)
         (fun _ => - FDT_ERR_BADVALUE) (fun count => count) 0 lst (lst + length).

Definition fdt_stringlist_search (nodeoffset : Z) (property str : list Z) : run Z :=
  let+ '(lst, length) := fdt_getprop nodeoffset property in
  if lst =? nullptr then Done length
  else
  let len := Z.of_nat (List.length str) + 1 in
  stringlist_walk (S (size m)) (fun idx lst length =>
      if length =? len then
        let+ eq := bytes_eq lst (str ++ [0]) in Done (if eq then Some idx else None)
      else Done None)
    (fun _ => - FDT_ERR_BADVALUE) (fun _ => - FDT_ERR_NOTFOUND) 0 lst (lst + length).

Definition fdt_stringlist_get (nodeoffset : Z) (property : list Z) (idx : Z) : run (ptr * Z) :=
  let+ '(lst, length) := fdt_getprop nodeoffset property in
  if lst =? nullptr then Done (nullptr, length)
  else stringlist_walk (S (size m)) (fun i lst length =>
      Done (if i =? idx then Some (lst, length - 1) else None))
    (fun _ => (nullptr, - FDT_ERR_BADVALUE)) (fun _ => (nullptr, - FDT_ERR_NOTFOUND))
    0 lst (lst + length).

Definition fdt_node_check_compatible (nodeoffset : Z) (compatible : list Z) : run Z :=
  let+ '(prop, len) := fdt_getprop nodeoffset (lit "compatible"%string) in
  if prop =? nullptr then Done len
  else let+ found := fdt_stringlist_contains prop len compatible in Done (b2z (negb found)).

Definition fdt_node_offset_by_compatible (startoffset : Z) (compatible : list Z) : run Z :=
  let+ total := fdt_ro_probe_ in
  if total <? 0 then Done total
  else search_nodes (S (size m)) (fun offset =>
    let+ err := fdt_node_check_compatible offset compatible in
    if (err <? 0) && negb (err =? - FDT_ERR_NOTFOUND) then Done (Some err)
    else if err =? 0 then Done (Some offset) else Done None) startoffset.

(** ** fdt_addresses.c *)

Definition fdt_cells (nodeoffset : Z) (name : list Z) : run Z :=
  let+ '(c, len) := fdt_getprop nodeoffset name in
  if c =? nullptr then Done len
  else if negb (len =? 4) then Done (- FDT_ERR_BADNCELLS)
  else
  let+ val := fdt32_ld c in
  if FDT_MAX_NCELLS <? val then Done (- FDT_ERR_BADNCELLS) else Done val.

Definition fdt_address_cells (nodeoffset : Z) : run Z :=
  let+ val := fdt_cells nodeoffset (lit "#address-cells"%string) in
  if val =? 0 then Done (- FDT_ERR_BADNCELLS)
  else if val =? - FDT_ERR_NOTFOUND then Done 2 else Done val.

Definition fdt_size_cells (nodeoffset : Z) : run Z :=
  let+ val := fdt_cells nodeoffset (lit "#size-cells"%string) in
  if val =? - FDT_ERR_NOTFOUND then Done 1 else Done val.

(** ** fdt_check.c *)

Fixpoint check_full_loop (fuel : nat) (nextoffset depth : Z) (expect_end : bool) : run Z :=
  match fuel with
  | O => NoFuel
  | S fuel' =>
      let offset := nextoffset in
      let+ '(tag, nextoffset) := fdt_next_tag offset in
      if nextoffset <? 0 then Done nextoffset
      else if expect_end && negb (tag =? FDT_END) then Done (- FDT_ERR_BADSTRUCTURE)
      else if tag =? FDT_NOP then check_full_loop fuel' nextoffset depth expect_end
      else if tag =? FDT_END then
        if negb (depth =? 0) then Done (- FDT_ERR_BADSTRUCTURE) else Done 0
      else if tag =? FDT_BEGIN_NODE then
        let depth := depth + 1 in
        if INT_MAX <? depth then Done (- FDT_ERR_BADSTRUCTURE)
        else if depth =? 1 then
          let+ '(name, len) := fdt_get_name offset in
          if name =? nullptr then Done len
          else
          let+ c := load8 m name in
          if negb (c =? 0) || negb (len =? 0) then Done (- FDT_ERR_BADSTRUCTURE)
          else check_full_loop fuel' nextoffset depth expect_end
        else check_full_loop fuel' nextoffset depth expect_end
      else if tag =? FDT_END_NODE then
        if depth =? 0 then Done (- FDT_ERR_BADSTRUCTURE)
        else check_full_loop fuel' nextoffset (depth - 1) (if depth - 1 =? 0 then true else expect_end)
      else if tag =? FDT_PROP then
        let+ '(prop, _, err) := fdt_getprop_by_offset offset in
        if prop =? nullptr then Done err
        else check_full_loop fuel' nextoffset depth expect_end
      else Done (- FDT_ERR_INTERNAL)
  end.

Definition fdt_check_full (bufsize : Z) : run Z :=
  if bufsize <? FDT_V1_SIZE then Done (- FDT_ERR_TRUNCATED)
  else
  let+ hdr := fdt_header_size m fdt in
  if bufsize <? hdr then Done (- FDT_ERR_TRUNCATED)
  else
  let+ err := fdt_check_header m fdt in
  if negb (err =? 0) then Done err
  else
  let+ totalsize := fdt_totalsize in
  if bufsize <? totalsize then Done (- FDT_ERR_TRUNCATED)
  else
  let+ num := fdt_num_mem_rsv in
  if num <? 0 then Done num else check_full_loop (S (size m)) 0 0 false.

End ro.

End LibfdtRo.
