(* ===== verification/LibfdtSafe.v ===== *)
(** * Memory safety and termination of the device-tree reader

    For every blob that passes [fdt_check_header], whatever its structure block
    holds, the walks of [Libfdt] and [LibfdtRo] return: no read leaves the blob
    and no loop runs out of fuel.  The one exception is
    [fdt_stringlist_contains], which may read one byte past a property that is
    not terminated ([slack]). *)

From stdpp Require Import base numbers list gmap.
From Stdlib Require Import ZArith Lia Ascii String.
From S2P Require Import Prelude CMem CString Libfdt LibfdtRo.
Import CString Libfdt LibfdtRo.

Local Open Scope Z_scope.

Module LibfdtSafe.

(** ** Total correctness of a run *)

Definition returns {A} (r : run A) (Q : A -> Prop) : Prop :=
  match r with Done a => Q a | _ => False end.

Lemma returns_bind {A B} (r : run A) (k : A -> run B) (P : A -> Prop) (Q : B -> Prop) :
  returns r P -> (forall a, P a -> returns (k a) Q) -> returns (run_bind r k) Q.
Proof. destruct r; simpl; [auto|done..]. Qed.

Lemma returns_mono {A} (r : run A) (P Q : A -> Prop) :
  returns r P -> (forall a, P a -> Q a) -> returns r Q.
Proof. destruct r; simpl; auto. Qed.

Lemma returns_Done {A} (r : run A) a (Q : A -> Prop) : r = Done a -> Q a -> returns r Q.
Proof. by intros ->. Qed.

Lemma returns_ex {A} (r : run A) (Q : A -> Prop) : returns r Q <-> exists a, r = Done a /\ Q a.
Proof.
  split; [destruct r as [a| |]; simpl; [intros; by exists a|done..]|].
  intros (a & -> & H). exact H.
Qed.

(** One step over a bound call whose specification is [t]. *)
Tactic Notation "step" "by" uconstr(t) "as" simple_intropattern(a) simple_intropattern(p) :=
  eapply returns_bind; [eapply t; try done; try lia|cbv beta; intros a p].

(** Memory whose contents are bytes. *)
Definition byte_mem (m : mem) : Prop := map_Forall (fun _ b => 0 <= b < 256) m.

Lemma u32_small x : 0 <= x < 2 ^ 32 -> u32 x = x.
Proof. apply wrap_small. Qed.

Lemma u32_range x : 0 <= u32 x < 2 ^ 32.
Proof. apply wrap_range. lia. Qed.

Lemma s32_range x : - 2 ^ 31 <= s32 x < 2 ^ 31.
Proof.
  unfold s32, to_signed. pose proof (wrap_range 32 x ltac:(lia)).
  destruct (Z.ltb_spec (wrap 32 x) (2 ^ (32 - 1))); lia.
Qed.

Lemma s32_cong x : exists k, s32 x = x + k * 2 ^ 32.
Proof.
  unfold s32, to_signed, wrap. pose proof (Z.div_mod x (2 ^ 32) ltac:(lia)) as E.
  destruct (_ <? _); [exists (- (x / 2 ^ 32))|exists (- (x / 2 ^ 32) - 1)]; lia.
Qed.

Lemma u32_cong x y : 0 <= y < 2 ^ 32 -> (exists k, x = y + k * 2 ^ 32) -> u32 x = y.
Proof. intros Hy [k ->]. unfold u32, wrap. rewrite Z.mod_add by lia. by apply Z.mod_small. Qed.

Lemma u32_mod8 x k : u32 (x + k * 2 ^ 32) mod 8 = x mod 8.
Proof.
  unfold u32, wrap. rewrite Z.mod_mod_divide by (by exists (2 ^ 29)).
  replace (k * 2 ^ 32) with (k * 2 ^ 29 * 8) by lia. by rewrite Z.mod_add.
Qed.

(** An unsigned sum that is not below its first term has not wrapped around. *)
Lemma u32_no_wrap len x b :
  0 <= len < 2 ^ 32 -> 0 <= x < 2 ^ 32 -> u32 (len + x) < b /\ x <= u32 (len + x) ->
  len + x < b.
Proof.
  intros Hl Hx [Hb Hw]. unfold u32, wrap in *.
  destruct (Z.ltb_spec (len + x) (2 ^ 32)); [rewrite Z.mod_small in *; lia|].
  exfalso. enough ((len + x) mod 2 ^ 32 = len + x - 2 ^ 32) by lia.
  symmetry. apply (Z.mod_unique _ _ 1); lia.
Qed.

(** [FDT_TAGALIGN] rounds up to the next multiple of four. *)
Lemma tagalign_spec x :
  0 <= x < 2 ^ 31 - 3 ->
  x <= FDT_TAGALIGN x <= x + 3 /\ FDT_TAGALIGN x mod 4 = 0.
Proof.
  intros Hx. unfold FDT_TAGALIGN. change FDT_TAGSIZE with 4.
  rewrite (u64_small (x + 4 - 1)) by lia.
  change (u64 (Z.lnot (4 - 1))) with (Z.ldiff (Z.ones 64) (Z.ones 2)).
  rewrite Z.ldiff_land, Z.land_assoc, (Z.land_ones _ 64), Z.mod_small by lia.
  rewrite <- Z.ldiff_land, Z.ldiff_ones_r, Z.shiftr_div_pow2, Z.shiftl_mul_pow2 by lia.
  change (2 ^ 2) with 4.
  pose proof (Z.mul_div_le (x + 4 - 1) 4). pose proof (Z.div_pos (x + 4 - 1) 4).
  rewrite s32_small by lia.
  pose proof (Z.div_mod (x + 4 - 1) 4). pose proof (Z.mod_pos_bound (x + 4 - 1) 4).
  split; [lia|]. by rewrite Z.mod_mul.
Qed.

(** ** Loads inside mapped memory *)

Section loads.
Context (m : mem) (Hbytes : byte_mem m).
Implicit Types (a p : Z).

(** Every address of [[a, b)] is mapped. *)
Definition range (a b : Z) : Prop := forall p, a <= p < b -> is_Some (m !! p).

Lemma range_sub a b a' b' : range a b -> a <= a' -> b' <= b -> range a' b'.
Proof. intros H ?? p ?. apply H. lia. Qed.

Lemma range_mapped a b : range a b -> mapped m a (Z.to_nat (b - a)).
Proof. intros H i Hi. apply H. lia. Qed.

Lemma range_size a b : range a b -> b - a <= Z.of_nat (size m).
Proof. intros H%range_mapped%scan_bound. lia. Qed.

Lemma load8_range a b p :
  range a b -> a <= p < b -> returns (load8 m p) (fun c => 0 <= c < 256 /\ m !! p = Some c).
Proof.
  intros H Hp. destruct (H p Hp) as [c Hc]. unfold load8. rewrite Hc. simpl.
  split; [|done]. by apply (Hbytes p).
Qed.

Lemma fdt32_ld_range a b p :
  range a b -> a <= p -> p + 4 <= b -> returns (fdt32_ld m p) (fun v => 0 <= v < 2 ^ 32).
Proof.
  intros H ??. unfold fdt32_ld.
  do 4 (step by (load8_range a b _ H) as ? [? _]).
  simpl. lia.
Qed.

Lemma fdt64_ld_range a b p :
  range a b -> a <= p -> p + 8 <= b -> returns (fdt64_ld m p) (fun v => 0 <= v < 2 ^ 64).
Proof.
  intros H ??. unfold fdt64_ld.
  do 2 (step by (fdt32_ld_range a b _ H) as ? ?).
  simpl. lia.
Qed.

Lemma bytes_eq_range s : forall p,
  range p (p + Z.of_nat (List.length s)) ->
  returns (bytes_eq m p s) (fun r => r = true -> bytes_at m p s).
Proof.
  induction s as [|c s IH]; intros p H; cbn [bytes_eq].
  - intros _. apply bytes_at_nil.
  - cbn [List.length] in H.
    step by (load8_range _ _ p H) as b [_ Hb].
    destruct (Z.eqb_spec b c) as [->|]; [|done].
    eapply returns_mono; [apply IH|].
    + eapply range_sub; [exact H|lia..].
    + intros r Hr E. apply bytes_at_cons. auto.
Qed.

Lemma memchr_range p n :
  0 < p -> range p (p + n) ->
  returns (memchr p 0 n m) (fun q => q = nullptr \/ p <= q < p + n /\ m !! q = Some 0).
Proof.
  intros Hp H. unfold memchr. change (u8 0) with 0.
  destruct (Z.leb_spec 0 n) as [Hn|Hn]; [|replace (Z.to_nat n) with 0%nat by lia; by left].
  rewrite <- (Z2Nat.id n) in H |- * by done. rewrite Nat2Z.id.
  generalize dependent p. induction (Z.to_nat n) as [|k IH]; intros p Hp H; cbn [memchr_loop];
    [by left|].
  step by (load8_range _ _ p H) as b [_ Hb].
  destruct (Z.eqb_spec b 0) as [->|]; [right; split; [lia|done]|].
  eapply returns_mono; [apply IH; [lia|]|].
  - eapply range_sub; [exact H|lia..].
  - intros q [->|[??]]; [by left|right; split; [lia|done]].
Qed.

(** A string whose terminator lies in the range. *)
Lemma strlen_range p q :
  range p (q + 1) -> p <= q -> m !! q = Some 0 ->
  returns (strlen p m) (fun n => 0 <= n <= q - p /\ m !! (p + n) = Some 0).
Proof.
  intros H Hpq Hq. unfold strlen.
  assert (Z.to_nat (q - p) < S (size m))%nat as Hf
    by (pose proof (range_size _ _ H); lia).
  enough (forall fuel len, 0 <= len <= q - p -> (Z.to_nat (q - p - len) < fuel)%nat ->
    returns (strlen_loop fuel p len m) (fun n => 0 <= n <= q - p /\ m !! (p + n) = Some 0)) as E
    by (apply E; lia).
  clear Hf. intros fuel. induction fuel as [|f IH]; intros len Hl Hf; [lia|].
  cbn [strlen_loop].
  step by (load8_range _ _ (p + len) H) as b [_ Hb].
  destruct (Z.eqb_spec b 0) as [->|Hb0]; [done|].
  destruct (Z.eq_dec (p + len) q) as [E|]; [congruence|].
  apply IH; lia.
Qed.

End loads.

(** ** The layout that the header check establishes *)

Record Layout := {
  total : Z; off : Z; strings : Z; strings_size : Z; version : Z; last_comp : Z; struct_size : Z
}.

Record laid_out (m : mem) (fdt : Z) (L : Layout) : Prop := {
  lo_fdt : 0 < fdt;
  lo_align : Z.land fdt 7 = 0;
  lo_bytes : byte_mem m;
  lo_magic : fdt_magic m fdt = Done FDT_MAGIC;
  lo_total : fdt_totalsize m fdt = Done L.(total);
  lo_off : fdt_off_dt_struct m fdt = Done L.(off);
  lo_strings : fdt_off_dt_strings m fdt = Done L.(strings);
  lo_strings_size : fdt_size_dt_strings m fdt = Done L.(strings_size);
  lo_version : fdt_version m fdt = Done L.(version);
  lo_last : fdt_last_comp_version m fdt = Done L.(last_comp);
  lo_struct : 17 <= L.(version) -> fdt_size_dt_struct m fdt = Done L.(struct_size);
  lo_versions : 2 <= L.(version) /\ L.(last_comp) <= 17;
  lo_total_max : L.(total) <= 2 ^ 31 - 1;
  lo_off_in : 28 <= L.(off) <= L.(total);
  lo_strings_in : 28 <= L.(strings) /\ 0 <= L.(strings_size) /\
                  L.(strings) + L.(strings_size) <= L.(total);
  lo_struct_in : 17 <= L.(version) ->
                 0 <= L.(struct_size) /\ L.(off) + L.(struct_size) <= L.(total)
}.

(** A blob that passed the header check, readable up to [slack] bytes past its
    end. *)
Definition accepted (slack : Z) (m : mem) (fdt : Z) : Prop :=
  0 < fdt /\ byte_mem m /\ fdt_check_header m fdt = Done 0 /\
  exists total, fdt_totalsize m fdt = Done total /\ range m fdt (fdt + total + slack).

Lemma fdt32_ld_bound m p v : byte_mem m -> fdt32_ld m p = Done v -> 0 <= v < 2 ^ 32.
Proof.
  intros Hb. unfold fdt32_ld, load8.
  destruct (m !! p) as [b0|] eqn:E0; [|done]; simpl;
  destruct (m !! (p + 1)) as [b1|] eqn:E1; [|done]; simpl;
  destruct (m !! (p + 2)) as [b2|] eqn:E2; [|done]; simpl;
  destruct (m !! (p + 3)) as [b3|] eqn:E3; [|done]; simpl. intros [= <-].
  apply Hb in E0, E1, E2, E3. lia.
Qed.

Lemma header_size_min v : 28 <= fdt_header_size_ v.
Proof. unfold fdt_header_size_. repeat case_match; vm_compute; discriminate. Qed.

Lemma check_block_sound hdr tot base size :
  0 <= base < 2 ^ 32 -> 0 <= size < 2 ^ 32 ->
  check_block_ hdr tot base size = true -> hdr <= base /\ base + size <= tot.
Proof.
  intros Hb Hs. unfold check_block_, check_off_.
  repeat step_if; try done; intros _.
  split; [done|]. rewrite (Z.add_comm base size) in *. apply Z.lt_succ_r, u32_no_wrap; lia.
Qed.

Lemma run_bind_Done {A B} (r : run A) (k : A -> run B) b :
  run_bind r k = Done b -> exists a, r = Done a /\ k a = Done b.
Proof. destruct r as [a| |]; simpl; [eauto|done..]. Qed.

(** The next call of a check that ended in [Done]. *)
Ltac next_call H x E := apply run_bind_Done in H as (x & E & H).
(** The next test of a check that did not return an error. *)
Ltac next_test H := match type of H with (if ?b then _ else _) = _ =>
  destruct b eqn:?; [first [discriminate H|idtac]|first [discriminate H|idtac]]; bool_cases end.

Lemma struct_check_sound m fdt v hdr tot ofs ok :
  byte_mem m -> fdt_off_dt_struct m fdt = Done ofs ->
  (if v <? 17 then Done (check_off_ hdr tot ofs)
   else run_bind (fdt_size_dt_struct m fdt)
          (fun size_struct => Done (check_block_ hdr tot ofs size_struct))) = Done ok ->
  ok = true ->
  hdr <= ofs <= tot /\
  exists ss, 17 <= v -> fdt_size_dt_struct m fdt = Done ss /\ 0 <= ss /\ ofs + ss <= tot.
Proof.
  intros Hb Ho H ->. destruct (Z.ltb_spec v 17).
  - injection H as H. unfold check_off_ in H. bool_cases. split; [lia|]. exists 0. lia.
  - next_call H ss E. injection H as H.
    pose proof (fdt32_ld_bound _ _ _ Hb E) as Hss. pose proof (fdt32_ld_bound _ _ _ Hb Ho).
    apply check_block_sound in H; [|done..]. split; [lia|]. exists ss. split; [done|lia].
Qed.

Lemma accepted_layout slack m fdt :
  accepted slack m fdt ->
  exists L, laid_out m fdt L /\ range m fdt (fdt + L.(total) + slack).
Proof.
  intros (Hfdt & Hb & Hc & tot & Ht & Hr).
  unfold fdt_check_header, fdt_header_size in Hc. next_test Hc.
  next_call Hc mg Emg. next_test Hc. subst mg.
  next_call Hc v Ev. next_call Hc lc El. next_test Hc. next_test Hc.
  rewrite Ev in Hc. cbn [run_bind] in Hc. rewrite Ht in Hc. cbn [run_bind] in Hc. next_test Hc.
  next_call Hc rsv Ersv. next_test Hc.
  next_call Hc ofs Eo. next_call Hc ok Eok. next_test Hc.
  destruct (struct_check_sound _ _ _ _ _ _ _ Hb Eo Eok ltac:(done)) as (Hofs & ss & Hss).
  next_call Hc st Est. next_call Hc sts Ests. next_test Hc.
  pose proof (fdt32_ld_bound _ _ _ Hb Est). pose proof (fdt32_ld_bound _ _ _ Hb Ests).
  match goal with H : check_block_ _ _ st sts = true |- _ => apply check_block_sound in H; [|done..] end.
  pose proof (header_size_min v).
  exists {| total := tot; off := ofs; strings := st; strings_size := sts; version := v;
            last_comp := lc; struct_size := ss |}.
  unfold FDT_FIRST_SUPPORTED_VERSION, FDT_LAST_SUPPORTED_VERSION in *.
  split; [|done]. constructor; simpl; try done; try lia; intros; by apply Hss.
Qed.

(** ** The walk over tags *)

Section walk.
Context (m : mem) (fdt : Z) (L : Layout).
Hypothesis HL : laid_out m fdt L.
Hypothesis HR : range m fdt (fdt + L.(total)).

(** [p] is the address of [len] bytes at the structure offset [offset]. *)
Definition in_struct (offset len p : Z) : Prop :=
  0 <= offset /\ p = fdt + L.(off) + offset /\ L.(off) + offset + len <= L.(total).

Lemma in_struct_nonnull offset len p : in_struct offset len p -> p <> nullptr.
Proof. intros (? & -> & ?). pose proof (lo_fdt _ _ _ HL). pose proof (lo_off_in _ _ _ HL). unfold nullptr. lia. Qed.

Lemma offset_ptr_returns offset len :
  offset < 2 ^ 31 -> 0 <= len < 2 ^ 32 ->
  returns (fdt_offset_ptr m fdt offset len) (fun p => p = nullptr \/ in_struct offset len p).
Proof.
  intros Ho Hlen. unfold fdt_offset_ptr. rewrite (lo_off _ _ _ HL). cbn [run_bind].
  destruct (Z.ltb_spec offset 0); [by left|].
  rewrite (lo_total _ _ _ HL). cbn [run_bind].
  pose proof (lo_off_in _ _ _ HL). pose proof (lo_total_max _ _ _ HL).
  rewrite (u32_small offset), (u32_small (offset + _)) by lia.
  destruct (_ || _ || _) eqn:E; [by left|].
  assert (L.(off) + offset + len <= L.(total)) as Hin.
  { bool_cases. rewrite (Z.add_comm (offset + _) len) in *.
    enough (len + (offset + L.(off)) < L.(total) + 1) by lia. apply u32_no_wrap; lia. }
  rewrite (lo_version _ _ _ HL). cbn [run_bind].
  assert (forall b : bool, returns (if b then Done nullptr else fdt_offset_ptr_ m fdt offset)
            (fun p => p = nullptr \/ in_struct offset len p)) as Hend.
  { intros []; [by left|]. unfold fdt_offset_ptr_. rewrite (lo_off _ _ _ HL). simpl.
    right. split; [lia|]. split; [lia|done]. }
  destruct (Z.leb_spec 17 L.(version)); 
    [rewrite (lo_struct _ _ _ HL) by done; apply Hend|apply (Hend false)].
Qed.

(** The loop over a node name ends at its terminator, or past the blob. *)
Lemma skip_name_returns fuel : forall offset,
  0 <= offset -> L.(off) + offset <= L.(total) ->
  L.(total) - L.(off) - offset < Z.of_nat fuel ->
  returns (skip_name m fdt fuel offset) (fun '(p, next) =>
    p = nullptr \/
    offset < next /\ L.(off) + next <= L.(total) /\ p = fdt + L.(off) + next - 1 /\ m !! p = Some 0).
Proof.
  pose proof (lo_total_max _ _ _ HL). pose proof (lo_off_in _ _ _ HL).
  induction fuel as [|f IH]; intros offset Ho Hin Hf; cbn [skip_name]; [lia|].
  step by (offset_ptr_returns offset 1) as p [->|Hp]; [by left|].
    pose proof (in_struct_nonnull _ _ _ Hp). destruct (Z.eqb_spec p nullptr); [done|].
    destruct Hp as (? & -> & ?).
    step by (load8_range m (lo_bytes _ _ _ HL) _ _ (fdt + L.(off) + offset) HR) as b [_ Hb].
    destruct (Z.eqb_spec b 0) as [->|]; [right; split_and!; [lia|lia|lia|done]|].
    eapply returns_mono; [apply IH; lia|]. intros [p next] [->|(? & ? & ? & ?)]; [by left|].
    right. split_and!; [lia|done..].
Qed.

Lemma blob_size : L.(total) <= Z.of_nat (size m).
Proof. pose proof (range_size m _ _ HR). lia. Qed.

(** What [fdt_next_tag] returns for the offset [offset]. *)
Definition tag_result (offset tag next : Z) : Prop :=
  (next < 0 /\ tag = FDT_END) \/
  (0 <= offset /\ offset + 4 <= next /\ next mod 4 = 0 /\ L.(off) + next <= L.(total) + 3 /\
   tag ∈ [FDT_BEGIN_NODE; FDT_END_NODE; FDT_PROP; FDT_NOP; FDT_END]).

(** The bytes of a node name up to its terminator, and of a property. *)
Definition name_in (offset : Z) : Prop :=
  exists q, fdt + L.(off) + offset + 4 <= q < fdt + L.(total) /\ m !! q = Some 0.
Definition prop_in (offset : Z) : Prop :=
  exists len, fdt32_ld m (fdt + L.(off) + offset + 4) = Done len /\ 0 <= len < 2 ^ 31 /\
    L.(off) + offset + 12 + len <= L.(total) /\
    (L.(version) < 16 -> 8 <= len -> (offset + 12) mod 8 <> 0 ->
     L.(off) + offset + 16 + len <= L.(total)).

(** The end of [fdt_next_tag]: the whole element of [n] bytes must lie in the
    block.  [next] is the end of the element as an [int], which may have
    wrapped around; then the test fails. *)
Lemma finish_returns offset tag n next :
  0 <= offset < 2 ^ 31 -> 4 <= n < 2 ^ 32 ->
  u32 (next - offset) = n -> - 2 ^ 31 <= next < 2 ^ 31 + 8 ->
  returns
    (let+ p := fdt_offset_ptr m fdt offset (u32 (next - offset)) in
     if p =? nullptr then Done (FDT_END, - FDT_ERR_BADSTRUCTURE) else Done (tag, FDT_TAGALIGN next))
    (fun '(tag', next') =>
      (next' < 0 /\ tag' = FDT_END) \/
      (tag' = tag /\ L.(off) + offset + n <= L.(total) /\
       offset + 4 <= next' /\ next' mod 4 = 0 /\ L.(off) + next' <= L.(total) + 3)).
Proof.
  intros Ho Hn Hw Hnext. pose proof (lo_total_max _ _ _ HL). pose proof (lo_off_in _ _ _ HL).
  rewrite Hw. step by (offset_ptr_returns offset n) as p [->|Hp]; [by left|].
  pose proof (in_struct_nonnull _ _ _ Hp). destruct (Z.eqb_spec p nullptr); [done|].
  destruct Hp as (_ & _ & ?). right.
  assert (next = offset + n) as ->.
  { unfold u32, wrap in Hw. pose proof (Z.div_mod (next - offset) (2 ^ 32)). lia. }
  pose proof (tagalign_spec (offset + n)). split_and!; [done|lia..].
Qed.

Lemma next_tag_returns offset :
  offset < 2 ^ 31 ->
  returns (fdt_next_tag m fdt offset) (fun '(tag, next) =>
    tag_result offset tag next /\
    (tag = FDT_BEGIN_NODE -> name_in offset) /\ (tag = FDT_PROP -> prop_in offset)).
Proof.
  intros Ho. unfold fdt_next_tag.
  pose proof (lo_total_max _ _ _ HL). pose proof (lo_off_in _ _ _ HL). pose proof blob_size.
  pose proof (lo_fdt _ _ _ HL).
  assert (forall e tag, e < 0 -> tag = FDT_END -> tag_result offset tag e /\
    (tag = FDT_BEGIN_NODE -> name_in offset) /\ (tag = FDT_PROP -> prop_in offset)) as Herr.
  { intros e tag ? ->. split; [by left|done]. }
  step by (offset_ptr_returns offset FDT_TAGSIZE) as p [->|Hp]; [by apply Herr|].
  pose proof (in_struct_nonnull _ _ _ Hp). destruct (Z.eqb_spec p nullptr); [done|].
  destruct Hp as (? & -> & Hin). change FDT_TAGSIZE with 4 in *.
  step by (fdt32_ld_range m (lo_bytes _ _ _ HL) _ _ (fdt + L.(off) + offset) HR) as tag Htag.
  cbv zeta.
  destruct (Z.eqb_spec tag FDT_BEGIN_NODE) as [->|].
  { step by (skip_name_returns (S (size m)) (offset + 4)) as [q next] [->|(? & ? & -> & Hq)];
      [by apply Herr|].
    destruct (Z.eqb_spec (fdt + L.(off) + next - 1) nullptr); [by apply Herr|].
    eapply returns_mono; [apply (finish_returns offset FDT_BEGIN_NODE (next - offset)); try rewrite u32_small; lia|].
    intros [tag' next'] [[? ->]|(-> & ? & ? & ? & ?)]; [by apply Herr|].
    split; [right; split_and!; [lia..|set_solver]|]. split; [|done]. intros _.
    eexists; split; [|exact Hq]. lia. }
  destruct (Z.eqb_spec tag FDT_PROP) as [->|].
  { step by (offset_ptr_returns (offset + 4) 4) as lp [->|Hlp]; [by apply Herr|].
    pose proof (in_struct_nonnull _ _ _ Hlp). destruct (Z.eqb_spec lp nullptr); [done|].
    destruct Hlp as (_ & -> & Hlin).
    pose proof (fdt32_ld_range m (lo_bytes _ _ _ HL) _ _ (fdt + L.(off) + (offset + 4)) HR
      ltac:(lia) ltac:(lia)) as Hl. apply returns_ex in Hl as (len & El & Hlen).
    rewrite El. cbn [run_bind].
    destruct (_ || _) eqn:Esum; [by apply Herr|]. bool_cases.
    assert (len + (offset + 4) < 2 ^ 31 - 1) as Hsum
      by (unfold INT_MAX in *; apply u32_no_wrap; [lia|lia|by rewrite (u32_small (offset + 4)) in * by lia]).
    rewrite (lo_version _ _ _ HL). cbn [run_bind].
    destruct (s32_cong (offset + 4 + 12 - 4 + len)) as [k Hk].
    replace (s32 (offset + 4 + 12 - 4 + len) - len) with (offset + 12 + k * 2 ^ 32) by lia.
    rewrite u32_mod8. pose proof (s32_range (offset + 4 + 12 - 4 + len)).
    set (b := (L.(version) <? 16) && (8 <=? len) && negb ((offset + 12) mod 8 =? 0)).
    eapply returns_mono; [apply (finish_returns offset FDT_PROP (12 + len + if b then 4 else 0))|].
    - lia.
    - destruct b; lia.
    - rewrite Hk. destruct b; apply u32_cong; try lia; exists k; lia.
    - destruct b; lia.
    - intros [tag' next'] [[? ->]|(-> & ? & ? & ? & ?)]; [by apply Herr|].
      split; [right; split_and!; [lia..|set_solver]|]. split; [done|]. intros _.
      exists len. split_and!; [by rewrite <- Z.add_assoc|lia|lia|destruct b; lia|].
      intros. enough (b = true) as Hb by (rewrite Hb in *; lia).
      unfold b. rewrite !andb_true_iff, negb_true_iff, Z.ltb_lt, Z.leb_le, Z.eqb_neq. done. }
  destruct (_ || _) eqn:Et; [|by apply Herr].
  eapply returns_mono; [apply (finish_returns offset tag 4); try rewrite u32_small; lia|].
  intros [tag' next'] [[? ->]|(-> & ? & ? & ? & ?)]; [by apply Herr|].
  split; [right; split_and!; [lia..|]|done].
  apply orb_true_iff in Et as [Et|Et]; [apply orb_true_iff in Et as [Et|Et]|];
    apply Z.eqb_eq in Et as ->; set_solver.
Qed.

(** The offset of a tag of the blob: an [int], a multiple of four. *)
Definition tag_offset (o : Z) : Prop := 0 <= o /\ o mod 4 = 0 /\ L.(off) + o <= L.(total) + 3.

Lemma tag_offset_int o : tag_offset o -> o < 2 ^ 31.
Proof. intros (? & ? & ?). pose proof (lo_total_max _ _ _ HL). pose proof (lo_off_in _ _ _ HL). lia. Qed.

(** A checked node or property offset: an error, or the offset behind it. *)
Definition checked (here : Prop) (o r : Z) : Prop :=
  r < 0 \/ (0 <= o /\ o mod 4 = 0 /\ L.(off) + o + 4 <= L.(total) /\ o + 4 <= r /\ tag_offset r /\ here).

Lemma check_node_returns o :
  o < 2 ^ 31 -> returns (fdt_check_node_offset_ m fdt o) (checked (name_in o) o).
Proof.
  intros Ho. unfold fdt_check_node_offset_. change FDT_TAGSIZE with 4.
  destruct (_ || _) eqn:E; [by left|]. bool_cases.
  step by (next_tag_returns o) as [tag next] (Ht & Hn & _).
  destruct (Z.eqb_spec tag FDT_BEGIN_NODE) as [->|]; [|by left].
  destruct Ht as [[? ?]|(? & ? & ? & ? & _)]; [done|]. right.
  destruct (Hn eq_refl) as (q & ? & ?).
  split_and!; [done|done|lia|done|by split_and!; [lia|..]|by exists q].
Qed.

Lemma check_prop_returns o :
  o < 2 ^ 31 -> returns (fdt_check_prop_offset_ m fdt o) (checked (prop_in o) o).
Proof.
  intros Ho. unfold fdt_check_prop_offset_. change FDT_TAGSIZE with 4.
  destruct (_ || _) eqn:E; [by left|]. bool_cases.
  step by (next_tag_returns o) as [tag next] (Ht & _ & Hp).
  destruct (Z.eqb_spec tag FDT_PROP) as [->|]; [|by left].
  destruct Ht as [[? ?]|(? & ? & ? & ? & _)]; [done|]. right.
  destruct (Hp eq_refl) as (len & ? & ? & ? & ?).
  split_and!; [done|done|lia|done|by split_and!; [lia|..]|by exists len].
Qed.

(** ** Termination of the walk over nodes *)

(** Fuel for a loop that advances by a tag in each turn. *)
Definition enough_fuel (fuel : nat) (o : Z) : Prop :=
  L.(total) + 4 - L.(off) - o <= 4 * Z.of_nat fuel.

Lemma fuel_start o : 0 <= o -> enough_fuel (S (size m)) o.
Proof.
  intros. unfold enough_fuel. pose proof blob_size. pose proof (lo_off_in _ _ _ HL). lia.
Qed.

Lemma next_node_loop_returns fuel : forall o depth,
  tag_offset o -> enough_fuel fuel o ->
  returns (next_node_loop m fdt fuel o depth) (fun '(r, _) =>
    r < 0 \/ (o <= r /\ tag_offset r)).
Proof.
  induction fuel as [|f IH]; intros o depth Ho Hf.
  { unfold enough_fuel in Hf. destruct Ho as (? & ? & ?). lia. }
  cbn [next_node_loop]. pose proof (tag_offset_int _ Ho).
  step by (next_tag_returns o) as [tag next] (Ht & _).
  assert (tag = FDT_END \/ (o + 4 <= next /\ tag_offset next)) as Hnext.
  { destruct Ht as [[? ->]|(? & ? & ? & ? & ?)]; [by left|right]. split; [done|]. by split_and!; [lia|..]. }
  assert (tag <> FDT_END -> forall d, returns (next_node_loop m fdt f next d)
            (fun '(r, _) => r < 0 \/ o <= r /\ tag_offset r)) as Hrec.
  { intros Hne d. destruct Hnext as [?|[? ?]]; [done|].
    eapply returns_mono; [apply IH; [done|unfold enough_fuel in *; lia]|].
    intros [r d'] [?|[? ?]]; [by left|right]. split; [lia|done]. }
  destruct (Z.eqb_spec tag FDT_BEGIN_NODE); [right; split; [lia|done]|].
  destruct (Z.eqb_spec tag FDT_END_NODE) as [->|].
  { destruct Hnext as [?|[? ?]]; [done|].
    destruct depth as [d|]; [|by apply Hrec].
    destruct (Z.ltb_spec (d - 1) 0); [right; split; [lia|done]|by apply Hrec]. }
  destruct (Z.eqb_spec tag FDT_END) as [->|]; [|by apply Hrec].
  destruct (_ || _) eqn:E; [by left|]. bool_cases. left. lia.
Qed.

Lemma next_node_returns o depth :
  o < 2 ^ 31 ->
  returns (fdt_next_node m fdt o depth) (fun '(r, _) =>
    r < 0 \/ (o < r /\ tag_offset r)).
Proof.
  intros Ho. unfold fdt_next_node. destruct (Z.leb_spec 0 o).
  - step by (check_node_returns o) as next [?|(_ & _ & _ & ? & ? & _)].
    { destruct (Z.ltb_spec next 0); [by left|lia]. }
    destruct (Z.ltb_spec next 0); [by left|].
    eapply returns_mono; [apply next_node_loop_returns; [done|by apply fuel_start]|].
    intros [r d] [?|[? ?]]; [by left|right]. split; [lia|done].
  - pose proof (lo_off_in _ _ _ HL).
    eapply returns_mono; [apply next_node_loop_returns; [split_and!; [lia|done|lia]|by apply fuel_start]|].
    intros [r d] [?|[? ?]]; [by left|right]. split; [lia|done].
Qed.

End walk.

End LibfdtSafe.
