(* ===== verification/LibfdtRoSafe.v ===== *)
(** * Memory safety and termination of the queries of fdt_ro.c

    Continues [LibfdtSafe]: property look-up, names, paths and searches return
    for every accepted blob, and what they return lies inside it. *)

From stdpp Require Import base numbers list gmap.
From Stdlib Require Import ZArith Lia Ascii String.
From S2P Require Import Prelude CMem CString Libfdt LibfdtRo LibfdtSafe.
Import CString Libfdt LibfdtRo LibfdtSafe.

Local Open Scope Z_scope.

Module LibfdtRoSafe.

Section queries.
Context (m : mem) (fdt : Z) (L : Layout).
Hypothesis HL : laid_out m fdt L.
Hypothesis HR : range m fdt (fdt + L.(total)).

Abbreviation tag_offset := (LibfdtSafe.tag_offset L).
Abbreviation name_in := (LibfdtSafe.name_in m fdt L).
Abbreviation prop_in := (LibfdtSafe.prop_in m fdt L).

(** Addresses of the blob. *)
Definition within (p len : Z) : Prop := fdt <= p /\ 0 <= len /\ p + len <= fdt + L.(total).

(** [len] bytes of the blob, or null and an error code. *)
Definition data_result (p len : Z) : Prop := (p = nullptr /\ len <= 0) \/ (0 < p /\ within p len).

(** A terminated string of the blob, or null and an error code. *)
Definition string_result (p len : Z) : Prop :=
  (p = nullptr /\ len < 0) \/ (0 < p /\ within p (len + 1) /\ 0 <= len /\ m !! (p + len) = Some 0).

Lemma ro_probe_returns :
  returns (fdt_ro_probe_ m fdt) (fun r => r < 0 \/ r = L.(total)).
Proof.
  unfold fdt_ro_probe_. rewrite (lo_total _ _ _ HL), (lo_align _ _ _ HL). cbn [run_bind].
  change (negb (0 =? 0)) with false. cbv iota zeta.
  rewrite (lo_magic _ _ _ HL). cbn [run_bind]. rewrite Z.eqb_refl.
  rewrite (lo_version _ _ _ HL). cbn [run_bind]. destruct (_ <? FDT_FIRST_SUPPORTED_VERSION); [by left|].
  rewrite (lo_last _ _ _ HL). cbn [run_bind]. destruct (FDT_LAST_SUPPORTED_VERSION <? _); [by left|].
  destruct (_ <? _); [by right|by left].
Qed.

Lemma scan_returns absoffset len :
  0 <= absoffset -> absoffset + len <= L.(total) -> 
  returns (let+ n := memchr (fdt + absoffset) 0 len m in
           if n =? nullptr then Done (nullptr, - FDT_ERR_TRUNCATED)
           else Done (fdt + absoffset, n - (fdt + absoffset)))
    (fun '(p, n) => string_result p n).
Proof.
  intros ? ?. pose proof (lo_fdt _ _ _ HL).
  step by (memchr_range m (lo_bytes _ _ _ HL) (fdt + absoffset) len) as n Hn.
  { eapply range_sub; [exact HR|lia..]. }
  destruct Hn as [->|[? Hn]]; [by left|].
  destruct (Z.eqb_spec n nullptr); [by left|]. right.
  unfold within. replace (fdt + absoffset + (n - (fdt + absoffset))) with n by lia.
  split_and!; [lia..|done].
Qed.

Lemma get_string_returns stroffset :
  returns (fdt_get_string m fdt stroffset) (fun '(p, n) => string_result p n).
Proof.
  unfold fdt_get_string. step by ro_probe_returns as tot Htot.
  destruct (Z.ltb_spec tot 0); [left; split; [done|lia]|]. destruct Htot as [?| ->]; [lia|].
  rewrite (lo_strings _ _ _ HL). cbn [run_bind].
  set (a := u32 (stroffset + L.(strings))). pose proof (u32_range (stroffset + L.(strings))).
  destruct (Z.leb_spec L.(total) a); [by left|].
  rewrite (lo_magic _ _ _ HL). cbn [run_bind]. rewrite Z.eqb_refl.
  destruct (Z.ltb_spec stroffset 0); [by left|].
  rewrite (lo_version _ _ _ HL). cbn [run_bind].
  destruct (17 <=? _); [|apply scan_returns; lia].
  rewrite (lo_strings_size _ _ _ HL). cbn [run_bind]. destruct (_ <=? _); [by left|].
  destruct (Z.ltb_spec (L.(strings_size) - stroffset) (L.(total) - a)); apply scan_returns; lia.
Qed.

Lemma string_eq_returns stroffset s :
  returns (fdt_string_eq_ m fdt stroffset s) (fun _ => True).
Proof.
  unfold fdt_string_eq_. step by (get_string_returns stroffset) as [p n] Hp.
  destruct (_ || _) eqn:E; [done|]. bool_cases.
  destruct Hp as [[? ?]|(? & (? & ? & ?) & ? & ?)]; [done|]. subst n.
  eapply returns_mono; [apply (bytes_eq_range m (lo_bytes _ _ _ HL))|done].
  eapply range_sub; [exact HR|lia..].
Qed.

(** ** Properties *)

Lemma nextprop_loop_returns fuel : forall o,
  tag_offset o -> enough_fuel L fuel o ->
  returns (nextprop_loop m fdt fuel o) (fun r => r < 0 \/ (o <= r /\ tag_offset r)).
Proof.
  induction fuel as [|f IH]; intros o Ho Hf.
  { unfold enough_fuel in Hf. destruct Ho as (? & ? & ?). lia. }
  cbn [nextprop_loop]. pose proof (tag_offset_int m fdt L HL _ Ho).
  step by (next_tag_returns m fdt L HL HR o) as [tag next] (Ht & _).
  destruct (Z.eqb_spec tag FDT_END) as [->|].
  { destruct (Z.leb_spec 0 next); by left. }
  destruct (Z.eqb_spec tag FDT_PROP); [right; split; [lia|done]|].
  destruct (Z.eqb_spec tag FDT_NOP); [|by left].
  destruct Ht as [[? ?]|(? & ? & ? & ? & _)]; [done|].
  eapply returns_mono; [apply IH; [by split_and!; [lia|..]|unfold enough_fuel in *; lia]|].
  intros r [?|[? ?]]; [by left|right]. split; [lia|done].
Qed.

Lemma nextprop_returns o :
  tag_offset o -> returns (nextprop_ m fdt o) (fun r => r < 0 \/ (o <= r /\ tag_offset r)).
Proof. intros Ho. apply nextprop_loop_returns; [done|]. apply (fuel_start m fdt); [done..|apply Ho]. Qed.

Lemma first_property_returns o :
  o < 2 ^ 31 ->
  returns (fdt_first_property_offset m fdt o) (fun r => r < 0 \/ tag_offset r).
Proof.
  intros Ho. unfold fdt_first_property_offset.
  step by (check_node_returns m fdt L HL HR o) as r Hr.
  destruct (Z.ltb_spec r 0); [by left|]. destruct Hr as [?|(_ & _ & _ & _ & Hr & _)]; [lia|].
  eapply returns_mono; [by apply nextprop_returns|]. naive_solver.
Qed.

Lemma next_property_returns o :
  o < 2 ^ 31 ->
  returns (fdt_next_property_offset m fdt o) (fun r => r < 0 \/ (o + 4 <= r /\ tag_offset r)).
Proof.
  intros Ho. unfold fdt_next_property_offset.
  step by (check_prop_returns m fdt L HL HR o) as r Hr.
  destruct (Z.ltb_spec r 0); [by left|]. destruct Hr as [?|(_ & _ & _ & ? & Hr & _)]; [lia|].
  eapply returns_mono; [by apply nextprop_returns|].
  intros r' [?|[? ?]]; [by left|right]. split; [lia|done].
Qed.

(** A property found by offset: its address and its length. *)
Definition prop_result (o p len : Z) : Prop :=
  (p = nullptr /\ len < 0) \/
  (0 <= o /\ p = fdt + L.(off) + o /\ prop_in o /\ fdt32_ld m (p + 4) = Done len /\ 0 <= len < 2 ^ 31).

Lemma prop_by_offset_returns o :
  o < 2 ^ 31 ->
  returns (fdt_get_property_by_offset_ m fdt o) (fun '(p, len) => prop_result o p len).
Proof.
  intros Ho. unfold fdt_get_property_by_offset_.
  step by (check_prop_returns m fdt L HL HR o) as r Hr.
  destruct (Z.ltb_spec r 0); [by left|].
  destruct Hr as [?|(? & _ & _ & _ & _ & Hp)]; [lia|].
  unfold fdt_offset_ptr_. rewrite (lo_off _ _ _ HL). cbn [run_bind].
  destruct (Hp) as (len & El & Hlen & _). rewrite El. cbn [run_bind].
  rewrite s32_small by done. right.
  split_and!; [done|done|done|done|lia..].
Qed.

Lemma prop_result_nonnull o p len : prop_result o p len -> 0 <= len -> p <> nullptr.
Proof.
  intros [[? ?]|(? & -> & _)] ?; [lia|]. pose proof (lo_fdt _ _ _ HL).
  pose proof (lo_off_in _ _ _ HL). unfold nullptr. lia.
Qed.

Lemma get_property_loop_returns fuel name : forall o,
  (o < 0 \/ tag_offset o /\ enough_fuel L fuel o) -> (0 < fuel)%nat ->
  returns (get_property_loop m fdt fuel o name) (fun '(p, len, po) =>
    (p = nullptr /\ len < 0) \/ (0 <= len /\ prop_result po p len)).
Proof.
  induction fuel as [|f IH]; intros o Ho Hf; [lia|].
  cbn [get_property_loop]. destruct (Z.ltb_spec o 0); [by left|].
  destruct Ho as [?|[Ho He]]; [lia|]. pose proof (tag_offset_int m fdt L HL _ Ho).
  step by (prop_by_offset_returns o) as [p len] Hp.
  destruct (Z.eqb_spec p nullptr); [by left|].
  destruct Hp as [[? ?]|Hp]; [done|].
  pose proof Hp as (_ & -> & (len' & El & ? & ? & _) & El' & _).
  pose proof (lo_off_in _ _ _ HL).
  step by (fdt32_ld_range m (lo_bytes _ _ _ HL) _ _ (fdt + L.(off) + o + 8) HR) as nameoff Hno.
  step by (string_eq_returns (s32 nameoff) name) as eq _.
  destruct eq.
  { right. split; [rewrite El in El'; injection El' as <-; lia|]. by right. }
  step by (next_property_returns o) as r Hr.
  assert (L.(off) + o + 4 <= L.(total)) by lia.
  assert (0 < f)%nat by (unfold enough_fuel in He; lia).
  apply IH; [|done]. destruct Hr as [?|[? ?]]; [by left|right]. split; [done|].
  unfold enough_fuel in *. lia.
Qed.

Lemma get_property_namelen_returns o name :
  o < 2 ^ 31 ->
  returns (fdt_get_property_namelen_ m fdt o name) (fun '(p, len, po) =>
    (p = nullptr /\ len < 0) \/ (0 <= len /\ prop_result po p len)).
Proof.
  intros Ho. unfold fdt_get_property_namelen_.
  step by (first_property_returns o) as r Hr. apply get_property_loop_returns; [|lia].
  destruct Hr as [?|Hr]; [by left|right]. split; [done|]. apply (fuel_start m fdt); [done..|apply Hr].
Qed.

(** The data of a property starts twelve bytes into it. *)
Lemma prop_result_data o p len :
  0 <= len -> prop_result o p len -> 0 < p /\ within (p + 12) len.
Proof.
  intros ? [[? ?]|(? & -> & (len' & El & ? & ? & _) & El' & _)]; [lia|].
  rewrite El in El'. injection El' as ->. unfold within.
  pose proof (lo_fdt _ _ _ HL). pose proof (lo_off_in _ _ _ HL). lia.
Qed.

Lemma get_property_returns o name :
  o < 2 ^ 31 ->
  returns (fdt_get_property m fdt o name) (fun '(p, len) =>
    (p = nullptr /\ len < 0) \/ (0 < p /\ within (p + 12) len)).
Proof.
  intros Ho. unfold fdt_get_property, fdt_get_property_namelen.
  rewrite (lo_version _ _ _ HL). cbn [run_bind]. destruct (_ <? 16); [by left|].
  step by (get_property_namelen_returns o name) as [[p len] po] [?|[? Hp]]; [by left|].
  right. by eapply prop_result_data.
Qed.

Lemma getprop_returns o name :
  o < 2 ^ 31 -> returns (fdt_getprop m fdt o name) (fun '(p, len) => data_result p len).
Proof.
  intros Ho. unfold fdt_getprop, fdt_getprop_namelen.
  step by (get_property_namelen_returns o name) as [[p len] po] [[-> ?]|[? Hp]].
  { left. split; [done|lia]. }
  pose proof (prop_result_nonnull _ _ _ Hp ltac:(done)). destruct (Z.eqb_spec p nullptr); [done|].
  pose proof (prop_result_data _ _ _ ltac:(done) Hp) as [? (? & ? & ?)].
  unfold prop_data. rewrite (lo_version _ _ _ HL). cbn [run_bind].
  destruct Hp as [[? ?]|(? & -> & (len' & El & ? & ? & Hal) & El' & _)]; [done|].
  rewrite El in El'. injection El' as ->.
  destruct (_ && _) eqn:E; cbn [run_bind].
  - rewrite El. cbn [run_bind]. bool_cases.
    destruct (Z.leb_spec 8 len); right; unfold within; [|lia].
    pose proof (Hal ltac:(done) ltac:(done) ltac:(done)). lia.
  - right. unfold within. lia.
Qed.

(** ** Names *)

Lemma strrchr_range p q :
  0 < p -> range m p (q + 1) -> p <= q -> m !! q = Some 0 ->
  returns (strrchr p 47 m) (fun r => r = nullptr \/ p <= r < q).
Proof.
  intros Hp H Hpq Hq. unfold strrchr. change (char_of 47) with 47.
  enough (forall fuel a r, p <= a <= q -> (Z.to_nat (q - a) < fuel)%nat ->
    (r = nullptr \/ p <= r < q) ->
    returns (strrchr_loop fuel a 47 r m) (fun r => r = nullptr \/ p <= r < q)) as E.
  { apply E; [lia| |by left]. pose proof (range_size m _ _ H). lia. }
  intros fuel. induction fuel as [|f IH]; intros a r Ha Hf Hr; [lia|]. cbn [strrchr_loop].
  step by (load8_range m (lo_bytes _ _ _ HL) _ _ a H) as b [_ Hb].
  destruct (Z.eqb_spec b 0) as [->|Hb0]; [done|].
  destruct (Z.eq_dec a q) as [->|]; [congruence|].
  apply IH; [lia|lia|]. destruct (_ =? 47); [right; lia|done].
Qed.

Lemma get_name_returns o :
  o < 2 ^ 31 -> returns (fdt_get_name m fdt o) (fun '(p, n) => string_result p n).
Proof.
  intros Ho. unfold fdt_get_name, fdt_offset_ptr_. rewrite (lo_off _ _ _ HL). cbn [run_bind].
  step by ro_probe_returns as e1 _. destruct (Z.ltb_spec e1 0); [by left|].
  step by (check_node_returns m fdt L HL HR o) as e2 He2. destruct (Z.ltb_spec e2 0); [by left|].
  destruct He2 as [?|(? & _ & _ & _ & _ & q & Hq & Hz)]; [lia|].
  pose proof (lo_fdt _ _ _ HL). pose proof (lo_off_in _ _ _ HL).
  assert (forall a, fdt + L.(off) + o + 4 <= a <= q ->
    returns (let+ n := strlen a m in Done (a, n)) (fun '(p, n) => string_result p n)) as Hlen.
  { intros a Ha. step by (strlen_range m (lo_bytes _ _ _ HL) a q) as n [? ?].
    { eapply range_sub; [exact HR|lia..]. }
    right. unfold within. split_and!; [lia..|done]. }
  rewrite (lo_version _ _ _ HL). cbn [run_bind]. destruct (_ <? 16); [|apply Hlen; lia].
  step by (strrchr_range (fdt + L.(off) + o + 4) q) as leaf Hleaf.
  { eapply range_sub; [exact HR|lia..]. }
  destruct (Z.eqb_spec leaf nullptr); [by left|]. destruct Hleaf as [?|?]; [done|].
  apply Hlen. lia.
Qed.

Lemma nodename_eq_returns o s :
  o < 2 ^ 31 -> returns (fdt_nodename_eq_ m fdt o s) (fun _ => True).
Proof.
  intros Ho. unfold fdt_nodename_eq_. step by (get_name_returns o) as [p n] Hp.
  destruct (_ || _) eqn:E; [done|]. bool_cases.
  destruct Hp as [[? ?]|(? & (? & ? & ?) & ? & ?)]; [done|].
  step by (bytes_eq_range m (lo_bytes _ _ _ HL) s p) as eq _.
  { eapply range_sub; [exact HR|lia..]. }
  destruct eq; [|done]. cbn [negb].
  step by (load8_range m (lo_bytes _ _ _ HL) _ _ (p + Z.of_nat (List.length s)) HR) as c _.
  by destruct (c =? 0).
Qed.

(** ** Walks over nodes *)

(** Fuel for a loop that moves to a later node in each turn. *)
Definition more (fuel : nat) (o : Z) : Prop :=
  2 <= Z.of_nat fuel /\ L.(total) + 5 - L.(off) - Z.max o (-1) <= Z.of_nat fuel.

Lemma more_start o : more (S (size m)) o.
Proof.
  unfold more. pose proof (blob_size m fdt L HR). pose proof (lo_off_in _ _ _ HL). lia.
Qed.

Lemma more_step f o r : more (S f) o -> o < r -> tag_offset r -> more f r.
Proof. unfold more. intros [? ?] ? (? & ? & ?). lia. Qed.

Lemma subnode_loop_returns fuel name : forall o depth,
  (1 <= fuel)%nat -> (o < 0 \/ o < 2 ^ 31 /\ more fuel o) ->
  returns (subnode_loop m fdt fuel o depth name) (fun r => r < 2 ^ 31).
Proof.
  induction fuel as [|f IH]; intros o depth H1 Ho; [lia|]. cbn [subnode_loop].
  destruct (_ && _) eqn:E; [bool_cases|destruct (_ <? _); simpl; [done|lia]].
  destruct Ho as [?|[Ho Hm]]; [lia|].
  eapply returns_bind with (P := fun _ => True).
  { destruct (_ =? 1); [by apply nodename_eq_returns|done]. }
  intros [] _; [done|].
  step by (next_node_returns m fdt L HL HR o (Some depth)) as [r d] Hr.
  apply IH; [unfold more in Hm; lia|]. destruct Hr as [?|[? Hr]]; [by left|right].
  split; [by eapply tag_offset_int|by eapply more_step].
Qed.

Lemma subnode_returns o name :
  o < 2 ^ 31 -> returns (fdt_subnode_offset_namelen m fdt o name) (fun r => r < 2 ^ 31).
Proof.
  intros Ho. unfold fdt_subnode_offset_namelen. step by ro_probe_returns as r Hr.
  destruct (Z.ltb_spec r 0); [simpl; lia|]. apply subnode_loop_returns; [lia|].
  right. split; [done|apply more_start].
Qed.

Lemma split_slash_length s : forall a b,
  split_slash s = (a, b) -> List.length s = (List.length a + List.length b)%nat.
Proof.
  induction s as [|c s IH]; intros a b; simpl; [by intros [= <- <-]|].
  destruct (c =? 47); [by intros [= <- <-]|].
  destruct (split_slash s) as [a' b'] eqn:E. intros [= <- <-]. simpl. by rewrite (IH a' b').
Qed.

Lemma path_loop_returns fuel : forall o p,
  (List.length p < fuel)%nat -> o < 2 ^ 31 ->
  returns (path_loop m fdt fuel o p) (fun r => r < 2 ^ 31).
Proof.
  induction fuel as [|f IH]; intros o p Hf Ho; [lia|]. cbn [path_loop].
  destruct p as [|c p]; [done|]. cbn [List.length] in Hf.
  destruct (Z.eqb_spec c 47); [apply IH; [lia|done]|].
  destruct (split_slash (c :: p)) as [comp rest] eqn:E.
  assert (List.length rest < f)%nat.
  { pose proof (split_slash_length _ _ _ E) as Hl. simpl in Hl, E.
    destruct (Z.eqb_spec c 47); [done|]. destruct (split_slash p). injection E as <- <-.
    simpl in Hl. lia. }
  step by (subnode_returns o comp) as r Hr. destruct (_ <? 0); [done|]. by apply IH.
Qed.

Lemma absolute_path_returns depth p :
  returns (fdt_path_offset_namelen m fdt depth (47 :: p)) (fun r => r < 2 ^ 31).
Proof.
  destruct depth; cbn [fdt_path_offset_namelen];
  (step by ro_probe_returns as r Hr; destruct (Z.ltb_spec r 0); [simpl; lia|]);
  change (47 =? 47) with true; cbv iota; (apply path_loop_returns; [lia|done]).
Qed.

(** A checked alias: the path in the blob, which starts with a slash. *)
Lemma alias_returns alias len :
  data_result alias len ->
  returns (if (alias =? nullptr) || (len <=? 0) then Done false
           else let+ last := load8 m (alias + len - 1) in
                let+ first := load8 m alias in
                Done ((last =? 0) && (first =? 47)))
    (fun good => good = true -> exists q, alias <= q < fdt + L.(total) /\ fdt <= alias /\
       m !! q = Some 0 /\ m !! alias = Some 47).
Proof.
  intros Ha. destruct (_ || _) eqn:E; [done|]. bool_cases.
  destruct Ha as [[? ?]|(? & ? & ? & ?)]; [done|].
  step by (load8_range m (lo_bytes _ _ _ HL) _ _ (alias + len - 1) HR) as last [_ Hl].
  step by (load8_range m (lo_bytes _ _ _ HL) _ _ alias HR) as first [_ Hf].
  simpl. intros Hg. bool_cases. subst. exists (alias + len - 1). split_and!; [lia..|done|done].
Qed.

Lemma read_bytes_range n : forall p,
  range m p (p + Z.of_nat n) ->
  returns (read_bytes m n p) (fun l => bytes_at m p l /\ List.length l = n).
Proof.
  induction n as [|n IH]; intros p H; cbn [read_bytes].
  { split; [apply bytes_at_nil|done]. }
  step by (load8_range m (lo_bytes _ _ _ HL) _ _ p H) as b [_ Hb].
  step by (IH (p + 1)) as l [Hl Hn]; [eapply range_sub; [exact H|lia..]|].
  simpl. split; [by apply bytes_at_cons|by rewrite Hn].
Qed.

Lemma read_string_slash p q :
  p <= q < fdt + L.(total) -> fdt <= p -> m !! q = Some 0 -> m !! p = Some 47 ->
  returns (read_string m p) (fun l => exists l', l = 47 :: l').
Proof.
  intros Hpq Hp Hq H47. unfold read_string.
  step by (strlen_range m (lo_bytes _ _ _ HL) p q) as n [Hn Hz].
  { eapply range_sub; [exact HR|lia..]. }
  eapply returns_mono; [apply read_bytes_range; eapply range_sub; [exact HR|lia..]|].
  intros l [Hl Hlen]. destruct l as [|b l].
  - simpl in Hlen. assert (n = 0) as -> by lia. rewrite Z.add_0_r in Hz. congruence.
  - apply bytes_at_cons in Hl as [Hb _]. exists l. congruence.
Qed.

Lemma path_offset_returns p : returns (fdt_path_offset m fdt p) (fun r => r < 2 ^ 31).
Proof.
  unfold fdt_path_offset. cbn [fdt_path_offset_namelen].
  step by ro_probe_returns as r Hr. destruct (Z.ltb_spec r 0); [simpl; lia|].
  destruct p as [|c p]; [done|].
  destruct (Z.eqb_spec c 47); [apply path_loop_returns; [lia|done]|].
  destruct (split_slash (c :: p)) as [name rest] eqn:E.
  step by (absolute_path_returns 0 (lit "aliases"%string)) as al Hal.
  eapply returns_bind with (P := fun '(a, l) => data_result a l).
  { destruct (Z.ltb_spec al 0); [by left|]. by apply getprop_returns. }
  intros [alias len] Ha. step by (alias_returns alias len Ha) as good Hg.
  destruct good; [|done]. cbn [negb]. destruct Hg as (q & ? & ? & ? & ?); [done|].
  step by (read_string_slash alias q) as target [t ->].
  step by (absolute_path_returns 0 t) as o Ho.
  apply path_loop_returns; [|done].
  pose proof (split_slash_length _ _ _ E). lia.
Qed.

(** ** Searches *)

Lemma search_nodes_returns test fuel : forall o,
  (forall o, tag_offset o -> returns (test o) (fun r => forall v, r = Some v -> v < 0 \/ v = o)) ->
  o < 2 ^ 31 -> more fuel o ->
  returns (search_nodes m fdt fuel test o) (fun r => r < 0 \/ (o < r /\ tag_offset r)).
Proof.
  intros o Ht. revert o. induction fuel as [|f IH]; intros o Ho Hm; [by destruct Hm; lia|].
  cbn [search_nodes].
  step by (next_node_returns m fdt L HL HR o None) as [r d] Hr.
  destruct (Z.ltb_spec r 0); [by left|]. destruct Hr as [?|[? Hr]]; [lia|].
  step by (Ht r Hr) as v Hv. destruct v as [v|]; [destruct (Hv v eq_refl) as [?| ->]; [by left|by right]|].
  eapply returns_mono; [apply IH; [by eapply tag_offset_int|by eapply more_step]|].
  simpl. intros v [?|[? ?]]; [by left|right]. split; [lia|done].
Qed.

Lemma get_phandle_returns o :
  o < 2 ^ 31 -> returns (fdt_get_phandle m fdt o) (fun _ => True).
Proof.
  intros Ho. unfold fdt_get_phandle.
  assert (forall p len, data_result p len -> (p =? nullptr) || negb (len =? 4) = false ->
            returns (fdt32_ld m p) (fun _ => True)) as Hld.
  { intros p len Hp E. bool_cases. destruct Hp as [[? ?]|(? & ? & ? & ?)]; [done|].
    eapply returns_mono; [apply (fdt32_ld_range m (lo_bytes _ _ _ HL) _ _ p HR); lia|done]. }
  step by (getprop_returns o (lit "phandle"%string)) as [p len] Hp.
  destruct (_ || _) eqn:E1; [|by eapply Hld].
  step by (getprop_returns o (lit "linux,phandle"%string)) as [p' len'] Hp'.
  destruct ((p' =? _) || _) eqn:E2; [done|by eapply Hld].
Qed.

Lemma by_phandle_returns ph : returns (fdt_node_offset_by_phandle m fdt ph) (fun r => r < 2 ^ 31).
Proof.
  unfold fdt_node_offset_by_phandle. destruct (_ || _); [done|].
  step by ro_probe_returns as r Hr. destruct (Z.ltb_spec r 0); [simpl; lia|].
  eapply returns_mono; [apply search_nodes_returns; [|done|apply more_start]|].
  - intros o Ho. step by (get_phandle_returns o) as v _; [by eapply tag_offset_int|].
    simpl. destruct (_ =? _); intros ? [= <-]; by right.
  - simpl. intros v [?|[_ ?]]; [lia|by eapply tag_offset_int].
Qed.

(** The comparison of [fdt_stringlist_contains] includes the terminator and may
    read one byte past the list. *)
Hypothesis HR1 : range m fdt (fdt + L.(total) + 1).

Lemma contains_loop_returns str fuel : forall p n,
  0 < p -> fdt <= p -> 0 <= n -> p + n <= fdt + L.(total) -> n < Z.of_nat fuel ->
  returns (stringlist_contains_loop m fuel p n str) (fun _ => True).
Proof.
  induction fuel as [|f IH]; intros p n ? ? ? ? ?; [lia|]. cbn [stringlist_contains_loop].
  destruct (Z.leb_spec (Z.of_nat (List.length str)) n); [|done].
  step by (bytes_eq_range m (lo_bytes _ _ _ HL) (str ++ [0]) p) as eq _.
  { rewrite length_app. eapply range_sub; [exact HR1|simpl; lia..]. }
  destruct eq; [done|].
  step by (memchr_range m (lo_bytes _ _ _ HL) p n) as q Hq.
  { eapply range_sub; [exact HR|lia..]. }
  destruct (Z.eqb_spec q nullptr); [done|]. destruct Hq as [?|[? _]]; [done|].
  apply IH; lia.
Qed.

Lemma check_compatible_returns o c :
  o < 2 ^ 31 -> returns (fdt_node_check_compatible m fdt o c) (fun r => r <= 1).
Proof.
  intros Ho. unfold fdt_node_check_compatible.
  step by (getprop_returns o (lit "compatible"%string)) as [p len] Hp.
  destruct (Z.eqb_spec p nullptr). { destruct Hp as [[? ?]|[? ?]]; simpl; unfold nullptr in *; lia. }
  destruct Hp as [[? ?]|(? & ? & ? & ?)]; [done|].
  unfold fdt_stringlist_contains.
  step by (contains_loop_returns c (S (size m)) p len) as b _.
  { pose proof (blob_size m fdt L HR). lia. }
  by destruct b.
Qed.

Lemma by_compatible_returns o c :
  o < 2 ^ 31 ->
  returns (fdt_node_offset_by_compatible m fdt o c) (fun r => r < 0 \/ (o < r /\ tag_offset r)).
Proof.
  intros Ho. unfold fdt_node_offset_by_compatible.
  step by ro_probe_returns as r Hr. destruct (Z.ltb_spec r 0); [by left|].
  apply search_nodes_returns; [|done|apply more_start].
  intros o' Ho'. step by (check_compatible_returns o' c) as e He; [by eapply tag_offset_int|].
  destruct (_ && _) eqn:E; [bool_cases; simpl; intros ? [= <-]; by left|].
  destruct (e =? 0); simpl; intros ? [= <-]. by right.
Qed.

End queries.

End LibfdtRoSafe.
