(* ===== verification/KernelFdt.v ===== *)
(** * The kernel's view of the device tree: src/src/kernel_fdt.cpp

    [fdt_header_] is the parameter [fdt].  A query first asserts that it is not
    null, then reads the blob through libfdt; [Expected] results are those of
    [Errors].  Comparing a property with a literal by [strcmp] reads up to the
    first difference or the terminator of the literal: [bytes_eq] against the
    literal and its terminator.  Logging is left out. *)

From stdpp Require Import base numbers list gmap.
From Stdlib Require Import ZArith Lia Ascii String.
From S2P Require Import Prelude CMem CString Errors Libfdt LibfdtRo.
Import CString Errors Libfdt LibfdtRo.

Local Open Scope Z_scope.

Module KernelFdt.

Definition kPsciCpuOnFuncId : Z := 3288334339.
Definition kPsciCpuOffFuncId : Z := 2214592514.
Definition kPsciCpuSuspendFuncId : Z := 3288334337.

(** [and_then] of [std::expected] over calls that read memory. *)
Definition and_then {A B} (r : run (Expected A)) (k : A -> run (Expected B)) : run (Expected B) :=
  let+ x := r in match x with inl a => k a | inr e => Done (inr e) end.

Definition transform {A B} (r : run (Expected A)) (f : A -> B) : run (Expected B) :=
  and_then r (fun a => Done (inl (f a))).

Section kernel_fdt.
Context (fdt : Z).

Section reads.
Context (m : mem).

Abbreviation fdt_get_property := (LibfdtRo.fdt_get_property m fdt).
Abbreviation fdt_path_offset := (LibfdtRo.fdt_path_offset m fdt).

(** [strcmp(p, s) == 0] for a literal [s]. *)
Definition streq (p : ptr) (s : list Z) : run bool := bytes_eq m p (s ++ [0]).

Definition LoadBeU64 (p : ptr) : run Z := fdt64_ld m p.
Definition LoadBeU32 (p : ptr) : run Z := fdt32_ld m p.

(** [prop->data] *)
Definition data (prop : ptr) : ptr := prop + 12.

(** ** Private helpers *)

Definition ValidateFdtHeader : run (Expected unit) :=
  let+ r := fdt_check_header m fdt in
  if negb (r =? 0) then Done (inr kFdtInvalidHeader) else Done (inl tt).

Definition FindNode (path : list Z) : run (Expected Z) :=
  let+ offset := fdt_path_offset path in
  if offset <? 0 then Done (inr kFdtNodeNotFound) else Done (inl offset).

Definition FindCompatibleNode (compatible : list Z) : run (Expected Z) :=
  let+ offset := fdt_node_offset_by_compatible m fdt (-1) compatible in
  if offset <? 0 then Done (inr kFdtNodeNotFound) else Done (inl offset).

Fixpoint enabled_loop (fuel : nat) (offset : Z) (compatible : list Z) : run (Expected Z) :=
  match fuel with
  | O => NoFuel
  | S fuel' =>
      let+ offset := fdt_node_offset_by_compatible m fdt offset compatible in
      if offset <? 0 then Done (inr kFdtNodeNotFound)
      else
      let+ '(status_prop, _) := fdt_get_property offset (lit "status"%string) in
      if status_prop =? nullptr then Done (inl offset)
      else
      let+ okay := streq (data status_prop) (lit "okay"%string) in
      if okay then Done (inl offset)
      else
      let+ ok := streq (data status_prop) (lit "ok"%string) in
      if ok then Done (inl offset) else enabled_loop fuel' offset compatible
  end.

Definition FindEnabledCompatibleNode (compatible : list Z) : run (Expected Z) :=
  enabled_loop (S (size m)) (-1) compatible.

(** [for (off = 0; off + kPairBytes <= len; off += kPairBytes)]: the last
    pair is kept. *)
Fixpoint reg_loop (fuel : nat) (data8 len off base size : Z) : run (Z * Z) :=
  match fuel with
  | O => NoFuel
  | S fuel' =>
      if off + 16 <=? len then
        let+ base := LoadBeU64 (data8 + off) in
        let+ size := LoadBeU64 (data8 + off + 8) in
        reg_loop fuel' data8 len (off + 16) base size
      else Done (base, size)
  end.

Definition GetRegProperty (offset : Z) : run (Expected (Z * Z)) :=
  let+ '(prop, len) := fdt_get_property offset (lit "reg"%string) in
  if prop =? nullptr then Done (inr kFdtPropertyNotFound)
  else
  let+ r := reg_loop (S (Z.to_nat len)) (data prop) len 0 0 0 in
  Done (inl r).

Fixpoint count_loop (fuel : nat) (offset count : Z) (device_type : list Z) : run (Expected Z) :=
  match fuel with
  | O => NoFuel
  | S fuel' =>
      let+ '(offset, _) := fdt_next_node m fdt offset None in
      if offset <? 0 then
        if negb (offset =? - FDT_ERR_NOTFOUND) then Done (inr kFdtParseFailed)
        else Done (inl count)
      else
      let+ '(prop, _) := fdt_get_property offset (lit "device_type"%string) in
      if prop =? nullptr then count_loop fuel' offset count device_type
      else
      let+ eq := streq (data prop) device_type in
      count_loop fuel' offset (if eq then count + 1 else count) device_type
  end.

Definition CountNodesByDeviceType (device_type : list Z) : run (Expected Z) :=
  count_loop (S (size m)) (-1) 0 device_type.

Definition GetPsciMethod (offset : Z) : run (Expected ptr) :=
  let+ '(prop, _) := fdt_get_property offset (lit "method"%string) in
  if prop =? nullptr then Done (inr kFdtPropertyNotFound) else Done (inl (data prop)).

Definition validate_id (offset : Z) (name : list Z) (expected : Z) : run (Expected unit) :=
  let+ '(prop, len) := fdt_get_property offset name in
  if negb (prop =? nullptr) && (4 <=? u64 len) then
    let+ id := fdt32_ld m (data prop) in
    if negb (id =? expected) then Done (inr kFdtPropertyNotFound) else Done (inl tt)
  else Done (inl tt).

Definition ValidatePsciFunctionIds (offset : Z) : run (Expected unit) :=
  and_then (and_then (validate_id offset (lit "cpu_on"%string) kPsciCpuOnFuncId)
    (fun _ => validate_id offset (lit "cpu_off"%string) kPsciCpuOffFuncId))
    (fun _ => validate_id offset (lit "cpu_suspend"%string) kPsciCpuSuspendFuncId).

End reads.

(** ** Public queries *)

(** A reading of the blob as a kernel operation: the memory does not change, a
    read outside it is a wild access. *)
Definition reading {A} (r : mem -> run A) : M mem A :=
  fun m => match r m with
           | Done a => Ret m a
           | Fault => Halt m (BadPointer fdt)
           | NoFuel => Halt m Diverges
           end.

(** [nk_assert_msg(fdt_header_ != nullptr, ..)], then the body. *)
Definition query {A} (r : mem -> run A) : M mem A :=
  let* _ := nk_assert_msg (negb (fdt =? nullptr)) "fdt_header_ is null" in reading r.

(** The constructor: an invalid header spins, otherwise the size is read for
    the log. *)
Definition KernelFdt_ctor : M mem unit :=
  let* r := query ValidateFdtHeader in
  match r with
  | inr _ => halt_with Parked
  | inl _ => let* _ := reading (fun m => fdt_totalsize m fdt) in ret tt
  end.

Definition GetCoreCount : M mem (Expected Z) := query (fun m =>
  and_then (CountNodesByDeviceType m (lit "cpu"%string)) (fun count =>
    if count =? 0 then Done (inr kFdtNodeNotFound) else Done (inl count))).

(** The log message prints [method] with [%s], which reads it up to its
    terminator, whatever the length of the property. *)
Definition CheckPSCI : M mem (Expected unit) := query (fun m =>
  and_then (FindNode m (lit "/psci"%string)) (fun offset =>
  and_then (GetPsciMethod m offset) (fun method =>
    let+ _ := strlen method m in
    let+ smc := streq m method (lit "smc"%string) in
    if negb smc then Done (inr kFdtPropertyNotFound) else ValidatePsciFunctionIds m offset))).

Definition GetMemory : M mem (Expected (Z * Z)) := query (fun m =>
  and_then (FindNode m (lit "/memory"%string)) (fun offset =>
    transform (GetRegProperty m offset) (fun reg => reg))).

(** The prefix before the first [c]. *)
Fixpoint until (c : Z) (s : list Z) : list Z :=
  match s with
  | [] => []
  | b :: s' => if b =? c then [] else b :: until c s'
  end.

(** The text of the 256-byte buffer: at most 255 bytes are copied and a
    terminator is written, the part from the first colon on is cut off. *)
Definition stdout_path (m : mem) (p : ptr) (len : Z) : run (list Z) :=
  let copy_len := if 256 <=? len then 255 else len in
  let+ buffer := read_bytes m (Z.to_nat copy_len) p in
  Done (until 58 (until 0 buffer)).

(** [stdout_offset]: an alias after an ampersand, or a path. *)
Definition stdout_node (m : mem) (path : list Z) : run Z :=
  match path with
  | 38 :: alias =>
      let+ aliased_path := fdt_get_alias m fdt alias in
      if aliased_path =? nullptr then Done (-1)
      else let+ target := read_string m aliased_path in LibfdtRo.fdt_path_offset m fdt target
  | _ => LibfdtRo.fdt_path_offset m fdt path
  end.

Definition GetSerial : M mem (Expected (Z * Z * Z)) := query (fun m =>
  and_then (FindNode m (lit "/chosen"%string)) (fun chosen_offset =>
  let+ '(prop, len) := LibfdtRo.fdt_get_property m fdt chosen_offset (lit "stdout-path"%string) in
  if (prop =? nullptr) || (len <=? 0) then Done (inr kFdtPropertyNotFound)
  else
  let+ path := stdout_path m (data prop) len in
  let+ stdout_offset := stdout_node m path in
  if stdout_offset <? 0 then Done (inr kFdtNodeNotFound)
  else
  and_then (GetRegProperty m stdout_offset) (fun '(base, size) =>
  let+ '(prop, len) := LibfdtRo.fdt_get_property m fdt stdout_offset (lit "interrupts"%string) in
  if prop =? nullptr then Done (inr kFdtPropertyNotFound)
  else
  let+ irq := (if 4 <=? len then LoadBeU32 m (data prop) else Done 0) in
  Done (inl (base, size, irq))))).

Definition GetTimebaseFrequency : M mem (Expected Z) := query (fun m =>
  and_then (FindNode m (lit "/cpus"%string)) (fun offset =>
  let+ '(prop, len) := fdt_getprop m fdt offset (lit "timebase-frequency"%string) in
  if prop =? nullptr then Done (inr kFdtPropertyNotFound)
  else if negb (len =? 4) then Done (inr kFdtInvalidPropertySize)
  else let+ v := fdt32_ld m prop in Done (inl v))).

Definition gic_body (m : mem) : run (Expected (Z * Z * Z * Z)) :=
  and_then (FindCompatibleNode m (lit "arm,gic-v3"%string)) (fun offset =>
  let+ '(prop, len) := LibfdtRo.fdt_get_property m fdt offset (lit "reg"%string) in
  if prop =? nullptr then Done (inr kFdtPropertyNotFound)
  else
  let data8 := data prop in
  let+ '(dist_base, dist_size) :=
    (if 16 <=? len then
       let+ b := LoadBeU64 m data8 in let+ s := LoadBeU64 m (data8 + 8) in Done (b, s)
     else Done (0, 0)) in
  let+ '(redist_base, redist_size) :=
    (if 32 <=? len then
       let+ b := LoadBeU64 m (data8 + 16) in let+ s := LoadBeU64 m (data8 + 24) in Done (b, s)
     else Done (0, 0)) in
  Done (inl (dist_base, dist_size, redist_base, redist_size))).

Definition GetGIC : M mem (Expected (Z * Z * Z * Z)) := query gic_body.
Definition GetGicDist : M mem (Expected (Z * Z)) :=
  query (fun m => transform (gic_body m) (fun '(a, b, _, _) => (a, b))).
Definition GetGicCpu : M mem (Expected (Z * Z)) :=
  query (fun m => transform (gic_body m) (fun '(_, _, c, d) => (c, d))).

(** The index of the interrupt cell for a device. *)
Definition cell_index (compatible : list Z) : Z :=
  if bool_decide (compatible = lit "arm,armv8-timer"%string) then 7
  else if bool_decide (compatible = lit "arm,pl011"%string) then 1 else -1.

Definition GetAarch64Intid (compatible : list Z) : M mem (Expected Z) := query (fun m =>
  and_then (FindEnabledCompatibleNode m compatible) (fun offset =>
  let+ '(prop, len) := LibfdtRo.fdt_get_property m fdt offset (lit "interrupts"%string) in
  if prop =? nullptr then Done (inr kFdtPropertyNotFound)
  else
  let ci := cell_index compatible in
  let+ intid :=
    (if (0 <=? ci) && ((ci + 1) * 4 <=? len) then LoadBeU32 m (data prop + ci * 4) else Done 0) in
  Done (inl intid))).

Definition GetPlic : M mem (Expected (Z * Z * Z * Z)) := query (fun m =>
  let+ first := FindCompatibleNode m (lit "sifive,plic-1.0.0"%string) in
  and_then (match first with
            | inl _ => Done first
            | inr _ => FindCompatibleNode m (lit "riscv,plic0"%string)
            end) (fun offset =>
  let+ '(prop, len) := LibfdtRo.fdt_get_property m fdt offset (lit "interrupts-extended"%string) in
  if prop =? nullptr then Done (inr kFdtPropertyNotFound)
  else
  let context_count := u32 (u64 len / 4 / 2) in
  let+ '(prop, len) := LibfdtRo.fdt_get_property m fdt offset (lit "riscv,ndev"%string) in
  if prop =? nullptr then Done (inr kFdtPropertyNotFound)
  else if len <? 4 then Done (inr kFdtInvalidPropertySize)
  else
  let+ ndev := LoadBeU32 m (data prop) in
  transform (GetRegProperty m offset) (fun '(base, size) => (base, size, ndev, context_count)))).

End kernel_fdt.

End KernelFdt.
