(* ===== verification/KernelFdtSafe.v ===== *)
(** * Safety of the kernel's device-tree queries

    Every query of [KernelFdt] returns on every blob that the constructor
    accepts, provided five bytes behind the blob are readable; without them a
    query can read past the blob. *)

From stdpp Require Import base numbers list gmap.
From Stdlib Require Import ZArith Lia Ascii String.
From S2P Require Import Prelude CMem CString Errors Libfdt LibfdtRo LibfdtSafe LibfdtRoSafe KernelFdt.
Import CString Errors Libfdt LibfdtRo LibfdtSafe LibfdtRoSafe KernelFdt.

Local Open Scope Z_scope.

Module KernelFdtSafe.

(** ** The reader *)

(** C5: Termination of the walk: on every blob that passes [fdt_check_header],
    whatever bytes it holds, [fdt_next_tag] and [fdt_next_node] return from
    every offset that is an [int] and read only the blob.  A tag that is not an
    error moves on by at least four bytes, stays a multiple of four and ends no
    more than three bytes of padding behind the blob; the next node lies
    strictly behind the given one. *)
Theorem device_tree_walk_terminates m fdt total o depth :
  accepted 0 m fdt -> fdt_totalsize m fdt = Done total -> o < 2 ^ 31 ->
  (exists tag next, fdt_next_tag m fdt o = Done (tag, next) /\
    ((tag = FDT_END /\ next < 0) \/
     (o + 4 <= next <= total /\ next mod 4 = 0 /\
      tag ∈ [FDT_BEGIN_NODE; FDT_END_NODE; FDT_PROP; FDT_NOP; FDT_END]))) /\
  (exists r depth', fdt_next_node m fdt o depth = Done (r, depth') /\
    (r < 0 \/ (o < r <= total /\ r mod 4 = 0))).
Proof.
  intros (L & HL & HR)%accepted_layout Ht Ho.
  rewrite (lo_total _ _ _ HL) in Ht. injection Ht as <-. rewrite Z.add_0_r in HR.
  pose proof (lo_off_in _ _ _ HL). split.
  - pose proof (next_tag_returns m fdt L HL HR o Ho) as H'.
    apply returns_ex in H' as ([tag next] & E & [[? ?]|(? & ? & ? & ? & ?)] & _);
      exists tag, next; (split; [done|]); [by left|right]. split_and!; [lia..|done|done].
  - pose proof (next_node_returns m fdt L HL HR o depth Ho) as H'.
    apply returns_ex in H' as ([r d] & E & [?|(? & ? & ? & ?)]);
      exists r, d; (split; [done|]); [by left|right]. split_and!; lia.
Qed.

(** Bounds of property data: on every accepted blob the look-up of a property
    of a node returns null with an error code, or the address and length of
    bytes inside the blob. *)
Theorem property_data_in_blob m fdt total o name :
  accepted 0 m fdt -> fdt_totalsize m fdt = Done total -> o < 2 ^ 31 ->
  exists p len, fdt_getprop m fdt o name = Done (p, len) /\
    ((p = nullptr /\ len <= 0) \/ (fdt <= p /\ 0 <= len /\ p + len <= fdt + total)).
Proof.
  intros (L & HL & HR)%accepted_layout Ht Ho.
  rewrite (lo_total _ _ _ HL) in Ht. injection Ht as <-. rewrite Z.add_0_r in HR.
  pose proof (getprop_returns m fdt L HL HR o name Ho) as H.
  apply returns_ex in H as ([p len] & E & [?|(_ & H)]); exists p, len; (split; [done|]);
    [by left|by right].
Qed.

(** ** The queries *)

(** A query whose body returns returns, and leaves the memory as it is. *)
Lemma query_returns {A} fdt (r : mem -> run A) m :
  fdt <> 0 -> returns (r m) (fun _ => True) -> exists a, query fdt r m = Ret m a.
Proof.
  intros Hf Hr. apply returns_ex in Hr as (a & E & _). exists a.
  unfold query, reading. simpl. destruct (Z.eqb_spec fdt nullptr); [done|]. simpl. by rewrite E.
Qed.

Section queries.
Context (m : mem) (fdt : Z) (L : Layout).
Hypothesis HL : laid_out m fdt L.
Hypothesis HR5 : range m fdt (fdt + L.(total) + 5).

Lemma HR : range m fdt (fdt + L.(total)).
Proof. eapply range_sub; [exact HR5|lia..]. Qed.

Lemma HR1 : range m fdt (fdt + L.(total) + 1).
Proof. eapply range_sub; [exact HR5|lia..]. Qed.

Lemma fdt_nonnull : fdt <> 0.
Proof. pose proof (lo_fdt _ _ _ HL). lia. Qed.

Lemma and_then_returns {A B} (r : run (Expected A)) (k : A -> run (Expected B)) (P : A -> Prop) :
  returns r (fun x => match x with inl a => P a | inr _ => True end) ->
  (forall a, P a -> returns (k a) (fun _ => True)) ->
  returns (and_then r k) (fun _ => True).
Proof.
  intros Hr Hk. unfold and_then. eapply returns_bind; [exact Hr|].
  intros [a|e] Ha; [by apply Hk|done].
Qed.

(** The offset in a result is an [int]. *)
Definition int_offset (x : Expected Z) : Prop :=
  match x with inl o => o < 2 ^ 31 | inr _ => True end.

Lemma streq_returns p s :
  (List.length s <= 4)%nat -> within fdt L p 0 -> returns (streq m p s) (fun _ => True).
Proof.
  intros Hs (? & _ & ?). eapply returns_mono; [apply (bytes_eq_range m (lo_bytes _ _ _ HL))|done].
  rewrite length_app. eapply range_sub; [exact HR5|simpl; lia..].
Qed.

Lemma find_node_returns p : returns (FindNode fdt m p) int_offset.
Proof.
  unfold FindNode. step by (path_offset_returns m fdt L HL HR p) as o Ho. by destruct (_ <? _).
Qed.

Lemma find_compatible_returns c : returns (FindCompatibleNode fdt m c) int_offset.
Proof.
  unfold FindCompatibleNode.
  step by (by_compatible_returns m fdt L HL HR HR1 (-1) c) as o Ho.
  destruct (Z.ltb_spec o 0); [done|]. destruct Ho as [?|[_ ?]]; [lia|].
  by apply (tag_offset_int m fdt L HL).
Qed.

Lemma enabled_loop_returns c fuel : forall o,
  o < 2 ^ 31 -> more L fuel o -> returns (enabled_loop fdt m fuel o c) int_offset.
Proof.
  induction fuel as [|f IH]; intros o Ho Hm; [by destruct Hm; lia|]. cbn [enabled_loop].
  step by (by_compatible_returns m fdt L HL HR HR1 o c) as r Hr.
  destruct (Z.ltb_spec r 0); [done|]. destruct Hr as [?|[? Hr]]; [lia|].
  pose proof (tag_offset_int m fdt L HL _ Hr).
  step by (get_property_returns m fdt L HL HR r (lit "status"%string)) as [p len] Hp.
  destruct (Z.eqb_spec p nullptr); [done|].
  destruct Hp as [[? ?]|(? & ? & ? & ?)]; [done|].
  assert (within fdt L (data p) 0) by (unfold within, data; lia).
  step by (streq_returns (data p) (lit "okay"%string)) as b1 _. destruct b1; [done|].
  step by (streq_returns (data p) (lit "ok"%string)) as b2 _; [simpl; lia|]. destruct b2; [done|].
  apply IH; [done|by eapply more_step].
Qed.

Lemma reg_loop_returns fuel p len : forall o base size,
  within fdt L p len -> 0 <= o -> len - o < Z.of_nat fuel -> (0 < fuel)%nat ->
  returns (reg_loop m fuel p len o base size) (fun _ => True).
Proof.
  induction fuel as [|f IH]; intros o base size Hw Ho Hf H0; [lia|]. cbn [reg_loop].
  destruct (Z.leb_spec (o + 16) len); [|done]. destruct Hw as (? & ? & ?).
  step by (fdt64_ld_range m (lo_bytes _ _ _ HL) _ _ (p + o) HR) as b _.
  step by (fdt64_ld_range m (lo_bytes _ _ _ HL) _ _ (p + o + 8) HR) as s _.
  apply IH; [by split_and!|lia..].
Qed.

Lemma get_reg_returns o : o < 2 ^ 31 -> returns (GetRegProperty fdt m o) (fun _ => True).
Proof.
  intros Ho. unfold GetRegProperty.
  step by (get_property_returns m fdt L HL HR o (lit "reg"%string)) as [p len] Hp.
  destruct (Z.eqb_spec p nullptr); [done|]. destruct Hp as [[? ?]|(? & Hw)]; [done|].
  step by (reg_loop_returns (S (Z.to_nat len)) (data p) len 0 0 0) as r _. done.
Qed.

Lemma count_loop_returns s fuel : forall o c,
  (List.length s <= 4)%nat -> o < 2 ^ 31 -> more L fuel o ->
  returns (count_loop fdt m fuel o c s) (fun _ => True).
Proof.
  induction fuel as [|f IH]; intros o c Hs Ho Hm; [by destruct Hm; lia|]. cbn [count_loop].
  step by (next_node_returns m fdt L HL HR o None) as [r d] Hr.
  destruct (Z.ltb_spec r 0); [by destruct (negb _)|]. destruct Hr as [?|[? Hr]]; [lia|].
  pose proof (tag_offset_int m fdt L HL _ Hr). pose proof (more_step _ _ _ _ Hm ltac:(done) Hr).
  step by (get_property_returns m fdt L HL HR r (lit "device_type"%string)) as [p len] Hp.
  destruct (Z.eqb_spec p nullptr); [by apply IH|].
  destruct Hp as [[? ?]|(? & ? & ? & ?)]; [done|].
  step by (streq_returns (data p) s) as b _; [unfold within, data; lia|]. by apply IH.
Qed.

Lemma validate_id_returns o name e :
  o < 2 ^ 31 -> returns (validate_id fdt m o name e) (fun _ => True).
Proof.
  intros Ho. unfold validate_id.
  step by (get_property_returns m fdt L HL HR o name) as [p len] Hp.
  destruct (_ && _) eqn:E; [|done]. bool_cases.
  destruct Hp as [[? ?]|(? & ? & ? & ?)]; [done|].
  pose proof (lo_total_max _ _ _ HL). pose proof (lo_fdt _ _ _ HL). rewrite u64_small in * by lia.
  step by (fdt32_ld_range m (lo_bytes _ _ _ HL) _ _ (data p) HR) as id _.
  { unfold data. lia. }
  by destruct (negb _).
Qed.

Lemma get_prop_then {A} o name (k : Z -> Z -> run A) :
  o < 2 ^ 31 ->
  (forall p len, (p = nullptr /\ len < 0) \/ (0 < p /\ within fdt L (p + 12) len) ->
     returns (k p len) (fun _ => True)) ->
  returns (let+ '(p, len) := fdt_get_property m fdt o name in k p len) (fun _ => True).
Proof.
  intros Ho Hk. step by (get_property_returns m fdt L HL HR o name) as [p len] Hp. by apply Hk.
Qed.

(** A word of the property data, read behind a length test. *)
Lemma word_returns p len i :
  0 < p /\ within fdt L (p + 12) len -> 0 <= i -> i + 4 <= len ->
  returns (LoadBeU32 m (data p + i)) (fun _ => True).
Proof.
  intros (? & ? & ? & ?) ? ?. unfold data.
  eapply returns_mono; [apply (fdt32_ld_range m (lo_bytes _ _ _ HL) _ _ _ HR); lia|done].
Qed.

Lemma dword_returns p len i :
  0 < p /\ within fdt L (p + 12) len -> 0 <= i -> i + 8 <= len ->
  returns (LoadBeU64 m (data p + i)) (fun _ => True).
Proof.
  intros (? & ? & ? & ?) ? ?. unfold data.
  eapply returns_mono; [apply (fdt64_ld_range m (lo_bytes _ _ _ HL) _ _ _ HR); lia|done].
Qed.

Lemma pair_returns p len i :
  (p = nullptr /\ len < 0) \/ (0 < p /\ within fdt L (p + 12) len) -> p <> nullptr -> 0 <= i ->
  returns (if i + 16 <=? len then
             let+ b := LoadBeU64 m (data p + i) in let+ s := LoadBeU64 m (data p + i + 8) in Done (b, s)
           else Done (0, 0)) (fun _ => True).
Proof.
  intros [[? ?]|Hp] Hn Hi; [done|]. destruct (Z.leb_spec (i + 16) len); [|done].
  step by (dword_returns p len i) as b _.
  rewrite <- Z.add_assoc. step by (dword_returns p len (i + 8)) as s _. done.
Qed.

Lemma gic_body_returns : returns (gic_body fdt m) (fun _ => True).
Proof.
  eapply and_then_returns with (P := fun o => o < 2 ^ 31); [apply find_compatible_returns|].
  intros o Ho. apply get_prop_then; [done|]. intros p len Hp.
  destruct (Z.eqb_spec p nullptr); [done|].
  pose proof (pair_returns p len 0 Hp ltac:(done) ltac:(done)) as H0.
  rewrite Z.add_0_r in H0.
  eapply returns_bind; [exact H0|]. intros [db ds] _.
  pose proof (pair_returns p len 16 Hp ltac:(done) ltac:(done)) as H1.
  rewrite <- Z.add_assoc in H1.
  eapply returns_bind; [exact H1|]. intros [rb rs] _. done.
Qed.

Lemma serial_path_returns p len :
  0 < p /\ within fdt L (p + 12) len -> returns (stdout_path m (data p) len) (fun _ => True).
Proof.
  intros (? & ? & ? & ?). unfold stdout_path, data.
  step by (read_bytes_range m fdt L HL _ (p + 12)) as l _; [|done].
  eapply range_sub; [exact HR|lia|]. destruct (Z.leb_spec 256 len); lia.
Qed.

Lemma get_alias_returns name :
  returns (fdt_get_alias m fdt name) (fun p => p = nullptr \/
    (exists q, p <= q < fdt + L.(total) /\ fdt <= p /\ m !! q = Some 0 /\ m !! p = Some 47)).
Proof.
  unfold fdt_get_alias, fdt_get_alias_namelen, fdt_path_getprop_namelen.
  eapply returns_bind with (P := fun '(a, l) => data_result fdt L a l).
  { step by (path_offset_returns m fdt L HL HR (lit "/aliases"%string)) as o Ho.
    destruct (_ <? 0); [by left|]. by apply (getprop_returns m fdt L HL HR). }
  intros [a l] Ha. pose proof (alias_returns m fdt L HL HR a l Ha) as Hg.
  destruct (_ || _); [by left|].
  destruct (load8 m (a + l - 1)) as [last| |]; [|done..]. cbn [run_bind] in Hg |- *.
  destruct (load8 m a) as [first| |]; [|done..]. cbn [run_bind returns] in Hg |- *.
  destruct (_ && _); [right; by apply Hg|by left].
Qed.

Lemma stdout_node_returns path : returns (stdout_node fdt m path) (fun o => o < 2 ^ 31).
Proof.
  unfold stdout_node. pose proof (path_offset_returns m fdt L HL HR) as Hp.
  repeat case_match; try apply Hp.
  step by (get_alias_returns l) as a Ha. destruct (Z.eqb_spec a nullptr); [done|].
  destruct Ha as [?|(q & ? & ? & ? & ?)]; [done|].
  step by (read_string_slash m fdt L HL HR a q) as t _. apply Hp.
Qed.

Lemma psci_ids_returns o : o < 2 ^ 31 -> returns (ValidatePsciFunctionIds fdt m o) (fun _ => True).
Proof.
  intros Ho. assert (forall n e, returns (validate_id fdt m o n e)
    (fun x => match x with inl a => True | inr _ => True end)) as Hv.
  { intros. eapply returns_mono; [by apply validate_id_returns|]. by intros [|]. }
  unfold ValidatePsciFunctionIds.
  eapply and_then_returns with (P := fun _ => True); [|intros; by apply validate_id_returns].
  eapply returns_mono; [eapply and_then_returns; [apply Hv|intros; by apply validate_id_returns]|].
  by intros [|].
Qed.

Lemma psci_returns q : fdt + L.(total) <= q -> m !! q = Some 0 -> range m fdt (q + 1) -> exists r, CheckPSCI fdt m = Ret m r.
Proof.
  intros Hq Hz Hrq.
  apply query_returns; [exact fdt_nonnull|].
  eapply and_then_returns; [apply find_node_returns|]. cbv beta. intros o Ho.
  eapply and_then_returns with (P := fun p => within fdt L p 0).
  { unfold GetPsciMethod. step by (get_property_returns m fdt L HL HR o (lit "method"%string)) as [p len] Hp.
    destruct (Z.eqb_spec p nullptr); [done|]. destruct Hp as [[? ?]|(? & ? & ? & ?)]; [done|].
    simpl. unfold within, data. lia. }
  intros p Hp. step by (strlen_range m (lo_bytes _ _ _ HL) p q) as n _.
  { eapply range_sub; [exact Hrq|destruct Hp; lia|lia]. } { destruct Hp as (? & ? & ?). lia. }
  step by (streq_returns p (lit "smc"%string)) as b _; [simpl; lia|].
  destruct b; [by apply psci_ids_returns|done].
Qed.

Lemma serial_returns : exists r, GetSerial fdt m = Ret m r.
Proof.
  apply query_returns; [exact fdt_nonnull|].
  eapply and_then_returns; [apply find_node_returns|]. cbv beta. intros o Ho.
  apply get_prop_then; [done|]. intros p len Hp. destruct (_ || _) eqn:E; [done|]. bool_cases.
  destruct Hp as [[? ?]|Hp]; [done|].
  step by (serial_path_returns p len Hp) as path _.
  step by (stdout_node_returns path) as so Hso. destruct (_ <? 0); [done|].
  eapply and_then_returns with (P := fun _ => True).
  { eapply returns_mono; [by apply get_reg_returns|]. by intros [|]. }
  intros [base size] _. apply get_prop_then; [done|]. intros p2 len2 Hp2.
  destruct (Z.eqb_spec p2 nullptr); [done|]. destruct Hp2 as [[? ?]|Hp2]; [done|].
  eapply returns_bind with (P := fun _ => True); [|done].
  destruct (Z.leb_spec 4 len2); [|done]. rewrite <- (Z.add_0_r (data p2)). by eapply word_returns.
Qed.

Lemma timebase_returns : exists r, GetTimebaseFrequency fdt m = Ret m r.
Proof.
  apply query_returns; [exact fdt_nonnull|].
  eapply and_then_returns; [apply find_node_returns|]. cbv beta. intros o Ho.
  step by (getprop_returns m fdt L HL HR o (lit "timebase-frequency"%string)) as [p len] Hp.
  destruct (Z.eqb_spec p nullptr); [done|]. destruct Hp as [[? ?]|(? & ? & ? & ?)]; [done|].
  destruct (Z.eqb_spec len 4); [|done]. cbn [negb].
  step by (fdt32_ld_range m (lo_bytes _ _ _ HL) _ _ p HR) as v _. done.
Qed.

Lemma intid_returns c : exists r, GetAarch64Intid fdt c m = Ret m r.
Proof.
  apply query_returns; [exact fdt_nonnull|].
  eapply and_then_returns;
    [apply enabled_loop_returns; [done|apply (more_start m fdt L HL HR)]|]. cbv beta. intros o Ho.
  apply get_prop_then; [done|]. intros p len Hp. destruct (Z.eqb_spec p nullptr); [done|].
  destruct Hp as [[? ?]|Hp]; [done|]. cbv zeta.
  eapply returns_bind with (P := fun _ => True); [|done].
  destruct (_ && _) eqn:E; [|done]. bool_cases. eapply word_returns; [done|lia..].
Qed.

Lemma plic_returns : exists r, GetPlic fdt m = Ret m r.
Proof.
  apply query_returns; [exact fdt_nonnull|].
  step by (find_compatible_returns (lit "sifive,plic-1.0.0"%string)) as first Hf.
  eapply and_then_returns with (P := fun o => o < 2 ^ 31).
  { destruct first; [done|apply find_compatible_returns]. }
  intros o Ho. apply get_prop_then; [done|]. intros p len Hp.
  destruct (Z.eqb_spec p nullptr); [done|]. cbv zeta.
  apply get_prop_then; [done|]. intros p2 len2 Hp2.
  destruct (Z.eqb_spec p2 nullptr); [done|]. destruct Hp2 as [[? ?]|Hp2]; [done|].
  destruct (Z.ltb_spec len2 4); [done|].
  eapply returns_bind with (P := fun _ => True).
  { rewrite <- (Z.add_0_r (data p2)). by eapply word_returns. }
  intros ndev _. eapply and_then_returns with (P := fun _ => True).
  { eapply returns_mono; [by apply get_reg_returns|]. by intros [|]. }
  by intros [base size].
Qed.

Lemma core_count_returns : exists r, GetCoreCount fdt m = Ret m r.
Proof.
  apply query_returns; [exact fdt_nonnull|].
  eapply and_then_returns with (P := fun _ => True); [|intros c _; by destruct (_ =? _)].
  eapply returns_mono; [apply count_loop_returns; [simpl; lia|done|]|by intros [|]].
  by apply (more_start m fdt L HL HR).
Qed.

Lemma memory_returns : exists r, GetMemory fdt m = Ret m r.
Proof.
  apply query_returns; [exact fdt_nonnull|].
  eapply and_then_returns; [apply find_node_returns|]. cbv beta. intros o Ho.
  eapply and_then_returns with (P := fun _ => True); [|done].
  eapply returns_mono; [by apply get_reg_returns|]. by intros [|].
Qed.

Lemma gic_part_returns (f : Z * Z * Z * Z -> Z * Z) :
  exists r, query fdt (fun m => transform (gic_body fdt m) f) m = Ret m r.
Proof.
  apply query_returns; [exact fdt_nonnull|].
  eapply and_then_returns with (P := fun _ => True); [|done].
  eapply returns_mono; [apply gic_body_returns|]. by intros [|].
Qed.

End queries.

(** C6: Safety of the queries: on every blob that passes the header check, whatever
    bytes it holds, the constructor and every query of [KernelFdt] return a
    value or an error code (no assertion fails, no loop runs on, no read is
    wild) as long as five bytes behind the blob are readable.  [CheckPSCI], which
    logs the method as a string without looking at the length of the property,
    needs more: memory readable up to a zero byte behind the blob. *)
Theorem kernel_fdt_queries_return m fdt compatible :
  accepted 5 m fdt ->
  KernelFdt_ctor fdt m = Ret m tt /\
  (exists r, GetCoreCount fdt m = Ret m r) /\ 
  (forall total q, fdt_totalsize m fdt = Done total -> fdt + total <= q -> m !! q = Some 0 -> range m fdt (q + 1) ->
     exists r, CheckPSCI fdt m = Ret m r) /\
  (exists r, GetMemory fdt m = Ret m r) /\ (exists r, GetSerial fdt m = Ret m r) /\
  (exists r, GetTimebaseFrequency fdt m = Ret m r) /\ (exists r, GetGIC fdt m = Ret m r) /\
  (exists r, GetGicDist fdt m = Ret m r) /\ (exists r, GetGicCpu fdt m = Ret m r) /\
  (exists r, GetAarch64Intid fdt compatible m = Ret m r) /\ (exists r, GetPlic fdt m = Ret m r).
Proof.
  intros Hacc. pose proof Hacc as (Hf & _ & Hc & _).
  apply accepted_layout in Hacc as (L & HL & HR5).
  split_and!.
  { unfold KernelFdt_ctor, query, reading, ValidateFdtHeader. simpl.
    destruct (Z.eqb_spec fdt nullptr); [unfold nullptr in *; lia|]. simpl. rewrite Hc. simpl.
    by rewrite (lo_total _ _ _ HL). }
  - by eapply core_count_returns.
  - intros total q Ht. pose proof (lo_total _ _ _ HL) as Et. rewrite Ht in Et. injection Et as ->. by eapply psci_returns.
  - by eapply memory_returns.
  - by eapply serial_returns.
  - by eapply timebase_returns.
  - apply query_returns; [lia|]. by eapply gic_body_returns.
  - by eapply gic_part_returns.
  - by eapply gic_part_returns.
  - by eapply intid_returns.
  - by eapply plic_returns.
Qed.

End KernelFdtSafe.
