(* ===== verification/FdtSpec.v ===== *)
(** * The structure block as a sequence of tokens

    An abstract description of the structure block, its encoding as the device
    tree format prescribes it, and what [fdt_next_tag] reads from it. *)

From stdpp Require Import base numbers list gmap.
From Stdlib Require Import ZArith Lia Ascii String.
From S2P Require Import Prelude CMem CString Libfdt LibfdtRo LibfdtSafe LibfdtRoSafe.
Import CString Libfdt LibfdtRo LibfdtSafe LibfdtRoSafe.

Local Open Scope Z_scope.

Module FdtSpec.

(** ** Tokens and their encoding *)

Inductive token :=
| TBegin (name : list Z)                  (* a node opens *)
| TEnd                                    (* a node closes *)
| TProp (nameoff : Z) (value : list Z)    (* a property; its name by offset *)
| TNop
| TStop.                                  (* the end of the block *)

Definition be32 (v : Z) : list Z :=
  [v / 2 ^ 24 mod 256; v / 2 ^ 16 mod 256; v / 2 ^ 8 mod 256; v mod 256].

(** Zero bytes up to a multiple of four. *)
Definition pad4 (l : list Z) : list Z :=
  l ++ replicate (Z.to_nat ((- Z.of_nat (List.length l)) mod 4)) 0.

Definition enc (t : token) : list Z :=
  match t with
  | TBegin name => be32 FDT_BEGIN_NODE ++ pad4 (name ++ [0])
  | TEnd => be32 FDT_END_NODE
  | TProp nameoff value =>
      be32 FDT_PROP ++ be32 (Z.of_nat (List.length value)) ++ be32 nameoff ++ pad4 value
  | TNop => be32 FDT_NOP
  | TStop => be32 FDT_END
  end.

Definition encs (ts : list token) : list Z := List.concat (enc <$> ts).

Definition tag_of (t : token) : Z :=
  match t with
  | TBegin _ => FDT_BEGIN_NODE
  | TEnd => FDT_END_NODE
  | TProp _ _ => FDT_PROP
  | TNop => FDT_NOP
  | TStop => FDT_END
  end.

Definition token_ok (t : token) : Prop :=
  match t with
  | TBegin name => Forall (fun b => 0 < b < 256) name
  | TProp nameoff value => 0 <= nameoff < 2 ^ 31 /\ Forall (fun b => 0 <= b < 256) value
  | _ => True
  end.

(** The offset of the token behind [ts]. *)
Definition pos (ts : list token) : Z := Z.of_nat (List.length (encs ts)).

Lemma encs_app ts us : encs (ts ++ us) = encs ts ++ encs us.
Proof. unfold encs. by rewrite fmap_app, concat_app. Qed.

Lemma encs_cons t ts : encs (t :: ts) = enc t ++ encs ts.
Proof. done. Qed.

Lemma pos_app ts us : pos (ts ++ us) = pos ts + pos us.
Proof. unfold pos. rewrite encs_app, length_app. lia. Qed.

Lemma pos_cons t ts : pos (t :: ts) = Z.of_nat (List.length (enc t)) + pos ts.
Proof. unfold pos. rewrite encs_cons, length_app. lia. Qed.

Lemma pos_snoc ts t : pos (ts ++ [t]) = pos ts + Z.of_nat (List.length (enc t)).
Proof. rewrite pos_app, pos_cons. unfold pos at 2. simpl. lia. Qed.

Lemma pad4_length l :
  Z.of_nat (List.length (pad4 l)) mod 4 = 0 /\
  Z.of_nat (List.length l) <= Z.of_nat (List.length (pad4 l)) <= Z.of_nat (List.length l) + 3.
Proof.
  unfold pad4. rewrite length_app, length_replicate.
  pose proof (Z.mod_pos_bound (- Z.of_nat (List.length l)) 4 ltac:(lia)) as Hb.
  rewrite Nat2Z.inj_add, Z2Nat.id by lia. split; [|lia].
  rewrite Zplus_mod_idemp_r. by rewrite Z.add_opp_diag_r.
Qed.

(** An encoded token is at least four bytes, a multiple of four. *)
Lemma enc_length t :
  Z.of_nat (List.length (enc t)) mod 4 = 0 /\ 4 <= Z.of_nat (List.length (enc t)).
Proof.
  assert (forall k l, (k + Z.of_nat (List.length (pad4 l))) mod 4 = k mod 4) as Hp.
  { intros k l. rewrite <- Zplus_mod_idemp_r, (proj1 (pad4_length l)). by rewrite Z.add_0_r. }
  destruct t; cbn [enc]; rewrite ?length_app, ?Nat2Z.inj_add; cbn [List.length be32 Z.of_nat Pos.of_succ_nat Pos.succ];
    rewrite ?Z.add_assoc, ?Hp; split; try done; lia.
Qed.

Lemma pos_mod4 ts : pos ts mod 4 = 0.
Proof.
  induction ts as [|t ts IH]; [done|].
  rewrite pos_cons, Z.add_mod, IH, (proj1 (enc_length t)) by lia. done.
Qed.

Lemma pos_nonneg ts : 0 <= pos ts.
Proof. unfold pos. lia. Qed.

Lemma load_be32 m p v : bytes_at m p (be32 v) -> 0 <= v < 2 ^ 32 -> fdt32_ld m p = Done v.
Proof.
  intros H Hv. unfold be32 in H. rewrite !bytes_at_cons in H.
  destruct H as (H0 & H1 & H2 & H3 & _). replace (p + 1 + 1 + 1) with (p + 3) in H3 by lia.
  replace (p + 1 + 1) with (p + 2) in H2 by lia.
  unfold fdt32_ld. rewrite (load8_Done _ _ _ H0), (load8_Done _ _ _ H1), (load8_Done _ _ _ H2),
    (load8_Done _ _ _ H3). cbn [run_bind]. f_equal.
  assert (v / 2 ^ 24 < 256) by (apply Z.div_lt_upper_bound; lia).
  assert (0 <= v / 2 ^ 24) by (apply Z.div_pos; lia).
  rewrite (Z.mod_small (v / 2 ^ 24)) by lia.
  pose proof (Z.div_mod v 256 ltac:(lia)). pose proof (Z.div_mod (v / 2 ^ 8) 256 ltac:(lia)).
  pose proof (Z.div_mod (v / 2 ^ 16) 256 ltac:(lia)).
  replace (v / 2 ^ 24) with (v / 2 ^ 16 / 256) by (rewrite Z.div_div by lia; done).
  replace (v / 2 ^ 16) with (v / 2 ^ 8 / 256) in * by (rewrite Z.div_div by lia; done).
  change 256 with (2 ^ 8) in *. lia.
Qed.

(** ** Reading an encoded block *)

Section block.
Context (m : mem) (fdt : Z) (L : Layout).
Hypothesis HL : laid_out m fdt L.
Hypothesis HR : range m fdt (fdt + L.(total)).
Hypothesis Hver : 16 <= L.(version).

Context (ts : list token).
Hypothesis Hblock : bytes_at m (fdt + L.(off)) (encs ts).
Hypothesis Hroom : L.(off) + pos ts <= L.(total).
Hypothesis Hroom17 : 17 <= L.(version) -> pos ts <= L.(struct_size).
Hypothesis Hok : Forall token_ok ts.

Lemma offset_ptr_in o n :
  0 <= o -> 0 <= n -> o + n <= pos ts -> fdt_offset_ptr m fdt o n = Done (fdt + L.(off) + o).
Proof.
  intros ? ? ?. unfold fdt_offset_ptr. rewrite (lo_off _ _ _ HL). cbn [run_bind].
  pose proof (lo_off_in _ _ _ HL). pose proof (lo_total_max _ _ _ HL).
  destruct (Z.ltb_spec o 0); [lia|].
  rewrite (lo_total _ _ _ HL). cbn [run_bind].
  rewrite !u32_small by lia.
  replace (_ || _ || _) with false
    by (symmetry; rewrite !orb_false_iff, !Z.ltb_ge; lia).
  rewrite (lo_version _ _ _ HL). cbn [run_bind].
  unfold fdt_offset_ptr_. rewrite (lo_off _ _ _ HL). cbn [run_bind].
  destruct (Z.leb_spec 17 L.(version)); [|done].
  rewrite (lo_struct _ _ _ HL) by done. cbn [run_bind].
  specialize (Hroom17 ltac:(done)).
  by replace (_ || _) with false by (symmetry; rewrite !orb_false_iff, !Z.ltb_ge; lia).
Qed.

(** The bytes of the token behind [pre]. *)
Lemma token_at pre t post :
  ts = pre ++ t :: post -> bytes_at m (fdt + L.(off) + pos pre) (enc t).
Proof.
  intros ->. rewrite encs_app, encs_cons in Hblock.
  apply bytes_at_app in Hblock as [_ H]. by apply bytes_at_app in H as [H _].
Qed.

Lemma token_room pre t post :
  ts = pre ++ t :: post -> pos (pre ++ [t]) <= pos ts.
Proof. intros ->. rewrite !pos_app, !pos_cons. pose proof (pos_nonneg post). unfold pos at 2. simpl. lia. Qed.

Lemma skip_name_in s : forall fuel o,
  cstr_at m (fdt + L.(off) + o) s -> 0 <= o -> o + Z.of_nat (List.length s) + 1 <= pos ts ->
  (List.length s < fuel)%nat ->
  skip_name m fdt fuel o =
    Done (fdt + L.(off) + o + Z.of_nat (List.length s), o + Z.of_nat (List.length s) + 1).
Proof.
  pose proof (lo_fdt _ _ _ HL). pose proof (lo_off_in _ _ _ HL).
  induction s as [|b s IH]; intros [|fuel] o Hs Ho Hin Hf; cbn [List.length] in *; try lia;
    cbn [skip_name]; rewrite offset_ptr_in by lia; cbn [run_bind];
    (destruct (Z.eqb_spec (fdt + L.(off) + o) nullptr); [unfold nullptr in *; lia|]).
  - apply cstr_at_nil in Hs. rewrite (load8_Done _ _ _ Hs). cbn [run_bind Z.eqb].
    f_equal. f_equal; lia.
  - apply cstr_at_cons in Hs as (Hb & ? & Hs). rewrite (load8_Done _ _ _ Hb). cbn [run_bind].
    destruct (Z.eqb_spec b 0); [lia|].
    rewrite IH; [f_equal; f_equal; lia| |lia..].
    by replace (fdt + L.(off) + (o + 1)) with (fdt + L.(off) + o + 1) by lia.
Qed.

(** The end of an element of [n] bytes before its padding. *)
Lemma tagalign_pos pre n k :
  0 <= n -> n <= k <= n + 3 -> k mod 4 = 0 -> pos pre + k <= pos ts ->
  FDT_TAGALIGN (pos pre + n) = pos pre + k.
Proof.
  intros ? ? Hk ?. pose proof (pos_mod4 pre) as Hp. pose proof (pos_nonneg pre).
  pose proof (lo_off_in _ _ _ HL). pose proof (lo_total_max _ _ _ HL).
  destruct (tagalign_spec (pos pre + n)) as [? Ha]; [lia|].
  apply Z.mod_divide in Hk, Hp, Ha; [|lia..]. destruct Hk, Hp, Ha. lia.
Qed.

Lemma finish_in pre tag n k :
  0 <= n -> n <= k <= n + 3 -> k mod 4 = 0 -> pos pre + k <= pos ts ->
  (let+ p := fdt_offset_ptr m fdt (pos pre) (u32 (pos pre + n - pos pre)) in
   if p =? nullptr then Done (FDT_END, - FDT_ERR_BADSTRUCTURE)
   else Done (tag, FDT_TAGALIGN (pos pre + n))) = Done (tag, pos pre + k).
Proof.
  intros ? ? ? ?. pose proof (pos_nonneg pre). pose proof (lo_fdt _ _ _ HL).
  pose proof (lo_off_in _ _ _ HL). pose proof (lo_total_max _ _ _ HL).
  rewrite u32_small, offset_ptr_in by lia. cbn [run_bind].
  destruct (Z.eqb_spec (fdt + L.(off) + pos pre) nullptr); [unfold nullptr in *; lia|].
  by rewrite (tagalign_pos pre n k).
Qed.

Lemma value_length pre o v post :
  ts = pre ++ TProp o v :: post -> Z.of_nat (List.length v) < 2 ^ 31 - 1.
Proof.
  intros E. pose proof (token_room _ _ _ E) as Hr. rewrite pos_snoc in Hr. cbn [enc] in Hr.
  rewrite !length_app in Hr. pose proof (proj2 (pad4_length v)). pose proof (pos_nonneg pre).
  pose proof (lo_off_in _ _ _ HL). pose proof (lo_total_max _ _ _ HL).
  simpl in Hr. lia.
Qed.

(** The first step of [fdt_next_tag]. *)
Lemma tag_word pre t post :
  ts = pre ++ t :: post ->
  fdt_offset_ptr m fdt (pos pre) FDT_TAGSIZE = Done (fdt + L.(off) + pos pre) /\
  fdt + L.(off) + pos pre =? nullptr = false /\
  fdt32_ld m (fdt + L.(off) + pos pre) = Done (tag_of t).
Proof.
  intros E. pose proof (token_at _ _ _ E) as Hb. pose proof (token_room _ _ _ E) as Hr.
  rewrite pos_snoc in Hr. pose proof (enc_length t) as [_ H4]. pose proof (pos_nonneg pre).
  pose proof (lo_fdt _ _ _ HL). pose proof (lo_off_in _ _ _ HL). change FDT_TAGSIZE with 4.
  rewrite offset_ptr_in by lia. split; [done|]. split; [apply Z.eqb_neq; unfold nullptr; lia|].
  apply load_be32; [|by destruct t].
  destruct t; try exact Hb; cbn [enc] in Hb; by apply bytes_at_app in Hb as [? _].
Qed.

Lemma next_tag_begin pre name post :
  ts = pre ++ TBegin name :: post -> Forall (fun b => 0 < b < 256) name ->
  fdt_next_tag m fdt (pos pre) = Done (FDT_BEGIN_NODE, pos (pre ++ [TBegin name])).
Proof.
  intros E Hn. pose proof (token_at _ _ _ E) as Hb. pose proof (token_room _ _ _ E) as Hr.
  destruct (tag_word _ _ _ E) as (Hp & H0 & Hw).
  unfold fdt_next_tag. rewrite Hp. cbn [run_bind]. rewrite H0, Hw. cbn [run_bind tag_of]. cbv zeta.
  change (FDT_BEGIN_NODE =? FDT_BEGIN_NODE) with true. cbv iota.
  rewrite pos_snoc in Hr |- *. cbn [enc] in Hb, Hr |- *. apply bytes_at_app in Hb as [_ Hb].
  unfold pad4 in Hb. apply bytes_at_app in Hb as [Hb _].
  rewrite length_app in Hr |- *. cbn [List.length be32] in *.
  pose proof (pad4_length (name ++ [0])) as [Hpm Hpl]. rewrite length_app in Hpl.
  cbn [List.length] in Hpl. pose proof (pos_nonneg pre).
  pose proof (lo_fdt _ _ _ HL). pose proof (lo_off_in _ _ _ HL). change FDT_TAGSIZE with 4.
  rewrite (skip_name_in name); [|split; [|done]|lia|lia|].
  - cbn [run_bind].
    destruct (Z.eqb_spec (fdt + L.(off) + (pos pre + 4) + Z.of_nat (List.length name)) nullptr);
      [unfold nullptr in *; lia|].
    replace (pos pre + 4 + Z.of_nat (List.length name) + 1)
      with (pos pre + (4 + Z.of_nat (List.length name) + 1)) by lia.
    rewrite (finish_in pre _ _ (4 + Z.of_nat (List.length (pad4 (name ++ [0])))));
      [f_equal; f_equal; lia|lia|lia|by rewrite <- Zplus_mod_idemp_r, Hpm|lia].
  - by replace (fdt + L.(off) + (pos pre + 4)) with (fdt + L.(off) + pos pre + Z.of_nat 4) by lia.
  - apply bytes_at_mapped, scan_bound in Hb. rewrite length_app in Hb. lia.
Qed.

(** The words of a property and its value in memory. *)
Lemma prop_words pre o v post :
  ts = pre ++ TProp o v :: post -> 0 <= o < 2 ^ 31 ->
  fdt32_ld m (fdt + L.(off) + pos pre + 4) = Done (Z.of_nat (List.length v)) /\
  fdt32_ld m (fdt + L.(off) + pos pre + 8) = Done o /\
  bytes_at m (fdt + L.(off) + pos pre + 12) v.
Proof.
  intros E Ho. pose proof (token_at _ _ _ E) as Hb. pose proof (value_length _ _ _ _ E).
  cbn [enc] in Hb. apply bytes_at_app in Hb as [_ Hb]. apply bytes_at_app in Hb as [H4 Hb].
  apply bytes_at_app in Hb as [H8 Hb]. unfold pad4 in Hb. apply bytes_at_app in Hb as [Hv _].
  cbn [List.length be32 Z.of_nat Pos.of_succ_nat Pos.succ] in *.
  rewrite <- !Z.add_assoc in *. split_and!; [by apply load_be32; [|lia]..|done].
Qed.

Lemma next_tag_prop pre o v post :
  ts = pre ++ TProp o v :: post -> 0 <= o < 2 ^ 31 ->
  fdt_next_tag m fdt (pos pre) = Done (FDT_PROP, pos (pre ++ [TProp o v])).
Proof.
  intros E Ho. pose proof (token_room _ _ _ E) as Hr.
  destruct (tag_word _ _ _ E) as (Hp & H0 & Hw). destruct (prop_words _ _ _ _ E Ho) as (Hlen & _ & _).
  pose proof (value_length _ _ _ _ E).
  unfold fdt_next_tag. rewrite Hp. cbn [run_bind]. rewrite H0, Hw. cbn [run_bind tag_of]. cbv zeta.
  change (FDT_PROP =? FDT_BEGIN_NODE) with false. change (FDT_PROP =? FDT_PROP) with true. cbv iota.
  rewrite pos_snoc in Hr |- *. cbn [enc] in Hr |- *.
  rewrite !length_app in Hr |- *. cbn [List.length be32] in *.
  pose proof (pad4_length v) as [Hpm Hpl]. pose proof (pos_nonneg pre).
  pose proof (lo_fdt _ _ _ HL). pose proof (lo_off_in _ _ _ HL). pose proof (lo_total_max _ _ _ HL).
  change FDT_TAGSIZE with 4. rewrite offset_ptr_in by lia. cbn [run_bind].
  destruct (Z.eqb_spec (fdt + L.(off) + (pos pre + 4)) nullptr); [unfold nullptr in *; lia|].
  rewrite Z.add_assoc, Hlen. cbn [run_bind].
  rewrite (u32_small (Z.of_nat _ + _)), (u32_small (pos pre + 4)) by lia.
  replace (_ || _) with false
    by (symmetry; rewrite orb_false_iff, Z.leb_gt, Z.ltb_ge; unfold INT_MAX; lia).
  rewrite (lo_version _ _ _ HL). cbn [run_bind].
  destruct (Z.ltb_spec L.(version) 16); [lia|]. cbn [andb].
  rewrite s32_small by lia.
  replace (pos pre + 4 + 12 - 4 + Z.of_nat (List.length v))
    with (pos pre + (12 + Z.of_nat (List.length v))) by lia.
  rewrite (finish_in pre _ _ (12 + Z.of_nat (List.length (pad4 v))));
    [f_equal; f_equal; lia|lia|lia|by rewrite <- Zplus_mod_idemp_r, Hpm|lia].
Qed.

(** Each token is read back with its tag, and leads to the next one. *)
Lemma next_tag_in pre t post :
  ts = pre ++ t :: post ->
  fdt_next_tag m fdt (pos pre) = Done (tag_of t, pos (pre ++ [t])).
Proof.
  intros E.
  assert (token_ok t) as Ht by (rewrite E in Hok; apply Forall_app in Hok as [_ Hok']; by inv Hok').
  destruct t as [name| |o v| |]; cbn [tag_of];
    [by eapply next_tag_begin| |by eapply next_tag_prop; [|apply Ht]|..].
  all: destruct (tag_word _ _ _ E) as (Hp & H0 & Hw); pose proof (token_room _ _ _ E) as Hr;
    unfold fdt_next_tag; rewrite Hp; cbn [run_bind]; rewrite H0, Hw; cbn [run_bind tag_of];
    rewrite pos_snoc in Hr |- *; apply (finish_in pre _ 4); [lia|simpl; lia|done|done].
Qed.

End block.

End FdtSpec.
