(* ===== verification/FdtNodes.v ===== *)
(** * Nodes and properties of an encoded structure block

    What the look-up functions of [LibfdtRo] and the walk of [Libfdt] return on
    a block that encodes the tokens [ts]. *)

From stdpp Require Import base numbers list gmap.
From Stdlib Require Import ZArith Lia Ascii String.
From S2P Require Import Prelude CMem CString Libfdt LibfdtRo LibfdtSafe LibfdtRoSafe FdtSpec.
Import CString Libfdt LibfdtRo LibfdtSafe LibfdtRoSafe FdtSpec.

Local Open Scope Z_scope.

Module FdtNodes.

(** A blob whose structure block encodes [ts] and whose strings block holds
    [names o] at the offset [o] of every property name. *)
Record block (m : mem) (fdt : Z) (L : Layout) (names : Z -> list Z) (ts : list token) : Prop := {
  b_layout : laid_out m fdt L;
  b_range : range m fdt (fdt + L.(total));
  b_total : L.(total) < 2 ^ 31 - 1;
  b_version : 16 <= L.(version);
  b_bytes : bytes_at m (fdt + L.(off)) (encs ts);
  b_room : L.(off) + pos ts <= L.(total);
  b_room17 : 17 <= L.(version) -> pos ts <= L.(struct_size);
  b_ok : Forall token_ok ts;
  b_names : forall o v, TProp o v ∈ ts ->
    cstr_at m (fdt + L.(strings) + o) (names o) /\
    L.(strings) + o + Z.of_nat (List.length (names o)) < L.(strings) + L.(strings_size)
}.

Lemma run_bind_eq {A B} (r : run A) (k : A -> run B) a : r = Done a -> run_bind r k = k a.
Proof. by intros ->. Qed.

(** [bytes_eq] decides equality of texts of the same length. *)
Lemma bytes_eq_same m s : forall p w,
  bytes_at m p w -> List.length s = List.length w ->
  bytes_eq m p s = Done (bool_decide (w = s)).
Proof.
  induction s as [|c s IH]; intros p [|b w] Hw Hl; try done; cbn [bytes_eq].
  apply bytes_at_cons in Hw as [Hb Hw]. rewrite (load8_Done _ _ _ Hb). cbn [run_bind].
  destruct (Z.eqb_spec b c) as [->|Hne].
  - rewrite (IH _ w) by (done || by injection Hl). f_equal. apply bool_decide_ext.
    split; [by intros ->|by intros [= ->]].
  - rewrite bool_decide_eq_false_2; [done|]. by intros [= ->].
Qed.

(** Comparison with a terminated literal decides equality of strings. *)
Lemma bytes_eq_cstr m s : forall p w,
  cstr_at m p w -> Forall (fun b => 0 < b < 256) s ->
  bytes_eq m p (s ++ [0]) = Done (bool_decide (w = s)).
Proof.
  induction s as [|c s IH]; intros p w Hw Hs; cbn [bytes_eq app].
  - destruct w as [|b w].
    + apply cstr_at_nil in Hw. by rewrite (load8_Done _ _ _ Hw).
    + apply cstr_at_cons in Hw as (Hb & ? & _). rewrite (load8_Done _ _ _ Hb). cbn [run_bind].
      destruct (Z.eqb_spec b 0); [lia|done].
  - inv Hs. destruct w as [|b w].
    + apply cstr_at_nil in Hw. rewrite (load8_Done _ _ _ Hw). cbn [run_bind].
      destruct (Z.eqb_spec 0 c); [lia|done].
    + apply cstr_at_cons in Hw as (Hb & ? & Hw). rewrite (load8_Done _ _ _ Hb). cbn [run_bind].
      destruct (Z.eqb_spec b c) as [->|Hne].
      * rewrite (IH _ w) by done. f_equal. apply bool_decide_ext.
        split; [by intros ->|by intros [= ->]].
      * rewrite bool_decide_eq_false_2; [done|]. by intros [= ->].
Qed.

Lemma memchr_cstr m s : forall p k,
  cstr_at m p s -> Z.of_nat (List.length s) < k -> memchr p 0 k m = Done (p + Z.of_nat (List.length s)).
Proof.
  unfold memchr. change (u8 0) with 0. intros p k Hs Hk.
  assert (List.length s < Z.to_nat k)%nat as Hf by lia. clear Hk. revert p Hs Hf.
  generalize (Z.to_nat k) as n. induction s as [|b s IH]; intros [|n] p Hs Hf;
    cbn [List.length memchr_loop] in *; try lia.
  - apply cstr_at_nil in Hs. rewrite (load8_Done _ _ _ Hs). cbn [run_bind Z.eqb]. f_equal. lia.
  - apply cstr_at_cons in Hs as (Hb & ? & Hs). rewrite (load8_Done _ _ _ Hb). cbn [run_bind].
    destruct (Z.eqb_spec b 0); [lia|]. rewrite IH by (done || lia). f_equal. lia.
Qed.

(** The sequence ends with the end tag. *)
Definition stops (rest : list token) : Prop := last rest = Some TStop.

Lemma stops_tail t rest : stops (t :: rest) -> t <> TStop -> stops rest.
Proof. unfold stops. destruct rest; [simpl; congruence|done]. Qed.

Section nodes.
Context (m : mem) (fdt : Z) (L : Layout) (names : Z -> list Z) (ts : list token).
Hypothesis HB : block m fdt L names ts.

Abbreviation HL := (b_layout _ _ _ _ _ HB).

Lemma tag_in pre t post :
  ts = pre ++ t :: post ->
  fdt_next_tag m fdt (pos pre) = Done (tag_of t, pos (pre ++ [t])).
Proof. destruct HB. by apply next_tag_in with (L := L). Qed.

Lemma pos_in pre post : ts = pre ++ post -> 0 <= pos pre <= pos ts.
Proof. intros ->. rewrite pos_app. pose proof (pos_nonneg pre). pose proof (pos_nonneg post). lia. Qed.

Lemma addr_nonnull o : 0 <= o -> (fdt + L.(off) + o =? nullptr) = false.
Proof.
  intros. pose proof (lo_fdt _ _ _ HL). pose proof (lo_off_in _ _ _ HL).
  apply Z.eqb_neq. unfold nullptr. lia.
Qed.

Lemma probe_in : fdt_ro_probe_ m fdt = Done L.(total).
Proof.
  unfold fdt_ro_probe_. rewrite (lo_total _ _ _ HL), (lo_align _ _ _ HL). cbn [run_bind].
  change (negb (0 =? 0)) with false. cbv iota zeta.
  rewrite (lo_magic _ _ _ HL). cbn [run_bind]. rewrite Z.eqb_refl.
  pose proof (lo_versions _ _ _ HL) as [? ?].
  unfold FDT_FIRST_SUPPORTED_VERSION, FDT_LAST_SUPPORTED_VERSION.
  rewrite (lo_version _ _ _ HL). cbn [run_bind]. destruct (Z.ltb_spec L.(version) 2); [lia|].
  rewrite (lo_last _ _ _ HL). cbn [run_bind]. destruct (Z.ltb_spec 17 L.(last_comp)); [lia|].
  destruct (Z.ltb_spec L.(total) (2 ^ 31 - 1)); [done|]. pose proof (b_total _ _ _ _ _ HB). lia.
Qed.

(** The name of a property is found in the strings block. *)
Lemma get_string_in o v :
  TProp o v ∈ ts ->
  fdt_get_string m fdt o = Done (fdt + L.(strings) + o, Z.of_nat (List.length (names o))).
Proof.
  intros Hin. destruct (b_names _ _ _ _ _ HB _ _ Hin) as [[Hs Hn] Hroom].
  assert (0 <= o < 2 ^ 31) as Ho.
  { pose proof (b_ok _ _ _ _ _ HB) as H. rewrite Forall_forall in H. apply (H _ Hin). }
  pose proof (lo_strings_in _ _ _ HL) as (? & ? & ?). pose proof (b_total _ _ _ _ _ HB).
  pose proof (lo_fdt _ _ _ HL).
  unfold fdt_get_string. rewrite probe_in. cbn [run_bind].
  destruct (Z.ltb_spec L.(total) 0); [lia|].
  rewrite (lo_strings _ _ _ HL). cbn [run_bind]. rewrite u32_small by lia.
  destruct (Z.leb_spec L.(total) (o + L.(strings))); [lia|].
  rewrite (lo_magic _ _ _ HL). cbn [run_bind]. rewrite Z.eqb_refl.
  destruct (Z.ltb_spec o 0); [lia|].
  assert (forall k, Z.of_nat (List.length (names o)) < k ->
    (let+ n := memchr (fdt + (o + L.(strings))) 0 k m in
     if n =? nullptr then Done (nullptr, - FDT_ERR_TRUNCATED)
     else Done (fdt + (o + L.(strings)), n - (fdt + (o + L.(strings))))) =
    Done (fdt + L.(strings) + o, Z.of_nat (List.length (names o)))) as Hscan.
  { intros k Hk. replace (fdt + (o + L.(strings))) with (fdt + L.(strings) + o) by lia.
    rewrite (memchr_cstr m (names o)) by done. cbn [run_bind].
    destruct (Z.eqb_spec (fdt + L.(strings) + o + Z.of_nat (List.length (names o))) nullptr);
      [unfold nullptr in *; lia|]. f_equal. f_equal. lia. }
  rewrite (lo_version _ _ _ HL). cbn [run_bind]. destruct (Z.leb_spec 17 L.(version)); [|apply Hscan; lia].
  rewrite (lo_strings_size _ _ _ HL). cbn [run_bind].
  destruct (Z.leb_spec L.(strings_size) o); [lia|].
  destruct (Z.ltb_spec (L.(strings_size) - o) (L.(total) - (o + L.(strings)))); apply Hscan; lia.
Qed.

Lemma string_eq_in o v s :
  TProp o v ∈ ts -> fdt_string_eq_ m fdt o s = Done (bool_decide (names o = s)).
Proof.
  intros Hin. destruct (b_names _ _ _ _ _ HB _ _ Hin) as [[Hs _] _].
  pose proof (lo_fdt _ _ _ HL). pose proof (lo_strings_in _ _ _ HL) as (? & ? & ?).
  assert (0 <= o).
  { pose proof (b_ok _ _ _ _ _ HB) as H'. rewrite Forall_forall in H'. apply (H' _ Hin). }
  unfold fdt_string_eq_. rewrite (get_string_in _ _ Hin). cbn [run_bind].
  destruct (Z.eqb_spec (fdt + L.(strings) + o) nullptr); [unfold nullptr in *; lia|]. cbn [orb].
  destruct (Z.eqb_spec (Z.of_nat (List.length (names o))) (Z.of_nat (List.length s))) as [Hl|Hl]; cbn [negb].
  - apply bytes_eq_same; [|lia]. by apply bytes_at_app in Hs as [? _].
  - rewrite bool_decide_eq_false_2; [done|]. intros E. by rewrite E in Hl.
Qed.

(** ** Properties of a node *)

(** The properties at the head of a token sequence. *)
Fixpoint node_props (rest : list token) : list (Z * list Z) :=
  match rest with
  | TProp o v :: rest' => (o, v) :: node_props rest'
  | TNop :: rest' => node_props rest'
  | _ => []
  end.

(** The value of the first property called [s]. *)
Fixpoint first_prop (s : list Z) (ps : list (Z * list Z)) : option (list Z) :=
  match ps with
  | [] => None
  | (o, v) :: ps' => if bool_decide (names o = s) then Some v else first_prop s ps'
  end.

(** Where the next property stands, and what follows it. *)
Lemma nextprop_in fuel : forall pre rest,
  ts = pre ++ rest -> (List.length rest < fuel)%nat -> stops rest ->
  (exists skip o v post, rest = skip ++ TProp o v :: post /\
     node_props rest = (o, v) :: node_props post /\
     nextprop_loop m fdt fuel (pos pre) = Done (pos (pre ++ skip))) \/
  (node_props rest = [] /\ exists e, nextprop_loop m fdt fuel (pos pre) = Done e /\ e < 0).
Proof.
  induction fuel as [|f IH]; intros pre rest E Hf Hlast; [lia|].
  destruct rest as [|t rest]; [done|].
  cbn [nextprop_loop]. rewrite (tag_in _ _ _ E). cbn [run_bind].
  destruct t as [n| |o v| |]; cbn [tag_of node_props].
  - right. split; [done|]. by exists (- FDT_ERR_NOTFOUND).
  - right. split; [done|]. by exists (- FDT_ERR_NOTFOUND).
  - left. exists [], o, v, rest. by rewrite app_nil_r.
  - destruct (IH (pre ++ [TNop]) rest) as [(skip & o & v & post & -> & Hn & Hl)|(Hn & e & Hl & He)].
    + by rewrite E, <- app_assoc.
    + cbn [List.length] in Hf. lia.
    + by apply (stops_tail TNop).
    + left. exists (TNop :: skip), o, v, post. rewrite <- app_assoc in Hl. by rewrite Hl.
    + right. split; [done|]. by exists e.
  - right. split; [done|]. exists (- FDT_ERR_BADSTRUCTURE). split; [|done].
    change (FDT_END =? FDT_END) with true. cbv iota.
    destruct (Z.leb_spec 0 (pos (pre ++ [TStop]))); [done|]. pose proof (pos_nonneg (pre ++ [TStop])). lia.
Qed.

Lemma check_node_in pre n post :
  ts = pre ++ TBegin n :: post ->
  fdt_check_node_offset_ m fdt (pos pre) = Done (pos (pre ++ [TBegin n])).
Proof.
  intros E. unfold fdt_check_node_offset_. change FDT_TAGSIZE with 4.
  rewrite pos_mod4. pose proof (pos_nonneg pre). destruct (Z.ltb_spec (pos pre) 0); [lia|].
  cbn [orb negb Z.eqb]. by rewrite (tag_in _ _ _ E).
Qed.

Lemma check_prop_in pre o v post :
  ts = pre ++ TProp o v :: post ->
  fdt_check_prop_offset_ m fdt (pos pre) = Done (pos (pre ++ [TProp o v])).
Proof.
  intros E. unfold fdt_check_prop_offset_. change FDT_TAGSIZE with 4.
  rewrite pos_mod4. pose proof (pos_nonneg pre). destruct (Z.ltb_spec (pos pre) 0); [lia|].
  cbn [orb negb Z.eqb]. by rewrite (tag_in _ _ _ E).
Qed.

Lemma tokens_size : (List.length ts < S (size m))%nat.
Proof.
  pose proof (scan_bound m _ _ (bytes_at_mapped _ _ _ (b_bytes _ _ _ _ _ HB))) as H.
  enough (Z.of_nat (List.length ts) <= pos ts) by (unfold pos in *; lia).
  clear. induction ts as [|t l IH]; [done|]. rewrite pos_cons. pose proof (enc_length t).
  cbn [List.length]. lia.
Qed.

Lemma prop_by_offset_in pre o v post :
  ts = pre ++ TProp o v :: post ->
  fdt_get_property_by_offset_ m fdt (pos pre) =
    Done (fdt + L.(off) + pos pre, Z.of_nat (List.length v)) /\
  fdt32_ld m (fdt + L.(off) + pos pre + 8) = Done o /\
  bytes_at m (fdt + L.(off) + pos pre + 12) v.
Proof.
  intros E. destruct HB as [HL' HR' ? ? Hby Hrm Hrm' Hok _].
  assert (0 <= o < 2 ^ 31) as Ho.
  { rewrite E in Hok. apply Forall_app in Hok as [_ Hok]. inv Hok. naive_solver. }
  destruct (prop_words m fdt L HL' ts Hby Hrm Hrm' Hok pre o v post E Ho) as (Hl & Hn & Hv).
  pose proof (value_length m fdt L HL' ts Hby Hrm Hrm' Hok pre o v post E).
  split; [|done]. unfold fdt_get_property_by_offset_. rewrite (check_prop_in _ _ _ _ E). cbn [run_bind].
  destruct (Z.ltb_spec (pos (pre ++ [TProp o v])) 0); [pose proof (pos_nonneg (pre ++ [TProp o v])); lia|].
  unfold fdt_offset_ptr_. rewrite (lo_off _ _ _ HL'). cbn [run_bind]. rewrite Hl. cbn [run_bind].
  by rewrite s32_small by lia.
Qed.

(** The property loop returns the first property of the name. *)
Lemma property_loop_in s fuel : forall pre rest,
  ts = pre ++ rest -> stops rest -> (List.length rest < fuel)%nat ->
  match first_prop s (node_props rest) with
  | Some v => exists pre', 0 <= pos pre' /\
      (let+ o := nextprop_ m fdt (pos pre) in get_property_loop m fdt fuel o s) =
        Done (fdt + L.(off) + pos pre', Z.of_nat (List.length v), pos pre') /\
      bytes_at m (fdt + L.(off) + pos pre' + 12) v /\
      (exists o post, ts = pre' ++ TProp o v :: post /\ names o = s)
  | None => exists e,
      (let+ o := nextprop_ m fdt (pos pre) in get_property_loop m fdt fuel o s) =
        Done (nullptr, e, 0) /\ e < 0
  end.
Proof.
  induction fuel as [|f IH]; intros pre rest E Hst Hf; [lia|].
  destruct (nextprop_in (S (size m)) pre rest E) as [(skip & o & v & post & Er & Hn & Hl)|(Hn & e & Hl & He)].
  { pose proof tokens_size as Ht. rewrite E, length_app in Ht. lia. }
  { done. }
  - rewrite Hn. cbn [first_prop]. unfold nextprop_. rewrite Hl. cbn [run_bind].
    subst rest. rewrite app_assoc in E. set (pre2 := pre ++ skip) in *.
    destruct (prop_by_offset_in _ _ _ _ E) as (Hp & Hno & Hv).
    assert (TProp o v ∈ ts) as Hin by (rewrite E; set_solver).
    assert (0 <= o < 2 ^ 31) as Ho.
    { pose proof (b_ok _ _ _ _ _ HB) as H'. rewrite Forall_forall in H'. apply (H' _ Hin). }
    pose proof (pos_nonneg pre2).
    cbn [get_property_loop]. destruct (Z.ltb_spec (pos pre2) 0); [lia|].
    rewrite Hp. cbn [run_bind]. rewrite addr_nonnull by done. rewrite Hno. cbn [run_bind].
    rewrite s32_small, (string_eq_in o v s Hin) by done. cbn [run_bind].
    case_bool_decide as Hs.
    + exists pre2. split_and!; [done|done|done|]. by exists o, post.
    + unfold fdt_next_property_offset. rewrite (check_prop_in _ _ _ _ E). cbn [run_bind].
      pose proof (pos_nonneg (pre2 ++ [TProp o v])).
      destruct (Z.ltb_spec (pos (pre2 ++ [TProp o v])) 0); [lia|].
      apply IH.
      * by rewrite E, <- app_assoc.
      * unfold stops in *. rewrite last_app_cons in Hst. by apply (stops_tail (TProp o v)).
      * rewrite length_app in Hf. cbn [List.length] in Hf. lia.
  - rewrite Hn. cbn [first_prop]. unfold nextprop_. rewrite Hl. cbn [run_bind get_property_loop].
    destruct (Z.ltb_spec e 0); [|lia]. by exists e.
Qed.

(** A property of a node, looked up by name. *)
Lemma get_property_in pre n rest s :
  ts = pre ++ TBegin n :: rest -> stops rest ->
  match first_prop s (node_props rest) with
  | Some v => exists p, 0 < p /\
      fdt_get_property m fdt (pos pre) s = Done (p, Z.of_nat (List.length v)) /\
      fdt_getprop m fdt (pos pre) s = Done (p + 12, Z.of_nat (List.length v)) /\
      bytes_at m (p + 12) v
  | None => exists e, fdt_get_property m fdt (pos pre) s = Done (nullptr, e) /\
      fdt_getprop m fdt (pos pre) s = Done (nullptr, e) /\ e < 0
  end.
Proof.
  intros E Hst. pose proof (b_version _ _ _ _ _ HB).
  assert (fdt_get_property_namelen_ m fdt (pos pre) s =
    let+ o := nextprop_ m fdt (pos (pre ++ [TBegin n])) in get_property_loop m fdt (S (size m)) o s) as Hu.
  { unfold fdt_get_property_namelen_, fdt_first_property_offset.
    rewrite (check_node_in _ _ _ E). cbn [run_bind].
    pose proof (pos_nonneg (pre ++ [TBegin n])).
    by destruct (Z.ltb_spec (pos (pre ++ [TBegin n])) 0); [lia|]. }
  unfold fdt_getprop, fdt_getprop_namelen, fdt_get_property, fdt_get_property_namelen, prop_data.
  rewrite Hu, (lo_version _ _ _ HL). cbn [run_bind].
  destruct (Z.ltb_spec L.(version) 16); [lia|]. cbn [andb run_bind].
  assert (ts = (pre ++ [TBegin n]) ++ rest) as E' by (by rewrite E, <- app_assoc).
  pose proof (property_loop_in s (S (size m)) _ _ E' Hst) as Hloop.
  pose proof tokens_size as Ht. rewrite E', length_app in Ht. specialize (Hloop ltac:(lia)).
  destruct (first_prop s (node_props rest)) as [v|].
  - destruct Hloop as (pre' & ? & -> & Hv & _). cbn [run_bind].
    exists (fdt + L.(off) + pos pre'). rewrite addr_nonnull by done.
    pose proof (lo_fdt _ _ _ HL). pose proof (lo_off_in _ _ _ HL). split_and!; [lia|done..].
  - destruct Hloop as (e & -> & ?). by exists e.
Qed.

(** ** Names of nodes *)

(** A node name matches a path component: the same, or the same up to a unit
    address that the component does not give. *)
Fixpoint name_matches (n s : list Z) : bool :=
  match s, n with
  | [], [] => true
  | [], c :: _ => c =? 64
  | x :: s', y :: n' => (x =? y) && name_matches n' s'
  | _, [] => false
  end.

Definition component_matches (n s : list Z) : bool :=
  bool_decide (n = s) || (negb (bool_decide (64 ∈ s)) && name_matches n s).

Lemma get_name_in pre n post :
  ts = pre ++ TBegin n :: post ->
  fdt_get_name m fdt (pos pre) = Done (fdt + L.(off) + pos pre + 4, Z.of_nat (List.length n)) /\
  cstr_at m (fdt + L.(off) + pos pre + 4) n.
Proof.
  intros E. destruct HB as [HL' ? ? ? Hby ? ? Hok _].
  assert (cstr_at m (fdt + L.(off) + pos pre + 4) n) as Hn.
  { split.
    - pose proof Hby as Hb. rewrite E, encs_app, encs_cons in Hb. apply bytes_at_app in Hb as [_ Hb].
      apply bytes_at_app in Hb as [Hb _]. cbn [enc] in Hb. unfold pad4 in Hb.
      apply bytes_at_app in Hb as [_ Hb]. by apply bytes_at_app in Hb as [Hb _].
    - rewrite E in Hok. apply Forall_app in Hok as [_ Hok]. by inv Hok. }
  split; [|done]. unfold fdt_get_name, fdt_offset_ptr_. rewrite (lo_off _ _ _ HL'). cbn [run_bind].
  rewrite probe_in. cbn [run_bind]. pose proof (lo_off_in _ _ _ HL').
  destruct (Z.ltb_spec L.(total) 0); [lia|].
  rewrite (check_node_in _ _ _ E). cbn [run_bind]. pose proof (pos_nonneg (pre ++ [TBegin n])).
  destruct (Z.ltb_spec (pos (pre ++ [TBegin n])) 0); [lia|].
  rewrite (lo_version _ _ _ HL'). cbn [run_bind]. destruct (Z.ltb_spec L.(version) 16); [lia|].
  by rewrite (strlen_spec m _ n Hn).
Qed.

Lemma name_matches_split s : forall n,
  name_matches n s = match drop (List.length s) n with [] => bool_decide (n = s) | c :: _ => bool_decide (take (List.length s) n = s) && (c =? 64) end.
Proof.
  induction s as [|x s IH]; intros [|y n]; cbn [name_matches List.length drop take]; try done.
  rewrite IH. destruct (drop (List.length s) n) as [|c r]; destruct (Z.eqb_spec x y) as [->|]; cbn [andb].
  - apply bool_decide_ext. split; [by intros ->|by intros [= ->]].
  - symmetry. apply bool_decide_eq_false_2. congruence.
  - f_equal. apply bool_decide_ext. split; [by intros ->|by intros [= ->]].
  - symmetry. rewrite bool_decide_eq_false_2; [done|]. congruence.
Qed.

Lemma nodename_eq_in pre n post s :
  ts = pre ++ TBegin n :: post ->
  fdt_nodename_eq_ m fdt (pos pre) s = Done (component_matches n s).
Proof.
  intros E. destruct (get_name_in _ _ _ E) as [Hg Hn]. pose proof (pos_nonneg pre).
  unfold fdt_nodename_eq_. rewrite Hg. cbn [run_bind].
  pose proof (addr_nonnull (pos pre + 4) ltac:(lia)) as H0. rewrite Z.add_assoc in H0. rewrite H0.
  cbn [orb]. unfold component_matches.
  destruct (Z.ltb_spec (Z.of_nat (List.length n)) (Z.of_nat (List.length s))) as [Hlt|Hge].
  { rewrite bool_decide_eq_false_2 by (intros ->; lia). rewrite name_matches_split, drop_ge by lia.
    rewrite (bool_decide_eq_false_2 (n = s)) by (intros ->; lia). by rewrite andb_false_r. }
  rewrite <- (take_drop (List.length s) n) in Hn. destruct Hn as [Hn HF].
  rewrite <- app_assoc in Hn. apply bytes_at_app in Hn as [Hp Hd].
  rewrite length_take, Nat.min_l in Hd by lia.
  rewrite (bytes_eq_same m s _ _ Hp) by (rewrite length_take; lia). cbn [run_bind].
  rewrite name_matches_split.
  destruct (decide (take (List.length s) n = s)) as [Ht|Ht].
  - rewrite (bool_decide_eq_true_2 (take _ _ = s)) by done. cbn [negb].
    destruct (drop (List.length s) n) as [|c r] eqn:Ed; cbn [app] in Hd; apply bytes_at_cons in Hd as [Hd _];
      rewrite (load8_Done _ _ _ Hd); cbn [run_bind].
    + assert (n = s) as Hns by (rewrite <- (take_drop (List.length s) n), Ed, app_nil_r; done).
      by rewrite (bool_decide_eq_true_2 (n = s)).
    + assert (0 < c < 256).
      { apply Forall_app in HF as [_ HF]. by inv HF. }
      rewrite (bool_decide_eq_false_2 (n = s)) by (intros ->; by rewrite drop_all in Ed).
      by destruct (Z.eqb_spec c 0); [lia|].
  - rewrite (bool_decide_eq_false_2 (take _ _ = s)) by done. cbn [negb].
    rewrite (bool_decide_eq_false_2 (n = s)) by (intros ->; by rewrite firstn_all in Ht).
    destruct (drop (List.length s) n) eqn:Ed; by rewrite andb_false_r.
Qed.

(** ** The walk over nodes *)

(** Scanning from the token behind [pre] with the depth counter [d]: the offset
    and the counter that [fdt_next_node] reports. *)
Fixpoint scan (d : Z) (pre rest : list token) : Z * Z :=
  match rest with
  | TBegin _ :: _ => (pos pre, d + 1)
  | TEnd :: rest' =>
      if d - 1 <? 0 then (pos (pre ++ [TEnd]), d - 1) else scan (d - 1) (pre ++ [TEnd]) rest'
  | TStop :: _ | [] => (- FDT_ERR_NOTFOUND, d)
  | t :: rest' => scan d (pre ++ [t]) rest'
  end.

Lemma next_node_scan fuel : forall d pre rest,
  ts = pre ++ rest -> stops rest -> (List.length rest < fuel)%nat ->
  next_node_loop m fdt fuel (pos pre) (Some d) =
    Done ((scan d pre rest).1, Some (scan d pre rest).2).
Proof.
  induction fuel as [|f IH]; intros d pre rest E Hst Hf; [lia|].
  destruct rest as [|t rest]; [done|]. cbn [next_node_loop]. rewrite (tag_in _ _ _ E). cbn [run_bind].
  assert (ts = (pre ++ [t]) ++ rest) as E' by (by rewrite E, <- app_assoc).
  cbn [List.length] in Hf.
  destruct t; cbn [tag_of scan]; try done.
  - change (FDT_END_NODE =? FDT_BEGIN_NODE) with false. change (FDT_END_NODE =? FDT_END_NODE) with true.
    cbv iota. destruct (d - 1 <? 0); [done|]. apply IH; [done|by apply (stops_tail TEnd)|lia].
  - apply IH; [done|by eapply stops_tail|lia].
  - apply IH; [done|by eapply stops_tail|lia].
  - pose proof (pos_nonneg (pre ++ [TStop])).
    change (FDT_END =? FDT_BEGIN_NODE) with false. change (FDT_END =? FDT_END_NODE) with false.
    change (FDT_END =? FDT_END) with true. cbv iota.
    by destruct (Z.leb_spec 0 (pos (pre ++ [TStop]))); [|lia].
Qed.

(** The position of the next node, if there is one. *)
Fixpoint next_begin (pre rest : list token) : option (list token * list Z * list token) :=
  match rest with
  | TBegin n :: rest' => Some (pre, n, rest')
  | TStop :: _ | [] => None
  | t :: rest' => next_begin (pre ++ [t]) rest'
  end.

Lemma next_node_none fuel : forall pre rest,
  ts = pre ++ rest -> stops rest -> (List.length rest < fuel)%nat ->
  next_node_loop m fdt fuel (pos pre) None =
    Done (match next_begin pre rest with Some (pre', _, _) => pos pre' | None => - FDT_ERR_NOTFOUND end, None).
Proof.
  induction fuel as [|f IH]; intros pre rest E Hst Hf; [lia|].
  destruct rest as [|t rest]; [done|]. cbn [next_node_loop]. rewrite (tag_in _ _ _ E). cbn [run_bind].
  assert (ts = (pre ++ [t]) ++ rest) as E' by (by rewrite E, <- app_assoc).
  cbn [List.length] in Hf.
  destruct t; cbn [tag_of next_begin]; try done; try (apply IH; [done|by eapply stops_tail|lia]).
  pose proof (pos_nonneg (pre ++ [TStop])).
  change (FDT_END =? FDT_BEGIN_NODE) with false. change (FDT_END =? FDT_END_NODE) with false.
  change (FDT_END =? FDT_END) with true. cbv iota.
  by destruct (Z.leb_spec 0 (pos (pre ++ [TStop]))); [|lia].
Qed.

(** [fdt_next_node] from the node behind [pre]. *)
Lemma next_node_in pre n rest depth :
  ts = pre ++ TBegin n :: rest ->
  fdt_next_node m fdt (pos pre) depth = next_node_loop m fdt (S (size m)) (pos (pre ++ [TBegin n])) depth.
Proof.
  intros E. unfold fdt_next_node. pose proof (pos_nonneg pre). pose proof (pos_nonneg (pre ++ [TBegin n])).
  destruct (Z.leb_spec 0 (pos pre)); [|lia]. rewrite (check_node_in _ _ _ E). cbn [run_bind].
  by destruct (Z.ltb_spec (pos (pre ++ [TBegin n])) 0); [lia|].
Qed.

End nodes.

End FdtNodes.
