(* ===== verification/FdtTree.v ===== *)
(** * Trees in the structure block

    A device tree as a tree of nodes, its tokens, and the look-up of children
    and paths: [fdt_subnode_offset] and [fdt_path_offset] find the first match
    among the children, level by level. *)

From stdpp Require Import base numbers list gmap.
From Stdlib Require Import ZArith Lia Ascii String.
From S2P Require Import Prelude CMem CString Libfdt LibfdtRo LibfdtSafe LibfdtRoSafe FdtSpec FdtNodes.
Import CString Libfdt LibfdtRo LibfdtSafe LibfdtRoSafe FdtSpec FdtNodes.

Local Open Scope Z_scope.

Module FdtTree.

(** A node: its name, its properties (name offset and value), its children. *)
Inductive tree := Node (name : list Z) (props : list (Z * list Z)) (children : list tree).

Definition name_of (t : tree) : list Z := let 'Node n _ _ := t in n.
Definition props_of (t : tree) : list (Z * list Z) := let 'Node _ ps _ := t in ps.
Definition children_of (t : tree) : list tree := let 'Node _ _ cs := t in cs.

Definition prop_token (p : Z * list Z) : token := TProp p.1 p.2.

Fixpoint tokens (t : tree) : list token :=
  let 'Node n ps cs := t in
  TBegin n :: (prop_token <$> ps) ++ flat_map tokens cs ++ [TEnd].

(** The nodes in document order. *)
Fixpoint nodes (t : tree) : list tree := let 'Node _ _ cs := t in t :: flat_map nodes cs.

Section tree_ind.
Context (P : tree -> Prop).
Hypothesis HP : forall n ps cs, Forall P cs -> P (Node n ps cs).

Fixpoint tree_ind' (t : tree) : P t :=
  match t with
  | Node n ps cs =>
      HP n ps cs ((fix go (l : list tree) : Forall P l :=
        match l with [] => Forall_nil_2 _ | c :: l' => Forall_cons_2 _ _ _ (tree_ind' c) (go l') end) cs)
  end.
End tree_ind.

Lemma tokens_unfold n ps cs rest :
  tokens (Node n ps cs) ++ rest =
  TBegin n :: (prop_token <$> ps) ++ flat_map tokens cs ++ TEnd :: rest.
Proof. cbn [tokens app]. f_equal. by rewrite <- !app_assoc. Qed.

Lemma node_props_fmap ps rest : node_props ((prop_token <$> ps) ++ rest) = ps ++ node_props rest.
Proof. induction ps as [|[o v] ps IH]; [done|]. cbn [fmap list_fmap app node_props prop_token fst snd]. by rewrite <- IH. Qed.

Lemma node_props_body ps cs rest :
  node_props ((prop_token <$> ps) ++ flat_map tokens cs ++ TEnd :: rest) = ps.
Proof.
  rewrite node_props_fmap.
  enough (node_props (flat_map tokens cs ++ TEnd :: rest) = []) as -> by apply app_nil_r.
  by destruct cs as [|[n ps' cs'] cs].
Qed.

(** The first child that matches a path component, between its siblings. *)
Fixpoint split_child (s : list Z) (cs : list tree) : option (list tree * tree * list tree) :=
  match cs with
  | [] => None
  | c :: cs' =>
      if component_matches (name_of c) s then Some ([], c, cs')
      else '(b, t, a) ← split_child s cs'; Some (c :: b, t, a)
  end.

Lemma split_child_app s cs b t a : split_child s cs = Some (b, t, a) -> cs = b ++ t :: a.
Proof.
  revert b t a. induction cs as [|c cs IH]; intros b t a; cbn [split_child]; [done|].
  destruct (component_matches _ _); [by intros [= <- <- <-]|].
  destruct (split_child s cs) as [[[b' t'] a']|]; [|done]. intros [= <- <- <-].
  by rewrite (IH b' t' a').
Qed.

(** ** Paths *)

(** The text of an absolute path. *)
Definition path_text (cs : list (list Z)) : list Z := flat_map (fun c => 47 :: c) cs.

(** A component is a non-empty text without slashes. *)
Definition component (c : list Z) : Prop := c <> [] /\ ~ 47 ∈ c.

(** Following a path from the node [t] behind [pre]: what precedes the target,
    and the target. *)
Fixpoint resolve (pre : list token) (t : tree) (cs : list (list Z)) : option (list token * tree) :=
  match cs with
  | [] => Some (pre, t)
  | c :: cs' =>
      '(b, t', _) ← split_child c (children_of t);
      resolve (pre ++ TBegin (name_of t) :: (prop_token <$> props_of t) ++ flat_map tokens b) t' cs'
  end.

Lemma split_slash_comp c rest :
  ~ 47 ∈ c -> (rest = [] \/ exists r, rest = 47 :: r) -> split_slash (c ++ rest) = (c, rest).
Proof.
  intros Hc Hr. induction c as [|x c IH].
  - destruct Hr as [->|[r ->]]; done.
  - cbn [app split_slash]. destruct (Z.eqb_spec x 47) as [->|]; [set_solver|].
    rewrite IH by set_solver. done.
Qed.

Lemma path_text_head cs : path_text cs = [] \/ exists r, path_text cs = 47 :: r.
Proof. destruct cs as [|c cs]; [by left|right]. by eexists. Qed.

(** Brings appended sequences into right-nested form. *)
Ltac list_assoc := do 3 (rewrite <- ?app_assoc; cbn [app]).

Section lookup.
Context (m : mem) (fdt : Z) (L : Layout) (names : Z -> list Z) (ts : list token).
Hypothesis HB : block m fdt L names ts.

(** The search of [fdt_subnode_offset_namelen] from the token behind [pre],
    with the depth counter [d]. *)
Definition sub (s : list Z) (f : nat) (d : Z) (pre rest : list token) : run Z :=
  let '(o, dd) := scan d pre rest in subnode_loop m fdt f o dd s.

Lemma sub_node s f d pre n rest :
  ts = pre ++ TBegin n :: rest -> stops rest -> 0 <= d ->
  sub s (S f) d pre (TBegin n :: rest) =
    if (d =? 0) && component_matches n s then Done (pos pre) else sub s f (d + 1) (pre ++ [TBegin n]) rest.
Proof.
  intros E Hst Hd. unfold sub at 1. cbn [scan subnode_loop]. pose proof (pos_nonneg pre).
  destruct (Z.leb_spec 0 (pos pre)); [|lia]. destruct (Z.leb_spec 0 (d + 1)); [|lia]. cbn [andb].
  assert (fdt_next_node m fdt (pos pre) (Some (d + 1)) =
    Done ((scan (d + 1) (pre ++ [TBegin n]) rest).1, Some (scan (d + 1) (pre ++ [TBegin n]) rest).2)) as Hn.
  { rewrite (next_node_in m fdt L names ts HB _ _ _ _ E).
    apply (next_node_scan m fdt L names ts HB); [by rewrite E, <- app_assoc|done|].
    pose proof (tokens_size m fdt L names ts HB) as Hs. rewrite E, length_app in Hs.
    cbn [List.length] in Hs. lia. }
  replace (d + 1 =? 1) with (d =? 0) by (destruct (Z.eqb_spec d 0), (Z.eqb_spec (d + 1) 1); lia).
  destruct (Z.eqb_spec d 0) as [->|]; cbn [andb].
  - rewrite (nodename_eq_in m fdt L names ts HB _ _ _ _ E). cbn [run_bind].
    destruct (component_matches n s); [done|]. rewrite Hn. cbn [run_bind].
    unfold sub. by destruct (scan _ _ _).
  - cbn [run_bind]. rewrite Hn. cbn [run_bind]. unfold sub. by destruct (scan _ _ _).
Qed.

Lemma sub_props s f d ps : forall pre rest,
  sub s f d pre ((prop_token <$> ps) ++ rest) = sub s f d (pre ++ (prop_token <$> ps)) rest.
Proof.
  induction ps as [|p ps IH]; intros pre rest; [by rewrite app_nil_r|].
  cbn [fmap list_fmap app]. rewrite (cons_middle (prop_token p)), app_assoc, <- IH. done.
Qed.

Lemma sub_end s f d pre rest :
  1 <= d -> sub s f d pre (TEnd :: rest) = sub s f (d - 1) (pre ++ [TEnd]) rest.
Proof. intros. unfold sub. cbn [scan]. by destruct (Z.ltb_spec (d - 1) 0); [lia|]. Qed.

Lemma sub_end0 s f pre rest : sub s (S f) 0 pre (TEnd :: rest) = Done (- FDT_ERR_NOTFOUND).
Proof.
  unfold sub. cbn [scan]. change (0 - 1 <? 0) with true. cbv iota. cbn [subnode_loop].
  change (0 <=? 0 - 1) with false. by rewrite andb_false_r.
Qed.

Definition count_nodes (cs : list tree) : nat := List.length (flat_map nodes cs).

Lemma nodes_tokens cs : (count_nodes cs <= List.length (flat_map tokens cs))%nat.
Proof.
  enough (forall t, List.length (nodes t) <= List.length (tokens t))%nat as H.
  { unfold count_nodes. induction cs as [|c cs IH]; [done|]. cbn [flat_map]. rewrite !length_app.
    specialize (H c). lia. }
  clear cs. induction t as [n ps cs IH] using tree_ind'. cbn [nodes tokens List.length].
  rewrite !length_app. enough (List.length (flat_map nodes cs) <= List.length (flat_map tokens cs))%nat by lia.
  induction IH as [|c cs Hc Hcs IH]; [done|]. cbn [flat_map]. rewrite !length_app. lia.
Qed.

(** Deeper than the children, a whole subtree is passed over. *)
Definition skips (s : list Z) (t : tree) : Prop := forall f d pre rest,
  ts = pre ++ tokens t ++ rest -> stops rest -> 1 <= d ->
  sub s (List.length (nodes t) + f) d pre (tokens t ++ rest) = sub s f d (pre ++ tokens t) rest.

Lemma stops_app us rest : stops rest -> stops (us ++ rest).
Proof.
  unfold stops. intros H. destruct rest as [|t rest] using rev_ind; [done|].
  rewrite app_assoc. by rewrite last_snoc in H |- *.
Qed.

Lemma forest_skip s cs : Forall (skips s) cs -> forall f d pre rest,
  ts = pre ++ flat_map tokens cs ++ rest -> stops rest -> 1 <= d ->
  sub s (count_nodes cs + f) d pre (flat_map tokens cs ++ rest) =
  sub s f d (pre ++ flat_map tokens cs) rest.
Proof.
  induction 1 as [|c cs Hc Hcs IH]; intros f d pre rest E Hst Hd; [by rewrite app_nil_r|].
  unfold count_nodes in *. cbn [flat_map] in *.
  rewrite length_app, <- Nat.add_assoc, <- app_assoc in *.
  rewrite (Hc _ _ _ _ E); [|by apply stops_app|done].
  rewrite (IH f d (pre ++ tokens c)); [by rewrite app_assoc|by rewrite <- app_assoc|done..].
Qed.

(** The part of a node behind its opening tag, at a depth below the node. *)
Lemma body_skip s ps cs : Forall (skips s) cs -> forall f d pre rest,
  ts = pre ++ (prop_token <$> ps) ++ flat_map tokens cs ++ TEnd :: rest -> stops rest -> 1 <= d ->
  sub s (count_nodes cs + f) d pre ((prop_token <$> ps) ++ flat_map tokens cs ++ TEnd :: rest) =
  sub s f (d - 1) (pre ++ (prop_token <$> ps) ++ flat_map tokens cs ++ [TEnd]) rest.
Proof.
  intros Hcs f d pre rest E Hst Hd. rewrite sub_props.
  rewrite (forest_skip s cs Hcs).
  - rewrite sub_end by done. by rewrite <- !app_assoc.
  - by rewrite E, <- !app_assoc.
  - by apply (stops_app [TEnd]).
  - done.
Qed.

Lemma sub_skip s t : skips s t.
Proof.
  induction t as [n ps cs IH] using tree_ind'. intros f d pre rest E Hst Hd.
  rewrite tokens_unfold in E |- *. cbn [nodes List.length Nat.add].
  fold (count_nodes cs).
  rewrite (sub_node s _ d pre n _ E); [|do 2 apply stops_app; by apply (stops_app [TEnd])|lia].
  destruct (Z.eqb_spec d 0); [lia|]. cbn [andb].
  rewrite (body_skip s ps cs IH f (d + 1)); [|by rewrite E, <- !app_assoc|done|lia].
  replace (d + 1 - 1) with d by lia. cbn [tokens]. by rewrite <- app_assoc.
Qed.

(** Among the children: the first match, or the end of the parent. *)
Lemma sub_children s cs : forall f pre rest,
  ts = pre ++ flat_map tokens cs ++ TEnd :: rest -> stops rest -> (count_nodes cs < f)%nat ->
  sub s f 0 pre (flat_map tokens cs ++ TEnd :: rest) =
    Done (match split_child s cs with
          | Some (b, _, _) => pos (pre ++ flat_map tokens b)
          | None => - FDT_ERR_NOTFOUND
          end).
Proof.
  induction cs as [|[n ps cs'] cs IH]; intros f pre rest E Hst Hf.
  { destruct f as [|f]; [cbn in Hf; lia|]. apply sub_end0. }
  unfold count_nodes in Hf. cbn [flat_map] in *. rewrite length_app in Hf.
  cbn [nodes List.length] in Hf. fold (count_nodes cs') (count_nodes cs) in Hf.
  destruct f as [|f]; [lia|]. rewrite <- app_assoc, tokens_unfold in E |- *.
  cbn [split_child name_of].
  assert (stops (flat_map tokens cs ++ TEnd :: rest)) as Hst' by (apply stops_app; by apply (stops_app [TEnd])).
  rewrite (sub_node s f 0 pre n _ E); [|do 2 apply stops_app; by apply (stops_app [TEnd])|done].
  cbn [Z.eqb andb]. destruct (component_matches n s); [by rewrite app_nil_r|].
  replace f with (count_nodes cs' + (f - count_nodes cs'))%nat by lia.
  rewrite (body_skip s ps cs'); [|apply Forall_forall; intros; apply sub_skip|by rewrite E, <- !app_assoc|done|done].
  rewrite IH; [|rewrite E; by list_assoc|done|lia].
  destruct (split_child s cs) as [[[b t] a]|]; [|done]. cbn [mbind option_bind flat_map].
  f_equal. f_equal. cbn [tokens]. by list_assoc.
Qed.

(** The child of a node, by name. *)
Lemma subnode_in s n ps cs pre post :
  ts = pre ++ tokens (Node n ps cs) ++ post -> stops post ->
  fdt_subnode_offset_namelen m fdt (pos pre) s =
    Done (match split_child s cs with
          | Some (b, _, _) => pos (pre ++ TBegin n :: (prop_token <$> ps) ++ flat_map tokens b)
          | None => - FDT_ERR_NOTFOUND
          end).
Proof.
  intros E Hst. rewrite tokens_unfold in E. unfold fdt_subnode_offset_namelen.
  rewrite (probe_in m fdt L names ts HB). cbn [run_bind].
  pose proof (lo_off_in _ _ _ (b_layout _ _ _ _ _ HB)). destruct (Z.ltb_spec L.(total) 0); [lia|].
  assert (stops ((prop_token <$> ps) ++ flat_map tokens cs ++ TEnd :: post)) as Hst'
    by (do 2 apply stops_app; by apply (stops_app [TEnd])).
  pose proof (tokens_size m fdt L names ts HB) as Hsz. rewrite E in Hsz.
  rewrite !length_app in Hsz. cbn [List.length] in Hsz. rewrite !length_app in Hsz.
  pose proof (nodes_tokens cs) as Hnt. cbn [List.length] in Hsz.
  assert (ts = (pre ++ [TBegin n]) ++ (prop_token <$> ps) ++ flat_map tokens cs ++ TEnd :: post) as E'
    by (rewrite E; by list_assoc).
  pose proof (next_node_scan m fdt L names ts HB (S (size m)) 0 _ _ E' Hst') as Hn.
  rewrite <- (next_node_in m fdt L names ts HB _ _ _ _ E) in Hn.
  rewrite !length_app in Hn. cbn [List.length] in Hn. specialize (Hn ltac:(lia)).
  cbn [subnode_loop]. pose proof (pos_nonneg pre). destruct (Z.leb_spec 0 (pos pre)); [|lia].
  cbn [andb Z.leb Z.compare Z.eqb run_bind]. rewrite Hn. cbn [run_bind default].
  pose proof (sub_props s (size m) 0 ps (pre ++ [TBegin n]) (flat_map tokens cs ++ TEnd :: post)) as Hp.
  unfold sub at 1 in Hp. destruct (scan _ _ _) as [o dd]. cbn [fst snd default from_option id]. rewrite Hp.
  rewrite sub_children; [|rewrite E; by list_assoc|done|lia].
  destruct (split_child s cs) as [[[b t] a]|]; [|done]. by list_assoc.
Qed.

(** ** Following a path *)

Lemma resolve_in t cs : forall pre post pre' t',
  ts = pre ++ tokens t ++ post -> stops post -> resolve pre t cs = Some (pre', t') ->
  exists post', ts = pre' ++ tokens t' ++ post' /\ stops post'.
Proof.
  revert t. induction cs as [|c cs IH]; intros [n ps ch] pre post pre' t' E Hst; cbn [resolve].
  { intros [= <- <-]. eauto. }
  cbn [name_of props_of children_of].
  destruct (split_child c ch) as [[[b u] a]|] eqn:Es; [|done]. cbn [mbind option_bind].
  apply (IH u _ (flat_map tokens a ++ TEnd :: post)).
  - rewrite E, tokens_unfold, (split_child_app _ _ _ _ _ Es), flat_map_app. cbn [flat_map]. by list_assoc.
  - apply stops_app. by apply (stops_app [TEnd]).
Qed.

Lemma path_loop_in t cs : forall fuel pre post,
  ts = pre ++ tokens t ++ post -> stops post -> Forall component cs ->
  (List.length (path_text cs) < fuel)%nat ->
  path_loop m fdt fuel (pos pre) (path_text cs) =
    Done (match resolve pre t cs with Some (pre', _) => pos pre' | None => - FDT_ERR_NOTFOUND end).
Proof.
  revert t. induction cs as [|c cs IH]; intros [n ps ch] fuel pre post E Hst Hc Hf.
  { destruct fuel; [cbn in Hf; lia|]. done. }
  apply Forall_cons in Hc as [H1 H2]. cbn [path_text flat_map] in Hf |- *. fold (path_text cs) in Hf |- *.
  cbn [app List.length] in Hf. rewrite length_app in Hf.
  destruct fuel as [|[|fuel]]; [lia|destruct c; [by destruct H1|simpl in Hf; lia]|].
  cbn [app path_loop]. change (47 =? 47) with true. cbv iota.
  destruct H1 as [Hne Hns]. destruct c as [|x c]; [done|]. cbn [app].
  destruct (Z.eqb_spec x 47) as [->|]; [set_solver|].
  change (x :: c ++ path_text cs) with ((x :: c) ++ path_text cs).
  rewrite (split_slash_comp (x :: c)) by (done || apply path_text_head).
  rewrite (subnode_in (x :: c) n ps ch pre post E Hst). cbn [run_bind resolve children_of name_of props_of].
  destruct (split_child (x :: c) ch) as [[[b u] a]|] eqn:Es; [|done]. cbn [mbind option_bind].
  pose proof (pos_nonneg (pre ++ TBegin n :: (prop_token <$> ps) ++ flat_map tokens b)).
  destruct (Z.ltb_spec (pos (pre ++ TBegin n :: (prop_token <$> ps) ++ flat_map tokens b)) 0); [lia|].
  apply (IH u _ _ (flat_map tokens a ++ TEnd :: post)).
  - rewrite E, tokens_unfold, (split_child_app _ _ _ _ _ Es), flat_map_app. cbn [flat_map]. by list_assoc.
  - apply stops_app. by apply (stops_app [TEnd]).
  - done.
  - cbn [List.length] in Hf. lia.
Qed.

(** A path from the root. *)
Lemma path_in root cs post :
  ts = tokens root ++ post -> stops post -> Forall component cs -> cs <> [] ->
  fdt_path_offset m fdt (path_text cs) =
    Done (match resolve [] root cs with Some (pre', _) => pos pre' | None => - FDT_ERR_NOTFOUND end).
Proof.
  intros E Hst Hc Hne. destruct cs as [|c cs]; [done|].
  unfold fdt_path_offset. cbn [fdt_path_offset_namelen].
  rewrite (probe_in m fdt L names ts HB). cbn [run_bind].
  pose proof (lo_off_in _ _ _ (b_layout _ _ _ _ _ HB)). destruct (Z.ltb_spec L.(total) 0); [lia|].
  cbn [path_text flat_map app]. change (47 =? 47) with true. cbv iota.
  apply (path_loop_in root (c :: cs) _ [] post); [done..|]. cbn. lia.
Qed.

End lookup.

End FdtTree.
