(* ===== verification/FdtBlob.v ===== *)
(** * A whole blob

    Header, reservations, structure block and strings of a version 17 device
    tree; in memory it passes the header check and is read back token by
    token. *)

From stdpp Require Import base numbers list gmap.
From Stdlib Require Import ZArith Lia Ascii String.
From S2P Require Import Prelude CMem CString Libfdt LibfdtRo LibfdtSafe LibfdtRoSafe FdtSpec FdtNodes FdtTree.
Import CString Libfdt LibfdtRo LibfdtSafe LibfdtRoSafe FdtSpec FdtNodes FdtTree.

Local Open Scope Z_scope.

Module FdtBlob.

Definition words (ws : list Z) : list Z := flat_map be32 ws.

Definition header (ts : list token) (strs : list Z) : list Z :=
  let n := Z.of_nat (List.length strs) in
  [FDT_MAGIC; 56 + pos ts + n; 56; 56 + pos ts; 40; 17; 16; 0; n; pos ts].

(** The header, an empty reservation list, the structure block, the strings. *)
Definition dtb (ts : list token) (strs : list Z) : list Z :=
  words (header ts strs) ++ replicate 16 0 ++ encs ts ++ strs.

(** Every property name is a terminated string of the strings block. *)
Definition names_in (strs : list Z) (names : Z -> list Z) (ts : list token) : Prop :=
  forall o v, TProp o v ∈ ts -> exists a b,
    strs = a ++ names o ++ 0 :: b /\ o = Z.of_nat (List.length a) /\
    Forall (fun c => 0 < c < 256) (names o).

(** The blob lies in memory at the address [fdt]. *)
Record device_tree (m : mem) (fdt : Z) (ts : list token) (strs : list Z) (names : Z -> list Z) : Prop := {
  dt_bytes : byte_mem m;
  dt_fdt : 0 < fdt;
  dt_align : Z.land fdt 7 = 0;
  dt_placed : bytes_at m fdt (dtb ts strs);
  dt_size : Z.of_nat (List.length (dtb ts strs)) < 2 ^ 31 - 1;
  dt_tokens : Forall token_ok ts;
  dt_names : names_in strs names ts
}.

Lemma load_words m ws : forall p k v,
  bytes_at m p (words ws) -> ws !! k = Some v -> 0 <= v < 2 ^ 32 ->
  fdt32_ld m (p + 4 * Z.of_nat k) = Done v.
Proof.
  induction ws as [|w ws IH]; intros p [|k] v H Hk Hv; try done; cbn [words flat_map] in H;
    apply bytes_at_app in H as [H1 H2].
  - injection Hk as ->. rewrite Z.add_0_r. by apply load_be32.
  - replace (p + 4 * Z.of_nat (S k)) with (p + Z.of_nat 4 + 4 * Z.of_nat k) by lia. by apply IH.
Qed.

Section blob.
Context (m : mem) (fdt : Z) (ts : list token) (strs : list Z) (names : Z -> list Z).
Hypothesis D : device_tree m fdt ts strs names.

Definition layout : Layout := {|
  total := 56 + pos ts + Z.of_nat (List.length strs); off := 56; strings := 56 + pos ts;
  strings_size := Z.of_nat (List.length strs); version := 17; last_comp := 16; struct_size := pos ts
|}.

Lemma dtb_length : Z.of_nat (List.length (dtb ts strs)) = layout.(total).
Proof.
  unfold dtb. rewrite !length_app, length_replicate.
  change (List.length (words (header ts strs))) with 40%nat. cbn [layout total]. unfold pos. lia.
Qed.

Lemma layout_small : layout.(total) < 2 ^ 31 - 1.
Proof. rewrite <- dtb_length. apply (dt_size _ _ _ _ _ D). Qed.

(** The header fields. *)
Lemma field k v a :
  header ts strs !! k = Some v -> a = 4 * Z.of_nat k -> fdt32_ld m (fdt + a) = Done v.
Proof.
  intros Hk ->. pose proof (dt_placed _ _ _ _ _ D) as Hp. unfold dtb in Hp.
  apply bytes_at_app in Hp as [Hp _]. eapply load_words; [done..|].
  pose proof layout_small as Hs. cbn [layout total] in Hs. pose proof (pos_nonneg ts).
  unfold header in Hk. do 10 (destruct k as [|k]; [injection Hk as <-; unfold FDT_MAGIC; lia|]).
  done.
Qed.

Lemma check_off_true hdr tot x : hdr <= x <= tot -> check_off_ hdr tot x = true.
Proof. intros. unfold check_off_. rewrite andb_true_iff, !Z.leb_le. lia. Qed.

Lemma check_block_true hdr tot base size :
  0 <= hdr <= base -> 0 <= size -> base + size <= tot -> tot < 2 ^ 32 ->
  check_block_ hdr tot base size = true.
Proof.
  intros. unfold check_block_. rewrite u32_small by lia. rewrite !check_off_true by lia.
  cbn [negb]. by destruct (Z.ltb_spec (base + size) base); [lia|].
Qed.

Lemma header_ok : fdt_check_header m fdt = Done 0.
Proof.
  unfold fdt_check_header, fdt_header_size, fdt_magic, fdt_version, fdt_last_comp_version, fdt_totalsize,
    fdt_off_mem_rsvmap, fdt_off_dt_struct, fdt_size_dt_struct, fdt_off_dt_strings, fdt_size_dt_strings.
  rewrite (dt_align _ _ _ _ _ D). cbn [negb Z.eqb].
  pose proof layout_small as Hs. cbn [layout total] in Hs. pose proof (pos_nonneg ts).
  pose proof (field 0 _ 0 eq_refl eq_refl) as F0. rewrite Z.add_0_r in F0. rewrite F0.
  rewrite (field 5 _ 20 eq_refl eq_refl). cbn [run_bind]. rewrite Z.eqb_refl. cbn [negb].
  rewrite (field 6 _ 24 eq_refl eq_refl). cbn [run_bind].
  change ((17 <? FDT_FIRST_SUPPORTED_VERSION) || (FDT_LAST_SUPPORTED_VERSION <? 16)) with false.
  change (17 <? 16) with false. cbv iota.
  rewrite (field 1 _ 4 eq_refl eq_refl). cbn [run_bind]. change (fdt_header_size_ 17) with 40.
  replace (_ || _) with false by (symmetry; rewrite orb_false_iff, !Z.ltb_ge; lia).
  rewrite (field 4 _ 16 eq_refl eq_refl). cbn [run_bind]. rewrite check_off_true by lia. cbn [negb].
  rewrite (field 2 _ 8 eq_refl eq_refl), (field 9 _ 36 eq_refl eq_refl), (field 3 _ 12 eq_refl eq_refl), (field 8 _ 32 eq_refl eq_refl).
  change (17 <? 17) with false. cbv iota. cbn [run_bind].
  by rewrite !check_block_true by lia.
Qed.

Lemma dtb_range : range m fdt (fdt + layout.(total)).
Proof.
  intros p Hp. rewrite <- dtb_length in Hp.
  pose proof (bytes_at_mapped _ _ _ (dt_placed _ _ _ _ _ D) (Z.to_nat (p - fdt))) as H.
  replace (fdt + Z.of_nat (Z.to_nat (p - fdt))) with p in H by lia. apply H. lia.
Qed.

Lemma dtb_laid_out : laid_out m fdt layout.
Proof.
  pose proof layout_small as Hs. cbn [layout total] in Hs. pose proof (pos_nonneg ts).
  pose proof (field 0 _ 0 eq_refl eq_refl) as F0. rewrite Z.add_0_r in F0.
  constructor; cbn [layout total off strings strings_size version last_comp struct_size];
    try apply D; try lia; try done.
  all: first [apply (field 1 _ 4 eq_refl eq_refl)|apply (field 2 _ 8 eq_refl eq_refl)|apply (field 3 _ 12 eq_refl eq_refl)
             |apply (field 5 _ 20 eq_refl eq_refl)|apply (field 6 _ 24 eq_refl eq_refl)|apply (field 8 _ 32 eq_refl eq_refl)
             |intros _; apply (field 9 _ 36 eq_refl eq_refl)].
Qed.

(** The blob is a block in the sense of [FdtNodes]. *)
Lemma dtb_block : block m fdt layout names ts.
Proof.
  pose proof (dt_placed _ _ _ _ _ D) as Hp. unfold dtb in Hp.
  apply bytes_at_app in Hp as [_ Hp]. apply bytes_at_app in Hp as [_ Hp].
  apply bytes_at_app in Hp as [Hst Hstr].
  change (List.length (words (header ts strs))) with 40%nat in Hst, Hstr.
  rewrite length_replicate in Hst, Hstr.
  constructor.
  - apply dtb_laid_out.
  - apply dtb_range.
  - apply layout_small.
  - done.
  - rewrite <- Z.add_assoc in Hst. exact Hst.
  - cbn [layout total off]. lia.
  - done.
  - apply D.
  - intros o v Hin. destruct (dt_names _ _ _ _ _ D _ _ Hin) as (a & b & Es & -> & Hn).
    cbn [layout strings strings_size]. rewrite Es in Hstr. split.
    + split; [|done]. apply bytes_at_app in Hstr as [_ Hstr]. rewrite cons_middle, app_assoc in Hstr.
      apply bytes_at_app in Hstr as [Hstr _].
      replace (fdt + (56 + pos ts) + Z.of_nat (List.length a))
        with (fdt + Z.of_nat 40 + Z.of_nat 16 + Z.of_nat (List.length (encs ts)) + Z.of_nat (List.length a))
        by (unfold pos; lia). exact Hstr.
    + rewrite Es, !length_app. cbn [List.length]. lia.
Qed.

End blob.

(** ** Reading the block back *)

(** The tokens that a walk with [fdt_next_tag] meets, with what
    [fdt_get_name] and [fdt_get_property_by_offset] report of them. *)
Fixpoint read_tokens (m : mem) (fdt : Z) (fuel : nat) (o : Z) : run (list token) :=
  match fuel with
  | O => NoFuel
  | S fuel' =>
      let+ '(tag, next) := fdt_next_tag m fdt o in
      if tag =? FDT_END then Done [TStop]
      else
      let+ t :=
        (if tag =? FDT_BEGIN_NODE then
           let+ '(p, n) := fdt_get_name m fdt o in
           let+ name := read_bytes m (Z.to_nat n) p in Done (TBegin name)
         else if tag =? FDT_PROP then
           let+ '(p, len) := fdt_get_property_by_offset m fdt o in
           let+ nameoff := fdt32_ld m (p + 8) in
           let+ value := read_bytes m (Z.to_nat len) (p + 12) in Done (TProp nameoff value)
         else Done (if tag =? FDT_END_NODE then TEnd else TNop)) in
      let+ rest := read_tokens m fdt fuel' next in Done (t :: rest)
  end.

Lemma read_bytes_at m l : forall p, bytes_at m p l -> read_bytes m (List.length l) p = Done l.
Proof.
  induction l as [|b l IH]; intros p H; [done|]. apply bytes_at_cons in H as [Hb H].
  cbn [List.length read_bytes]. rewrite (load8_Done _ _ _ Hb). cbn [run_bind]. by rewrite IH.
Qed.

Lemma read_tokens_in m fdt L names ts (HB : block m fdt L names ts) rest : forall fuel pre,
  ts = pre ++ rest ++ [TStop] -> ~ TStop ∈ rest -> (List.length rest < fuel)%nat ->
  read_tokens m fdt fuel (pos pre) = Done (rest ++ [TStop]).
Proof.
  induction rest as [|t rest IH]; intros [|fuel] pre E Hn Hf; cbn [List.length] in Hf; try lia;
    cbn [read_tokens app].
  { by rewrite (tag_in _ _ _ _ _ HB _ _ _ E). }
  cbn [app] in E. rewrite (tag_in _ _ _ _ _ HB _ _ _ E). cbn [run_bind].
  assert (read_tokens m fdt fuel (pos (pre ++ [t])) = Done (rest ++ [TStop])) as Hrec.
  { apply IH; [rewrite E; by list_assoc|set_solver|lia]. }
  destruct t as [n| |o v| |]; cbn [tag_of].
  - destruct (get_name_in _ _ _ _ _ HB _ _ _ E) as [Hg Hc].
    change (FDT_BEGIN_NODE =? FDT_END) with false. change (FDT_BEGIN_NODE =? FDT_BEGIN_NODE) with true.
    cbv iota. rewrite Hg. cbn [run_bind]. rewrite Nat2Z.id, read_bytes_at.
    + cbn [run_bind]. by rewrite Hrec.
    + destruct Hc as [Hc _]. by apply bytes_at_app in Hc as [Hc _].
  - cbn [run_bind]. change (FDT_END_NODE =? FDT_END) with false. cbv iota.
    change (FDT_END_NODE =? FDT_BEGIN_NODE) with false. change (FDT_END_NODE =? FDT_PROP) with false.
    cbv iota. cbn [run_bind]. by rewrite Hrec.
  - destruct (prop_by_offset_in _ _ _ _ _ HB _ _ _ _ E) as (Hp & Hno & Hv).
    change (FDT_PROP =? FDT_END) with false. change (FDT_PROP =? FDT_BEGIN_NODE) with false.
    change (FDT_PROP =? FDT_PROP) with true. cbv iota.
    unfold fdt_get_property_by_offset. rewrite (lo_version _ _ _ (b_layout _ _ _ _ _ HB)). cbn [run_bind].
    pose proof (b_version _ _ _ _ _ HB). destruct (Z.ltb_spec L.(version) 16); [lia|].
    rewrite Hp. cbn [run_bind]. rewrite Hno. cbn [run_bind]. rewrite Nat2Z.id, read_bytes_at by done.
    cbn [run_bind]. by rewrite Hrec.
  - change (FDT_NOP =? FDT_END) with false. change (FDT_NOP =? FDT_BEGIN_NODE) with false.
    change (FDT_NOP =? FDT_PROP) with false. cbv iota. cbn [run_bind]. by rewrite Hrec.
  - set_solver.
Qed.

(** C22: Round trip: a structure block encoded in a version 17 blob passes
    [fdt_check_header], and walking it with [fdt_next_tag], [fdt_get_name] and
    [fdt_get_property_by_offset] gives back exactly the encoded tokens: node
    names, property names and values, and the nesting. *)
Theorem structure_block_roundtrip m fdt body strs names :
  device_tree m fdt (body ++ [TStop]) strs names -> ~ TStop ∈ body ->
  fdt_check_header m fdt = Done 0 /\
  read_tokens m fdt (S (List.length body)) 0 = Done (body ++ [TStop]).
Proof.
  intros D Hn. split; [by eapply header_ok|].
  apply (read_tokens_in _ _ _ _ _ (dtb_block _ _ _ _ _ D) body _ []); [done|done|lia].
Qed.

End FdtBlob.
