(* ===== verification/KernelFdtProps.v ===== *)
(** * What the kernel reads from a device tree

    The queries of [KernelFdt] on a blob that encodes a tree: the core count is
    the number of cpu nodes, a path leads to the first match at every level, the
    memory is the last pair of the [reg] property of [/memory].  A tree that is
    cut off behind a property makes the core count read past the blob. *)

From stdpp Require Import base numbers list gmap.
From Stdlib Require Import ZArith Lia Ascii String.
From S2P Require Import Prelude CMem CString Errors Libfdt LibfdtRo LibfdtSafe LibfdtRoSafe KernelFdt KernelFdtSafe FdtSpec FdtNodes FdtTree FdtBlob.
Import CString Errors Libfdt LibfdtRo LibfdtSafe LibfdtRoSafe KernelFdt KernelFdtSafe FdtSpec FdtNodes FdtTree FdtBlob.

Local Open Scope Z_scope.

Module KernelFdtProps.

Abbreviation text s := (lit s%string).

(** The property lists of the nodes of a token sequence, in document order. *)
Fixpoint heads (rest : list token) : list (list (Z * list Z)) :=
  match rest with
  | TBegin _ :: rest' => node_props rest' :: heads rest'
  | TStop :: _ | [] => []
  | _ :: rest' => heads rest'
  end.

Lemma heads_next rest : forall pre,
  match next_begin pre rest with
  | Some (pre', n, rest') =>
      heads rest = node_props rest' :: heads rest' /\ pre ++ rest = pre' ++ TBegin n :: rest' /\
      (stops rest -> stops rest') /\ (List.length rest' < List.length rest)%nat
  | None => heads rest = []
  end.
Proof.
  induction rest as [|t rest IH]; intros pre; [done|].
  destruct t as [n| |o v| |]; cbn [next_begin heads List.length]; try done.
  { split_and!; [done|done|intros; by eapply stops_tail|lia]. }
  all: match goal with |- context [next_begin ?q _] => specialize (IH q) end;
    destruct (next_begin _ _) as [[[pre' n'] rest']|]; [|done];
    destruct IH as (? & E & Hs & ?); split_and!; [done|by rewrite <- E, <- app_assoc| |lia];
    intros; apply Hs; by eapply stops_tail.
Qed.

Section counting.
Context (m : mem) (fdt : Z) (L : Layout) (names : Z -> list Z) (ts : list token).
Hypothesis HB : block m fdt L names ts.

(** A [device_type] that is given is a string. *)
Definition type_ok (ps : list (Z * list Z)) : Prop :=
  forall v, first_prop names (text "device_type") ps = Some v ->
    exists w, v = w ++ [0] /\ Forall (fun b => 0 < b < 256) w.

Definition has_type (s : list Z) (ps : list (Z * list Z)) : bool :=
  bool_decide (first_prop names (text "device_type") ps = Some (s ++ [0])).

Definition typed (s : list Z) (hs : list (list (Z * list Z))) : Z :=
  Z.of_nat (List.length (List.filter (has_type s) hs)).

Lemma typed_cons s ps hs : typed s (ps :: hs) = (if has_type s ps then 1 else 0) + typed s hs.
Proof. unfold typed. cbn [List.filter]. destruct (has_type s ps); cbn [List.length]; lia. Qed.

Lemma count_loop_in s fuel : forall o c pre rest,
  Forall (fun b => 0 < b < 256) s ->
  ts = pre ++ rest -> stops rest -> (List.length rest < fuel)%nat -> Forall type_ok (heads rest) ->
  fdt_next_node m fdt o None = next_node_loop m fdt (S (size m)) (pos pre) None ->
  count_loop fdt m fuel o c s = Done (inl (c + typed s (heads rest))).
Proof.
  induction fuel as [|f IH]; intros o c pre rest Hs E Hst Hf Ht Ho; [lia|].
  cbn [count_loop]. rewrite Ho. pose proof (tokens_size m fdt L names ts HB) as Hsz.
  rewrite E, length_app in Hsz.
  rewrite (next_node_none m fdt L names ts HB) with (rest := rest) by (done || lia). cbn [run_bind].
  pose proof (heads_next rest pre) as Hn.
  destruct (next_begin pre rest) as [[[pre' n] rest']|].
  2:{ rewrite Hn. cbn. f_equal. f_equal. unfold typed. simpl. lia. }
  destruct Hn as (Hh & E2 & Hst' & Hlen). rewrite E2 in E. rewrite Hh in Ht |- *.
  apply Forall_cons in Ht as [Ht Hts]. pose proof (pos_nonneg pre').
  destruct (Z.ltb_spec (pos pre') 0); [lia|].
  assert (forall c', count_loop fdt m f (pos pre') c' s = Done (inl (c' + typed s (heads rest')))) as Hrec.
  { intros c'. apply (IH _ c' (pre' ++ [TBegin n])); [done|rewrite E; by list_assoc|auto|lia|done|].
    by apply (next_node_in m fdt L names ts HB _ _ _ _ E). }
  pose proof (get_property_in m fdt L names ts HB pre' n rest' (text "device_type") E (Hst' Hst)) as Hp.
  rewrite typed_cons. unfold has_type at 1.
  destruct (first_prop names (text "device_type") (node_props rest')) as [v|] eqn:Ef.
  - destruct (Ht v Ef) as (w & -> & Hw). destruct Hp as (p & ? & -> & _ & Hv). cbn [run_bind].
    destruct (Z.eqb_spec p nullptr); [unfold nullptr in *; lia|].
    unfold streq, data. rewrite (bytes_eq_cstr m s (p + 12) w) by done. cbn [run_bind]. rewrite Hrec.
    rewrite (bool_decide_ext (Some (w ++ [0]) = Some (s ++ [0])) (w = s))
      by (split; [intros [= E3]; by apply app_inj_tail in E3 as [-> _]|by intros ->]).
    case_bool_decide; f_equal; f_equal; lia.
  - destruct Hp as (e & -> & _). cbn [run_bind]. change (nullptr =? nullptr) with true. cbv iota.
    by rewrite Hrec, bool_decide_eq_false_2, Z.add_0_l by done.
Qed.

End counting.

(** ** From trees to tokens *)

(** The blob of a whole tree. *)
Definition tree_tokens (root : tree) : list token := tokens root ++ [TStop].

Lemma heads_props ps rest : heads ((prop_token <$> ps) ++ rest) = heads rest.
Proof. by induction ps. Qed.

Lemma heads_tokens t : forall rest, heads (tokens t ++ rest) = (props_of <$> nodes t) ++ heads rest.
Proof.
  induction t as [n ps cs IH] using tree_ind'. intros rest.
  rewrite tokens_unfold. cbn [heads nodes fmap list_fmap app props_of].
  rewrite node_props_body, heads_props. f_equal.
  induction IH as [|c cs Hc Hcs IH]; [done|]. cbn [flat_map].
  by rewrite <- app_assoc, Hc, IH, fmap_app, app_assoc.
Qed.

Lemma heads_tree root : heads (tree_tokens root) = props_of <$> nodes root.
Proof. unfold tree_tokens. rewrite heads_tokens. by rewrite app_nil_r. Qed.

Lemma query_Ret {A} fdt (r : mem -> run A) m a :
  0 < fdt -> r m = Done a -> query fdt r m = Ret m a.
Proof.
  intros Hf Hr. unfold query, reading. simpl.
  destruct (Z.eqb_spec fdt nullptr); [unfold nullptr in *; lia|]. simpl. by rewrite Hr.
Qed.

(** The cores: for a blob that encodes a tree in which every given
    [device_type] is a string, [GetCoreCount] is the number of nodes, at any
    depth, whose first [device_type] is "cpu"; with none it is the error
    [kFdtNodeNotFound]. *)
Theorem core_count_counts_cpus m fdt root strs names :
  device_tree m fdt (tree_tokens root) strs names ->
  (forall t, t ∈ nodes root -> type_ok names (props_of t)) ->
  let cpus := List.filter (fun t => has_type names (text "cpu") (props_of t)) (nodes root) in
  GetCoreCount fdt m =
    Ret m (if bool_decide (cpus = []) then inr kFdtNodeNotFound
           else inl (Z.of_nat (List.length cpus))).
Proof.
  intros D Ht cpus. pose proof (dtb_block _ _ _ _ _ D) as HB.
  apply query_Ret; [apply D|]. unfold CountNodesByDeviceType, and_then.
  assert (pos [] = 0) as H0 by done.
  rewrite (count_loop_in m fdt _ names _ HB (text "cpu") _ (-1) 0 [] (tree_tokens root)).
  - cbn [run_bind]. rewrite heads_tree.
    assert (typed names (text "cpu") (props_of <$> nodes root) = Z.of_nat (List.length cpus)) as ->.
    { unfold typed, cpus. f_equal. clear. induction (nodes root) as [|t l IH]; [done|].
      cbn [fmap list_fmap List.filter]. destruct (has_type _ _ _); cbn [List.length]; by rewrite <- IH. }
    rewrite Z.add_0_l. destruct cpus as [|t l]; [done|].
    destruct (Z.eqb_spec (Z.of_nat (List.length (t :: l))) 0); [done|].
    by rewrite bool_decide_eq_false_2.
  - repeat constructor; lia.
  - done.
  - unfold stops, tree_tokens. by rewrite last_snoc.
  - apply (tokens_size m fdt _ names _ HB).
  - rewrite heads_tree. apply Forall_fmap, Forall_forall. exact Ht.
  - done.
Qed.

(** ** Paths and values *)

(** The properties of a node found by its path. *)
Lemma resolved_property m fdt root strs names path pre t name :
  device_tree m fdt (tree_tokens root) strs names -> resolve [] root path = Some (pre, t) ->
  match first_prop names name (props_of t) with
  | Some v => exists p, 0 < p /\
      fdt_get_property m fdt (pos pre) name = Done (p, Z.of_nat (List.length v)) /\
      fdt_getprop m fdt (pos pre) name = Done (p + 12, Z.of_nat (List.length v)) /\
      bytes_at m (p + 12) v
  | None => exists e, fdt_get_property m fdt (pos pre) name = Done (nullptr, e) /\
      fdt_getprop m fdt (pos pre) name = Done (nullptr, e) /\ e < 0
  end.
Proof.
  intros D Er. pose proof (dtb_block _ _ _ _ _ D) as HB. destruct t as [n ps cs].
  destruct (resolve_in _ root path [] [TStop] pre _ eq_refl eq_refl Er) as (post & E & Hst').
  rewrite tokens_unfold in E. cbn [props_of]. rewrite <- (node_props_body ps cs post).
  apply (get_property_in m fdt _ names _ HB pre n _ name E).
  do 2 apply stops_app. by apply (stops_app [TEnd]).
Qed.

Lemma resolved_path m fdt root strs names path :
  device_tree m fdt (tree_tokens root) strs names -> Forall component path -> path <> [] ->
  fdt_path_offset m fdt (path_text path) =
    Done (match resolve [] root path with Some (pre, _) => pos pre | None => - FDT_ERR_NOTFOUND end).
Proof.
  intros D Hc Hne.
  exact (path_in m fdt _ names _ (dtb_block _ _ _ _ _ D) root path [TStop] eq_refl eq_refl Hc Hne).
Qed.

(** C23: The look-up of a path from the root finds the node that the tree has under
    that path (at every level the first child whose name is the component, with
    or without a unit address), and the look-up of a property there returns
    exactly the bytes of its value. *)
Theorem path_lookup_follows_tree m fdt root strs names path name :
  device_tree m fdt (tree_tokens root) strs names -> Forall component path -> path <> [] ->
  match resolve [] root path with
  | None => fdt_path_offset m fdt (path_text path) = Done (- FDT_ERR_NOTFOUND)
  | Some (pre, t) =>
      fdt_path_offset m fdt (path_text path) = Done (pos pre) /\
      match first_prop names name (props_of t) with
      | Some v => exists p, fdt_getprop m fdt (pos pre) name = Done (p, Z.of_nat (List.length v)) /\
                            bytes_at m p v
      | None => exists e, fdt_getprop m fdt (pos pre) name = Done (nullptr, e) /\ e < 0
      end
  end.
Proof.
  intros D Hc Hne. rewrite (resolved_path _ _ _ _ _ _ D Hc Hne).
  destruct (resolve [] root path) as [[pre t]|] eqn:Er; [|done]. split; [done|].
  pose proof (resolved_property _ _ _ _ _ _ _ _ name D Er) as Hp.
  destruct (first_prop names name (props_of t)) as [v|].
  - destruct Hp as (p & _ & _ & Hg & Hv). by exists (p + 12).
  - destruct Hp as (e & _ & Hg & He). by exists e.
Qed.

(** ** Memory *)

Definition be64_of (l : list Z) : Z := fold_left (fun acc b => acc * 256 + b) (take 8 l) 0.

(** The last complete pair of 64-bit numbers of a [reg] value. *)
Definition last_pair (v : list Z) : Z * Z :=
  let k := (List.length v / 16)%nat in
  if (k =? 0)%nat then (0, 0)
  else (be64_of (drop (16 * (k - 1)) v), be64_of (drop (16 * (k - 1) + 8) v)).

Lemma load_be64 m p l :
  bytes_at m p l -> (8 <= List.length l)%nat -> fdt64_ld m p = Done (be64_of l).
Proof.
  intros H Hl. do 8 (destruct l as [|? l]; [cbn [List.length] in Hl; lia|]).
  rewrite !bytes_at_cons in H. destruct H as (H0 & H1 & H2 & H3 & H4 & H5 & H6 & H7 & _).
  unfold fdt64_ld, fdt32_ld.
  replace (p + 2) with (p + 1 + 1) by lia. replace (p + 3) with (p + 1 + 1 + 1) by lia.
  replace (p + 4) with (p + 1 + 1 + 1 + 1) by lia.
  set (q := p + 1 + 1 + 1 + 1) in *. replace (q + 2) with (q + 1 + 1) by lia.
  replace (q + 3) with (q + 1 + 1 + 1) by lia.
  rewrite (load8_Done _ _ _ H0), (load8_Done _ _ _ H1), (load8_Done _ _ _ H2), (load8_Done _ _ _ H3),
    (load8_Done _ _ _ H4), (load8_Done _ _ _ H5), (load8_Done _ _ _ H6), (load8_Done _ _ _ H7).
  cbn [run_bind]. f_equal. unfold be64_of. cbn [take fold_left]. rewrite take_0.
  cbn [fold_left]. lia.
Qed.

Lemma reg_loop_in m p v : bytes_at m p v -> forall fuel k base size,
  (16 * k <= List.length v)%nat -> (List.length v / 16 - k < fuel)%nat ->
  reg_loop m fuel p (Z.of_nat (List.length v)) (16 * Z.of_nat k) base size =
    Done (if (k =? List.length v / 16)%nat then (base, size) else last_pair v).
Proof.
  intros Hv. set (n := (List.length v / 16)%nat).
  assert (16 * n <= List.length v < 16 * n + 16)%nat as Hn.
  { pose proof (Nat.div_mod (List.length v) 16 ltac:(lia)).
    pose proof (Nat.mod_upper_bound (List.length v) 16 ltac:(lia)). fold n in H. lia. }
  induction fuel as [|f IH]; intros k base size Hk Hf; [lia|]. cbn [reg_loop].
  destruct (Z.leb_spec (16 * Z.of_nat k + 16) (Z.of_nat (List.length v))) as [Hle|Hgt].
  - unfold LoadBeU64.
    assert (forall i, (i + 8 <= List.length v)%nat -> fdt64_ld m (p + Z.of_nat i) = Done (be64_of (drop i v))) as Hld.
    { intros i Hi. apply load_be64; [|rewrite length_drop; lia].
      rewrite <- (take_drop i v) in Hv. apply bytes_at_app in Hv as [_ Hd].
      rewrite length_take, Nat.min_l in Hd by lia. done. }
    replace (p + 16 * Z.of_nat k + 8) with (p + Z.of_nat (16 * k + 8)) by lia.
    replace (p + 16 * Z.of_nat k) with (p + Z.of_nat (16 * k)) by lia.
    rewrite !Hld by lia. cbn [run_bind].
    replace (16 * Z.of_nat k + 16) with (16 * Z.of_nat (S k)) by lia. rewrite IH by lia.
    destruct (Nat.eqb_spec k n); [lia|]. destruct (Nat.eqb_spec (S k) n) as [E|]; [|done].
    unfold last_pair. fold n. rewrite <- E. cbn [Nat.eqb]. by replace (S k - 1)%nat with k by lia.
  - destruct (Nat.eqb_spec k n); [done|lia].
Qed.

(** The memory: [GetMemory] finds the first child of the root whose name is
    "memory", with or without a unit address, and returns the last complete
    pair of 64-bit numbers of its [reg]; the errors are those of a missing node
    and of a missing property. *)
Theorem memory_is_last_reg_pair m fdt root strs names :
  device_tree m fdt (tree_tokens root) strs names ->
  GetMemory fdt m =
    Ret m (match split_child (text "memory") (children_of root) with
           | None => inr kFdtNodeNotFound
           | Some (_, t, _) =>
               match first_prop names (text "reg") (props_of t) with
               | None => inr kFdtPropertyNotFound
               | Some v => inl (last_pair v)
               end
           end).
Proof.
  intros D. apply query_Ret; [apply D|]. unfold and_then at 1, FindNode.
  change (lit "/memory"%string) with (path_text [text "memory"]).
  rewrite (resolved_path m fdt root strs names _ D); [|repeat constructor; [done|]|done].
  2:{ apply (bool_decide_unpack _). by vm_compute. }
  cbn [run_bind]. cbn [resolve].
  destruct (split_child (text "memory") (children_of root)) as [[[b t] a]|] eqn:Es; [|done].
  cbn [mbind option_bind].
  set (pre := [] ++ TBegin (name_of root) :: (prop_token <$> props_of root) ++ flat_map tokens b).
  pose proof (pos_nonneg pre). destruct (Z.ltb_spec (pos pre) 0); [lia|]. cbn [run_bind].
  assert (resolve [] root [text "memory"] = Some (pre, t)) as Er by (cbn [resolve]; by rewrite Es).
  unfold transform, and_then, GetRegProperty.
  pose proof (resolved_property m fdt root strs names _ _ _ (text "reg") D Er) as Hp.
  destruct (first_prop names (text "reg") (props_of t)) as [v|].
  - destruct Hp as (p & ? & -> & _ & Hv). cbn [run_bind].
    destruct (Z.eqb_spec p nullptr); [unfold nullptr in *; lia|]. unfold data.
    pose proof (reg_loop_in m (p + 12) v Hv (S (Z.to_nat (Z.of_nat (List.length v)))) 0 0 0) as Hr.
    change (16 * Z.of_nat 0) with 0 in Hr. rewrite Hr; [|lia|].
    + cbn [run_bind]. f_equal. f_equal. unfold last_pair. by destruct (List.length v / 16)%nat.
    + rewrite Nat2Z.id. pose proof (Nat.div_le_upper_bound (List.length v) 16 (List.length v)). lia.
  - destruct Hp as (e & -> & _ & _). done.
Qed.

End KernelFdtProps.
