(* ===== verification/FdtSample.v ===== *)
(** * Sample device trees

    A tree with one memory region and two cores, on which the theorems of the
    device-tree files are applied, and a blob that is cut off behind a
    property. *)

From stdpp Require Import base numbers list gmap.
From Stdlib Require Import ZArith Lia Ascii String.
From S2P Require Import Prelude CMem CString Errors Libfdt LibfdtRo LibfdtSafe LibfdtRoSafe KernelFdt KernelFdtSafe FdtSpec FdtNodes FdtTree FdtBlob KernelFdtProps.
Import CString Errors Libfdt LibfdtRo LibfdtSafe LibfdtRoSafe KernelFdt KernelFdtSafe FdtSpec FdtNodes FdtTree FdtBlob KernelFdtProps.

Local Open Scope Z_scope.

Module FdtSample.

Definition sample_strings : list Z := text "device_type" ++ [0] ++ text "reg" ++ [0].

Definition sample_names (o : Z) : list Z :=
  if o =? 0 then text "device_type" else text "reg".

(** Two regions of 256 MiB at 2 GiB and 4 GiB. *)
Definition sample_reg : list Z :=
  words [0; 2147483648; 0; 268435456; 1; 0; 0; 268435456].

Definition sample_root : tree :=
  Node [] []
    [Node (text "memory@80000000") [(0, text "memory" ++ [0]); (12, sample_reg)] [];
     Node (text "cpus") []
       [Node (text "cpu@0") [(0, text "cpu" ++ [0])] [];
        Node (text "cpu@1") [(0, text "cpu" ++ [0])] []]].

Definition sample_blob : list Z := dtb (tree_tokens sample_root) sample_strings.

(** The blob at 4096, with a few readable bytes behind it. *)
Definition sample_mem : mem := write_bytes 4096 (sample_blob ++ replicate 5 0) ∅.

Lemma byte_mem_write a bs :
  Forall (fun b => 0 <= b < 256) bs -> byte_mem (write_bytes a bs ∅).
Proof.
  intros H p b. rewrite write_bytes_lookup. case_decide; [|done].
  intros Hb. rewrite Forall_forall in H. apply H. by eapply list_elem_of_lookup_2.
Qed.

Lemma range_write a bs : range (write_bytes a bs ∅) a (a + Z.of_nat (List.length bs)).
Proof.
  intros p Hp. rewrite write_bytes_lookup, decide_True by done. apply lookup_lt_is_Some. lia.
Qed.

Lemma sample_tree : device_tree sample_mem 4096 (tree_tokens sample_root) sample_strings sample_names.
Proof.
  constructor.
  - apply byte_mem_write. apply (bool_decide_unpack _). by vm_compute.
  - done.
  - done.
  - unfold sample_mem. pose proof (write_bytes_at ∅ 4096 (sample_blob ++ replicate 5 0)) as H.
    by apply bytes_at_app in H as [H _].
  - by vm_compute.
  - repeat constructor; vm_compute; by repeat constructor.
  - intros o v Hin.
    assert (o = 0 \/ o = 12) as [-> | ->].
    { assert (Forall (fun t => match t with TProp o _ => o = 0 \/ o = 12 | _ => True end)
        (tree_tokens sample_root)) as H by (repeat constructor; auto).
      rewrite Forall_forall in H. exact (H _ Hin). }
    + exists [], (text "reg" ++ [0]). split_and!; [done|done|]. vm_compute. by repeat constructor.
    + exists (text "device_type" ++ [0]), []. split_and!; [done|done|]. vm_compute. by repeat constructor.
Qed.

Lemma sample_accepted slack : 0 <= slack <= 5 -> accepted slack sample_mem 4096.
Proof.
  intros Hs. split_and!; [done|apply sample_tree|by eapply header_ok, sample_tree|].
  exists (Z.of_nat (List.length sample_blob)). split; [by vm_compute|].
  eapply range_sub; [apply range_write|done|]. rewrite length_app, length_replicate. lia.
Qed.

Lemma device_tree_walk_terminates_witness :
  (exists tag next, fdt_next_tag sample_mem 4096 8 = Done (tag, next) /\
    ((tag = FDT_END /\ next < 0) \/
     (8 + 4 <= next <= 256 /\ next mod 4 = 0 /\
      tag ∈ [FDT_BEGIN_NODE; FDT_END_NODE; FDT_PROP; FDT_NOP; FDT_END]))) /\
  (exists r depth', fdt_next_node sample_mem 4096 8 (Some 0) = Done (r, depth') /\
    (r < 0 \/ (8 < r <= 256 /\ r mod 4 = 0))).
Proof.
  apply (device_tree_walk_terminates sample_mem 4096 256 8 (Some 0)).
  - by apply sample_accepted.
  - by vm_compute.
  - done.
Defined.

Lemma property_data_in_blob_witness :
  exists p len, fdt_getprop sample_mem 4096 8 (text "reg") = Done (p, len) /\
    ((p = nullptr /\ len <= 0) \/ (4096 <= p /\ 0 <= len /\ p + len <= 4096 + 256)).
Proof.
  apply (property_data_in_blob sample_mem 4096 256 8 (text "reg")).
  - by apply sample_accepted.
  - by vm_compute.
  - done.
Defined.

Lemma kernel_fdt_queries_return_witness :
  accepted 5 sample_mem 4096 /\ (exists r, GetPlic 4096 sample_mem = Ret sample_mem r) /\
  exists r, CheckPSCI 4096 sample_mem = Ret sample_mem r.
Proof.
  assert (accepted 5 sample_mem 4096) as H by (by apply sample_accepted).
  split; [done|]. destruct (kernel_fdt_queries_return sample_mem 4096 [] H) as (_ & _ & P & _ & _ & _ & _ & _ & _ & _ & G).
  split; [exact G|]. apply (P (Z.of_nat (List.length sample_blob)) (4096 + Z.of_nat (List.length sample_blob)));
    [by vm_compute|lia|by vm_compute|].
  eapply range_sub; [apply range_write|lia|]. rewrite length_app, length_replicate. lia.
Defined.

Lemma structure_block_roundtrip_witness :
  fdt_check_header sample_mem 4096 = Done 0 /\
  read_tokens sample_mem 4096 (S (List.length (tokens sample_root))) 0 =
    Done (tokens sample_root ++ [TStop]).
Proof.
  apply (structure_block_roundtrip sample_mem 4096 (tokens sample_root) sample_strings sample_names).
  - apply sample_tree.
  - rewrite list_elem_of_In. vm_compute. intuition discriminate.
Defined.

Lemma core_count_counts_cpus_witness : GetCoreCount 4096 sample_mem = Ret sample_mem (inl 2).
Proof.
  rewrite (core_count_counts_cpus sample_mem 4096 sample_root sample_strings sample_names sample_tree
    ltac:(intros t Ht; apply list_elem_of_In in Ht; simpl in Ht;
      destruct Ht as [<-|[<-|[<-|[<-|[<-|[]]]]]]; intros v Hv; vm_compute in Hv; try discriminate Hv;
      injection Hv as <-; [exists (text "memory")|exists (text "cpu")|exists (text "cpu")];
      (split; [reflexivity|vm_compute; repeat constructor]))).
  f_equal; by vm_compute.
Defined.

(** The first core: [/cpus/cpu]. *)
Definition cpu_path : list (list Z) := [text "cpus"; text "cpu"].

Lemma cpu_resolves :
  exists pre t, resolve [] sample_root cpu_path = Some (pre, t) /\
    first_prop sample_names (text "device_type") (props_of t) = Some (text "cpu" ++ [0]).
Proof. eexists _, _. split; vm_compute; reflexivity. Qed.

Lemma path_lookup_follows_tree_witness :
  exists o p, fdt_path_offset sample_mem 4096 (path_text cpu_path) = Done o /\
    fdt_getprop sample_mem 4096 o (text "device_type") =
      Done (p, Z.of_nat (List.length (text "cpu" ++ [0]))) /\
    bytes_at sample_mem p (text "cpu" ++ [0]).
Proof.
  pose proof (path_lookup_follows_tree sample_mem 4096 sample_root sample_strings sample_names
    cpu_path (text "device_type") sample_tree) as H.
  destruct cpu_resolves as (pre & t & E & Et). rewrite E, Et in H. exists (pos pre).
  destruct H as [Hp (p & Hg & Hv)]; [|discriminate|exists p; exact (conj Hp (conj Hg Hv))].
  repeat constructor; try discriminate; rewrite list_elem_of_In; vm_compute; intuition discriminate.
Defined.

Lemma memory_is_last_reg_pair_witness :
  GetMemory 4096 sample_mem = Ret sample_mem (inl (4294967296, 268435456)).
Proof.
  rewrite (memory_is_last_reg_pair sample_mem 4096 sample_root sample_strings sample_names sample_tree).
  f_equal; by vm_compute.
Defined.

(** ** A blob that ends behind a property *)

(** The strings come first; the structure block is one open node with a
    [device_type] without a value. *)
Definition cut_blob : list Z :=
  words [FDT_MAGIC; 88; 68; 56; 40; 17; 16; 0; 12; 20] ++ replicate 16 0 ++
  text "device_type" ++ [0] ++ encs [TBegin []; TProp 0 []].

Definition cut_mem : mem := write_bytes 4096 cut_blob ∅.

Lemma query_Fault {A} fdt (r : mem -> run A) m :
  0 <? fdt = true -> r m = Fault -> query fdt r m = Halt m (BadPointer fdt).
Proof.
  intros Hf%Z.ltb_lt Hr. unfold query, reading. simpl.
  destruct (Z.eqb_spec fdt nullptr); [unfold nullptr in *; lia|]. simpl. by rewrite Hr.
Qed.

Lemma ctor_Ret fdt m :
  0 <? fdt = true -> fdt_check_header m fdt = Done 0 -> returns (fdt_totalsize m fdt) (fun _ => True) ->
  KernelFdt_ctor fdt m = Ret m tt.
Proof.
  intros Hf%Z.ltb_lt Hh Ht. unfold KernelFdt_ctor.
  assert (query fdt (ValidateFdtHeader fdt) m = Ret m (inl tt)) as Hq.
  { apply query_Ret; [done|]. unfold ValidateFdtHeader. by rewrite Hh. }
  unfold bind at 1. rewrite Hq. apply returns_ex in Ht as (n & Ht & _).
  unfold reading. simpl. by rewrite Ht.
Qed.

(** The core count trusts the property: [CountNodesByDeviceType] compares the
    value with [strcmp] and never looks at its length.  On a blob that the
    constructor accepts and that ends behind an empty [device_type] property the
    comparison reads past the end of the blob. *)
Theorem core_count_reads_past_blob :
  accepted 0 cut_mem 4096 /\ KernelFdt_ctor 4096 cut_mem = Ret cut_mem tt /\
  cut_mem !! (4096 + 88) = None /\
  GetCoreCount 4096 cut_mem = Halt cut_mem (BadPointer 4096).
Proof.
  split_and!; [|by apply ctor_Ret; vm_compute|by vm_compute|by apply query_Fault; vm_compute].
  split_and!; [done| |vm_compute; reflexivity|].
  - apply byte_mem_write. apply (bool_decide_unpack _). by vm_compute.
  - exists 88. split; [by vm_compute|]. apply range_write.
Qed.

(** ** A method that is not terminated *)

(** A node [psci] with an empty [method] at the end of the blob, and five bytes
    behind it that are not zero. *)
Definition psci_blob : list Z :=
  words [FDT_MAGIC; 96; 64; 56; 40; 17; 16; 0; 8; 32] ++ replicate 16 0 ++
  text "method" ++ [0; 0] ++ encs [TBegin []; TBegin (text "psci"); TProp 0 []].

Definition psci_mem : mem := write_bytes 4096 (psci_blob ++ replicate 5 1) ∅.

(** [CheckPSCI] logs the method as a string before it looks at it: on a blob that
    the constructor accepts, with five readable bytes behind it, the message reads
    past them. *)
Theorem psci_log_reads_past_blob :
  accepted 5 psci_mem 4096 /\ KernelFdt_ctor 4096 psci_mem = Ret psci_mem tt /\
  CheckPSCI 4096 psci_mem = Halt psci_mem (BadPointer 4096).
Proof.
  split_and!; [|by apply ctor_Ret; vm_compute|by apply query_Fault; vm_compute].
  split_and!; [done| |vm_compute; reflexivity|].
  - apply byte_mem_write. apply (bool_decide_unpack _). by vm_compute.
  - exists 96. split; [by vm_compute|]. apply range_write.
Qed.

End FdtSample.
