(* ===== verification/TrapContext.v ===== *)
(** * Trap frames: src/3rd/cpu_io/include/{riscv64,aarch64}/context.hpp

    A trap frame is the array of 64-bit words that the entry code fills; here a
    function from the field to its value.  [word_index] is the position of a
    field, so that [sizeof] and the offsets of the source's assertions can be
    computed.  The class [TrapContext] is what the kernel asks of a frame: the
    three accessors that are common to the architectures and the registers of
    the system call convention (src/src/arch/{riscv64,aarch64}/syscall.cpp). *)

From stdpp Require Import base numbers list functions.
From Stdlib Require Import ZArith Lia.
From S2P Require Import Prelude.

Local Open Scope Z_scope.

(** ** The interface *)

Class TrapContext (R : Type) `{EqDecision R} := {
  UserStackPointer_reg : R;
  ThreadPointer_reg : R;
  ReturnValue_reg : R;
  syscall_id_reg : R;
  arg_regs : list R;
  pc_reg : R;
  sizeof_context : Z;
  (** What the clients rely on: a result register that is not the program
      counter, six arguments of which the first is the result register. *)
  return_not_pc : ReturnValue_reg <> pc_reg;
  six_args : length arg_regs = 6%nat;
  first_arg : head arg_regs = Some ReturnValue_reg;
  id_kept : syscall_id_reg <> ReturnValue_reg /\ syscall_id_reg <> pc_reg
}.

(** ** riscv64 *)

Module Riscv64Frame.

Inductive reg :=
| ra | sp | gp | tp | t0 | t1 | t2 | s0 | s1 | a0 | a1 | a2 | a3 | a4 | a5 | a6 | a7 | s2
| s3 | s4 | s5 | s6 | s7 | s8 | s9 | s10 | s11 | t3 | t4 | t5 | t6 | f0 | f1 | f2 | f3 | f4
| f5 | f6 | f7 | f8 | f9 | f10 | f11 | f12 | f13 | f14 | f15 | f16 | f17 | f18 | f19 | f20
| f21 | f22 | f23 | f24 | f25 | f26 | f27 | f28 | f29 | f30 | f31 | fcsr | sstatus | sepc
| stval | scause.

Definition word_index (r : reg) : nat :=
  match r with
  | ra => 0 | sp => 1 | gp => 2 | tp => 3 | t0 => 4 | t1 => 5 | t2 => 6 | s0 => 7 | s1 => 8
  | a0 => 9 | a1 => 10 | a2 => 11 | a3 => 12 | a4 => 13 | a5 => 14 | a6 => 15 | a7 => 16
  | s2 => 17 | s3 => 18 | s4 => 19 | s5 => 20 | s6 => 21 | s7 => 22 | s8 => 23 | s9 => 24
  | s10 => 25 | s11 => 26 | t3 => 27 | t4 => 28 | t5 => 29 | t6 => 30 | f0 => 31 | f1 => 32
  | f2 => 33 | f3 => 34 | f4 => 35 | f5 => 36 | f6 => 37 | f7 => 38 | f8 => 39 | f9 => 40
  | f10 => 41 | f11 => 42 | f12 => 43 | f13 => 44 | f14 => 45 | f15 => 46 | f16 => 47
  | f17 => 48 | f18 => 49 | f19 => 50 | f20 => 51 | f21 => 52 | f22 => 53 | f23 => 54
  | f24 => 55 | f25 => 56 | f26 => 57 | f27 => 58 | f28 => 59 | f29 => 60 | f30 => 61
  | f31 => 62 | fcsr => 63 | sstatus => 64 | sepc => 65 | stval => 66 | scause => 67
  end.

Definition words : list reg :=
  [
   ra; sp; gp; tp; t0; t1; t2; s0; s1; a0; a1; a2; a3; a4; a5; a6; a7; s2; s3; s4; s5; s6;
   s7; s8; s9; s10; s11; t3; t4; t5; t6; f0; f1; f2; f3; f4; f5; f6; f7; f8; f9; f10; f11;
   f12; f13; f14; f15; f16; f17; f18; f19; f20; f21; f22; f23; f24; f25; f26; f27; f28;
   f29; f30; f31; fcsr; sstatus; sepc; stval; scause].

Lemma words_index r : words !! word_index r = Some r.
Proof. by destruct r. Qed.

#[global] Instance reg_eq_dec : EqDecision reg.
Proof.
  refine (fun a b => match decide (word_index a = word_index b) with left E => left _ | right N => right _ end).
  - pose proof (words_index a) as H. rewrite E, words_index in H. by injection H.
  - by intros ->.
Defined.

#[global] Program Instance trap_context : TrapContext reg := {|
  UserStackPointer_reg := sp;
  ThreadPointer_reg := tp;
  ReturnValue_reg := a0;
  syscall_id_reg := a7;
  arg_regs := [a0; a1; a2; a3; a4; a5];
  pc_reg := sepc;
  sizeof_context := 8 * Z.of_nat (length words)
|}.
Solve All Obligations with done.

End Riscv64Frame.

(** ** aarch64 *)

Module Aarch64Frame.

(** [x i] is [x0]..[x30], [q i j] the [j]-th half of [q0]..[q31]. *)
Inductive sysreg :=
| x (i : nat) | padding0 | q (i j : nat) | fpsr | fpcr | padding1 (i : nat)
| elr_el1 | spsr_el1 | esr_el1 | sp_el0 | tpidr_el0 | ttbr0_el1 | sp_el1 | tpidr_el1.

#[global] Instance sysreg_eq_dec : EqDecision sysreg.
Proof. solve_decision. Defined.

Definition layout : list sysreg :=
  (x <$> seq 0 31) ++ [padding0] ++ flat_map (fun i => [q i 0; q i 1]) (seq 0 32) ++
  [fpsr; fpcr] ++ (padding1 <$> seq 0 6) ++
  [elr_el1; spsr_el1; esr_el1; sp_el0; tpidr_el0; ttbr0_el1; sp_el1; tpidr_el1].

#[global] Program Instance trap_context : TrapContext sysreg := {|
  UserStackPointer_reg := sp_el0;
  ThreadPointer_reg := tpidr_el0;
  ReturnValue_reg := x 0;
  syscall_id_reg := x 8;
  arg_regs := [x 0; x 1; x 2; x 3; x 4; x 5];
  pc_reg := elr_el1;
  sizeof_context := 8 * Z.of_nat (length layout)
|}.
Solve All Obligations with done.

End Aarch64Frame.

(** The assertions at the end of the two headers, and what the comments say of
    the alignment of the vector registers and the system registers. *)
Lemma frame_sizes :
  sizeof_context (R := Riscv64Frame.reg) = 544 /\ sizeof_context (R := Aarch64Frame.sysreg) = 896 /\
  Aarch64Frame.layout !! (256 / 8)%nat = Some (Aarch64Frame.q 0 0) /\
  exists i, Aarch64Frame.layout !! (2 * i)%nat = Some Aarch64Frame.elr_el1.
Proof. split; [reflexivity|]. split; [reflexivity|]. split; [reflexivity|]. by exists 52%nat. Qed.
