(* ===== verification/Syscall.v ===== *)
(** * System calls: src/src/syscall.cpp, src/src/include/syscall.hpp,
      src/src/arch/{riscv64,aarch64}/syscall.cpp

    A call enters with the trap frame of the calling task, is dispatched on the
    number in the frame, works on the kernel of TaskManager.v, on the memory of
    the caller and on the console, and leaves its result in the frame.  A call
    that gives up the processor ends in the model at the point where the core
    switches to another task: it answers [Resumes v] and the rest of the handler
    ([finish]) runs when the task is scheduled again.

    Logging is not modelled, but the reads of its arguments are. *)

From stdpp Require Import base numbers list gmap functions strings.
From Stdlib Require Import ZArith Lia.
From S2P Require Import Prelude CMem Errors ResourceId Tcb TaskManager TrapContext.
Import Tcb TaskManager.

Local Open Scope Z_scope.

Module Syscall.

(** ** Numbers *)

Record SyscallNumbers := MkNumbers {
  SYSCALL_WRITE : Z;
  SYSCALL_EXIT : Z;
  SYSCALL_YIELD : Z;
  SYSCALL_CLONE : Z;
  SYSCALL_GETTID : Z;
  SYSCALL_FUTEX : Z;
  SYSCALL_SET_TID_ADDRESS : Z;
  SYSCALL_FORK : Z
}.

(** riscv64 and aarch64 *)
Definition generic_numbers : SyscallNumbers := MkNumbers 64 93 124 220 178 98 96 1220.
Definition x86_64_numbers : SyscallNumbers := MkNumbers 1 60 24 56 186 202 218 57.

Definition all_numbers (n : SyscallNumbers) : list Z :=
  [SYSCALL_WRITE n; SYSCALL_EXIT n; SYSCALL_YIELD n; SYSCALL_CLONE n; SYSCALL_FORK n;
   SYSCALL_GETTID n; SYSCALL_SET_TID_ADDRESS n; SYSCALL_FUTEX n].

(** [constexpr int FUTEX_...] *)
Definition FUTEX_WAIT : Z := 0.
Definition FUTEX_WAKE : Z := 1.
Definition FUTEX_REQUEUE : Z := 3.

(** ** State *)

(** The kernel, the trap frames by address, the memory behind the pointers that
    callers pass, and what was printed. *)
Record Sys (R : Type) := MkSys {
  kern : Kernel;
  frames : gmap ptr (R -> Z);
  user : mem;
  console : list Z
}.
Arguments MkSys {R} kern frames user console.
Arguments kern {R} s.
Arguments frames {R} s.
Arguments user {R} s.
Arguments console {R} s.

Definition set_kern {R} (v : Kernel) (s : Sys R) : Sys R := MkSys v (frames s) (user s) (console s).
Definition set_frames {R} (v : gmap ptr (R -> Z)) (s : Sys R) : Sys R := MkSys (kern s) v (user s) (console s).
Definition set_user {R} (v : mem) (s : Sys R) : Sys R := MkSys (kern s) (frames s) v (console s).
Definition set_console {R} (v : list Z) (s : Sys R) : Sys R := MkSys (kern s) (frames s) (user s) v.

(** How a call ends: it returns, or the task has left the core and the call
    returns when the task runs again. *)
Inductive sys_result :=
| Returns (v : Z)
| Resumes (v : Z).

Section calls.
Context {R : Type} `{TrapContext R}.
(** As in TaskManager.v: the address of the thread entry code, the page table
    copy and the memory for its control block and its stack. *)
Context (kernel_thread_entry : Z).
Context (ClonePageDirectory : ptr -> Expected ptr) (mem : CloneMemory).

Abbreviation SM A := (M (Sys R) A) (only parsing).

Definition on_kernel {A} (m : KM A) : SM A := fun s =>
  match m (kern s) with
  | Ret k a => Ret (set_kern k s) a
  | Halt k w => Halt (set_kern k s) w
  end.

(** [*p] for an [n]-byte little-endian integer. *)
Definition load (n : nat) (p : ptr) : SM Z := fun s =>
  match load_le n (user s) p with
  | Some v => Ret s v
  | None => Halt s (BadPointer p)
  end.

(** [*p = v] *)
Definition store (n : nat) (p : ptr) (v : Z) : SM unit := fun s =>
  match load_le n (user s) p with
  | Some _ => Ret (set_user (write_bytes p (le_bytes n v) (user s)) s) tt
  | None => Halt s (BadPointer p)
  end.

Definition frame_at (p : ptr) : SM (R -> Z) := fun s =>
  match frames s !! p with
  | Some f => Ret s f
  | None => Halt s (BadPointer p)
  end.

Definition upd_frame (p : ptr) (g : (R -> Z) -> R -> Z) : SM unit :=
  let* f := frame_at p in modify (fun s => set_frames (<[p := g f]> (frames s)) s).

(** A kernel operation that may switch to another task: the caller goes on at
    once only when the core was already running tasks and keeps this one. *)
Definition suspending (c : Z) (op : KM unit) (v : Z) : SM sys_result :=
  let* cur := on_kernel (GetCurrentTask c) in
  let* booted := on_kernel (gets boot_done) in
  let* _ := on_kernel op in
  let* next := on_kernel (GetCurrentTask c) in
  ret (if booted && (next =? cur) then Returns v else Resumes v).

(** ** The calls *)

(** [for (i = 0; i < len; ++i) nk_printf("%c", buf[i])] *)
Fixpoint write_chars (len : nat) (buf : ptr) : SM unit :=
  match len with
  | O => ret tt
  | S n =>
      let* b := load 1 buf in
      let* _ := modify (fun s => set_console (console s ++ [b]) s) in
      write_chars n (buf + 1)
  end.

Definition sys_write (fd : Z) (buf : ptr) (len : Z) : SM sys_result :=
  if (fd =? 1) || (fd =? 2) then
    let* _ := write_chars (Z.to_nat len) buf in
    ret (Returns (s32 len))
  else ret (Returns (-1)).

Definition sys_exit (c : Z) (code : Z) : SM sys_result :=
  let* cur := on_kernel (GetCurrentTask c) in
  let* _ := on_kernel (on_heap (tcb cur)) in
  suspending c (Exit kernel_thread_entry c code) 0.

Definition sys_yield (c : Z) : SM sys_result := suspending c (Schedule kernel_thread_entry c) 0.

Definition sys_sleep (c : Z) (ms : Z) : SM sys_result := suspending c (Sleep kernel_thread_entry c ms) 0.

(** The part of a trap frame that [Clone] reads and writes, and writing it back. *)
Definition trap_regs (f : R -> Z) : TrapRegs :=
  MkTrap (f UserStackPointer_reg) (f ThreadPointer_reg) (f ReturnValue_reg) [].
Definition with_trap_regs (x : TrapRegs) (f : R -> Z) : R -> Z :=
  <[ReturnValue_reg := ReturnValue x]> (<[ThreadPointer_reg := ThreadPointer x]>
    (<[UserStackPointer_reg := UserStackPointer x]> f)).

(** What [Clone] writes outside the kernel's own data: the caller's frame, the
    child's frame at the top of its new stack, and the thread ids. *)
Definition clone_writes (p : ptr) (f : R -> Z) (parent_tid child_tid : ptr) (r : clone_result) : SM unit :=
  let* _ := upd_frame p (with_trap_regs (clone_parent_frame r)) in
  let* _ := (match clone_child_frame r with
             | None => ret tt
             | Some x => modify (fun s => set_frames
                 (<[u64 (stack_memory mem + kDefaultKernelStackSize - sizeof_context (R := R)) := with_trap_regs x f]>
                    (frames s)) s)
             end) in
  match clone_tid r with
  | None => ret tt
  | Some tid =>
      let* _ := (if parent_tid =? nullptr then ret tt else store 4 parent_tid tid) in
      if child_tid =? nullptr then ret tt else store 4 child_tid tid
  end.

(** The common body of [sys_clone] and [sys_fork]. *)
Definition clone_call (c flags stack parent_tid child_tid tls : Z) : SM sys_result :=
  let* current := on_kernel (GetCurrentTask c) in
  if current =? nullptr then ret (Returns (-1))
  else
    let* t := on_kernel (on_heap (tcb current)) in
    if trap_context_ptr t =? nullptr then ret (Returns (-1))
    else
      let* f := frame_at (trap_context_ptr t) in
      let* r := on_kernel (Clone ClonePageDirectory mem (sizeof_context (R := R))
                             c flags stack tls (trap_regs f)) in
      match clone_pid r with
      | inr _ => ret (Returns (-1))
      | inl child_pid =>
          let* _ := clone_writes (trap_context_ptr t) f parent_tid child_tid r in
          if child_pid =? 0 then ret (Returns 0) else ret (Returns (s32 child_pid))
      end.

Definition sys_clone (c flags stack parent_tid child_tid tls : Z) : SM sys_result :=
  clone_call c flags stack parent_tid child_tid tls.

Definition sys_fork (c : Z) : SM sys_result := clone_call c 0 nullptr nullptr nullptr nullptr.

Definition sys_gettid (c : Z) : SM sys_result :=
  let* current := on_kernel (GetCurrentTask c) in
  if current =? nullptr then ret (Returns (-1))
  else let* t := on_kernel (on_heap (tcb current)) in ret (Returns (s32 (pid t))).

(** [tidptr] is unused. *)
Definition sys_set_tid_address (c : Z) (tidptr : ptr) : SM sys_result :=
  let* current := on_kernel (GetCurrentTask c) in
  if current =? nullptr then ret (Returns (-1))
  else let* t := on_kernel (on_heap (tcb current)) in ret (Returns (s32 (pid t))).

(** [ResourceId futex_id(ResourceType::kFutex, uaddr)] *)
Definition futex_id (uaddr : ptr) : ResourceId.t := ResourceId.mk ResourceId.kFutex uaddr.

(** [timeout], [uaddr2] and [val3] are unused. *)
Definition sys_futex (c : Z) (uaddr : ptr) (op val : Z) : SM sys_result :=
  let cmd := Z.land op 0x7F in
  if cmd =? FUTEX_WAIT then
    let* v := load 4 uaddr in
    if s32 v =? val then suspending c (Block kernel_thread_entry c (futex_id uaddr)) 0
    else ret (Returns 0)
  else if cmd =? FUTEX_WAKE then
    let* _ := on_kernel (Wakeup c (futex_id uaddr)) in
    ret (Returns val)
  else if cmd =? FUTEX_REQUEUE then ret (Returns (-1))
  else ret (Returns (-1)).

(** The task that [sys_sched_getaffinity] and [sys_sched_setaffinity] work on;
    [static_cast<Pid>] of a negative [int] sign-extends. *)
Definition affinity_target (c : Z) (p : Z) : KM ptr :=
  if p =? 0 then GetCurrentTask c else FindTask c (u64 p).

Definition sys_sched_getaffinity (c : Z) (p cpusetsize : Z) (mask : ptr) : SM sys_result :=
  let* target := on_kernel (affinity_target c p) in
  if target =? nullptr then ret (Returns (-1))
  else if cpusetsize <? 8 then ret (Returns (-1))
  else
    let* t := on_kernel (on_heap (tcb target)) in
    let* _ := store 8 mask (cpu_affinity t) in
    ret (Returns 0).

Definition sys_sched_setaffinity (c : Z) (p cpusetsize : Z) (mask : ptr) : SM sys_result :=
  let* target := on_kernel (affinity_target c p) in
  if target =? nullptr then ret (Returns (-1))
  else if cpusetsize <? 8 then ret (Returns (-1))
  else
    let* v := load 8 mask in
    let* _ := on_kernel (on_heap (upd target (set_cpu_affinity v))) in
    ret (Returns 0).

(** ** Dispatch *)

Context (numbers : SyscallNumbers).

Definition arg (args : list Z) (i : nat) : Z := default 0 (args !! i).

Definition syscall_dispatcher (c : Z) (syscall_id : Z) (args : list Z) : SM sys_result :=
  if syscall_id =? SYSCALL_WRITE numbers then sys_write (s32 (arg args 0)) (arg args 1) (arg args 2)
  else if syscall_id =? SYSCALL_EXIT numbers then sys_exit c (s32 (arg args 0))
  else if syscall_id =? SYSCALL_YIELD numbers then sys_yield c
  else if syscall_id =? SYSCALL_CLONE numbers then
    sys_clone c (arg args 0) (arg args 1) (arg args 2) (arg args 3) (arg args 4)
  else if syscall_id =? SYSCALL_FORK numbers then sys_fork c
  else if syscall_id =? SYSCALL_GETTID numbers then sys_gettid c
  else if syscall_id =? SYSCALL_SET_TID_ADDRESS numbers then sys_set_tid_address c (arg args 0)
  else if syscall_id =? SYSCALL_FUTEX numbers then sys_futex c (arg args 0) (s32 (arg args 1)) (s32 (arg args 2))
  else ret (Returns (-1)).

(** The end of the handler: the result, and past the trapping instruction. *)
Definition finish (context_ptr : ptr) (v : Z) : SM unit :=
  let* _ := upd_frame context_ptr (fun f => <[ReturnValue_reg := u64 v]> f) in
  upd_frame context_ptr (fun f => <[pc_reg := u64 (f pc_reg + 4)]> f).

(** [Syscall(cause, context_ptr)]: [Some v] when the task was switched away and
    [finish context_ptr v] is still to run. *)
Definition Syscall (c : Z) (context_ptr : ptr) : SM (option Z) :=
  let* f := frame_at context_ptr in
  let* r := syscall_dispatcher c (s64 (f syscall_id_reg)) (f <$> arg_regs) in
  match r with
  | Returns v => let* _ := finish context_ptr v in ret None
  | Resumes v => ret (Some v)
  end.

End calls.
End Syscall.
