(* ===== verification/SyscallProps.v ===== *)
(** * Properties of the system calls

    What each call leaves in the caller's frame, and the futex calls as a
    protocol between tasks: a waiter stays parked through any run of its core
    until a wake call on the same address. *)

From stdpp Require Import base numbers list gmap functions strings.
From Stdlib Require Import ZArith Lia.
From S2P Require Import Prelude CMem Errors ResourceId SpinLock Tcb NkPriorityQueue NkUnorderedMap Schedulers TaskManager KernelInv KernelSpec KernelProps KernelRun TaskTable TaskLifecycle TrapContext Syscall.
Import Tcb Sched TaskManager KernelInv KernelSpec KernelProps KernelRun TaskTable TaskLifecycle Syscall.

Local Open Scope Z_scope.

Module SyscallProps.

(** ** Running the calls *)

Lemma NoDup_lookup_eqb (l : list Z) i j x y :
  NoDup l -> l !! i = Some x -> l !! j = Some y -> i <> j -> (x =? y) = false.
Proof. intros N Hi Hj Hn. apply Z.eqb_neq. intros ->. apply Hn. by eapply NoDup_lookup. Qed.

Section calls.
Context {R : Type} `{TrapContext R}.
Context (entry : Z) (ClonePageDirectory : ptr -> Expected ptr) (mem : CloneMemory) (numbers : SyscallNumbers).
Implicit Types (s : Sys R) (f : R -> Z) (p : ptr).

Abbreviation syscall := (Syscall entry ClonePageDirectory mem numbers).
Abbreviation dispatch := (syscall_dispatcher entry ClonePageDirectory mem numbers).

Lemma on_kernel_ret {A} (m : KM A) s k a : m (kern s) = Ret k a -> on_kernel m s = Ret (set_kern k s) a.
Proof. intros E. unfold on_kernel. by rewrite E. Qed.

Lemma set_kern_id s : set_kern (kern s) s = s.
Proof. by destruct s. Qed.

(** A kernel operation that only looks. *)
Lemma on_kernel_gets {A} (m : KM A) s a : m (kern s) = Ret (kern s) a -> on_kernel m s = Ret s a.
Proof. intros E. by rewrite (on_kernel_ret _ _ _ _ E), set_kern_id. Qed.

(** The frame after a call that answers [v]: the result register holds [v]
    and the program counter is past the trapping instruction. *)
Definition answered (v : Z) (f : R -> Z) : R -> Z :=
  <[pc_reg := u64 (f pc_reg + 4)]> (<[ReturnValue_reg := u64 v]> f).

Lemma answered_regs v f :
  answered v f ReturnValue_reg = u64 v /\ answered v f pc_reg = u64 (f pc_reg + 4) /\
  forall r, r <> ReturnValue_reg -> r <> pc_reg -> answered v f r = f r.
Proof.
  pose proof return_not_pc. unfold answered. split_and!.
  - by rewrite fn_lookup_insert_ne, fn_lookup_insert.
  - by rewrite fn_lookup_insert.
  - intros r H1 H2. by rewrite !fn_lookup_insert_ne.
Qed.

Lemma finish_answers p v s f : frames s !! p = Some f ->
  finish p v s = Ret (set_frames (<[p := answered v f]> (frames s)) s) tt.
Proof.
  intros E. unfold finish, upd_frame, frame_at. cbn. rewrite E. cbn. rewrite lookup_insert_eq. cbn.
  unfold answered. rewrite insert_insert_eq.
  rewrite (fn_lookup_insert_ne _ ReturnValue_reg pc_reg) by (pose proof return_not_pc; done). done.
Qed.

Lemma syscall_returns c p s f s' v :
  frames s !! p = Some f -> frames s' = frames s ->
  dispatch c (s64 (f syscall_id_reg)) (f <$> arg_regs) s = Ret s' (Returns v) ->
  syscall c p s = Ret (set_frames (<[p := answered v f]> (frames s)) s') None.
Proof.
  intros E Ef Ed. unfold Syscall.Syscall, frame_at. cbn. rewrite E. cbn. rewrite Ed. cbn.
  rewrite (finish_answers p v s' f) by (by rewrite Ef). cbn. by rewrite Ef.
Qed.

Lemma syscall_resumes c p s f s' v :
  frames s !! p = Some f ->
  dispatch c (s64 (f syscall_id_reg)) (f <$> arg_regs) s = Ret s' (Resumes v) ->
  syscall c p s = Ret s' (Some v).
Proof. intros E Ed. unfold Syscall.Syscall, frame_at. cbn. rewrite E. cbn. by rewrite Ed. Qed.

(** The numbers of an architecture differ. *)
Context (Hnum : NoDup (all_numbers numbers)).

Lemma dispatch_futex c args s :
  dispatch c (SYSCALL_FUTEX numbers) args s = sys_futex entry c (arg args 0) (s32 (arg args 1)) (s32 (arg args 2)) s.
Proof.
  unfold syscall_dispatcher.
  rewrite (NoDup_lookup_eqb _ 7 0 _ _ Hnum), (NoDup_lookup_eqb _ 7 1 _ _ Hnum), (NoDup_lookup_eqb _ 7 2 _ _ Hnum),
    (NoDup_lookup_eqb _ 7 3 _ _ Hnum), (NoDup_lookup_eqb _ 7 4 _ _ Hnum), (NoDup_lookup_eqb _ 7 5 _ _ Hnum),
    (NoDup_lookup_eqb _ 7 6 _ _ Hnum) by done. by rewrite Z.eqb_refl.
Qed.

Lemma dispatch_exit c args s :
  dispatch c (SYSCALL_EXIT numbers) args s = sys_exit entry c (s32 (arg args 0)) s.
Proof.
  unfold syscall_dispatcher. rewrite (NoDup_lookup_eqb _ 1 0 _ _ Hnum) by done. by rewrite Z.eqb_refl.
Qed.

Lemma dispatch_clone c id args s : id = SYSCALL_CLONE numbers \/ id = SYSCALL_FORK numbers ->
  dispatch c id args s =
    (if id =? SYSCALL_CLONE numbers
     then sys_clone ClonePageDirectory mem c (arg args 0) (arg args 1) (arg args 2) (arg args 3) (arg args 4)
     else sys_fork ClonePageDirectory mem c) s.
Proof.
  unfold syscall_dispatcher. intros [->| ->].
  - rewrite (NoDup_lookup_eqb _ 3 0 _ _ Hnum), (NoDup_lookup_eqb _ 3 1 _ _ Hnum), (NoDup_lookup_eqb _ 3 2 _ _ Hnum) by done.
    by rewrite Z.eqb_refl.
  - rewrite (NoDup_lookup_eqb _ 4 0 _ _ Hnum), (NoDup_lookup_eqb _ 4 1 _ _ Hnum), (NoDup_lookup_eqb _ 4 2 _ _ Hnum),
      (NoDup_lookup_eqb _ 4 3 _ _ Hnum) by done. by rewrite Z.eqb_refl.
Qed.

Lemma dispatch_tid c id args s : id = SYSCALL_GETTID numbers \/ id = SYSCALL_SET_TID_ADDRESS numbers ->
  dispatch c id args s = sys_gettid c s.
Proof.
  unfold syscall_dispatcher. intros [->| ->].
  - rewrite (NoDup_lookup_eqb _ 5 0 _ _ Hnum), (NoDup_lookup_eqb _ 5 1 _ _ Hnum), (NoDup_lookup_eqb _ 5 2 _ _ Hnum),
      (NoDup_lookup_eqb _ 5 3 _ _ Hnum), (NoDup_lookup_eqb _ 5 4 _ _ Hnum) by done. by rewrite Z.eqb_refl.
  - rewrite (NoDup_lookup_eqb _ 6 0 _ _ Hnum), (NoDup_lookup_eqb _ 6 1 _ _ Hnum), (NoDup_lookup_eqb _ 6 2 _ _ Hnum),
      (NoDup_lookup_eqb _ 6 3 _ _ Hnum), (NoDup_lookup_eqb _ 6 4 _ _ Hnum), (NoDup_lookup_eqb _ 6 5 _ _ Hnum) by done.
    by rewrite Z.eqb_refl.
Qed.

Lemma dispatch_unknown c id args s : id ∉ all_numbers numbers -> dispatch c id args s = Ret s (Returns (-1)).
Proof.
  unfold all_numbers. rewrite !not_elem_of_cons. intros (? & ? & ? & ? & ? & ? & ? & ? & _).
  unfold syscall_dispatcher. by rewrite !(proj2 (Z.eqb_neq _ _)) by done.
Qed.

(** [write] prints the bytes of the buffer in order. *)
Lemma write_chars_spec bs : forall s buf, bytes_at (user s) buf bs ->
  write_chars (length bs) buf s = Ret (set_console (console s ++ bs) s) tt.
Proof.
  induction bs as [|b bs IH]; intros s buf Hb.
  - cbn. rewrite app_nil_r. by destruct s.
  - apply bytes_at_cons in Hb as [E Hb]. cbn [length write_chars bind]. unfold load at 1. cbn [load_le].
    rewrite E. cbn. rewrite Z.mul_0_r, Z.add_0_r.
    rewrite IH by done. cbn. by rewrite <- (assoc_L (++)).
Qed.

Lemma gettid_spec c s t :
  tcbs (kern s) !! running_task (percpu (kern s) c) = Some t -> running_task (percpu (kern s) c) <> nullptr ->
  sys_gettid c s = Ret s (Returns (s32 (pid t))).
Proof.
  intros Et Hz. unfold sys_gettid. cbn [bind]. rewrite (on_kernel_gets _ _ (running_task (percpu (kern s) c))) by done.
  rewrite (proj2 (Z.eqb_neq _ _) Hz). cbn [bind].
  by rewrite (on_kernel_gets _ _ t) by (by apply on_heap_tcb).
Qed.

(** ** Futex *)

(** A call that blocks: the task waits, the core runs another one. *)
Lemma suspend_block c rid s F r i t v :
  live c (kern s) F r i t -> running_task (percpu (kern s) c) <> idle_task (percpu (kern s) c) ->
  exists k, suspending c (Block entry c rid) v s = Ret (set_kern k s) (Resumes v) /\
    step entry c (OpBlock rid) (kern s) k /\ running_task (percpu (kern s) c) ∈ waiters k c rid.
Proof.
  intros L Hn. pose proof L as [Hc Hl Ok Et _]. pose proof (live_running _ _ _ _ _ _ L Hn) as St.
  destruct (block_parks_the_task entry c rid (kern s) F r i t Hc Hl Ok Et St Hn)
    as (k & f' & r' & i' & t' & E & _ & _ & _ & Hne & _ & _ & _ & _ & _ & W & _).
  exists k. unfold suspending. cbn [bind].
  rewrite (on_kernel_gets _ s (running_task (percpu (kern s) c))) by done. cbn [bind].
  rewrite (on_kernel_gets _ s (boot_done (kern s))) by done. cbn [bind].
  rewrite (on_kernel_ret _ s k tt E). cbn [bind]. rewrite (on_kernel_gets _ (set_kern k s) (running_task (percpu k c))) by done.
  cbn. rewrite (proj2 (Z.eqb_neq _ _) Hne), andb_false_r. split; [done|]. split.
  - constructor; [|done]. cbn. by apply negb_true_iff, Z.eqb_neq.
  - rewrite W. apply elem_of_app. right. by left.
Qed.

Lemma futex_wait_call c s F r i t uaddr op v :
  live c (kern s) F r i t -> running_task (percpu (kern s) c) <> idle_task (percpu (kern s) c) ->
  Z.land op 0x7F = FUTEX_WAIT -> load_le 4 (user s) uaddr = Some v ->
  exists k, sys_futex entry c uaddr op (s32 v) s = Ret (set_kern k s) (Resumes 0) /\
    step entry c (OpBlock (futex_id uaddr)) (kern s) k /\
    running_task (percpu (kern s) c) ∈ waiters k c (futex_id uaddr).
Proof.
  intros L Hn Ho Ev. destruct (suspend_block c (futex_id uaddr) s F r i t 0 L Hn) as (k & E & Hk).
  exists k. split; [|done]. unfold sys_futex. rewrite Ho, Z.eqb_refl. cbn [bind]. unfold load. rewrite Ev. cbn [bind].
  by rewrite Z.eqb_refl.
Qed.

Lemma futex_wake_call c s F r i t uaddr op val :
  live c (kern s) F r i t -> Z.land op 0x7F = FUTEX_WAKE ->
  exists k, sys_futex entry c uaddr op val s = Ret (set_kern k s) (Returns val) /\
    step entry c (OpWakeup (futex_id uaddr)) (kern s) k /\ frame c (kern s) k /\ waiters k c (futex_id uaddr) = [] /\
    forall p, p ∈ waiters (kern s) c (futex_id uaddr) -> exists n, tcbs k !! p = Some n /\ status n = kReady.
Proof.
  intros L Ho. pose proof L as [Hc Hl Ok Et _].
  destruct (wakeup_spec c (futex_id uaddr) (kern s) F r i t Hc Hl Ok Et)
    as (k & f' & r' & E & Fr & _ & _ & _ & Em & Rd & _); [by eapply live_not|].
  exists k. split.
  { unfold sys_futex. rewrite Ho. change (FUTEX_WAKE =? FUTEX_WAIT) with false. rewrite Z.eqb_refl. cbn [bind].
    by rewrite (on_kernel_ret _ s k tt E). }
  split; [by constructor|]. split; [done|]. split; [unfold waiters; by rewrite Em, lookup_delete_eq|].
  intros p Hp. destruct (Rd p Hp) as [_ (n & En & Sn & _)]. by exists n.
Qed.

End calls.

(** Addresses that the paging hardware accepts: the upper 17 bits are equal. *)
Definition canonical (a : Z) : Prop := 0 <= a < 2 ^ 47 \/ 2 ^ 64 - 2 ^ 47 <= a < 2 ^ 64.

(** The 56 bits of an address that a resource id keeps are enough for them. *)
Lemma futex_id_inj a b : canonical a -> canonical b -> futex_id a = futex_id b -> a = b.
Proof.
  unfold futex_id, canonical. rewrite !ResourceId.mk_eq. intros Ha Hb E.
  assert (forall x, canonical x -> x mod 2 ^ 56 = x \/ x mod 2 ^ 56 = x - (2 ^ 64 - 2 ^ 56) /\ 2 ^ 64 - 2 ^ 47 <= x) as Hm.
  { intros x [Hx|Hx]; [left; apply Z.mod_small; lia|right]. split; [|lia].
    symmetry. apply (Z.mod_unique x (2 ^ 56) 255); lia. }
  destruct (Hm a Ha) as [E1|[E1 ?]], (Hm b Hb) as [E2|[E2 ?]]; rewrite E1, E2 in E; lia.
Qed.

(** ** Affinity *)

Lemma affinity_target_spec {R} c p x (s : Sys R) :
  free_lock (task_table_lock_ (kern s)) -> NkUnorderedMap.wf hash_id (task_table_ (kern s)) ->
  (if p =? 0 then running_task (percpu (kern s) c)
   else default nullptr (NkUnorderedMap.to_map (task_table_ (kern s)) !! u64 p)) = x ->
  exists k, on_kernel (affinity_target c p) s = Ret (set_kern k s) x /\ tcbs k = tcbs (kern s) /\
    task_table_ k = task_table_ (kern s) /\ free_lock (task_table_lock_ k) /\ percpu k = percpu (kern s).
Proof.
  intros L W Hx. unfold affinity_target. destruct (p =? 0).
  - exists (kern s). subst x. split; [|done]. rewrite set_kern_id. by apply on_kernel_gets.
  - exists (table_released c (table_held c (kern s))). split; [|done]. apply on_kernel_ret.
    apply table_guard_run; [done| |done]. cbn [gets table_held]. cbn.
    rewrite (NkUnorderedMap.find_to_map hash_id _ _ W). by rewrite Hx.
Qed.

(** ** Process life cycle *)

(** [write] to the standard output or error, of any length. *)
Lemma write_call {R : Type} `{TrapContext R} entry cpd mem numbers c (s : Sys R) p f bs :
  let a := arg (f <$> arg_regs) in
  frames s !! p = Some f -> s64 (f syscall_id_reg) = SYSCALL_WRITE numbers ->
  bytes_at (user s) (a 1%nat) bs -> a 2%nat = Z.of_nat (length bs) -> s32 (a 0%nat) = 1 \/ s32 (a 0%nat) = 2 ->
  Syscall entry cpd mem numbers c p s =
    Ret (set_frames (<[p := answered (s32 (a 2%nat)) f]> (frames s)) (set_console (console s ++ bs) s)) None.
Proof.
  intros a Ef Hi Hb Hl Ho. apply syscall_returns; [done..|]. rewrite Hi. unfold syscall_dispatcher. rewrite Z.eqb_refl.
  fold a. unfold sys_write. replace ((s32 (a 0%nat) =? 1) || (s32 (a 0%nat) =? 2)) with true
    by (symmetry; rewrite orb_true_iff, !Z.eqb_eq; done).
  cbn [bind]. rewrite Hl, Nat2Z.id, write_chars_spec by done. done.
Qed.

(** A task whose frame is at hand forks or clones: the answer, or the halt, of [Clone]. *)
Lemma clone_call_run {R : Type} `{TrapContext R} cpd mem c flags ustack ptid ctid tls (s : Sys R) t g :
  let cur := running_task (percpu (kern s) c) in
  cur <> nullptr -> tcbs (kern s) !! cur = Some t -> trap_context_ptr t <> nullptr ->
  frames s !! trap_context_ptr t = Some g ->
  let call := Clone cpd mem (sizeof_context (R := R)) c flags ustack tls (trap_regs g) (kern s) in
  (forall k e, call = Ret k (clone_error e (trap_regs g)) ->
     clone_call cpd mem c flags ustack ptid ctid tls s = Ret (set_kern k s) (Returns (-1))) /\
  (forall k w, call = Halt k w -> clone_call cpd mem c flags ustack ptid ctid tls s = Halt (set_kern k s) w).
Proof.
  intros cur Hz Et Ht Eg call. unfold clone_call. cbn [bind].
  rewrite (on_kernel_gets _ s cur) by done. rewrite (proj2 (Z.eqb_neq _ _) Hz). cbn [bind].
  rewrite (on_kernel_gets _ s t) by (by apply on_heap_tcb). rewrite (proj2 (Z.eqb_neq _ _) Ht). cbn [bind].
  unfold frame_at. rewrite Eg. cbn [bind]. unfold on_kernel. fold call.
  split; [intros k e ->|intros k w ->]; reflexivity.
Qed.

Lemma syscall_halts {R : Type} `{TrapContext R} entry cpd mem numbers c (s s' : Sys R) p f w :
  frames s !! p = Some f ->
  syscall_dispatcher entry cpd mem numbers c (s64 (f syscall_id_reg)) (f <$> arg_regs) s = Halt s' w ->
  Syscall entry cpd mem numbers c p s = Halt s' w.
Proof. intros Ef E. unfold Syscall.Syscall, frame_at. cbn [bind]. rewrite Ef. cbn [bind]. by rewrite E. Qed.

Lemma exit_call_halts {R : Type} `{TrapContext R} entry c code (s : Sys R) t k w :
  tcbs (kern s) !! running_task (percpu (kern s) c) = Some t ->
  Exit entry c code (kern s) = Halt k w -> sys_exit entry c code s = Halt (set_kern k s) w.
Proof.
  intros Et E. unfold sys_exit. cbn [bind]. rewrite (on_kernel_gets _ s (running_task (percpu (kern s) c))) by done. cbn [bind].
  rewrite (on_kernel_gets _ s t) by (by apply on_heap_tcb). unfold suspending. cbn [bind].
  rewrite (on_kernel_gets _ s (running_task (percpu (kern s) c))) by done. cbn [bind].
  rewrite (on_kernel_gets _ s (boot_done (kern s))) by done. cbn [bind]. unfold on_kernel. by rewrite E.
Qed.

(** ** The claims *)


(** C14: the futex protocol.  A task that calls FUTEX_WAIT on a word that holds
    the expected value leaves the core and is a waiter of the futex; it stays
    one, with its control block untouched, through any run of the core (ticks,
    preemptions, sleeps, blocks and wake-ups of other resources, in particular of
    futexes at other canonical addresses); the first FUTEX_WAKE on the address,
    by whatever task then runs, makes it ready and answers that task its count.
    The frame of the waiter is untouched meanwhile, so that its call answers 0
    when it resumes. *)
Theorem futex_wait_until_wake {R : Type} `{TrapContext R} (entry : Z) (cpd : ptr -> Expected ptr) (mem : CloneMemory)
    (numbers : SyscallNumbers) (c : Z) (s : Sys R) (p : ptr) (f : R -> Z) (F : Fifo) (r : RoundRobin) (i : Idle) (t : TCB) (v : Z) :
  NoDup (all_numbers numbers) -> live c (kern s) F r i t ->
  let cur := running_task (percpu (kern s) c) in
  let a := arg (f <$> arg_regs) in
  let uaddr := a 0%nat in
  cur <> idle_task (percpu (kern s) c) -> canonical uaddr -> frames s !! p = Some f ->
  s64 (f syscall_id_reg) = SYSCALL_FUTEX numbers -> Z.land (s32 (a 1%nat)) 0x7F = FUTEX_WAIT ->
  load_le 4 (user s) uaddr = Some v -> s32 v = s32 (a 2%nat) ->
  exists k1, Syscall entry cpd mem numbers c p s = Ret (set_kern k1 s) (Some 0) /\
    alive_core c k1 /\ cur ∈ waiters k1 c (futex_id uaddr) /\
    forall ops k2, run entry c ops k1 k2 ->
      (forall b, OpWakeup b ∈ ops -> ResourceId.GetType b <> ResourceId.type_value ResourceId.kFutex \/
         exists x, b = futex_id x /\ canonical x /\ x <> uaddr) ->
      cur ∈ waiters k2 c (futex_id uaddr) /\ tcbs k2 !! cur = tcbs k1 !! cur /\
      running_task (percpu k2 c) <> cur /\
      forall (s2 : Sys R) q g, kern s2 = k2 -> frames s2 !! q = Some g ->
        s64 (g syscall_id_reg) = SYSCALL_FUTEX numbers -> arg (g <$> arg_regs) 0 = uaddr ->
        Z.land (s32 (arg (g <$> arg_regs) 1)) 0x7F = FUTEX_WAKE ->
        exists k3 n, Syscall entry cpd mem numbers c q s2 =
            Ret (set_frames (<[q := answered (s32 (arg (g <$> arg_regs) 2)) g]> (frames s2)) (set_kern k3 s2)) None /\
          alive_core c k3 /\ waiters k3 c (futex_id uaddr) = [] /\ tcbs k3 !! cur = Some n /\ status n = kReady.
Proof.
  intros Hn L cur a uaddr Hi Hu Ef Hid Ho Ev Hv.
  destruct (futex_wait_call entry c s F r i t uaddr (s32 (a 1%nat)) v L Hi Ho Ev) as (k1 & E1 & S1 & W1).
  assert (alive_core c (kern s)) as A by (by exists F, r, i, t).
  pose proof (so_alive _ _ _ _ (core_step_inv entry c _ _ _ A S1)) as A1. exists k1. split.
  { eapply syscall_resumes; [done|]. rewrite Hid, (dispatch_futex _ _ _ _ Hn). fold a uaddr. by rewrite <- Hv. }
  split; [done|]. split; [done|]. intros ops k2 R2 Hops.
  destruct (run_waiter entry c ops k1 k2 (futex_id uaddr) cur A1 R2 W1) as [W2 E2].
  { intros Hin. destruct (Hops _ Hin) as [Hb|(x & Ex & Hx & Hne)]; [by rewrite (ResourceId.mk_type ResourceId.kFutex) in Hb|]. apply Hne. symmetry. by apply futex_id_inj. }
  destruct (run_alive entry c ops k1 k2 A1 R2) as (F2 & r2 & i2 & t2 & L2). split; [done|]. split; [done|]. split.
  { apply not_eq_sym, (live_parked c k2 F2 r2 i2 t2 cur L2). right. by eexists. }
  intros s2 q g <- Eg Hg Ha Hw.
  destruct (futex_wake_call entry c s2 F2 r2 i2 t2 uaddr _ (s32 (arg (g <$> arg_regs) 2)) L2 Hw) as (k3 & E3 & S3 & _ & W3 & Rd).
  destruct (Rd cur W2) as (n & En & Sn). exists k3, n. split.
  { apply syscall_returns; [done..|]. rewrite Hg, (dispatch_futex _ _ _ _ Hn), Ha. exact E3. }
  split; [|done]. eapply so_alive, core_step_inv; [|exact S3]. by exists F2, r2, i2, t2.
Qed.

(** the reach of FUTEX_WAKE.  Whatever count is passed, the call makes every
    waiter of the calling core ready and answers the count, but it looks only at
    the calling core: the tasks that wait for the same address on another core
    stay where they are. *)
Theorem futex_wake_is_per_core {R : Type} `{TrapContext R} (entry : Z) (cpd : ptr -> Expected ptr) (mem : CloneMemory)
    (numbers : SyscallNumbers) (c d : Z) (s : Sys R) (p : ptr) (f : R -> Z) (F : Fifo) (r : RoundRobin) (i : Idle) (t : TCB) :
  NoDup (all_numbers numbers) -> live c (kern s) F r i t -> d <> c -> frames s !! p = Some f ->
  let a := arg (f <$> arg_regs) in
  s64 (f syscall_id_reg) = SYSCALL_FUTEX numbers -> Z.land (s32 (a 1%nat)) 0x7F = FUTEX_WAKE ->
  exists k, Syscall entry cpd mem numbers c p s =
      Ret (set_frames (<[p := answered (s32 (a 2%nat)) f]> (frames s)) (set_kern k s)) None /\
    waiters k c (futex_id (a 0%nat)) = [] /\
    (forall q, q ∈ waiters (kern s) c (futex_id (a 0%nat)) -> exists n, tcbs k !! q = Some n /\ status n = kReady) /\
    waiters k d (futex_id (a 0%nat)) = waiters (kern s) d (futex_id (a 0%nat)).
Proof.
  intros Hn L Hd Ef a Hid Ho.
  destruct (futex_wake_call entry c s F r i t (a 0%nat) _ (s32 (a 2%nat)) L Ho) as (k & E & _ & Fr & W & Rd).
  exists k. split; [|split; [done|split; [done|]]].
  - apply syscall_returns; [done..|]. by rewrite Hid, (dispatch_futex _ _ _ _ Hn).
  - unfold waiters. by rewrite (frame_cpus _ _ _ Fr) by done.
Qed.

(** the affinity calls.  For the caller (pid 0) or a task of the table, a
    mask written with [sys_sched_setaffinity] is stored in that control block
    alone and is what [sys_sched_getaffinity] delivers; when the pid is unknown
    or the buffer is shorter than eight bytes both calls answer -1 and neither
    the control blocks nor the memory change. *)
Theorem affinity_roundtrip {R : Type} (c p size src dst x v : Z) (s : Sys R) (t : TCB) :
  free_lock (task_table_lock_ (kern s)) -> NkUnorderedMap.wf hash_id (task_table_ (kern s)) ->
  (if p =? 0 then running_task (percpu (kern s) c)
   else default nullptr (NkUnorderedMap.to_map (task_table_ (kern s)) !! u64 p)) = x ->
  (x <> nullptr -> 8 <= size -> tcbs (kern s) !! x = Some t ->
   load_le 8 (user s) src = Some v -> 0 <= v < 2 ^ 64 -> mapped (user s) dst 8 ->
   exists s1 s2, sys_sched_setaffinity c p size src s = Ret s1 (Returns 0) /\
     tcbs (kern s1) = <[x := set_cpu_affinity v t]> (tcbs (kern s)) /\ user s1 = user s /\
     sys_sched_getaffinity c p size dst s1 = Ret s2 (Returns 0) /\
     tcbs (kern s2) = tcbs (kern s1) /\ load_le 8 (user s2) dst = Some v) /\
  (x = nullptr \/ size < 8 ->
   exists s1 s2, sys_sched_setaffinity c p size src s = Ret s1 (Returns (-1)) /\
     sys_sched_getaffinity c p size dst s = Ret s2 (Returns (-1)) /\
     tcbs (kern s1) = tcbs (kern s) /\ tcbs (kern s2) = tcbs (kern s) /\ user s1 = user s /\ user s2 = user s).
Proof.
  intros L W Hx. destruct (affinity_target_spec c p x s L W Hx) as (k & E & T & Tb & L' & P).
  unfold sys_sched_setaffinity. cbn [bind]. rewrite E. cbn [bind]. split.
  - intros Hz Hs Et Ev Hv Hm. rewrite (proj2 (Z.eqb_neq _ _) Hz), (proj2 (Z.ltb_ge _ _) Hs). cbn [bind].
    unfold load. cbn [user set_kern]. rewrite Ev. cbn [bind].
    set (s1 := set_kern (set_tcbs (<[x := set_cpu_affinity v t]> (tcbs k)) k) s).
    rewrite (on_kernel_ret _ (set_kern k s) (kern s1) tt) by (apply on_heap_upd; by rewrite T). cbn [bind ret].
    change (set_kern (kern s1) (set_kern k s)) with s1.
    assert (tcbs (kern s1) = <[x := set_cpu_affinity v t]> (tcbs (kern s))) as T1 by (cbn; by rewrite T).
    destruct (affinity_target_spec c p x s1) as (k2 & E2 & T2 & _); [done|cbn; by rewrite Tb|cbn; by rewrite Tb, P|].
    exists s1. unfold sys_sched_getaffinity. cbn [bind]. rewrite E2. cbn [bind].
    rewrite (proj2 (Z.eqb_neq _ _) Hz), (proj2 (Z.ltb_ge _ _) Hs). cbn [bind].
    rewrite (on_kernel_gets _ _ (set_cpu_affinity v t))
      by (apply on_heap_tcb; cbn [kern set_kern]; by rewrite T2, T1, lookup_insert_eq).
    unfold store. destruct (proj2 (load_le_mapped 8 (user s) dst) Hm) as [w Ew]. cbn [bind user set_kern]. cbn -[load_le le_bytes write_bytes].
    rewrite Ew. cbn -[load_le le_bytes write_bytes]. eexists. split; [done|]. split; [by rewrite T|]. split; [done|]. split; [done|].
    split; [done|]. apply load_le_bytes; [|done]. apply write_bytes_at.
  - intros Hb. unfold sys_sched_getaffinity. cbn [bind]. rewrite E. cbn [bind].
    destruct (Z.eqb_spec x nullptr); [by eexists _, _; split_and!|].
    destruct Hb as [?|Hb]; [done|]. rewrite (proj2 (Z.ltb_lt _ _) Hb). by eexists _, _; split_and!.
Qed.

(** [set_tid_address] answers the pid, where the header promises 0. *)
Theorem set_tid_address_answers_pid {R : Type} `{TrapContext R} (entry : Z) (cpd : ptr -> Expected ptr) (mem : CloneMemory)
    (numbers : SyscallNumbers) (c : Z) (s : Sys R) (p : ptr) (f : R -> Z) (t : TCB) :
  NoDup (all_numbers numbers) -> frames s !! p = Some f ->
  tcbs (kern s) !! running_task (percpu (kern s) c) = Some t -> running_task (percpu (kern s) c) <> nullptr ->
  s64 (f syscall_id_reg) = SYSCALL_SET_TID_ADDRESS numbers ->
  Syscall entry cpd mem numbers c p s = Ret (set_frames (<[p := answered (s32 (pid t)) f]> (frames s)) s) None.
Proof.
  intros Hn Ef Et Hz Hi. apply (syscall_returns _ _ _ _ _ _ _ _ s); [done..|]. rewrite (dispatch_tid _ _ _ _ Hn) by auto.
  by apply gettid_spec.
Qed.

(** A [write] of at least 2^31 and fewer than 2^32 bytes succeeds and answers a
    negative number. *)
Theorem long_write_answers_negative {R : Type} `{TrapContext R} (entry : Z) (cpd : ptr -> Expected ptr) (mem : CloneMemory)
    (numbers : SyscallNumbers) (c : Z) (s : Sys R) (p : ptr) (f : R -> Z) (bs : list Z) :
  let a := arg (f <$> arg_regs) in
  frames s !! p = Some f -> s64 (f syscall_id_reg) = SYSCALL_WRITE numbers ->
  bytes_at (user s) (a 1%nat) bs -> a 2%nat = Z.of_nat (length bs) -> s32 (a 0%nat) = 1 ->
  2 ^ 31 <= Z.of_nat (length bs) < 2 ^ 32 ->
  Syscall entry cpd mem numbers c p s =
    Ret (set_frames (<[p := answered (Z.of_nat (length bs) - 2 ^ 32) f]> (frames s)) (set_console (console s ++ bs) s)) None.
Proof.
  intros a Ef Hi Hb Hl Ho Hs. rewrite (write_call _ _ _ _ _ s p f bs) by auto. fold a. rewrite Hl.
  by rewrite s32_large by lia.
Qed.


(** ** Samples *)

(** A frame of riscv64 with a call number and arguments, at address 100; the
    word 7 is at address 8192, and the text "Hi" at address 9000. *)
Definition sample_frame (id x0 x1 x2 : Z) : Riscv64Frame.reg -> Z := fun r =>
  match r with
  | Riscv64Frame.a7 => id
  | Riscv64Frame.a0 => x0
  | Riscv64Frame.a1 => x1
  | Riscv64Frame.a2 => x2
  | Riscv64Frame.sepc => 4096
  | _ => 0
  end.

Definition sample_sys (k : Kernel) (id x0 x1 x2 : Z) : Sys Riscv64Frame.reg :=
  MkSys k {[100 := sample_frame id x0 x1 x2]} (write_bytes 9000 [72; 105] (write_bytes 8192 (le_bytes 8 7) ∅)) [].

Lemma generic_distinct : NoDup (all_numbers generic_numbers).
Proof. by apply (bool_decide_unpack _). Qed.


Lemma futex_wait_until_wake_witness :
  exists k1, Syscall 900 (fun p => Value p) (MkCloneMemory true 0) generic_numbers 0 100 (sample_sys sample_kernel 98 8192 0 7) =
      Ret (set_kern k1 (sample_sys sample_kernel 98 8192 0 7)) (Some 0) /\
    2 ∈ waiters k1 0 (futex_id 8192).
Proof.
  destruct (futex_wait_until_wake 900 (fun p => Value p) (MkCloneMemory true 0) generic_numbers 0 (sample_sys sample_kernel 98 8192 0 7) 100
    (sample_frame 98 8192 0 7) sample_fifo sample_rr sample_idle task2 7) as (k1 & E & _ & W & _).
  - apply generic_distinct.
  - exact sample_live.
  - discriminate.
  - left. cbn. lia.
  - reflexivity.
  - reflexivity.
  - reflexivity.
  - vm_compute. reflexivity.
  - reflexivity.
  - exists k1. split; [exact E|exact W].
Defined.

Lemma futex_wake_is_per_core_witness :
  exists s', Syscall 900 (fun p => Value p) (MkCloneMemory true 0) generic_numbers 0 100 (sample_sys sample_kernel 98 8192 1 1) = Ret s' None.
Proof.
  destruct (futex_wake_is_per_core 900 (fun p => Value p) (MkCloneMemory true 0) generic_numbers 0 1 (sample_sys sample_kernel 98 8192 1 1) 100
    (sample_frame 98 8192 1 1) sample_fifo sample_rr sample_idle task2) as (k & E & _).
  - apply generic_distinct.
  - exact sample_live.
  - discriminate.
  - reflexivity.
  - reflexivity.
  - reflexivity.
  - eexists. exact E.
Defined.

Lemma affinity_roundtrip_witness :
  exists s1 s2, sys_sched_setaffinity 0 9 8 8192 (sample_sys family_kernel 0 0 0 0) = Ret s1 (Returns 0) /\
    sys_sched_getaffinity 0 9 8 8192 s1 = Ret s2 (Returns 0).
Proof.
  destruct (affinity_roundtrip 0 9 8 8192 8192 3 7 (sample_sys family_kernel 0 0 0 0) family_child) as [Hs _].
  - split; reflexivity.
  - apply family_ok.
  - cbn [kern sample_sys task_table_ family_kernel set_task_table_]. rewrite (proj2 (proj2 family_ok)). reflexivity.
  - destruct Hs as (s1 & s2 & E1 & _ & _ & E2 & _).
    + discriminate.
    + lia.
    + reflexivity.
    + vm_compute. reflexivity.
    + lia.
    + apply load_le_mapped. vm_compute. eauto.
    + exists s1, s2. split; [exact E1|exact E2].
Defined.

(** The parent of the family, with its trap frame at 100, forks: with memory for
    everything the core stops, without memory for the stack the answer is -1; its
    child exits. *)
Definition forking_kernel : Kernel :=
  set_tcbs {[2 := set_trap_context_ptr 100 family_parent; 3 := running_child]} child_kernel.


End SyscallProps.
