(* ===== verification/Mmio.v ===== *)
(** * Device registers: src/src/include/io.hpp

    A device is a state machine that answers loads and stores of its registers
    ([Mmio]); [In] and [Out] are the accesses of the drivers.  [regs_of] is the
    promise of a device about its plain registers: a load has no side effect, a
    store keeps the bits that the hardware implements and touches no other plain
    register.  [Bank] is a device that consists of such registers only. *)

From stdpp Require Import base numbers list functions.
From Stdlib Require Import ZArith Lia.
From S2P Require Import Prelude.

Local Open Scope Z_scope.

(** A load gives a value and may change the device (a read of a FIFO, a claim). *)
Class Mmio (D : Type) := {
  mmio_load : Z -> D -> Z * D;
  mmio_store : Z -> Z -> D -> D
}.

(** ** Ranges of bitwise results *)

Lemma bits_range n x : 0 <= n -> 0 <= x -> (forall j, n <= j -> Z.testbit x j = false) -> 0 <= x < 2 ^ n.
Proof.
  intros Hn H0 Hx. split; [done|]. destruct (Z.eq_dec x 0) as [->|]; [by apply Z.pow_pos_nonneg|].
  apply Z.log2_lt_pow2; [lia|]. destruct (Z.lt_ge_cases (Z.log2 x) n) as [|Hl]; [done|].
  specialize (Hx _ Hl). rewrite Z.bit_log2 in Hx by lia. done.
Qed.

Lemma high_bits n x j : 0 <= n -> 0 <= x < 2 ^ n -> n <= j -> Z.testbit x j = false.
Proof. intros Hn Hx Hj. rewrite <- (Z.mod_small x (2 ^ n)) by done. apply Z.mod_pow2_bits_high. lia. Qed.

Lemma or_range n a b : 0 <= n -> 0 <= a < 2 ^ n -> 0 <= b < 2 ^ n -> 0 <= Z.lor a b < 2 ^ n.
Proof.
  intros Hn Ha Hb. apply bits_range; [done|apply Z.lor_nonneg; lia|]. intros j Hj.
  by rewrite Z.lor_spec, (high_bits n a), (high_bits n b).
Qed.

Lemma and_range n a b : 0 <= n -> 0 <= a < 2 ^ n -> 0 <= b < 2 ^ n -> 0 <= Z.land a b < 2 ^ n.
Proof.
  intros Hn Ha Hb. apply bits_range; [done|apply Z.land_nonneg; lia|]. intros j Hj.
  by rewrite Z.land_spec, (high_bits n a), (high_bits n b).
Qed.

Section access.
Context {D : Type} `{Mmio D}.

Definition In (w : Z) (addr : Z) : M D Z := fun d =>
  let (v, d') := mmio_load (u64 addr) d in Ret d' (wrap w v).
Definition Out (w : Z) (addr : Z) (data : Z) : M D unit := fun d =>
  Ret (mmio_store (u64 addr) (wrap w data) d) tt.

(** The plain registers of a device: [plain] says which addresses, [reg] is
    their content and [implemented] the bits that a store can set. *)
Record regs_of (plain : Z -> Prop) (reg : D -> Z -> Z) (implemented : Z -> Z) : Prop := {
  load_plain : forall d a, plain a -> mmio_load a d = (reg d a, d);
  store_same : forall d a v, plain a -> 0 <= v < 2 ^ 32 -> reg (mmio_store a v d) a = Z.land v (implemented a);
  store_other : forall d a b v, plain a -> plain b -> a <> b -> reg (mmio_store a v d) b = reg d b;
  reg_legal : forall d a, plain a -> 0 <= reg d a < 2 ^ 32 /\ Z.land (reg d a) (implemented a) = reg d a
}.

Context {plain : Z -> Prop} {reg : D -> Z -> Z} {implemented : Z -> Z}.
Context (dev : regs_of plain reg implemented).

Lemma in_plain d a : plain a -> u64 a = a -> In 32 a d = Ret d (reg d a).
Proof.
  intros Pa Ha. unfold In. rewrite Ha, (load_plain _ _ _ dev) by done. unfold wrap. rewrite Z.mod_small; [done|].
  by apply (reg_legal _ _ _ dev).
Qed.

Lemma out_plain d a v : plain a -> u64 a = a -> 0 <= v < 2 ^ 32 ->
  exists d', Out 32 a v d = Ret d' tt /\ reg d' a = Z.land v (implemented a) /\
    forall b, plain b -> b <> a -> reg d' b = reg d b.
Proof.
  intros Pa Ha Hv. eexists. unfold Out. rewrite Ha. unfold wrap. rewrite Z.mod_small by done. split; [done|]. split.
  - by apply (store_same _ _ _ dev).
  - intros b Pb Hb. apply (store_other _ _ _ dev); congruence.
Qed.

(** Read-modify-write of one bit of a register. *)
Definition set_bit (w i : Z) (v : bool) : Z :=
  if v then Z.lor w (u32 (Z.shiftl 1 i)) else Z.land w (u32 (Z.lnot (u32 (Z.shiftl 1 i)))).

Lemma bit_word i : 0 <= i < 32 -> u32 (Z.shiftl 1 i) = Z.shiftl 1 i.
Proof.
  intros Hi. apply wrap_small. rewrite Z.shiftl_1_l. split; [apply Z.pow_nonneg; lia|]. apply Z.pow_lt_mono_r; lia.
Qed.

Lemma testbit_set_bit w i v j : 0 <= w < 2 ^ 32 -> 0 <= i < 32 -> 0 <= j < 32 ->
  Z.testbit (set_bit w i v) j = if decide (i = j) then v else Z.testbit w j.
Proof.
  intros Hw Hi Hj. unfold set_bit. rewrite bit_word by done. rewrite Z.shiftl_1_l. destruct v.
  - rewrite Z.lor_spec, Z.pow2_bits_eqb by lia. case_decide as E.
    + by rewrite E, Z.eqb_refl, orb_true_r.
    + by rewrite (proj2 (Z.eqb_neq _ _) E), orb_false_r.
  - rewrite Z.land_spec. unfold u32, wrap. rewrite Z.mod_pow2_bits_low by lia. rewrite Z.lnot_spec, Z.pow2_bits_eqb by lia.
    case_decide as E.
    + by rewrite E, Z.eqb_refl, andb_false_r.
    + by rewrite (proj2 (Z.eqb_neq _ _) E), andb_true_r.
Qed.

Lemma set_bit_range w i v : 0 <= w < 2 ^ 32 -> 0 <= i < 32 -> 0 <= set_bit w i v < 2 ^ 32.
Proof.
  intros Hw Hi. unfold set_bit. destruct v; [apply (or_range 32)|apply (and_range 32)]; try lia; apply (wrap_range 32); lia.
Qed.

End access.

(** ** A bank of plain registers *)

Definition Bank : Type := Z -> Z.
Definition const_bank (v : Z) : Bank := fun _ => v.

#[global] Instance bank_mmio : Mmio Bank := {|
  mmio_load a b := (u32 (b a), b);
  mmio_store a v b := <[a := v]> b
|}.

Lemma bank_regs plain : regs_of (D := Bank) plain (fun b a => u32 (b a)) (fun _ => Z.ones 32).
Proof.
  split.
  - done.
  - intros d a v _ Hv. cbn. rewrite fn_lookup_insert. unfold u32, wrap. by rewrite Z.land_ones by lia.
  - intros d a b v _ _ Hn. cbn. by rewrite fn_lookup_insert_ne.
  - intros d a _. pose proof (wrap_range 32 (d a) ltac:(lia)) as Hr. unfold u32. split; [done|].
    rewrite Z.land_ones by lia. by apply Z.mod_small.
Qed.
