(* ===== verification/Plic.v ===== *)
(** * The platform-level interrupt controller: src/src/driver/plic

    The driver's object, its registers and its table of handlers.  The device is
    any [Mmio] machine; what the theorems need of it is [regs_of] for the
    priority, enable and threshold registers.  The claim register is not plain:
    a load of it claims an interrupt. *)

From stdpp Require Import base numbers list functions.
From Stdlib Require Import ZArith Lia.
From S2P Require Import Prelude Mmio.

Local Open Scope Z_scope.

Module Plic.

Definition kSourcePriorityOffset : Z := 0x000000.
Definition kPendingBitsOffset : Z := 0x001000.
Definition kEnableBitsOffset : Z := 0x002000.
Definition kContextOffset : Z := 0x200000.
Definition kContextSize : Z := 0x1000.
Definition kPriorityThresholdOffset : Z := 0x0.
Definition kClaimCompleteOffset : Z := 0x4.
Definition kEnableSize : Z := 0x80.
Definition kInterruptMaxCount : nat := 16.

Record Plic := MkPlic { base_addr_ : Z; ndev_ : Z; context_count_ : Z }.

(** [GetContextId(hart_id, mode = 1)] *)
Definition GetContextId (hart_id : Z) : Z := u32 (hart_id * 2 + 1).

(** ** Register addresses *)

Definition SourcePriority (p : Plic) (source_id : Z) : Z :=
  base_addr_ p + kSourcePriorityOffset + source_id * 4.
Definition enable_word (p : Plic) (context_id source_id : Z) : Z :=
  base_addr_ p + kEnableBitsOffset + context_id * kEnableSize + u32 (source_id / 32 * 4).
Definition pending_word (p : Plic) (source_id : Z) : Z :=
  base_addr_ p + kPendingBitsOffset + u32 (source_id / 32 * 4).
Definition PriorityThreshold (p : Plic) (context_id : Z) : Z :=
  base_addr_ p + kContextOffset + context_id * kContextSize + kPriorityThresholdOffset.
Definition ClaimComplete (p : Plic) (context_id : Z) : Z :=
  base_addr_ p + kContextOffset + context_id * kContextSize + kClaimCompleteOffset.

Section ops.
Context {D : Type} `{Mmio D}.

Definition GetEnableBit (p : Plic) (context_id source_id : Z) : M D bool :=
  let* w := In 32 (enable_word p context_id source_id) in
  ret (negb (Z.land (Z.shiftr w (source_id mod 32)) 1 =? 0)).

Definition SetEnableBit (p : Plic) (context_id source_id : Z) (value : bool) : M D unit :=
  let* w := In 32 (enable_word p context_id source_id) in
  Out 32 (enable_word p context_id source_id) (set_bit w (source_id mod 32) value).

Definition GetPendingBit (p : Plic) (source_id : Z) : M D bool :=
  let* w := In 32 (pending_word p source_id) in
  ret (negb (Z.land (Z.shiftr w (source_id mod 32)) 1 =? 0)).

Definition SetPendingBit (p : Plic) (source_id : Z) (value : bool) : M D unit :=
  let* w := In 32 (pending_word p source_id) in
  Out 32 (pending_word p source_id) (set_bit w (source_id mod 32) value).

(** [for (size_t i = 0; i < n; i++)] *)
Fixpoint for_to (n : nat) (body : Z -> M D unit) : M D unit :=
  match n with
  | O => ret tt
  | S m => let* _ := for_to m body in body (Z.of_nat m)
  end.

(** The constructor; the loop variables are [size_t] and the callees take
    [uint32_t]. *)
Definition new_plic (dev_addr ndev context_count : Z) : M D Plic :=
  let p := MkPlic dev_addr ndev context_count in
  let* _ := for_to (S (Z.to_nat ndev)) (fun source_id => Out 32 (SourcePriority p (u32 source_id)) 0) in
  let* _ := for_to (Z.to_nat context_count) (fun context_id =>
    let* _ := Out 32 (PriorityThreshold p (u32 context_id)) 0 in
    for_to (S (Z.to_nat ndev)) (fun source_id => SetEnableBit p (u32 context_id) (u32 source_id) false)) in
  ret p.

Definition Which (p : Plic) (core : Z) : M D Z := In 32 (ClaimComplete p (GetContextId (u32 core))).

Definition Done (p : Plic) (core source_id : Z) : M D unit :=
  Out 32 (ClaimComplete p (GetContextId (u32 core))) source_id.

Definition Set_ (p : Plic) (hart_id source_id priority : Z) (enable : bool) : M D unit :=
  let* _ := Out 32 (SourcePriority p source_id) priority in
  SetEnableBit p (GetContextId hart_id) source_id enable.

Definition Get (p : Plic) (hart_id source_id : Z) : M D (Z * bool * bool) :=
  let* priority := In 32 (SourcePriority p source_id) in
  let* enabled := GetEnableBit p (GetContextId hart_id) source_id in
  let* pending := GetPendingBit p source_id in
  ret (priority, enabled, pending).

End ops.

(** ** Handlers

    A static array of [kInterruptMaxCount] function pointers, null at start;
    neither access is checked. *)
Section handlers.
Context {F : Type}.

Definition no_handlers : list (option F) := replicate kInterruptMaxCount None.

Definition RegisterInterruptFunc (hs : list (option F)) (cause : Z) (func : F) : option (list (option F)) :=
  if u8 cause <? Z.of_nat kInterruptMaxCount then Some (<[Z.to_nat (u8 cause) := Some func]> hs) else None.

(** The function that [Do] calls; [None] when the call goes through a null
    pointer or a word behind the array. *)
Definition Do (hs : list (option F)) (cause : Z) : option F := mjoin (hs !! Z.to_nat cause).

End handlers.

(** ** What the registers mean *)

Definition valid_source (s : Z) : Prop := 0 <= s < 1024.
Definition valid_context (c : Z) : Prop := 0 <= c < 15872.

Ltac in_range := unfold valid_source, valid_context in *; lia.

(** Registers of two kinds differ. *)
Ltac apart R :=
  let H := fresh in pose proof R as H; destruct H as (?&?&?&?&?); [in_range..|congruence].

Section spec.
Context {D : Type} `{Mmio D} {reg : D -> Z -> Z} {implemented : Z -> Z}.
Context (p : Plic).
Implicit Types (d : D).

(** The register map of the PLIC specification: 1024 sources, 15872 contexts. *)
Definition plic_plain (a : Z) : Prop :=
  let off := a - base_addr_ p in
  0 <= off < kContextOffset \/ (kContextOffset <= off < 0x4000000 /\ off mod kContextSize = 0).

Context (dev : regs_of plic_plain reg implemented).
Context (Hbase : 0 <= base_addr_ p /\ base_addr_ p + 0x4000000 <= 2 ^ 64).

Definition enabled (d : D) (c s : Z) : bool := Z.testbit (reg d (enable_word p c s)) (s mod 32).
Definition priority_of (d : D) (s : Z) : Z := reg d (SourcePriority p s).
Definition threshold_of (d : D) (c : Z) : Z := reg d (PriorityThreshold p c).
Definition pending_of (d : D) (s : Z) : bool := Z.testbit (reg d (pending_word p s)) (s mod 32).

(** The device lets the source be enabled in the context. *)
Definition can_enable (c s : Z) : bool := Z.testbit (implemented (enable_word p c s)) (s mod 32).

Lemma word_offset s : valid_source s -> 0 <= s / 32 < 32 /\ u32 (s / 32 * 4) = s / 32 * 4.
Proof.
  intros Hs. assert (0 <= s / 32 < 32) by (split; [apply Z.div_pos|apply Z.div_lt_upper_bound]; unfold valid_source in *; lia).
  split; [done|]. apply wrap_small. lia.
Qed.

Lemma enable_plain c s : valid_context c -> valid_source s ->
  plic_plain (enable_word p c s) /\ u64 (enable_word p c s) = enable_word p c s.
Proof.
  intros Hc Hs. destruct (word_offset s Hs) as [Ho Eo]. unfold plic_plain, enable_word, valid_context, kEnableBitsOffset,
    kEnableSize, kContextOffset, kContextSize in *. rewrite Eo. split; [left; lia|]. apply wrap_small. lia.
Qed.

Lemma enable_word_inj c s c' s' : valid_context c -> valid_source s -> valid_context c' -> valid_source s' ->
  enable_word p c s = enable_word p c' s' -> c = c' /\ s / 32 = s' / 32.
Proof.
  intros Hc Hs Hc' Hs'. destruct (word_offset s Hs) as [Ho Eo], (word_offset s' Hs') as [Ho' Eo'].
  unfold enable_word, kEnableSize. rewrite Eo, Eo'. lia.
Qed.

Lemma pending_plain s : valid_source s -> plic_plain (pending_word p s) /\ u64 (pending_word p s) = pending_word p s.
Proof.
  intros Hs. destruct (word_offset s Hs) as [Ho Eo]. unfold plic_plain, pending_word, kPendingBitsOffset, kContextOffset in *.
  rewrite Eo. split; [left; lia|]. apply wrap_small. lia.
Qed.

Lemma priority_plain s : valid_source s ->
  plic_plain (SourcePriority p s) /\ u64 (SourcePriority p s) = SourcePriority p s.
Proof.
  unfold valid_source, plic_plain, SourcePriority, kSourcePriorityOffset, kContextOffset. intros Hs.
  split; [left; lia|]. apply wrap_small. lia.
Qed.

Lemma threshold_plain c : valid_context c ->
  plic_plain (PriorityThreshold p c) /\ u64 (PriorityThreshold p c) = PriorityThreshold p c.
Proof.
  unfold valid_context, plic_plain, PriorityThreshold, kContextOffset, kContextSize, kPriorityThresholdOffset. intros Hc. split.
  - right. split; [lia|]. replace (_ - _) with ((512 + c) * 0x1000) by lia. apply Z.mod_mul. lia.
  - apply wrap_small. lia.
Qed.

(** The three kinds of registers lie apart. *)
Lemma regions c s s' c' : valid_context c -> valid_source s -> valid_source s' -> valid_context c' ->
  enable_word p c s <> SourcePriority p s' /\ enable_word p c s <> PriorityThreshold p c' /\
  SourcePriority p s' <> PriorityThreshold p c' /\ enable_word p c s <> pending_word p s' /\
  SourcePriority p s <> pending_word p s'.
Proof.
  intros Hc Hs Hs' Hc'. destruct (word_offset s Hs) as [Ho Eo]. destruct (word_offset s' Hs') as [Ho' Eo'].
  unfold enable_word, SourcePriority, PriorityThreshold, pending_word, valid_source, valid_context,
    kPendingBitsOffset, kEnableBitsOffset, kEnableSize, kSourcePriorityOffset, kContextOffset, kContextSize, kPriorityThresholdOffset in *.
  rewrite Eo, Eo'. lia.
Qed.

(** A store that leaves the other plain registers alone. *)
Definition touches (d d' : D) (a : Z) : Prop := forall b, plic_plain b -> b <> a -> reg d' b = reg d b.

Lemma set_enable_spec d c s v : valid_context c -> valid_source s ->
  exists d', SetEnableBit p c s v d = Ret d' tt /\ touches d d' (enable_word p c s) /\
    forall c' s', valid_context c' -> valid_source s' ->
      enabled d' c' s' = if decide (c' = c /\ s' = s) then v && can_enable c s else enabled d c' s'.
Proof.
  intros Hc Hs. destruct (enable_plain c s Hc Hs) as [Pa Ha].
  destruct (reg_legal _ _ _ dev d _ Pa) as [Hr Hl]. pose proof (Z.mod_pos_bound s 32 ltac:(lia)) as Hm.
  destruct (out_plain dev d (enable_word p c s) (set_bit (reg d (enable_word p c s)) (s mod 32) v) Pa Ha) as (d' & E & E1 & E2).
  { by apply set_bit_range. }
  exists d'. split.
  { unfold SetEnableBit. cbn [bind]. rewrite (in_plain dev) by done. exact E. }
  split; [done|]. intros c' s' Hc' Hs'. destruct (enable_plain c' s' Hc' Hs') as [Pb Hb].
  pose proof (Z.mod_pos_bound s' 32 ltac:(lia)) as Hm'. unfold enabled, can_enable.
  destruct (decide (enable_word p c' s' = enable_word p c s)) as [Ew|Ew].
  - rewrite Ew, E1, Z.land_spec, testbit_set_bit by done.
    apply enable_word_inj in Ew as [-> Ed]; [|done..].
    destruct (decide (s mod 32 = s' mod 32)) as [Em|Em].
    + assert (s' = s) as -> by (rewrite (Z.div_mod s 32), (Z.div_mod s' 32); lia).
      by rewrite decide_True by done.
    + rewrite decide_False by (intros [_ ->]; done).
      rewrite <- Z.land_spec. by rewrite Hl.
  - rewrite decide_False by (intros [-> ->]; done). by rewrite E2.
Qed.

Lemma bit_of w i : 0 <= i -> negb (Z.land (Z.shiftr w i) 1 =? 0) = Z.testbit w i.
Proof.
  intros Hi. change 1 with (Z.ones 1). rewrite Z.land_ones by lia. change (2 ^ 1) with 2.
  rewrite <- Z.bit0_mod, Z.shiftr_spec by lia. rewrite Z.add_0_l. by destruct (Z.testbit w i).
Qed.

Lemma get_spec d hart s : valid_context (GetContextId hart) -> valid_source s ->
  Get p hart s d = Ret d (priority_of d s, enabled d (GetContextId hart) s, pending_of d s).
Proof.
  intros Hc Hs. destruct (enable_plain _ s Hc Hs), (priority_plain s Hs), (pending_plain s Hs).
  unfold Get, GetEnableBit, GetPendingBit. cbn [bind]. repeat (rewrite (in_plain dev) by done; cbn [bind ret]).
  rewrite !bit_of by (by apply Z.mod_pos_bound). done.
Qed.

(** ** The constructor *)

Lemma for_to_inv (P : nat -> D -> Prop) n body d :
  P 0%nat d -> (forall m d, (m < n)%nat -> P m d -> exists d', body (Z.of_nat m) d = Ret d' tt /\ P (S m) d') ->
  exists d', for_to n body d = Ret d' tt /\ P n d'.
Proof.
  intros H0 Hs. induction n as [|n IH]; [by exists d|].
  destruct IH as (d1 & E1 & P1). { intros m d' Hm. apply Hs. lia. }
  destruct (Hs n d1 ltac:(lia) P1) as (d2 & E2 & P2). exists d2. cbn [for_to bind]. by rewrite E1.
Qed.

Lemma u32_index m n : Z.of_nat m <= n -> n < 2 ^ 32 -> u32 (Z.of_nat m) = Z.of_nat m.
Proof. intros. apply wrap_small. lia. Qed.

(** The loop over the sources of one context. *)
Lemma disable_context c n d : valid_context c -> Z.of_nat n <= 1024 ->
  exists d', for_to n (fun s => SetEnableBit p c (u32 s) false) d = Ret d' tt /\
    (forall s, 0 <= s < Z.of_nat n -> enabled d' c s = false) /\
    (forall c' s, valid_context c' -> valid_source s -> enabled d c' s = false -> enabled d' c' s = false) /\
    (forall a, plic_plain a -> (forall s, valid_source s -> a <> enable_word p c s) -> reg d' a = reg d a).
Proof.
  intros Hc Hn. apply (for_to_inv (fun m d' =>
    (forall s, 0 <= s < Z.of_nat m -> enabled d' c s = false) /\
    (forall c' s, valid_context c' -> valid_source s -> enabled d c' s = false -> enabled d' c' s = false) /\
    (forall a, plic_plain a -> (forall s, valid_source s -> a <> enable_word p c s) -> reg d' a = reg d a))).
  { split_and!; [lia|done|done]. }
  intros m d1 Hm (A & B & C). rewrite (u32_index m 1024) by lia.
  assert (valid_source (Z.of_nat m)) as Hs by (unfold valid_source; lia).
  destruct (set_enable_spec d1 c (Z.of_nat m) false Hc Hs) as (d2 & E & T & En). exists d2. split; [done|]. split_and!.
  - intros s Hss. rewrite En by (unfold valid_source; lia || done). case_decide as Hd; [done|]. apply A.
    assert (s <> Z.of_nat m) by (intros ->; by apply Hd). lia.
  - intros c' s Hc' Hs' He. rewrite En by done. case_decide; [done|]. by apply B.
  - intros a Pa Ha. rewrite T by (done || by apply Ha). by apply C.
Qed.

Lemma clear_priorities n d : Z.of_nat n <= 1024 ->
  exists d', for_to n (fun s => Out 32 (SourcePriority p (u32 s)) 0) d = Ret d' tt /\
    forall s, 0 <= s < Z.of_nat n -> priority_of d' s = 0.
Proof.
  intros Hn. apply (for_to_inv (fun m d' => forall s, 0 <= s < Z.of_nat m -> priority_of d' s = 0)); [lia|].
  intros m d1 Hm A. rewrite (u32_index m 1024) by lia.
  assert (valid_source (Z.of_nat m)) as Hs by (unfold valid_source; lia). destruct (priority_plain _ Hs) as [Pa Ha].
  destruct (out_plain dev d1 _ 0 Pa Ha ltac:(lia)) as (d2 & E & E1 & E2). exists d2. split; [done|]. intros s Hss.
  unfold priority_of. destruct (decide (s = Z.of_nat m)) as [->|Hne]; [by rewrite E1, Z.land_0_l|].
  rewrite E2; [apply A; lia|apply priority_plain; unfold valid_source; lia|]. unfold SourcePriority. lia.
Qed.

(** What the constructor has established after [m] contexts. *)
Record quiet (ndev : Z) (m : nat) (d : D) : Prop := {
  q_priority : forall s, 0 <= s <= ndev -> priority_of d s = 0;
  q_threshold : forall c, 0 <= c < Z.of_nat m -> threshold_of d c = 0;
  q_disabled : forall c s, 0 <= c < Z.of_nat m -> 0 <= s <= ndev -> enabled d c s = false
}.

Lemma quiet_context ndev m d : 0 <= ndev < 1024 -> Z.of_nat m < 15872 -> quiet ndev m d ->
  exists d', (let* _ := Out 32 (PriorityThreshold p (Z.of_nat m)) 0 in
      for_to (S (Z.to_nat ndev)) (fun s => SetEnableBit p (Z.of_nat m) (u32 s) false)) d = Ret d' tt /\ quiet ndev (S m) d'.
Proof.
  intros Hn Hm [A B C]. assert (valid_context (Z.of_nat m)) as Hc by (unfold valid_context; lia).
  destruct (threshold_plain _ Hc) as [Pa Ha]. destruct (out_plain dev d _ 0 Pa Ha ltac:(lia)) as (d1 & E & E1 & E2).
  destruct (disable_context (Z.of_nat m) (S (Z.to_nat ndev)) d1 Hc ltac:(lia)) as (d2 & F & F1 & F2 & F3).
  exists d2. cbn [bind]. rewrite E. cbn [bind]. split; [done|].
  assert (forall s, 0 <= s <= ndev -> valid_source s) as Hv by (unfold valid_source; lia).
  assert (forall c, 0 <= c <= Z.of_nat m -> valid_context c) as Hvc by (unfold valid_context; lia). split.
  - intros s Hs. unfold priority_of. rewrite F3, E2.
    + by apply A.
    + by apply priority_plain, Hv.
    + specialize (Hv s Hs). apart (regions (Z.of_nat m) s s (Z.of_nat m)).
    + by apply priority_plain, Hv.
    + intros s' Hs'. specialize (Hv s Hs). apart (regions (Z.of_nat m) s' s (Z.of_nat m)).
  - intros c Hcm. unfold threshold_of. rewrite F3.
    + destruct (decide (c = Z.of_nat m)) as [->|Hne]; [by rewrite E1, Z.land_0_l|].
      rewrite E2; [apply B; lia|apply threshold_plain, Hvc; lia|]. unfold PriorityThreshold, kContextSize. lia.
    + apply threshold_plain, Hvc. lia.
    + intros s' Hs'. apart (regions (Z.of_nat m) s' s' c).
  - intros c s Hcm Hs. destruct (decide (c = Z.of_nat m)) as [->|Hne]; [apply F1; lia|].
    apply F2; [apply Hvc; lia|by apply Hv|]. unfold enabled. rewrite E2; [apply C; lia|apply enable_plain; [apply Hvc; lia|by apply Hv]|].
    apart (regions c s s (Z.of_nat m)).
Qed.

End spec.

(** ** The claims *)

(** [Set] configures one source of one context.  For a source and a hart
    of the register map: after [Set] the driver's [Get] reports the priority (as
    far as the device implements its bits), the enable flag (for a source the
    device can enable) and the pending flag it had; the enable bit of every other
    pair of context and source and the priority of every other source are as
    before. *)
Theorem plic_set_get {D : Type} `{Mmio D} (reg : D -> Z -> Z) (implemented : Z -> Z) (p : Plic) (d : D)
    (hart s prio : Z) (en : bool) :
  regs_of (plic_plain p) reg implemented -> 0 <= base_addr_ p /\ base_addr_ p + 0x4000000 <= 2 ^ 64 ->
  valid_context (GetContextId hart) -> valid_source s -> 0 <= prio < 2 ^ 32 ->
  exists d', Set_ p hart s prio en d = Ret d' tt /\
    Get p hart s d' = Ret d' (Z.land prio (implemented (SourcePriority p s)),
      en && can_enable (implemented := implemented) p (GetContextId hart) s, pending_of (reg := reg) p d s) /\
    (forall c' s', valid_context c' -> valid_source s' -> (c', s') <> (GetContextId hart, s) ->
       enabled (reg := reg) p d' c' s' = enabled (reg := reg) p d c' s') /\
    (forall s', valid_source s' -> s' <> s -> priority_of (reg := reg) p d' s' = priority_of (reg := reg) p d s').
Proof.
  intros dev Hb Hc Hs Hp. destruct (priority_plain p Hb s Hs) as [Pa Ha].
  destruct (out_plain dev d _ prio Pa Ha Hp) as (d1 & E1 & V1 & O1).
  destruct (set_enable_spec p dev Hb d1 _ s en Hc Hs) as (d2 & E2 & T2 & N2).
  assert (forall s', valid_source s' -> priority_of (reg := reg) p d2 s' = priority_of (reg := reg) p d1 s') as P2.
  { intros s' Hs'. apply T2; [by apply priority_plain|]. apart (regions p (GetContextId hart) s s' 0). }
  exists d2. split; [unfold Set_; cbn [bind]; rewrite E1; exact E2|]. split; [|split].
  - rewrite (get_spec p dev Hb) by done. f_equal. f_equal; [f_equal|].
    + rewrite P2 by done. exact V1.
    + rewrite N2 by done. by rewrite decide_True.
    + unfold pending_of. destruct (pending_plain p Hb s Hs) as [Pp _].
      rewrite T2, O1; [done|done| |done|]; apart (regions p (GetContextId hart) s s 0).
  - intros c' s' Hc' Hs' Hn. rewrite N2 by done. rewrite decide_False by (intros [-> ->]; done).
    unfold enabled. rewrite O1; [done|by apply enable_plain|]. apart (regions p c' s' s 0).
  - intros s' Hs' Hn. rewrite P2 by done. apply O1; [by apply priority_plain|]. unfold SourcePriority. lia.
Qed.

(** the constructor silences the controller.  For at most 1023 sources and
    15872 contexts it returns, and then every source has priority 0, every
    context has threshold 0, and no source is enabled in any context. *)
Theorem plic_starts_quiet {D : Type} `{Mmio D} (reg : D -> Z -> Z) (implemented : Z -> Z) (base ndev n : Z) (d : D) :
  regs_of (plic_plain (MkPlic base ndev n)) reg implemented -> 0 <= base /\ base + 0x4000000 <= 2 ^ 64 ->
  0 <= ndev < 1024 -> 0 <= n <= 15872 ->
  exists d', new_plic base ndev n d = Ret d' (MkPlic base ndev n) /\
    (forall s, 0 <= s <= ndev -> priority_of (reg := reg) (MkPlic base ndev n) d' s = 0) /\
    (forall c, 0 <= c < n -> threshold_of (reg := reg) (MkPlic base ndev n) d' c = 0) /\
    (forall c s, 0 <= c < n -> 0 <= s <= ndev -> enabled (reg := reg) (MkPlic base ndev n) d' c s = false).
Proof.
  set (p := MkPlic base ndev n). intros dev Hb Hn Hc.
  destruct (clear_priorities p dev Hb (S (Z.to_nat ndev)) d ltac:(lia)) as (d1 & E1 & P1).
  destruct (for_to_inv (quiet (reg := reg) p ndev) (Z.to_nat n) (fun c =>
      let* _ := Out 32 (PriorityThreshold p (u32 c)) 0 in
      for_to (S (Z.to_nat ndev)) (fun s => SetEnableBit p (u32 c) (u32 s) false)) d1) as (d2 & E2 & [A B C]).
  - split; [intros s Hs; apply P1; lia|lia|lia].
  - intros m d' Hm Q. rewrite (u32_index m 15872) by lia. apply (quiet_context p dev Hb ndev m d' Hn ltac:(lia) Q).
  - exists d2. split.
    { unfold new_plic. fold p. cbn [bind]. rewrite E1. cbn [bind]. by rewrite E2. }
    split; [done|]. split; [intros c Hcc; apply B; lia|]. intros c s Hcc Hs. apply C; lia.
Qed.

(** A controller with the registers of a plain bank. *)
Lemma plic_set_get_witness :
  exists d', Set_ (MkPlic 0xc000000 31 4) 0 10 1 true (const_bank 0) = Ret d' tt /\
    Get (MkPlic 0xc000000 31 4) 0 10 d' = Ret d' (1, true, false).
Proof.
  destruct (plic_set_get (fun b a => u32 (b a)) (fun _ => Z.ones 32) (MkPlic 0xc000000 31 4) (const_bank 0) 0 10 1 true)
    as (d' & E & G & _).
  - apply bank_regs.
  - cbn. lia.
  - vm_compute. split; [discriminate|reflexivity].
  - unfold valid_source. lia.
  - lia.
  - exists d'. split; [exact E|exact G].
Defined.

Lemma plic_starts_quiet_witness :
  exists d', new_plic 0xc000000 31 4 (const_bank 1) = Ret d' (MkPlic 0xc000000 31 4).
Proof.
  destruct (plic_starts_quiet (fun b a => u32 (b a)) (fun _ => Z.ones 32) 0xc000000 31 4 (const_bank 1)) as (d' & E & _).
  - apply bank_regs.
  - lia.
  - lia.
  - lia.
  - exists d'. exact E.
Defined.

End Plic.
