(* ===== verification/Uart.v ===== *)
(** * Serial ports: src/src/driver/{ns16550a,pl011}, src/src/driver/include/console_driver.h

    [ConsoleDriver] is the abstract class as a record of operations, [console_ok]
    the contract its comments state, and both drivers are shown to keep it.  The
    contract speaks of the queues of the hardware; how the registers show and
    move those queues is what the data sheets say of the two devices
    ([ns16550_device], [pl011_device]: offsets and bits as numbers, apart from the
    constants of the drivers).  The polling
    loops run on fuel; the contract says that one step more than the number of
    times the device reports itself busy is enough. *)

From stdpp Require Import base numbers list.
From Stdlib Require Import ZArith Lia.
From S2P Require Import Prelude Mmio.

Local Open Scope Z_scope.

Module Uart.

(** ** The interface *)

Record ConsoleDriver (D : Type) := MkConsole {
  PutChar : nat -> Z -> M D unit;
  GetChar : nat -> M D Z;
  TryGetChar : M D Z
}.
Arguments MkConsole {D} PutChar GetChar TryGetChar.
Arguments PutChar {D} c fuel ch.
Arguments GetChar {D} c fuel.
Arguments TryGetChar {D} c.

(** The comments of console_driver.h: [PutChar] waits while the device is busy
    and hands the byte to the hardware queue; [GetChar] takes the oldest received
    byte; [TryGetChar] does so or answers 0xFF at once. *)
Record console_ok {D : Type} (con : ConsoleDriver D) (rx tx : D -> list Z) (busy : D -> nat) (up : D -> Prop) : Prop := {
  put_char_ok : forall fuel c d, up d -> 0 <= c < 256 -> (busy d < fuel)%nat ->
    exists d', PutChar con fuel c d = Ret d' tt /\ up d' /\ tx d' = tx d ++ [c] /\ rx d' = rx d;
  get_char_ok : forall fuel c q d, up d -> rx d = c :: q -> (0 < fuel)%nat ->
    exists d', GetChar con fuel d = Ret d' c /\ up d' /\ rx d' = q /\ tx d' = tx d;
  try_get_char_ok : forall d, up d ->
    exists d', TryGetChar con d = Ret d' (default 0xFF (head (rx d))) /\ up d' /\
      rx d' = tail (rx d) /\ tx d' = tx d
}.

(** ** The devices *)

Section devices.
Context {D : Type} `{Mmio D} (base : Z) (rx tx : D -> list Z) (busy : D -> nat) (up : D -> Prop).

(** A 16550 with byte-wide registers.  The line status register is at offset 5: bit
    5 (THRE) says that the transmitter takes a byte, bit 0 (DR) that a received one
    is there; every load of it brings the end of the transmission nearer.  Offset 0 is
    the transmitter holding register for stores and the receiver buffer for loads. *)
Record ns16550_device : Prop := {
  lsr_load : forall d, up d -> exists v d', mmio_load (base + 5) d = (v, d') /\ 0 <= v < 2 ^ 8 /\ up d' /\
    rx d' = rx d /\ tx d' = tx d /\ busy d' = pred (busy d) /\
    (Z.testbit v 5 = true <-> busy d = 0%nat) /\ (Z.testbit v 0 = true <-> rx d <> []);
  rbr_load : forall d c q, up d -> rx d = c :: q -> exists d', mmio_load (base + 0) d = (c, d') /\ 0 <= c < 2 ^ 8 /\
    up d' /\ rx d' = q /\ tx d' = tx d;
  thr_store : forall d c, up d -> 0 <= c < 256 -> up (mmio_store (base + 0) c d) /\
    tx (mmio_store (base + 0) c d) = tx d ++ [c] /\ rx (mmio_store (base + 0) c d) = rx d
}.

(** A PL011 with word-wide registers.  The flag register is at offset 0x18: bit 5
    (TXFF) says that the transmit queue is full, bit 4 (RXFE) that the receive queue
    is empty.  The data register at offset 0 has the byte in its low eight bits; a load
    shows flags of the reception above them. *)
Record pl011_device : Prop := {
  fr_load : forall d, up d -> exists v d', mmio_load (base + 0x18) d = (v, d') /\ 0 <= v < 2 ^ 32 /\ up d' /\
    rx d' = rx d /\ tx d' = tx d /\ busy d' = pred (busy d) /\
    (Z.testbit v 5 = false <-> busy d = 0%nat) /\ (Z.testbit v 4 = false <-> rx d <> []);
  dr_load : forall d c q, up d -> rx d = c :: q -> exists v d', mmio_load (base + 0) d = (v, d') /\ 0 <= v < 2 ^ 32 /\
    v mod 256 = c /\ up d' /\ rx d' = q /\ tx d' = tx d;
  dr_store : forall d c, up d -> 0 <= c < 256 -> up (mmio_store (base + 0) c d) /\
    tx (mmio_store (base + 0) c d) = tx d ++ [c] /\ rx (mmio_store (base + 0) c d) = rx d
}.

End devices.

(** What the polling drivers have in common: a status register of [w] bits that
    shows with [can_send] and [has_data] whether the device takes a byte and has one,
    and a data register. *)
Record uart_regs {D : Type} `{Mmio D} (w status data : Z) (can_send has_data : Z -> bool)
    (rx tx : D -> list Z) (busy : D -> nat) (up : D -> Prop) : Prop := {
  status_load : forall d, up d -> exists v d', mmio_load status d = (v, d') /\ 0 <= v < 2 ^ w /\ up d' /\
    rx d' = rx d /\ tx d' = tx d /\ busy d' = pred (busy d) /\
    (can_send v = true <-> busy d = 0%nat) /\ (has_data v = true <-> rx d <> []);
  data_load : forall d c q, up d -> rx d = c :: q -> exists v d', mmio_load data d = (v, d') /\ 0 <= v < 2 ^ w /\
    v mod 256 = c /\ up d' /\ rx d' = q /\ tx d' = tx d;
  data_store : forall d c, up d -> 0 <= c < 256 -> up (mmio_store data c d) /\
    tx (mmio_store data c d) = tx d ++ [c] /\ rx (mmio_store data c d) = rx d
}.

Section drivers.
Context {D : Type} `{Mmio D}.

(** [while (!ready(In(status))) Pause()] *)
Fixpoint poll (fuel : nat) (w status : Z) (ready : Z -> bool) : M D unit :=
  match fuel with
  | O => halt_with SpinWait
  | S n => let* v := In w status in if ready v then ret tt else poll n w status ready
  end.

(** ** NS16550A *)

Definition kRegRHR : Z := 0.
Definition kRegTHR : Z := 0.
Definition kRegIER : Z := 1.
Definition kRegFCR : Z := 2.
Definition kRegLCR : Z := 3.
Definition kRegLSR : Z := 5.
Definition kUartDLL : Z := 0.
Definition kUartDLM : Z := 1.

(** The constructor. *)
Definition new_ns16550a (base_addr_ : Z) : M D unit :=
  let* _ := Out 8 (base_addr_ + kRegIER) 0x00 in
  let* _ := Out 8 (base_addr_ + kRegLCR) 0x80 in
  let* _ := Out 8 (base_addr_ + kUartDLL) 0x03 in
  let* _ := Out 8 (base_addr_ + kUartDLM) 0x00 in
  let* _ := Out 8 (base_addr_ + kRegLCR) 0x03 in
  let* _ := Out 8 (base_addr_ + kRegFCR) 0x07 in
  Out 8 (base_addr_ + kRegIER) 0x01.

Definition lsr_can_send (v : Z) : bool := negb (Z.land v (Z.shiftl 1 5) =? 0).
Definition lsr_has_data (v : Z) : bool := negb (Z.land v (Z.shiftl 1 0) =? 0).

Definition Ns16550a_PutChar (base_addr_ : Z) (fuel : nat) (c : Z) : M D unit :=
  let* _ := poll fuel 8 (base_addr_ + kRegLSR) lsr_can_send in
  Out 8 (base_addr_ + kRegTHR) c.

Definition Ns16550a_GetChar (base_addr_ : Z) (fuel : nat) : M D Z :=
  let* _ := poll fuel 8 (base_addr_ + kRegLSR) lsr_has_data in
  In 8 (base_addr_ + kRegRHR).

Definition Ns16550a_TryGetChar (base_addr_ : Z) : M D Z :=
  let* v := In 8 (base_addr_ + kRegLSR) in
  if lsr_has_data v then In 8 (base_addr_ + kRegRHR) else ret (u8 (-1)).

Definition Ns16550a (base_addr_ : Z) : ConsoleDriver D :=
  MkConsole (Ns16550a_PutChar base_addr_) (Ns16550a_GetChar base_addr_) (Ns16550a_TryGetChar base_addr_).

(** ** PL011 *)

Definition kRegDR : Z := 0x00.
Definition kRegRSRECR : Z := 0x04.
Definition kRegFR : Z := 0x18.
Definition kRegIBRD : Z := 0x24.
Definition kRegFBRD : Z := 0x28.
Definition kRegLCRH : Z := 0x2C.
Definition kRegCR : Z := 0x30.
Definition kRegIMSC : Z := 0x38.
Definition kFRTxFIFO : Z := Z.shiftl 1 5.
Definition kFRRXFE : Z := Z.shiftl 1 4.
Definition kLCRHWlen8 : Z := Z.shiftl 3 5.
Definition kCRRxEnable : Z := Z.shiftl 1 9.
Definition kCRTxEnable : Z := Z.shiftl 1 8.
Definition kCREnable : Z := Z.shiftl 1 0.
Definition kIMSCRxim : Z := Z.shiftl 1 4.

(** [uint32_t divisor = (base_clock_ * 4) / baud_rate_] *)
Definition divisor (base_clock_ baud_rate_ : Z) : Z := u32 (u64 (base_clock_ * 4) / baud_rate_).

Definition new_pl011 (base_addr_ base_clock_ baud_rate_ : Z) : M D unit :=
  let* _ := Out 32 (base_addr_ + kRegRSRECR) 0 in
  let* _ := Out 32 (base_addr_ + kRegCR) 0 in
  let* _ := (if negb (baud_rate_ =? 0) then
               let* _ := Out 32 (base_addr_ + kRegIBRD) (Z.shiftr (divisor base_clock_ baud_rate_) 6) in
               Out 32 (base_addr_ + kRegFBRD) (Z.land (divisor base_clock_ baud_rate_) 0x3f)
             else ret tt) in
  let* _ := Out 32 (base_addr_ + kRegLCRH) kLCRHWlen8 in
  let* _ := Out 32 (base_addr_ + kRegIMSC) kIMSCRxim in
  Out 32 (base_addr_ + kRegCR) (Z.lor (Z.lor kCREnable kCRTxEnable) kCRRxEnable).

Definition fr_can_send (v : Z) : bool := Z.land v kFRTxFIFO =? 0.
Definition fr_has_data (v : Z) : bool := Z.land v kFRRXFE =? 0.

Definition Pl011_PutChar (base_addr_ : Z) (fuel : nat) (c : Z) : M D unit :=
  let* _ := poll fuel 32 (base_addr_ + kRegFR) fr_can_send in
  Out 32 (base_addr_ + kRegDR) c.

Definition Pl011_GetChar (base_addr_ : Z) (fuel : nat) : M D Z :=
  let* _ := poll fuel 32 (base_addr_ + kRegFR) fr_has_data in
  let* v := In 32 (base_addr_ + kRegDR) in ret (u8 v).

Definition Pl011_TryGetChar (base_addr_ : Z) : M D Z :=
  let* v := In 32 (base_addr_ + kRegFR) in
  if fr_has_data v then let* v := In 32 (base_addr_ + kRegDR) in ret (u8 v) else ret (u8 (-1)).

Definition Pl011 (base_addr_ : Z) : ConsoleDriver D :=
  MkConsole (Pl011_PutChar base_addr_) (Pl011_GetChar base_addr_) (Pl011_TryGetChar base_addr_).

(** ** The contract *)

Section contract.
Context (w status data : Z) (can_send has_data : Z -> bool) (rx tx : D -> list Z) (busy : D -> nat) (up : D -> Prop).
Context (dev : uart_regs w status data can_send has_data rx tx busy up).
Context (Hw : 8 <= w) (Hs : u64 status = status) (Hd : u64 data = data).

Lemma byte_wrap v : 0 <= v < 256 -> wrap w v = v.
Proof. intros Hv. apply wrap_small. pose proof (Z.pow_le_mono_r 2 8 w). lia. Qed.

Lemma in_status d : up d -> exists v d', In w status d = Ret d' v /\ up d' /\ rx d' = rx d /\ tx d' = tx d /\
  busy d' = pred (busy d) /\ (can_send v = true <-> busy d = 0%nat) /\ (has_data v = true <-> rx d <> []).
Proof.
  intros U. destruct (status_load _ _ _ _ _ _ _ _ _ dev d U) as (v & d' & E & Hv & R). exists v, d'.
  unfold In. rewrite Hs, E. unfold wrap. rewrite Z.mod_small by done. by split.
Qed.

Lemma in_data d c q : up d -> rx d = c :: q ->
  exists v d', In w data d = Ret d' v /\ u8 v = c /\ up d' /\ rx d' = q /\ tx d' = tx d.
Proof.
  intros U Er. destruct (data_load _ _ _ _ _ _ _ _ _ dev d c q U Er) as (v & d' & E & Hv & Hc & R). exists v, d'.
  unfold In. rewrite Hd, E. unfold wrap. rewrite Z.mod_small by done. by split.
Qed.

Lemma out_data d c : up d -> 0 <= c < 256 ->
  exists d', Out w data c d = Ret d' tt /\ up d' /\ tx d' = tx d ++ [c] /\ rx d' = rx d.
Proof.
  intros U Hc. eexists. unfold Out. rewrite Hd, byte_wrap by done. split; [done|]. by apply (data_store _ _ _ _ _ _ _ _ _ dev).
Qed.

Lemma poll_send fuel : forall d, up d -> (busy d < fuel)%nat ->
  exists d', poll fuel w status can_send d = Ret d' tt /\ up d' /\ rx d' = rx d /\ tx d' = tx d.
Proof.
  induction fuel as [|n IH]; intros d U Hb; [lia|].
  destruct (in_status d U) as (v & d1 & E & U1 & R1 & T1 & B1 & C1 & _). cbn [poll bind]. rewrite E.
  destruct (can_send v) eqn:Ev; [by exists d1|].
  assert (busy d <> 0%nat) by (intros Hz; apply C1 in Hz; congruence).
  destruct (IH d1 U1 ltac:(lia)) as (d2 & E2 & U2 & R2 & T2). exists d2. split; [done|]. by rewrite R2, T2.
Qed.

Lemma poll_data fuel d : up d -> rx d <> [] -> (0 < fuel)%nat ->
  exists d', poll fuel w status has_data d = Ret d' tt /\ up d' /\ rx d' = rx d /\ tx d' = tx d.
Proof.
  intros U Hr Hf. destruct fuel as [|n]; [lia|].
  destruct (in_status d U) as (v & d1 & E & U1 & R1 & T1 & _ & _ & C1). cbn [poll bind]. rewrite E.
  rewrite (proj2 C1 Hr). by exists d1.
Qed.

(** A driver that polls [status] and moves bytes through [data]. *)
Lemma polling_driver_ok (con : ConsoleDriver D) :
  (forall fuel c d, PutChar con fuel c d = (let* _ := poll fuel w status can_send in Out w data c) d) ->
  (forall fuel d, GetChar con fuel d =
     (let* _ := poll fuel w status has_data in let* v := In w data in ret (u8 v)) d) ->
  (forall d, TryGetChar con d =
     (let* v := In w status in if has_data v then let* v := In w data in ret (u8 v) else ret (u8 (-1))) d) ->
  console_ok con rx tx busy up.
Proof.
  intros Hp Hg Ht. split.
  - intros fuel c d U Hc Hf. destruct (poll_send fuel d U Hf) as (d1 & E1 & U1 & R1 & T1).
    destruct (out_data d1 c U1 Hc) as (d2 & E2 & U2 & T2 & R2). exists d2. rewrite Hp. cbn [bind]. rewrite E1.
    split; [exact E2|]. by rewrite T2, R2, R1, T1.
  - intros fuel c q d U Er Hf. destruct (poll_data fuel d U ltac:(by rewrite Er) Hf) as (d1 & E1 & U1 & R1 & T1).
    destruct (in_data d1 c q U1 ltac:(by rewrite R1)) as (v & d2 & E2 & Hc & U2 & R2 & T2).
    exists d2. rewrite Hg. cbn [bind]. rewrite E1. cbn [bind]. rewrite E2. cbn [bind ret]. by rewrite Hc, T2, T1.
  - intros d U. destruct (in_status d U) as (v & d1 & E1 & U1 & R1 & T1 & _ & _ & Hv).
    rewrite Ht. cbn [bind]. rewrite E1. destruct (rx d) as [|c q] eqn:Er.
    + destruct (has_data v) eqn:Ev; [by destruct (proj1 Hv eq_refl)|]. exists d1. by split_and!.
    + rewrite (proj2 Hv) by done. destruct (in_data d1 c q U1 R1) as (x & d2 & E2 & Hc & U2 & R2 & T2).
      exists d2. cbn [bind]. rewrite E2. cbn [bind ret]. by rewrite Hc, T2, T1.
Qed.

End contract.

(** A byte-wide load is a byte already. *)
Lemma in8_u8 a d : In 8 a d = (let* v := In 8 a in ret (u8 v)) d.
Proof.
  cbn [bind]. unfold In. destruct (mmio_load (u64 a) d) as [v d']. cbn. unfold u8. rewrite (wrap_small 8 (wrap 8 v)); [done|].
  apply wrap_range. lia.
Qed.

End drivers.

(** ** The tests of the drivers *)

Lemma mask_bit x k : 0 <= k -> (Z.land x (Z.shiftl 1 k) =? 0) = negb (Z.testbit x k).
Proof.
  intros Hk. rewrite Z.shiftl_1_l. replace (Z.land x (2 ^ k)) with (if Z.testbit x k then 2 ^ k else 0).
  - destruct (Z.testbit x k); [|done]. apply Z.eqb_neq. pose proof (Z.pow_pos_nonneg 2 k). lia.
  - apply Z.bits_inj'. intros i Hi. rewrite Z.land_spec, Z.pow2_bits_eqb by done. destruct (Z.eqb_spec k i) as [<-|Hne].
    + destruct (Z.testbit x k); [by rewrite Z.pow2_bits_true|by rewrite Z.testbit_0_l].
    + rewrite andb_false_r. destruct (Z.testbit x k); [by rewrite Z.pow2_bits_false|by rewrite Z.testbit_0_l].
Qed.

Lemma lsr_bits v : lsr_can_send v = Z.testbit v 5 /\ lsr_has_data v = Z.testbit v 0.
Proof.
  unfold lsr_can_send, lsr_has_data. by rewrite !mask_bit, !negb_involutive.
Qed.

Lemma fr_bits v : fr_can_send v = negb (Z.testbit v 5) /\ fr_has_data v = negb (Z.testbit v 4).
Proof.
  unfold fr_can_send, fr_has_data, kFRTxFIFO, kFRRXFE. by rewrite !mask_bit.
Qed.

Section common.
Context {D : Type} `{Mmio D} {base : Z} {rx tx : D -> list Z} {busy : D -> nat} {up : D -> Prop}.

Lemma ns16550_regs : ns16550_device base rx tx busy up ->
  uart_regs 8 (base + kRegLSR) (base + kRegRHR) lsr_can_send lsr_has_data rx tx busy up.
Proof.
  intros [Hl Hr Ht]. split; [| |exact Ht].
  - intros d U. destruct (Hl d U) as (v & d' & E & R). exists v, d'. destruct (lsr_bits v) as [-> ->]. by split.
  - intros d c q U Er. destruct (Hr d c q U Er) as (d' & E & Hc & R). exists c, d'. split_and!; try done; try lia; try apply R.
    by apply Z.mod_small.
Qed.

Lemma pl011_regs : pl011_device base rx tx busy up ->
  uart_regs 32 (base + kRegFR) (base + kRegDR) fr_can_send fr_has_data rx tx busy up.
Proof.
  intros [Hl Hr Ht]. split; [|exact Hr|exact Ht].
  intros d U. destruct (Hl d U) as (v & d' & E & R). exists v, d'. destruct (fr_bits v) as [-> ->]. by rewrite !negb_true_iff.
Qed.

End common.

(** ** The claims *)


(** ** Two devices *)

(** Received bytes, sent bytes, and how many more times the device is busy. *)
Record Queues := MkQueues { u_rx : list Z; u_tx : list Z; u_busy : nat }.
Definition bytes_only (d : Queues) : Prop := Forall (fun c => 0 <= c < 256) (u_rx d).
Definition polled (d : Queues) : Queues := MkQueues (u_rx d) (u_tx d) (pred (u_busy d)).
Definition received (d : Queues) : Z * Queues := (default 0 (head (u_rx d)), MkQueues (tail (u_rx d)) (u_tx d) (u_busy d)).
Definition transmit (v : Z) (d : Queues) : Queues := MkQueues (u_rx d) (u_tx d ++ [v mod 256]) (u_busy d).

(** A 16550 at address 0. *)
Definition sample_16550 : Mmio Queues := {|
  mmio_load a d :=
    if a =? 5 then (Z.lor (if (u_busy d =? 0)%nat then 0x60 else 0) (match u_rx d with [] => 0 | _ => 1 end), polled d)
    else if a =? 0 then received d else (0, d);
  mmio_store a v d := if a =? 0 then transmit v d else d
|}.

(** A PL011 at address 0x9000000 that flags every byte with a framing error; bit 8
    (RI) of its flag register is set. *)
Definition sample_pl011 : Mmio Queues := {|
  mmio_load a d :=
    if a =? 0x9000018 then
      (Z.lor 0x100 (Z.lor (if (u_busy d =? 0)%nat then 0 else 0x20) (match u_rx d with [] => 0x10 | _ => 0 end)), polled d)
    else if a =? 0x9000000 then (0x100 + fst (received d), snd (received d)) else (0, d);
  mmio_store a v d := if a =? 0x9000000 then transmit v d else d
|}.

Lemma sample_16550_device : @ns16550_device Queues sample_16550 0 u_rx u_tx u_busy bytes_only.
Proof.
  split.
  - intros [r x b] U. eexists _, _. split; [reflexivity|]. cbn [u_rx u_tx u_busy polled] in *.
    destruct b as [|b], r as [|c r]; cbn; split_and!; try done; try lia.
  - intros [r x b] c q U E. cbn in *. subst r. eexists. split; [reflexivity|]. by apply Forall_cons in U as [Hc U].
  - intros [r x b] c U Hc. change (mmio_store _ c _) with (transmit c (MkQueues r x b)). unfold transmit. cbn [u_rx u_tx u_busy].
    by rewrite Z.mod_small by lia.
Qed.

Lemma sample_pl011_device : @pl011_device Queues sample_pl011 0x9000000 u_rx u_tx u_busy bytes_only.
Proof.
  split.
  - intros [r x b] U. eexists _, _. split; [reflexivity|]. cbn [u_rx u_tx u_busy polled] in *.
    destruct b as [|b], r as [|c r]; cbn; split_and!; try done; try lia.
  - intros [r x b] c q U E. cbn in *. subst r. eexists _, _. split; [reflexivity|]. apply Forall_cons in U as [Hc U]. cbn -[Z.modulo].
    split_and!; try done; try lia. rewrite Z.add_comm. change 256 with (1 * 256) at 1. rewrite Z.mod_add by lia. by apply Z.mod_small.
  - intros [r x b] c U Hc. change (mmio_store _ c _) with (transmit c (MkQueues r x b)). unfold transmit. cbn [u_rx u_tx u_busy].
    by rewrite Z.mod_small by lia.
Qed.


End Uart.
