(* ===== verification/Interrupt.v ===== *)
(** * Traps of riscv64: src/src/arch/riscv64/{interrupt,interrupt_main,timer}.cpp

    The two tables of handlers, the handlers that the kernel registers, the entry
    [HandleTrap], and the boot-time setup.  The handlers are lambdas without
    captures; [InterruptFunc] names them and [run_func] is what they do.  A
    handler of a trap joins the other components: the system calls (Syscall.v),
    the timer tick (TaskManager.v), the interrupt controller and the serial port
    (Plic.v, Uart.v), and the control registers (Csr.v).

    The firmware calls [sbi_set_timer] and [sbi_send_ipi] are outside: the first
    sets the deadline of the core, the answer of the second is a parameter. *)

From stdpp Require Import base numbers list gmap functions strings.
From Stdlib Require Import ZArith Lia.
From S2P Require Import Prelude CMem Errors Tcb TaskManager Csr TrapContext Syscall Mmio Plic Uart Paging VirtualMemory.
Import TaskManager.

Local Open Scope Z_scope.

Module Interrupt.

Import Syscall.

(** ** State *)

(** [ScauseInfo] *)
Definition kInterruptMaxCount : nat := 16.
Definition kExceptionMaxCount : nat := 20.
Definition kBreakpoint : Z := 3.
Definition kEcallUserMode : Z := 8.
Definition kInstructionPageFault : Z := 12.
Definition kLoadPageFault : Z := 13.
Definition kStoreAmoPageFault : Z := 15.

(** The functions that are put into the tables. *)
Inductive InterruptFunc :=
| DefaultInterrupt
| DefaultException
| OnExternalInterrupt
| OnBreakpoint
| OnPageFault
| OnEcall
| OnSoftwareInterrupt
| OnTimerInterrupt.

(** The function that is registered with the interrupt controller. *)
Inductive ExternalFunc := OnSerial.

#[global] Instance InterruptFunc_eq_dec : EqDecision InterruptFunc.
Proof. solve_decision. Defined.

Record Machine (D : Type) := MkMachine {
  sys : Sys Riscv64Frame.reg;
  csrs : Z -> Csr.RegInfo -> Z;         (* of each core *)
  deadline : Z -> Z;                    (* of each core's timer *)
  interval : Z;                         (* timer.cpp *)
  interrupt_handlers_ : list InterruptFunc;
  exception_handlers_ : list InterruptFunc;
  plic : Plic.Plic;
  plic_handlers : list (option ExternalFunc);
  serial : Z;                           (* base address of the Ns16550a *)
  dev : D;
  ipi_sent : list Z                     (* masks handed to the firmware *)
}.
Arguments MkMachine {D}.
Arguments sys {D} m.
Arguments csrs {D} m.
Arguments deadline {D} m.
Arguments interval {D} m.
Arguments interrupt_handlers_ {D} m.
Arguments exception_handlers_ {D} m.
Arguments plic {D} m.
Arguments plic_handlers {D} m.
Arguments serial {D} m.
Arguments dev {D} m.
Arguments ipi_sent {D} m.

Section ops.
Context {D : Type} `{Mmio D}.
Abbreviation IM A := (M (Machine D) A) (only parsing).

Definition set_sys (v : Sys Riscv64Frame.reg) (m : Machine D) : Machine D :=
  MkMachine v (csrs m) (deadline m) (interval m) (interrupt_handlers_ m) (exception_handlers_ m) (plic m) (plic_handlers m) (serial m) (dev m) (ipi_sent m).
Definition set_csrs (v : Z -> Csr.RegInfo -> Z) (m : Machine D) : Machine D :=
  MkMachine (sys m) v (deadline m) (interval m) (interrupt_handlers_ m) (exception_handlers_ m) (plic m) (plic_handlers m) (serial m) (dev m) (ipi_sent m).
Definition set_deadline (v : Z -> Z) (m : Machine D) : Machine D :=
  MkMachine (sys m) (csrs m) v (interval m) (interrupt_handlers_ m) (exception_handlers_ m) (plic m) (plic_handlers m) (serial m) (dev m) (ipi_sent m).
Definition set_interval (v : Z) (m : Machine D) : Machine D :=
  MkMachine (sys m) (csrs m) (deadline m) v (interrupt_handlers_ m) (exception_handlers_ m) (plic m) (plic_handlers m) (serial m) (dev m) (ipi_sent m).
Definition set_interrupt_handlers (v : list InterruptFunc) (m : Machine D) : Machine D :=
  MkMachine (sys m) (csrs m) (deadline m) (interval m) v (exception_handlers_ m) (plic m) (plic_handlers m) (serial m) (dev m) (ipi_sent m).
Definition set_exception_handlers (v : list InterruptFunc) (m : Machine D) : Machine D :=
  MkMachine (sys m) (csrs m) (deadline m) (interval m) (interrupt_handlers_ m) v (plic m) (plic_handlers m) (serial m) (dev m) (ipi_sent m).
Definition set_plic (v : Plic.Plic) (m : Machine D) : Machine D :=
  MkMachine (sys m) (csrs m) (deadline m) (interval m) (interrupt_handlers_ m) (exception_handlers_ m) v (plic_handlers m) (serial m) (dev m) (ipi_sent m).
Definition set_plic_handlers (v : list (option ExternalFunc)) (m : Machine D) : Machine D :=
  MkMachine (sys m) (csrs m) (deadline m) (interval m) (interrupt_handlers_ m) (exception_handlers_ m) (plic m) v (serial m) (dev m) (ipi_sent m).
Definition set_serial (v : Z) (m : Machine D) : Machine D :=
  MkMachine (sys m) (csrs m) (deadline m) (interval m) (interrupt_handlers_ m) (exception_handlers_ m) (plic m) (plic_handlers m) v (dev m) (ipi_sent m).
Definition set_dev (v : D) (m : Machine D) : Machine D :=
  MkMachine (sys m) (csrs m) (deadline m) (interval m) (interrupt_handlers_ m) (exception_handlers_ m) (plic m) (plic_handlers m) (serial m) v (ipi_sent m).
Definition set_ipi_sent (v : list Z) (m : Machine D) : Machine D :=
  MkMachine (sys m) (csrs m) (deadline m) (interval m) (interrupt_handlers_ m) (exception_handlers_ m) (plic m) (plic_handlers m) (serial m) (dev m) v.

(** The parts of the machine. *)
Definition on_sys {A} (x : M (Sys Riscv64Frame.reg) A) : IM A := fun m =>
  match x (sys m) with
  | Ret s a => Ret (set_sys s m) a
  | Halt s w => Halt (set_sys s m) w
  end.
Definition on_dev {A} (x : M D A) : IM A := fun m =>
  match x (dev m) with
  | Ret d a => Ret (set_dev d m) a
  | Halt d w => Halt (set_dev d m) w
  end.
(** A register access of core [c]; Csr.v gives [None] for code that does not build. *)
Definition on_csr {A} (c : Z) (x : Csr.access A) : IM A := fun m =>
  match x (csrs m c) with
  | Some (a, r) => Ret (set_csrs (<[c := r]> (csrs m)) m) a
  | None => Halt m Diverges
  end.

(** [sbi_set_timer] *)
Definition sbi_set_timer (c : Z) (v : Z) : IM unit :=
  modify (fun m => set_deadline (<[c := u64 v]> (deadline m)) m).

(** ** The handlers *)

Context (kernel_thread_entry : Z) (ClonePageDirectory : ptr -> Expected ptr) (mem : CloneMemory).

(** [Do] of the controller for a claimed source: an entry that is null or lies
    behind the table is called all the same. *)
Definition run_external (source_id : Z) : IM unit :=
  let* hs := gets plic_handlers in
  match Plic.Do hs source_id with
  | None => halt_with (BadPointer nullptr)
  | Some OnSerial =>
      let* base := gets serial in
      let* ch := on_dev (Uart.Ns16550a_TryGetChar base) in
      on_sys (modify (fun s => set_console (console s ++ [ch]) s))
  end.

(** A handler; [Some v] when it is a system call whose task was switched away
    (see Syscall.v). *)
Definition run_func (c : Z) (f : InterruptFunc) (context : ptr) : IM (option Z) :=
  match f with
  | DefaultInterrupt => ret None
  | DefaultException => halt_with Parked
  | OnExternalInterrupt =>
      let* p := gets plic in
      let* source_id := on_dev (Plic.Which p c) in
      let* _ := run_external source_id in
      let* _ := on_dev (Plic.Done p c source_id) in
      ret None
  | OnBreakpoint =>
      let* fr := on_sys (frame_at context) in
      let* instruction := on_sys (load 1 (fr Riscv64Frame.sepc)) in
      let len := if negb (Z.land instruction 0x3 =? 0x3) then 2 else 4 in
      let* _ := on_sys (upd_frame context (fun fr => <[Riscv64Frame.sepc := u64 (fr Riscv64Frame.sepc + len)]> fr)) in
      ret None
  | OnPageFault =>
      let* _ := on_csr c (Csr.Read Csr.StvalInfo) in
      let* _ := on_sys (frame_at context) in
      halt_with Parked
  | OnEcall =>
      on_sys (Syscall.Syscall kernel_thread_entry ClonePageDirectory mem generic_numbers c context)
  | OnSoftwareInterrupt =>
      let* _ := on_csr c (Csr.Clear Csr.Sip_Ssip) in
      ret None
  | OnTimerInterrupt =>
      let* now := on_csr c (Csr.Read Csr.TimeInfo) in
      let* i := gets interval in
      let* _ := sbi_set_timer c (now + i) in
      let* _ := on_sys (on_kernel (TickUpdate kernel_thread_entry c)) in
      ret None
  end.

(** ** The tables *)

(** The constructor. *)
Definition new_interrupt : IM unit := modify (fun m =>
  set_exception_handlers (replicate kExceptionMaxCount DefaultException)
    (set_interrupt_handlers (replicate kInterruptMaxCount DefaultInterrupt) m)).

Definition is_interrupt (cause : Z) : bool := negb (Csr.field_of Csr.Scause_Interrupt cause =? 0).
Definition exception_code (cause : Z) : Z := Csr.field_of Csr.Scause_ExceptionCode cause.

(** The entry that [Do] calls. *)
Definition handler_of (cause : Z) (m : Machine D) : option InterruptFunc :=
  let code := exception_code cause in
  if is_interrupt cause then
    if code <? Z.of_nat kInterruptMaxCount then interrupt_handlers_ m !! Z.to_nat code else None
  else
    if code <? Z.of_nat kExceptionMaxCount then exception_handlers_ m !! Z.to_nat code else None.

Definition Do (c : Z) (cause : Z) (context : ptr) : IM (option Z) :=
  let* f := gets (handler_of cause) in
  match f with
  | Some f => run_func c f context
  | None => ret None
  end.

Definition RegisterInterruptFunc (cause : Z) (func : InterruptFunc) : IM unit :=
  let code := exception_code cause in
  if is_interrupt cause then
    let* _ := nk_assert_msg (code <? Z.of_nat kInterruptMaxCount) "Interrupt code out of range" in
    modify (fun m => set_interrupt_handlers (<[Z.to_nat code := func]> (interrupt_handlers_ m)) m)
  else
    let* _ := nk_assert_msg (code <? Z.of_nat kExceptionMaxCount) "Exception code out of range" in
    modify (fun m => set_exception_handlers (<[Z.to_nat code := func]> (exception_handlers_ m)) m).

Definition HandleTrap (c : Z) (context : ptr) : IM (option Z) :=
  let* fr := on_sys (frame_at context) in
  Do c (fr Riscv64Frame.scause) context.

(** ** Inter-processor interrupts *)

Definition NAILONG_KERNEL_MAX_CORE_COUNT : Z := Z.of_nat MAX_CORE_COUNT.

(** [sbi_send_ipi(mask, 0)] with its answer: [SBI_SUCCESS] is 0. *)
Context (sbi_send_ipi : Z -> Z).

Definition SendIpi (target_cpu_mask : Z) : IM (Expected unit) :=
  if Z.shiftl 1 NAILONG_KERNEL_MAX_CORE_COUNT - 1 <? target_cpu_mask then ret (Unexpected kIpiTargetOutOfRange)
  else
    let* _ := modify (fun m => set_ipi_sent (ipi_sent m ++ [target_cpu_mask]) m) in
    if negb (sbi_send_ipi target_cpu_mask =? 0) then ret (Unexpected kIpiSendFailed) else ret (Value tt).

(** [for (i = 0; i < core_count; ++i) if (i != current) mask |= 1UL << i] *)
Fixpoint others_mask (n : nat) (current : Z) : Z :=
  match n with
  | O => 0
  | S k =>
      if Z.of_nat k =? current then others_mask k current
      else Z.lor (others_mask k current) (u64 (Z.shiftl 1 (Z.of_nat k)))
  end.

Definition BroadcastIpi (c core_count : Z) : IM (Expected unit) :=
  if core_count =? 1 then ret (Value tt) else SendIpi (others_mask (Z.to_nat core_count) c).

(** ** Setup *)

(** What the device tree says: the serial port and its interrupt, the
    controller with its sources and contexts; and [BasicInfo::interval]. *)
Record Platform := MkPlatform {
  serial_base : Z; serial_irq : Z; plic_addr : Z; plic_size : Z; plic_ndev : Z; plic_contexts : Z; frequency : Z; trap_entry : Z
}.
Context (pf : Platform).

Definition RegisterInterrupts : IM unit :=
  let* _ := RegisterInterruptFunc Csr.kSupervisorExternalInterrupt OnExternalInterrupt in
  let* _ := on_dev (Uart.new_ns16550a (serial_base pf)) in
  let* _ := modify (set_serial (serial_base pf)) in
  let* hs := gets plic_handlers in
  let* _ := (match Plic.RegisterInterruptFunc hs (serial_irq pf) OnSerial with
             | Some hs' => modify (set_plic_handlers hs')
             | None => halt_with (BadPointer (serial_irq pf))
             end) in
  let* _ := RegisterInterruptFunc kBreakpoint OnBreakpoint in
  let* _ := RegisterInterruptFunc kInstructionPageFault OnPageFault in
  let* _ := RegisterInterruptFunc kLoadPageFault OnPageFault in
  let* _ := RegisterInterruptFunc kStoreAmoPageFault OnPageFault in
  let* _ := RegisterInterruptFunc kEcallUserMode OnEcall in
  RegisterInterruptFunc Csr.kSupervisorSoftwareInterrupt OnSoftwareInterrupt.

Definition TimerInitSMP (c : Z) : IM unit :=
  let* _ := on_csr c (Csr.Set_ Csr.Sie_Stie) in
  let* i := gets interval in
  sbi_set_timer c i.

Definition TimerInit (c : Z) : IM unit :=
  let* _ := modify (set_interval (frequency pf / NAILONG_KERNEL_TICK)) in
  let* _ := RegisterInterruptFunc Csr.kSupervisorTimerInterrupt OnTimerInterrupt in
  let* _ := on_csr c (Csr.Set_ Csr.Sie_Stie) in
  let* i := gets interval in
  sbi_set_timer c i.

(** The registers that a core sets before it takes interrupts; a trap entry that
    is not aligned is only reported. *)
Definition enable_traps (c : Z) : IM unit :=
  let* _ := on_csr c (Csr.SetDirect (trap_entry pf)) in
  let* _ := on_csr c (Csr.Set_ Csr.Sstatus_Sie) in
  let* _ := on_csr c (Csr.Set_ Csr.Sie_Ssie) in
  on_csr c (Csr.Set_ Csr.Sie_Seie).

(** [InterruptInit] also maps the registers of the controller; whether that
    succeeded is not looked at. *)
Section init.
Context {P : Paging} {A : Type} `{PageAllocator A}.

Definition on_machine {T} (x : IM T) : M (Machine D * VirtualMemory.Vm A) T := fun s =>
  match x s.1 with
  | Ret m a => Ret (m, s.2) a
  | Halt m w => Halt (m, s.2) w
  end.
Definition on_vm {T} (x : M (VirtualMemory.Vm A) T) : M (Machine D * VirtualMemory.Vm A) T := fun s =>
  match x s.2 with
  | Ret v a => Ret (s.1, v) a
  | Halt v w => Halt (s.1, v) w
  end.

Definition InterruptInit (c : Z) : M (Machine D * VirtualMemory.Vm A) unit :=
  let* _ := on_machine RegisterInterrupts in
  let* _ := on_vm (VirtualMemory.MapMMIO (plic_addr pf) (plic_size pf) kernel_permissions) in
  let* p := on_machine (on_dev (Plic.new_plic (plic_addr pf) (plic_ndev pf) (plic_contexts pf))) in
  let* _ := on_machine (modify (set_plic p)) in
  let* _ := on_machine (enable_traps c) in
  let* _ := on_machine (on_dev (Plic.Set_ p (u32 c) (u32 (serial_irq pf)) 1 true)) in
  on_machine (TimerInit c).

End init.

Definition InterruptInitSMP (c : Z) : IM unit :=
  let* _ := enable_traps c in
  TimerInitSMP c.

End ops.
End Interrupt.
