(* ===== verification/InterruptProps.v ===== *)
(** * Properties of the trap handling of riscv64

    After the boot-time setup every cause is routed to its handler; the timer
    interrupt is a tick of the kernel, an ecall is a system call, an external
    interrupt of the serial port moves one byte to the console. *)

From stdpp Require Import base numbers list gmap functions strings.
From Stdlib Require Import ZArith Lia.
From S2P Require Import Prelude CMem Errors SpinLock Tcb Schedulers TaskManager KernelInv KernelSpec KernelProps KernelRun Csr TrapContext Syscall SyscallProps Mmio Plic Uart Paging VirtualMemory VmInv VmProps VmBoot VmCount Interrupt.
Import TaskManager KernelInv KernelSpec KernelProps KernelRun.

Local Open Scope Z_scope.

Module InterruptProps.

Import Syscall SyscallProps Interrupt.

(** ** Total device accesses *)

Section total.
Context {D : Type} `{Mmio D}.

(** An operation on the device that always returns. *)
Definition returns {A} (x : M D A) : Prop := forall d, exists d' a, x d = Ret d' a.

Lemma returns_in w a : returns (In w a).
Proof. intros d. unfold In. destruct (mmio_load _ d). eauto. Qed.
Lemma returns_out w a v : returns (Out w a v).
Proof. intros d. unfold Out. eauto. Qed.
Lemma dev_returns_bind {A B} (x : M D A) (f : A -> M D B) : returns x -> (forall a, returns (f a)) -> returns (let* a := x in f a).
Proof. intros Hx Hf d. cbn [bind]. destruct (Hx d) as (d1 & a & ->). apply Hf. Qed.
Lemma returns_ret {A} (a : A) : returns (ret a).
Proof. intros d. cbn. eauto. Qed.
Lemma returns_for n body : (forall i, returns (body i)) -> returns (Plic.for_to n body).
Proof. intros Hb. induction n as [|n IH]; cbn [Plic.for_to]; [apply returns_ret|]. by apply dev_returns_bind. Qed.

Hint Resolve returns_in returns_out dev_returns_bind returns_ret returns_for : returns.

Lemma returns_new_plic a n k : returns (Plic.new_plic a n k).
Proof. unfold Plic.new_plic, Plic.SetEnableBit. auto 10 with returns. Qed.
Lemma returns_set p h s q e : returns (Plic.Set_ p h s q e).
Proof. unfold Plic.Set_, Plic.SetEnableBit. auto with returns. Qed.
Lemma returns_new_ns16550a b : returns (Uart.new_ns16550a b).
Proof. unfold Uart.new_ns16550a. auto 10 with returns. Qed.

Lemma on_dev_returns {A} (x : M D A) (m : Machine D) : returns x -> exists d a, on_dev x m = Ret (set_dev d m) a.
Proof. intros Hx. unfold on_dev. destruct (Hx (dev m)) as (d & a & ->). eauto. Qed.

(** A register access that builds. *)
Lemma on_csr_some {A} c (x : Csr.access A) (m : Machine D) a r :
  x (csrs m c) = Some (a, r) -> on_csr c x m = Ret (set_csrs (<[c := r]> (csrs m)) m) a.
Proof. intros E. unfold on_csr. by rewrite E. Qed.

Lemma set_direct_builds addr r : exists b r', Csr.SetDirect addr r = Some (b, r').
Proof. unfold Csr.SetDirect. destruct (negb _); eexists _, _; reflexivity. Qed.

(** ** Routing *)

(** Which handler a cause has after the setup. *)
Definition routed (cause : Z) : option InterruptFunc :=
  let code := exception_code cause in
  if is_interrupt cause then
    if code =? 1 then Some OnSoftwareInterrupt
    else if code =? 5 then Some OnTimerInterrupt
    else if code =? 9 then Some OnExternalInterrupt
    else if code <? 16 then Some DefaultInterrupt else None
  else
    if code =? 3 then Some OnBreakpoint
    else if code =? 8 then Some OnEcall
    else if (code =? 12) || (code =? 13) || (code =? 15) then Some OnPageFault
    else if code <? 20 then Some DefaultException else None.

Definition interrupt_table : list InterruptFunc :=
  <[5%nat := OnTimerInterrupt]> (<[1%nat := OnSoftwareInterrupt]> (<[9%nat := OnExternalInterrupt]>
    (replicate kInterruptMaxCount DefaultInterrupt))).
Definition exception_table : list InterruptFunc :=
  <[8%nat := OnEcall]> (<[15%nat := OnPageFault]> (<[13%nat := OnPageFault]> (<[12%nat := OnPageFault]>
    (<[3%nat := OnBreakpoint]> (replicate kExceptionMaxCount DefaultException))))).

Lemma exception_code_nonneg cause : 0 <= exception_code cause.
Proof. unfold exception_code, Csr.field_of, Csr.to_data. cbn -[wrap Z.land Z.shiftr]. apply wrap_range. lia. Qed.

(** A property of the small codes, by cases. *)
Lemma small_codes (P : Z -> Prop) n code :
  (forall k, (k < n)%nat -> P (Z.of_nat k)) -> 0 <= code < Z.of_nat n -> P code.
Proof. intros HP Hc. rewrite <- (Z2Nat.id code) by lia. apply HP. lia. Qed.

Lemma tables_route cause (m : Machine D) :
  interrupt_handlers_ m = interrupt_table -> exception_handlers_ m = exception_table -> handler_of cause m = routed cause.
Proof.
  intros Hi He. unfold handler_of, routed. rewrite Hi, He. pose proof (exception_code_nonneg cause) as H0.
  generalize (exception_code cause) as code, H0. intros code Hc. destruct (is_interrupt cause).
  - destruct (Z.ltb_spec code (Z.of_nat kInterruptMaxCount)) as [Hl|Hl].
    + pattern code. apply (small_codes _ kInterruptMaxCount); [|done].
      unfold kInterruptMaxCount. intros k Hk. do 16 (destruct k as [|k]; [reflexivity|]). lia.
    + unfold kInterruptMaxCount in Hl. rewrite !(proj2 (Z.eqb_neq _ _)) by lia. by rewrite (proj2 (Z.ltb_ge _ _)).
  - destruct (Z.ltb_spec code (Z.of_nat kExceptionMaxCount)) as [Hl|Hl].
    + pattern code. apply (small_codes _ kExceptionMaxCount); [|done].
      unfold kExceptionMaxCount. intros k Hk. do 20 (destruct k as [|k]; [reflexivity|]). lia.
    + unfold kExceptionMaxCount in Hl. rewrite !(proj2 (Z.eqb_neq _ _)) by lia. by rewrite (proj2 (Z.ltb_ge _ _)).
Qed.

(** ** Setup *)

Lemma register_interrupt cause f (m : Machine D) :
  is_interrupt cause = true -> exception_code cause < 16 ->
  RegisterInterruptFunc cause f m =
    Ret (set_interrupt_handlers (<[Z.to_nat (exception_code cause) := f]> (interrupt_handlers_ m)) m) tt.
Proof.
  intros Hi Hc. unfold RegisterInterruptFunc. rewrite Hi. cbn [bind nk_assert_msg]. by rewrite (proj2 (Z.ltb_lt _ _)).
Qed.

Lemma register_exception cause f (m : Machine D) :
  is_interrupt cause = false -> exception_code cause < 20 ->
  RegisterInterruptFunc cause f m =
    Ret (set_exception_handlers (<[Z.to_nat (exception_code cause) := f]> (exception_handlers_ m)) m) tt.
Proof.
  intros Hi Hc. unfold RegisterInterruptFunc. rewrite Hi. cbn [bind nk_assert_msg]. by rewrite (proj2 (Z.ltb_lt _ _)).
Qed.

(** What the setup leaves, up to the state of the devices. *)
Record set_up (pf : Platform) (c : Z) (m m' : Machine D) : Prop := {
  su_interrupts : interrupt_handlers_ m' = interrupt_table;
  su_exceptions : exception_handlers_ m' = exception_table;
  su_external : plic_handlers m' = <[Z.to_nat (u8 (serial_irq pf)) := Some OnSerial]> Plic.no_handlers;
  su_serial : serial m' = serial_base pf;
  su_interval : interval m' = frequency pf / NAILONG_KERNEL_TICK;
  su_deadline : deadline m' = <[c := u64 (frequency pf / NAILONG_KERNEL_TICK)]> (deadline m);
  su_sys : sys m' = sys m;
  su_other : forall d, d <> c -> csrs m' d = csrs m d
}.

Ltac register :=
  rewrite ?register_interrupt by (vm_compute; reflexivity); rewrite ?register_exception by (vm_compute; reflexivity);
  cbn [bind modify gets].

Lemma register_interrupts_spec pf (m : Machine D) :
  interrupt_handlers_ m = replicate kInterruptMaxCount DefaultInterrupt ->
  exception_handlers_ m = replicate kExceptionMaxCount DefaultException ->
  plic_handlers m = Plic.no_handlers -> u8 (serial_irq pf) < 16 ->
  exists m', RegisterInterrupts pf m = Ret m' tt /\
    <[5%nat := OnTimerInterrupt]> (interrupt_handlers_ m') = interrupt_table /\ exception_handlers_ m' = exception_table /\
    plic_handlers m' = <[Z.to_nat (u8 (serial_irq pf)) := Some OnSerial]> Plic.no_handlers /\
    serial m' = serial_base pf /\ deadline m' = deadline m /\ csrs m' = csrs m /\ sys m' = sys m.
Proof.
  intros Hi He Hp Hq. unfold RegisterInterrupts. cbn [bind]. register.
  match goal with |- context [on_dev (Uart.new_ns16550a _) ?x] =>
    destruct (on_dev_returns (Uart.new_ns16550a (serial_base pf)) x (returns_new_ns16550a _)) as (d & [] & Ed) end.
  rewrite Ed. cbn [bind modify gets]. unfold Plic.RegisterInterruptFunc. rewrite (proj2 (Z.ltb_lt _ _)) by done.
  cbn [bind modify gets]. register. eexists. split; [reflexivity|]. cbn. rewrite Hi, He, Hp. split_and!; reflexivity.
Qed.

(** Only the control registers of core [c] change. *)
Definition csr_step (c : Z) (m m' : Machine D) : Prop :=
  exists r, m' = set_csrs r m /\ forall d, d <> c -> r d = csrs m d.

Lemma csr_step_trans c m1 m2 m3 : csr_step c m1 m2 -> csr_step c m2 m3 -> csr_step c m1 m3.
Proof.
  intros (r1 & -> & H1) (r2 & -> & H2). exists r2. split; [done|]. intros d Hd. by rewrite H2, <- H1.
Qed.

Lemma on_csr_step {A} c (x : Csr.access A) (m : Machine D) :
  (forall r, exists a r', x r = Some (a, r')) -> exists m' a, on_csr c x m = Ret m' a /\ csr_step c m m'.
Proof.
  intros Hx. destruct (Hx (csrs m c)) as (a & r & E). eexists _, a. rewrite (on_csr_some c x m a r E). split; [done|].
  eexists. split; [done|]. intros d Hd. cbn. by rewrite fn_lookup_insert_ne.
Qed.

Lemma set_builds f : f ∈ [Csr.Sstatus_Sie; Csr.Sie_Ssie; Csr.Sie_Seie; Csr.Sie_Stie] ->
  forall r, exists a r', Csr.Set_ f r = Some (a, r').
Proof.
  rewrite !elem_of_cons, elem_of_nil. intros [->|[->|[->|[->|[]]]]] r; eexists _, _; reflexivity.
Qed.

Ltac in_list := first [by left|right; in_list].

Lemma enable_traps_spec pf c (m : Machine D) : exists m', enable_traps pf c m = Ret m' tt /\ csr_step c m m'.
Proof.
  unfold enable_traps. cbn [bind].
  destruct (on_csr_step c _ m (set_direct_builds (trap_entry pf))) as (m1 & b & E1 & S1). rewrite E1. cbn [bind].
  destruct (on_csr_step c _ m1 (set_builds Csr.Sstatus_Sie ltac:(in_list))) as (m2 & [] & E2 & S2). rewrite E2. cbn [bind].
  destruct (on_csr_step c _ m2 (set_builds Csr.Sie_Ssie ltac:(in_list))) as (m3 & [] & E3 & S3). rewrite E3. cbn [bind].
  destruct (on_csr_step c _ m3 (set_builds Csr.Sie_Seie ltac:(in_list))) as (m4 & [] & E4 & S4). exists m4. split; [done|].
  eapply csr_step_trans; [exact S1|]. eapply csr_step_trans; [exact S2|]. by eapply csr_step_trans.
Qed.

Lemma timer_init_spec pf c (m : Machine D) :
  exists m', TimerInit pf c m = Ret m' tt /\
    interrupt_handlers_ m' = <[5%nat := OnTimerInterrupt]> (interrupt_handlers_ m) /\
    exception_handlers_ m' = exception_handlers_ m /\ plic_handlers m' = plic_handlers m /\ serial m' = serial m /\
    interval m' = frequency pf / NAILONG_KERNEL_TICK /\
    deadline m' = <[c := u64 (frequency pf / NAILONG_KERNEL_TICK)]> (deadline m) /\ sys m' = sys m /\
    (forall d, d <> c -> csrs m' d = csrs m d).
Proof.
  unfold TimerInit. cbn [bind modify]. register.
  match goal with |- context [on_csr c _ ?x] =>
    destruct (on_csr_step c _ x (set_builds Csr.Sie_Stie ltac:(in_list))) as (m1 & [] & E1 & r & -> & Hr) end.
  rewrite E1. cbn [bind gets]. unfold sbi_set_timer. cbn [modify]. eexists. split; [reflexivity|]. by split_and!.
Qed.

Section init.
Context {P : Paging} {A : Type} `{PageAllocator A}.

Lemma on_machine_ret {T} (x : M (Machine D) T) m m' (v : VirtualMemory.Vm A) a :
  x m = Ret m' a -> on_machine x (m, v) = Ret (m', v) a.
Proof. intros E. unfold on_machine. cbn. by rewrite E. Qed.

Lemma interrupt_init_spec pf c (m : Machine D) (v v' : VirtualMemory.Vm A) r :
  interrupt_handlers_ m = replicate kInterruptMaxCount DefaultInterrupt ->
  exception_handlers_ m = replicate kExceptionMaxCount DefaultException ->
  plic_handlers m = Plic.no_handlers -> u8 (serial_irq pf) < 16 ->
  VirtualMemory.MapMMIO (plic_addr pf) (plic_size pf) kernel_permissions v = Ret v' r ->
  exists m', InterruptInit pf c (m, v) = Ret (m', v') tt /\ set_up pf c m m'.
Proof.
  intros Hi He Hp Hq Hv. destruct (register_interrupts_spec pf m Hi He Hp Hq) as (m1 & E1 & A1 & A2 & A3 & A4 & A5 & A6 & A7).
  unfold InterruptInit. cbn [bind]. rewrite (on_machine_ret _ _ _ _ _ E1). cbn [bind].
  unfold on_vm at 1. cbn [fst snd]. rewrite Hv. cbn [bind].
  destruct (on_dev_returns (Plic.new_plic (plic_addr pf) (plic_ndev pf) (plic_contexts pf)) m1 (returns_new_plic _ _ _)) as (d2 & p & E2).
  rewrite (on_machine_ret _ _ _ _ _ E2). cbn [bind]. unfold on_machine at 1. cbn [modify fst snd].
  destruct (enable_traps_spec pf c (set_plic p (set_dev d2 m1))) as (m3 & E3 & q & -> & Hr).
  rewrite (on_machine_ret _ _ _ _ _ E3). cbn [bind].
  match goal with |- context [on_machine (on_dev ?op) (?x, _)] =>
    destruct (on_dev_returns op x (returns_set _ _ _ _ _)) as (d4 & [] & E4) end.
  rewrite (on_machine_ret _ _ _ _ _ E4). cbn [bind].
  match goal with |- context [on_machine (TimerInit pf c) (?x, _)] =>
    destruct (timer_init_spec pf c x) as (m5 & E5 & B1 & B2 & B3 & B4 & B5 & B6 & B7 & B8) end.
  rewrite (on_machine_ret _ _ _ _ _ E5). exists m5. split; [done|]. split.
  - by rewrite B1.
  - by rewrite B2.
  - by rewrite B3.
  - by rewrite B4.
  - exact B5.
  - by rewrite B6, <- A5.
  - by rewrite B7.
  - intros d Hd. rewrite B8 by done. cbn. rewrite Hr by done. cbn. by rewrite A6.
Qed.

End init.

(** ** Running a trap *)

Context (entry : Z) (cpd : ptr -> Expected ptr) (mem : CloneMemory).
Abbreviation trap := (HandleTrap entry cpd mem).

Lemma trap_runs c ctx fr f (m : Machine D) :
  frames (sys m) !! ctx = Some fr -> handler_of (fr Riscv64Frame.scause) m = Some f ->
  trap c ctx m = run_func entry cpd mem c f ctx m.
Proof.
  intros Ef Eh. unfold HandleTrap. cbn [bind]. unfold on_sys at 1, frame_at. rewrite Ef. cbn [bind].
  unfold Do. cbn [bind gets]. destruct m. unfold set_sys. cbn in *. rewrite Eh. done.
Qed.

Lemma trap_ignored c ctx fr (m : Machine D) :
  frames (sys m) !! ctx = Some fr -> handler_of (fr Riscv64Frame.scause) m = None -> trap c ctx m = Ret m None.
Proof.
  intros Ef Eh. unfold HandleTrap. cbn [bind]. unfold on_sys at 1, frame_at. rewrite Ef. cbn [bind].
  unfold Do. cbn [bind gets]. destruct m. unfold set_sys. cbn in *. rewrite Eh. done.
Qed.

(** The mask of [BroadcastIpi]. *)
Lemma others_mask_bit n current i : 0 <= i < 64 -> Z.of_nat n <= 64 ->
  Z.testbit (others_mask n current) i = (i <? Z.of_nat n) && negb (i =? current).
Proof.
  intros Hi. induction n as [|n IH]; intros Hn.
  - cbn [others_mask]. rewrite Z.testbit_0_l. by rewrite (proj2 (Z.ltb_ge _ _)) by lia.
  - cbn [others_mask]. specialize (IH ltac:(lia)). destruct (Z.eqb_spec (Z.of_nat n) current) as [Ec|Ec].
    + rewrite IH. destruct (Z.ltb_spec i (Z.of_nat n)), (Z.ltb_spec i (Z.of_nat (S n))), (Z.eqb_spec i current); cbn; lia || done.
    + rewrite Z.lor_spec, IH. unfold u64, wrap. rewrite Z.mod_pow2_bits_low, Z.shiftl_1_l, Z.pow2_bits_eqb by lia.
      destruct (Z.ltb_spec i (Z.of_nat n)), (Z.ltb_spec i (Z.of_nat (S n))), (Z.eqb_spec i current), (Z.eqb_spec (Z.of_nat n) i);
        cbn; lia || done.
Qed.

Lemma others_mask_bound n current : (n <= 4)%nat -> 0 <= others_mask n current < 16.
Proof.
  intros Hn. do 5 (destruct n as [|n]; [cbn; repeat step_if; vm_compute; split; congruence|]). lia.
Qed.

End total.

(** An address of a mapped range translates to the page it is in. *)
Lemma range_is_mapped {P : Paging} {A : Type} (v v' : VirtualMemory.Vm A) root base size flags a :
  (forall va, 0 <= va < VmBoot.va_limit -> VmProps.view v' root va =
     VmBoot.identity_over (base / 4096 * 4096) (VmBoot.range_end base size) flags (VmProps.view v root va) va) ->
  VmBoot.range_end base size <= VmBoot.va_limit -> 0 <= base -> base <= a < base + size ->
  VmProps.view v' root a = VmProps.mapped_page flags (a / 4096 * 4096).
Proof.
  unfold VmBoot.range_end. intros Hv Hl Hb Ha. pose proof (Z.div_mod (base + size + 4095) 4096).
  pose proof (Z.mod_pos_bound (base + size + 4095) 4096). pose proof (Z.mul_div_le base 4096 ltac:(lia)).
  rewrite Hv by lia. unfold VmBoot.identity_over. by rewrite (proj2 (Z.leb_le _ _)), (proj2 (Z.ltb_lt _ _)) by lia.
Qed.

(** ** The claims *)

(** C20: the setup and the routing of traps.  On any device whose serial interrupt
    number fits the controller's table, with a valid kernel page directory, the
    constructor and [InterruptInit] return.  The registers of the interrupt
    controller are then mapped to themselves, unless the heap refuses one of the
    requests for the tables of the 2 MiB regions they are in, which nobody looks at.  A trap with any cause goes to the handler registered for it:
    software, timer and external interrupts, breakpoints, calls from user mode and
    page faults to theirs, the remaining codes of the tables to the default
    handlers, and a code outside the tables returns at once.  The tasks, the frames
    and the other cores' registers are untouched by the setup. *)
Theorem traps_reach_their_handlers {D : Type} `{Mmio D} {P : Paging} {L : PagingLaws P} {A : Type} {HP : PageAllocator A}
    {HA : PageAllocatorLaws A phys_limit} (entry : Z) (cpd : ptr -> Expected ptr) (mem : CloneMemory)
    (pf : Platform) (c root : Z) (m : Machine D) (v : VirtualMemory.Vm A) :
  plic_handlers m = Plic.no_handlers -> u8 (serial_irq pf) < 16 ->
  VmProps.dir_ok v root -> VirtualMemory.kernel_page_dir_ v = root -> 0 <= plic_addr pf -> 0 <= plic_size pf ->
  VmBoot.range_end (plic_addr pf) (plic_size pf) <= Z.min VmBoot.va_limit phys_limit ->
  VmBoot.range_end (plic_addr pf) (plic_size pf) < 2 ^ 64 ->
  exists m' v', (let* _ := on_machine new_interrupt in InterruptInit pf c) (m, v) = Ret (m', v') tt /\
    VmProps.dir_ok v' root /\
    (VmInv.refuses_within (VmProps.top * VmCount.regions (plic_addr pf / 4096 * 4096) (VmBoot.range_end (plic_addr pf) (plic_size pf)) true)
       (VirtualMemory.alloc_state v) = true \/
     forall a, plic_addr pf <= a < plic_addr pf + plic_size pf ->
       VmProps.view v' root a = VmProps.mapped_page kernel_permissions (a / 4096 * 4096)) /\
    sys m' = sys m /\ (forall d, d <> c -> csrs m' d = csrs m d) /\
    Plic.Do (plic_handlers m') (u8 (serial_irq pf)) = Some OnSerial /\
    forall ctx fr, frames (sys m') !! ctx = Some fr ->
      HandleTrap entry cpd mem c ctx m' =
        match routed (fr Riscv64Frame.scause) with
        | Some f => run_func entry cpd mem c f ctx m'
        | None => Ret m' None
        end.
Proof.
  intros Hp Hq Hok Hd Ha Hs Hl Hw.
  destruct (VmBoot.map_mmio_run v root (plic_addr pf) (plic_size pf) kernel_permissions Hok Hd (proj2 kernel_valid) Ha Hs Hl Hw)
    as (v' & r & Ev & Hok' & _ & stop & Hst & Hvw & _ & Hm).
  destruct (interrupt_init_spec pf c (set_exception_handlers (replicate kExceptionMaxCount DefaultException)
    (set_interrupt_handlers (replicate kInterruptMaxCount DefaultInterrupt) m)) v v' r) as (m' & E & S); [done..|].
  exists m', v'. split; [exact E|]. split; [done|]. destruct S as [Si Se Sp Ss Sv Sd Sy So]. split; [|split_and!; [done|done| |]].
  - destruct (VmInv.refuses_within _ _) eqn:Hrf; [by left|right].
    destruct (VmCount.map_mmio_served 0 v root (plic_addr pf) (plic_size pf) kernel_permissions) as (v2 & Ev2 & _); try done;
      [apply kernel_valid|apply kernel_valid|by rewrite Nat.add_0_r|].
    rewrite Ev in Ev2. injection Ev2 as <- ->. destruct Hm as [_ ->]. intros a Hra. apply (range_is_mapped v v' root (plic_addr pf) (plic_size pf)); done || lia.
  - unfold Plic.Do. rewrite Sp, list_lookup_insert_eq; [done|]. unfold Plic.no_handlers. rewrite length_replicate.
    pose proof (wrap_range 8 (serial_irq pf) ltac:(lia)). unfold Plic.kInterruptMaxCount, u8 in *. lia.
  - intros ctx fr Ef. pose proof (tables_route (fr Riscv64Frame.scause) m' Si Se) as Hr.
    destruct (routed (fr Riscv64Frame.scause)) as [f|]; [by apply (trap_runs _ _ _ _ _ fr)|by apply (trap_ignored _ _ _ _ _ fr)].
Qed.

(** C11: the timer interrupt drives the kernel.  On a live core the trap returns
    and leaves the core live; the next deadline is the current time plus the
    interval.  The clock of the core has gone up by one; the sleepers whose wake tick
    has come are ready or running, the others sleep on, blocked tasks wait on.  The
    running task is charged one tick and runs on if nobody was woken and its time
    slice is not used up; otherwise the core runs the head of the run queue, with the
    woken tasks (the earliest first) and then the preempted one appended to it. *)
Theorem timer_trap_is_a_tick {D : Type} `{Mmio D} (entry : Z) (cpd : ptr -> Expected ptr) (mem : CloneMemory)
    (c : Z) (m : Machine D) (ctx : ptr) (fr : Riscv64Frame.reg -> Z) :
  frames (sys m) !! ctx = Some fr -> handler_of (fr Riscv64Frame.scause) m = Some OnTimerInterrupt ->
  alive_core c (kern (sys m)) ->
  exists m', HandleTrap entry cpd mem c ctx m = Ret m' None /\
    deadline m' c = u64 (csrs m c Csr.TimeInfo + interval m) /\
    tick_effects c (kern (sys m)) (kern (sys m')) /\ alive_core c (kern (sys m')) /\
    frames (sys m') = frames (sys m) /\ console (sys m') = console (sys m).
Proof.
  intros Ef Eh A. rewrite (trap_runs _ _ _ _ _ fr OnTimerInterrupt) by done. cbn [run_func bind].
  destruct (step_total entry c OpTick (kern (sys m)) A eq_refl) as (k & E & S). cbn [run_op] in E.
  rewrite (on_csr_some c _ m (csrs m c Csr.TimeInfo) (csrs m c)) by done. cbn [bind gets]. unfold sbi_set_timer. cbn [bind modify].
  unfold on_sys, on_kernel. cbn [sys set_deadline set_csrs]. rewrite E. cbn [bind]. eexists. split; [reflexivity|].
  cbn. rewrite fn_lookup_insert. split; [done|]. split; [by apply (tick_effects_hold entry)|]. split; [apply S|done].
Qed.

(** [BroadcastIpi] addresses all other cores.  With two to four cores the
    firmware is given the mask that has exactly the bits of the cores other than
    the caller, and its answer becomes the result; with one core nothing is sent. *)
Theorem broadcast_reaches_the_others {D : Type} (sbi : Z -> Z) (c n : Z) (m : Machine D) :
  1 <= n <= 4 ->
  exists m' mask, (n = 1 -> BroadcastIpi sbi c n m = Ret m (Value tt)) /\
    (n <> 1 -> BroadcastIpi sbi c n m = Ret m' (if sbi mask =? 0 then Value tt else Unexpected kIpiSendFailed) /\
       ipi_sent m' = ipi_sent m ++ [mask]) /\
    forall i, 0 <= i < 64 -> Z.testbit mask i = true <-> i < n /\ i <> c.
Proof.
  intros Hn. exists (set_ipi_sent (ipi_sent m ++ [others_mask (Z.to_nat n) c]) m), (others_mask (Z.to_nat n) c). split; [by intros ->|]. split.
  - intros Hne. unfold BroadcastIpi. rewrite (proj2 (Z.eqb_neq _ _) Hne). unfold SendIpi.
    pose proof (others_mask_bound (Z.to_nat n) c ltac:(lia)) as Hb.
    change (Z.shiftl 1 NAILONG_KERNEL_MAX_CORE_COUNT - 1) with 15. rewrite (proj2 (Z.ltb_ge _ _)) by lia. cbn [bind modify]. by destruct (sbi _ =? 0).
  - intros i Hi. rewrite others_mask_bit by lia. rewrite Z2Nat.id by lia.
    rewrite andb_true_iff, negb_true_iff, Z.ltb_lt, Z.eqb_neq. done.
Qed.

(** external interrupts.  When the controller answers a claim with a source
    whose table entry is the serial handler, one byte of the serial port (0xFF when
    there is none) goes to the console and the completion is written; when it
    answers with an id that has no entry, such as the 0 it gives when another core
    was faster, the null entry is called. *)
Theorem external_interrupt_outcome {D : Type} `{Mmio D} (entry : Z) (cpd : ptr -> Expected ptr) (mem : CloneMemory)
    (c source : Z) (m : Machine D) (ctx : ptr) (fr : Riscv64Frame.reg -> Z) (d1 d2 : D) (ch : Z) :
  frames (sys m) !! ctx = Some fr -> handler_of (fr Riscv64Frame.scause) m = Some OnExternalInterrupt ->
  Plic.Which (plic m) c (dev m) = Ret d1 source ->
  (Plic.Do (plic_handlers m) source = Some OnSerial -> Uart.Ns16550a_TryGetChar (serial m) d1 = Ret d2 ch ->
   exists m' d3, HandleTrap entry cpd mem c ctx m = Ret m' None /\ Plic.Done (plic m) c source d2 = Ret d3 tt /\
     dev m' = d3 /\ console (sys m') = console (sys m) ++ [ch] /\ kern (sys m') = kern (sys m)) /\
  (Plic.Do (plic_handlers m) source = None ->
   exists m', HandleTrap entry cpd mem c ctx m = Halt m' (BadPointer nullptr)).
Proof.
  intros Ef Eh Ew. split; intros Hd; rewrite (trap_runs _ _ _ _ _ fr OnExternalInterrupt) by done; cbn [run_func bind gets];
    unfold on_dev at 1; rewrite Ew; cbn [bind]; unfold run_external; cbn [bind gets plic_handlers set_dev]; rewrite Hd.
  - intros Et. cbn [bind gets serial set_dev]. unfold on_dev at 1. cbn [dev set_dev]. rewrite Et. cbn [bind].
    unfold on_sys at 1. cbn. eexists _, _. split; [reflexivity|]. split; [reflexivity|]. done.
  - cbn. by eexists.
Qed.

(** ** Samples *)

(** A machine whose device registers all read [v], with a trap frame at 100. *)
Definition sample_machine (v cause : Z) : Machine Bank :=
  MkMachine (MkSys sample_kernel {[100 := <[Riscv64Frame.scause := cause]> (sample_frame 0 0 0 0)]} ∅ [])
    (fun _ _ => 0) (fun _ => 0) 10000 interrupt_table exception_table (Plic.MkPlic 0xc000000 31 4)
    (<[10%nat := Some OnSerial]> Plic.no_handlers) 0x10000000 (const_bank v) [].

Definition sample_platform : Platform := MkPlatform 0x10000000 10 0xc000000 0x600000 31 4 10000000 0x80200000.

#[local] Existing Instances VmProps.pool_allocator VmProps.pool_laws_riscv64.

Lemma traps_reach_their_handlers_witness :
  exists m' v', (let* _ := on_machine new_interrupt in InterruptInit sample_platform 0)
    (set_plic_handlers Plic.no_handlers (sample_machine 0 8), VmProps.sample_vm 9) = Ret (m', v') tt /\
    VmProps.dir_ok v' VmProps.sample_root /\ VmProps.view v' VmProps.sample_root 0xc000004 = Some (0xc000000, 0x2f) /\
    Plic.Do (plic_handlers m') 10 = Some OnSerial.
Proof.
  destruct (traps_reach_their_handlers 900 (fun p => Value p) (MkCloneMemory true 0) sample_platform 0 VmProps.sample_root
    (set_plic_handlers Plic.no_handlers (sample_machine 0 8)) (VmProps.sample_vm 9)) as (m' & v' & E & O & V & _ & _ & S & _);
    [done|done|apply VmProps.sample_vm_ok|done|done|done|done|done|].
  exists m', v'. split; [exact E|]. split; [exact O|]. split; [|exact S].
  destruct V as [V|V]; [vm_compute in V; discriminate V|]. exact (V 0xc000004 ltac:(cbn; lia)).
Defined.

Lemma timer_trap_is_a_tick_witness :
  exists m', HandleTrap 900 (fun p => Value p) (MkCloneMemory true 0) 0 100 (sample_machine 0 Csr.kSupervisorTimerInterrupt) = Ret m' None /\
    deadline m' 0 = 10000 /\ local_tick (cpus (kern (sys m')) 0) = 11.
Proof.
  destruct (timer_trap_is_a_tick 900 (fun p => Value p) (MkCloneMemory true 0) 0 (sample_machine 0 Csr.kSupervisorTimerInterrupt) 100
    (<[Riscv64Frame.scause := Csr.kSupervisorTimerInterrupt]> (sample_frame 0 0 0 0))) as (m' & E & Hd & (Ht & _) & _).
  - reflexivity.
  - vm_compute. reflexivity.
  - exact (ex_intro _ _ (ex_intro _ _ (ex_intro _ _ (ex_intro _ _ sample_live)))).
  - exists m'. split; [exact E|]. split; [exact Hd|exact Ht].
Defined.

Lemma broadcast_reaches_the_others_witness :
  exists m' mask, BroadcastIpi (fun _ => 0) 1 4 (sample_machine 0 8) = Ret m' (Value tt) /\
    ipi_sent m' = [mask] /\ Z.testbit mask 1 = false.
Proof.
  destruct (broadcast_reaches_the_others (fun _ => 0) 1 4 (sample_machine 0 8)) as (m' & mask & _ & Hs & Hb); [lia|].
  destruct (Hs ltac:(lia)) as [E S]. exists m', mask. split; [exact E|]. split; [exact S|].
  apply not_true_is_false. intros Ht. apply (proj1 (Hb 1 ltac:(lia)) Ht). reflexivity.
Defined.

Lemma external_interrupt_outcome_witness :
  (exists m', HandleTrap 900 (fun p => Value p) (MkCloneMemory true 0) 0 100 (sample_machine 10 Csr.kSupervisorExternalInterrupt) = Ret m' None /\
     console (sys m') = [255]) /\
  exists m', HandleTrap 900 (fun p => Value p) (MkCloneMemory true 0) 0 100 (sample_machine 0 Csr.kSupervisorExternalInterrupt) =
    Halt m' (BadPointer nullptr).
Proof.
  split.
  - destruct (external_interrupt_outcome 900 (fun p => Value p) (MkCloneMemory true 0) 0 10 (sample_machine 10 Csr.kSupervisorExternalInterrupt) 100
      (<[Riscv64Frame.scause := Csr.kSupervisorExternalInterrupt]> (sample_frame 0 0 0 0)) (const_bank 10) (const_bank 10) 255)
      as [Hs _].
    + reflexivity.
    + vm_compute. reflexivity.
    + reflexivity.
    + destruct Hs as (m' & d3 & E & _ & _ & Hc & _); [reflexivity|reflexivity|]. exists m'. split; [exact E|exact Hc].
  - destruct (external_interrupt_outcome 900 (fun p => Value p) (MkCloneMemory true 0) 0 0 (sample_machine 0 Csr.kSupervisorExternalInterrupt) 100
      (<[Riscv64Frame.scause := Csr.kSupervisorExternalInterrupt]> (sample_frame 0 0 0 0)) (const_bank 0) (const_bank 0) 255)
      as [_ Hs].
    + reflexivity.
    + vm_compute. reflexivity.
    + reflexivity.
    + apply Hs. reflexivity.
Defined.

End InterruptProps.
