(* ===== verification/IoApic.v ===== *)
(** * The I/O APIC: src/src/driver/apic/io_apic.cpp, apic.cpp

    The registers of the I/O APIC are reached through a selector and a window.
    [window_regs] is what the driver relies on: the window shows and changes the
    selected register, of which some bits are read-only.  The driver's redirection
    entries are pairs of such registers. *)

From stdpp Require Import base numbers list functions.
From Stdlib Require Import ZArith Lia.
From S2P Require Import Prelude Errors Mmio.

Local Open Scope Z_scope.

Module IoApic.

Definition kRegSel : Z := 0x00.
Definition kRegWin : Z := 0x10.
Definition kRegId : Z := 0x00.
Definition kRegVer : Z := 0x01.
Definition kRedTblBase : Z := 0x10.
Definition kVectorMask : Z := 0xFF.
Definition kMaskBit : Z := Z.shiftl 1 16.
Definition kDestApicIdShift : Z := 56.
Definition kDestApicIdMask : Z := 0xFF.

Section ops.
Context {D : Type} `{Mmio D} (base_address_ : Z).

Definition Read (reg : Z) : M D Z :=
  let* _ := Out 32 (base_address_ + kRegSel) reg in In 32 (base_address_ + kRegWin).

Definition Write (reg value : Z) : M D unit :=
  let* _ := Out 32 (base_address_ + kRegSel) reg in Out 32 (base_address_ + kRegWin) value.

Definition low_reg (irq : Z) : Z := kRedTblBase + irq * 2.
Definition high_reg (irq : Z) : Z := low_reg irq + 1.

Definition ReadRedirectionEntry (irq : Z) : M D Z :=
  let* low := Read (low_reg irq) in
  let* high := Read (high_reg irq) in
  ret (Z.lor (Z.shiftl high 32) low).

Definition WriteRedirectionEntry (irq value : Z) : M D unit :=
  let* _ := Write (low_reg irq) (u32 (Z.land value 0xFFFFFFFF)) in
  Write (high_reg irq) (u32 (Z.land (Z.shiftr value 32) 0xFFFFFFFF)).

Definition GetId : M D Z := let* v := Read kRegId in ret (Z.land (Z.shiftr v 24) 0x0F).
Definition GetVersion : M D Z := let* v := Read kRegVer in ret (Z.land v 0xFF).
Definition GetMaxRedirectionEntries : M D Z :=
  let* v := Read kRegVer in ret (Z.land (Z.shiftr v 16) 0xFF + 1).

(** The entry that [SetIrqRedirection] builds. *)
Definition redirection (vector destination_apic_id : Z) (mask : bool) : Z :=
  let entry := Z.land vector kVectorMask in
  let entry := if mask then Z.lor entry kMaskBit else entry in
  Z.lor entry (u64 (Z.shiftl (Z.land destination_apic_id kDestApicIdMask) kDestApicIdShift)).

Definition SetIrqRedirection (irq vector destination_apic_id : Z) (mask : bool) : M D unit :=
  let* max_entries := GetMaxRedirectionEntries in
  if max_entries <=? irq then ret tt
  else WriteRedirectionEntry irq (redirection vector destination_apic_id mask).

Definition MaskIrq (irq : Z) : M D unit :=
  let* max_entries := GetMaxRedirectionEntries in
  if max_entries <=? irq then ret tt
  else
    let* entry := ReadRedirectionEntry irq in
    WriteRedirectionEntry irq (Z.lor entry kMaskBit).

Definition UnmaskIrq (irq : Z) : M D unit :=
  let* max_entries := GetMaxRedirectionEntries in
  if max_entries <=? irq then ret tt
  else
    let* entry := ReadRedirectionEntry irq in
    WriteRedirectionEntry irq (Z.land entry (u64 (Z.lnot kMaskBit))).

(** The constructor: [for (i = 0; i < GetMaxRedirectionEntries(); i++)]; the bound
    is read again in every round, and is at most 256. *)
Fixpoint mask_all (fuel : nat) (i : Z) : M D unit :=
  match fuel with
  | O => halt_with Diverges
  | S n =>
      let* max_entries := GetMaxRedirectionEntries in
      if i <? max_entries then
        let* entry := ReadRedirectionEntry (u8 i) in
        let* _ := WriteRedirectionEntry (u8 i) (Z.lor entry kMaskBit) in
        mask_all n (i + 1)
      else ret tt
  end.
Definition new_io_apic : M D unit := mask_all 257 0.

(** ** apic.cpp: the same with the range as an error *)

Definition in_range {A} (irq : Z) (op : M D A) : M D (Expected A) :=
  let* max_entries := GetMaxRedirectionEntries in
  if max_entries <=? irq then ret (Unexpected kApicInvalidIrq)
  else let* a := op in ret (Value a).

Definition Apic_SetIrqRedirection (irq vector destination_apic_id : Z) (mask : bool) : M D (Expected unit) :=
  in_range irq (SetIrqRedirection irq vector destination_apic_id mask).
Definition Apic_MaskIrq (irq : Z) : M D (Expected unit) := in_range irq (MaskIrq irq).
Definition Apic_UnmaskIrq (irq : Z) : M D (Expected unit) := in_range irq (UnmaskIrq irq).

(** ** The device *)

(** Storing [v] over [old] where only the bits of [w] are writable. *)
Definition merge (v old w : Z) : Z := Z.lor (Z.land v w) (Z.ldiff old w).

Record window_regs (rf : D -> Z -> Z) (writable : Z -> Z) (sel : D -> Z) : Prop := {
  select : forall d r, 0 <= r < 2 ^ 32 ->
    sel (mmio_store (base_address_ + kRegSel) r d) = r /\ forall x, rf (mmio_store (base_address_ + kRegSel) r d) x = rf d x;
  window_load : forall d, mmio_load (base_address_ + kRegWin) d = (rf d (sel d), d);
  window_store : forall d v, 0 <= v < 2 ^ 32 ->
    rf (mmio_store (base_address_ + kRegWin) v d) (sel d) = merge v (rf d (sel d)) (writable (sel d)) /\
    forall x, x <> sel d -> rf (mmio_store (base_address_ + kRegWin) v d) x = rf d x;
  rf_range : forall d r, 0 <= rf d r < 2 ^ 32
}.

Lemma testbit_merge v old w j : 0 <= j -> Z.testbit (merge v old w) j = if Z.testbit w j then Z.testbit v j else Z.testbit old j.
Proof.
  intros Hj. unfold merge. rewrite Z.lor_spec, Z.land_spec, Z.ldiff_spec.
  destruct (Z.testbit v j), (Z.testbit old j), (Z.testbit w j); done.
Qed.

Section spec.
Context {rf : D -> Z -> Z} {writable : Z -> Z} {sel : D -> Z} (dev : window_regs rf writable sel).
Context (Hbase : 0 <= base_address_ < 2 ^ 64 - 32).

Lemma word_eq v : 0 <= v < 2 ^ 32 -> wrap 32 v = v.
Proof. apply wrap_small. Qed.

Lemma reg_addr o : o = kRegSel \/ o = kRegWin -> u64 (base_address_ + o) = base_address_ + o.
Proof. unfold kRegSel, kRegWin. intros [->| ->]; apply wrap_small; lia. Qed.

(** The same registers, whatever is selected. *)
Definition same (d d' : D) : Prop := forall x, rf d' x = rf d x.

Lemma read_spec d r : 0 <= r < 2 ^ 32 -> exists d', Read r d = Ret d' (rf d r) /\ same d d'.
Proof.
  intros Hr. destruct (select _ _ _ dev d r Hr) as [S1 S2]. eexists. unfold Read, Out, In. cbn [bind].
  rewrite !reg_addr by auto. rewrite (word_eq r) by done. rewrite (window_load _ _ _ dev), S1, S2.
  rewrite word_eq by apply dev. by split.
Qed.

Lemma write_spec d r v : 0 <= r < 2 ^ 32 -> 0 <= v < 2 ^ 32 ->
  exists d', Write r v d = Ret d' tt /\ rf d' r = merge v (rf d r) (writable r) /\
    forall x, x <> r -> rf d' x = rf d x.
Proof.
  intros Hr Hv. destruct (select _ _ _ dev d r Hr) as [S1 S2].
  destruct (window_store _ _ _ dev (mmio_store (base_address_ + kRegSel) r d) v Hv) as [W1 W2].
  eexists. unfold Write, Out. cbn [bind]. rewrite !reg_addr by auto. rewrite !word_eq by done. split; [done|].
  rewrite S1 in *. rewrite W1, S2. split; [done|]. intros x Hx. by rewrite W2, S2.
Qed.

(** The number of entries: bits 16 to 23 of the version register, plus one. *)
Definition max_of (d : D) : Z := Z.land (Z.shiftr (rf d kRegVer) 16) 0xFF + 1.

Lemma max_spec d : exists d', GetMaxRedirectionEntries d = Ret d' (max_of d) /\ same d d'.
Proof.
  destruct (read_spec d kRegVer ltac:(unfold kRegVer; lia)) as (d' & E & S). exists d'.
  unfold GetMaxRedirectionEntries. cbn [bind]. rewrite E. by split.
Qed.

Lemma same_max d d' : same d d' -> max_of d' = max_of d.
Proof. intros S. unfold max_of. by rewrite S. Qed.

Definition valid_irq (irq : Z) : Prop := 0 <= irq < 256.

Lemma entry_regs irq : valid_irq irq -> 0 <= low_reg irq < 2 ^ 32 /\ 0 <= high_reg irq < 2 ^ 32.
Proof. unfold valid_irq, high_reg, low_reg, kRedTblBase. lia. Qed.

Lemma read_entry_spec d irq : valid_irq irq ->
  exists d', ReadRedirectionEntry irq d = Ret d' (Z.lor (Z.shiftl (rf d (high_reg irq)) 32) (rf d (low_reg irq))) /\ same d d'.
Proof.
  intros Hi. destruct (entry_regs irq Hi) as [Hl Hh]. destruct (read_spec d _ Hl) as (d1 & E1 & S1).
  destruct (read_spec d1 _ Hh) as (d2 & E2 & S2). exists d2. unfold ReadRedirectionEntry. cbn [bind]. rewrite E1. cbn [bind].
  rewrite E2. cbn [bind ret]. rewrite S1. split; [done|]. intros x. by rewrite S2, S1.
Qed.

Lemma u32_mask v : u32 (Z.land v 0xFFFFFFFF) = v mod 2 ^ 32.
Proof. unfold u32, wrap. change 0xFFFFFFFF with (Z.ones 32). rewrite Z.land_ones by lia. apply Z.mod_mod. lia. Qed.

Lemma write_entry_spec d irq v : valid_irq irq ->
  exists d', WriteRedirectionEntry irq v d = Ret d' tt /\
    rf d' (low_reg irq) = merge (v mod 2 ^ 32) (rf d (low_reg irq)) (writable (low_reg irq)) /\
    rf d' (high_reg irq) = merge (Z.shiftr v 32 mod 2 ^ 32) (rf d (high_reg irq)) (writable (high_reg irq)) /\
    forall x, x <> low_reg irq -> x <> high_reg irq -> rf d' x = rf d x.
Proof.
  intros Hi. destruct (entry_regs irq Hi) as [Hl Hh]. unfold WriteRedirectionEntry. rewrite !u32_mask. cbn [bind].
  assert (forall z, 0 <= z mod 2 ^ 32 < 2 ^ 32) as Hm by (intros z; apply Z.mod_pos_bound; lia).
  destruct (write_spec d _ _ Hl (Hm v)) as (d1 & E1 & W1 & O1). rewrite E1.
  destruct (write_spec d1 _ _ Hh (Hm (Z.shiftr v 32))) as (d2 & E2 & W2 & O2). rewrite E2.
  assert (high_reg irq <> low_reg irq) as Hne by (unfold high_reg; lia).
  exists d2. split; [done|]. rewrite O2, W1 by congruence. split; [done|]. rewrite W2, O1 by done. split; [done|].
  intros x H1 H2. by rewrite O2, O1.
Qed.

(** Rewriting an entry with one bit of its lower half changed. *)
Lemma rewrite_entry d d1 irq v (b : bool) : valid_irq irq -> same d d1 ->
  Z.testbit (writable (low_reg irq)) 16 = true ->
  (forall j, 0 <= j < 64 -> Z.testbit v j =
     if decide (j = 16) then b else Z.testbit (Z.lor (Z.shiftl (rf d (high_reg irq)) 32) (rf d (low_reg irq))) j) ->
  exists d', WriteRedirectionEntry irq v d1 = Ret d' tt /\
    Z.testbit (rf d' (low_reg irq)) 16 = b /\
    (forall j, 0 <= j < 32 -> j <> 16 -> Z.testbit (rf d' (low_reg irq)) j = Z.testbit (rf d (low_reg irq)) j) /\
    (forall j, 0 <= j < 32 -> Z.testbit (rf d' (high_reg irq)) j = Z.testbit (rf d (high_reg irq)) j) /\
    forall x, x <> low_reg irq -> x <> high_reg irq -> rf d' x = rf d x.
Proof.
  intros Hi S Hw Hv. destruct (write_entry_spec d1 irq v Hi) as (d' & E & L & Hh & O). exists d'. split; [done|].
  assert (forall j, 0 <= j < 32 -> Z.testbit v j = if decide (j = 16) then b else Z.testbit (rf d (low_reg irq)) j) as Vl.
  { intros j Hj. rewrite Hv by lia. case_decide; [done|]. rewrite Z.lor_spec, Z.shiftl_spec_low by lia. done. }
  assert (forall j, 0 <= j < 32 -> Z.testbit v (j + 32) = Z.testbit (rf d (high_reg irq)) j) as Vh.
  { intros j Hj. rewrite Hv by lia. rewrite decide_False by lia. rewrite Z.lor_spec, Z.shiftl_spec by lia.
    replace (j + 32 - 32) with j by lia. replace (Z.testbit (rf d (low_reg irq)) (j + 32)) with false; [apply orb_false_r|].
    symmetry. rewrite <- (Z.mod_small (rf d (low_reg irq)) (2 ^ 32)) by apply dev. apply Z.mod_pow2_bits_high. lia. }
  rewrite L, Hh, !S. split_and!.
  - rewrite testbit_merge, Hw, Z.mod_pow2_bits_low, Vl by lia. done.
  - intros j Hj Hn. rewrite testbit_merge, Z.mod_pow2_bits_low, Vl by lia. rewrite decide_False by done. by destruct (Z.testbit (writable _) j).
  - intros j Hj. rewrite testbit_merge, Z.mod_pow2_bits_low, Z.shiftr_spec, Vh by lia. by destruct (Z.testbit (writable _) j).
  - intros x H1 H2. by rewrite O, S.
Qed.

Lemma in_range_out {A} d irq (op : M D A) : max_of d <= irq ->
  exists d', in_range irq op d = Ret d' (Unexpected kApicInvalidIrq) /\ same d d'.
Proof.
  intros Hm. destruct (max_spec d) as (d' & E & S). exists d'. unfold in_range. cbn [bind]. rewrite E.
  by rewrite (proj2 (Z.leb_le _ _) Hm).
Qed.

(** Two checks of the range pass, then the operation runs on the same registers. *)
Lemma in_range_in d irq (op : M D unit) (P : D -> Prop) : irq < max_of d ->
  (forall d1, same d d1 -> exists d', op d1 = Ret d' tt /\ P d') ->
  exists d', in_range irq (let* m := GetMaxRedirectionEntries in if m <=? irq then ret tt else op) d = Ret d' (Value tt) /\ P d'.
Proof.
  intros Hm Hop. destruct (max_spec d) as (d1 & E1 & S1). destruct (max_spec d1) as (d2 & E2 & S2).
  destruct (Hop d2) as (d3 & E3 & P3); [intros x; by rewrite S2, S1|]. exists d3. unfold in_range. cbn [bind].
  rewrite E1, (proj2 (Z.leb_gt _ _) Hm). cbn [bind]. rewrite E2, (same_max _ _ S1), (proj2 (Z.leb_gt _ _) Hm), E3. done.
Qed.

Lemma testbit_redirection vec dest (mask : bool) j : 0 <= j < 64 ->
  Z.testbit (redirection vec dest mask) j =
    if decide (j < 8) then Z.testbit vec j else if decide (j = 16) then mask
    else if decide (56 <= j) then Z.testbit dest (j - 56) else false.
Proof.
  intros Hj. unfold redirection, kVectorMask, kMaskBit, kDestApicIdMask, kDestApicIdShift.
  change 0xFF with (Z.ones 8). rewrite Z.lor_spec. unfold u64, wrap. rewrite Z.mod_pow2_bits_low by lia.
  rewrite Z.shiftl_spec by lia.
  assert (Z.testbit (if mask then Z.lor (Z.land vec (Z.ones 8)) (Z.shiftl 1 16) else Z.land vec (Z.ones 8)) j =
    if decide (j < 8) then Z.testbit vec j else if decide (j = 16) then mask else false) as ->.
  { assert (Z.testbit (Z.land vec (Z.ones 8)) j = if decide (j < 8) then Z.testbit vec j else false) as Hl.
    { rewrite Z.land_spec. case_decide; [rewrite Z.ones_spec_low by lia; apply andb_true_r|rewrite Z.ones_spec_high by lia; apply andb_false_r]. }
    destruct mask; rewrite ?Z.lor_spec, Hl; [|by repeat case_decide].
    rewrite Z.shiftl_1_l, Z.pow2_bits_eqb by lia. destruct (Z.eqb_spec 16 j); repeat case_decide; try lia; try done;
      rewrite ?orb_true_r, ?orb_false_r; done. }
  destruct (decide (56 <= j)) as [H56|H56].
  - rewrite Z.land_spec, Z.ones_spec_low by lia. rewrite andb_true_r. repeat case_decide; try lia. done.
  - rewrite (Z.testbit_neg_r _ (j - 56)) by lia. rewrite orb_false_r. by repeat case_decide.
Qed.

End spec.
End ops.

(** ** The claims *)

(** programming the I/O APIC.  On a device whose vector, mask and destination
    bits can be written: an interrupt line beyond the table is refused with
    [kApicInvalidIrq] and no register changes; for a line of the table
    [SetIrqRedirection] leaves the vector, the mask bit and the destination in its
    entry, [MaskIrq] and [UnmaskIrq] set and clear the mask bit and no other bit of
    the entry, and the entries of the other lines stay as they are. *)
Theorem irq_redirection {D : Type} `{Mmio D} (base : Z) (rf : D -> Z -> Z) (writable : Z -> Z) (sel : D -> Z)
    (d : D) (irq vec dest : Z) (mask : bool) :
  window_regs base rf writable sel -> 0 <= base < 2 ^ 64 - 32 -> valid_irq irq ->
  (forall j, 0 <= j < 8 \/ j = 16 -> Z.testbit (writable (low_reg irq)) j = true) ->
  (forall j, 24 <= j < 32 -> Z.testbit (writable (high_reg irq)) j = true) ->
  let others d' := forall x, x <> low_reg irq -> x <> high_reg irq -> rf d' x = rf d x in
  let masked b d' := Z.testbit (rf d' (low_reg irq)) 16 = b /\
    (forall j, 0 <= j < 32 -> j <> 16 -> Z.testbit (rf d' (low_reg irq)) j = Z.testbit (rf d (low_reg irq)) j) /\
    (forall j, 0 <= j < 32 -> Z.testbit (rf d' (high_reg irq)) j = Z.testbit (rf d (high_reg irq)) j) /\ others d' in
  (max_of (rf := rf) d <= irq ->
   (exists d', Apic_SetIrqRedirection base irq vec dest mask d = Ret d' (Unexpected kApicInvalidIrq) /\ same (rf := rf) d d') /\
   (exists d', Apic_MaskIrq base irq d = Ret d' (Unexpected kApicInvalidIrq) /\ same (rf := rf) d d') /\
   (exists d', Apic_UnmaskIrq base irq d = Ret d' (Unexpected kApicInvalidIrq) /\ same (rf := rf) d d')) /\
  (irq < max_of (rf := rf) d ->
   (exists d', Apic_SetIrqRedirection base irq vec dest mask d = Ret d' (Value tt) /\
      (forall j, 0 <= j < 8 -> Z.testbit (rf d' (low_reg irq)) j = Z.testbit vec j) /\
      Z.testbit (rf d' (low_reg irq)) 16 = mask /\
      (forall j, 0 <= j < 8 -> Z.testbit (rf d' (high_reg irq)) (24 + j) = Z.testbit dest j) /\ others d') /\
   (exists d', Apic_MaskIrq base irq d = Ret d' (Value tt) /\ masked true d') /\
   (exists d', Apic_UnmaskIrq base irq d = Ret d' (Value tt) /\ masked false d')).
Proof.
  intros dev Hb Hi Hl Hh others masked. split.
  { intros Hm. unfold Apic_SetIrqRedirection, Apic_MaskIrq, Apic_UnmaskIrq. split_and!; by eapply in_range_out. }
  intros Hm. split; [|split]; (eapply (in_range_in base dev Hb d irq); [done|]); intros d1 S1.
  - destruct (write_entry_spec base dev Hb d1 irq (redirection vec dest mask) Hi) as (d2 & E & L & Hg & O). exists d2. split; [done|].
    rewrite L, Hg. split_and!.
    + intros j Hj. rewrite testbit_merge, Hl, Z.mod_pow2_bits_low, testbit_redirection by lia. by rewrite decide_True by lia.
    + rewrite testbit_merge, Hl, Z.mod_pow2_bits_low, testbit_redirection by lia. done.
    + intros j Hj. rewrite testbit_merge, Hh, Z.mod_pow2_bits_low, Z.shiftr_spec, testbit_redirection by lia.
      rewrite !decide_False by lia. rewrite decide_True by lia. f_equal. lia.
    + intros x H1 H2. by rewrite O, S1.
  - destruct (read_entry_spec base dev Hb d1 irq Hi) as (d2 & E2 & S2). cbn [bind]. rewrite E2. rewrite !S1.
    apply (rewrite_entry base dev Hb d d2); [done|intros x; by rewrite S2, S1|apply Hl; lia|]. intros j Hj.
    rewrite Z.lor_spec. unfold kMaskBit. rewrite Z.shiftl_1_l, Z.pow2_bits_eqb by lia.
    case_decide as Ej; [by rewrite Ej, orb_true_r|]. rewrite (proj2 (Z.eqb_neq 16 j)) by lia. apply orb_false_r.
  - destruct (read_entry_spec base dev Hb d1 irq Hi) as (d2 & E2 & S2). cbn [bind]. rewrite E2. rewrite !S1.
    apply (rewrite_entry base dev Hb d d2); [done|intros x; by rewrite S2, S1|apply Hl; lia|]. intros j Hj.
    rewrite Z.land_spec. unfold kMaskBit, u64, wrap. rewrite Z.mod_pow2_bits_low, Z.lnot_spec, Z.shiftl_1_l, Z.pow2_bits_eqb by lia.
    case_decide as Ej; [by rewrite Ej, andb_false_r|]. rewrite (proj2 (Z.eqb_neq 16 j)) by lia. apply andb_true_r.
Qed.

(** An I/O APIC at address 0 with 24 lines. *)
Record sample_apic := MkApic { sa_sel : Z; sa_regs : Z -> Z }.
#[global] Instance sample_apic_mmio : Mmio sample_apic := {|
  mmio_load a d := (if a =? kRegWin then u32 (sa_regs d (sa_sel d)) else 0, d);
  mmio_store a v d :=
    if a =? kRegSel then MkApic v (sa_regs d)
    else if a =? kRegWin then MkApic (sa_sel d) (<[sa_sel d := v]> (sa_regs d)) else d
|}.

Lemma sample_apic_regs : window_regs (D := sample_apic) 0 (fun d r => u32 (sa_regs d r)) (fun _ => Z.ones 32) sa_sel.
Proof.
  split.
  - done.
  - done.
  - intros [s r] v Hv. change (mmio_store (0 + kRegWin) v (MkApic s r)) with (MkApic s (<[s := v]> r)).
    cbn [sa_sel sa_regs]. rewrite fn_lookup_insert. split.
    + unfold u32. rewrite (wrap_small 32 v) by done. unfold merge. rewrite Z.land_ones by lia. rewrite Z.mod_small by done.
      rewrite Z.ldiff_ones_r by lia. unfold wrap. rewrite (Z.shiftr_div_pow2 _ 32), Z.div_small by (lia || apply Z.mod_pos_bound; lia).
      by rewrite Z.shiftl_0_l, Z.lor_0_r.
    + intros x Hx. by rewrite fn_lookup_insert_ne.
  - intros d r. apply wrap_range. lia.
Qed.

Lemma irq_redirection_witness :
  exists d', Apic_SetIrqRedirection 0 4 0x24 1 false (MkApic 0 (fun r => if r =? 1 then 0x170011 else 0)) = Ret d' (Value tt) /\
    Z.testbit (u32 (sa_regs d' (low_reg 4))) 16 = false.
Proof.
  destruct (irq_redirection 0 (fun d r => u32 (sa_regs d r)) (fun _ => Z.ones 32) sa_sel
    (MkApic 0 (fun r => if r =? 1 then 0x170011 else 0)) 4 0x24 1 false) as [_ Hs].
  - apply sample_apic_regs.
  - lia.
  - unfold valid_irq. lia.
  - intros j Hj. apply Z.ones_spec_low. lia.
  - intros j Hj. apply Z.ones_spec_low. lia.
  - destruct Hs as [(d' & E & _ & Hm & _) _].
    + vm_compute. reflexivity.
    + exists d'. split; [exact E|exact Hm].
Defined.

End IoApic.
