(* ===== verification/LocalApic.v ===== *)
(** * The local APIC: src/src/driver/apic/local_apic.cpp, apic.cpp

    The registers of the local APIC are reached through memory in xAPIC mode and
    through model-specific registers in x2APIC mode; the driver has both paths in
    every operation.  A device answers both kinds of accesses ([ApicHw]).  The
    loops that wait for the delivery of an interrupt have fuel. *)

From stdpp Require Import base numbers list strings gmap functions.
From Stdlib Require Import ZArith Lia.
From S2P Require Import Prelude CMem CString Errors Mmio.
Import CString.

Local Open Scope Z_scope.

Class ApicHw (D : Type) := {
  apic_mmio :: Mmio D;
  rdmsr : Z -> D -> Z * D;
  wrmsr : Z -> Z -> D -> D
}.

Module LocalApic.

(** ** src/3rd/cpu_io/include/x86_64/msr.h, apic.hpp *)

Definition kIa32ApicBase : Z := 0x1B.
Definition kBspBit : Z := Z.shiftl 1 8.
Definition kX2ApicEnableBit : Z := Z.shiftl 1 10.
Definition kGlobalEnableBit : Z := Z.shiftl 1 11.
Definition kBaseMask : Z := 0xFFFFF000.
Definition kEoi : Z := 0x80B.
Definition kIcr : Z := 0x830.

(** The registers that both modes have, with their MSR and their offset in memory. *)
Inductive reg := Id | Version | Tpr | Sivr | LvtTimer | LvtLint0 | LvtLint1 | LvtError | TimerInitCount | TimerCurrCount | TimerDivide.
#[global] Instance reg_eq_dec : EqDecision reg.
Proof. solve_decision. Defined.

Definition msr_of (r : reg) : Z :=
  match r with
  | Id => 0x802 | Version => 0x803 | Tpr => 0x808 | Sivr => 0x80F | LvtTimer => 0x832 | LvtLint0 => 0x835 | LvtLint1 => 0x836
  | LvtError => 0x837 | TimerInitCount => 0x838 | TimerCurrCount => 0x839 | TimerDivide => 0x83E
  end.
Definition offset_of (r : reg) : Z :=
  match r with
  | Id => 0x20 | Version => 0x30 | Tpr => 0x80 | Sivr => 0xF0 | LvtTimer => 0x320 | LvtLint0 => 0x350 | LvtLint1 => 0x360
  | LvtError => 0x370 | TimerInitCount => 0x380 | TimerCurrCount => 0x390 | TimerDivide => 0x3E0
  end.
Definition kXApicEoiOffset : Z := 0xB0.
Definition kXApicEsrOffset : Z := 0x280.
Definition kXApicIcrLowOffset : Z := 0x300.
Definition kXApicIcrHighOffset : Z := 0x310.

Definition kApicIdMask : Z := 0xFF.
Definition kApicSoftwareEnableBit : Z := 0x100.
Definition kSpuriousVector : Z := 0xFF.
Definition kLvtMaskBit : Z := 0x10000.
Definition kLvtPeriodicMode : Z := 0x20000.
Definition kIcrDeliveryStatusBit : Z := 0x1000.
Definition kIcrDestShift : Z := 24.
Definition kIcrBroadcastMode : Z := 0xC0000.
Definition kInitIpiMode : Z := 0x500.
Definition kSipiMode : Z := 0x600.
Definition kExtIntMode : Z := 0x700.
Definition kNmiMode : Z := 0x400.
Definition kErrorVector : Z := 0xEF.
Definition kDefaultApicClockHz : Z := 100000000.
Definition kTimerDivideBy1 : Z := 0x0B.
Definition kTimerDivideBy16 : Z := 0x03.
Definition kMicrosecondsPerSecond : Z := 1000000.
Definition kDefaultApicBase : Z := 0xFEE00000.

Record LocalApic := MkLocalApic { is_x2apic_mode_ : bool; apic_base_ : Z }.
Definition new_local_apic : LocalApic := MkLocalApic false kDefaultApicBase.

Section ops.
Context {D : Type} `{ApicHw D}.

Definition Msr_Read (a : Z) : M D Z := fun d => let (v, d') := rdmsr a d in Ret d' (u64 v).
Definition Msr_Write (a v : Z) : M D unit := fun d => Ret (wrmsr a (u64 v) d) tt.

Definition ReadBase : M D Z := Msr_Read kIa32ApicBase.
Definition WriteBase (value : Z) : M D unit := Msr_Write kIa32ApicBase value.
Definition IsBsp : M D bool := let* v := ReadBase in ret (negb (Z.land v kBspBit =? 0)).
Definition IsGloballyEnabled : M D bool := let* v := ReadBase in ret (negb (Z.land v kGlobalEnableBit =? 0)).
Definition msr_IsX2ApicEnabled : M D bool := let* v := ReadBase in ret (negb (Z.land v kX2ApicEnableBit =? 0)).
Definition GetBaseAddress : M D Z := let* v := ReadBase in ret (Z.land v kBaseMask).
Definition EnableGlobally : M D unit := let* v := ReadBase in WriteBase (Z.lor v kGlobalEnableBit).
Definition DisableGlobally : M D unit := let* v := ReadBase in WriteBase (Z.land v (u64 (Z.lnot kGlobalEnableBit))).
Definition msr_EnableX2Apic : M D unit := let* v := ReadBase in WriteBase (Z.lor v (Z.lor kX2ApicEnableBit kGlobalEnableBit)).
Definition msr_DisableX2Apic : M D unit := let* v := ReadBase in WriteBase (Z.land v (u64 (Z.lnot kX2ApicEnableBit))).

(** [ReadId] to [ReadTimerDivide] and [WriteTpr] to [WriteTimerDivide]: one register of 32 bits. *)
Definition ReadMsr (r : reg) : M D Z := let* v := Msr_Read (msr_of r) in ret (u32 v).
Definition WriteMsr (r : reg) (value : Z) : M D unit := Msr_Write (msr_of r) (u32 value).
Definition WriteEoi (value : Z) : M D unit := Msr_Write kEoi (u32 value).
Definition ReadIcr : M D Z := Msr_Read kIcr.
Definition WriteIcr (value : Z) : M D unit := Msr_Write kIcr value.

(** ** local_apic.cpp *)

(** The two paths to a register. *)
Definition read_reg (la : LocalApic) (r : reg) : M D Z :=
  if is_x2apic_mode_ la then ReadMsr r else In 32 (apic_base_ la + offset_of r).
Definition write_reg (la : LocalApic) (r : reg) (value : Z) : M D unit :=
  if is_x2apic_mode_ la then WriteMsr r value else Out 32 (apic_base_ la + offset_of r) value.

Definition GetApicVersion (la : LocalApic) : M D Z := read_reg la Version.
Definition SendEoi (la : LocalApic) : M D unit :=
  if is_x2apic_mode_ la then WriteEoi 0 else Out 32 (apic_base_ la + kXApicEoiOffset) 0.
Definition SetTaskPriority (la : LocalApic) (priority : Z) : M D unit := write_reg la Tpr priority.
Definition GetTaskPriority (la : LocalApic) : M D Z := let* tpr := read_reg la Tpr in ret (u8 (Z.land tpr kApicIdMask)).

(** [while ((... & kIcrDeliveryStatusBit) != 0) ;] *)
Fixpoint wait_delivered (fuel : nat) (status : M D Z) : M D unit :=
  match fuel with
  | O => halt_with Diverges
  | S n => let* v := status in if negb (Z.land v kIcrDeliveryStatusBit =? 0) then wait_delivered n status else ret tt
  end.

(** Sending a command: one write in x2APIC mode, the high and the low half in xAPIC mode. *)
Definition send_x2 (fuel : nat) (icr : Z) : M D unit :=
  let* _ := WriteIcr icr in wait_delivered fuel ReadIcr.
Definition send_x (fuel : nat) (la : LocalApic) (icr_high icr_low : Z) : M D unit :=
  let* _ := Out 32 (apic_base_ la + kXApicIcrHighOffset) icr_high in
  let* _ := Out 32 (apic_base_ la + kXApicIcrLowOffset) icr_low in
  wait_delivered fuel (In 32 (apic_base_ la + kXApicIcrLowOffset)).

Definition destination (id : Z) : Z := u32 (Z.shiftl (Z.land id kApicIdMask) kIcrDestShift).
Definition x2_destination (icr id : Z) : Z := Z.lor icr (u64 (Z.shiftl id 32)).

Definition SendIpi (fuel : nat) (la : LocalApic) (destination_apic_id vector : Z) : M D (Expected unit) :=
  let* _ := (if is_x2apic_mode_ la then send_x2 fuel (x2_destination vector destination_apic_id)
             else send_x fuel la (destination destination_apic_id) vector) in
  ret (Value tt).

Definition BroadcastIpi (fuel : nat) (la : LocalApic) (vector : Z) : M D (Expected unit) :=
  let* _ := (if is_x2apic_mode_ la then send_x2 fuel (Z.lor vector 0x80000)
             else send_x fuel la 0 (Z.lor vector kIcrBroadcastMode)) in
  ret (Value tt).

(** [auto icr = kInitIpiMode; icr |= destination << 32]: [icr] has the type [uint32_t] of the constant. *)
Definition SendInitIpi (fuel : nat) (la : LocalApic) (destination_apic_id : Z) : M D unit :=
  if is_x2apic_mode_ la then send_x2 fuel (u32 (x2_destination kInitIpiMode destination_apic_id))
  else send_x fuel la (destination destination_apic_id) kInitIpiMode.

Definition SendStartupIpi (fuel : nat) (la : LocalApic) (destination_apic_id start_page : Z) : M D unit :=
  if is_x2apic_mode_ la then send_x2 fuel (u32 (x2_destination (Z.lor kSipiMode start_page) destination_apic_id))
  else send_x fuel la (destination destination_apic_id) (Z.lor kSipiMode start_page).

(** The delay loops between the three commands have no effect on the device. *)
Definition WakeupAp (fuel : nat) (la : LocalApic) (destination_apic_id start_vector : Z) : M D unit :=
  let* _ := SendInitIpi fuel la destination_apic_id in
  let* _ := SendStartupIpi fuel la destination_apic_id start_vector in
  SendStartupIpi fuel la destination_apic_id start_vector.

(** ** Timer *)

Definition EnableTimer (la : LocalApic) (initial_count divide_value vector : Z) (periodic : bool) : M D unit :=
  let* _ := write_reg la TimerDivide divide_value in
  let* _ := write_reg la LvtTimer (if periodic then Z.lor vector kLvtPeriodicMode else vector) in
  write_reg la TimerInitCount initial_count.

Definition DisableTimer (la : LocalApic) : M D unit :=
  let* lvt_timer := read_reg la LvtTimer in
  let* _ := write_reg la LvtTimer (Z.lor lvt_timer kLvtMaskBit) in
  write_reg la TimerInitCount 0.

Definition GetTimerCurrentCount (la : LocalApic) : M D Z := read_reg la TimerCurrCount.

(** The counts are of the type [uint32_t]. *)
Definition SetupPeriodicTimer (la : LocalApic) (frequency_hz vector : Z) : M D unit :=
  if frequency_hz =? 0 then halt_with DivByZero
  else
    let initial_count := u32 (kDefaultApicClockHz / frequency_hz) in
    if 0xFFFFFFFF <? initial_count then
      EnableTimer la (u32 ((kDefaultApicClockHz / 16) / frequency_hz)) kTimerDivideBy16 vector true
    else EnableTimer la initial_count kTimerDivideBy1 vector true.

Definition SetupOneShotTimer (la : LocalApic) (microseconds vector : Z) : M D unit :=
  let initial_count := u32 ((kDefaultApicClockHz / kMicrosecondsPerSecond) * microseconds) in
  if 0xFFFFFFFF <? initial_count then
    EnableTimer la (u32 (((kDefaultApicClockHz / 16) / kMicrosecondsPerSecond) * microseconds)) kTimerDivideBy16 vector false
  else EnableTimer la initial_count kTimerDivideBy1 vector false.

(** ** Local vector table, errors, modes *)

Definition ConfigureLvtEntries (la : LocalApic) : M D unit :=
  let* _ := write_reg la LvtLint0 kExtIntMode in
  let* _ := write_reg la LvtLint1 kNmiMode in
  write_reg la LvtError kErrorVector.

Definition ReadErrorStatus (la : LocalApic) : M D Z :=
  if is_x2apic_mode_ la then ret 0
  else
    let* _ := Out 32 (apic_base_ la + kXApicEsrOffset) 0 in
    In 32 (apic_base_ la + kXApicEsrOffset).

Definition IsX2ApicEnabled : M D bool := msr_IsX2ApicEnabled.
Definition IsXApicEnabled : M D bool :=
  let* g := IsGloballyEnabled in
  if g : bool then let* x := msr_IsX2ApicEnabled in ret (negb x) else ret false.
Definition EnableXApic : M D bool :=
  let* _ := EnableGlobally in
  let* _ := msr_DisableX2Apic in
  IsXApicEnabled.
Definition DisableXApic : M D bool :=
  let* _ := DisableGlobally in
  let* b := IsXApicEnabled in ret (negb b).
(** [x2] is the answer of [cpuid]. *)
Definition CheckX2ApicSupport (x2 : bool) : M D bool := ret x2.
Definition EnableX2Apic (x2 : bool) : M D bool :=
  let* b := CheckX2ApicSupport x2 in
  if negb b then ret false
  else
    let* _ := msr_EnableX2Apic in
    IsX2ApicEnabled.
Definition DisableX2Apic : M D bool :=
  let* _ := msr_DisableX2Apic in
  let* b := IsX2ApicEnabled in ret (negb b).

(** [Init] behind the choice of the mode. *)
Definition software_enable (la : LocalApic) : M D unit :=
  let* sivr := read_reg la Sivr in
  let* _ := write_reg la Sivr (Z.lor (Z.lor sivr kApicSoftwareEnableBit) kSpuriousVector) in
  let* _ := SetTaskPriority la 0 in
  let* _ := write_reg la LvtTimer kLvtMaskBit in
  let* _ := write_reg la LvtLint0 kLvtMaskBit in
  let* _ := write_reg la LvtLint1 kLvtMaskBit in
  write_reg la LvtError kLvtMaskBit.

Definition Init (x2 : bool) (la : LocalApic) : M D (LocalApic * Expected unit) :=
  let* g := IsGloballyEnabled in
  let* _ := when (negb g) EnableGlobally in
  let* e2 := EnableX2Apic x2 in
  if e2 : bool then
    let la' := MkLocalApic true (apic_base_ la) in
    let* _ := software_enable la' in ret (la', Value tt)
  else
    let* e := EnableXApic in
    if negb e then ret (la, Unexpected kApicInitFailed)
    else
      let la' := MkLocalApic false (apic_base_ la) in
      let* _ := software_enable la' in ret (la', Value tt).

(** ** apic.cpp: the other processors *)

(** The device and the memory. *)
Record Machine := MkMachine { device : D; memory : mem }.
Definition on_device {A} (m : M D A) : M Machine A := fun s =>
  match m (device s) with
  | Ret d a => Ret (MkMachine d (memory s)) a
  | Halt d w => Halt (MkMachine d (memory s)) w
  end.
Definition on_memory {A} (f : mem -> run (mem * A)) : M Machine A := fun s =>
  match f (memory s) with
  | Done (m, a) => Ret (MkMachine (device s) m) a
  | Fault => Halt s (BadPointer 0)
  | NoFuel => Halt s Diverges
  end.

Definition StartupAp (fuel : nat) (la : LocalApic) (apic_id ap_code_addr ap_code_size target_addr : Z) : M Machine (Expected unit) :=
  let* _ := nk_assert_msg (negb (ap_code_addr =? 0) && negb (ap_code_size =? 0)) "Invalid AP code parameters"%string in
  let* _ := nk_assert_msg (Z.land target_addr 0xFFF =? 0) "not aligned to 4KB boundary"%string in
  let* _ := nk_assert_msg (target_addr <? 0x100000) "exceeds real mode limit (1MB)"%string in
  let* _ := on_memory (memcpy target_addr ap_code_addr ap_code_size) in
  let* c := on_memory (fun m => let+ r := memcmp target_addr ap_code_addr ap_code_size m in Done (m, r)) in
  if negb (c =? 0) then ret (Unexpected kApicCodeCopyFailed)
  else
    let* _ := on_device (WakeupAp fuel la apic_id (u8 (Z.shiftr target_addr 12))) in
    ret (Value tt).

(** [n] ids from [apic_id] on; the errors are logged. *)
Fixpoint startup_loop (n : nat) (fuel : nat) (la : LocalApic) (core apic_id ap_code_addr ap_code_size target_addr : Z) : M Machine unit :=
  match n with
  | O => ret tt
  | S n' =>
      let* _ := (if u32 apic_id =? core then ret tt
                 else let* _ := StartupAp fuel la (u32 apic_id) ap_code_addr ap_code_size target_addr in ret tt) in
      startup_loop n' fuel la core (apic_id + 1) ap_code_addr ap_code_size target_addr
  end.
Definition StartupAllAps (cpu_count_ fuel : nat) (la : LocalApic) (core ap_code_addr ap_code_size target_addr : Z) : M Machine unit :=
  let* _ := nk_assert_msg (negb (ap_code_addr =? 0) && negb (ap_code_size =? 0)) "Invalid AP code parameters"%string in
  startup_loop cpu_count_ fuel la core 0 ap_code_addr ap_code_size target_addr.

End ops.
Arguments Machine : clear implicits.
End LocalApic.

(** * The local APIC: what the driver does

    [apic_contract] is what the driver relies on, as the processor manual states it,
    with the numbers of the manual: the registers answer on the path of the current
    mode, only certain changes of the mode are legal, in x2APIC mode a write with a
    reserved bit is promised nothing (it faults), a write of the command register
    sends one command, and its status bit clears after finitely many reads. *)

Module LocalApicProps.

Import CString LocalApic.

Section spec.
Context {D : Type} `{ApicHw D} (x2 : bool) (apic_base : Z).
Context (base : D -> Z) (regs : D -> reg -> Z) (sent : D -> list Z) (eois : D -> nat) (dest : D -> Z) (busy : D -> nat) (implemented : reg -> Z).
Implicit Types (d : D) (r : reg) (v : Z).

Definition enabled d : bool := Z.testbit (base d) 11.
Definition extended d : bool := Z.testbit (base d) 10.

Definition is_lvt r : bool := match r with LvtTimer | LvtLint0 | LvtLint1 | LvtError => true | _ => false end.
(** A write that the register keeps: the vector table follows the software enable bit. *)
Definition accepts d r v : bool :=
  match r with
  | Sivr => Z.testbit v 8
  | Tpr | TimerInitCount | TimerDivide => true
  | Id | Version | TimerCurrCount => false
  | _ => Z.testbit (regs d Sivr) 8
  end.

(** Everything but the commands that were sent. *)
Definition quiet d d' : Prop := (forall r, r <> TimerCurrCount -> regs d' r = regs d r) /\ base d' = base d /\ eois d' = eois d.
Definition wrote d d' r v : Prop :=
  regs d' r = v /\ (forall q, q <> r -> q <> TimerCurrCount -> regs d' q = regs d q) /\ base d' = base d /\ eois d' = eois d /\ sent d' = sent d.

(** The numbers of the manual: the model-specific register and the offset in the
    page of the xAPIC of each register. *)
Definition manual_msr r : Z :=
  match r with
  | Id => 0x802 | Version => 0x803 | Tpr => 0x808 | Sivr => 0x80F
  | LvtTimer => 0x832 | LvtLint0 => 0x835 | LvtLint1 => 0x836 | LvtError => 0x837
  | TimerInitCount => 0x838 | TimerCurrCount => 0x839 | TimerDivide => 0x83E
  end.
Definition manual_offset r : Z :=
  match r with
  | Id => 0x20 | Version => 0x30 | Tpr => 0x80 | Sivr => 0xF0
  | LvtTimer => 0x320 | LvtLint0 => 0x350 | LvtLint1 => 0x360 | LvtError => 0x370
  | TimerInitCount => 0x380 | TimerCurrCount => 0x390 | TimerDivide => 0x3E0
  end.
(** Its reserved bits: they are zero when read, and in x2APIC mode a write that sets one faults. *)
Definition reserved r : Z :=
  match r with
  | Tpr => 0xFFFFFF00 | Sivr => 0xFFFFEC00 | LvtTimer => 0xFFF8EF00 | LvtLint0 | LvtLint1 => 0xFFFE0800
  | LvtError => 0xFFFEEF00 | TimerDivide => 0xFFFFFFF4 | _ => 0
  end.
(** The reserved bits of the lower half of the command register. *)
Definition icr_reserved : Z := 0xFFF33000.

Record apic_contract : Prop := {
  base_word : forall d, 0 <= base d < 2 ^ 64;
  hw_base_read : forall d, rdmsr 0x1B d = (base d, d);
  hw_base_write : forall d v, 0 <= v < 2 ^ 64 ->
    (Z.testbit v 10 = true -> x2 = true /\ enabled d = true) ->
    (extended d = true -> Z.testbit v 10 = true \/ Z.testbit v 11 = false) ->
    base (wrmsr 0x1B v d) = v /\ sent (wrmsr 0x1B v d) = sent d;
  reg_word : forall d r, 0 <= regs d r < 2 ^ 32;
  reg_reserved : forall d r, Z.land (regs d r) (reserved r) = 0;
  hw_read : forall d r, enabled d = true -> r <> TimerCurrCount ->
    (if extended d then rdmsr (manual_msr r) d else mmio_load (apic_base + manual_offset r) d) = (regs d r, d);
  hw_write : forall d r v, enabled d = true -> 0 <= v < 2 ^ 32 -> accepts d r v = true ->
    (extended d = true -> Z.land v (reserved r) = 0) ->
    wrote d (if extended d then wrmsr (manual_msr r) v d else mmio_store (apic_base + manual_offset r) v d) r (Z.land v (implemented r));
  hw_eoi : forall d, enabled d = true ->
    let d' := if extended d then wrmsr 0x80B 0 d else mmio_store (apic_base + 0xB0) 0 d in
    (forall r, r <> TimerCurrCount -> regs d' r = regs d r) /\ base d' = base d /\ sent d' = sent d /\ eois d' = S (eois d);
  hw_icr : forall d v, enabled d = true -> extended d = true -> 0 <= v < 2 ^ 64 -> Z.land v icr_reserved = 0 ->
    sent (wrmsr 0x830 v d) = sent d ++ [v] /\ quiet d (wrmsr 0x830 v d);
  hw_icr_high : forall d v, enabled d = true -> extended d = false -> 0 <= v < 2 ^ 32 ->
    let d' := mmio_store (apic_base + 0x310) v d in dest d' = v /\ sent d' = sent d /\ quiet d d';
  hw_icr_low : forall d v, enabled d = true -> extended d = false -> 0 <= v < 2 ^ 32 ->
    let d' := mmio_store (apic_base + 0x300) v d in
    sent d' = sent d ++ [Z.lor (Z.shiftl (dest d) 32) v] /\ quiet d d';
  hw_icr_status : forall d, enabled d = true ->
    let (v, d') := if extended d then rdmsr 0x830 d else mmio_load (apic_base + 0x300) d in
    0 <= v < 2 ^ (if extended d then 64 else 32) /\ Z.testbit v 12 = negb (busy d =? 0)%nat /\ busy d' = pred (busy d) /\
    sent d' = sent d /\ quiet d d'
}.

(** The constants of the driver are those of the manual. *)
Lemma msr_manual r : msr_of r = manual_msr r.
Proof. by destruct r. Qed.
Lemma offset_manual r : offset_of r = manual_offset r.
Proof. by destruct r. Qed.

Section driver_names.
Context (dev : apic_contract).

Lemma base_read d : rdmsr kIa32ApicBase d = (base d, d).
Proof. exact (hw_base_read dev d). Qed.
Lemma base_write d v : 0 <= v < 2 ^ 64 ->
  (Z.testbit v 10 = true -> x2 = true /\ enabled d = true) ->
  (extended d = true -> Z.testbit v 10 = true \/ Z.testbit v 11 = false) ->
  base (wrmsr kIa32ApicBase v d) = v /\ sent (wrmsr kIa32ApicBase v d) = sent d.
Proof. exact (hw_base_write dev d v). Qed.
Lemma path_read d r : enabled d = true -> r <> TimerCurrCount ->
  (if extended d then rdmsr (msr_of r) d else mmio_load (apic_base + offset_of r) d) = (regs d r, d).
Proof. rewrite msr_manual, offset_manual. exact (hw_read dev d r). Qed.
Lemma path_write d r v : enabled d = true -> 0 <= v < 2 ^ 32 -> accepts d r v = true ->
  (extended d = true -> Z.land v (reserved r) = 0) ->
  wrote d (if extended d then wrmsr (msr_of r) v d else mmio_store (apic_base + offset_of r) v d) r (Z.land v (implemented r)).
Proof. rewrite msr_manual, offset_manual. exact (hw_write dev d r v). Qed.
Lemma eoi_write d : enabled d = true ->
  let d' := if extended d then wrmsr kEoi 0 d else mmio_store (apic_base + kXApicEoiOffset) 0 d in
  (forall r, r <> TimerCurrCount -> regs d' r = regs d r) /\ base d' = base d /\ sent d' = sent d /\ eois d' = S (eois d).
Proof. exact (hw_eoi dev d). Qed.
Lemma icr_write d v : enabled d = true -> extended d = true -> 0 <= v < 2 ^ 64 -> Z.land v icr_reserved = 0 ->
  sent (wrmsr kIcr v d) = sent d ++ [v] /\ quiet d (wrmsr kIcr v d).
Proof. exact (hw_icr dev d v). Qed.
Lemma icr_high d v : enabled d = true -> extended d = false -> 0 <= v < 2 ^ 32 ->
  let d' := mmio_store (apic_base + kXApicIcrHighOffset) v d in dest d' = v /\ sent d' = sent d /\ quiet d d'.
Proof. exact (hw_icr_high dev d v). Qed.
Lemma icr_low d v : enabled d = true -> extended d = false -> 0 <= v < 2 ^ 32 ->
  let d' := mmio_store (apic_base + kXApicIcrLowOffset) v d in
  sent d' = sent d ++ [Z.lor (Z.shiftl (dest d) 32) v] /\ quiet d d'.
Proof. exact (hw_icr_low dev d v). Qed.
Lemma icr_status d : enabled d = true ->
  let (v, d') := if extended d then rdmsr kIcr d else mmio_load (apic_base + kXApicIcrLowOffset) d in
  0 <= v < 2 ^ (if extended d then 64 else 32) /\ Z.testbit v 12 = negb (busy d =? 0)%nat /\ busy d' = pred (busy d) /\
  sent d' = sent d /\ quiet d d'.
Proof. exact (hw_icr_status dev d). Qed.
End driver_names.

(** A value below [2 ^ n] has no bit of a mask that starts at bit [n]. *)
Lemma below_mask v n mask : 0 <= n -> 0 <= v < 2 ^ n -> Z.land mask (Z.ones n) = 0 -> Z.land v mask = 0.
Proof.
  intros Hn Hv Hm. rewrite <- (Z.mod_small v (2 ^ n)) by done. rewrite <- Z.land_ones by done.
  by rewrite <- Z.land_assoc, (Z.land_comm (Z.ones n)), Hm, Z.land_0_r.
Qed.

(** The reserved bits of a command are in its lower half. *)
Lemma icr_reserved_low v : Z.land (v mod 2 ^ 32) icr_reserved = Z.land v icr_reserved.
Proof. rewrite <- Z.land_ones by lia. rewrite <- Z.land_assoc. f_equal. Qed.

Context (dev : apic_contract) (Hbase : 0 <= apic_base < 2 ^ 64 - 0x400).

(** The driver knows the mode of the device. *)
Definition ready (la : LocalApic) d : Prop := enabled d = true /\ extended d = is_x2apic_mode_ la /\ apic_base_ la = apic_base.

Lemma base_same d d' : base d' = base d -> enabled d' = enabled d /\ extended d' = extended d.
Proof. unfold enabled, extended. by intros ->. Qed.
Lemma ready_same la d d' : ready la d -> base d' = base d -> ready la d'.
Proof. intros (H1 & H2 & H3) [E1 E2]%base_same. unfold ready. by rewrite E1, E2. Qed.

Lemma reg_address r : u64 (apic_base + offset_of r) = apic_base + offset_of r.
Proof. apply u64_small. destruct r; cbn; lia. Qed.

Lemma read_reg_spec la d r : ready la d -> r <> TimerCurrCount -> read_reg la r d = Ret d (regs d r).
Proof.
  intros (He & Hx & Hb) Hr. pose proof (path_read dev d r He Hr) as E. pose proof (reg_word dev d r) as Hw. rewrite Hx in E.
  unfold read_reg. destruct (is_x2apic_mode_ la).
  - unfold ReadMsr, Msr_Read. cbn [bind]. rewrite E. cbn. unfold u32. rewrite u64_small by lia. by rewrite wrap_small.
  - unfold In. rewrite Hb, reg_address, E. by rewrite wrap_small.
Qed.

Lemma write_reg_spec la d r v : ready la d -> 0 <= v < 2 ^ 32 -> accepts d r v = true -> Z.land v (reserved r) = 0 ->
  exists d', write_reg la r v d = Ret d' tt /\ wrote d d' r (Z.land v (implemented r)) /\ ready la d'.
Proof.
  intros Hr Hv Ha Hz. pose proof Hr as (He & Hx & Hb). pose proof (path_write dev d r v He Hv Ha (fun _ => Hz)) as W. rewrite Hx in W.
  exists (if is_x2apic_mode_ la then wrmsr (msr_of r) v d else mmio_store (apic_base + offset_of r) v d). split_and!.
  - unfold write_reg. destruct (is_x2apic_mode_ la); unfold WriteMsr, Msr_Write, Out, u32.
    + by rewrite wrap_small, u64_small by lia.
    + by rewrite Hb, reg_address, wrap_small.
  - done.
  - by eapply ready_same, W.
Qed.

Lemma flag_bit v i : 0 <= i -> (Z.land v (Z.shiftl 1 i) =? 0) = negb (Z.testbit v i).
Proof.
  intros Hi. rewrite Z.shiftl_1_l. destruct (Z.testbit v i) eqn:E; cbn.
  - apply Z.eqb_neq. intros H0. assert (Z.testbit (Z.land v (2 ^ i)) i = false) as F by (by rewrite H0, Z.bits_0).
    rewrite Z.land_spec, E, Z.pow2_bits_true in F by lia. done.
  - apply Z.eqb_eq. apply Z.bits_inj'. intros j Hj. rewrite Z.land_spec, Z.bits_0, Z.pow2_bits_eqb by lia.
    destruct (Z.eqb_spec i j) as [<-|]; [by rewrite E|apply andb_false_r].
Qed.

(** ** Commands *)

Definition status (la : LocalApic) : M D Z := if is_x2apic_mode_ la then ReadIcr else In 32 (apic_base_ la + kXApicIcrLowOffset).

Lemma quiet_trans d1 d2 d3 : quiet d1 d2 -> quiet d2 d3 -> quiet d1 d3.
Proof. intros (A1 & A2 & A3) (B1 & B2 & B3). split_and!; [intros r Hr; by rewrite B1, A1|congruence|congruence]. Qed.

Lemma status_spec la d : ready la d ->
  exists v d', status la d = Ret d' v /\ (Z.land v kIcrDeliveryStatusBit =? 0) = (busy d =? 0)%nat /\ busy d' = pred (busy d) /\
    sent d' = sent d /\ quiet d d' /\ ready la d'.
Proof.
  intros Hr. pose proof Hr as (He & Hx & Hb). pose proof (icr_status dev d He) as W. rewrite Hx in W. unfold status.
  destruct (is_x2apic_mode_ la).
  - destruct (rdmsr kIcr d) as [v d'] eqn:E. destruct W as (Hv & Ht & Hd & Hs & Hq). exists v, d'. split_and!; try done.
    + unfold ReadIcr, Msr_Read. by rewrite E, u64_small.
    + change kIcrDeliveryStatusBit with (Z.shiftl 1 12). by rewrite flag_bit, Ht, negb_involutive by lia.
    + eapply ready_same; [done|apply Hq].
  - destruct (mmio_load (apic_base + kXApicIcrLowOffset) d) as [v d'] eqn:E. destruct W as (Hv & Ht & Hd & Hs & Hq). exists v, d'. split_and!; try done.
    + unfold In. rewrite Hb, u64_small, E, wrap_small by (unfold kXApicIcrLowOffset; lia). done.
    + change kIcrDeliveryStatusBit with (Z.shiftl 1 12). by rewrite flag_bit, Ht, negb_involutive by lia.
    + eapply ready_same; [done|apply Hq].
Qed.

Lemma wait_spec la k : forall d, ready la d -> busy d = k ->
  exists d', (forall fuel, (k < fuel)%nat -> wait_delivered fuel (status la) d = Ret d' tt) /\ sent d' = sent d /\ quiet d d' /\ ready la d'.
Proof.
  induction k as [|k IH]; intros d Hr Hk; destruct (status_spec la d Hr) as (v & d1 & E1 & Hz & Hb & Hs & Hq & Hr1); rewrite Hk in Hz, Hb; cbn in Hz, Hb.
  - exists d1. split_and!; try done. intros [|fuel] Hf; [lia|]. cbn [wait_delivered bind]. by rewrite E1, Hz.
  - destruct (IH d1 Hr1 Hb) as (d2 & E2 & Hs2 & Hq2 & Hr2). exists d2. split_and!; [|congruence|by eapply quiet_trans|done].
    intros [|fuel] Hf; [lia|]. cbn [wait_delivered bind]. rewrite E1, Hz. cbn [negb]. apply E2. lia.
Qed.

(** A program sends the commands [cmds] once it has enough fuel. *)
Definition sends (la : LocalApic) d (m : nat -> M D unit) (cmds : list Z) : Prop :=
  exists n d', (forall fuel, (n < fuel)%nat -> m fuel d = Ret d' tt) /\ sent d' = sent d ++ cmds /\ quiet d d' /\ ready la d'.

Lemma sends_bind la d m1 m2 c1 c2 : sends la d m1 c1 -> (forall d', ready la d' -> sends la d' m2 c2) ->
  sends la d (fun fuel => let* _ := m1 fuel in m2 fuel) (c1 ++ c2).
Proof.
  intros (n1 & d1 & E1 & S1 & Q1 & R1) H2. destruct (H2 d1 R1) as (n2 & d2 & E2 & S2 & Q2 & R2).
  exists (Nat.max n1 n2), d2. split_and!; [|by rewrite S2, S1, app_assoc|by eapply quiet_trans|done].
  intros fuel Hf. cbn [bind]. rewrite E1 by lia. apply E2. lia.
Qed.

Lemma send_x2_spec la d icr : ready la d -> is_x2apic_mode_ la = true -> 0 <= icr < 2 ^ 64 -> Z.land icr icr_reserved = 0 -> sends la d (fun fuel => send_x2 fuel icr) [icr].
Proof.
  intros Hr Hm Hi Hz. pose proof Hr as (He & Hx & Hb). rewrite Hm in Hx. destruct (icr_write dev d icr He Hx Hi Hz) as [Hs Hq].
  assert (ready la (wrmsr kIcr icr d)) as R1 by (eapply ready_same; [done|apply Hq]).
  destruct (wait_spec la _ _ R1 eq_refl) as (d2 & E2 & S2 & Q2 & R2). exists (busy (wrmsr kIcr icr d)), d2.
  split_and!; [|congruence|by eapply quiet_trans|done]. intros fuel Hf. unfold send_x2, WriteIcr, Msr_Write. cbn [bind].
  rewrite u64_small by done. unfold status in E2. rewrite Hm in E2. by apply E2.
Qed.

Lemma send_x_spec la d high low : ready la d -> is_x2apic_mode_ la = false -> 0 <= high < 2 ^ 32 -> 0 <= low < 2 ^ 32 ->
  sends la d (fun fuel => send_x fuel la high low) [Z.lor (Z.shiftl high 32) low].
Proof.
  intros Hr Hm Hh Hl. pose proof Hr as (He & Hx & Hb). rewrite Hm in Hx. destruct (icr_high dev d high He Hx Hh) as (Hd & Hs & Hq).
  set (d1 := mmio_store (apic_base + kXApicIcrHighOffset) high d) in *.
  pose proof Hq as (_ & Hq2 & _). apply base_same in Hq2 as [Eh Ex]. rewrite He in Eh. rewrite Hx in Ex.
  destruct (icr_low dev d1 low Eh Ex Hl) as [Hs1 Hq1]. set (d2 := mmio_store (apic_base + kXApicIcrLowOffset) low d1) in *.
  pose proof (quiet_trans _ _ _ Hq Hq1) as Q. assert (ready la d2) as R2 by (eapply ready_same; [done|apply Q]).
  destruct (wait_spec la _ _ R2 eq_refl) as (d3 & E3 & S3 & Q3 & R3). exists (busy d2), d3.
  split_and!; [|rewrite S3, Hs1, Hs, Hd; done|by eapply quiet_trans|done]. intros fuel Hf. unfold send_x, Out. cbn [bind]. rewrite Hb.
  rewrite !u64_small by (unfold kXApicIcrHighOffset, kXApicIcrLowOffset; lia). rewrite !wrap_small by done.
  unfold status in E3. rewrite Hm, Hb in E3. by apply E3.
Qed.

(** The destination of a command: bits 32 to 63 in x2APIC mode, 56 to 63 in xAPIC mode. *)
Definition ipi_destination (la : LocalApic) (cmd : Z) : Z := Z.shiftr cmd (if is_x2apic_mode_ la then 32 else 56).
(** Its lower half: vector, delivery mode, shorthand. *)
Definition ipi_low (cmd : Z) : Z := cmd mod 2 ^ 32.

Lemma halves a b n : 0 <= n -> 0 <= b < 2 ^ n -> Z.shiftr (Z.lor (Z.shiftl a n) b) n = a /\ Z.lor (Z.shiftl a n) b mod 2 ^ n = b.
Proof.
  intros Hn Hb. split.
  - rewrite Z.shiftr_lor, Z.shiftr_shiftl_l, Z.sub_diag, Z.shiftl_0_r by lia. rewrite (Z.shiftr_div_pow2 b), Z.div_small by lia. apply Z.lor_0_r.
  - rewrite <- Z.land_ones, Z.land_lor_distr_l, !Z.land_ones by lia. rewrite Z.shiftl_mul_pow2, Z.mod_mul by lia. rewrite Z.lor_0_l. by apply Z.mod_small.
Qed.

Lemma x_destination id : 0 <= destination id < 2 ^ 32 /\ Z.shiftr (destination id) 24 = id mod 256.
Proof.
  assert (destination id = Z.shiftl (id mod 256) 24) as E.
  { unfold destination, kApicIdMask, kIcrDestShift. change 0xFF with (Z.ones 8). rewrite Z.land_ones by lia. apply wrap_small.
    rewrite Z.shiftl_mul_pow2 by lia. change (2 ^ 8) with 256. pose proof (Z.mod_pos_bound id 256). lia. }
  rewrite E. split; [|by rewrite Z.shiftr_shiftl_l, Z.sub_diag, Z.shiftl_0_r by lia].
  rewrite Z.shiftl_mul_pow2 by lia. pose proof (Z.mod_pos_bound id 256). lia.
Qed.

(** A command for [id] with the lower half [low]; in x2APIC mode [wide] says whether the destination survives. *)
Definition command (la : LocalApic) (wide : bool) (id low : Z) : Z :=
  if is_x2apic_mode_ la then (if wide then x2_destination low id else u32 (x2_destination low id))
  else Z.lor (Z.shiftl (destination id) 32) low.

Lemma command_fields la wide id low : 0 <= id < 2 ^ 32 -> 0 <= low < 2 ^ 32 ->
  0 <= command la wide id low < 2 ^ 64 /\ ipi_low (command la wide id low) = low /\
  ipi_destination la (command la wide id low) = if is_x2apic_mode_ la then (if wide then id else 0) else id mod 256.
Proof.
  intros Hi Hl. unfold command, ipi_destination, ipi_low. destruct (is_x2apic_mode_ la).
  - assert (x2_destination low id = Z.lor (Z.shiftl id 32) low) as E.
    { unfold x2_destination. rewrite u64_small; [apply Z.lor_comm|]. rewrite Z.shiftl_mul_pow2 by lia. lia. }
    destruct (halves id low 32) as [Hs Hm]; [lia|lia|]. rewrite E. destruct wide.
    + split; [|done]. apply or_range; [lia| |lia]. rewrite Z.shiftl_mul_pow2 by lia. lia.
    + assert (u32 (Z.lor (Z.shiftl id 32) low) = low) as -> by exact Hm. split; [lia|].
      rewrite Z.mod_small, Z.shiftr_div_pow2, Z.div_small by lia. done.
  - destruct (x_destination id) as [Hd He]. destruct (halves (destination id) low 32) as [Hs Hm]; [lia|lia|]. split; [|split].
    + apply or_range; [lia| |lia]. rewrite Z.shiftl_mul_pow2 by lia. lia.
    + done.
    + change 56 with (32 + 24). by rewrite <- Z.shiftr_shiftr, Hs.
Qed.

(** The four senders. *)
Lemma sends_command la d wide id low (m : nat -> M D unit) : ready la d -> 0 <= id < 2 ^ 32 -> 0 <= low < 2 ^ 32 -> Z.land low icr_reserved = 0 ->
  (forall fuel, m fuel = if is_x2apic_mode_ la then send_x2 fuel (command la wide id low) else send_x fuel la (destination id) low) ->
  sends la d m [command la wide id low].
Proof.
  intros Hr Hi Hl Hz Hm. destruct (command_fields la wide id low Hi Hl) as (Hw & Hlow & _).
  assert (Z.land (command la wide id low) icr_reserved = 0) as Hz' by (rewrite <- icr_reserved_low; unfold ipi_low in Hlow; by rewrite Hlow).
  destruct (x_destination id) as [Hd _].
  assert (sends la d (fun fuel => if is_x2apic_mode_ la then send_x2 fuel (command la wide id low) else send_x fuel la (destination id) low) [command la wide id low]) as S.
  { destruct (is_x2apic_mode_ la) eqn:Em; [by apply send_x2_spec|]. unfold command. rewrite Em. by apply send_x_spec. }
  destruct S as (n & d' & E & S). exists n, d'. split; [|done]. intros fuel Hf. rewrite Hm. by apply E.
Qed.

(** interrupts between processors.  [SendIpi] sends one command with the vector, no
    shorthand and the destination (its lower eight bits in xAPIC mode). *)
Theorem send_ipi_spec la d id vec : ready la d -> 0 <= id < 2 ^ 32 -> 0 <= vec < 256 ->
  exists n d' cmd, (forall fuel, (n < fuel)%nat -> SendIpi fuel la id vec d = Ret d' (Value tt)) /\
    sent d' = sent d ++ [cmd] /\ ipi_low cmd = vec /\ ipi_destination la cmd = (if is_x2apic_mode_ la then id else id mod 256) /\ quiet d d'.
Proof.
  intros Hr Hi Hv. destruct (sends_command la d true id vec (fun fuel => if is_x2apic_mode_ la then send_x2 fuel (x2_destination vec id) else send_x fuel la (destination id) vec))
    as (n & d' & E & S & Q & R); [done|done|lia|by apply (below_mask _ 8)|intros fuel; unfold command; by destruct (is_x2apic_mode_ la)|].
  destruct (command_fields la true id vec Hi ltac:(lia)) as (_ & Hl & Hd). exists n, d', (command la true id vec). split_and!; try done.
  intros fuel Hf. unfold SendIpi. cbn [bind]. by rewrite E.
Qed.

(** [BroadcastIpi]: the shorthand (bits 18 and 19) is 3, all but the sender, in
    xAPIC mode and 2, all including the sender, in x2APIC mode. *)
Theorem broadcast_ipi_spec la d vec : ready la d -> 0 <= vec < 256 ->
  exists n d' cmd, (forall fuel, (n < fuel)%nat -> BroadcastIpi fuel la vec d = Ret d' (Value tt)) /\
    sent d' = sent d ++ [cmd] /\ cmd mod 256 = vec /\ (cmd / 2 ^ 18) mod 4 = (if is_x2apic_mode_ la then 2 else 3).
Proof.
  intros Hr Hv. assert (forall k, Z.lor vec (k * 2 ^ 18) = vec + k * 2 ^ 18) as Hor.
  { intros k. destruct (halves k vec 18) as [H1 H2]; [lia|lia|]. rewrite Z.lor_comm, <- Z.shiftl_mul_pow2 by lia.
    rewrite (Z.div_mod (Z.lor (Z.shiftl k 18) vec) (2 ^ 18)) by lia. rewrite H2, <- Z.shiftr_div_pow2, H1 by lia. rewrite Z.shiftl_mul_pow2 by lia. lia. }
  unfold BroadcastIpi. destruct (is_x2apic_mode_ la) eqn:Em.
  - change 0x80000 with (2 * 2 ^ 18). rewrite Hor. destruct (send_x2_spec la d (vec + 2 * 2 ^ 18) Hr Em) as (n & d' & E & S & Q & R); [lia|by rewrite <- Hor, Z.land_lor_distr_l, (below_mask vec 8)|].
    exists n, d', (vec + 2 * 2 ^ 18). split_and!; [|done|..].
    + intros fuel Hf. cbn [bind]. by rewrite E.
    + change (2 * 2 ^ 18) with (2048 * 256). rewrite Z.mod_add, Z.mod_small by lia. done.
    + rewrite Z.div_add, Z.div_small by lia. done.
  - change kIcrBroadcastMode with (3 * 2 ^ 18). rewrite Hor. destruct (send_x_spec la d 0 (vec + 3 * 2 ^ 18) Hr Em) as (n & d' & E & S & Q & R); [lia|lia|].
    rewrite Z.shiftl_0_l, Z.lor_0_l in S. exists n, d', (vec + 3 * 2 ^ 18). split_and!; [|done|..].
    + intros fuel Hf. cbn [bind]. by rewrite E.
    + change (3 * 2 ^ 18) with (3072 * 256). rewrite Z.mod_add, Z.mod_small by lia. done.
    + rewrite Z.div_add, Z.div_small by lia. done.
Qed.

Lemma wakeup_ap_sends la d id page : ready la d -> 0 <= id < 2 ^ 32 -> 0 <= page < 256 ->
  sends la d (fun fuel => WakeupAp fuel la id page)
    [command la false id kInitIpiMode; command la false id (Z.lor kSipiMode page); command la false id (Z.lor kSipiMode page)].
Proof.
  intros Hr Hi Hp. assert (0 <= Z.lor kSipiMode page < 2 ^ 32) as Hl by (apply or_range; unfold kSipiMode; lia).
  assert (forall d', ready la d' -> sends la d' (fun fuel => SendStartupIpi fuel la id page) [command la false id (Z.lor kSipiMode page)]) as Hs.
  { intros d' Hr'. apply sends_command; [done..|by rewrite Z.land_lor_distr_l, (below_mask page 8)|]. intros fuel. unfold SendStartupIpi, command. by destruct (is_x2apic_mode_ la). }
  apply (sends_bind la d _ (fun fuel => let* _ := SendStartupIpi fuel la id page in SendStartupIpi fuel la id page) [_] [_; _]).
  - apply sends_command; [done|done|unfold kInitIpiMode; lia|done|]. intros fuel. unfold SendInitIpi, command. by destruct (is_x2apic_mode_ la).
  - intros d' Hr'. apply (sends_bind la d' _ _ [_] [_]); auto.
Qed.

(** ** Start *)

Lemma ReadBase_spec d : ReadBase d = Ret d (base d).
Proof. unfold ReadBase, Msr_Read. rewrite (base_read dev), u64_small by apply dev. done. Qed.

Lemma bit_set v i j : 0 <= i -> 0 <= j -> Z.testbit (Z.lor v (Z.shiftl 1 i)) j = Z.testbit v j || (i =? j).
Proof. intros Hi Hj. by rewrite Z.lor_spec, Z.shiftl_1_l, Z.pow2_bits_eqb by lia. Qed.

Lemma bit_clear v i j : 0 <= i -> 0 <= j < 64 -> Z.testbit (Z.land v (u64 (Z.lnot (Z.shiftl 1 i)))) j = Z.testbit v j && negb (i =? j).
Proof.
  intros Hi Hj. rewrite Z.land_spec. unfold u64, wrap. rewrite Z.mod_pow2_bits_low, Z.lnot_spec, Z.shiftl_1_l, Z.pow2_bits_eqb by lia. done.
Qed.

Lemma WriteBase_spec d v : 0 <= v < 2 ^ 64 -> (Z.testbit v 10 = true -> x2 = true /\ enabled d = true) ->
  (extended d = true -> Z.testbit v 10 = true \/ Z.testbit v 11 = false) ->
  exists d', WriteBase v d = Ret d' tt /\ enabled d' = Z.testbit v 11 /\ extended d' = Z.testbit v 10 /\ sent d' = sent d.
Proof.
  intros Hv H1 H2. destruct (base_write dev d v Hv H1 H2) as [E S]. eexists. unfold WriteBase, Msr_Write. rewrite u64_small by done.
  unfold enabled at 1, extended at 1. by rewrite E.
Qed.

(** The states that a processor can be in. *)
Definition legal d : Prop := extended d = true -> x2 = true /\ enabled d = true.

Lemma IsGloballyEnabled_spec d : IsGloballyEnabled d = Ret d (enabled d).
Proof. unfold IsGloballyEnabled. cbn [bind]. rewrite ReadBase_spec. unfold kGlobalEnableBit. by rewrite flag_bit, negb_involutive by lia. Qed.
Lemma IsX2ApicEnabled_spec d : IsX2ApicEnabled d = Ret d (extended d).
Proof. unfold IsX2ApicEnabled, msr_IsX2ApicEnabled. cbn [bind]. rewrite ReadBase_spec. unfold kX2ApicEnableBit. by rewrite flag_bit, negb_involutive by lia. Qed.

Lemma EnableGlobally_spec d : legal d -> exists d', EnableGlobally d = Ret d' tt /\ enabled d' = true /\ extended d' = extended d /\ sent d' = sent d.
Proof.
  intros Hl. pose proof (base_word dev d) as Hw. unfold EnableGlobally. cbn [bind]. rewrite ReadBase_spec. unfold kGlobalEnableBit.
  destruct (WriteBase_spec d (Z.lor (base d) (Z.shiftl 1 11))) as (d' & E & He & Hx & Hs).
  - apply or_range; [lia|done|by vm_compute].
  - rewrite bit_set by lia. rewrite orb_false_r. exact Hl.
  - rewrite !bit_set by lia. rewrite orb_false_r. by left.
  - exists d'. rewrite bit_set in He, Hx by lia. rewrite He, Hx, orb_true_r, orb_false_r. done.
Qed.

Lemma EnableX2_spec d : x2 = true -> enabled d = true ->
  exists d', EnableX2Apic x2 d = Ret d' true /\ enabled d' = true /\ extended d' = true /\ sent d' = sent d.
Proof.
  intros Hx2 He. pose proof (base_word dev d) as Hw. unfold EnableX2Apic, CheckX2ApicSupport. cbn [bind ret]. rewrite Hx2. cbn [negb].
  unfold msr_EnableX2Apic. cbn [bind]. rewrite ReadBase_spec.
  destruct (WriteBase_spec d (Z.lor (base d) (Z.lor kX2ApicEnableBit kGlobalEnableBit))) as (d' & E & He' & Hx' & Hs).
  - apply or_range; [lia|done|by vm_compute].
  - by intros _.
  - intros _. left. unfold kX2ApicEnableBit. by rewrite Z.lor_spec, orb_true_r.
  - exists d'. rewrite Z.lor_spec, orb_true_r in He', Hx'. rewrite E, IsX2ApicEnabled_spec, Hx'. done.
Qed.

Lemma EnableXApic_spec d : extended d = false ->
  exists d', EnableXApic d = Ret d' true /\ enabled d' = true /\ extended d' = false /\ sent d' = sent d.
Proof.
  intros Hx. destruct (EnableGlobally_spec d) as (d1 & E1 & He1 & Hx1 & Hs1); [by intros H1; rewrite Hx in H1|]. rewrite Hx in Hx1.
  unfold EnableXApic. cbn [bind]. rewrite E1. unfold msr_DisableX2Apic. cbn [bind]. rewrite ReadBase_spec.
  pose proof (base_word dev d1) as Hw. unfold kX2ApicEnableBit.
  destruct (WriteBase_spec d1 (Z.land (base d1) (u64 (Z.lnot (Z.shiftl 1 10))))) as (d2 & E2 & He2 & Hx2 & Hs2).
  - apply and_range; [lia|done|apply u64_range].
  - rewrite bit_clear by lia. by rewrite andb_false_r.
  - by rewrite Hx1.
  - rewrite bit_clear in He2, Hx2 by lia. change (10 =? 11) with false in He2. change (10 =? 10) with true in Hx2. cbn [negb] in He2, Hx2. rewrite andb_true_r in He2. rewrite andb_false_r in Hx2. change (enabled d2 = enabled d1) in He2.
    rewrite He1 in He2. exists d2. rewrite E2. unfold IsXApicEnabled. cbn [bind]. rewrite IsGloballyEnabled_spec, He2.
    pose proof (IsX2ApicEnabled_spec d2) as E3. unfold IsX2ApicEnabled in E3. cbn [bind]. rewrite E3, Hx2. cbn. split_and!; [done..|congruence].
Qed.

Context (Hsivr : Z.land 0x1FF (implemented Sivr) = 0x1FF) (Hlvt : forall r, is_lvt r = true -> Z.testbit (implemented r) 16 = true).

Lemma mask_lvt la d r : ready la d -> is_lvt r = true -> Z.testbit (regs d Sivr) 8 = true ->
  exists d', write_reg la r kLvtMaskBit d = Ret d' tt /\ ready la d' /\ Z.testbit (regs d' r) 16 = true /\
    (forall q, q <> r -> q <> TimerCurrCount -> regs d' q = regs d q) /\ sent d' = sent d.
Proof.
  intros Hr Hi He. destruct (write_reg_spec la d r kLvtMaskBit Hr) as (d' & E & (W & O & _ & _ & S) & R); [unfold kLvtMaskBit; lia|by destruct r|by destruct r|].
  exists d'. split_and!; try done. rewrite W, Z.land_spec, Hlvt by done. done.
Qed.

(** The state that [Init] leaves. *)
Definition started d : Prop :=
  Z.testbit (regs d Sivr) 8 = true /\ regs d Sivr mod 256 = 255 /\ regs d Tpr = 0 /\ forall r, is_lvt r = true -> Z.testbit (regs d r) 16 = true.

Lemma sivr_bits v : 0 <= v < 2 ^ 32 -> let w := Z.land (Z.lor (Z.lor v kApicSoftwareEnableBit) kSpuriousVector) (implemented Sivr) in
  0 <= Z.lor (Z.lor v kApicSoftwareEnableBit) kSpuriousVector < 2 ^ 32 /\ Z.testbit w 8 = true /\ w mod 256 = 255.
Proof.
  intros Hv w. unfold kApicSoftwareEnableBit, kSpuriousVector in *.
  assert (forall j, 0 <= j < 9 -> Z.testbit w j = true) as Hw.
  { intros j Hj. unfold w. rewrite <- Z.lor_assoc. change (Z.lor 0x100 0xFF) with 0x1FF. rewrite Z.land_spec, Z.lor_spec.
    assert (Z.testbit (Z.land 0x1FF (implemented Sivr)) j = true) as F by (rewrite Hsivr; change 0x1FF with (Z.ones 9); by rewrite Z.ones_spec_low).
    rewrite Z.land_spec in F. apply andb_true_iff in F as [-> ->]. by rewrite orb_true_r. }
  split; [apply or_range; [lia|apply or_range; lia|lia]|]. split; [apply Hw; lia|].
  change 256 with (2 ^ 8). rewrite <- Z.land_ones by lia. change 255 with (Z.ones 8). apply Z.bits_inj'. intros j Hj. rewrite Z.land_spec.
  destruct (Z.lt_ge_cases j 8); [rewrite Hw, Z.ones_spec_low by lia; done|rewrite Z.ones_spec_high by lia; apply andb_false_r].
Qed.

Lemma software_enable_spec la d : ready la d -> exists d', software_enable la d = Ret d' tt /\ started d' /\ ready la d' /\ sent d' = sent d.
Proof.
  intros Hr. destruct (sivr_bits (regs d Sivr) (reg_word dev d Sivr)) as (Hw & H8 & H255).
  unfold software_enable. cbn [bind]. rewrite (read_reg_spec la d Sivr) by done.
  destruct (write_reg_spec la d Sivr _ Hr Hw) as (d1 & E1 & (W1 & O1 & _ & _ & S1) & R1).
  { unfold accepts, kApicSoftwareEnableBit, kSpuriousVector. rewrite !Z.lor_spec. change (Z.testbit 256 8) with true. by rewrite orb_true_r. }
  { by rewrite !Z.land_lor_distr_l, (reg_reserved dev). }
  rewrite E1. unfold SetTaskPriority. destruct (write_reg_spec la d1 Tpr 0 R1) as (d2 & E2 & (W2 & O2 & _ & _ & S2) & R2); [lia|done|done|]. rewrite E2.
  assert (Z.testbit (regs d2 Sivr) 8 = true) as B2 by (by rewrite O2, W1).
  destruct (mask_lvt la d2 LvtTimer R2 eq_refl B2) as (d3 & E3 & R3 & T3 & O3 & S3). rewrite E3.
  assert (Z.testbit (regs d3 Sivr) 8 = true) as B3 by (by rewrite O3).
  destruct (mask_lvt la d3 LvtLint0 R3 eq_refl B3) as (d4 & E4 & R4 & T4 & O4 & S4). rewrite E4.
  assert (Z.testbit (regs d4 Sivr) 8 = true) as B4 by (by rewrite O4).
  destruct (mask_lvt la d4 LvtLint1 R4 eq_refl B4) as (d5 & E5 & R5 & T5 & O5 & S5). rewrite E5.
  assert (Z.testbit (regs d5 Sivr) 8 = true) as B5 by (by rewrite O5).
  destruct (mask_lvt la d5 LvtError R5 eq_refl B5) as (d6 & E6 & R6 & T6 & O6 & S6). rewrite E6. exists d6.
  split; [done|]. split; [|split; [done|congruence]]. split_and!.
  - by rewrite O6.
  - by rewrite O6, O5, O4, O3, O2, W1.
  - by rewrite O6, O5, O4, O3, W2.
  - intros r Hi. destruct r; try done; [by rewrite O6, O5, O4|by rewrite O6, O5|by rewrite O6].
Qed.

(** starting the local APIC.  From every legal state [Init] succeeds, in x2APIC mode
    exactly when the processor has it and through legal changes of the mode only; the
    driver knows the mode, the APIC is enabled with the spurious vector 255, no
    priority is masked, the vector table is masked and no command was sent. *)
Theorem local_apic_init d la : legal d -> apic_base_ la = apic_base ->
  exists d' la', Init x2 la d = Ret d' (la', Value tt) /\ is_x2apic_mode_ la' = x2 /\ ready la' d' /\ started d' /\ sent d' = sent d.
Proof.
  intros Hl Hb. unfold Init. cbn [bind]. rewrite IsGloballyEnabled_spec.
  assert (exists d1, when (negb (enabled d)) EnableGlobally d = Ret d1 tt /\ enabled d1 = true /\ extended d1 = extended d /\ sent d1 = sent d) as (d1 & E1 & He1 & Hx1 & Hs1).
  { destruct (enabled d) eqn:He; cbn [negb when]; [by exists d|by apply EnableGlobally_spec]. }
  rewrite E1. destruct x2 eqn:Hx2.
  - destruct (EnableX2_spec d1 Hx2 He1) as (d2 & E2 & He2 & Hex2 & Hs2). rewrite Hx2 in E2. rewrite E2.
    destruct (software_enable_spec (MkLocalApic true (apic_base_ la)) d2) as (d3 & E3 & Hst & Hr3 & Hs3); [done|].
    exists d3, (MkLocalApic true (apic_base_ la)). cbn [bind]. rewrite E3. split_and!; try done. congruence.
  - assert (extended d = false) as Hx by (destruct (extended d) eqn:F; [by destruct (Hl F); congruence|done]).
    destruct (EnableXApic_spec d1) as (d2 & E2 & He2 & Hex2 & Hs2); [congruence|]. unfold EnableX2Apic, CheckX2ApicSupport. cbn [bind ret negb]. rewrite E2.
    destruct (software_enable_spec (MkLocalApic false (apic_base_ la)) d2) as (d3 & E3 & Hst & Hr3 & Hs3); [done|].
    exists d3, (MkLocalApic false (apic_base_ la)). cbn [negb bind]. rewrite E3. split_and!; try done. congruence.
Qed.

(** ** The timer *)

Lemma enable_timer_spec la d count divide vec (periodic : bool) : ready la d -> Z.testbit (regs d Sivr) 8 = true ->
  0 <= count < 2 ^ 32 -> 0 <= divide < 2 ^ 32 -> Z.land divide (reserved TimerDivide) = 0 -> 0 <= vec < 256 ->
  exists d', EnableTimer la count divide vec periodic d = Ret d' tt /\ ready la d' /\
    regs d' TimerDivide = Z.land divide (implemented TimerDivide) /\ regs d' TimerInitCount = Z.land count (implemented TimerInitCount) /\
    regs d' LvtTimer = Z.land (if periodic then Z.lor vec kLvtPeriodicMode else vec) (implemented LvtTimer) /\ sent d' = sent d.
Proof.
  intros Hr He Hc Hd Hz Hv. unfold EnableTimer. cbn [bind].
  destruct (write_reg_spec la d TimerDivide divide Hr Hd) as (d1 & E1 & (W1 & O1 & _ & _ & S1) & R1); [done|done|]. rewrite E1.
  destruct (write_reg_spec la d1 LvtTimer (if periodic then Z.lor vec kLvtPeriodicMode else vec) R1) as (d2 & E2 & (W2 & O2 & _ & _ & S2) & R2).
  { destruct periodic; [apply or_range; unfold kLvtPeriodicMode; lia|lia]. }
  { unfold accepts. by rewrite O1. }
  { destruct periodic; rewrite ?Z.land_lor_distr_l; by rewrite (below_mask vec 8). }
  rewrite E2. destruct (write_reg_spec la d2 TimerInitCount count R2 Hc) as (d3 & E3 & (W3 & O3 & _ & _ & S3) & R3); [done|apply Z.land_0_r|]. rewrite E3.
  exists d3. split_and!; [done|done|by rewrite O3, O2, W1|done|by rewrite O3, W2|congruence].
Qed.

(** one-shot delays.  The count is 100 for every microsecond, modulo [2 ^ 32]: the
    test for a count that is too large can never succeed, and delays of 42949673
    microseconds and more wrap around. *)
Theorem one_shot_timer_wraps la d us vec : ready la d -> Z.testbit (regs d Sivr) 8 = true -> 0 <= us < 2 ^ 32 -> 0 <= vec < 256 ->
  exists d', SetupOneShotTimer la us vec d = Ret d' tt /\
    regs d' TimerInitCount = Z.land ((100 * us) mod 2 ^ 32) (implemented TimerInitCount) /\
    regs d' TimerDivide = Z.land kTimerDivideBy1 (implemented TimerDivide).
Proof.
  intros Hr He Hu Hv. unfold SetupOneShotTimer. change (kDefaultApicClockHz / kMicrosecondsPerSecond) with 100.
  pose proof (wrap_range 32 (100 * us) ltac:(lia)) as Hw. change (wrap 32 (100 * us)) with (u32 (100 * us)) in Hw.
  rewrite (proj2 (Z.ltb_ge _ _)) by lia.
  destruct (enable_timer_spec la d (u32 (100 * us)) kTimerDivideBy1 vec false Hr He Hw) as (d' & E & _ & Hdiv & Hc & _); [unfold kTimerDivideBy1; lia|done|done|].
  by exists d'.
Qed.

(** ** Starting another processor *)

Lemma bytes_at_far m a bs p cs : bytes_at m a bs -> p + Z.of_nat (length cs) <= a \/ a + Z.of_nat (length bs) <= p -> bytes_at (write_bytes p cs m) a bs.
Proof. intros Hb Hd i b Hi. pose proof (lookup_lt_Some _ _ _ Hi). rewrite write_bytes_other by lia. by apply Hb. Qed.

(** C33: [StartupAp] with good arguments copies the code and sends INIT and twice SIPI with
    the page of the code.  In xAPIC mode the commands go to the processor; in x2APIC
    mode the destination is lost and they go to processor 0. *)
Theorem startup_ap_commands la (s : Machine D) id code_addr code target : ready la (device s) -> 0 <= id < 2 ^ 32 ->
  code_addr <> 0 -> code <> [] -> target mod 2 ^ 12 = 0 -> 0 <= target < 0x100000 ->
  bytes_at (memory s) code_addr code -> mapped (memory s) target (length code) ->
  target + Z.of_nat (length code) <= code_addr \/ code_addr + Z.of_nat (length code) <= target ->
  exists n s' c1 c2 c3, (forall fuel, (n < fuel)%nat -> StartupAp fuel la id code_addr (Z.of_nat (length code)) target s = Ret s' (Value tt)) /\
    bytes_at (memory s') target code /\ sent (device s') = sent (device s) ++ [c1; c2; c3] /\
    ipi_low c1 = kInitIpiMode /\ ipi_low c2 = Z.lor kSipiMode (target / 2 ^ 12) /\ c3 = c2 /\
    Forall (fun c => ipi_destination la c = if is_x2apic_mode_ la then 0 else id mod 256) [c1; c2; c3].
Proof.
  intros Hr Hi Ha Hc Ht Hr' Hb Hm Hd. assert (0 < length code)%nat as Hlen by (destruct code; [done|cbn; lia]).
  assert (u8 (Z.shiftr target 12) = target / 2 ^ 12 /\ 0 <= target / 2 ^ 12 < 256) as [Epage Hp].
  { rewrite Z.shiftr_div_pow2 by lia. assert (0 <= target / 2 ^ 12 < 256) as Hq by (split; [apply Z.div_pos; lia|apply Z.div_lt_upper_bound; lia]).
    split; [by apply u8_small|done]. }
  destruct (wakeup_ap_sends la (device s) id (target / 2 ^ 12) Hr Hi Hp) as (n & d' & E & S & _).
  assert (0 <= Z.lor kSipiMode (target / 2 ^ 12) < 2 ^ 32) as Hl by (apply or_range; unfold kSipiMode; lia).
  destruct (command_fields la false id kInitIpiMode Hi ltac:(unfold kInitIpiMode; lia)) as (_ & L1 & D1).
  destruct (command_fields la false id _ Hi Hl) as (_ & L2 & D2).
  pose (m' := write_bytes target code (memory s)). assert (bytes_at m' target code) as Ht' by apply write_bytes_at.
  destruct (memcmp_loop_spec m' code code target code_addr Ht' (bytes_at_far _ _ _ _ _ Hb Hd) eq_refl) as (r & Er & _ & Hr0).
  rewrite (proj2 (lex_cmp_eq code code) eq_refl) in Hr0. apply Z.compare_eq in Hr0 as ->.
  exists n, (MkMachine d' m'). eexists _, _, _. split; [|split; [exact Ht'|split; [exact S|split_and!; [exact L1|exact L2|done|]]]].
  - intros fuel Hf. unfold StartupAp. cbn [bind]. rewrite (proj2 (Z.eqb_neq _ _) Ha), (proj2 (Z.eqb_neq (Z.of_nat _) _)) by lia. cbn [negb andb nk_assert_msg].
    change 0xFFF with (Z.ones 12). rewrite Z.land_ones, Ht by lia. cbn [Z.eqb nk_assert_msg]. rewrite (proj2 (Z.ltb_lt _ _)) by lia. cbn [nk_assert_msg].
    unfold on_memory at 1. rewrite memcpy_spec by (done || lia). cbn [device memory]. unfold on_memory. cbn [memory device]. fold m'.
    unfold memcmp. rewrite Nat2Z.id, Er. cbn [run_bind Z.eqb negb bind]. rewrite Epage. unfold on_device. cbn [device memory]. by rewrite E.
  - repeat constructor; first [exact D1 | exact D2].
Qed.

End spec.

(** ** A chip that keeps the contract *)

Record chip := MkChip { c_base : Z; c_regs : reg -> Z; c_sent : list Z; c_eois : nat; c_dest : Z }.
Definition all_regs : list reg := [Id; Version; Tpr; Sivr; LvtTimer; LvtLint0; LvtLint1; LvtError; TimerInitCount; TimerCurrCount; TimerDivide].
Definition chip_implemented (r : reg) : Z := Z.ldiff (Z.ones 32) (reserved r).
Definition chip_reg (c : chip) (r : reg) : Z := Z.land (c_regs c r) (chip_implemented r).
Definition chip_base (c : chip) : Z := u64 (c_base c).

Definition chip_load (key : reg -> Z) (a : Z) (c : chip) : Z * chip :=
  (match List.find (fun r => key r =? a) all_regs with Some r => chip_reg c r | None => 0 end, c).
Definition chip_store (key : reg -> Z) (a v : Z) (c : chip) : chip :=
  match List.find (fun r => key r =? a) all_regs with
  | Some r => MkChip (c_base c) (<[r := v]> (c_regs c)) (c_sent c) (c_eois c) (c_dest c)
  | None => c
  end.
Definition chip_send (v : Z) (c : chip) : chip := MkChip (c_base c) (c_regs c) (c_sent c ++ [v]) (c_eois c) (c_dest c).
Definition chip_eoi (c : chip) : chip := MkChip (c_base c) (c_regs c) (c_sent c) (S (c_eois c)) (c_dest c).

#[global] Instance chip_mmio : Mmio chip := {|
  mmio_load a c := chip_load (fun r => kDefaultApicBase + manual_offset r) a c;
  mmio_store a v c :=
    if a =? kDefaultApicBase + 0x310 then MkChip (c_base c) (c_regs c) (c_sent c) (c_eois c) v
    else if a =? kDefaultApicBase + 0x300 then chip_send (Z.lor (Z.shiftl (c_dest c) 32) v) c
    else if a =? kDefaultApicBase + 0xB0 then chip_eoi c
    else chip_store (fun r => kDefaultApicBase + manual_offset r) a v c
|}.
#[global] Instance chip_hw : ApicHw chip := {|
  rdmsr a c := if a =? 0x1B then (chip_base c, c) else chip_load manual_msr a c;
  wrmsr a v c :=
    if a =? 0x1B then MkChip v (c_regs c) (c_sent c) (c_eois c) (c_dest c)
    else if a =? 0x830 then chip_send v c else if a =? 0x80B then chip_eoi c else chip_store manual_msr a v c
|}.

Lemma find_reg (key : reg -> Z) r : (forall q q', key q = key q' -> q = q') -> List.find (fun q => key q =? key r) all_regs = Some r.
Proof.
  intros Hinj. assert (forall l, r ∈ l -> List.find (fun q => key q =? key r) l = Some r) as Hl.
  { induction l as [|q l IH]; [by intros ?%not_elem_of_nil|]. cbn. destruct (Z.eqb_spec (key q) (key r)) as [->%Hinj|Hn]; [done|].
    intros [->|Hin]%elem_of_cons; [done|by apply IH]. }
  apply Hl. unfold all_regs. destruct r; set_solver.
Qed.

Lemma msr_inj q q' : manual_msr q = manual_msr q' -> q = q'.
Proof. by destruct q, q'. Qed.
Lemma offset_inj q q' : kDefaultApicBase + manual_offset q = kDefaultApicBase + manual_offset q' -> q = q'.
Proof. by destruct q, q'. Qed.

Lemma chip_wrote c r v key : (forall q q', key q = key q' -> q = q') -> 0 <= v < 2 ^ 32 ->
  wrote chip_base chip_reg c_sent c_eois c (chip_store key (key r) v c) r (Z.land v (chip_implemented r)).
Proof.
  intros Hk Hv. unfold chip_store. rewrite find_reg by done. unfold wrote, chip_reg, chip_base. cbn -[chip_implemented]. rewrite fn_lookup_insert. split_and!; try done.
  intros q Hq _. by rewrite fn_lookup_insert_ne.
Qed.

Lemma chip_contract x2 : apic_contract x2 kDefaultApicBase chip_base chip_reg c_sent c_eois c_dest (fun _ => 0%nat) chip_implemented.
Proof.
  split.
  - intros c. apply u64_range.
  - done.
  - intros c v Hv _ _. split; [|done]. unfold chip_base. cbn. by apply u64_small.
  - intros c r. unfold chip_reg. replace (chip_implemented r) with (Z.land (chip_implemented r) (Z.ones 32)) by (by destruct r).
    rewrite Z.land_assoc, Z.land_ones by lia. apply Z.mod_pos_bound. lia.
  - intros c r. unfold chip_reg. rewrite <- Z.land_assoc. replace (Z.land (chip_implemented r) (reserved r)) with 0 by (by destruct r). apply Z.land_0_r.
  - intros c r _ _. destruct (extended _ c).
    + change (rdmsr (manual_msr r) c) with (if manual_msr r =? 0x1B then (chip_base c, c) else chip_load manual_msr (manual_msr r) c).
      rewrite (proj2 (Z.eqb_neq _ _)) by (by destruct r). unfold chip_load. by rewrite find_reg by apply msr_inj.
    + cbn. unfold chip_load. by rewrite (find_reg (fun q => kDefaultApicBase + manual_offset q)) by apply offset_inj.
  - intros c r v _ Hv Ha _. destruct (extended _ c).
    + pose proof (chip_wrote c r v manual_msr msr_inj Hv) as W. destruct r; exact W.
    + pose proof (chip_wrote c r v (fun q => kDefaultApicBase + manual_offset q) offset_inj Hv) as W. destruct r; exact W.
  - intros c _. by destruct (extended _ c).
  - done.
  - done.
  - done.
  - intros c _. destruct (extended _ c); cbn; split_and!; done || lia.
Qed.

(** A processor without x2APIC and one with it, both enabled. *)
Definition x_chip : chip := MkChip (Z.shiftl 1 11) (fun _ => 0) [] 0 0.
Definition x2_chip : chip := MkChip (Z.lor (Z.shiftl 1 10) (Z.shiftl 1 11)) (fun _ => 0) [] 0 0.

Lemma local_apic_init_witness : exists c' la', Init true new_local_apic x_chip = Ret c' (la', Value tt) /\ is_x2apic_mode_ la' = true /\ c_sent c' = [].
Proof.
  destruct (local_apic_init true kDefaultApicBase chip_base chip_reg c_sent c_eois c_dest (fun _ => 0%nat) chip_implemented (chip_contract true)
    ltac:(unfold kDefaultApicBase; lia) ltac:(reflexivity) ltac:(by intros [] ?) x_chip new_local_apic) as (c' & la' & E & Hm & _ & _ & S).
  - intros F. vm_compute in F. discriminate.
  - reflexivity.
  - exists c', la'. split_and!; [exact E|exact Hm|exact S].
Defined.

(** Three bytes of code at 0x200000 for the page 0x8000. *)
Definition sample_mem : mem := write_bytes 0x200000 [1; 2; 3] (write_bytes 0x8000 [0; 0; 0] ∅).
Lemma sample_bytes : bytes_at sample_mem 0x200000 [1; 2; 3] /\ mapped sample_mem 0x8000 3.
Proof.
  split; [apply write_bytes_at|]. apply mapped_write_bytes. apply (bytes_at_mapped _ _ [0; 0; 0]). apply write_bytes_at.
Qed.
Lemma startup_ap_commands_witness :
  exists n s' c1 c2, (forall fuel, (n < fuel)%nat -> StartupAp fuel (MkLocalApic true kDefaultApicBase) 3 0x200000 3 0x8000 (MkMachine x2_chip sample_mem) = Ret s' (Value tt)) /\
    c_sent (device s') = [c1; c2; c2] /\ ipi_destination (MkLocalApic true kDefaultApicBase) c1 = 0.
Proof.
  destruct (startup_ap_commands true kDefaultApicBase chip_base chip_reg c_sent c_eois c_dest (fun _ => 0%nat) chip_implemented (chip_contract true)
    ltac:(unfold kDefaultApicBase; lia) (MkLocalApic true kDefaultApicBase) (MkMachine x2_chip sample_mem) 3 0x200000 [1; 2; 3] 0x8000)
    as (n & s' & c1 & c2 & c3 & E & _ & S & _ & _ & E3 & F); [by split_and!|lia|lia|discriminate|reflexivity|lia|apply sample_bytes|apply sample_bytes|cbn; lia|].
  exists n, s', c1, c2. split_and!; [exact E|rewrite S, E3; reflexivity|]. apply Forall_inv in F. exact F.
Defined.

End LocalApicProps.
