(* ===== verification/X86Interrupt.v ===== *)
(** * Interrupts of x86_64: src/src/arch/x86_64/{interrupt,interrupt_main}.cpp

    The descriptor table with its gates, the table of handlers, the handlers of the
    timer and of the keyboard, and the setup.  Every core has a local APIC; the I/O
    APIC is one device.  When the tick of a handler switches to another task, the
    rest of the handler stays on the stack of the task that was interrupted ([left])
    and runs when that task does; the handler of the timer ends its interrupt before
    the tick, so nothing but the return is left there. *)

From stdpp Require Import base numbers list functions.
From Stdlib Require Import ZArith Lia.
From S2P Require Import Prelude Errors Tcb Schedulers TaskManager KernelInv KernelSpec KernelProps KernelRun Mmio IoApic LocalApic.
Import TaskManager.

Local Open Scope Z_scope.

Module X86Interrupt.

(** ** src/3rd/cpu_io/include/x86_64/regs/register_info.hpp *)

Definition kInterruptMaxCount : nat := 256.
Definition k64BitInterruptGate : Z := 14.
Definition kRing0 : Z := 0.
Definition kPresent : Z := 1.

(** A bit field of a word: [uint64_t name : width]. *)
Definition set_bits (off width x v : Z) : Z :=
  Z.lor (Z.ldiff v (Z.shiftl (Z.ones width) off)) (Z.shiftl (x mod 2 ^ width) off).
Definition get_bits (off width v : Z) : Z := Z.shiftr v off mod 2 ^ width.

(** A gate: [val[0]], [val[1]]. *)
Definition Idt : Type := Z * Z.
Definition new_idt (base selector ist type dpl p : Z) : Idt :=
  let v0 := set_bits 0 16 (Z.land base 0xFFFF) 0 in
  let v0 := set_bits 16 16 selector v0 in
  let v0 := set_bits 32 3 ist v0 in
  let v0 := set_bits 40 4 type v0 in
  let v0 := set_bits 45 2 dpl v0 in
  let v0 := set_bits 47 1 p v0 in
  let v0 := set_bits 48 16 (Z.land (Z.shiftr base 16) 0xFFFF) v0 in
  (v0, set_bits 0 32 (Z.shiftr base 32) 0).

(** ** The machine *)

Definition kApicTimerVector : Z := 0xF0.
Definition kKeyboardVector : Z := 0xF1.
Definition kKeyboardIrq : Z := 1.

Inductive InterruptFunc := DefaultHandler | ApicTimerHandler | KeyboardHandler.

(** What the handlers do, in order. *)
Inductive Action := Loop | EndOfInterrupt | Tick | ShowKey.

Record Machine (D E : Type) := MkMachine {
  kern : Kernel;
  local_apic_ : LocalApic.LocalApic;   (* of the singleton [Apic] *)
  lapic : Z -> D;                      (* of each core *)
  io_apic : E;
  interrupt_handlers : list InterruptFunc;
  idts : list Idt;
  idtr : Z -> Z * Z;                   (* of each core: limit and base *)
  keys : list Z;                       (* the characters that [KeyboardHandler] shows *)
  left : ptr -> list Action            (* of each task: the code of handlers that waits on its stack *)
}.
Arguments MkMachine {D E}.
Arguments kern {D E} m.
Arguments local_apic_ {D E} m.
Arguments lapic {D E} m.
Arguments io_apic {D E} m.
Arguments interrupt_handlers {D E} m.
Arguments idts {D E} m.
Arguments idtr {D E} m.
Arguments keys {D E} m.
Arguments left {D E} m.

(** 8, 9, 10, 27 are backspace, tabulator, new line and escape. *)
Definition scancode_to_ascii : list Z :=
  [0; 27; 49; 50; 51; 52; 53; 54; 55; 56; 57; 48;
   45; 61; 8; 9; 113; 119; 101; 114; 116; 121; 117; 105;
   111; 112; 91; 93; 10; 0; 97; 115; 100; 102; 103; 104;
   106; 107; 108; 59; 39; 96; 0; 92; 122; 120; 99; 118;
   98; 110; 109; 44; 46; 47; 0; 42; 0; 32].

(** The character of a key that is pressed, if it has one. *)
Definition key_of (scancode : Z) : option Z :=
  if Z.land scancode 0x80 =? 0 then
    match scancode_to_ascii !! Z.to_nat scancode with
    | Some ch => if ch =? 0 then None else Some ch
    | None => None
    end
  else None.

Section ops.
Context {D E : Type} `{ApicHw D} `{Mmio E} (entry io_base idts_addr : Z) (TarpEntry_address : nat -> Z).
Abbreviation XM A := (M (Machine D E) A) (only parsing).

Definition set_kern v (m : Machine D E) : Machine D E := MkMachine v (local_apic_ m) (lapic m) (io_apic m) (interrupt_handlers m) (idts m) (idtr m) (keys m) (left m).
Definition set_lapic v (m : Machine D E) : Machine D E := MkMachine (kern m) (local_apic_ m) v (io_apic m) (interrupt_handlers m) (idts m) (idtr m) (keys m) (left m).
Definition set_io_apic v (m : Machine D E) : Machine D E := MkMachine (kern m) (local_apic_ m) (lapic m) v (interrupt_handlers m) (idts m) (idtr m) (keys m) (left m).
Definition set_handlers v (m : Machine D E) : Machine D E := MkMachine (kern m) (local_apic_ m) (lapic m) (io_apic m) v (idts m) (idtr m) (keys m) (left m).
Definition set_idts v (m : Machine D E) : Machine D E := MkMachine (kern m) (local_apic_ m) (lapic m) (io_apic m) (interrupt_handlers m) v (idtr m) (keys m) (left m).
Definition set_idtr v (m : Machine D E) : Machine D E := MkMachine (kern m) (local_apic_ m) (lapic m) (io_apic m) (interrupt_handlers m) (idts m) v (keys m) (left m).
Definition set_keys v (m : Machine D E) : Machine D E := MkMachine (kern m) (local_apic_ m) (lapic m) (io_apic m) (interrupt_handlers m) (idts m) (idtr m) v (left m).
Definition set_left v (m : Machine D E) : Machine D E := MkMachine (kern m) (local_apic_ m) (lapic m) (io_apic m) (interrupt_handlers m) (idts m) (idtr m) (keys m) v.

Definition on_kernel (x : M Kernel unit) : XM unit := fun m =>
  match x (kern m) with
  | Ret k a => Ret (set_kern k m) a
  | Halt k w => Halt (set_kern k m) w
  end.
Definition on_lapic {A} (c : Z) (x : LocalApic.LocalApic -> M D A) : XM A := fun m =>
  match x (local_apic_ m) (lapic m c) with
  | Ret d a => Ret (set_lapic (<[c := d]> (lapic m)) m) a
  | Halt d w => Halt (set_lapic (<[c := d]> (lapic m)) m) w
  end.
Definition on_io_apic {A} (x : M E A) : XM A := fun m =>
  match x (io_apic m) with
  | Ret e a => Ret (set_io_apic e m) a
  | Halt e w => Halt (set_io_apic e m) w
  end.

(** [Apic::SendEoi], [Apic::SetupPeriodicTimer] *)
Definition SendEoi (c : Z) : XM unit := on_lapic c LocalApic.SendEoi.
Definition SetupPeriodicTimer (c frequency_hz vector : Z) : XM unit :=
  on_lapic c (fun la => LocalApic.SetupPeriodicTimer la frequency_hz vector).

(** ** Handlers *)

(** The default handler dumps the stack and loops. *)
Definition handler_code (f : InterruptFunc) : list Action :=
  match f with
  | DefaultHandler => [Loop]
  | ApicTimerHandler => [EndOfInterrupt; Tick]
  | KeyboardHandler => [EndOfInterrupt; ShowKey]
  end.

(** The task that runs on the core, and so the stack that the code is on. *)
Definition current (c : Z) (m : Machine D E) : ptr := running_task (percpu (kern m) c).

(** [scancode] is what port 0x60 answers.  When [TickUpdate] comes back on the
    stack of another task, the code behind the call stays on the first one. *)
Fixpoint run_code (c scancode : Z) (code : list Action) : XM unit :=
  match code with
  | [] => ret tt
  | Loop :: _ => halt_with Diverges
  | EndOfInterrupt :: rest => let* _ := SendEoi c in run_code c scancode rest
  | ShowKey :: rest =>
      let* _ := modify (fun m => set_keys (keys m ++ option_list (key_of (u8 scancode))) m) in
      run_code c scancode rest
  | Tick :: rest =>
      let* t := gets (current c) in
      let* _ := on_kernel (TickUpdate entry c) in
      let* t' := gets (current c) in
      if t' =? t then run_code c scancode rest
      else modify (fun m => set_left (<[t := rest ++ left m t]> (left m)) m)
  end.
Definition run_func (c scancode : Z) (f : InterruptFunc) : XM unit := run_code c scancode (handler_code f).

(** A task that runs again goes on where it was interrupted. *)
Definition resume (c scancode : Z) : XM unit :=
  let* t := gets (current c) in
  let* code := gets (fun m => left m t) in
  let* _ := modify (fun m => set_left (<[t := []]> (left m)) m) in
  run_code c scancode code.

Definition Do (c cause scancode : Z) : XM unit :=
  if cause <? Z.of_nat kInterruptMaxCount then
    let* hs := gets interrupt_handlers in
    match hs !! Z.to_nat cause with
    | None => halt_with (BadPointer cause)
    | Some f => run_func c scancode f
    end
  else ret tt.
Definition TarpEntry (c no scancode : Z) : XM unit := Do c no scancode.

Definition RegisterInterruptFunc (cause : Z) (func : InterruptFunc) : XM unit :=
  if cause <? Z.of_nat kInterruptMaxCount then
    modify (fun m => set_handlers (<[Z.to_nat cause := func]> (interrupt_handlers m)) m)
  else ret tt.

Definition SendIpi (target_cpu_mask : Z) : XM (Expected unit) := ret (Unexpected kIpiSendFailed).
Definition BroadcastIpi : XM (Expected unit) := ret (Unexpected kIpiSendFailed).

(** ** Setup *)

(** The constructor. *)
Definition new_interrupt : XM unit := modify (set_handlers (replicate kInterruptMaxCount DefaultHandler)).

Definition gate_of (no : nat) : Idt := new_idt (TarpEntry_address no) 8 0 k64BitInterruptGate kRing0 kPresent.
Definition SetUpIdtr (c : Z) : XM unit :=
  let* _ := modify (set_idts (gate_of <$> seq 0 kInterruptMaxCount)) in
  modify (fun m => set_idtr (<[c := (16 * Z.of_nat kInterruptMaxCount - 1, idts_addr)]> (idtr m)) m).

Definition EnableKeyboardInterrupt (c vector : Z) : XM bool :=
  let* result := on_io_apic (IoApic.Apic_SetIrqRedirection io_base kKeyboardIrq vector (u32 c) false) in
  ret (match result with Value _ => true | Unexpected _ => false end).

Definition InterruptInit (c : Z) : XM unit :=
  let* _ := SetUpIdtr c in
  let* _ := RegisterInterruptFunc kApicTimerVector ApicTimerHandler in
  let* _ := RegisterInterruptFunc kKeyboardVector KeyboardHandler in
  let* _ := EnableKeyboardInterrupt c kKeyboardVector in
  SetupPeriodicTimer c NAILONG_KERNEL_TICK kApicTimerVector.

Definition InterruptInitSMP (c : Z) : XM unit :=
  let* _ := SetUpIdtr c in
  let* _ := SetupPeriodicTimer c NAILONG_KERNEL_TICK kApicTimerVector in
  on_kernel (modify (fun k => set_intr (<[c := true]> (intr k)) k)).

End ops.
End X86Interrupt.

(** * Interrupts of x86_64: setup and timer

    The gates of the descriptor table say what they were built from, the setup
    leads every vector to its handler, and a timer interrupt ends before its tick. *)

Module X86InterruptProps.

Import TaskManager KernelInv KernelSpec KernelProps KernelRun X86Interrupt.

(** ** Bit fields *)

Lemma testbit_field x width j : 0 <= width -> 0 <= j -> Z.testbit (x mod 2 ^ width) j = (j <? width) && Z.testbit x j.
Proof.
  intros Hw Hj. destruct (Z.ltb_spec j width); [by rewrite Z.mod_pow2_bits_low by lia|by rewrite Z.mod_pow2_bits_high by lia].
Qed.

Lemma testbit_set_bits off width x v j : 0 <= off -> 0 <= width -> 0 <= j ->
  Z.testbit (set_bits off width x v) j = if (off <=? j) && (j <? off + width) then Z.testbit x (j - off) else Z.testbit v j.
Proof.
  intros Ho Hw Hj. unfold set_bits. rewrite Z.lor_spec, Z.ldiff_spec, !Z.shiftl_spec by lia.
  destruct (Z.leb_spec off j) as [Hl|Hl]; cbn [andb].
  - rewrite testbit_field, Z.testbit_ones_nonneg by lia. destruct (Z.ltb_spec (j - off) width), (Z.ltb_spec j (off + width)); try lia.
    + by rewrite andb_false_r.
    + by rewrite andb_true_r, orb_false_r.
  - rewrite !(Z.testbit_neg_r _ (j - off)) by lia. by rewrite andb_true_r, orb_false_r.
Qed.

Lemma get_set_same off width x v : 0 <= off -> 0 <= width -> get_bits off width (set_bits off width x v) = x mod 2 ^ width.
Proof.
  intros Ho Hw. apply Z.bits_inj'. intros j Hj. unfold get_bits. rewrite !testbit_field, Z.shiftr_spec, testbit_set_bits by lia.
  destruct (Z.ltb_spec j width); [|done]. rewrite (proj2 (Z.leb_le _ _)), (proj2 (Z.ltb_lt _ _)) by lia. cbn. by rewrite Z.add_simpl_r.
Qed.

Lemma get_set_other off width off' width' x v : 0 <= off -> 0 <= width -> 0 <= off' -> 0 <= width' -> off + width <= off' \/ off' + width' <= off ->
  get_bits off width (set_bits off' width' x v) = get_bits off width v.
Proof.
  intros Ho Hw Ho' Hw' Hd. apply Z.bits_inj'. intros j Hj. unfold get_bits. rewrite !testbit_field, !Z.shiftr_spec, testbit_set_bits by lia.
  destruct (Z.ltb_spec j width); [|done]. by destruct (Z.leb_spec off' (j + off)), (Z.ltb_spec (j + off) (off' + width')); try lia.
Qed.

(** What the processor takes from a gate. *)
Definition gate_offset (g : Idt) : Z := get_bits 0 16 g.1 + get_bits 48 16 g.1 * 2 ^ 16 + get_bits 0 32 g.2 * 2 ^ 32.
Definition gate_selector (g : Idt) : Z := get_bits 16 16 g.1.
Definition gate_ist (g : Idt) : Z := get_bits 32 3 g.1.
Definition gate_type (g : Idt) : Z := get_bits 40 4 g.1.
Definition gate_dpl (g : Idt) : Z := get_bits 45 2 g.1.
Definition gate_present (g : Idt) : Z := get_bits 47 1 g.1.

(** A gate holds the whole address of its entry, and its other arguments as far as
    they fit the fields. *)
Theorem gate_fields base selector ist type dpl p : 0 <= base < 2 ^ 64 -> let g := new_idt base selector ist type dpl p in
  gate_offset g = base /\ gate_selector g = selector mod 2 ^ 16 /\ gate_ist g = ist mod 2 ^ 3 /\ gate_type g = type mod 2 ^ 4 /\
  gate_dpl g = dpl mod 2 ^ 2 /\ gate_present g = p mod 2 ^ 1.
Proof.
  intros Hb g. unfold gate_offset, gate_selector, gate_ist, gate_type, gate_dpl, gate_present, g, new_idt. cbn [fst snd].
  repeat first [rewrite get_set_same by lia | rewrite get_set_other by lia]. split_and!; try done.
  change 0xFFFF with (Z.ones 16). rewrite !Z.land_ones, !Z.mod_mod, !Z.shiftr_div_pow2 by lia.
  rewrite (Z.mod_small (base / 2 ^ 32)) by (split; [apply Z.div_pos; lia|apply Z.div_lt_upper_bound; lia]).
  change (2 ^ 32) with (2 ^ 16 * 2 ^ 16) at 1. rewrite <- Z.div_div by lia.
  pose proof (Z.div_mod base (2 ^ 16)). pose proof (Z.div_mod (base / 2 ^ 16) (2 ^ 16)). lia.
Qed.

Section props.
Context {D E : Type} `{ApicHw D} `{Mmio E} (x2 : bool) (entry apic_base io_base idts_addr c : Z) (address : nat -> Z).
Context (base : D -> Z) (regs : D -> LocalApic.reg -> Z) (sent : D -> list Z) (eois : D -> nat) (dest : D -> Z) (busy : D -> nat) (implemented : LocalApic.reg -> Z).
Context (dev : LocalApicProps.apic_contract x2 apic_base base regs sent eois dest busy implemented) (Hbase : 0 <= apic_base < 2 ^ 64 - 0x400).
Abbreviation ready := (LocalApicProps.ready apic_base base) (only parsing).
Implicit Types m : Machine D E.

(** ** The timer *)

Lemma send_eoi_spec la d : ready la d ->
  exists d', LocalApic.SendEoi la d = Ret d' tt /\ eois d' = S (eois d) /\ (forall r, r <> LocalApic.TimerCurrCount -> regs d' r = regs d r) /\
    sent d' = sent d /\ ready la d'.
Proof.
  intros Hr. pose proof Hr as (He & Hx & Hb). destruct (LocalApicProps.eoi_write _ _ _ _ _ _ _ _ _ dev d He) as (Hregs & Hbd & Hs & Hn). rewrite Hx in *.
  eexists. split.
  - unfold LocalApic.SendEoi. instantiate (1 := if LocalApic.is_x2apic_mode_ la then wrmsr LocalApic.kEoi 0 d else mmio_store (apic_base + LocalApic.kXApicEoiOffset) 0 d).
    destruct (LocalApic.is_x2apic_mode_ la); [done|]. unfold Out. rewrite Hb, u64_small; [done|unfold LocalApic.kXApicEoiOffset; lia].
  - split_and!; [done|done|done|]. by eapply LocalApicProps.ready_same.
Qed.

(** A timer interrupt is a tick of the kernel, and it has ended wherever the tick
    leads. *)
Lemma apic_timer_tick m scancode : alive_core c (kern m) -> ready (local_apic_ m) (lapic m c) ->
  interrupt_handlers m !! Z.to_nat kApicTimerVector = Some ApicTimerHandler ->
  exists m', TarpEntry entry c kApicTimerVector scancode m = Ret m' tt /\ tick_effects c (kern m) (kern m') /\ alive_core c (kern m') /\
    eois (lapic m' c) = S (eois (lapic m c)) /\ (forall t, left m' t = left m t) /\
    (forall r, r <> LocalApic.TimerCurrCount -> regs (lapic m' c) r = regs (lapic m c) r).
Proof.
  intros Hl Hr Hh. destruct (step_total entry c OpTick (kern m) Hl eq_refl) as (k' & Ek & Hk). cbn [run_op] in Ek.
  destruct (send_eoi_spec _ _ Hr) as (d' & Ed & Hn & Hregs & _).
  pose proof (tick_effects_hold entry c (kern m) k' Hl Ek) as Hte. pose proof (so_alive _ _ _ _ Hk) as Hal.
  unfold TarpEntry, Do. change (_ <? _) with true. cbn [bind gets]. rewrite Hh. cbn [run_func handler_code run_code bind gets].
  unfold SendEoi, on_lapic. rewrite Ed. cbn [bind gets]. unfold on_kernel. cbn [kern set_lapic bind]. rewrite Ek. cbn [bind gets].
  destruct (_ =? _); eexists; (split; [reflexivity|]); cbn; rewrite fn_lookup_insert; split_and!; try done.
  intros t. destruct (decide (t = current c (set_lapic (<[c:=d']> (lapic m)) m))) as [->|Hne];
    [by rewrite fn_lookup_insert|by rewrite fn_lookup_insert_ne].
Qed.

(** ** Setup *)

Context (rf : E -> Z -> Z) (writable : Z -> Z) (sel : E -> Z).
Context (iodev : IoApic.window_regs io_base rf writable sel) (Hio : 0 <= io_base < 2 ^ 64 - 32).
Context (Hlow : forall j, 0 <= j < 8 \/ j = 16 -> Z.testbit (writable (IoApic.low_reg kKeyboardIrq)) j = true).
Context (Hhigh : forall j, 24 <= j < 32 -> Z.testbit (writable (IoApic.high_reg kKeyboardIrq)) j = true).
Context (Hlvt : Z.land 0x200F0 (implemented LocalApic.LvtTimer) = 0x200F0) (Hcount : implemented LocalApic.TimerInitCount = Z.ones 32).
Context (Hdivide : Z.land 0x0B (implemented LocalApic.TimerDivide) = 0x0B).
Context (Haddress : forall n, 0 <= address n < 2 ^ 64).

(** The handler of every vector. *)
Definition handler_at (n : nat) : InterruptFunc :=
  if decide (n = 0xF0%nat) then ApicTimerHandler else if decide (n = 0xF1%nat) then KeyboardHandler else DefaultHandler.

(** The timer counts from 100000 at 100 MHz, periodically. *)
Definition timer_runs d : Prop :=
  regs d LocalApic.LvtTimer = 0x200F0 /\ regs d LocalApic.TimerInitCount = 100000 /\ regs d LocalApic.TimerDivide = 0x0B.

(** The line of the keyboard. *)
Definition keyboard_routed (e : E) : Prop :=
  (forall j, 0 <= j < 8 -> Z.testbit (rf e (IoApic.low_reg kKeyboardIrq)) j = Z.testbit kKeyboardVector j) /\
  Z.testbit (rf e (IoApic.low_reg kKeyboardIrq)) 16 = false /\
  (forall j, 0 <= j < 8 -> Z.testbit (rf e (IoApic.high_reg kKeyboardIrq)) (24 + j) = Z.testbit c j).

Record set_up m : Prop := {
  su_gates : forall n, (n < kInterruptMaxCount)%nat -> exists g, idts m !! n = Some g /\ gate_offset g = address n /\
    gate_selector g = 8 /\ gate_ist g = 0 /\ gate_type g = k64BitInterruptGate /\ gate_dpl g = kRing0 /\ gate_present g = kPresent;
  su_idtr : idtr m c = (4095, idts_addr);
  su_handlers : forall n, (n < kInterruptMaxCount)%nat -> interrupt_handlers m !! n = Some (handler_at n);
  su_timer : timer_runs (lapic m c);
  su_keyboard : keyboard_routed (io_apic m);
  su_ready : ready (local_apic_ m) (lapic m c)
}.

Lemma periodic_timer_spec la d : ready la d -> Z.testbit (regs d LocalApic.Sivr) 8 = true ->
  exists d', LocalApic.SetupPeriodicTimer la NAILONG_KERNEL_TICK kApicTimerVector d = Ret d' tt /\ timer_runs d' /\ ready la d'.
Proof.
  intros Hr Hs. destruct (LocalApicProps.enable_timer_spec x2 apic_base base regs sent eois dest busy implemented dev Hbase la d 100000
    LocalApic.kTimerDivideBy1 kApicTimerVector true Hr Hs) as (d' & Ed & Hr' & Hd & Hc & Ht & _); [done|done|done|done|].
  exists d'. split_and!; [exact Ed| |done]. unfold timer_runs. rewrite Hd, Hc, Ht, Hcount. by split_and!.
Qed.

Lemma keyboard_spec e : kKeyboardIrq < IoApic.max_of (rf := rf) e ->
  exists e', IoApic.Apic_SetIrqRedirection io_base kKeyboardIrq kKeyboardVector (u32 c) false e = Ret e' (Value tt) /\ keyboard_routed e'.
Proof.
  intros Hm. destruct (IoApic.in_range_in io_base iodev Hio e kKeyboardIrq
    (IoApic.WriteRedirectionEntry io_base kKeyboardIrq (IoApic.redirection kKeyboardVector (u32 c) false)) keyboard_routed Hm) as (e' & Ee & R); [|by exists e'].
  intros e1 S1. destruct (IoApic.write_entry_spec io_base iodev Hio e1 kKeyboardIrq (IoApic.redirection kKeyboardVector (u32 c) false)) as (e2 & E2 & L & Hg & _); [done|].
  exists e2. split; [done|]. unfold keyboard_routed. rewrite L, Hg. split_and!.
  - intros j Hj. rewrite IoApic.testbit_merge, Hlow, Z.mod_pow2_bits_low, IoApic.testbit_redirection by lia. by rewrite decide_True by lia.
  - rewrite IoApic.testbit_merge, Hlow, Z.mod_pow2_bits_low, IoApic.testbit_redirection by lia. done.
  - intros j Hj. rewrite IoApic.testbit_merge, Hhigh, Z.mod_pow2_bits_low, Z.shiftr_spec, IoApic.testbit_redirection by lia.
    rewrite !decide_False by lia. rewrite decide_True by lia. unfold u32, wrap. rewrite Z.mod_pow2_bits_low by lia. f_equal. lia.
Qed.

Lemma gates_spec n : (n < kInterruptMaxCount)%nat -> exists g, (gate_of address <$> seq 0 kInterruptMaxCount) !! n = Some g /\ gate_offset g = address n /\
    gate_selector g = 8 /\ gate_ist g = 0 /\ gate_type g = k64BitInterruptGate /\ gate_dpl g = kRing0 /\ gate_present g = kPresent.
Proof.
  intros Hn. exists (gate_of address n). rewrite list_lookup_fmap, lookup_seq_lt by done. split; [done|].
  destruct (gate_fields (address n) 8 0 k64BitInterruptGate kRing0 kPresent (Haddress n)) as (H1 & H2 & H3 & H4 & H5 & H6). by split_and!.
Qed.

Lemma handlers_spec n : (n < kInterruptMaxCount)%nat ->
  (<[Z.to_nat kKeyboardVector := KeyboardHandler]> (<[Z.to_nat kApicTimerVector := ApicTimerHandler]> (replicate kInterruptMaxCount DefaultHandler))) !! n =
  Some (handler_at n).
Proof.
  intros Hn. unfold handler_at. change (Z.to_nat kKeyboardVector) with 0xF1%nat. change (Z.to_nat kApicTimerVector) with 0xF0%nat.
  assert (kInterruptMaxCount = 256%nat) as Hk by done. rewrite Hk in *.
  repeat case_decide; subst.
  - rewrite list_lookup_insert_ne by done. by rewrite list_lookup_insert_eq by (rewrite length_replicate; lia).
  - by rewrite list_lookup_insert_eq by (rewrite length_insert, length_replicate; lia).
  - rewrite !list_lookup_insert_ne by congruence. by apply lookup_replicate_2.
Qed.

(** C39: the interrupts of x86_64.  After the constructor and [InterruptInit] the gate of
    every vector is present and leads to its entry, every vector has its handler, the
    timer of the local APIC runs periodically with the vector of its handler, and the
    line of the keyboard goes to this core.  From there a timer interrupt on a live
    core returns and leaves it live: the clock has gone up by one, the sleepers that
    are due are ready, the running task is charged and gives way when its slice is used
    up or a task was woken.  The interrupt has ended, and no code of the handler is
    left on the stack of any task, even if the tick switched to another one. *)
Theorem x86_interrupts_set_up m : ready (local_apic_ m) (lapic m c) -> Z.testbit (regs (lapic m c) LocalApic.Sivr) 8 = true ->
  kKeyboardIrq < IoApic.max_of (rf := rf) (io_apic m) ->
  exists m1, (let* _ := new_interrupt in InterruptInit io_base idts_addr address c) m = Ret m1 tt /\ set_up m1 /\ kern m1 = kern m /\
    forall scancode, alive_core c (kern m) ->
      exists m2, TarpEntry entry c kApicTimerVector scancode m1 = Ret m2 tt /\ tick_effects c (kern m1) (kern m2) /\ alive_core c (kern m2) /\
        eois (lapic m2 c) = S (eois (lapic m1 c)) /\ (forall t, left m2 t = left m1 t) /\ timer_runs (lapic m2 c).
Proof.
  intros Hr Hs Hm. destruct (keyboard_spec (io_apic m) Hm) as (e' & Ee & Hk).
  destruct (periodic_timer_spec _ _ Hr Hs) as (d' & Ed & Ht & Hr').
  assert (exists m1, (let* _ := new_interrupt in InterruptInit io_base idts_addr address c) m = Ret m1 tt /\ set_up m1 /\ kern m1 = kern m) as (m1 & E1 & S & Ek).
  { eexists. split.
    - unfold new_interrupt, InterruptInit, SetUpIdtr, RegisterInterruptFunc, EnableKeyboardInterrupt, SetupPeriodicTimer, on_io_apic, on_lapic.
      change (kApicTimerVector <? _) with true. change (kKeyboardVector <? _) with true.
      cbn [bind modify ret io_apic lapic local_apic_ set_handlers set_idts set_idtr]. rewrite Ee.
      cbn [bind ret io_apic lapic local_apic_ set_io_apic set_handlers set_idts set_idtr]. by rewrite Ed.
    - split; [|done]. split; cbn.
      + apply gates_spec.
      + by rewrite fn_lookup_insert.
      + apply handlers_spec.
      + by rewrite fn_lookup_insert.
      + done.
      + by rewrite fn_lookup_insert. }
  exists m1. split_and!; [done|done|done|]. intros scancode Hl. destruct (apic_timer_tick m1 scancode) as (m2 & E2 & St & Ha & He & Hlf & Hregs).
  - by rewrite Ek.
  - apply S.
  - apply (su_handlers _ S). apply Nat.ltb_lt. reflexivity.
  - exists m2. split_and!; try done. unfold timer_runs. rewrite !Hregs by done. apply S.
Qed.

End props.

(** A processor with an enabled local APIC and an I/O APIC of 24 lines. *)
Definition sample_chip : LocalApicProps.chip := LocalApicProps.MkChip (Z.shiftl 1 11) (fun _ => 0x1FF) [] 0 0.
Definition sample_x86 : Machine LocalApicProps.chip IoApic.sample_apic :=
  MkMachine sample_kernel LocalApic.new_local_apic (fun _ => sample_chip) (IoApic.MkApic 0 (fun r => if r =? 1 then 0x170011 else 0)) [] [] (fun _ => (0, 0)) [] (fun _ => []).

Lemma x86_interrupts_set_up_witness :
  exists m1 m2, (let* _ := new_interrupt in InterruptInit 0 0x5000 (fun n => u64 (0x100000 + 64 * Z.of_nat n)) 0) sample_x86 = Ret m1 tt /\
    TarpEntry 900 0 kApicTimerVector 0 m1 = Ret m2 tt /\ LocalApicProps.c_eois (lapic m2 0) = 1%nat /\ running_task (percpu (kern m2) 0) = 3.
Proof.
  destruct (x86_interrupts_set_up false 900 LocalApic.kDefaultApicBase 0 0x5000 0 (fun n => u64 (0x100000 + 64 * Z.of_nat n))
    LocalApicProps.chip_base LocalApicProps.chip_reg LocalApicProps.c_sent LocalApicProps.c_eois LocalApicProps.c_dest (fun _ => 0%nat) LocalApicProps.chip_implemented
    (LocalApicProps.chip_contract false) ltac:(unfold LocalApic.kDefaultApicBase; lia) (fun d r => u32 (IoApic.sa_regs d r)) (fun _ => Z.ones 32) IoApic.sa_sel
    IoApic.sample_apic_regs ltac:(lia) ltac:(intros; apply Z.ones_spec_low; lia) ltac:(intros; apply Z.ones_spec_low; lia) eq_refl eq_refl eq_refl
    ltac:(intros n; apply u64_range) sample_x86) as (m1 & E1 & _ & Ek & T).
  - repeat split.
  - reflexivity.
  - reflexivity.
  - destruct (T 0) as (m2 & E2 & _ & _ & He & _); [exact (ex_intro _ _ (ex_intro _ _ (ex_intro _ _ (ex_intro _ _ sample_live))))|].
    assert (match (let* _ := (let* _ := new_interrupt in InterruptInit 0 0x5000 (fun n => u64 (0x100000 + 64 * Z.of_nat n)) 0) in TarpEntry 900 0 kApicTimerVector 0) sample_x86 with
            | Ret m _ => LocalApicProps.c_eois (lapic m 0) = 1%nat /\ running_task (percpu (kern m) 0) = 3 | Halt _ _ => False end) as G by (vm_compute; split; reflexivity).
    change (match (match (let* _ := new_interrupt in InterruptInit 0 0x5000 (fun n => u64 (0x100000 + 64 * Z.of_nat n)) 0) sample_x86 with
      | Ret m _ => TarpEntry 900 0 kApicTimerVector 0 m | Halt m w => Halt m w end) with
            | Ret m _ => LocalApicProps.c_eois (lapic m 0) = 1%nat /\ running_task (percpu (kern m) 0) = 3 | Halt _ _ => False end) in G.
    rewrite E1, E2 in G. destruct G as [G1 G2]. exists m1, m2. split_and!; assumption.
Defined.

End X86InterruptProps.
