(* ===== verification/Gic.v ===== *)
(** * The Arm interrupt controller: src/src/driver/gic

    The registers of the distributor ([Gicd]) and the redistributors ([Gicr]).
    [group_regs] is the documented behaviour of the registers of one group of 32
    interrupts: the set-enable, clear-enable and clear-pending registers all show
    the current bits, and a store acts on the bits that are one.  The system
    registers (ICC_...) that the driver also writes are not modelled. *)

From stdpp Require Import base numbers list functions strings.
From Stdlib Require Import ZArith Lia.
From S2P Require Import Prelude Mmio.

Local Open Scope Z_scope.

Module Gic.

Section ops.
Context {D : Type} `{Mmio D}.

(** [x = Read(off); x |= 1 << i; Write(off, x)] *)
Definition or_bit (addr i : Z) : M D unit :=
  let* w := In 32 addr in Out 32 addr (set_bit w i true).

(** [x = Read(off); x &= ~(mask << shift); x |= v << shift; Write(off, x)] *)
Definition put_field (addr shift mask v : Z) : M D unit :=
  let* w := In 32 addr in
  let w := Z.land w (u32 (Z.lnot (u32 (Z.shiftl mask shift)))) in
  Out 32 addr (Z.lor w (u32 (Z.shiftl v shift))).

(** ** Distributor *)

Definition kCTLR : Z := 0x0000.
Definition kCTLR_EnableGrp1NS : Z := 0x2.
Definition kTYPER : Z := 0x0004.
Definition kTYPER_ITLinesNumberMask : Z := 0x1F.
Definition UINT32_MAX : Z := 2 ^ 32 - 1.

Section gicd.
Context (base_addr_ : Z).

Definition IGROUPRn (n : Z) : Z := base_addr_ + (0x0080 + n * 4).
Definition ISENABLERn (n : Z) : Z := base_addr_ + (0x0100 + n * 4).
Definition ICENABLERn (n : Z) : Z := base_addr_ + (0x0180 + n * 4).
Definition ICPENDRn (n : Z) : Z := base_addr_ + (0x0280 + n * 4).
Definition IPRIORITYRn (n : Z) : Z := base_addr_ + (0x0400 + n * 4).
Definition ITARGETSRn (n : Z) : Z := base_addr_ + (0x0800 + n * 4).
Definition ICFGRn (n : Z) : Z := base_addr_ + (0x0C00 + n * 4).

(** [for (i = 0; i < it_lines_number; i++) Write(IGROUPRn(i), UINT32_MAX)] *)
Fixpoint group_all (n : nat) : M D unit :=
  match n with
  | O => ret tt
  | S k => let* _ := group_all k in Out 32 (IGROUPRn (Z.of_nat k)) UINT32_MAX
  end.

(** The constructor. *)
Definition new_gicd : M D unit :=
  let* _ := nk_assert_msg (negb (base_addr_ =? 0)) "GICD base address is invalid [0x%X]" in
  let* _ := Out 32 (base_addr_ + kCTLR) 0 in
  let* t := In 32 (base_addr_ + kTYPER) in
  group_all (Z.to_nat (Z.land t kTYPER_ITLinesNumberMask)).

Definition Gicd_EnableGrp1NS : M D unit := Out 32 (base_addr_ + kCTLR) kCTLR_EnableGrp1NS.

Definition Gicd_Enable (intid : Z) : M D unit := or_bit (ISENABLERn (intid / 32)) (intid mod 32).
Definition Gicd_Disable (intid : Z) : M D unit := or_bit (ICENABLERn (intid / 32)) (intid mod 32).
Definition Gicd_Clear (intid : Z) : M D unit := or_bit (ICPENDRn (intid / 32)) (intid mod 32).

Definition Gicd_IsEnable (intid : Z) : M D bool :=
  let* w := In 32 (ISENABLERn (intid / 32)) in
  ret (negb (Z.land w (u32 (Z.shiftl 1 (intid mod 32))) =? 0)).

Definition Gicd_SetPrio (intid prio : Z) : M D unit :=
  put_field (IPRIORITYRn (intid / 4)) (intid mod 4 * 8) 0xFF prio.
Definition Gicd_SetConfig (intid config : Z) : M D unit :=
  put_field (ICFGRn (intid / 16)) (intid mod 16 * 2) 0x3 config.

(** The mask is [kICFGRn_BITS_MASK], the one of the configuration registers. *)
Definition Gicd_SetTarget (intid cpuid : Z) : M D unit :=
  put_field (ITARGETSRn (intid / 4)) (intid mod 4 * 8) 0x3 (Z.shiftl 1 cpuid).

Definition Gicd_SetupSPI (intid cpuid : Z) : M D unit :=
  let* _ := Gicd_SetConfig intid 0 in
  let* _ := Gicd_SetPrio intid 0 in
  let* _ := Gicd_SetTarget intid cpuid in
  let* _ := Gicd_Clear intid in
  Gicd_Enable intid.

End gicd.

(** ** Redistributors *)

Definition kSTRIDE : Z := 0x20000.
Definition kSGI_BASE : Z := 0x10000.
Definition kWAKER : Z := 0x0014.
Definition kWAKER_ProcessorSleepMASK : Z := 2.
Definition kWAKER_ChildrenAsleepMASK : Z := 4.
Definition kIGROUPR0 : Z := kSGI_BASE + 0x0080.
Definition kISENABLER0 : Z := kSGI_BASE + 0x0100.
Definition kICENABLER0 : Z := kSGI_BASE + 0x0180.
Definition kICPENDR0 : Z := kSGI_BASE + 0x0280.
(** Without [kSGI_BASE]. *)
Definition kIGRPMODR0 : Z := 0x0D00.

Section gicr.
Context (base_addr_ : Z).

(** The register of a core: [base_addr_ + cpuid * kSTRIDE + off], the product in 32 bits. *)
Definition gicr_reg (cpuid off : Z) : Z := base_addr_ + u32 (cpuid * kSTRIDE) + off.

Definition Gicr_Enable (intid cpuid : Z) : M D unit := or_bit (gicr_reg cpuid kISENABLER0) (intid mod 32).
Definition Gicr_Disable (intid cpuid : Z) : M D unit := or_bit (gicr_reg cpuid kICENABLER0) (intid mod 32).
Definition Gicr_Clear (intid cpuid : Z) : M D unit := or_bit (gicr_reg cpuid kICPENDR0) (intid mod 32).
Definition Gicr_SetPrio (intid cpuid prio : Z) : M D unit :=
  put_field (gicr_reg cpuid (kSGI_BASE + 0x0400 + intid / 4 * 4)) (intid mod 4 * 8) 0xFF prio.

(** [while (Read(cpuid, kWAKER) & kWAKER_ChildrenAsleepMASK) Pause()] *)
Fixpoint wait_awake (fuel : nat) (cpuid : Z) : M D unit :=
  match fuel with
  | O => halt_with SpinWait
  | S n =>
      let* w := In 32 (gicr_reg cpuid kWAKER) in
      if negb (Z.land w kWAKER_ChildrenAsleepMASK =? 0) then wait_awake n cpuid else ret tt
  end.

(** [SetUP]; the constructor does the same after checking the address. *)
Definition Gicr_SetUP (fuel : nat) (cpuid : Z) : M D unit :=
  let* _ := Out 32 (gicr_reg cpuid kCTLR) 0 in
  let* _ := Out 32 (gicr_reg cpuid kIGROUPR0) UINT32_MAX in
  let* _ := Out 32 (gicr_reg cpuid kIGRPMODR0) 0 in
  let* w := In 32 (gicr_reg cpuid kWAKER) in
  let* _ := Out 32 (gicr_reg cpuid kWAKER) (Z.land w (u32 (Z.lnot kWAKER_ProcessorSleepMASK))) in
  wait_awake fuel cpuid.

Definition new_gicr (fuel : nat) (cpuid : Z) : M D unit :=
  let* _ := nk_assert_msg (negb (base_addr_ =? 0)) "GICR base address is invalid [0x%X]" in
  Gicr_SetUP fuel cpuid.

Definition Gicr_SetupPPI (intid cpuid : Z) : M D unit :=
  let* _ := Gicr_SetPrio intid cpuid 0 in
  let* _ := Gicr_Clear intid cpuid in
  Gicr_Enable intid cpuid.
Definition Gicr_SetupSGI (intid cpuid : Z) : M D unit :=
  let* _ := Gicr_SetPrio intid cpuid 0 in
  let* _ := Gicr_Clear intid cpuid in
  Gicr_Enable intid cpuid.

End gicr.

(** ** The registers of a group of 32 interrupts *)

Record group_regs (isr icr cpr : Z) (enabled pending : D -> Z -> bool) : Prop := {
  set_load : forall d, exists v, mmio_load isr d = (v, d) /\ 0 <= v < 2 ^ 32 /\ forall j, 0 <= j < 32 -> Z.testbit v j = enabled d j;
  clr_load : forall d, exists v, mmio_load icr d = (v, d) /\ 0 <= v < 2 ^ 32 /\ forall j, 0 <= j < 32 -> Z.testbit v j = enabled d j;
  pend_load : forall d, exists v, mmio_load cpr d = (v, d) /\ 0 <= v < 2 ^ 32 /\ forall j, 0 <= j < 32 -> Z.testbit v j = pending d j;
  set_store : forall d v j, 0 <= v < 2 ^ 32 -> 0 <= j < 32 ->
    enabled (mmio_store isr v d) j = Z.testbit v j || enabled d j /\ pending (mmio_store isr v d) j = pending d j;
  clr_store : forall d v j, 0 <= v < 2 ^ 32 -> 0 <= j < 32 ->
    enabled (mmio_store icr v d) j = negb (Z.testbit v j) && enabled d j /\ pending (mmio_store icr v d) j = pending d j;
  pend_store : forall d v j, 0 <= v < 2 ^ 32 -> 0 <= j < 32 ->
    pending (mmio_store cpr v d) j = negb (Z.testbit v j) && pending d j /\ enabled (mmio_store cpr v d) j = enabled d j
}.

(** [or_bit] stores back the bits it has read, with one more. *)
Lemma or_bit_run addr i d (f : Z -> bool) : u64 addr = addr -> 0 <= i < 32 ->
  (exists v, mmio_load addr d = (v, d) /\ 0 <= v < 2 ^ 32 /\ forall j, 0 <= j < 32 -> Z.testbit v j = f j) ->
  exists w, or_bit addr i d = Ret (mmio_store addr w d) tt /\ 0 <= w < 2 ^ 32 /\
    forall j, 0 <= j < 32 -> Z.testbit w j = (i =? j) || f j.
Proof.
  intros Ha Hi (v & El & Hv & Hb). pose proof (set_bit_range v i true Hv Hi) as Hr. exists (set_bit v i true).
  unfold or_bit, In, Out. cbn [bind]. rewrite Ha, El, (wrap_small 32 v) by done. rewrite (wrap_small 32) by done.
  split; [done|]. split; [done|]. intros j Hj. rewrite testbit_set_bit, Hb by done.
  case_decide as E; [by rewrite E, Z.eqb_refl|]. by rewrite (proj2 (Z.eqb_neq _ _) E).
Qed.

(** A field of a plain register. *)
Context {plain : Z -> Prop} {reg : D -> Z -> Z} {implemented : Z -> Z} (dev : regs_of plain reg implemented).

Lemma put_field_run a shift mask v d : plain a -> u64 a = a -> 0 <= mask -> 0 <= v -> 0 <= shift ->
  exists d', put_field a shift mask v d = Ret d' tt /\ (forall b, plain b -> b <> a -> reg d' b = reg d b) /\
    forall j, 0 <= j < 32 -> Z.testbit (reg d' a) j =
      (Z.testbit (reg d a) j && negb (Z.testbit (Z.shiftl mask shift) j) || Z.testbit (Z.shiftl v shift) j) && Z.testbit (implemented a) j.
Proof.
  intros Pa Ha Hm Hv Hs. unfold put_field. cbn [bind]. rewrite (in_plain dev) by done.
  set (x := Z.lor _ _). assert (0 <= x < 2 ^ 32) as Hx.
  { unfold x. apply (or_range 32); [lia|apply (and_range 32)|]; try apply (wrap_range 32); try lia. by apply dev. }
  destruct (out_plain dev d a x Pa Ha Hx) as (d' & E & E1 & E2). exists d'. split; [done|]. split; [done|].
  intros j Hj. rewrite E1, Z.land_spec. f_equal. unfold x. rewrite Z.lor_spec, Z.land_spec. unfold u32, wrap.
  rewrite !Z.mod_pow2_bits_low by lia. rewrite Z.lnot_spec by lia. by rewrite Z.mod_pow2_bits_low by lia.
Qed.

End ops.
(** ** The claims *)

(** enabling and disabling in the distributor.  On registers that behave as
    documented, [Enable] enables its interrupt and no other, and [IsEnable] reports
    it.  [Disable] and [Clear], however, read the clear register (which shows the
    enabled or pending interrupts) and store it back with one more bit: they disable
    every interrupt, and drop every pending interrupt, of the group of 32. *)
Theorem gicd_group_operations {D : Type} `{Mmio D} (base intid : Z) (enabled pending : D -> Z -> bool) (d : D) :
  0 <= base < 2 ^ 64 - 0x10000 -> 0 <= intid < 1024 ->
  group_regs (ISENABLERn base (intid / 32)) (ICENABLERn base (intid / 32)) (ICPENDRn base (intid / 32)) enabled pending ->
  (exists d', Gicd_Enable base intid d = Ret d' tt /\ Gicd_IsEnable base intid d' = Ret d' true /\
     forall j, 0 <= j < 32 -> enabled d' j = (intid mod 32 =? j) || enabled d j /\ pending d' j = pending d j) /\
  (exists d', Gicd_Disable base intid d = Ret d' tt /\
     forall j, 0 <= j < 32 -> enabled d' j = false /\ pending d' j = pending d j) /\
  (exists d', Gicd_Clear base intid d = Ret d' tt /\
     forall j, 0 <= j < 32 -> pending d' j = false /\ enabled d' j = enabled d j).
Proof.
  intros Hb Hi G. pose proof (Z.mod_pos_bound intid 32 ltac:(lia)) as Hm.
  assert (0 <= intid / 32 < 32) as Hg by (split; [apply Z.div_pos|apply Z.div_lt_upper_bound]; lia).
  assert (forall o, 0 <= o < 0x8000 -> u64 (base + o) = base + o) as Hu by (intros o Ho; apply wrap_small; lia).
  split; [|split].
  - destruct (or_bit_run (ISENABLERn base (intid / 32)) (intid mod 32) d (enabled d) ltac:(apply Hu; lia) Hm (set_load _ _ _ _ _ G d))
      as (w & E & Hw & Hbits). eexists. split; [exact E|]. set (d' := mmio_store _ w d).
    assert (forall j, 0 <= j < 32 -> enabled d' j = (intid mod 32 =? j) || enabled d j /\ pending d' j = pending d j) as He.
    { intros j Hj. unfold d'. destruct (set_store _ _ _ _ _ G d w j Hw Hj) as [-> ->]. rewrite Hbits by done.
      split; [|done]. by destruct (_ =? j), (enabled d j). }
    split; [|done]. destruct (set_load _ _ _ _ _ G d') as (v & El & Hv & Hvb). unfold Gicd_IsEnable, In. cbn [bind].
    assert (u64 (ISENABLERn base (intid / 32)) = ISENABLERn base (intid / 32)) as -> by (apply Hu; lia). rewrite El, (wrap_small 32 v) by done.
    cbn [ret]. f_equal. apply negb_true_iff, Z.eqb_neq. intros Hz. rewrite bit_word in Hz by done.
    assert (Z.testbit (Z.land v (Z.shiftl 1 (intid mod 32))) (intid mod 32) = true) as Ht; [|by rewrite Hz, Z.testbit_0_l in Ht].
    rewrite Z.land_spec, Z.shiftl_1_l, Z.pow2_bits_true, Hvb by lia. destruct (He (intid mod 32) Hm) as [-> _]. by rewrite Z.eqb_refl.
  - destruct (or_bit_run (ICENABLERn base (intid / 32)) (intid mod 32) d (enabled d) ltac:(apply Hu; lia) Hm (clr_load _ _ _ _ _ G d))
      as (w & E & Hw & Hbits). eexists. split; [exact E|]. intros j Hj.
    destruct (clr_store _ _ _ _ _ G d w j Hw Hj) as [-> ->]. rewrite Hbits by done. split; [|done]. by destruct (_ =? j), (enabled d j).
  - destruct (or_bit_run (ICPENDRn base (intid / 32)) (intid mod 32) d (pending d) ltac:(apply Hu; lia) Hm (pend_load _ _ _ _ _ G d))
      as (w & E & Hw & Hbits). eexists. split; [exact E|]. intros j Hj.
    destruct (pend_store _ _ _ _ _ G d w j Hw Hj) as [-> ->]. rewrite Hbits by done. split; [|done]. by destruct (_ =? j), (pending d j).
Qed.

(** the target of a shared interrupt.  [SetTarget] sets the bit of the core,
    but it clears only the lowest two bits of the eight-bit field: the interrupt
    stays routed to every core from 2 on that it was routed to before. *)
Theorem set_target_keeps_old_cores {D : Type} `{Mmio D} (plain : Z -> Prop) (reg : D -> Z -> Z) (implemented : Z -> Z)
    (base intid cpuid : Z) (d : D) :
  regs_of plain reg implemented -> 0 <= base < 2 ^ 64 - 0x10000 -> 0 <= intid < 1020 -> 0 <= cpuid < 8 ->
  let a := ITARGETSRn base (intid / 4) in
  plain a -> implemented a = Z.ones 32 ->
  exists d', Gicd_SetTarget base intid cpuid d = Ret d' tt /\
    forall i, 0 <= i < 8 -> Z.testbit (reg d' a) (intid mod 4 * 8 + i) =
      (i =? cpuid) || (2 <=? i) && Z.testbit (reg d a) (intid mod 4 * 8 + i).
Proof.
  intros dev Hb Hi Hc a Pa Im. pose proof (Z.mod_pos_bound intid 4 ltac:(lia)) as Hm.
  assert (0 <= intid / 4 < 255) as Hq by (split; [apply Z.div_pos|apply Z.div_lt_upper_bound]; lia).
  assert (u64 a = a) as Ha by (unfold a, ITARGETSRn; apply wrap_small; lia).
  destruct (put_field_run dev a (intid mod 4 * 8) 0x3 (Z.shiftl 1 cpuid) d Pa Ha ltac:(lia)
    ltac:(apply Z.shiftl_nonneg; lia) ltac:(lia)) as (d' & E & _ & Hbits).
  exists d'. split; [exact E|]. intros i Hi8. rewrite Hbits, Im, Z.ones_spec_low, andb_true_r by lia.
  rewrite !Z.shiftl_spec by lia. replace (intid mod 4 * 8 + i - intid mod 4 * 8) with i by lia.
  assert (Z.testbit 3 i = negb (2 <=? i)) as ->.
  { change 3 with (Z.ones 2). destruct (Z.leb_spec 2 i); [by rewrite Z.ones_spec_high by lia|by rewrite Z.ones_spec_low by lia]. }
  assert (Z.testbit 1 (i - cpuid) = (i =? cpuid)) as ->.
  { destruct (Z.eqb_spec i cpuid) as [->|Hne]; [by rewrite Z.sub_diag|].
    destruct (Z.lt_ge_cases (i - cpuid) 0); [by apply Z.testbit_neg_r|]. change 1 with (2 ^ 0). apply Z.pow2_bits_false. lia. }
  destruct (Z.testbit (reg d a) _), (2 <=? i), (i =? cpuid); done.
Qed.

(** A group of 32 interrupts at the distributor at 0x8000000. *)
Record sample_group := MkGroup { g_enabled : Z; g_pending : Z }.
Definition sample_base : Z := 0x8000000.
#[global] Instance sample_group_mmio : Mmio sample_group := {|
  mmio_load a d :=
    (if (a =? ISENABLERn sample_base 1) || (a =? ICENABLERn sample_base 1) then u32 (g_enabled d)
     else if a =? ICPENDRn sample_base 1 then u32 (g_pending d) else 0, d);
  mmio_store a v d :=
    if a =? ISENABLERn sample_base 1 then MkGroup (Z.lor (g_enabled d) v) (g_pending d)
    else if a =? ICENABLERn sample_base 1 then MkGroup (Z.ldiff (g_enabled d) v) (g_pending d)
    else if a =? ICPENDRn sample_base 1 then MkGroup (g_enabled d) (Z.ldiff (g_pending d) v) else d
|}.

Definition sample_enabled (d : sample_group) (j : Z) : bool := Z.testbit (g_enabled d) j.
Definition sample_pending (d : sample_group) (j : Z) : bool := Z.testbit (g_pending d) j.

Lemma sample_group_regs :
  group_regs (ISENABLERn sample_base 1) (ICENABLERn sample_base 1) (ICPENDRn sample_base 1) sample_enabled sample_pending.
Proof.
  assert (forall x, 0 <= u32 x < 2 ^ 32 /\ forall j, 0 <= j < 32 -> Z.testbit (u32 x) j = Z.testbit x j) as Hw.
  { intros x. split; [apply wrap_range; lia|]. intros j Hj. apply Z.mod_pow2_bits_low. lia. }
  split.
  - intros d. eexists. split; [reflexivity|apply Hw].
  - intros d. eexists. split; [reflexivity|apply Hw].
  - intros d. eexists. split; [reflexivity|apply Hw].
  - intros d v j _ Hj. split; [|done].
    change (sample_enabled _ j) with (Z.testbit (Z.lor (g_enabled d) v) j) at 1. rewrite Z.lor_spec. apply orb_comm.
  - intros d v j _ Hj. split; [|done].
    change (sample_enabled _ j) with (Z.testbit (Z.ldiff (g_enabled d) v) j) at 1. rewrite Z.ldiff_spec. apply andb_comm.
  - intros d v j _ Hj. split; [|done].
    change (sample_pending _ j) with (Z.testbit (Z.ldiff (g_pending d) v) j) at 1. rewrite Z.ldiff_spec. apply andb_comm.
Qed.

Lemma gicd_group_operations_witness :
  exists d', Gicd_Disable sample_base 33 (MkGroup 6 0) = Ret d' tt /\ sample_enabled d' 2 = false.
Proof.
  destruct (gicd_group_operations sample_base 33 sample_enabled sample_pending (MkGroup 6 0)) as (_ & (d' & E & Hd) & _).
  - unfold sample_base. lia.
  - lia.
  - exact sample_group_regs.
  - exists d'. split; [exact E|]. apply (Hd 2). lia.
Defined.

Lemma set_target_keeps_old_cores_witness :
  exists d', Gicd_SetTarget sample_base 33 0 (const_bank 0x0400) = Ret d' tt /\
    Z.testbit (u32 (d' (ITARGETSRn sample_base 8))) 10 = true.
Proof.
  destruct (set_target_keeps_old_cores (fun _ => True) (fun b a => u32 (b a)) (fun _ => Z.ones 32) sample_base 33 0 (const_bank 0x0400))
    as (d' & E & Hb).
  - apply bank_regs.
  - unfold sample_base. lia.
  - lia.
  - lia.
  - done.
  - done.
  - exists d'. split; [exact E|]. exact (Hb 2 ltac:(lia)).
Defined.

End Gic.
