(* ===== verification/Aarch64Interrupt.v ===== *)
(** * Interrupts of aarch64: src/src/arch/aarch64/{interrupt,interrupt_main,timer}.cpp

    The table of handlers, the handlers of the serial port and of the timer, the
    entry for interrupts and the setup.  The CPU interface of the interrupt
    controller is a few system registers: an interrupt that was acknowledged stays
    active until its number is written to ICC_EOIR1_EL1.

    [Do] calls the handler and then writes ICC_EOIR1_EL1.  The handler of the timer
    may switch to another task; the write is then left on the stack of the task that
    was interrupted ([deferred]) and happens when that task runs again. *)

From stdpp Require Import base numbers list gmap functions strings.
From Stdlib Require Import ZArith Lia.
From S2P Require Import Prelude Errors Tcb Schedulers TaskManager KernelInv KernelSpec KernelProps KernelRun Paging VirtualMemory Mmio Uart Gic.
Import TaskManager.

Local Open Scope Z_scope.

Module Aarch64Interrupt.

Definition kMaxInterrupt : nat := 128.
Definition kPPIBase : Z := 16.
Definition kSPIBase : Z := 32.

Inductive InterruptFunc := DefaultHandler | UartHandler | TimerHandler.

Record Machine (D : Type) := MkMachine {
  kern : Kernel;
  dev : D;
  console : list Z;
  interrupt_handlers : list InterruptFunc;
  interval : Z;                  (* timer.cpp *)
  timer_intid : Z;
  cntv_tval : Z -> Z;            (* of each core: the timer, *)
  cntv_enable : Z -> bool;
  cntv_imask : Z -> bool;
  icc_igrpen1 : Z -> bool;       (* the CPU interface, *)
  icc_pmr : Z -> Z;
  active : Z -> list Z;          (* the interrupts that were acknowledged and not ended *)
  sgi : list Z;                  (* values written to ICC_SGI1R_EL1 *)
  deferred : ptr -> list Z       (* of each task: the writes that wait on its stack *)
}.
Arguments MkMachine {D}.
Arguments kern {D} m.
Arguments dev {D} m.
Arguments console {D} m.
Arguments interrupt_handlers {D} m.
Arguments interval {D} m.
Arguments timer_intid {D} m.
Arguments cntv_tval {D} m.
Arguments cntv_enable {D} m.
Arguments cntv_imask {D} m.
Arguments icc_igrpen1 {D} m.
Arguments icc_pmr {D} m.
Arguments active {D} m.
Arguments sgi {D} m.
Arguments deferred {D} m.

Section ops.
Context {D : Type} `{Mmio D} (entry : Z) (uart gicd gicr : Z).
Abbreviation AM A := (M (Machine D) A) (only parsing).

Definition set_kern v (m : Machine D) : Machine D := MkMachine v (dev m) (console m) (interrupt_handlers m) (interval m) (timer_intid m) (cntv_tval m) (cntv_enable m) (cntv_imask m) (icc_igrpen1 m) (icc_pmr m) (active m) (sgi m) (deferred m).
Definition set_dev v (m : Machine D) : Machine D := MkMachine (kern m) v (console m) (interrupt_handlers m) (interval m) (timer_intid m) (cntv_tval m) (cntv_enable m) (cntv_imask m) (icc_igrpen1 m) (icc_pmr m) (active m) (sgi m) (deferred m).
Definition set_console v (m : Machine D) : Machine D := MkMachine (kern m) (dev m) v (interrupt_handlers m) (interval m) (timer_intid m) (cntv_tval m) (cntv_enable m) (cntv_imask m) (icc_igrpen1 m) (icc_pmr m) (active m) (sgi m) (deferred m).
Definition set_handlers v (m : Machine D) : Machine D := MkMachine (kern m) (dev m) (console m) v (interval m) (timer_intid m) (cntv_tval m) (cntv_enable m) (cntv_imask m) (icc_igrpen1 m) (icc_pmr m) (active m) (sgi m) (deferred m).
Definition set_timer v i (m : Machine D) : Machine D := MkMachine (kern m) (dev m) (console m) (interrupt_handlers m) v i (cntv_tval m) (cntv_enable m) (cntv_imask m) (icc_igrpen1 m) (icc_pmr m) (active m) (sgi m) (deferred m).
Definition set_tval v (m : Machine D) : Machine D := MkMachine (kern m) (dev m) (console m) (interrupt_handlers m) (interval m) (timer_intid m) v (cntv_enable m) (cntv_imask m) (icc_igrpen1 m) (icc_pmr m) (active m) (sgi m) (deferred m).
Definition set_ctl e i (m : Machine D) : Machine D := MkMachine (kern m) (dev m) (console m) (interrupt_handlers m) (interval m) (timer_intid m) (cntv_tval m) e i (icc_igrpen1 m) (icc_pmr m) (active m) (sgi m) (deferred m).
Definition set_icc g p (m : Machine D) : Machine D := MkMachine (kern m) (dev m) (console m) (interrupt_handlers m) (interval m) (timer_intid m) (cntv_tval m) (cntv_enable m) (cntv_imask m) g p (active m) (sgi m) (deferred m).
Definition set_active v (m : Machine D) : Machine D := MkMachine (kern m) (dev m) (console m) (interrupt_handlers m) (interval m) (timer_intid m) (cntv_tval m) (cntv_enable m) (cntv_imask m) (icc_igrpen1 m) (icc_pmr m) v (sgi m) (deferred m).
Definition set_sgi v (m : Machine D) : Machine D := MkMachine (kern m) (dev m) (console m) (interrupt_handlers m) (interval m) (timer_intid m) (cntv_tval m) (cntv_enable m) (cntv_imask m) (icc_igrpen1 m) (icc_pmr m) (active m) v (deferred m).
Definition set_deferred v (m : Machine D) : Machine D := MkMachine (kern m) (dev m) (console m) (interrupt_handlers m) (interval m) (timer_intid m) (cntv_tval m) (cntv_enable m) (cntv_imask m) (icc_igrpen1 m) (icc_pmr m) (active m) (sgi m) v.

Definition on_kernel (x : M Kernel unit) : AM unit := fun m =>
  match x (kern m) with
  | Ret k a => Ret (set_kern k m) a
  | Halt k w => Halt (set_kern k m) w
  end.
Definition on_dev {A} (x : M D A) : AM A := fun m =>
  match x (dev m) with
  | Ret d a => Ret (set_dev d m) a
  | Halt d w => Halt (set_dev d m) w
  end.
Definition current (c : Z) (m : Machine D) : ptr := running_task (percpu (kern m) c).

(** ** Acknowledge and end *)

(** [ICC_EOIR1_EL1::Write(intid)] *)
Definition write_eoir (c intid : Z) (m : Machine D) : Machine D :=
  set_active (<[c := List.filter (fun i => negb (i =? intid)) (active m c)]> (active m)) m.
(** A read of ICC_IAR1_EL1 that answers [intid]. *)
Definition read_iar (c intid : Z) : AM Z :=
  let* _ := modify (fun m => set_active (<[c := intid :: active m c]> (active m)) m) in ret intid.

(** The task that runs now continues where it was switched away. *)
Definition resume (c : Z) : AM unit := modify (fun m =>
  let t := current c m in
  set_deferred (<[t := []]> (deferred m)) (foldr (write_eoir c) m (deferred m t))).

(** ** Handlers *)

Definition run_func (c : Z) (f : InterruptFunc) : AM unit :=
  match f with
  | DefaultHandler => ret tt
  | UartHandler =>
      let* ch := on_dev (Uart.Pl011_TryGetChar uart) in
      modify (fun m => set_console (console m ++ [ch]) m)
  | TimerHandler =>
      let* _ := modify (fun m => set_tval (<[c := interval m]> (cntv_tval m)) m) in
      on_kernel (TickUpdate entry c)
  end.

(** [interrupt_handlers[cause](cause, context); ICC_EOIR1_EL1::Write(cause)]: an
    index behind the table is not noticed. *)
Definition Do (c cause : Z) : AM unit :=
  let* t := gets (current c) in
  let* hs := gets interrupt_handlers in
  match hs !! Z.to_nat cause with
  | None => halt_with (BadPointer cause)
  | Some f =>
      let* _ := run_func c f in
      let* t' := gets (current c) in
      if t' =? t then modify (write_eoir c cause)
      else
        let* _ := modify (fun m => set_deferred (<[t := deferred m t ++ [cause]]> (deferred m)) m) in
        resume c
  end.

Definition irq_current_el_spx_handler (c intid : Z) : AM unit :=
  let* cause := read_iar c intid in Do c cause.

(** ** The vectors *)

Inductive exception := Sync | Irq | Fiq | SError.
Inductive origin := CurrentElSp0 | CurrentElSpx | LowerElAarch64 | LowerElAarch32.

(** Logs and pauses for ever. *)
Definition HandleException : AM unit := halt_with Diverges.

(** The sixteen functions that the vector table calls: one of them handles
    interrupts, the others log. *)
Definition vector_table (o : origin) (e : exception) (c intid : Z) : AM unit :=
  match e, o with
  | Sync, _ | SError, _ => HandleException
  | Irq, CurrentElSpx => irq_current_el_spx_handler c intid
  | Irq, _ | Fiq, _ => ret tt
  end.

(** An index behind the table writes to whatever is there. *)
Definition RegisterInterruptFunc (cause : Z) (func : InterruptFunc) : AM unit :=
  if Z.of_nat kMaxInterrupt <=? cause then halt_with (BadPointer cause)
  else modify (fun m => set_handlers (<[Z.to_nat cause := func]> (interrupt_handlers m)) m).

(** Software-generated interrupts: [sgi_value]. *)
Definition SendIpi (target_cpu_mask : Z) : AM (Expected unit) :=
  let* _ := modify (fun m => set_sgi (sgi m ++ [Z.lor (Z.shiftl (Z.land 0 0xF) 24) (Z.land target_cpu_mask 0xFFFF)]) m) in ret (Value tt).
Definition BroadcastIpi : AM (Expected unit) :=
  let* _ := modify (fun m => set_sgi (sgi m ++ [Z.lor (Z.shiftl (Z.land 0 0xF) 24) (Z.shiftl 1 40)]) m) in ret (Value tt).

(** ** Setup *)

Definition icc_enable (c : Z) (b : bool) : AM unit := modify (fun m => set_icc (<[c := b]> (icc_igrpen1 m)) (icc_pmr m) m).
Definition icc_all_priorities (c : Z) : AM unit := modify (fun m => set_icc (icc_igrpen1 m) (<[c := 0xFF]> (icc_pmr m)) m).
Definition EnableGrp1NS (c : Z) : AM unit := let* _ := on_dev (Gic.Gicd_EnableGrp1NS gicd) in icc_enable c true.

Definition new_gic (fuel : nat) (c : Z) : AM unit :=
  let* _ := on_dev (Gic.new_gicd gicd) in
  let* _ := on_dev (Gic.new_gicr gicr fuel c) in
  let* _ := icc_enable c false in
  let* _ := icc_all_priorities c in
  EnableGrp1NS c.
Definition Gic_SetUP (fuel : nat) (c : Z) : AM unit :=
  let* _ := icc_enable c false in
  let* _ := icc_all_priorities c in
  let* _ := EnableGrp1NS c in
  on_dev (Gic.Gicr_SetUP gicr fuel c).

Section vm.
Context {P : Paging} {A : Type} `{PageAllocator A}.
Definition on_machine {T} (x : AM T) : M (Machine D * VirtualMemory.Vm A) T := fun s =>
  match x s.1 with
  | Ret m a => Ret (m, s.2) a
  | Halt m w => Halt (m, s.2) w
  end.
Definition on_vm {T} (x : M (VirtualMemory.Vm A) T) : M (Machine D * VirtualMemory.Vm A) T := fun s =>
  match x s.2 with
  | Ret v a => Ret (s.1, v) a
  | Halt v w => Halt (s.1, v) w
  end.
(** The constructor. *)
Definition new_interrupt (fuel : nat) (c dist_size redist_size : Z) : M (Machine D * VirtualMemory.Vm A) unit :=
  let* _ := on_vm (VirtualMemory.MapMMIO gicd dist_size kernel_permissions) in
  let* _ := on_vm (VirtualMemory.MapMMIO gicr redist_size kernel_permissions) in
  let* _ := on_machine (new_gic fuel c) in
  let* _ := on_machine (modify (set_handlers (replicate kMaxInterrupt DefaultHandler))) in
  on_machine (on_dev (Gic.Gicr_SetupSGI gicr 0 c)).
End vm.

(** What [TimerInit] and [TimerInitSMP] have in common. *)
Definition start_timer (c : Z) : AM unit :=
  let* i := gets timer_intid in
  let* _ := on_dev (Gic.Gicr_SetupPPI gicr i c) in
  let* _ := modify (fun m => set_ctl (<[c := false]> (cntv_enable m)) (cntv_imask m) m) in
  let* _ := modify (fun m => set_ctl (cntv_enable m) (<[c := true]> (cntv_imask m)) m) in
  let* _ := modify (fun m => set_tval (<[c := interval m]> (cntv_tval m)) m) in
  let* _ := modify (fun m => set_ctl (<[c := true]> (cntv_enable m)) (cntv_imask m) m) in
  modify (fun m => set_ctl (cntv_enable m) (<[c := false]> (cntv_imask m)) m).
Definition TimerInitSMP (c : Z) : AM unit := start_timer c.
(** [frequency] is [BasicInfo::interval], [fdt_timer] the number in the device tree. *)
Definition TimerInit (c frequency fdt_timer : Z) : AM unit :=
  let* _ := modify (set_timer (frequency / NAILONG_KERNEL_TICK) (u64 (fdt_timer + kPPIBase))) in
  let* i := gets timer_intid in
  let* _ := RegisterInterruptFunc i TimerHandler in
  start_timer c.
(** [fdt_uart] is the number in the device tree.  The write of VBAR_EL1, which names the
    vector table, is left out. *)
Definition InterruptInit (c fdt_uart frequency fdt_timer : Z) : AM unit :=
  let* _ := on_dev (Gic.Gicd_SetupSPI gicd (u32 (fdt_uart + kSPIBase)) c) in
  let* _ := RegisterInterruptFunc (fdt_uart + kSPIBase) UartHandler in
  let* _ := on_kernel (modify (fun k => set_intr (<[c := true]> (intr k)) k)) in
  TimerInit c frequency fdt_timer.
Definition InterruptInitSMP (fuel : nat) (c : Z) : AM unit :=
  let* _ := Gic_SetUP fuel c in
  let* _ := on_kernel (modify (fun k => set_intr (<[c := true]> (intr k)) k)) in
  TimerInitSMP c.

End ops.
End Aarch64Interrupt.

(** * Interrupts of aarch64: the end of a timer interrupt

    All interrupts that the kernel sets up have the same priority, so the interrupt
    controller signals none while one is active.  Runs of a core are sequences of
    kernel operations by the running tasks and of interrupts that the controller
    signals. *)

Module Aarch64InterruptProps.

Import TaskManager KernelInv KernelSpec KernelProps KernelRun Aarch64Interrupt.

Section props.
Context {D : Type} `{Mmio D} (entry uart c : Z).
Implicit Types (m : Machine D) (t : ptr).

(** A kernel operation of the running task. *)
Definition kernel_op (o : core_op) : M (Machine D) unit :=
  let* t := gets (current c) in
  let* _ := on_kernel (run_op entry c o) in
  let* t' := gets (current c) in
  if t' =? t then ret tt else resume c.

Inductive event := KernelOp (o : core_op) | Signal (intid : Z).

Inductive istep : event -> Machine D -> Machine D -> Prop :=
| istep_op o m m' : o <> OpTick -> permitted c o (kern m) = true -> kernel_op o m = Ret m' tt -> istep (KernelOp o) m m'
| istep_irq intid m m' : active m c = [] -> irq_current_el_spx_handler entry uart c intid m = Ret m' tt -> istep (Signal intid) m m'.

(** Runs in which task [t] does not become the running task. *)
Inductive irun_without (t : ptr) : list event -> Machine D -> Machine D -> Prop :=
| irun_nil m : irun_without t [] m m
| irun_cons e es m m1 m2 : istep e m m1 -> current c m1 <> t -> irun_without t es m1 m2 -> irun_without t (e :: es) m m2.

(** Task [t] was switched away inside the interrupt [intid]. *)
Definition interrupted (t : ptr) (intid : Z) m : Prop :=
  active m c = [intid] /\ (forall q, q <> t -> deferred m q = []) /\ alive_core c (kern m).

Lemma write_eoirs_kern m l : kern (foldr (write_eoir c) m l) = kern m.
Proof. by induction l. Qed.

(** [resume] of a task that nothing waits for. *)
Lemma resume_nothing m : deferred m (current c m) = [] ->
  exists m', resume c m = Ret m' tt /\ kern m' = kern m /\ active m' = active m /\ cntv_tval m' = cntv_tval m /\ forall q, deferred m' q = deferred m q.
Proof.
  intros Hd. eexists. split; [reflexivity|]. cbn zeta beta. rewrite Hd. cbn. split_and!; [done|done|done|]. intros q.
  destruct (decide (q = current c m)) as [->|Hn]; [by rewrite fn_lookup_insert|by rewrite fn_lookup_insert_ne].
Qed.

Lemma on_kernel_op o m k' : run_op entry c o (kern m) = Ret k' tt -> on_kernel (run_op entry c o) m = Ret (set_kern k' m) tt.
Proof. intros E. unfold on_kernel. by rewrite E. Qed.

Lemma kernel_op_interrupted t intid o m : interrupted t intid m -> o <> OpTick -> permitted c o (kern m) = true ->
  exists k' m', run_op entry c o (kern m) = Ret k' tt /\ step_ok c o (kern m) k' /\
    (running_task (percpu k' c) <> t -> kernel_op o m = Ret m' tt /\ kern m' = k' /\ interrupted t intid m').
Proof.
  intros (Ha & Hd & Hl) Ho Hp. destruct (step_total entry c o (kern m) Hl Hp) as (k' & E & S). exists k'.
  destruct (decide (running_task (percpu k' c) = current c m)) as [Es|En].
  - exists (set_kern k' m). split_and!; [done|done|]. intros Hn. unfold kernel_op. cbn [bind gets]. rewrite (on_kernel_op _ _ _ E). cbn [bind gets].
    unfold current at 1. cbn [kern set_kern]. rewrite Es, Z.eqb_refl. split_and!; [done|done|]. split_and!; [done|done|apply S].
  - destruct (decide (running_task (percpu k' c) = t)) as [Et|Hn]; [by exists m|].
    destruct (resume_nothing (set_kern k' m)) as (m' & Er & Ek & Ea & _ & Ed); [by apply Hd|]. exists m'. split_and!; [done|done|].
    intros _. unfold kernel_op. cbn [bind gets]. rewrite (on_kernel_op _ _ _ E). cbn [bind gets]. unfold current at 1. cbn [kern set_kern].
    rewrite (proj2 (Z.eqb_neq _ _) En). split_and!; [done|done|]. split_and!; [by rewrite Ea|intros q Hq; rewrite Ed; by apply Hd|rewrite Ek; apply S].
Qed.

Lemma interrupted_run t intid es m m' : interrupted t intid m -> irun_without t es m m' ->
  interrupted t intid m' /\ local_tick (cpus (kern m') c) = local_tick (cpus (kern m) c) /\
  (forall i, Signal i ∉ es) /\ forall p, p ∈ sleeping_tasks (cpus (kern m) c) -> p ∈ sleeping_tasks (cpus (kern m') c).
Proof.
  intros I R. revert I. induction R as [m|e es m m1 m2 S Hc R IH]; intros I; [split; [done|]; split_and!; [done|intros i; apply not_elem_of_nil|done]|].
  destruct S as [o m m1 Ho Hp E|i m m1 Ha E]; [|by destruct I as (Ha' & _); rewrite Ha in Ha'].
  destruct (kernel_op_interrupted t intid o m I Ho Hp) as (k' & m1' & Ek & S & Hk).
  assert (kern m1 = k') as Ekm.
  { unfold kernel_op in E. cbn [bind gets] in E. rewrite (on_kernel_op _ _ _ Ek) in E. cbn [bind gets] in E. unfold resume in E.
    destruct (_ =? _) in E; cbn in E; injection E as <-; [done|]. cbn. apply write_eoirs_kern. }
  destruct (Hk ltac:(by rewrite <- Ekm)) as (E' & _ & I1). rewrite E in E'. injection E' as <-. destruct (IH I1) as (I2 & T2 & N2 & S2).
  split; [done|]. destruct S as [_ T1 S1 _]. split_and!.
  - rewrite T2, Ekm, T1. by destruct o.
  - intros i [Hi|Hi]%elem_of_cons; [done|by eapply N2].
  - intros p Hp'. apply S2. rewrite Ekm. by apply S1.
Qed.

(** C32: the timer interrupt of aarch64.  On a live core the trap makes the step of a timer
    tick.  If the interrupted task still runs afterwards, the interrupt has ended.
    If the tick switched to another task, the interrupt stays active: in every run
    of the core in which the interrupted task does not come back no interrupt is
    signalled, the clock stands still and no sleeper wakes up. *)
Theorem preemption_stops_the_clock m intid : alive_core c (kern m) -> active m c = [] -> (forall t, deferred m t = []) ->
  interrupt_handlers m !! Z.to_nat intid = Some TimerHandler ->
  exists m1, irq_current_el_spx_handler entry uart c intid m = Ret m1 tt /\ step entry c OpTick (kern m) (kern m1) /\
    cntv_tval m1 c = interval m /\
    (current c m1 = current c m -> active m1 c = []) /\
    (current c m1 <> current c m -> forall es m2, irun_without (current c m) es m1 m2 ->
       active m2 c = [intid] /\ (forall i, Signal i ∉ es) /\ local_tick (cpus (kern m2) c) = local_tick (cpus (kern m1) c) /\
       forall p, p ∈ sleeping_tasks (cpus (kern m1) c) -> p ∈ sleeping_tasks (cpus (kern m2) c)).
Proof.
  intros Hl Ha Hd Hh. destruct (step_total entry c OpTick (kern m) Hl eq_refl) as (k' & E & S). cbn [run_op] in E.
  assert (step entry c OpTick (kern m) k') as St by (by constructor).
  unfold irq_current_el_spx_handler, read_iar, Do. cbn [bind gets modify ret interrupt_handlers set_active]. rewrite Hh. cbn [run_func bind modify].
  unfold on_kernel. cbn [kern set_tval set_active]. rewrite E. cbn [bind gets]. unfold current. cbn [kern set_kern set_tval set_active].
  set (t := running_task (percpu (kern m) c)). destruct (Z.eqb_spec (running_task (percpu k' c)) t) as [Es|En].
  - eexists. split; [reflexivity|]. cbn. rewrite !fn_lookup_insert. cbn. rewrite Z.eqb_refl. cbn. split_and!; [done|done|by rewrite Ha|done].
  - cbn [bind modify].
    set (m0 := set_deferred _ _).
    destruct (resume_nothing m0) as (m1 & Er & Ek & Ea & Et & Ed).
    { unfold m0. cbn. rewrite fn_lookup_insert_ne; [apply Hd|]. done. }
    assert (interrupted t intid m1) as I.
    { split_and!.
      - rewrite Ea. unfold m0. cbn. by rewrite fn_lookup_insert, Ha.
      - intros q Hq. rewrite Ed. unfold m0. cbn. by rewrite fn_lookup_insert_ne.
      - rewrite Ek. apply S. }
    exists m1. rewrite Er, Ek. split_and!; [done|done| | |].
    + rewrite Et. unfold m0. cbn. by rewrite fn_lookup_insert.
    + done.
    + intros _ es m2 R. destruct (interrupted_run _ _ _ _ _ I R) as ((I2 & _) & T & N & P). rewrite Ek in T, P. by split_and!.
Qed.

End props.

(** A core on which task 2 runs for its last tick while task 3 is ready. *)
Definition sample_aarch64 : Machine Bank :=
  MkMachine sample_kernel (const_bank 0 : Bank) [] (<[27%nat := TimerHandler]> (replicate kMaxInterrupt DefaultHandler)) 1000 27
    (fun _ => 0) (fun _ => true) (fun _ => false) (fun _ => true) (fun _ => 255) (fun _ => []) [] (fun _ => []).

Lemma preemption_stops_the_clock_witness :
  exists m1, irq_current_el_spx_handler 900 0 0 27 sample_aarch64 = Ret m1 tt /\ current 0 sample_aarch64 = 2 /\ current 0 m1 = 3 /\ active m1 0 = [27].
Proof.
  destruct (preemption_stops_the_clock 900 0 0 sample_aarch64 27
    (ex_intro _ _ (ex_intro _ _ (ex_intro _ _ (ex_intro _ _ sample_live)))) eq_refl (fun _ => eq_refl) eq_refl) as (m1 & E & _ & _ & _ & R).
  assert (current 0 m1 = 3) as C.
  { assert (match irq_current_el_spx_handler 900 0 0 27 sample_aarch64 with Ret m _ => current 0 m = 3 | Halt _ _ => False end) as G by (vm_compute; reflexivity).
    rewrite E in G. exact G. }
  exists m1. split; [exact E|]. split; [reflexivity|]. split; [exact C|].
  refine (proj1 (R _ [] m1 (irun_nil _ _ _ _ _))). rewrite C. vm_compute. discriminate.
Defined.

End Aarch64InterruptProps.
