(* ===== verification/NodeHeap.v ===== *)
(** * A heap of objects

    Pointer programs as computations on a finite map from addresses to objects:
    following a pointer that is null, freed or wild stops the run.  [new] always
    finds memory: the containers do not test its result, so that without memory
    they write through a null pointer; that case is outside the model. *)

From stdpp Require Import base numbers list gmap.
From Stdlib Require Import ZArith Lia.
From S2P Require Import Prelude.

Local Open Scope Z_scope.

Module NodeHeap.

Section ops.
Context {N : Type}.
Abbreviation heap := (gmap Z N).

Definition get (p : ptr) : M heap N := fun h =>
  match h !! p with
  | Some n => Ret h n
  | None => Halt h (BadPointer p)
  end.

Definition put (p : ptr) (n : N) : M heap unit := fun h =>
  match h !! p with
  | Some _ => Ret (<[p := n]> h) tt
  | None => Halt h (BadPointer p)
  end.

(** An assignment to fields of the object at [p]. *)
Definition upd (p : ptr) (f : N -> N) : M heap unit := let* n := get p in put p (f n).

(** [new]: an address that is not null and not in use. *)
Definition new (n : N) : M heap ptr := fun h =>
  let p := fresh ({[nullptr]} ∪ dom h) in Ret (<[p := n]> h) p.

Definition delete_ (p : ptr) : M heap unit := fun h =>
  match h !! p with
  | Some _ => Ret (delete p h) tt
  | None => Halt h (BadPointer p)
  end.

End ops.
End NodeHeap.
