(* ===== verification/HeapLogic.v ===== *)
(** * A separation logic for the heap of objects

    The pointer programs of NodeHeap.v are verified with the proof mode of Iris.
    [p |-> n] is the ownership of the object at [p]; [wp m F] says that [m]
    returns (so it neither follows a wild pointer nor diverges) with a result and
    resources that satisfy [F].  [heap_adequacy] turns a proof in the logic into a
    statement about the run itself: the cells owned at the end are in the final
    heap, and every other cell of the initial heap is untouched. *)

From iris.proofmode Require Import proofmode coq_tactics reduction environments.
From iris.base_logic.lib Require Import ghost_map.
From stdpp Require Import base numbers list gmap.
From Stdlib Require Import ZArith Lia.
From S2P Require Import Prelude NodeHeap.
Import NodeHeap.

Local Open Scope Z_scope.

Module HeapLogic.

Section logic.
Context {N : Type} {Σ : gFunctors} `{!ghost_mapG Σ Z N} (γ : gname).
Abbreviation heap := (gmap Z N).
Implicit Types (p q : ptr) (n : N) (h : heap).

Definition cell p n : iProp Σ := p ↪[γ] n.

Definition wp {A} (m : M heap A) (F : A -> iProp Σ) : iProp Σ :=
  ∀ h, ghost_map_auth γ 1 h ==∗ ∃ h' a, ⌜m h = Ret h' a⌝ ∗ ghost_map_auth γ 1 h' ∗ F a.

Lemma cell_ne p q n n' : cell p n -∗ cell q n' -∗ ⌜p <> q⌝.
Proof. iIntros "H1 H2". by iApply (ghost_map_elem_ne with "H1 H2"). Qed.

(** ** Rules *)

Lemma wp_ret {A} (a : A) (F : A -> iProp Σ) : F a -∗ wp (ret a) F.
Proof. iIntros "H" (h) "Hh". iModIntro. iExists h, a. by iFrame. Qed.

Lemma wp_bind {A B} (m : M heap A) (k : A -> M heap B) (F : B -> iProp Σ) :
  wp m (fun a => wp (k a) F) -∗ wp (bind m k) F.
Proof.
  iIntros "H" (h) "Hh". iMod ("H" with "Hh") as (h1 a E) "[Hh H]".
  iMod ("H" with "Hh") as (h2 b E2) "[Hh H]". iModIntro. iExists h2, b. iFrame. iPureIntro. unfold bind. by rewrite E.
Qed.

Lemma wp_wand {A} (m : M heap A) (F G : A -> iProp Σ) : wp m F -∗ (∀ a, F a -∗ G a) -∗ wp m G.
Proof.
  iIntros "H HG" (h) "Hh". iMod ("H" with "Hh") as (h1 a E) "[Hh H]". iModIntro. iExists h1, a. iFrame.
  iSplit; [done|]. by iApply "HG".
Qed.

Lemma wp_bupd {A} (m : M heap A) (F : A -> iProp Σ) : (|==> wp m F) -∗ wp m F.
Proof. iIntros "H" (h) "Hh". iMod "H". by iApply "H". Qed.

(** An equation between programs. *)
Lemma wp_eq {A} (m m' : M heap A) (F : A -> iProp Σ) : (forall h, m h = m' h) -> wp m' F -∗ wp m F.
Proof. iIntros (E) "H %h Hh". rewrite E. by iApply "H". Qed.

Lemma wp_bind_assoc {A B C} (m : M heap A) (k : A -> M heap B) (k' : B -> M heap C) F :
  wp (bind m (fun a => bind (k a) k')) F -∗ wp (bind (bind m k) k') F.
Proof. apply wp_eq. intros h. unfold bind. by destruct (m h). Qed.

Lemma wp_ret_bind {A B} (a : A) (k : A -> M heap B) F : wp (k a) F -∗ wp (bind (ret a) k) F.
Proof. iIntros "H". iApply wp_bind. by iApply wp_ret. Qed.

Lemma wp_get p n F : cell p n -∗ (cell p n -∗ F n) -∗ wp (get p) F.
Proof.
  iIntros "Hp HF" (h) "Hh". iDestruct (ghost_map_lookup with "Hh Hp") as %E. iModIntro. iExists h, n.
  iFrame "Hh". iSplit; [|by iApply "HF"]. iPureIntro. unfold get. by rewrite E.
Qed.

Lemma wp_put p n n' F : cell p n -∗ (cell p n' -∗ F tt) -∗ wp (put p n') F.
Proof.
  iIntros "Hp HF" (h) "Hh". iDestruct (ghost_map_lookup with "Hh Hp") as %E.
  iMod (ghost_map_update n' with "Hh Hp") as "[Hh Hp]". iModIntro. iExists _, tt. iFrame "Hh".
  iSplit; [|by iApply "HF"]. iPureIntro. unfold put. by rewrite E.
Qed.

Lemma wp_upd p n f F : cell p n -∗ (cell p (f n) -∗ F tt) -∗ wp (upd p f) F.
Proof.
  iIntros "Hp HF". iApply wp_bind. iApply (wp_get with "Hp"). iIntros "Hp". by iApply (wp_put with "Hp").
Qed.

Lemma wp_new n F : (∀ p, ⌜p <> nullptr⌝ -∗ cell p n -∗ F p) -∗ wp (new n) F.
Proof.
  iIntros "HF" (h) "Hh". pose proof (is_fresh ({[nullptr]} ∪ dom h)) as [Hn Hd]%not_elem_of_union.
  set (p := fresh ({[nullptr]} ∪ dom h)) in *.
  iMod (ghost_map_insert p n with "Hh") as "[Hh Hp]"; [by apply not_elem_of_dom|]. iModIntro. iExists _, p.
  iFrame "Hh". iSplit; [done|]. iApply ("HF" with "[%] Hp"). set_solver.
Qed.

Lemma wp_delete p n F : cell p n -∗ F tt -∗ wp (delete_ p) F.
Proof.
  iIntros "Hp HF" (h) "Hh". iDestruct (ghost_map_lookup with "Hh Hp") as %E.
  iMod (ghost_map_delete with "Hh Hp") as "Hh". iModIntro. iExists _, tt. iFrame. iPureIntro. unfold delete_. by rewrite E.
Qed.

(** ** Steps of the proof mode: the cell is found in the context. *)

Lemma tac_get {A} (Δ : envs (iPropI Σ)) i p n (k : N -> M heap A) F :
  envs_lookup i Δ = Some (false, cell p n) ->
  envs_entails Δ (wp (k n) F) -> envs_entails Δ (wp (bind (get p) k) F).
Proof.
  rewrite envs_entails_unseal. intros Hl Hk. rewrite envs_lookup_split //; simpl. rewrite Hk.
  iIntros "[Hp H]". iApply wp_bind. iApply (wp_get with "Hp"). iIntros "Hp". by iApply "H".
Qed.

Lemma tac_upd {A} (Δ Δ' : envs (iPropI Σ)) i p n f (k : unit -> M heap A) F :
  envs_lookup i Δ = Some (false, cell p n) ->
  envs_simple_replace i false (Esnoc Enil i (cell p (f n))) Δ = Some Δ' ->
  envs_entails Δ' (wp (k tt) F) -> envs_entails Δ (wp (bind (upd p f) k) F).
Proof.
  rewrite envs_entails_unseal. intros Hl Hr Hk. rewrite envs_simple_replace_sound //; simpl. rewrite Hk.
  iIntros "[Hp H]". iApply wp_bind. iApply (wp_upd with "Hp"). iIntros "Hp". iApply "H". by iFrame.
Qed.

End logic.

(** ** From the logic to runs *)

Definition heapΣ (N : Type) : gFunctors := ghost_mapΣ Z N.

Section adequacy.
Context {N : Type}.
Abbreviation heap := (gmap Z N).

(** The cells [L] are pairwise different cells of [h]. *)
Definition holds (h : heap) (L : list (Z * N)) : Prop := NoDup L.*1 /\ Forall (fun c => h !! c.1 = Some c.2) L.

Lemma holds_of {Σ} `{!ghost_mapG Σ Z N} γ (h : heap) (L : list (Z * N)) :
  ghost_map_auth γ 1 h -∗ ([∗ list] c ∈ L, cell γ c.1 c.2) -∗ ⌜holds h L⌝.
Proof.
  induction L as [|[p n] L IH]; iIntros "Hh HL".
  - iPureIntro. split; constructor.
  - rewrite big_sepL_cons. iDestruct "HL" as "[Hp HL]". iDestruct (ghost_map_lookup with "Hh Hp") as %E.
    iAssert (⌜p ∉ L.*1⌝)%I as %Hn.
    { iIntros (Hin). apply list_elem_of_fmap in Hin as ([q n'] & -> & Hin).
      iDestruct (big_sepL_elem_of with "HL") as "Hq"; [done|]. by iDestruct (cell_ne with "Hp Hq") as %?. }
    iDestruct (IH with "Hh HL") as %[Hd Hf]. iPureIntro. split; by constructor.
Qed.

Lemma holds_subseteq (h : heap) L : holds h L -> list_to_map L ⊆ h.
Proof.
  intros [Hd Hf]. apply map_subseteq_spec. intros p n E%elem_of_list_to_map_2.
  by apply (proj1 (Forall_forall _ _) Hf (p, n)).
Qed.

(** A run of [m] from a heap that holds the cells [L]. *)
Lemma heap_adequacy {A} (m : M heap A) (h : heap) (L : list (Z * N)) (Q : A -> list (Z * N) -> Prop) :
  holds h L ->
  (forall `{!ghost_mapG Σ Z N} γ,
     ([∗ list] c ∈ L, cell γ c.1 c.2) ⊢ wp γ m (fun a => ∃ L', ⌜Q a L'⌝ ∗ [∗ list] c ∈ L', cell γ c.1 c.2)) ->
  exists h' a L', m h = Ret h' a /\ Q a L' /\ holds h' L' /\
    forall p n, p ∉ L.*1 -> h !! p = Some n -> h' !! p = Some n /\ p ∉ L'.*1.
Proof.
  intros HL Hm. pose proof (holds_subseteq h L HL) as Hsub. destruct HL as [Hd Hf].
  apply (pure_soundness (PROP := iPropI (heapΣ N))), uPred.bupd_soundness; [apply _|].
  iMod (ghost_map_alloc h) as (γ) "[Hh Hm]". rewrite -{2}(map_difference_union _ _ Hsub).
  rewrite big_sepM_union; [|by apply map_disjoint_difference_r1].
  iDestruct "Hm" as "[HL Hr]". rewrite big_sepM_list_to_map //.
  iMod (Hm with "HL Hh") as (h' a E) "(Hh & %L' & %HQ & HL)". iModIntro. iExists h', a, L'.
  iDestruct (holds_of with "Hh HL") as %HL'. iSplit; [done|]. iSplit; [done|]. iSplit; [done|].
  iIntros (p n Hp Hn). iDestruct (big_sepM_lookup _ _ p n with "Hr") as "Hp".
  { apply lookup_difference_Some. split; [done|]. by apply not_elem_of_list_to_map. }
  iDestruct (ghost_map_lookup with "Hh Hp") as %E'. iSplit; [done|]. iIntros (Hin).
  apply list_elem_of_fmap in Hin as ([q n'] & -> & Hin). iDestruct (big_sepL_elem_of with "HL") as "Hq"; [done|].
  by iDestruct (cell_ne with "Hp Hq") as %?.
Qed.

End adequacy.

Ltac hget :=
  cbn beta; eapply tac_get; [iAssumptionCore|cbn [bind]].
Ltac hupd :=
  cbn beta; eapply tac_upd; [iAssumptionCore|pm_reflexivity|].

End HeapLogic.
