(* ===== verification/NkRbTree.v ===== *)
(** * nk_std::RbTree and nk_std::set: src/src/libcxx/include/nk_rb_tree, nk_set

    The red-black tree with parent pointers and an embedded header node, on a heap
    of nodes.  The header is a node without a value; [header_.parent] is the root,
    [header_.left] and [header_.right] the first and the last node.  A function
    that takes a reference to the root takes the address of the header instead.

    Functions of the source that come in two mirror images ([RbTreeRotateLeft] and
    [RbTreeRotateRight], the two branches of the rebalancing loops) take the side
    as an argument.  Loops have fuel; the operations of the class pass two more
    than the number of nodes. *)

From stdpp Require Import base numbers list gmap.
From Stdlib Require Import ZArith Lia.
From S2P Require Import Prelude NodeHeap.
Import NodeHeap.

Local Open Scope Z_scope.

Module NkRbTree.

Inductive RbTreeColor := kRed | kBlack.
#[global] Instance color_eq_dec : EqDecision RbTreeColor.
Proof. solve_decision. Defined.

Inductive side := SLeft | SRight.
#[global] Instance side_eq_dec : EqDecision side.
Proof. solve_decision. Defined.
Definition other (d : side) : side := match d with SLeft => SRight | SRight => SLeft end.

Record RbTreeNode (V : Type) := MkNode {
  color : RbTreeColor;
  parent : ptr;
  left : ptr;
  right : ptr;
  value_field : option V
}.
Arguments MkNode {V}.
Arguments color {V} r.
Arguments parent {V} r.
Arguments left {V} r.
Arguments right {V} r.
Arguments value_field {V} r.

Record RbTree := MkTree { node_count_ : Z; header_ : ptr }.

Section ops.
Context {V : Type}.
Abbreviation node := (RbTreeNode V).
Abbreviation HM A := (M (gmap Z node) A).

Definition set_color (c : RbTreeColor) (n : node) : node := MkNode c (parent n) (left n) (right n) (value_field n).
Definition set_parent (p : ptr) (n : node) : node := MkNode (color n) p (left n) (right n) (value_field n).
Definition set_left (p : ptr) (n : node) : node := MkNode (color n) (parent n) p (right n) (value_field n).
Definition set_right (p : ptr) (n : node) : node := MkNode (color n) (parent n) (left n) p (value_field n).

(** The child on a side. *)
Definition sub (d : side) (n : node) : ptr := match d with SLeft => left n | SRight => right n end.
Definition set_sub (d : side) (p : ptr) (n : node) : node :=
  match d with SLeft => set_left p n | SRight => set_right p n end.

(** [p->f] *)
Definition fld {A} (f : node -> A) (p : ptr) : HM A := let* n := get p in ret (f n).

(** ** Walks *)

(** [while (x->left != nullptr) x = x->left; return x;] and its mirror image. *)
Fixpoint extreme (fuel : nat) (d : side) (x : ptr) : HM ptr :=
  match fuel with
  | O => halt_with Diverges
  | S f => let* c := fld (sub d) x in if c =? nullptr then ret x else extreme f d c
  end.
Definition minimum (fuel : nat) (x : ptr) : HM ptr := extreme fuel SLeft x.
Definition maximum (fuel : nat) (x : ptr) : HM ptr := extreme fuel SRight x.

(** [while (node == y->right) { node = y; y = y->parent; }] and its mirror image. *)
Fixpoint climb (fuel : nat) (d : side) (node y : ptr) : HM (ptr * ptr) :=
  match fuel with
  | O => halt_with Diverges
  | S f =>
      let* c := fld (sub d) y in
      if node =? c then let* yp := fld parent y in climb f d y yp else ret (node, y)
  end.

Definition increment (fuel : nat) (node : ptr) : HM ptr :=
  let* r := fld right node in
  if negb (r =? nullptr) then extreme fuel SLeft r
  else
    let* y := fld parent node in
    let* ny := climb fuel SRight node y in
    let* r := fld right ny.1 in
    if negb (r =? ny.2) then ret ny.2 else ret ny.1.

Definition decrement (fuel : nat) (node : ptr) : HM ptr :=
  let* c := fld color node in
  let* is_end := (if bool_decide (c = kRed) then
                    let* p := fld parent node in
                    let* pp := fld parent p in
                    ret (pp =? node)
                  else ret false) in
  if is_end : bool then fld right node
  else
    let* l := fld left node in
    if negb (l =? nullptr) then extreme fuel SRight l
    else
      let* y := fld parent node in
      let* ny := climb fuel SLeft node y in
      ret ny.2.

(** ** Rotations *)

Definition root (hdr : ptr) : HM ptr := fld parent hdr.

(** [if (x == root) root = y; else if (x == x->parent->left) x->parent->left = y;
    else x->parent->right = y;] and its mirror image. *)
Definition replace_child (d : side) (x y hdr : ptr) : HM unit :=
  let* r := root hdr in
  if x =? r then upd hdr (set_parent y)
  else
    let* p := fld parent x in
    let* c := fld (sub d) p in
    if x =? c then upd p (set_sub d y) else upd p (set_sub (other d) y).

(** [RbTreeRotateLeft] is [rotate SLeft], [RbTreeRotateRight] is [rotate SRight]. *)
Definition rotate (d : side) (x hdr : ptr) : HM unit :=
  let* y := fld (sub (other d)) x in
  let* b := fld (sub d) y in
  let* _ := upd x (set_sub (other d) b) in
  let* b := fld (sub d) y in
  let* _ := (if negb (b =? nullptr) then upd b (set_parent x) else ret tt) in
  let* p := fld parent x in
  let* _ := upd y (set_parent p) in
  let* _ := replace_child d x y hdr in
  let* _ := upd y (set_sub d x) in
  upd x (set_parent y).

(** ** Rebalancing after an insertion *)

(** [p != nullptr && p->color == kRed] *)
Definition is_red (p : ptr) : HM bool :=
  if p =? nullptr then ret false else let* c := fld color p in ret (bool_decide (c = kRed)).
(** [p == nullptr || p->color == kBlack] *)
Definition is_black (p : ptr) : HM bool :=
  if p =? nullptr then ret true else let* c := fld color p in ret (bool_decide (c = kBlack)).

(** One branch of the loop: the parent is the child on side [d] of the grandparent. *)
Definition rebalance_step (d : side) (x hdr : ptr) : HM ptr :=
  let* p := fld parent x in
  let* g := fld parent p in
  let* y := fld (sub (other d)) g in
  let* red := is_red y in
  if red : bool then
    let* _ := upd p (set_color kBlack) in
    let* _ := upd y (set_color kBlack) in
    let* _ := upd g (set_color kRed) in
    ret g
  else
    let* c := fld (sub (other d)) p in
    let* x := (if x =? c then let* _ := rotate d p hdr in ret p else ret x) in
    let* p := fld parent x in
    let* _ := upd p (set_color kBlack) in
    let* g := fld parent p in
    let* _ := upd g (set_color kRed) in
    let* _ := rotate (other d) g hdr in
    ret x.

Fixpoint rebalance_loop (fuel : nat) (x hdr : ptr) : HM unit :=
  match fuel with
  | O => halt_with Diverges
  | S f =>
      let* r := root hdr in
      if x =? r then ret tt
      else
        let* p := fld parent x in
        let* c := fld color p in
        if negb (bool_decide (c = kRed)) then ret tt
        else
          let* g := fld parent p in
          let* gl := fld left g in
          let* x' := rebalance_step (if p =? gl then SLeft else SRight) x hdr in
          rebalance_loop f x' hdr
  end.

Definition RbTreeRebalance (fuel : nat) (x hdr : ptr) : HM unit :=
  let* _ := upd x (set_color kRed) in
  let* _ := rebalance_loop fuel x hdr in
  let* r := root hdr in
  upd r (set_color kBlack).

(** ** Rebalancing after a removal *)

(** The node that leaves its place ([y]) and the child that takes it ([x]). *)
Definition victim (fuel : nat) (z : ptr) : HM (ptr * ptr) :=
  let* l := fld left z in
  if l =? nullptr then let* x := fld right z in ret (z, x)
  else
    let* r := fld right z in
    if r =? nullptr then let* x := fld left z in ret (z, x)
    else
      let* y := extreme fuel SLeft r in
      let* x := fld right y in
      ret (y, x).

(** [if (x) x->parent = p;] *)
Definition reparent (x p : ptr) : HM unit := if negb (x =? nullptr) then upd x (set_parent p) else ret tt.

(** The successor [y] takes the place of [z]; the result is [x_parent]. *)
Definition relink_successor (z y x hdr : ptr) : HM ptr :=
  let* zl := fld left z in
  let* _ := upd zl (set_parent y) in
  let* _ := upd y (set_left zl) in
  let* zr := fld right z in
  let* x_parent := (if negb (y =? zr) then
      let* yp := fld parent y in
      let* _ := reparent x yp in
      let* _ := upd yp (set_left x) in
      let* _ := upd y (set_right zr) in
      let* _ := upd zr (set_parent y) in
      ret yp
    else ret y) in
  let* _ := replace_child SLeft z y hdr in
  let* zp := fld parent z in
  let* _ := upd y (set_parent zp) in
  let* cy := fld color y in
  let* cz := fld color z in
  let* _ := upd y (set_color cz) in
  let* _ := upd z (set_color cy) in
  ret x_parent.

(** [if (left_most == z) { if (z->right == nullptr) left_most = z->parent; else
    left_most = minimum(x); }] and its mirror image. *)
Definition fix_end (fuel : nat) (d : side) (z x hdr : ptr) : HM unit :=
  let* m := fld (sub d) hdr in
  if m =? z then
    let* c := fld (sub (other d)) z in
    if c =? nullptr then let* zp := fld parent z in upd hdr (set_sub d zp)
    else let* m := extreme fuel d x in upd hdr (set_sub d m)
  else ret tt.

(** [z] has at most one child, [x], which takes its place. *)
Definition unlink (fuel : nat) (z x hdr : ptr) : HM ptr :=
  let* x_parent := fld parent z in
  let* _ := reparent x x_parent in
  let* _ := replace_child SLeft z x hdr in
  let* _ := fix_end fuel SLeft z x hdr in
  let* _ := fix_end fuel SRight z x hdr in
  ret x_parent.

(** The end of a branch: the far child of the sibling [w] is red. *)
Definition erase_finish (d : side) (w x_parent hdr : ptr) : HM unit :=
  let* cp := fld color x_parent in
  let* _ := upd w (set_color cp) in
  let* _ := upd x_parent (set_color kBlack) in
  let* far := fld (sub (other d)) w in
  let* _ := (if negb (far =? nullptr) then upd far (set_color kBlack) else ret tt) in
  rotate d x_parent hdr.

(** A branch from where the sibling [w] is black.  [None] is the [break]. *)
Definition erase_black (d : side) (w x_parent hdr : ptr) : HM (option (ptr * ptr)) :=
  let* near := fld (sub d) w in
  let* bn := is_black near in
  let* both := (if bn : bool then let* far := fld (sub (other d)) w in is_black far else ret false) in
  if both : bool then
    let* _ := upd w (set_color kRed) in
    let* pp := fld parent x_parent in
    ret (Some (x_parent, pp))
  else
    let* far := fld (sub (other d)) w in
    let* bf := is_black far in
    let* w := (if bf : bool then
        let* near := fld (sub d) w in
        let* _ := (if negb (near =? nullptr) then upd near (set_color kBlack) else ret tt) in
        let* _ := upd w (set_color kRed) in
        let* _ := rotate (other d) w hdr in
        fld (sub (other d)) x_parent
      else ret w) in
    let* _ := erase_finish d w x_parent hdr in
    ret None.

(** One branch of the loop: [x] is the child on side [d] of [x_parent]. *)
Definition erase_step (d : side) (x_parent hdr : ptr) : HM (option (ptr * ptr)) :=
  let* w := fld (sub (other d)) x_parent in
  let* cw := fld color w in
  let* w := (if bool_decide (cw = kRed) then
      let* _ := upd w (set_color kBlack) in
      let* _ := upd x_parent (set_color kRed) in
      let* _ := rotate d x_parent hdr in
      fld (sub (other d)) x_parent
    else ret w) in
  erase_black d w x_parent hdr.

Fixpoint erase_loop (fuel : nat) (x x_parent hdr : ptr) : HM ptr :=
  match fuel with
  | O => halt_with Diverges
  | S f =>
      let* r := root hdr in
      if x =? r then ret x
      else
        let* b := is_black x in
        if negb b then ret x
        else
          let* l := fld left x_parent in
          let* s := erase_step (if x =? l then SLeft else SRight) x_parent hdr in
          match s with
          | None => ret x
          | Some (x', x_parent') => erase_loop f x' x_parent' hdr
          end
  end.

Definition RbTreeRebalanceForErase (fuel : nat) (z hdr : ptr) : HM ptr :=
  let* yx := victim fuel z in
  let* x_parent := (if negb (yx.1 =? z) then relink_successor z yx.1 yx.2 hdr else unlink fuel z yx.2 hdr) in
  let* c := fld color z in
  let* _ := (if negb (bool_decide (c = kRed)) then
      let* x := erase_loop fuel yx.2 x_parent hdr in
      if negb (x =? nullptr) then upd x (set_color kBlack) else ret tt
    else ret tt) in
  ret z.

(** ** The class *)

Context {K : Type} (KeyOfValue : V -> K) (key_compare : K -> K -> bool).

Definition fuel_of (t : RbTree) : nat := S (S (Z.to_nat (node_count_ t))).

Definition create_node (v : V) : HM ptr := new (MkNode kRed nullptr nullptr nullptr (Some v)).
Definition destroy_node (p : ptr) : HM unit := delete_ p.
(** The value of a node; the header has none. *)
Definition value (p : ptr) : HM V :=
  let* v := fld value_field p in
  match v with Some v => ret v | None => halt_with (BadPointer p) end.
Definition clone_node (x : ptr) : HM ptr :=
  let* v := value x in
  let* tmp := create_node v in
  let* c := fld color x in
  let* _ := upd tmp (set_color c) in
  let* _ := upd tmp (set_left nullptr) in
  let* _ := upd tmp (set_right nullptr) in
  ret tmp.

Definition new_tree : HM RbTree :=
  let* h := new (MkNode kRed nullptr nullptr nullptr None) in
  let* _ := upd h (set_left h) in
  let* _ := upd h (set_right h) in
  ret (MkTree 0 h).

Definition begin (t : RbTree) : HM ptr := fld left (header_ t).
Definition end_ (t : RbTree) : ptr := header_ t.
Definition empty (t : RbTree) : bool := node_count_ t =? 0.
Definition size (t : RbTree) : Z := node_count_ t.

Fixpoint erase_recursive (fuel : nat) (x : ptr) : HM unit :=
  match fuel with
  | O => halt_with Diverges
  | S f =>
      if x =? nullptr then ret tt
      else
        let* r := fld right x in
        let* _ := erase_recursive f r in
        let* y := fld left x in
        let* _ := destroy_node x in
        erase_recursive f y
  end.

Definition clear (t : RbTree) : HM RbTree :=
  if negb (node_count_ t =? 0) then
    let* r := root (header_ t) in
    let* _ := erase_recursive (fuel_of t) r in
    let* _ := upd (header_ t) (set_parent nullptr) in
    let* _ := upd (header_ t) (set_left (header_ t)) in
    let* _ := upd (header_ t) (set_right (header_ t)) in
    ret (MkTree 0 (header_ t))
  else ret t.

(** The first part of [insert_aux]: the new node [z] below [y]. *)
Definition link_leaf (x y z hdr : ptr) (v : V) : HM unit :=
  let* go_left := (if (y =? hdr) || negb (x =? nullptr) then ret true
                   else let* w := value y in ret (key_compare (KeyOfValue v) (KeyOfValue w))) in
  if go_left : bool then
    let* _ := upd y (set_left z) in
    if y =? hdr then
      let* _ := upd hdr (set_parent z) in
      upd hdr (set_right z)
    else
      let* lm := fld left hdr in
      if y =? lm then upd hdr (set_left z) else ret tt
  else
    let* _ := upd y (set_right z) in
    let* rm := fld right hdr in
    if y =? rm then upd hdr (set_right z) else ret tt.

Definition insert_aux (t : RbTree) (x y : ptr) (v : V) : HM (RbTree * ptr) :=
  let hdr := header_ t in
  let* z := create_node v in
  let* _ := link_leaf x y z hdr v in
  let* _ := upd z (set_parent y) in
  let* _ := upd z (set_left nullptr) in
  let* _ := upd z (set_right nullptr) in
  let* _ := RbTreeRebalance (fuel_of t) z hdr in
  ret (MkTree (u64 (node_count_ t + 1)) hdr, z).

(** The descent of [insert_unique]: the last node and the last comparison. *)
Fixpoint insert_loop (fuel : nat) (v : V) (x y : ptr) (comp : bool) : HM (ptr * bool) :=
  match fuel with
  | O => halt_with Diverges
  | S f =>
      if x =? nullptr then ret (y, comp)
      else
        let* w := value x in
        let comp := key_compare (KeyOfValue v) (KeyOfValue w) in
        let* c := (if comp then fld left x else fld right x) in
        insert_loop f v c x comp
  end.

Definition insert_unique (t : RbTree) (v : V) : HM (RbTree * ptr * bool) :=
  let* r := root (header_ t) in
  let* yc := insert_loop (fuel_of t) v r (header_ t) true in
  let y := yc.1 in
  let* b := begin t in
  if yc.2 && (y =? b) then
    let* tz := insert_aux t nullptr y v in ret (tz.1, tz.2, true)
  else
    let* j := (if yc.2 then decrement (fuel_of t) y else ret y) in
    let* w := value j in
    if key_compare (KeyOfValue w) (KeyOfValue v) then
      let* tz := insert_aux t nullptr y v in ret (tz.1, tz.2, true)
    else ret (t, j, false).

(** The descent shared by [find], [lower_bound] and [upper_bound]: [go_left] is the
    test of the loop. *)
Fixpoint bound_loop (fuel : nat) (go_left : V -> bool) (x y : ptr) : HM ptr :=
  match fuel with
  | O => halt_with Diverges
  | S f =>
      if x =? nullptr then ret y
      else
        let* w := value x in
        if go_left w then let* l := fld left x in bound_loop f go_left l x
        else let* r := fld right x in bound_loop f go_left r y
  end.

Definition lower_bound (t : RbTree) (k : K) : HM ptr :=
  let* r := root (header_ t) in
  bound_loop (fuel_of t) (fun w => negb (key_compare (KeyOfValue w) k)) r (header_ t).
Definition upper_bound (t : RbTree) (k : K) : HM ptr :=
  let* r := root (header_ t) in
  bound_loop (fuel_of t) (fun w => key_compare k (KeyOfValue w)) r (header_ t).
Definition equal_range (t : RbTree) (k : K) : HM (ptr * ptr) :=
  let* l := lower_bound t k in
  let* u := upper_bound t k in
  ret (l, u).

Definition find (t : RbTree) (k : K) : HM ptr :=
  let* r := root (header_ t) in
  let* j := bound_loop (fuel_of t) (fun w => negb (key_compare (KeyOfValue w) k)) r (header_ t) in
  if j =? end_ t then ret (end_ t)
  else let* w := value j in if key_compare k (KeyOfValue w) then ret (end_ t) else ret j.

Definition erase (t : RbTree) (position : ptr) : HM RbTree :=
  let* y := RbTreeRebalanceForErase (fuel_of t) position (header_ t) in
  let* _ := destroy_node y in
  ret (MkTree (u64 (node_count_ t - 1)) (header_ t)).

(** [while (first != last) { erase(first++); ++n; }] *)
Fixpoint erase_range (fuel : nat) (t : RbTree) (first last : ptr) (n : Z) : HM (RbTree * Z) :=
  match fuel with
  | O => halt_with Diverges
  | S f =>
      if first =? last then ret (t, n)
      else
        let* next := increment (fuel_of t) first in
        let* t' := erase t first in
        erase_range f t' next last (u64 (n + 1))
  end.

Definition erase_key (t : RbTree) (k : K) : HM (RbTree * Z) :=
  let* p := equal_range t k in
  erase_range (fuel_of t) t p.1 p.2 0.

Fixpoint copy (fuel : nat) (x p : ptr) : HM ptr :=
  match fuel with
  | O => halt_with Diverges
  | S f =>
      let* new_node := clone_node x in
      let* _ := upd new_node (set_parent p) in
      let* l := fld left x in
      let* _ := (if negb (l =? nullptr) then let* c := copy f l new_node in upd new_node (set_left c) else ret tt) in
      let* r := fld right x in
      let* _ := (if negb (r =? nullptr) then let* c := copy f r new_node in upd new_node (set_right c) else ret tt) in
      ret new_node
  end.

(** The part that the copy constructor and the assignment share. *)
Definition copy_from (t x : RbTree) : HM RbTree :=
  let hdr := header_ t in
  let* r := root (header_ x) in
  if negb (r =? nullptr) then
    let* c := copy (fuel_of x) r hdr in
    let* _ := upd hdr (set_parent c) in
    let* r := root hdr in
    let* m := minimum (fuel_of x) r in
    let* _ := upd hdr (set_left m) in
    let* r := root hdr in
    let* m := maximum (fuel_of x) r in
    let* _ := upd hdr (set_right m) in
    ret (MkTree (node_count_ x) hdr)
  else ret t.

Definition copy_tree (x : RbTree) : HM RbTree := let* t := new_tree in copy_from t x.

(** Two trees are the same object when their headers are. *)
Definition assign (t x : RbTree) : HM RbTree :=
  if negb (header_ t =? header_ x) then let* t' := clear t in copy_from t' x else ret t.

(** [~RbTree]: the nodes, then the object with the header. *)
Definition destroy (t : RbTree) : HM unit :=
  let* t' := clear t in delete_ (header_ t').

End ops.

(** ** nk_std::set: the keys are the values *)
Section set.
Context {K : Type} (key_compare : K -> K -> bool).

Definition set_insert (t : RbTree) (x : K) : M (gmap Z (RbTreeNode K)) (RbTree * ptr * bool) :=
  insert_unique (fun x => x) key_compare t x.
Definition set_erase (t : RbTree) (x : K) : M (gmap Z (RbTreeNode K)) (RbTree * Z) :=
  erase_key (fun x => x) key_compare t x.
Definition set_find (t : RbTree) (x : K) : M (gmap Z (RbTreeNode K)) ptr := find (fun x => x) key_compare t x.
Definition set_count (t : RbTree) (x : K) : M (gmap Z (RbTreeNode K)) Z :=
  let* j := set_find t x in ret (if j =? end_ t then 0 else 1).
Definition set_erase_at (t : RbTree) (position : ptr) : M (gmap Z (RbTreeNode K)) RbTree := erase t position.
Definition set_lower_bound (t : RbTree) (x : K) : M (gmap Z (RbTreeNode K)) ptr := lower_bound (fun x => x) key_compare t x.
Definition set_upper_bound (t : RbTree) (x : K) : M (gmap Z (RbTreeNode K)) ptr := upper_bound (fun x => x) key_compare t x.
Definition set_clear (t : RbTree) : M (gmap Z (RbTreeNode K)) RbTree := clear t.
Definition set_copy (x : RbTree) : M (gmap Z (RbTreeNode K)) RbTree := copy_tree x.
Definition set_assign (t x : RbTree) : M (gmap Z (RbTreeNode K)) RbTree := assign t x.

End set.
End NkRbTree.
