(* ===== verification/NkRbInv.v ===== *)
(** * Red-black trees: shapes, ownership and rotations

    The mathematical tree behind the nodes, the path from a node to the header
    ([zip]), and what they own of the heap.  The in-order list [flat] has the
    address and the value of every node: it is what the rebalancing keeps. *)

From iris.proofmode Require Import proofmode coq_tactics reduction environments.
From iris.base_logic.lib Require Import ghost_map.
From stdpp Require Import base numbers list gmap.
From Stdlib Require Import ZArith Lia.
From S2P Require Import Prelude NodeHeap HeapLogic NkRbTree.
Import NodeHeap HeapLogic NkRbTree.

Local Open Scope Z_scope.

Module NkRbInv.

(** ** Shapes *)

Section shapes.
Context {V : Type}.

Inductive tree := E | T (c : RbTreeColor) (l : tree) (p : ptr) (v : V) (r : tree).

(** A node with the child [a] on side [d] and the child [b] on the other. *)
Definition bin (d : side) (c : RbTreeColor) (a : tree) (p : ptr) (v : V) (b : tree) : tree :=
  match d with SLeft => T c a p v b | SRight => T c b p v a end.

Definition root_of (t : tree) : ptr := match t with E => nullptr | T _ _ p _ _ => p end.
Definition color_of (t : tree) : RbTreeColor := match t with E => kBlack | T c _ _ _ _ => c end.

Fixpoint flat (t : tree) : list (ptr * V) :=
  match t with E => [] | T _ l p v r => flat l ++ (p, v) :: flat r end.

(** The path from a place in the tree to the header: the place is the child on
    side [d] of [p]. *)
Inductive zip := Top | Up (d : side) (c : RbTreeColor) (p : ptr) (v : V) (sib : tree) (k : zip).

Fixpoint plug (k : zip) (t : tree) : tree :=
  match k with Top => t | Up d c p v sib k => plug k (bin d c t p v sib) end.

(** What comes before and after the place in order. *)
Fixpoint before (k : zip) : list (ptr * V) :=
  match k with
  | Top => []
  | Up SLeft _ _ _ _ k => before k
  | Up SRight _ p v sib k => before k ++ flat sib ++ [(p, v)]
  end.
Fixpoint after (k : zip) : list (ptr * V) :=
  match k with
  | Top => []
  | Up SLeft _ p v sib k => (p, v) :: flat sib ++ after k
  | Up SRight _ _ _ _ k => after k
  end.

Fixpoint depth (k : zip) : nat := match k with Top => O | Up _ _ _ _ _ k => S (depth k) end.

(** The root, when the node in the place is at [q]. *)
Fixpoint top (k : zip) (q : ptr) : ptr := match k with Top => q | Up _ _ p _ _ k => top k p end.

Lemma flat_plug k : forall t, flat (plug k t) = before k ++ flat t ++ after k.
Proof.
  induction k as [|[] c p v sib k IH]; intros t; cbn.
  - by rewrite app_nil_r.
  - rewrite IH. cbn. by rewrite <- !app_assoc.
  - rewrite IH. cbn. by rewrite <- !app_assoc.
Qed.

Lemma flat_bin d c a p v b t : flat a = flat t -> flat (bin d c a p v b) = flat (bin d c t p v b).
Proof. destruct d; cbn; congruence. Qed.

Lemma root_plug k : forall t, root_of (plug k t) = top k (root_of t).
Proof. induction k as [|[] c p v sib k IH]; intros t; [done| |]; apply IH. Qed.

Lemma depth_length k : (depth k <= length (before k) + length (after k))%nat.
Proof.
  induction k as [|[] c p v sib k IH]; cbn; [lia| |]; rewrite ?length_app; cbn; rewrite ?length_app; cbn; lia.
Qed.

(** ** Balance *)

(** [bal n t]: no red node has a red child, and every path has [n] black nodes. *)
Inductive bal : nat -> tree -> Prop :=
| bal_E : bal O E
| bal_red n l p v r : bal n l -> bal n r -> color_of l = kBlack -> color_of r = kBlack -> bal n (T kRed l p v r)
| bal_black n l p v r : bal n l -> bal n r -> bal (S n) (T kBlack l p v r).

Lemma bal_bin d n a p v b c :
  bal n a -> bal n b -> (c = kRed -> color_of a = kBlack /\ color_of b = kBlack) ->
  bal (match c with kRed => n | kBlack => S n end) (bin d c a p v b).
Proof.
  intros Ha Hb Hc. destruct d, c; cbn; try (destruct Hc as [Hc1 Hc2]; [done|]); by constructor.
Qed.

Lemma bal_bin_inv d m a p v b c : bal m (bin d c a p v b) ->
  exists n, m = match c with kRed => n | kBlack => S n end /\ bal n a /\ bal n b /\
    (c = kRed -> color_of a = kBlack /\ color_of b = kBlack).
Proof. destruct d; cbn; inversion 1; subst; eexists; by split_and!. Qed.

Lemma color_bin d c a p v b : color_of (bin d c a p v b) = c.
Proof. by destruct d. Qed.

(** [fits k n]: a tree of black height [n] can be put in the place, up to the
    colour of its root; the root of the whole tree is black. *)
Inductive fits : zip -> nat -> Prop :=
| fits_top n : fits Top n
| fits_black d p v sib k n : bal n sib -> fits k (S n) -> fits (Up d kBlack p v sib k) n
| fits_red d p v sib d' p' v' sib' k n :
    bal n sib -> color_of sib = kBlack -> fits (Up d' kBlack p' v' sib' k) n ->
    fits (Up d kRed p v sib (Up d' kBlack p' v' sib' k)) n.

Definition hole_black (k : zip) : Prop := match k with Up _ kRed _ _ _ _ => False | _ => True end.

Lemma fits_plug k : forall n t, fits k n -> bal n t -> (hole_black k \/ color_of t = kBlack) ->
  exists m, bal m (plug k t).
Proof.
  induction k as [|d c p v sib k IH]; intros n t Hf Hb Hc; [by exists n|]. cbn.
  inversion Hf; subst.
  - apply (IH (S n)); [done| |right; apply color_bin]. by apply (bal_bin d n t p v sib kBlack).
  - apply (IH n); [done| |by left]. destruct Hc as [[]|Hc]. by apply (bal_bin d n t p v sib kRed).
Qed.

Lemma fits_plug_black k n t : fits k n -> bal n t -> (hole_black k \/ color_of t = kBlack) ->
  (k = Top -> color_of t = kBlack) -> exists m, bal m (plug k t) /\ color_of (plug k t) = kBlack.
Proof.
  intros Hf Hb Hc Ht. destruct (fits_plug k n t Hf Hb Hc) as [m Hm]. exists m. split; [done|].
  clear Hm. revert n t Hf Hb Hc Ht. induction k as [|d c p v sib k IH]; intros n t Hf Hb Hc Ht; [by apply Ht|].
  cbn. inversion Hf; subst.
  - apply (IH (S n)); [done| |right; apply color_bin|intros; apply color_bin]. by apply (bal_bin d n t p v sib kBlack).
  - apply (IH n); [done| |by left|done]. destruct Hc as [[]|Hc]. by apply (bal_bin d n t p v sib kRed).
Qed.

(** Every balanced tree with a black root fits its own parts. *)
Lemma bal_fits k : forall n t, bal n (plug k t) -> color_of (plug k t) = kBlack ->
  exists m, fits k m /\ bal m t /\ (hole_black k \/ color_of t = kBlack).
Proof.
  induction k as [|d c p v sib k IH]; intros n t Hb Hc; cbn in *.
  - exists n. split_and!; [constructor|done|by left].
  - destruct (IH n _ Hb Hc) as (m & Hf & Hm & Hh). apply bal_bin_inv in Hm as (m' & -> & Ha & Hs & Hr).
    rewrite color_bin in Hh. exists m'. destruct c.
    + destruct Hr as [Hr1 Hr2]; [done|]. split_and!; [|done|by right].
      destruct Hh as [Hh|]; [|done]. destruct k as [|d' [] p' v' sib' k]; [|done|].
      { cbn in Hc. rewrite color_bin in Hc. done. }
      by constructor.
    + split_and!; [by constructor|done|by left].
Qed.

(** ** Height *)

Fixpoint height (t : tree) : nat := match t with E => O | T _ l _ _ r => S (Nat.max (height l) (height r)) end.

Lemma bal_height n t : bal n t -> (height t <= 2 * n + match color_of t with kRed => 1 | kBlack => 0 end)%nat.
Proof.
  induction 1 as [|n l p v r Hl IHl Hr IHr El Er|n l p v r Hl IHl Hr IHr]; cbn; [lia| |].
  - rewrite El in IHl. rewrite Er in IHr. lia.
  - destruct (color_of l), (color_of r); lia.
Qed.

Lemma bal_count n t : bal n t -> (2 ^ n <= S (length (flat t)))%nat.
Proof. induction 1; cbn; rewrite ?length_app; cbn; lia. Qed.

End shapes.
Arguments tree V : clear implicits.
Arguments zip V : clear implicits.

(** ** Ownership *)

Section logic.
Context {V : Type} {Σ : gFunctors} `{!ghost_mapG Σ Z (RbTreeNode V)} (γ : gname).
Abbreviation node := (RbTreeNode V).
Abbreviation cell := (HeapLogic.cell γ).
Abbreviation wp := (HeapLogic.wp γ).
Implicit Types (x y p q hdr lm rm : ptr) (t : tree V) (k : zip V).

(** A node with the child [a] on side [d] and [b] on the other. *)
Definition nd (d : side) (c : RbTreeColor) (par a b : ptr) (v : V) : node :=
  match d with SLeft => MkNode c par a b (Some v) | SRight => MkNode c par b a (Some v) end.

Fixpoint owns (par : ptr) t : iProp Σ :=
  match t with
  | E => emp
  | T c l p v r => ⌜p <> nullptr⌝ ∗ cell p (MkNode c par (root_of l) (root_of r) (Some v)) ∗ owns p l ∗ owns p r
  end.

Definition above hdr k : ptr := match k with Top => hdr | Up _ _ p _ _ _ => p end.

Definition header lm rm r : node := MkNode kRed r lm rm None.

Fixpoint owns_zip hdr lm rm k (q : ptr) : iProp Σ :=
  match k with
  | Top => cell hdr (header lm rm q)
  | Up d c p v sib k =>
      ⌜p <> nullptr⌝ ∗ cell p (nd d c (above hdr k) q (root_of sib) v) ∗ owns p sib ∗ owns_zip hdr lm rm k p
  end.

Lemma owns_bin par d c a p v b :
  owns par (bin d c a p v b) ⊣⊢ ⌜p <> nullptr⌝ ∗ cell p (nd d c par (root_of a) (root_of b) v) ∗ owns p a ∗ owns p b.
Proof. destruct d; cbn; [done|]. by rewrite (bi.sep_comm (owns p a)). Qed.

(** A place and its path are the whole tree. *)
Lemma owns_plug hdr lm rm k : forall t,
  owns (above hdr k) t ∗ owns_zip hdr lm rm k (root_of t) ⊣⊢
  cell hdr (header lm rm (root_of (plug k t))) ∗ owns hdr (plug k t).
Proof.
  induction k as [|d c p v sib k IH]; intros t; cbn.
  - by rewrite bi.sep_comm.
  - rewrite <- IH. rewrite owns_bin. replace (root_of (bin d c t p v sib)) with p by (by destruct d).
    iSplit; [iIntros "($ & %Hp & $ & $ & $)"|iIntros "((%Hp & $ & $ & $) & $)"]; by iPureIntro.
Qed.

Lemma fold_plug hdr lm rm k t : owns (above hdr k) t -∗ owns_zip hdr lm rm k (root_of t) -∗
  cell hdr (header lm rm (root_of (plug k t))) ∗ owns hdr (plug k t).
Proof. iIntros "H1 H2". iApply owns_plug. by iFrame. Qed.
Lemma unfold_plug hdr lm rm k t : cell hdr (header lm rm (root_of (plug k t))) -∗ owns hdr (plug k t) -∗
  owns (above hdr k) t ∗ owns_zip hdr lm rm k (root_of t).
Proof. iIntros "H1 H2". iApply owns_plug. by iFrame. Qed.

(** The header, out of the path. *)
Lemma zip_header hdr lm rm k : forall q, owns_zip hdr lm rm k q -∗
  cell hdr (header lm rm (top k q)) ∗
  (∀ lm' rm', cell hdr (header lm' rm' (top k q)) -∗ owns_zip hdr lm' rm' k q).
Proof.
  induction k as [|d c p v sib k IH]; intros q; cbn.
  - iIntros "$". by iIntros (lm' rm') "H".
  - iIntros "(%Hp & Hc & Hs & Hk)". iDestruct (IH with "Hk") as "[$ Hk]". iIntros (lm' rm') "H". iFrame.
    iSplit; [done|]. by iApply "Hk".
Qed.

(** The root is not a node outside the path, unless the path is empty. *)
Lemma top_ne hdr lm rm k d c p v sib q x :
  owns_zip hdr lm rm (Up d c p v sib k) q -∗ (⌜x = nullptr⌝ ∨ ∃ n, cell x n) -∗ ⌜x <> top (Up d c p v sib k) q⌝.
Proof.
  cbn. revert d c p v sib q. induction k as [|d' c' p' v' sib' k IH]; intros; cbn; iIntros "(%Hp & Hc & Hs & Hk) Hx".
  - iDestruct "Hx" as "[->|[%n Hx]]"; [done|]. by iApply (cell_ne with "Hx Hc").
  - by iApply (IH d' c' p' v' sib' p with "Hk Hx").
Qed.

(** A node that is owned is not the root of a disjoint tree. *)
Lemma root_ne par t x n : x <> nullptr -> cell x n -∗ owns par t -∗ ⌜x <> root_of t⌝.
Proof.
  intros Hx. iIntros "Hx Ht". destruct t; [done|]. cbn. iDestruct "Ht" as "(_ & Hp & _)". by iApply (cell_ne with "Hx Hp").
Qed.

(** ** Steps *)

Lemma tac_fld {A B} (Δ : envs (iPropI Σ)) i p n (f : node -> A) (K : A -> M _ B) F :
  envs_lookup i Δ = Some (false, cell p n) ->
  envs_entails Δ (wp (K (f n)) F) -> envs_entails Δ (wp (bind (fld f p) K) F).
Proof.
  intros Hl HK. unfold fld. rewrite envs_entails_unseal.
  assert (envs_entails Δ (wp (bind (get p) (fun n => K (f n))) F)) as HG by (by eapply tac_get).
  rewrite envs_entails_unseal in HG. rewrite HG. iIntros "H". iApply wp_bind_assoc. iApply (wp_eq with "H").
  intros h. unfold bind, get. by destruct (h !! p).
Qed.

Lemma wp_root {B} hdr lm rm k q (K : ptr -> M _ B) F :
  owns_zip hdr lm rm k q -∗ (owns_zip hdr lm rm k q -∗ wp (K (top k q)) F) -∗ wp (bind (root hdr) K) F.
Proof.
  iIntros "Hk HK". iDestruct (zip_header with "Hk") as "[Hh Hk]". unfold root.
  eapply tac_fld; [iAssumptionCore|]. cbn. iApply "HK". by iApply "Hk".
Qed.

End logic.

Arguments nd {V} !d c par a b v /.
Arguments sub {V} !d n /.
Arguments set_sub {V} !d p n /.

(** One step of a program whose next operation is a bound access; the cell is in
    the context. *)
Ltac hstep :=
  lazymatch goal with
  | |- envs_entails _ (HeapLogic.wp _ (bind (bind _ _) _) _) => iApply wp_bind_assoc
  | |- envs_entails _ (HeapLogic.wp _ (bind (ret _) _) _) => iApply wp_ret_bind
  | |- envs_entails _ (HeapLogic.wp _ (bind (fld _ _) _) _) => eapply tac_fld; [iAssumptionCore|]
  | |- envs_entails _ (HeapLogic.wp _ (bind (upd _ _) _) _) => eapply tac_upd; [iAssumptionCore|pm_reflexivity|]
  end; cbn [nd sub set_sub set_left set_right set_parent set_color color parent left right value_field header other fst snd Datatypes.negb].
Ltac hsteps := repeat hstep.

(** The side of the next rotation. *)
Ltac rot tac :=
  lazymatch goal with
  | |- envs_entails _ (HeapLogic.wp _ (rotate ?e _ _) _) => tac e
  | |- envs_entails _ (HeapLogic.wp _ (erase_finish ?e _ _ _) _) => tac e
  end.

Section rotation.
Context {V : Type} {Σ : gFunctors} `{!ghost_mapG Σ Z (RbTreeNode V)} (γ : gname).
Abbreviation cell := (HeapLogic.cell γ).
Abbreviation wp := (HeapLogic.wp γ).
Implicit Types (x y p q hdr lm rm : ptr) (t : tree V) (k : zip V).

Lemma wp_replace_child hdr lm rm k d x y nx F :
  x <> nullptr -> parent nx = above hdr k ->
  owns_zip γ hdr lm rm k x -∗ cell x nx -∗
  (owns_zip γ hdr lm rm k y -∗ cell x nx -∗ F tt) -∗ wp (replace_child d x y hdr) F.
Proof.
  iIntros (Hx Hp) "Hk Hx HF". unfold replace_child. iApply (wp_root with "Hk"). iIntros "Hk".
  destruct k as [|d' c p v sib k].
  - cbn. rewrite Z.eqb_refl. iApply (wp_upd with "Hk"). iIntros "Hk". iApply ("HF" with "Hk Hx").
  - iDestruct (top_ne _ _ _ _ _ _ _ _ _ _ _ x with "Hk [Hx]") as %Hne; [by iRight; iExists nx|].
    rewrite (proj2 (Z.eqb_neq _ _) Hne). cbn in Hp |- *. iDestruct "Hk" as "(%Hpn & Hp & Hs & Hk)".
    iDestruct (root_ne with "Hx Hs") as %Hs; [done|]. hstep. rewrite Hp. 
    destruct d, d'; hstep; rewrite ?Z.eqb_refl ?(proj2 (Z.eqb_neq _ _) Hs); iApply (wp_upd with "Hp"); iIntros "Hp";
      iApply ("HF" with "[-Hx] Hx"); by iFrame.
Qed.

Lemma wp_reparent par par' t F :
  owns γ par t -∗ (owns γ par' t -∗ F tt) -∗
  wp (if negb (root_of t =? nullptr) then upd (root_of t) (set_parent par') else ret tt) F.
Proof.
  iIntros "Ht HF". destruct t as [|c l p v r]; cbn.
  - iApply wp_ret. by iApply "HF".
  - iDestruct "Ht" as "(%Hp & Hc & Hl & Hr)". rewrite (proj2 (Z.eqb_neq _ _) Hp). iApply (wp_upd with "Hc"). iIntros "Hc".
    iApply "HF". by iFrame.
Qed.

(** [x] with its child [y] on the far side becomes the near child of [y]. *)
Lemma wp_rotate hdr lm rm k d cx ra x vx cy b y vy rc F :
  x <> nullptr -> y <> nullptr ->
  owns_zip γ hdr lm rm k x -∗ cell x (nd d cx (above hdr k) ra y vx) -∗
  cell y (nd d cy x (root_of b) rc vy) -∗ owns γ y b -∗
  (owns_zip γ hdr lm rm k y -∗ cell y (nd d cy (above hdr k) x rc vy) -∗
   cell x (nd d cx y ra (root_of b) vx) -∗ owns γ x b -∗ F tt) -∗
  wp (rotate d x hdr) F.
Proof.
  iIntros (Hx Hy) "Hk Hx Hy Hb HF". unfold rotate.
  destruct d; hsteps; iApply wp_bind; iApply (wp_reparent with "Hb"); iIntros "Hb"; hsteps;
    iApply wp_bind; (iApply (wp_replace_child with "Hk Hx"); [done|done|]); iIntros "Hk Hx"; hsteps;
    iApply (wp_upd with "Hx"); iIntros "Hx"; cbn; iApply ("HF" with "Hk Hy Hx Hb").
Qed.

End rotation.
End NkRbInv.
