(* ===== verification/NkRbInsert.v ===== *)
(** * Red-black trees: rebalancing after an insertion *)

From iris.proofmode Require Import proofmode coq_tactics reduction environments.
From iris.base_logic.lib Require Import ghost_map.
From stdpp Require Import base numbers list gmap.
From Stdlib Require Import ZArith Lia.
From S2P Require Import Prelude NodeHeap HeapLogic NkRbTree NkRbInv.
Import NodeHeap HeapLogic NkRbTree NkRbInv.

Local Open Scope Z_scope.

Module NkRbInsert.

Section insert.
Context {V : Type} {Σ : gFunctors} `{!ghost_mapG Σ Z (RbTreeNode V)} (γ : gname).
Abbreviation cell := (HeapLogic.cell γ).
Abbreviation wp := (HeapLogic.wp γ).
Implicit Types (x y p q hdr lm rm : ptr) (t : tree V) (k : zip V).

(** The state of the loop: a red node in a place that it fits, except that its
    parent may be red too. *)
Record red_at (k : zip V) (t : tree V) : Prop := {
  ra_height : exists n, fits k n /\ bal n t;
  ra_red : color_of t = kRed
}.

Lemma wp_is_red {B} par t (K : bool -> M _ B) F :
  owns γ par t -∗ (owns γ par t -∗ wp (K (bool_decide (color_of t = kRed))) F) -∗ wp (bind (is_red (root_of t)) K) F.
Proof.
  iIntros "Ht HK". unfold is_red. destruct t as [|c l p v r]; cbn.
  - iApply wp_ret_bind. by iApply "HK".
  - iDestruct "Ht" as "(%Hp & Hc & Hl & Hr)". rewrite (proj2 (Z.eqb_neq _ _) Hp). hsteps. iApply "HK". by iFrame.
Qed.

(** What a step leaves: a red node further up, and the same nodes in order. *)
Definition moved_up (k k' : zip V) (t t' : tree V) : Prop :=
  red_at k' t' /\ (depth k' < depth k)%nat /\ before k' ++ flat t' ++ after k' = before k ++ flat t ++ after k.

Ltac same_nodes := cbn; rewrite <- ?app_assoc; cbn; rewrite <- ?app_assoc; reflexivity.

(** The uncle is red: its and the parent's colour are exchanged with the
    grandparent's. *)
Lemma recolor_up d d' p vp sib g vg ul u uv ur k t :
  red_at (Up d kRed p vp sib (Up d' kBlack g vg (T kRed ul u uv ur) k)) t ->
  moved_up (Up d kRed p vp sib (Up d' kBlack g vg (T kRed ul u uv ur) k)) k t
    (bin d' kRed (bin d kBlack t p vp sib) g vg (T kBlack ul u uv ur)).
Proof.
  intros [(n & Hf & Hb) Hc]. inversion Hf as [| |? ? ? ? ? ? ? ? ? ? Hsib Csib Hf2]; subst.
  inversion Hf2 as [|? ? ? ? ? ? Hunc Hk2|]; subst. inversion Hunc; subst. split; [|split].
  - split; [|by destruct d'].
    exists (S n). split; [done|]. apply (bal_bin d' (S n) _ g vg _ kRed).
    + by apply (bal_bin d n t p vp sib kBlack).
    + by constructor.
    + intros _. by rewrite color_bin.
  - cbn. lia.
  - destruct d, d'; same_nodes.
Qed.

(** The uncle is black and the node is on the outer side. *)
Lemma rotate_up d p vp sib g vg unc k t :
  color_of unc = kBlack -> red_at (Up d kRed p vp sib (Up d kBlack g vg unc k)) t ->
  moved_up (Up d kRed p vp sib (Up d kBlack g vg unc k)) (Up d kBlack p vp (bin (other d) kRed unc g vg sib) k) t t.
Proof.
  intros Cu [(n & Hf & Hb) Hc]. inversion Hf as [| |? ? ? ? ? ? ? ? ? ? Hsib Csib Hf2]; subst.
  inversion Hf2 as [|? ? ? ? ? ? Hunc Hk2|]; subst. split; [|split].
  - split; [|done]. exists n. split; [|done]. constructor; [|done]. by apply (bal_bin (other d) n unc g vg sib kRed).
  - cbn. lia.
  - destruct d; same_nodes.
Qed.

(** The node is on the inner side: it changes places with its parent first. *)
Lemma inner_up d p vp sib g vg unc k a x v b :
  red_at (Up (other d) kRed p vp sib (Up d kBlack g vg unc k)) (bin d kRed a x v b) ->
  red_at (Up d kRed x v b (Up d kBlack g vg unc k)) (bin d kRed sib p vp a) /\
  before (Up d kRed x v b (Up d kBlack g vg unc k)) ++ flat (bin d kRed sib p vp a) ++ after (Up d kRed x v b (Up d kBlack g vg unc k)) =
  before (Up (other d) kRed p vp sib (Up d kBlack g vg unc k)) ++ flat (bin d kRed a x v b) ++ after (Up (other d) kRed p vp sib (Up d kBlack g vg unc k)).
Proof.
  intros [(n & Hf & Hb) _]. inversion Hf as [| |? ? ? ? ? ? ? ? ? ? Hsib Csib Hf2]; subst.
  apply bal_bin_inv in Hb as (n' & -> & Ha & Hb & Hr). destruct Hr as [Ca Cb]; [done|]. split.
  - split; [|by rewrite color_bin]. exists n'. split; [by constructor|]. by apply (bal_bin d n' sib p vp a kRed).
  - destruct d; same_nodes.
Qed.

Lemma wp_rebalance_step hdr lm rm d d' p vp sib g vg unc k t F :
  red_at (Up d kRed p vp sib (Up d' kBlack g vg unc k)) t ->
  owns γ p t -∗ owns_zip γ hdr lm rm (Up d kRed p vp sib (Up d' kBlack g vg unc k)) (root_of t) -∗
  (∀ k' t', ⌜moved_up (Up d kRed p vp sib (Up d' kBlack g vg unc k)) k' t t'⌝ -∗
     owns γ (above hdr k') t' -∗ owns_zip γ hdr lm rm k' (root_of t') -∗ F (root_of t')) -∗
  wp (rebalance_step d' (root_of t) hdr) F.
Proof.
  iIntros (Hr) "Ht Hk HF". destruct t as [|c a x v b]; [by destruct Hr|]. assert (c = kRed) as -> by apply Hr.
  cbn [owns owns_zip root_of above]. iDestruct "Ht" as "(%Hx & Hx & Ha & Hb)".
  iDestruct "Hk" as "(%Hp & Hp & Hsib & %Hg & Hg & Hunc & Hk)".
  iDestruct (root_ne with "Hx Hsib") as %Hxs; [done|].
  unfold rebalance_step. assert (color_of unc = kRed \/ color_of unc = kBlack) as [Cu|Cu] by (destruct (color_of unc); auto).
  - destruct unc as [|uc ul u uv ur]; [done|]. cbn in Cu. subst uc. pose proof (recolor_up _ _ _ _ _ _ _ _ _ _ _ _ _ Hr) as Hm.
    destruct d, d'; hsteps; iApply (wp_is_red with "Hunc"); iIntros "(%Hu & Hu & Hul & Hur)"; cbn [color_of];
      rewrite bool_decide_true //; hsteps; iApply wp_ret; iApply ("HF" $! _ _ Hm with "[-Hk] [Hk]"); by iFrame.
  - destruct (decide (d = d')) as [->|Hd].
    + pose proof (rotate_up _ _ _ _ _ _ _ _ _ Cu Hr) as Hm.
      destruct d'; hsteps; iApply (wp_is_red with "Hunc"); iIntros "Hunc"; rewrite Cu bool_decide_false //; hsteps;
        rewrite (proj2 (Z.eqb_neq _ _) Hxs); hsteps; iApply wp_bind;
        rot ltac:(fun e => iApply (wp_rotate γ hdr lm rm k e kRed (root_of unc) g vg kBlack sib p vp x with "Hk Hg Hp Hsib"); [done|done|]);
        iIntros "Hk Hp Hg Hsib"; iApply wp_ret; iApply ("HF" $! _ _ Hm with "[Hx Ha Hb] [-]"); by iFrame.
    + assert (d = other d') as -> by (by destruct d, d'). clear Hd.
      set (near := match d' with SLeft => a | SRight => b end). set (far := match d' with SLeft => b | SRight => a end).
      iAssert (owns γ x near ∗ owns γ x far)%I with "[Ha Hb]" as "[Ha Hb]"; [destruct d'; iFrame|].
      replace (T kRed a x v b) with (bin d' kRed near x v far) in Hr |- * by (by destruct d').
      destruct (inner_up d' _ _ _ _ _ _ _ _ _ _ _ Hr) as [Hi Ei].
      pose proof (rotate_up _ _ _ _ _ _ _ _ _ Cu Hi) as (Hm1 & Hm2 & Hm3). rewrite Ei in Hm3.
      replace (MkNode kRed p (root_of a) (root_of b) (Some v)) with (nd d' kRed p (root_of near) (root_of far) v) by (by destruct d').
      clearbody near far.
      destruct d'; hsteps; iApply (wp_is_red with "Hunc"); iIntros "Hunc"; rewrite Cu bool_decide_false //; hsteps;
        rewrite Z.eqb_refl; hsteps; iApply wp_bind;
        rot ltac:(fun e => iApply (wp_rotate γ hdr lm rm (Up e kBlack g vg unc k) e kRed (root_of sib) p vp kRed near x v (root_of far)
          with "[Hg Hunc Hk] Hp Hx Ha"); [done|done|by iFrame|]);
        iIntros "(_ & Hg & Hunc & Hk) Hx Hp Ha"; hsteps; iApply wp_bind;
        rot ltac:(fun e => iApply (wp_rotate γ hdr lm rm k e kRed (root_of unc) g vg kBlack far x v p with "Hk Hg Hx Hb"); [done|done|]);
        iIntros "Hk Hx Hg Hb"; iApply wp_ret;
        iApply ("HF" $! _ _ (conj Hm1 (conj Hm2 Hm3)) with "[Hp Hsib Ha] [-]"); by iFrame.
Qed.

(** The loop ends with a tree that only the colour of the root keeps from being
    balanced. *)
Definition ready (t : tree V) : Prop := exists c l p v r n, t = T c l p v r /\ bal n l /\ bal n r.

Lemma ready_blacken c l p v r : ready (T c l p v r) -> exists n, bal n (T kBlack l p v r).
Proof. intros (? & ? & ? & ? & ? & n & [= <- <- <- <- <-] & Hl & Hr). exists (S n). by constructor. Qed.

Lemma bal_ready n t : bal n t -> t <> E -> ready t.
Proof. destruct 1; [done| |]; intros _; eexists _, _, _, _, _, _; by split_and!. Qed.

Lemma plug_cons k : forall t, t <> E -> plug k t <> E.
Proof. induction k as [|[] c p v sib k IH]; intros t Ht; [done| |]; by apply IH. Qed.

Lemma red_at_done k t : red_at k t -> hole_black k -> ready (plug k t).
Proof.
  intros [(n & Hf & Hb) Hc] Hh. assert (t <> E) as Ht by (by destruct t).
  destruct (fits_plug k n t Hf Hb (or_introl Hh)) as [m Hm]. apply (bal_ready m); [done|]. by apply plug_cons.
Qed.

Lemma wp_rebalance_loop hdr lm rm fuel : forall k t F,
  (depth k < fuel)%nat -> red_at k t ->
  owns γ (above hdr k) t -∗ owns_zip γ hdr lm rm k (root_of t) -∗
  (∀ t', ⌜flat t' = before k ++ flat t ++ after k /\ ready t'⌝ -∗
     cell hdr (header lm rm (root_of t')) -∗ owns γ hdr t' -∗ F tt) -∗
  wp (rebalance_loop fuel (root_of t) hdr) F.
Proof.
  induction fuel as [|f IH]; intros k t F Hd Hr; [lia|]. iIntros "Ht Hk HF". cbn [rebalance_loop].
  iApply (wp_root with "Hk"). iIntros "Hk". destruct t as [|c a x v b]; [by destruct Hr|].
  iAssert (⌜x <> nullptr⌝)%I as %Hx; [by iDestruct "Ht" as "[% _]"|].
  destruct k as [|d c' p vp sib k].
  - cbn [top root_of]. rewrite Z.eqb_refl. iApply wp_ret. iApply ("HF" $! (T c a x v b) with "[%] Hk Ht").
    split; [by rewrite <- (flat_plug Top)|]. by apply (red_at_done Top).
  - iAssert (⌜root_of (T c a x v b) <> top (Up d c' p vp sib k) (root_of (T c a x v b))⌝)%I as %Hne.
    { iDestruct "Ht" as "(_ & Hx & _)". iApply (top_ne with "Hk"). iRight. by iExists _. }
    rewrite (proj2 (Z.eqb_neq _ _) Hne). destruct c'.
    + assert (exists d' g vg unc k2, k = Up d' kBlack g vg unc k2) as (d' & g & vg & unc & k2 & ->).
      { destruct Hr as [(n & Hf & _) _]. inversion Hf; subst. by eexists _, _, _, _, _. }
      iDestruct "Ht" as "(_ & Hx & Ha & Hb)". iDestruct "Hk" as "(%Hp & Hp & Hs & %Hg & Hg & Hu & Hk)".
      iDestruct (root_ne with "Hp Hu") as %Hpu; [done|]. cbn [root_of above].
      remember (nd d kRed g x (root_of sib) vp) as np eqn:Enp. remember (nd d' kBlack (above hdr k2) p (root_of unc) vg) as ng eqn:Eng.
      assert (color np = kRed /\ parent np = g) as [Ec Ep] by (by rewrite Enp; destruct d).
      assert ((if p =? left ng then SLeft else SRight) = d') as Ed.
      { rewrite Eng. destruct d'; cbn; [by rewrite Z.eqb_refl|]. by rewrite (proj2 (Z.eqb_neq _ _) Hpu). }
      hsteps. rewrite Ec bool_decide_true //. cbn [Datatypes.negb]. hsteps. rewrite Ep. hsteps. rewrite Ed. iApply wp_bind.
      iApply (wp_rebalance_step hdr lm rm d d' p vp sib g vg unc k2 (T c a x v b) with "[Hx Ha Hb] [-HF]");
        [done|by iFrame|subst np ng; cbn [owns_zip above]; by iFrame|].
      iIntros (k' t' (Hm & Hdp & Hfl)) "Ht Hk". iApply (IH with "Ht Hk"); [cbn in *; lia|done|].
      iIntros (t'' [Hfl' Hrd]) "Hh Ht". iApply ("HF" with "[%] Hh Ht"). split; [|done]. by rewrite Hfl'.
    + iDestruct "Ht" as "(_ & Hx & Ha & Hb)". iDestruct "Hk" as "(%Hp & Hp & Hs & Hk)".
      assert (color (nd d kBlack (above hdr k) x (root_of sib) vp) = kBlack) as Ec by (by destruct d).
      cbn [root_of above]. remember (nd d kBlack (above hdr k) x (root_of sib) vp) as np eqn:Enp. hsteps. rewrite Ec.
      iApply wp_ret. subst np.
      iDestruct (fold_plug γ hdr lm rm (Up d kBlack p vp sib k) (T c a x v b) with "[Hx Ha Hb] [Hp Hs Hk]") as "[Hh Ht]";
        [by iFrame|cbn [owns_zip]; by iFrame|].
      iApply ("HF" with "[%] Hh Ht"). split; [apply flat_plug|by apply red_at_done].
Qed.

Lemma wp_rebalance hdr lm rm fuel k c a x v b F :
  (depth k < fuel)%nat -> red_at k (T kRed a x v b) ->
  owns γ (above hdr k) (T c a x v b) -∗ owns_zip γ hdr lm rm k x -∗
  (∀ t', ⌜flat t' = before k ++ flat (T kRed a x v b) ++ after k /\ (exists n, bal n t') /\ color_of t' = kBlack⌝ -∗
     cell hdr (header lm rm (root_of t')) -∗ owns γ hdr t' -∗ F tt) -∗
  wp (RbTreeRebalance fuel x hdr) F.
Proof.
  iIntros (Hd Hr) "(%Hx & Hx & Ha & Hb) Hk HF". unfold RbTreeRebalance. hsteps. iApply wp_bind.
  iApply (wp_rebalance_loop hdr lm rm fuel k (T kRed a x v b) with "[Hx Ha Hb] Hk"); [done|done|by iFrame|].
  iIntros (t' [Hfl Hrd]) "Hh Ht". unfold root. hsteps. destruct t' as [|c' l p w r]; [by destruct Hrd as (? & ? & ? & ? & ? & ? & ? & ?)|].
  cbn [owns root_of]. iDestruct "Ht" as "(%Hp & Hp & Hl & Hr)". iApply (wp_upd with "Hp"). iIntros "Hp".
  iApply ("HF" $! (T kBlack l p w r) with "[%] Hh [-]"); [|by iFrame].
  split; [done|]. split; [by apply (ready_blacken c')|done].
Qed.

End insert.
End NkRbInsert.
