(* ===== verification/NkRbErase.v ===== *)
(** * Red-black trees: rebalancing after a removal *)

From iris.proofmode Require Import proofmode coq_tactics reduction environments.
From iris.base_logic.lib Require Import ghost_map.
From stdpp Require Import base numbers list gmap.
From Stdlib Require Import ZArith Lia.
From S2P Require Import Prelude NodeHeap HeapLogic NkRbTree NkRbInv NkRbInsert.
Import NodeHeap HeapLogic NkRbTree NkRbInv NkRbInsert.

Local Open Scope Z_scope.

Module NkRbErase.

Section erase.
Context {V : Type} {Σ : gFunctors} `{!ghost_mapG Σ Z (RbTreeNode V)} (γ : gname).
Abbreviation cell := (HeapLogic.cell γ).
Abbreviation wp := (HeapLogic.wp γ).
Implicit Types (x y p q hdr lm rm : ptr) (t : tree V) (k : zip V).

Definition blacken t : tree V := match t with E => E | T _ l p v r => T kBlack l p v r end.

Lemma flat_blacken t : flat (blacken t) = flat t.
Proof. by destruct t. Qed.
Lemma root_blacken t : root_of (blacken t) = root_of t.
Proof. by destruct t. Qed.
Lemma color_blacken t : color_of (blacken t) = kBlack.
Proof. by destruct t. Qed.
Lemma blacken_black t : color_of t = kBlack -> blacken t = t.
Proof. destruct t as [|[]]; done. Qed.
Lemma bal_blacken n t : bal n t -> color_of t = kRed -> bal (S n) (blacken t).
Proof. destruct 1; [done| |done]. intros _. by constructor. Qed.
Lemma blacken_bin d c a p v b : blacken (bin d c a p v b) = bin d kBlack a p v b.
Proof. by destruct d. Qed.

(** [t] is one black node short of height [S n]: a red root makes up for it once it
    is black. *)
Definition short (n : nat) t : Prop :=
  (color_of t = kBlack -> bal n t) /\ (color_of t = kRed -> bal (S n) (blacken t)).

(** The state of the loop. *)
Definition short_at k t : Prop := exists n, fits k (S n) /\ short n t.

(** The state behind it: the tree is balanced once the root of [t] is black. *)
Definition settled k t : Prop := exists n, bal n (plug k (blacken t)) /\ color_of (plug k (blacken t)) = kBlack.

Definition nodes k t : list (ptr * V) := before k ++ flat t ++ after k.

Lemma short_settled k t : short_at k t -> k = Top \/ color_of t = kRed -> settled k t.
Proof.
  intros (n & Hf & Hb & Hr) Hk. destruct (color_of t) eqn:C.
  - apply (fits_plug_black k (S n)); [done|by apply Hr|right; apply color_blacken|intros _; apply color_blacken].
  - destruct Hk as [->|]; [|done]. exists n. cbn. rewrite blacken_black //. split; [by apply Hb|done].
Qed.

(** ** The cases of the loop *)

(** The sibling is red: it takes the place of the parent, whose new sibling is
    black. *)
Lemma red_sibling d cp p vp wn w wv wf k t :
  color_of t = kBlack -> short_at (Up d cp p vp (bin d kRed wn w wv wf) k) t ->
  cp = kBlack /\ short_at (Up d kRed p vp wn (Up d kBlack w wv wf k)) t /\ wn <> E /\ color_of wn = kBlack /\
  nodes (Up d kRed p vp wn (Up d kBlack w wv wf k)) t = nodes (Up d cp p vp (bin d kRed wn w wv wf) k) t.
Proof.
  intros C (n & Hf & Hs). inversion Hf as [|? ? ? ? ? ? Hsib Hk|? ? ? ? ? ? ? ? ? ? Hsib Csib]; subst.
  2: { by rewrite color_bin in Csib. }
  apply bal_bin_inv in Hsib as (m & <- & Hn & Hw & Hc). destruct Hc as [Cn Cf]; [done|]. split_and!.
  - done.
  - exists n. split; [|done]. constructor; [done|done|]. by constructor.
  - by inversion Hn.
  - done.
  - unfold nodes. destruct d; cbn; rewrite <- ?app_assoc; cbn; rewrite <- ?app_assoc; reflexivity.
Qed.

(** The sibling and its children are black: the sibling becomes red. *)
Lemma recolor_sibling d cp p vp wn w wv wf k t :
  color_of t = kBlack -> color_of wn = kBlack -> color_of wf = kBlack ->
  short_at (Up d cp p vp (bin d kBlack wn w wv wf) k) t ->
  short_at k (bin d cp t p vp (bin d kRed wn w wv wf)) /\
  nodes k (bin d cp t p vp (bin d kRed wn w wv wf)) = nodes (Up d cp p vp (bin d kBlack wn w wv wf) k) t.
Proof.
  intros C Cn Cf (n & Hf & Hs). apply Hs in C as Hb. split.
  - inversion Hf as [|? ? ? ? ? ? Hsib Hk|? ? ? ? ? ? ? ? ? ? Hsib Csib Hk]; subst;
      apply bal_bin_inv in Hsib as (m & [= <-] & Hn & Hw & _);
      assert (bal n (bin d kRed wn w wv wf)) as Hr by (by apply (bal_bin d n wn w wv wf kRed)).
    + exists (S n). split; [done|]. split; rewrite color_bin; [|done]. intros _. by apply (bal_bin d n t p vp _ kBlack).
    + exists n. split; [done|]. split; rewrite color_bin; [done|]. intros _. rewrite blacken_bin.
      by apply (bal_bin d n t p vp _ kBlack).
  - unfold nodes. destruct d; cbn; rewrite <- ?app_assoc; cbn; rewrite <- ?app_assoc; reflexivity.
Qed.

(** The far child is red: the rotation settles the tree. *)
Lemma rotate_sibling d cp p vp wn w wv wf k t :
  color_of t = kBlack -> short_at (Up d cp p vp (bin d kBlack wn w wv wf) k) t -> color_of wf = kRed ->
  settled (Up d kBlack p vp wn (Up d cp w wv (blacken wf) k)) t /\
  nodes (Up d kBlack p vp wn (Up d cp w wv (blacken wf) k)) t = nodes (Up d cp p vp (bin d kBlack wn w wv wf) k) t.
Proof.
  intros C (n & Hf & Hs) Cf. apply Hs in C as Hb. split.
  - unfold settled. cbn [plug]. rewrite (blacken_black t C).
    inversion Hf as [|? ? ? ? ? ? Hsib Hk|? ? ? ? ? ? ? ? ? ? Hsib Csib Hk]; subst;
      apply bal_bin_inv in Hsib as (m & [= <-] & Hn & Hw & _).
    + apply (fits_plug_black k (S (S n))); [done| |right; apply color_bin|intros _; apply color_bin].
      apply (bal_bin d (S n) _ w wv _ kBlack); [by apply (bal_bin d n t p vp wn kBlack)|by apply bal_blacken|done].
    + apply (fits_plug_black _ (S n)); [done| |by left|done].
      apply (bal_bin d (S n) _ w wv _ kRed); [by apply (bal_bin d n t p vp wn kBlack)|by apply bal_blacken|].
      intros _. by rewrite color_bin color_blacken.
  - unfold nodes. destruct d; cbn; rewrite flat_blacken; rewrite <- ?app_assoc; cbn; rewrite <- ?app_assoc; reflexivity.
Qed.

(** The near child is red and the far one black: a rotation at the sibling first. *)
Lemma rotate_near d cp p vp nn nw nv nf w wv wf k t :
  color_of wf = kBlack -> short_at (Up d cp p vp (bin d kBlack (bin d kRed nn nw nv nf) w wv wf) k) t ->
  short_at (Up d cp p vp (bin d kBlack nn nw nv (bin d kRed nf w wv wf)) k) t /\
  nodes (Up d cp p vp (bin d kBlack nn nw nv (bin d kRed nf w wv wf)) k) t =
    nodes (Up d cp p vp (bin d kBlack (bin d kRed nn nw nv nf) w wv wf) k) t.
Proof.
  intros Cf (n & Hf & Hs). split.
  - exists n. split; [|done]. 
    assert (bal (S n) (bin d kBlack (bin d kRed nn nw nv nf) w wv wf) -> bal (S n) (bin d kBlack nn nw nv (bin d kRed nf w wv wf))) as Hn.
    { intros Hb. apply bal_bin_inv in Hb as (m & [= <-] & Hn & Hw & _). apply bal_bin_inv in Hn as (m & -> & Hnn & Hnf & Hc).
      destruct Hc as [Cnn Cnf]; [done|]. apply (bal_bin d m nn nw nv _ kBlack); [done| |done]. by apply (bal_bin d m nf w wv wf kRed). }
    inversion Hf; subst; constructor; auto. by rewrite color_bin.
  - unfold nodes. destruct d; cbn; rewrite <- ?app_assoc; cbn; rewrite <- ?app_assoc; reflexivity.
Qed.

(** ** The code *)

Lemma wp_is_black {B} par t (K : bool -> M _ B) F :
  owns γ par t -∗ (owns γ par t -∗ wp (K (bool_decide (color_of t = kBlack))) F) -∗ wp (bind (is_black (root_of t)) K) F.
Proof.
  iIntros "Ht HK". unfold is_black. destruct t as [|c l p v r]; cbn.
  - iApply wp_ret_bind. by iApply "HK".
  - iDestruct "Ht" as "(%Hp & Hc & Hl & Hr)". rewrite (proj2 (Z.eqb_neq _ _) Hp). hsteps. iApply "HK". by iFrame.
Qed.

Lemma wp_blacken par t F :
  owns γ par t -∗ (owns γ par (blacken t) -∗ F tt) -∗
  wp (if Datatypes.negb (root_of t =? nullptr) then upd (root_of t) (set_color kBlack) else ret tt) F.
Proof.
  iIntros "Ht HF". destruct t as [|c l p v r]; cbn.
  - iApply wp_ret. by iApply "HF".
  - iDestruct "Ht" as "(%Hp & Hc & Hl & Hr)". rewrite (proj2 (Z.eqb_neq _ _) Hp). iApply (wp_upd with "Hc"). iIntros "Hc".
    iApply "HF". by iFrame.
Qed.

Lemma wp_erase_finish hdr lm rm k d cp p vp q wn w wv wf F :
  p <> nullptr -> w <> nullptr ->
  cell p (nd d cp (above hdr k) q w vp) -∗ cell w (nd d kBlack p (root_of wn) (root_of wf) wv) -∗
  owns γ w wn -∗ owns γ w wf -∗ owns_zip γ hdr lm rm k p -∗
  (owns_zip γ hdr lm rm k w -∗ cell w (nd d cp (above hdr k) p (root_of (blacken wf)) wv) -∗
   cell p (nd d kBlack w q (root_of wn) vp) -∗ owns γ p wn -∗ owns γ w (blacken wf) -∗ F tt) -∗
  wp (erase_finish d w p hdr) F.
Proof.
  iIntros (Hp Hw) "Hp Hw Hn Hf Hk HF". unfold erase_finish. rewrite root_blacken.
  destruct d; hsteps; iApply wp_bind; iApply (wp_blacken with "Hf"); iIntros "Hf";
    rot ltac:(fun e => iApply (wp_rotate γ hdr lm rm k e kBlack q p vp cp wn w wv (root_of wf) with "Hk Hp Hw Hn"); [done|done|]);
    iIntros "Hk Hw Hp Hn"; iApply ("HF" with "Hk Hw Hp Hn Hf").
Qed.

(** What a branch ends with: the state of the loop one node up, or a settled tree
    in which [t] is where it was below [p]. *)
Definition step_done hdr lm rm k0 t (F : option (ptr * ptr) -> iProp Σ) : iProp Σ :=
  (∀ k' t', ⌜short_at k' t' /\ nodes k' t' = nodes k0 t /\ ((depth k' < depth k0)%nat \/ color_of t' = kRed)⌝ -∗
     owns γ (above hdr k') t' -∗ owns_zip γ hdr lm rm k' (root_of t') -∗ F (Some (root_of t', above hdr k'))) ∧
  (∀ k', ⌜settled k' t /\ nodes k' t = nodes k0 t⌝ -∗
     owns γ (above hdr k') t -∗ owns_zip γ hdr lm rm k' (root_of t) -∗ F None).

Lemma wp_erase_black hdr lm rm k d cp p vp wn w wv wf t F :
  color_of t = kBlack -> short_at (Up d cp p vp (bin d kBlack wn w wv wf) k) t ->
  owns γ p t -∗ owns_zip γ hdr lm rm (Up d cp p vp (bin d kBlack wn w wv wf) k) (root_of t) -∗
  ((∀ k' t', ⌜short_at k' t' /\ nodes k' t' = nodes (Up d cp p vp (bin d kBlack wn w wv wf) k) t /\ k' = k /\
              (cp = kRed -> color_of t' = kRed)⌝ -∗
      owns γ (above hdr k') t' -∗ owns_zip γ hdr lm rm k' (root_of t') -∗ F (Some (root_of t', above hdr k'))) ∧
   (∀ k', ⌜settled k' t /\ nodes k' t = nodes (Up d cp p vp (bin d kBlack wn w wv wf) k) t⌝ -∗
      owns γ (above hdr k') t -∗ owns_zip γ hdr lm rm k' (root_of t) -∗ F None)) -∗
  wp (erase_black d w p hdr) F.
Proof.
  iIntros (C Hs) "Ht (%Hp & Hp & Hw & Hk) HF". rewrite owns_bin. iDestruct "Hw" as "(%Hw & Hw & Hn & Hf)".
  replace (root_of (bin d kBlack wn w wv wf)) with w by (by destruct d).
  unfold erase_black. destruct (decide (color_of wn = kBlack)) as [Cn|Cn].
  - destruct (decide (color_of wf = kBlack)) as [Cf|Cf].
    + destruct (recolor_sibling d cp p vp wn w wv wf k t C Cn Cf Hs) as [Hs' En].
      pose (t' := bin d cp t p vp (bin d kRed wn w wv wf)). iDestruct "HF" as "[HF _]". iSpecialize ("HF" $! k t' with "[%]").
      { split_and!; [exact Hs'|exact En|done|]. intros ->. apply color_bin. }
      destruct d; hsteps; iApply (wp_is_black with "Hn"); iIntros "Hn"; rewrite bool_decide_true //; hsteps;
        iApply (wp_is_black with "Hf"); iIntros "Hf"; rewrite bool_decide_true //; hsteps; iApply wp_ret;
        iApply ("HF" with "[-Hk] [Hk]"); by iFrame.
    + assert (color_of wf = kRed) as Cf' by (by destruct (color_of wf)).
      destruct (rotate_sibling d cp p vp wn w wv wf k t C Hs Cf') as [Hs' En].
      iDestruct "HF" as "[_ HF]". iSpecialize ("HF" $! _ with "[%]"); [exact (conj Hs' En)|].
      destruct d; hsteps; iApply (wp_is_black with "Hn"); iIntros "Hn"; rewrite bool_decide_true //; hsteps;
        iApply (wp_is_black with "Hf"); iIntros "Hf"; rewrite bool_decide_false //; hsteps;
        iApply (wp_is_black with "Hf"); iIntros "Hf"; rewrite bool_decide_false //; hsteps; iApply wp_bind;
        rot ltac:(fun e => iApply (wp_erase_finish hdr lm rm k e cp p vp (root_of t) wn w wv wf with "Hp Hw Hn Hf Hk"); [done|done|]);
        iIntros "Hk Hw Hp Hn Hf"; iApply wp_ret; iApply ("HF" with "Ht"); by iFrame.
  - assert (color_of wn = kRed) as Cn' by (by destruct (color_of wn)). destruct (decide (color_of wf = kBlack)) as [Cf|Cf].
    + assert (exists nn nw nv nf, wn = bin d kRed nn nw nv nf) as (nn & nw & nv & nf & ->).
      { destruct wn as [|c a x v b]; [done|]. cbn in Cn'. subst c. destruct d; by eexists _, _, _, _. }
      destruct (rotate_near d cp p vp nn nw nv nf w wv wf k t Cf Hs) as [Hs1 E1].
      destruct (rotate_sibling d cp p vp nn nw nv _ k t C Hs1 ltac:(apply color_bin)) as [Hs' En]. rewrite E1 in En.
      rewrite blacken_bin in Hs' En.
      iDestruct "HF" as "[_ HF]". iSpecialize ("HF" $! _ with "[%]"); [exact (conj Hs' En)|].
      destruct d; hsteps; iApply (wp_is_black with "Hn"); iIntros "Hn"; rewrite bool_decide_false //; hsteps;
        iApply (wp_is_black with "Hf"); iIntros "Hf"; rewrite bool_decide_true //; hsteps;
        iApply wp_bind; iApply (wp_blacken with "Hn"); iIntros "Hn"; iEval (rewrite blacken_bin owns_bin) in "Hn";
        iDestruct "Hn" as "(%Hnw & Hnw & Hnn & Hnf)"; hsteps; iApply wp_bind;
        rot ltac:(fun e => iApply (wp_rotate γ hdr lm rm (Up e cp p vp t k) e kRed (root_of wf) w wv kBlack nf nw nv (root_of nn)
          with "[Hp Ht Hk] Hw Hnw Hnf"); [done|done|cbn [owns_zip nd]; by iFrame|]);
        iIntros "(_ & Hp & Ht & Hk) Hnw Hw Hnf"; hsteps; iApply wp_bind;
        rot ltac:(fun e => iApply (wp_erase_finish hdr lm rm k e cp p vp (root_of t) nn nw nv (bin e kRed nf w wv wf)
          with "Hp Hnw Hnn [Hw Hnf Hf] Hk"); [done|done|rewrite owns_bin; by iFrame|]);
        iIntros "Hk Hnw Hp Hnn Hw"; iApply wp_ret; iApply ("HF" with "Ht"); by iFrame.
    + assert (color_of wf = kRed) as Cf' by (by destruct (color_of wf)).
      destruct (rotate_sibling d cp p vp wn w wv wf k t C Hs Cf') as [Hs' En].
      iDestruct "HF" as "[_ HF]". iSpecialize ("HF" $! _ with "[%]"); [exact (conj Hs' En)|].
      destruct d; hsteps; iApply (wp_is_black with "Hn"); iIntros "Hn"; rewrite bool_decide_false //; hsteps;
        iApply (wp_is_black with "Hf"); iIntros "Hf"; rewrite bool_decide_false //; hsteps; iApply wp_bind;
        rot ltac:(fun e => iApply (wp_erase_finish hdr lm rm k e cp p vp (root_of t) wn w wv wf with "Hp Hw Hn Hf Hk"); [done|done|]);
        iIntros "Hk Hw Hp Hn Hf"; iApply wp_ret; iApply ("HF" with "Ht"); by iFrame.
Qed.

(** A non-empty tree, seen from a side. *)
Lemma bin_cases d t : t <> E -> exists a p v b, t = bin d (color_of t) a p v b.
Proof. destruct t as [|c l p v r]; [done|]. intros _. destruct d; by eexists _, _, _, _. Qed.

Lemma wp_erase_step hdr lm rm k d cp p vp sib t F :
  color_of t = kBlack -> short_at (Up d cp p vp sib k) t ->
  owns γ p t -∗ owns_zip γ hdr lm rm (Up d cp p vp sib k) (root_of t) -∗
  step_done hdr lm rm (Up d cp p vp sib k) t F -∗ wp (erase_step d p hdr) F.
Proof.
  iIntros (C Hs) "Ht Hk HF". assert (sib <> E) as Hne.
  { destruct Hs as (n & Hf & _). inversion Hf as [|? ? ? ? ? ? Hsib|? ? ? ? ? ? ? ? ? ? Hsib]; by inversion Hsib. }
  destruct (bin_cases d sib Hne) as (wn & w & wv & wf & Esib). destruct (color_of sib) eqn:Cw; subst sib; unfold erase_step.
  - destruct (red_sibling d cp p vp wn w wv wf k t C Hs) as (-> & Hs1 & Hn & Cn & En).
    destruct (bin_cases d wn Hn) as (a & q & v & b & Ewn). rewrite Cn in Ewn. subst wn.
    iDestruct "Hk" as "(%Hp & Hp & Hw & Hk)". iEval (rewrite owns_bin) in "Hw". iDestruct "Hw" as "(%Hw & Hw & Hn & Hf)".
    replace (root_of (bin d kRed (bin d kBlack a q v b) w wv wf)) with w by (by destruct d).
    replace (root_of (bin d kBlack a q v b)) with q by (by destruct d).
    iAssert (step_done hdr lm rm (Up d kBlack p vp (bin d kRed (bin d kBlack a q v b) w wv wf) k) t F) with "HF" as "HF".
    destruct d; hsteps; rewrite bool_decide_true //; hsteps; iApply wp_bind;
      rot ltac:(fun e => iApply (wp_rotate γ hdr lm rm k e kRed (root_of t) p vp kBlack (bin e kBlack a q v b) w wv (root_of wf)
        with "Hk Hp Hw Hn"); [done|done|]);
      iIntros "Hk Hw Hp Hn"; hsteps;
      (iApply (wp_erase_black with "Ht [Hp Hn Hw Hf Hk]"); [done|exact Hs1|cbn [owns_zip]; by iFrame|]);
      (iSplit; [iIntros (k' t' (H1 & H2 & -> & H4)) "Ht Hk"; iDestruct "HF" as "[HF _]"
               |iIntros (k' (H1 & H2)) "Ht Hk"; iDestruct "HF" as "[_ HF]"]);
      iApply ("HF" with "[%] Ht Hk"); rewrite ?En in H2; split_and!; auto.
  - iDestruct "Hk" as "(%Hp & Hp & Hw & Hk)". iEval (rewrite owns_bin) in "Hw". iDestruct "Hw" as "(%Hw & Hw & Hn & Hf)".
    replace (root_of (bin d kBlack wn w wv wf)) with w by (by destruct d).
    iAssert (step_done hdr lm rm (Up d cp p vp (bin d kBlack wn w wv wf) k) t F) with "HF" as "HF".
    destruct d; hsteps; rewrite bool_decide_false //; hsteps;
      (iApply (wp_erase_black with "Ht [Hp Hn Hw Hf Hk]"); [done|exact Hs|cbn [owns_zip]; by iFrame|]);
      (iSplit; [iIntros (k' t' (H1 & H2 & -> & H4)) "Ht Hk"; iDestruct "HF" as "[HF _]"
               |iIntros (k' (H1 & H2)) "Ht Hk"; iDestruct "HF" as "[_ HF]"]);
      iApply ("HF" with "[%] Ht Hk"); split_and!; auto; left; cbn; lia.
Qed.

Lemma root_owned par t : owns γ par t -∗ ⌜root_of t = nullptr⌝ ∨ ∃ n, cell (root_of t) n.
Proof.
  destruct t as [|c l p v r]; cbn; iIntros "H"; [by iLeft|]. iDestruct "H" as "(_ & H & _)". iRight. by iExists _.
Qed.

(** The root of [t] is not the root of its sibling. *)
Lemma siblings_ne p t sib : sib <> E -> owns γ p t -∗ owns γ p sib -∗ ⌜root_of t <> root_of sib⌝.
Proof.
  intros Hs. iIntros "Ht Hs". destruct sib as [|c l q v r]; [done|]. cbn. iDestruct "Hs" as "(%Hq & Hq & _)".
  iDestruct (root_owned with "Ht") as "[->|[%n Ht]]"; [iPureIntro; by apply not_eq_sym|]. by iApply (cell_ne with "Ht Hq").
Qed.

Lemma wp_erase_loop hdr lm rm fuel : forall k t F,
  (0 < fuel)%nat -> (color_of t = kBlack -> (depth k < fuel)%nat) -> short_at k t ->
  owns γ (above hdr k) t -∗ owns_zip γ hdr lm rm k (root_of t) -∗
  (∀ k' t', ⌜settled k' t' /\ nodes k' t' = nodes k t⌝ -∗
     owns γ (above hdr k') t' -∗ owns_zip γ hdr lm rm k' (root_of t') -∗ F (root_of t')) -∗
  wp (erase_loop fuel (root_of t) (above hdr k) hdr) F.
Proof.
  induction fuel as [|f IH]; intros k t F Hf Hd Hs; [lia|]. iIntros "Ht Hk HF". cbn [erase_loop].
  iApply (wp_root with "Hk"). iIntros "Hk". destruct k as [|d cp p vp sib k].
  { cbn [top]. rewrite Z.eqb_refl. iApply wp_ret. iApply ("HF" $! Top t with "[%] Ht Hk"). split; [|done].
    apply short_settled; auto. }
  iDestruct (top_ne with "Hk [Ht]") as %Hne; [by iApply root_owned|]. rewrite (proj2 (Z.eqb_neq _ _) Hne).
  iApply (wp_is_black with "Ht"). iIntros "Ht". case_bool_decide as C; cbn [Datatypes.negb].
  2: { iApply wp_ret. iApply ("HF" with "[%] Ht Hk"). split; [|done]. apply short_settled; [done|]. right. by destruct (color_of t). }
  iDestruct "Hk" as "(%Hp & Hp & Hsib & Hk)". assert (sib <> E) as Hsib.
  { destruct Hs as (n & Hft & _). inversion Hft as [|? ? ? ? ? ? Hb|? ? ? ? ? ? ? ? ? ? Hb]; by inversion Hb. }
  iDestruct (siblings_ne with "Ht Hsib") as %Hx; [done|]. cbn [above].
  remember (nd d cp (above hdr k) (root_of t) (root_of sib) vp) as np eqn:Enp.
  assert ((if root_of t =? left np then SLeft else SRight) = d) as Ed.
  { rewrite Enp. destruct d; cbn; [by rewrite Z.eqb_refl|]. by rewrite (proj2 (Z.eqb_neq _ _) Hx). }
  hstep. rewrite Ed. subst np. iApply wp_bind.
  iApply (wp_erase_step hdr lm rm k d cp p vp sib t with "Ht [Hp Hsib Hk]"); [done|done|cbn [owns_zip]; by iFrame|].
  iSplit.
  - iIntros (k' t' (Hs' & En & Hd')) "Ht Hk". iApply (IH with "Ht Hk").
    + specialize (Hd C). cbn in Hd. lia.
    + intros C'. specialize (Hd C). cbn in Hd. destruct Hd' as [Hd'|Hd']; [cbn in Hd'; lia|congruence].
    + done.
    + iIntros (k'' t'' [H1 H2]) "Ht Hk". iApply ("HF" with "[%] Ht Hk"). split; [done|]. by rewrite H2.
  - iIntros (k' [H1 H2]) "Ht Hk". iApply wp_ret. by iApply ("HF" with "[%] Ht Hk").
Qed.

(** The loop and the colour of the node it ends at. *)
Lemma wp_erase_fix hdr lm rm fuel k t F :
  (depth k < fuel)%nat -> short_at k t ->
  owns γ (above hdr k) t -∗ owns_zip γ hdr lm rm k (root_of t) -∗
  (∀ t', ⌜flat t' = nodes k t /\ (exists n, bal n t') /\ color_of t' = kBlack⌝ -∗
     cell hdr (header lm rm (root_of t')) -∗ owns γ hdr t' -∗ F tt) -∗
  wp (let* x := erase_loop fuel (root_of t) (above hdr k) hdr in
      if Datatypes.negb (x =? nullptr) then upd x (set_color kBlack) else ret tt) F.
Proof.
  iIntros (Hd Hs) "Ht Hk HF". iApply wp_bind. iApply (wp_erase_loop with "Ht Hk"); [lia|done|done|].
  iIntros (k' t' [(n & Hb & Hc) En]) "Ht Hk". iApply (wp_blacken with "Ht"). iIntros "Ht".
  iDestruct (fold_plug γ hdr lm rm k' (blacken t') with "Ht [Hk]") as "[Hh Ht]"; [by rewrite root_blacken|].
  iApply ("HF" with "[%] Hh Ht"). split_and!; [|by exists n|done]. rewrite flat_plug flat_blacken. done.
Qed.

End erase.
End NkRbErase.
