(* ===== verification/NkRbWalk.v ===== *)
(** * Red-black trees: first and last nodes, iterators *)

From iris.proofmode Require Import proofmode coq_tactics reduction environments.
From iris.base_logic.lib Require Import ghost_map.
From stdpp Require Import base numbers list gmap.
From Stdlib Require Import ZArith Lia.
From S2P Require Import Prelude NodeHeap HeapLogic NkRbTree NkRbInv NkRbInsert NkRbErase.
Import NodeHeap HeapLogic NkRbTree NkRbInv NkRbInsert NkRbErase.

Local Open Scope Z_scope.

Module NkRbWalk.

Section shapes.
Context {V : Type}.
Implicit Types (t : tree V) (k : zip V).

(** Paths one behind the other; every step of a path on one side. *)
Fixpoint zapp k1 k2 : zip V :=
  match k1 with Top => k2 | Up d c p v sib k => Up d c p v sib (zapp k k2) end.
Fixpoint along (d : side) k : Prop :=
  match k with Top => True | Up d' _ _ _ _ k => d' = d /\ along d k end.

Lemma plug_zapp k1 : forall k2 t, plug (zapp k1 k2) t = plug k2 (plug k1 t).
Proof. induction k1 as [|d c p v sib k IH]; intros k2 t; cbn; auto. Qed.

Lemma along_zapp d k1 k2 : along d (zapp k1 k2) <-> along d k1 /\ along d k2.
Proof. induction k1 as [|d' c p v sib k IH]; cbn; tauto. Qed.

Lemma along_left k : along SLeft k -> before k = [].
Proof. induction k as [|d c p v sib k IH]; cbn; [done|]. intros [-> H]. auto. Qed.
Lemma along_right k : along SRight k -> after k = [].
Proof. induction k as [|d c p v sib k IH]; cbn; [done|]. intros [-> H]. auto. Qed.

(** An empty list on one side of a place: the path turns the other way only. *)
Lemma before_nil k : before k = [] -> along SLeft k.
Proof.
  induction k as [|[] c p v sib k IH]; cbn; [done|by auto|]. intros H. by destruct (before k), (flat sib).
Qed.
Lemma after_nil k : after k = [] -> along SRight k.
Proof. induction k as [|[] c p v sib k IH]; cbn; [done|done|by auto]. Qed.

(** The addresses of the first and the last node; the header when there is none. *)
Definition first (hdr : ptr) (l : list (ptr * V)) : ptr := from_option fst hdr (head l).
Definition final (hdr : ptr) (l : list (ptr * V)) : ptr := from_option fst hdr (last l).
Definition end_of (d : side) (hdr : ptr) (l : list (ptr * V)) : ptr :=
  match d with SLeft => first hdr l | SRight => final hdr l end.

Lemma final_app hdr (l1 l2 : list (ptr * V)) : l2 <> [] -> final hdr (l1 ++ l2) = final hdr l2.
Proof. intros H. unfold final. rewrite last_app. destruct (last l2) eqn:E2; [done|]. by apply last_None in E2. Qed.
Lemma first_app hdr (l1 l2 : list (ptr * V)) : l1 <> [] -> first hdr (l1 ++ l2) = first hdr l1.
Proof. by destruct l1. Qed.
Lemma final_cons hdr a (l : list (ptr * V)) : final hdr (a :: l) = final (a.1) l.
Proof. unfold final. rewrite last_cons. by destruct (last l). Qed.

(** The node at the end of the path along [d] is the first or the last. *)
Lemma end_along d k c y v b : along d k -> forall hdr, end_of d hdr (flat (plug k (bin d c E y v b))) = y.
Proof.
  intros Ha hdr. rewrite flat_plug. destruct d; cbn [end_of bin].
  - by rewrite (along_left k Ha).
  - rewrite (along_right k Ha). cbn [flat]. rewrite app_nil_r. rewrite final_app; [|by destruct (flat b)].
    rewrite final_app; [|done]. done.
Qed.

(** The place that [climb] reaches. *)
Fixpoint climb_up (d : side) k t : zip V * tree V :=
  match k with
  | Top => (Top, t)
  | Up d' c p v sib k' => if decide (d' = d) then climb_up d k' (bin d' c t p v sib) else (k, t)
  end.

Lemma climb_up_plug d k : forall t, plug (climb_up d k t).1 (climb_up d k t).2 = plug k t.
Proof. induction k as [|d' c p v sib k IH]; intros t; cbn; [done|]. case_decide; [apply IH|done]. Qed.

Lemma climb_up_end d k : forall t, match (climb_up d k t).1 with Top => along d k | Up d' _ _ _ _ _ => d' = other d end.
Proof.
  induction k as [|d' c p v sib k IH]; intros t; cbn; [done|]. case_decide as H; cbn.
  - specialize (IH (bin d' c t p v sib)). by destruct (climb_up d k (bin d' c t p v sib)).1.
  - by destruct d', d.
Qed.

Lemma climb_up_sides d k : forall t,
  match d with SLeft => before (climb_up d k t).1 = before k | SRight => after (climb_up d k t).1 = after k end.
Proof.
  induction k as [|d' c p v sib k IH]; intros t; cbn; [by destruct d|]. case_decide as H; [|by destruct d].
  subst d'. specialize (IH (bin d c t p v sib)). by destruct d.
Qed.

Lemma climb_up_cons d k : forall t, t <> E -> (climb_up d k t).2 <> E.
Proof. induction k as [|d' c p v sib k IH]; intros t Ht; cbn; [done|]. case_decide; [|done]. apply IH. by destruct d'. Qed.

Lemma before_zapp k1 k2 : before (zapp k1 k2) = before k2 ++ before k1.
Proof. induction k1 as [|[] c p v sib k IH]; cbn; rewrite ?IH ?app_nil_r; [done|done|by rewrite -!app_assoc]. Qed.
Lemma after_zapp k1 k2 : after (zapp k1 k2) = after k1 ++ after k2.
Proof. induction k1 as [|[] c p v sib k IH]; cbn; rewrite ?IH; [done|by rewrite -app_assoc|done]. Qed.

(** Every node of a tree is in a place. *)
Lemma place_of t p v : forall L R, flat t = L ++ (p, v) :: R -> exists k c l r,
  t = plug k (T c l p v r) /\ before k ++ flat l = L /\ flat r ++ after k = R.
Proof.
  induction t as [|c l IHl q w r IHr]; intros L R; cbn; [by destruct L|]. intros H.
  apply app_eq_inv in H as [([|x m] & H1 & H2)|([|x m] & H1 & H2)]; cbn in H2; injection H2 as H2 H3; simplify_eq.
  - exists Top, c, l, r. cbn. rewrite app_nil_r in H1. subst L. by rewrite app_nil_r.
  - destruct (IHl L m H1) as (k & c' & l' & r' & -> & <- & <-).
    exists (zapp k (Up SLeft c q w r Top)), c', l', r'. rewrite plug_zapp before_zapp after_zapp. cbn.
    by rewrite app_nil_r -app_assoc.
  - exists Top, c, l, r. cbn. by rewrite !app_nil_r.
  - destruct (IHr m R H3) as (k & c' & l' & r' & -> & <- & <-).
    exists (zapp k (Up SRight c q w l Top)), c', l', r'. rewrite plug_zapp before_zapp after_zapp. cbn.
    by rewrite app_nil_r -!app_assoc.
Qed.

End shapes.

Section walk.
Context {V : Type} {Σ : gFunctors} `{!ghost_mapG Σ Z (RbTreeNode V)} (γ : gname).
Abbreviation cell := (HeapLogic.cell γ).
Abbreviation wp := (HeapLogic.wp γ).
Implicit Types (x y p q hdr lm rm : ptr) (t : tree V) (k : zip V).

Lemma height_flat t : (height t <= length (flat t))%nat.
Proof. induction t as [|c l IHl p v r IHr]; cbn; [lia|]. rewrite length_app. cbn. lia. Qed.

Lemma wp_extreme d fuel : forall par t F, t <> E -> (height t <= fuel)%nat ->
  owns γ par t -∗
  (∀ k c y v r, ⌜t = plug k (bin d c E y v r) /\ along d k⌝ -∗ owns γ par t -∗ F y) -∗
  wp (extreme fuel d (root_of t)) F.
Proof.
  induction fuel as [|f IH]; intros par t F Ht Hh; [destruct t; [done|cbn in Hh; lia]|]. iIntros "Ht HF".
  destruct (bin_cases d t Ht) as (a & p & v & b & Et). set (c := color_of t) in Et. clearbody c. subst t.
  iEval (rewrite owns_bin) in "Ht". iDestruct "Ht" as "(%Hp & Hp & Ha & Hb)".
  replace (root_of (bin d c a p v b)) with p by (by destruct d). cbn [extreme].
  remember (nd d c par (root_of a) (root_of b) v) as np eqn:Enp. assert (sub d np = root_of a) as Es by (rewrite Enp; by destruct d).
  hstep. rewrite Es. destruct a as [|c' l q w r].
  - cbn [root_of]. cbn. iApply wp_ret. iApply ("HF" $! Top c p v b with "[//]"). rewrite owns_bin. subst np. by iFrame.
  - iAssert (⌜q <> nullptr⌝)%I as %Hq; [by iDestruct "Ha" as "[% _]"|]. cbn [root_of].
    rewrite (proj2 (Z.eqb_neq _ _) Hq). iApply (IH p (T c' l q w r) with "Ha"); [done|destruct d; cbn in *; lia|].
    iIntros (k cy y vy yr [Ek Hk]) "Ha". iApply ("HF" $! (zapp k (Up d c p v b Top)) cy y vy yr with "[%]").
    { rewrite plug_zapp along_zapp. cbn. by rewrite <- Ek. }
    rewrite owns_bin. subst np. by iFrame.
Qed.

(** The first and the last node. *)
Lemma wp_end d fuel par t F : t <> E -> (height t <= fuel)%nat ->
  owns γ par t -∗ (owns γ par t -∗ F (end_of d par (flat t))) -∗ wp (extreme fuel d (root_of t)) F.
Proof.
  iIntros (Ht Hh) "Ht HF". iApply (wp_extreme with "Ht"); [done|done|]. iIntros (k c y v r [Ek Hk]) "Ht".
  assert (end_of d par (flat t) = y) as <- by (rewrite Ek; by apply end_along). by iApply "HF".
Qed.

Lemma wp_climb hdr lm rm d fuel : hdr <> nullptr -> forall k t F, t <> E -> (S (depth k) < fuel)%nat ->
  owns γ (above hdr k) t -∗ owns_zip γ hdr lm rm k (root_of t) -∗
  (let k' := (climb_up d k t).1 in let t' := (climb_up d k t).2 in
   owns γ (above hdr k') t' -∗ owns_zip γ hdr lm rm k' (root_of t') -∗
   F (match k' with
      | Top => if root_of t' =? sub d (header lm rm (root_of t') : RbTreeNode V) then (hdr, root_of t') else (root_of t', hdr)
      | _ => (root_of t', above hdr k')
      end)) -∗
  wp (climb fuel d (root_of t) (above hdr k)) F.
Proof.
  intros Hh. induction fuel as [|f IH]; intros k t F Ht Hf; [lia|]. iIntros "Ht Hk HF". cbn [climb].
  destruct k as [|d' c p v sib k]; cbn [above owns_zip climb_up depth] in *.
  - remember (header lm rm (root_of t)) as hn eqn:Ehn. hstep. destruct (root_of t =? sub d hn) eqn:Es.
    + hstep. destruct f as [|f]; [lia|]. cbn [climb]. assert (parent hn = root_of t) as -> by (by rewrite Ehn).
      destruct t as [|c l x v r]; [done|]. iDestruct "Ht" as "(%Hx & Hx & Hl & Hr)". cbn [root_of] in *.
      iDestruct (root_ne with "Hk Hl") as %Hhl; [done|]. iDestruct (root_ne with "Hk Hr") as %Hhr; [done|].
      remember (MkNode c hdr (root_of l) (root_of r) (Some v)) as nx eqn:Enx. hstep.
      assert (hdr =? sub d nx = false) as -> by (rewrite Enx; apply Z.eqb_neq; by destruct d).
      iApply wp_ret. cbn [fst snd root_of]. iEval (rewrite -Ehn Es) in "HF". iApply ("HF" with "[Hx Hl Hr] [Hk]"); subst; by iFrame.
    + iApply wp_ret. cbn [fst snd root_of]. iEval (rewrite -Ehn Es) in "HF". iApply ("HF" with "Ht"). by subst hn.
  - iDestruct "Hk" as "(%Hp & Hp & Hs & Hk)". case_decide as Hd.
    + subst d'. remember (nd d c (above hdr k) (root_of t) (root_of sib) v) as np eqn:Enp.
      assert (sub d np = root_of t /\ parent np = above hdr k) as [Es Ep] by (rewrite Enp; by destruct d).
      hstep. rewrite Es Z.eqb_refl. hstep. rewrite Ep. assert (root_of (bin d c t p v sib) = p) as Er by (by destruct d).
      iPoseProof (IH k (bin d c t p v sib) F with "[Ht Hp Hs] [Hk] HF") as "H"; [by destruct d|lia| | |].
      * rewrite owns_bin. subst np. by iFrame.
      * by rewrite Er.
      * by rewrite Er.
    + remember (nd d' c (above hdr k) (root_of t) (root_of sib) v) as np eqn:Enp.
      assert (sub d np = root_of sib) as Es by (rewrite Enp; by destruct d, d').
      iAssert (⌜root_of t <> root_of sib⌝)%I as %Hne.
      { destruct t as [|ct l x vx r]; [done|]. iDestruct "Ht" as "(%Hx & Hx & _)". by iApply (root_ne with "Hx Hs"). }
      hstep. rewrite Es (proj2 (Z.eqb_neq _ _) Hne). iApply wp_ret. iApply ("HF" with "Ht"). subst np. by iFrame.
Qed.

(** ** Iterators *)

Definition whole hdr lm rm t : iProp Σ := cell hdr (header lm rm (root_of t)) ∗ owns γ hdr t.

Lemma above_ne hdr lm rm k q x n : cell x n -∗ owns_zip γ hdr lm rm k q -∗ ⌜x <> above hdr k⌝.
Proof.
  iIntros "Hx Hk". destruct k as [|d c p v sib k]; cbn.
  - by iApply (cell_ne with "Hx Hk").
  - iDestruct "Hk" as "(_ & Hp & _)". by iApply (cell_ne with "Hx Hp").
Qed.

Lemma depth_plug k t : (depth k + length (flat t) <= length (flat (plug k t)))%nat.
Proof. rewrite flat_plug !length_app. pose proof (depth_length k). lia. Qed.

Lemma wp_increment hdr lm rm fuel t p v L R F :
  hdr <> nullptr -> flat t = L ++ (p, v) :: R -> (S (length (flat t)) < fuel)%nat ->
  whole hdr lm rm t -∗ (whole hdr lm rm t -∗ F (first hdr R)) -∗ wp (increment fuel p) F.
Proof.
  iIntros (Hh Hf Hl) "[Hh Ht] HF". destruct (place_of t p v L R Hf) as (k & c & l & r & -> & HL & HR).
  pose proof (depth_plug k (T c l p v r)) as Hdp. cbn [flat] in Hdp. rewrite length_app in Hdp. cbn in Hdp.
  iDestruct (unfold_plug with "Hh Ht") as "[(%Hp & Hp & Hl & Hr) Hk]". cbn [root_of]. unfold increment. hstep.
  destruct r as [|cr rl q w rr].
  - cbn in HR. subst R. cbn [root_of]. cbn [Z.eqb nullptr Datatypes.negb]. iClear "Hr". hstep. iApply wp_bind.
    iApply (wp_climb hdr lm rm SRight fuel Hh k (T c l p v E) with "[Hp Hl] [Hk]"); [done|lia|by iFrame|done|].
    pose proof (climb_up_plug SRight k (T c l p v E)) as Ep. pose proof (climb_up_end SRight k (T c l p v E)) as Ee.
    pose proof (climb_up_sides SRight k (T c l p v E)) as Es. pose proof (climb_up_cons SRight k (T c l p v E) ltac:(done)) as Ec.
    destruct (climb_up SRight k (T c l p v E)) as [k' t']. cbn [fst snd] in *. cbn zeta. iIntros "Ht Hk".
    destruct t' as [|c' l' q w r']; [done|]. iDestruct "Ht" as "(%Hq & Hq & Hl & Hr)". cbn [root_of].
    destruct k' as [|d' c2 y wy sib k2].
    + iDestruct (root_ne with "Hk Hr") as %Hne; [done|]. rewrite <- Es. cbn [after first from_option head].
      iAssert (whole hdr lm rm (plug k (T c l p v E)) -∗ F hdr)%I with "HF" as "HF".
      iEval (rewrite -Ep /whole; cbn [plug root_of]) in "HF".
      cbn [owns_zip header sub right]. destruct (q =? rm) eqn:Eq; cbn [fst snd].
      * hstep. rewrite (Z.eqb_sym rm q) Eq. iApply wp_ret. iApply "HF". by iFrame.
      * hstep. rewrite (proj2 (Z.eqb_neq (root_of r') hdr)) //. cbn. iApply wp_ret. iApply "HF". by iFrame.
    + cbn in Ee. subst d'. cbn [fst snd above]. iDestruct "Hk" as "(%Hy & Hy & Hs & Hk)".
      iDestruct (root_ne with "Hy Hr") as %Hne; [done|]. hstep. rewrite (proj2 (Z.eqb_neq (root_of r') y)) //. cbn [Datatypes.negb].
      iApply wp_ret. rewrite -Es. cbn [after first from_option head fst]. iApply "HF". rewrite -Ep /whole.
      iApply (fold_plug with "[Hq Hl Hr] [Hy Hs Hk]"); [by iFrame|cbn [owns_zip]; by iFrame].
  - iAssert (⌜q <> nullptr⌝)%I as %Hq; [by iDestruct "Hr" as "[% _]"|]. cbn [root_of].
    rewrite (proj2 (Z.eqb_neq _ _) Hq). cbn [Datatypes.negb].
    iApply (wp_end SLeft fuel p (T cr rl q w rr) with "Hr"); [done| |].
    { pose proof (height_flat (T cr rl q w rr)). lia. }
    iIntros "Hr". cbn [end_of]. assert (first p (flat (T cr rl q w rr)) = first hdr R) as ->.
    { subst R. cbn. by destruct (flat rl). }
    iApply "HF". iApply (fold_plug with "[Hp Hl Hr] [Hk]"); by iFrame.
Qed.

(** The test for the header fails at every node: a red node is not the root. *)
Lemma wp_not_end {B} hdr lm rm k c l p v r (K : bool -> M _ B) F :
  (k = Top -> c = kBlack) ->
  owns γ (above hdr k) (T c l p v r) -∗ owns_zip γ hdr lm rm k p -∗
  (owns γ (above hdr k) (T c l p v r) -∗ owns_zip γ hdr lm rm k p -∗ wp (K false) F) -∗
  wp (let* c := fld color p in
      let* is_end := (if bool_decide (c = kRed) then
                        let* q := fld parent p in let* pp := fld parent q in ret (pp =? p)
                      else ret false) in K is_end) F.
Proof.
  iIntros (Hc) "(%Hp & Hp & Hl & Hr) Hk HK". hstep. destruct c.
  - rewrite bool_decide_true //. destruct k as [|d c q w sib k]; [by specialize (Hc eq_refl)|].
    iDestruct "Hk" as "(%Hq & Hq & Hs & Hk)". iDestruct (above_ne with "Hp Hk") as %Hne. cbn [above].
    remember (nd d c (above hdr k) p (root_of sib) w) as nq eqn:Enq. assert (parent nq = above hdr k) as Ep by (rewrite Enq; by destruct d).
    hsteps. rewrite Ep (proj2 (Z.eqb_neq (above hdr k) p)); [|congruence]. subst nq.
    iApply ("HK" with "[Hp Hl Hr] [Hq Hs Hk]"); by iFrame.
  - rewrite bool_decide_false //. hstep. iApply ("HK" with "[-Hk] Hk"). by iFrame.
Qed.

Lemma wp_decrement hdr lm rm fuel t p v L R F :
  hdr <> nullptr -> color_of t = kBlack -> flat t = L ++ (p, v) :: R -> L <> [] -> (S (length (flat t)) < fuel)%nat ->
  whole hdr lm rm t -∗ (whole hdr lm rm t -∗ F (final hdr L)) -∗ wp (decrement fuel p) F.
Proof.
  iIntros (Hh Hc Hf HLn Hl) "[Hh Ht] HF". destruct (place_of t p v L R Hf) as (k & c & l & r & -> & HL & HR).
  pose proof (depth_plug k (T c l p v r)) as Hdp. cbn [flat] in Hdp. rewrite length_app in Hdp. cbn in Hdp.
  iDestruct (unfold_plug with "Hh Ht") as "[Ht Hk]". cbn [root_of]. unfold decrement.
  iApply (wp_not_end with "Ht Hk"); [by intros ->|]. iIntros "(%Hp & Hp & Hl & Hr) Hk". cbn iota. hstep.
  destruct l as [|cl ll q w lr].
  - cbn in HL. rewrite app_nil_r in HL. subst L. cbn [root_of]. cbn [Z.eqb nullptr Datatypes.negb]. iClear "Hl". hstep. iApply wp_bind.
    iApply (wp_climb hdr lm rm SLeft fuel Hh k (T c E p v r) with "[Hp Hr] [Hk]"); [done|lia|by iFrame|done|].
    pose proof (climb_up_plug SLeft k (T c E p v r)) as Ep. pose proof (climb_up_end SLeft k (T c E p v r)) as Ee.
    pose proof (climb_up_sides SLeft k (T c E p v r)) as Es.
    destruct (climb_up SLeft k (T c E p v r)) as [k' t']. cbn [fst snd] in *. cbn zeta. iIntros "Ht Hk".
    destruct k' as [|d' c2 y wy sib k2].
    + by rewrite (along_left k Ee) in HLn.
    + cbn in Ee. subst d'. cbn [fst snd above]. iApply wp_ret.
      assert (final hdr (before k) = y) as ->.
      { rewrite <- Es. cbn [before]. rewrite app_assoc. rewrite final_app; done. }
      iApply "HF". rewrite -Ep /whole. by iApply (fold_plug γ hdr lm rm (Up SRight c2 y wy sib k2) t' with "Ht Hk").
  - iAssert (⌜q <> nullptr⌝)%I as %Hq; [by iDestruct "Hl" as "[% _]"|]. cbn [root_of].
    rewrite (proj2 (Z.eqb_neq _ _) Hq). cbn [Datatypes.negb].
    iApply (wp_end SRight fuel p (T cl ll q w lr) with "Hl"); [done| |].
    { pose proof (height_flat (T cl ll q w lr)). lia. }
    iIntros "Hl". cbn [end_of]. assert (final p (flat (T cl ll q w lr)) = final hdr L) as ->.
    { subst L. cbn [flat]. rewrite app_assoc !final_app //. by rewrite !final_cons. }
    iApply "HF". iApply (fold_plug with "[Hp Hl Hr] [Hk]"); by iFrame.
Qed.

End walk.
End NkRbWalk.
