(* ===== verification/NkRbUnlink.v ===== *)
(** * Red-black trees: taking a node out *)

From iris.proofmode Require Import proofmode coq_tactics reduction environments.
From iris.base_logic.lib Require Import ghost_map.
From stdpp Require Import base numbers list gmap.
From Stdlib Require Import ZArith Lia.
From S2P Require Import Prelude NodeHeap HeapLogic NkRbTree NkRbInv NkRbInsert NkRbErase NkRbWalk.
Import NodeHeap HeapLogic NkRbTree NkRbInv NkRbInsert NkRbErase NkRbWalk.

Local Open Scope Z_scope.

Module NkRbUnlink.

Section unlink.
Context {V : Type} {Σ : gFunctors} `{!ghost_mapG Σ Z (RbTreeNode V)} (γ : gname).
Abbreviation cell := (HeapLogic.cell γ).
Abbreviation wp := (HeapLogic.wp γ).
Implicit Types (x y p q hdr lm rm : ptr) (t : tree V) (k : zip V).

(** ** Owned nodes are different *)

Lemma owns_notin x n t : forall par, cell x n -∗ owns γ par t -∗ ⌜x ∉ (flat t).*1⌝.
Proof.
  induction t as [|c l IHl p v r IHr]; intros par; cbn; iIntros "Hx Ht".
  - iPureIntro. apply not_elem_of_nil.
  - iDestruct "Ht" as "(_ & Hp & Hl & Hr)". iDestruct (cell_ne with "Hx Hp") as %Hp.
    iDestruct (IHl with "Hx Hl") as %Hl. iDestruct (IHr with "Hx Hr") as %Hr. iPureIntro.
    rewrite fmap_app. cbn. set_solver.
Qed.

Lemma zip_notin hdr lm rm x n k : forall q, cell x n -∗ owns_zip γ hdr lm rm k q -∗
  ⌜x ∉ (before k).*1 /\ x ∉ (after k).*1 /\ x <> hdr⌝.
Proof.
  induction k as [|d c p v sib k IH]; intros q; cbn [owns_zip]; iIntros "Hx Hk".
  - iDestruct (cell_ne with "Hx Hk") as %H. iPureIntro. cbn. split_and!; [apply not_elem_of_nil|apply not_elem_of_nil|done].
  - iDestruct "Hk" as "(_ & Hp & Hs & Hk)". iDestruct (cell_ne with "Hx Hp") as %Hp.
    iDestruct (owns_notin with "Hx Hs") as %Hs. iDestruct (IH with "Hx Hk") as %(Hb & Ha & Hh). iPureIntro.
    destruct d; cbn; rewrite ?fmap_app; cbn; set_solver.
Qed.

(** ** The first and the last node *)

Lemma along_after hdr k : along SLeft k -> first hdr (after k) = above hdr k.
Proof. destruct k as [|d c p v sib k]; cbn; [done|]. by intros [-> _]. Qed.
Lemma along_before hdr k : along SRight k -> final hdr (before k) = above hdr k.
Proof.
  destruct k as [|d c p v sib k]; cbn; [done|]. intros [-> _]. cbn. rewrite app_assoc. by rewrite final_app.
Qed.

Lemma first_ne hdr (L R : list (ptr * V)) z v : z ∉ L.*1 -> first hdr (L ++ (z, v) :: R) = z -> L = [].
Proof. destruct L as [|[p w] L]; [done|]. cbn. intros Hz ->. set_solver. Qed.
Lemma final_ne hdr (L R : list (ptr * V)) z v : z ∉ R.*1 -> final hdr (L ++ (z, v) :: R) = z -> R = [].
Proof.
  intros Hz. rewrite final_app //. rewrite final_cons. cbn. unfold final. destruct (last R) as [[p w]|] eqn:E'; cbn.
  - intros ->. apply last_Some_elem_of in E'. exfalso. apply Hz. apply list_elem_of_fmap. by exists (z, w).
  - intros _. by apply last_None in E'.
Qed.

Lemma wp_reads {B} (f : RbTreeNode V -> B) p n F : cell p n -∗ (cell p n -∗ F (f n)) -∗ wp (fld f p) F.
Proof.
  iIntros "Hp HF". unfold fld. iApply wp_bind. iApply (wp_get with "Hp"). iIntros "Hp". iApply wp_ret. by iApply "HF".
Qed.

(** What [fix_end] makes of the end of the list. *)
Lemma flat_nil t : flat t = [] -> t = E.
Proof. destruct t as [|c l p v r]; [done|]. cbn. by destruct (flat l). Qed.

Lemma end_removed d hdr k l z v r t :
  (l = E /\ t = r \/ r = E /\ t = l) -> z ∉ (before k).*1 -> z ∉ (after k).*1 -> z ∉ (flat t).*1 ->
  let old := before k ++ flat l ++ (z, v) :: flat r ++ after k in
  let new := before k ++ flat l ++ flat r ++ after k in
  if end_of d hdr old =? z then
    t = (match d with SLeft => r | SRight => l end) /\
    end_of d hdr new = match t with E => above hdr k | _ => end_of d (above hdr k) (flat t) end
  else end_of d hdr new = end_of d hdr old.
Proof.
  intros Ht Hb Ha Hz. cbn zeta. destruct d; cbn [end_of]; rewrite !(app_assoc (before k)).
  - assert (z ∉ (before k ++ flat l).*1) as HzL.
    { rewrite fmap_app. destruct Ht as [[-> ->]|[-> ->]]; set_solver. }
    destruct (Z.eqb_spec (first hdr ((before k ++ flat l) ++ (z, v) :: flat r ++ after k)) z) as [Hl|Hl].
    + apply first_ne in Hl as [Hbk ->%flat_nil]%app_nil; [|done]. rewrite Hbk. cbn.
      assert (t = r) as -> by (by destruct Ht as [[_ ->]|[-> ->]]). split; [done|]. destruct r as [|cr rl q w rr].
      * by apply along_after, before_nil.
      * cbn. by destruct (flat rl).
    + assert (before k ++ flat l <> []) as HL by (intros HL; rewrite HL in Hl; by apply Hl).
      by rewrite !(first_app hdr (before k ++ flat l)).
  - assert (z ∉ (flat r ++ after k).*1) as HzR.
    { rewrite fmap_app. destruct Ht as [[-> ->]|[-> ->]]; set_solver. }
    destruct (Z.eqb_spec (final hdr ((before k ++ flat l) ++ (z, v) :: flat r ++ after k)) z) as [Hl|Hl].
    + apply final_ne in Hl as [->%flat_nil Hak]%app_nil; [|done]. rewrite Hak. cbn. rewrite !app_nil_r.
      assert (t = l) as -> by (by destruct Ht as [[-> ->]|[_ ->]]). split; [done|]. destruct l as [|cl ll q w lr].
      * rewrite app_nil_r. by apply along_before, after_nil.
      * cbn [flat]. rewrite final_app; [|by destruct (flat ll)]. rewrite !final_app // !final_cons //.
    + assert (flat r ++ after k <> []) as HR.
      { intros HR. rewrite HR in Hl. rewrite final_app // in Hl. }
      rewrite !(final_app hdr (before k ++ flat l)) //. rewrite final_cons. unfold final. destruct (last _) eqn:El; [done|]. by apply last_None in El.
Qed.

(** [fix_end]: the node [z] with the children [l] and [r], of which one is empty,
    has been replaced by the other in the place [k]. *)
Lemma wp_fix_end hdr lm rm fuel d k c z v l r t F :
  (l = E /\ t = r \/ r = E /\ t = l) -> (height t <= fuel)%nat ->
  (match d with SLeft => lm | SRight => rm end) = end_of d hdr (before k ++ flat l ++ (z, v) :: flat r ++ after k) ->
  cell z (MkNode c (above hdr k) (root_of l) (root_of r) (Some v)) -∗
  owns γ (above hdr k) t -∗ owns_zip γ hdr lm rm k (root_of t) -∗
  (cell z (MkNode c (above hdr k) (root_of l) (root_of r) (Some v)) -∗ owns γ (above hdr k) t -∗
   (let e := end_of d hdr (before k ++ flat l ++ flat r ++ after k) in
    owns_zip γ hdr (match d with SLeft => e | _ => lm end) (match d with SRight => e | _ => rm end) k (root_of t)) -∗ F tt) -∗
  wp (fix_end fuel d z (root_of t) hdr) F.
Proof.
  iIntros (Ht Hf He) "Hz Ht Hk HF". iDestruct (zip_notin with "Hz Hk") as %(Hb & Ha & Hzh).
  iAssert (⌜z ∉ (flat t).*1⌝)%I as %Hzt; [by iApply (owns_notin with "Hz Ht")|].
  pose proof (end_removed d hdr k l z v r t Ht Hb Ha Hzt) as Hr. cbn zeta in Hr. rewrite -He in Hr. clear He. cbn zeta.
  set (e := end_of d hdr (before k ++ flat l ++ flat r ++ after k)) in *. clearbody e.
  iDestruct (zip_header with "Hk") as "[Hh Hk]". unfold fix_end.
  destruct d; hstep; destruct (_ =? z); try (iApply wp_ret; subst e; iApply ("HF" with "Hz Ht"); by iApply "Hk").
  all: destruct Hr as [-> ->]; hstep.
  - destruct r as [|cr rl q w rr].
    + cbn. hstep. iApply (wp_upd with "Hh"). iIntros "Hh". iApply ("HF" with "Hz Ht"). by iApply "Hk".
    + iAssert (⌜q <> nullptr⌝)%I as %Hq; [by iDestruct "Ht" as "[% _]"|]. cbn [root_of]. rewrite (proj2 (Z.eqb_neq _ _) Hq).
      iApply wp_bind. iApply (wp_end γ SLeft fuel (above hdr k) (T cr rl q w rr) with "Ht"); [done|done|]. iIntros "Ht".
      iApply (wp_upd with "Hh"). iIntros "Hh". iApply ("HF" with "Hz Ht"). by iApply "Hk".
  - destruct l as [|cl ll q w lr].
    + cbn. hstep. iApply (wp_upd with "Hh"). iIntros "Hh". iApply ("HF" with "Hz Ht"). by iApply "Hk".
    + iAssert (⌜q <> nullptr⌝)%I as %Hq; [by iDestruct "Ht" as "[% _]"|]. cbn [root_of]. rewrite (proj2 (Z.eqb_neq _ _) Hq).
      iApply wp_bind. iApply (wp_end γ SRight fuel (above hdr k) (T cl ll q w lr) with "Ht"); [done|done|]. iIntros "Ht".
      iApply (wp_upd with "Hh"). iIntros "Hh". iApply ("HF" with "Hz Ht"). by iApply "Hk".
Qed.

Lemma wp_unlink hdr fuel k c z v l r t F :
  z <> nullptr -> (l = E /\ t = r \/ r = E /\ t = l) -> (height t <= fuel)%nat ->
  let old := before k ++ flat l ++ (z, v) :: flat r ++ after k in
  let new := before k ++ flat l ++ flat r ++ after k in
  cell z (MkNode c (above hdr k) (root_of l) (root_of r) (Some v)) -∗ owns γ z t -∗
  owns_zip γ hdr (first hdr old) (final hdr old) k z -∗
  (cell z (MkNode c (above hdr k) (root_of l) (root_of r) (Some v)) -∗ owns γ (above hdr k) t -∗
   owns_zip γ hdr (first hdr new) (final hdr new) k (root_of t) -∗ F (above hdr k)) -∗
  wp (unlink fuel z (root_of t) hdr) F.
Proof.
  iIntros (Hz Ht Hf old new) "Hz Ht Hk HF". unfold unlink, reparent. hstep. iApply wp_bind.
  iApply (wp_reparent with "Ht"). iIntros "Ht". iApply wp_bind.
  iApply (wp_replace_child with "Hk Hz"); [done|done|]. iIntros "Hk Hz". iApply wp_bind.
  iApply (wp_fix_end hdr _ _ fuel SLeft with "Hz Ht Hk"); [done|done|done|]. iIntros "Hz Ht Hk". cbn zeta iota. iApply wp_bind.
  iApply (wp_fix_end hdr _ _ fuel SRight with "Hz Ht Hk"); [done|done|done|]. iIntros "Hz Ht Hk". cbn zeta iota.
  iApply wp_ret. iApply ("HF" with "Hz Ht Hk").
Qed.

(** ** Segments of a path *)

Fixpoint owns_seg par k q : iProp Σ :=
  match k with
  | Top => emp
  | Up d c p v sib k => ⌜p <> nullptr⌝ ∗ cell p (nd d c (above par k) q (root_of sib) v) ∗ owns γ p sib ∗ owns_seg par k p
  end.

Lemma owns_seg_plug par k : forall t, owns γ par (plug k t) ⊣⊢ owns_seg par k (root_of t) ∗ owns γ (above par k) t.
Proof.
  induction k as [|d c p v sib k IH]; intros t; cbn.
  - iSplit; [by iIntros "$"|by iIntros "[_ $]"].
  - rewrite IH. rewrite owns_bin. replace (root_of (bin d c t p v sib)) with p by (by destruct d).
    iSplit; [iIntros "($ & %Hp & $ & $ & $)"|iIntros "((%Hp & $ & $ & $) & $)"]; by iPureIntro.
Qed.

Lemma above_zapp hdr k1 k2 : above hdr (zapp k1 k2) = above (above hdr k2) k1.
Proof. by destruct k1. Qed.

Lemma owns_zip_zapp hdr lm rm k1 k2 : forall q,
  owns_zip γ hdr lm rm (zapp k1 k2) q ⊣⊢ owns_seg (above hdr k2) k1 q ∗ owns_zip γ hdr lm rm k2 (top k1 q).
Proof.
  induction k1 as [|d c p v sib k IH]; intros q; cbn.
  - iSplit; [by iIntros "$"|by iIntros "[_ $]"].
  - rewrite IH above_zapp. iSplit; [iIntros "($ & $ & $ & $ & $)"|iIntros "(($ & $ & $ & $) & $)"].
Qed.

(** The outermost node of a segment points to what is above it. *)
Lemma seg_top par k : forall q, k <> Top -> owns_seg par k q -∗
  ∃ n, cell (top k q) n ∗ ⌜parent n = par /\ top k q <> nullptr⌝ ∗
  (∀ par', cell (top k q) (set_parent par' n) -∗ owns_seg par' k q).
Proof.
  induction k as [|d c p v sib k IH]; intros q Hk; [done|]. cbn. iIntros "(%Hp & Hp & Hs & Hk)".
  destruct k as [|d' c' p' v' sib' k].
  - iExists _. iFrame "Hp". iSplit; [by destruct d|]. iIntros (par') "Hp". iFrame "Hs". destruct d; by iFrame.
  - iDestruct (IH p ltac:(done) with "Hk") as (n) "(Hn & %H & Hk)". iExists n. iFrame "Hn". iSplit; [done|].
    iIntros (par') "Hn". iFrame "Hp Hs". iSplit; [done|]. by iApply "Hk".
Qed.

(** The part of [relink_successor] that differs when the successor [y] is the right
    child of [z]. *)
Lemma wp_detach_successor {B} kr z y vy cy yr q F (K : ptr -> M _ B) :
  along SLeft kr -> y <> nullptr ->
  owns_seg z kr y -∗ cell y (MkNode cy (above z kr) q (root_of yr) (Some vy)) -∗ owns γ y yr -∗
  (owns_seg y kr (root_of yr) -∗ owns γ (above y kr) yr -∗
   cell y (MkNode cy (above z kr) q (top kr (root_of yr)) (Some vy)) -∗ wp (K (above y kr)) F) -∗
  wp (let* x_parent := (if Datatypes.negb (y =? top kr y) then
      let* yp := fld parent y in
      let* _ := reparent (root_of yr) yp in
      let* _ := upd yp (set_left (root_of yr)) in
      let* _ := upd y (set_right (top kr y)) in
      let* _ := upd (top kr y) (set_parent y) in
      ret yp
    else ret y) in K x_parent) F.
Proof.
  iIntros (Ha Hy) "Hs Hy Hyr HK". destruct kr as [|d c0 p v s0 kr].
  - cbn [top]. rewrite Z.eqb_refl. cbn [Datatypes.negb]. hstep. iApply ("HK" with "Hs Hyr Hy").
  - destruct Ha as [-> Ha]. iAssert (⌜y <> top (Up SLeft c0 p v s0 kr) y⌝)%I as %Hne.
    { iDestruct (seg_top with "Hs") as (n) "(Hn & _ & Hs)"; [done|]. by iApply (cell_ne with "Hy Hn"). }
    rewrite (proj2 (Z.eqb_neq _ _) Hne). cbn [Datatypes.negb above top]. iDestruct "Hs" as "(%Hp & Hp & Hs0 & Hs)".
    unfold reparent. hsteps. iApply wp_bind. iApply (wp_reparent with "Hyr"). iIntros "Hyr". hsteps.
    iDestruct (seg_top z (Up SLeft c0 p v s0 kr) (root_of yr) with "[Hp Hs0 Hs]") as (n) "(Hn & _ & Hs)"; [done|by iFrame|].
    cbn [top]. hsteps. iSpecialize ("Hs" with "Hn"). iApply ("HK" with "Hs Hyr Hy").
Qed.

Lemma wp_relink_successor hdr lm rm k kr c z v l cy y vy yr F :
  z <> nullptr -> y <> nullptr -> l <> E -> along SLeft kr ->
  cell z (MkNode c (above hdr k) (root_of l) (top kr y) (Some v)) -∗ owns γ z l -∗
  owns_zip γ hdr lm rm k z -∗ owns_seg z kr y -∗
  cell y (MkNode cy (above z kr) nullptr (root_of yr) (Some vy)) -∗ owns γ y yr -∗
  (let k1 := zapp kr (Up SRight c y vy l k) in
   (∃ n, cell z n ∗ ⌜color n = cy⌝) -∗ owns γ (above hdr k1) yr -∗ owns_zip γ hdr lm rm k1 (root_of yr) -∗ F (above hdr k1)) -∗
  wp (relink_successor z y (root_of yr) hdr) F.
Proof.
  iIntros (Hz Hy Hl Ha) "Hz Hl Hk Hs Hy Hyr HF". unfold relink_successor. destruct l as [|cl ll q w lr]; [done|].
  iDestruct "Hl" as "(%Hq & Hq & Hll & Hlr)". hsteps.
  iApply (wp_detach_successor with "Hs Hy Hyr"); [done|done|]. iIntros "Hs Hyr Hy". iApply wp_bind.
  iApply (wp_replace_child with "Hk Hz"); [done|done|]. iIntros "Hk Hz". hsteps. iApply wp_ret. cbn zeta.
  rewrite above_zapp. cbn [above]. iApply ("HF" with "[Hz] Hyr"); [by iExists _; iFrame|].
  rewrite owns_zip_zapp. cbn [above owns_zip]. by iFrame.
Qed.

(** ** The balance behind a removal *)

Lemma bal_short n t : bal n t -> short n t.
Proof. intros H. split; [done|]. by apply bal_blacken. Qed.

(** What is left in the place of a removed node with one child at most. *)
Lemma removed_one k c l z v r t n :
  (l = E /\ t = r \/ r = E /\ t = l) -> bal n (plug k (T c l z v r)) -> color_of (plug k (T c l z v r)) = kBlack ->
  match c with
  | kBlack => short_at k t
  | kRed => exists m, bal m (plug k t) /\ color_of (plug k t) = kBlack
  end.
Proof.
  intros Ht Hb Hc. destruct (bal_fits k n _ Hb Hc) as (m & Hf & Hm & Hh). destruct c.
  - inversion Hm as [|? ? ? ? ? Hl Hr Cl Cr|]; subst. assert (bal m t /\ color_of t = kBlack) as [Hbt Ct].
    { by destruct Ht as [[_ ->]|[_ ->]]. }
    apply (fits_plug_black k m); auto.
  - inversion Hm as [| |m' ? ? ? ? Hl Hr]; subst. exists m'. split; [done|]. apply bal_short. by destruct Ht as [[_ ->]|[_ ->]].
Qed.

(** One step of a path. *)
Definition black_above k : Prop := match k with Up _ kBlack _ _ _ _ => True | _ => False end.

Lemma fits_up d c p v sib k n : fits (Up d c p v sib k) n <->
  bal n sib /\ (c = kBlack /\ fits k (S n) \/ c = kRed /\ color_of sib = kBlack /\ fits k n /\ black_above k).
Proof.
  split.
  - inversion 1; subst; auto. split; [done|]. right. by split_and!.
  - intros [Hs [[-> Hk]|(-> & Hc & Hk & Ha)]]; [by constructor|]. destruct k as [|d' [] p' v' s' k]; try done. by constructor.
Qed.

(** The place below a node does not depend on the node's address and value. *)
Lemma fits_rename kr d c z v y w sib k : forall n,
  fits (zapp kr (Up d c z v sib k)) n -> fits (zapp kr (Up d c y w sib k)) n.
Proof.
  induction kr as [|d' c' p u s kr IH]; intros n; cbn; rewrite !fits_up; [done|].
  intros (Hs & [[-> Hk]|(-> & Hc & Hk & Ha)]); (split; [done|]); [left; auto|right]. split_and!; auto.
  by destruct kr as [|? []].
Qed.

Lemma removed_two k kr c l z v cy y vy yr n :
  bal n (plug k (T c l z v (plug kr (T cy E y vy yr)))) -> color_of (plug k (T c l z v (plug kr (T cy E y vy yr)))) = kBlack ->
  match cy with
  | kBlack => short_at (zapp kr (Up SRight c y vy l k)) yr
  | kRed => exists m, bal m (plug (zapp kr (Up SRight c y vy l k)) yr) /\ color_of (plug (zapp kr (Up SRight c y vy l k)) yr) = kBlack
  end.
Proof.
  intros Hb Hc. change (T c l z v (plug kr (T cy E y vy yr))) with (plug (Up SRight c z v l Top) (plug kr (T cy E y vy yr))) in Hb, Hc.
  assert (forall t', plug k (plug (Up SRight c z v l Top) (plug kr t')) = plug (zapp kr (Up SRight c z v l k)) t') as Ep.
  { intros t'. by rewrite plug_zapp. }
  rewrite Ep in Hb, Hc. destruct (bal_fits _ n _ Hb Hc) as (m & Hf & Hm & Hh). apply (fits_rename _ _ _ z v y vy) in Hf as Hf'.
  destruct cy.
  - inversion Hm as [|? ? ? ? ? Hl Hr Cl Cr|]; subst. apply (fits_plug_black _ m); auto.
  - inversion Hm as [| |m' ? ? ? ? Hl Hr]; subst. exists m'. split; [done|]. by apply bal_short.
Qed.

End unlink.
End NkRbUnlink.
