(* ===== verification/NkRbClass.v ===== *)
(** * Red-black trees: the operations of the class *)

From iris.proofmode Require Import proofmode coq_tactics reduction environments.
From iris.base_logic.lib Require Import ghost_map.
From stdpp Require Import base numbers list gmap.
From Stdlib Require Import ZArith Lia.
From S2P Require Import Prelude NodeHeap HeapLogic NkRbTree NkRbInv NkRbInsert NkRbErase NkRbWalk NkRbUnlink.
Import NodeHeap HeapLogic NkRbTree NkRbInv NkRbInsert NkRbErase NkRbWalk NkRbUnlink.

Local Open Scope Z_scope.

Module NkRbClass.

Section class.
Context {V : Type} {Σ : gFunctors} `{!ghost_mapG Σ Z (RbTreeNode V)} (γ : gname).
Abbreviation cell := (HeapLogic.cell γ).
Abbreviation wp := (HeapLogic.wp γ).
Implicit Types (x y p q hdr lm rm : ptr) (t : tree V) (k : zip V).

(** The header knows the first and the last node. *)
Definition linked hdr t : iProp Σ := whole γ hdr (first hdr (flat t)) (final hdr (flat t)) t.

Definition balanced t : Prop := (exists n, bal n t) /\ color_of t = kBlack.

(** ** Removal *)

(** The end of [RbTreeRebalanceForErase], once [z] is out of the tree. *)
Lemma wp_erase_colour hdr lm rm fuel k t z nz F :
  (depth k < fuel)%nat ->
  match color nz with kBlack => short_at k t | kRed => exists m, bal m (plug k t) /\ color_of (plug k t) = kBlack end ->
  cell z nz -∗ owns γ (above hdr k) t -∗ owns_zip γ hdr lm rm k (root_of t) -∗
  (∀ t', ⌜flat t' = nodes k t /\ balanced t'⌝ -∗ cell z nz -∗ whole γ hdr lm rm t' -∗ F z) -∗
  wp (let* c := fld color z in
      let* _ := (if Datatypes.negb (bool_decide (c = kRed)) then
          let* x := erase_loop fuel (root_of t) (above hdr k) hdr in
          if Datatypes.negb (x =? nullptr) then upd x (set_color kBlack) else ret tt
        else ret tt) in ret z) F.
Proof.
  iIntros (Hd Hc) "Hz Ht Hk HF". hstep. destruct (color nz).
  - rewrite bool_decide_true //. cbn [Datatypes.negb]. hstep. iApply wp_ret. destruct Hc as (m & Hb & Hc).
    iApply ("HF" $! (plug k t) with "[%] Hz [-]"); [|by iApply (fold_plug with "Ht Hk")].
    split; [apply flat_plug|]. split; [by exists m|done].
  - rewrite bool_decide_false //. cbn [Datatypes.negb]. iApply wp_bind. iApply (wp_erase_fix with "Ht Hk"); [done|done|].
    iIntros (t' (Hf & Hb & Hc')) "Hh Ht". iApply wp_ret. iApply ("HF" $! t' with "[//] Hz"). by iFrame.
Qed.

(** [z] has at most one child, [t0]. *)
Lemma wp_erase_one hdr fuel k c l z v r t0 F :
  (l = E /\ t0 = r \/ r = E /\ t0 = l) -> balanced (plug k (T c l z v r)) -> (S (length (flat (plug k (T c l z v r)))) < fuel)%nat ->
  z <> nullptr ->
  let old := before k ++ flat l ++ (z, v) :: flat r ++ after k in
  cell z (MkNode c (above hdr k) (root_of l) (root_of r) (Some v)) -∗ owns γ z t0 -∗
  owns_zip γ hdr (first hdr old) (final hdr old) k z -∗
  (∀ t', ⌜flat t' = (before k ++ flat l) ++ flat r ++ after k /\ balanced t'⌝ -∗ (∃ nz, cell z nz) -∗ linked hdr t' -∗ F z) -∗
  wp (let* x_parent := unlink fuel z (root_of t0) hdr in
      let* c := fld color z in
      let* _ := (if Datatypes.negb (bool_decide (c = kRed)) then
          let* x := erase_loop fuel (root_of t0) x_parent hdr in
          if Datatypes.negb (x =? nullptr) then upd x (set_color kBlack) else ret tt
        else ret tt) in ret z) F.
Proof.
  iIntros (Ht [[n Hb] Hc] Hl Hz old) "Hz Ht Hk HF". pose proof (depth_plug k (T c l z v r)) as Hdp.
  cbn [flat] in Hdp. rewrite length_app in Hdp. cbn [length] in Hdp.
  pose proof (height_flat l) as Hhl. pose proof (height_flat r) as Hhr. iApply wp_bind.
  iApply (wp_unlink γ hdr fuel k c z v l r t0 with "Hz Ht Hk"); [done|done|destruct Ht as [[_ ->]|[_ ->]]; lia|].
  iIntros "Hz Ht Hk". iApply (wp_erase_colour with "Hz Ht Hk"); [lia|by eapply removed_one|].
  assert (nodes k t0 = (before k ++ flat l) ++ flat r ++ after k) as En.
  { unfold nodes. destruct Ht as [[-> ->]|[-> ->]]; cbn; by rewrite -!app_assoc. }
  iIntros (t' [Hf' Hb']) "Hz Ht". rewrite En in Hf'. iApply ("HF" $! t' with "[//] [Hz]"); [by iExists _|].
  unfold linked. rewrite Hf' -app_assoc. done.
Qed.

(** [z] has two children, and [y] is its successor. *)
Lemma wp_erase_two hdr fuel k c l z v kr cy y vy yr F :
  l <> E -> along SLeft kr -> let t := plug k (T c l z v (plug kr (T cy E y vy yr))) in
  balanced t -> (S (length (flat t)) < fuel)%nat -> z <> nullptr -> y <> nullptr ->
  cell z (MkNode c (above hdr k) (root_of l) (top kr y) (Some v)) -∗ owns γ z l -∗
  owns_zip γ hdr (first hdr (flat t)) (final hdr (flat t)) k z -∗
  owns_seg γ z kr y -∗ cell y (MkNode cy (above z kr) nullptr (root_of yr) (Some vy)) -∗ owns γ y yr -∗
  (∀ t', ⌜flat t' = (before k ++ flat l) ++ flat (plug kr (T cy E y vy yr)) ++ after k /\ balanced t'⌝ -∗
     (∃ nz, cell z nz) -∗ linked hdr t' -∗ F z) -∗
  wp (let* x_parent := relink_successor z y (root_of yr) hdr in
      let* c := fld color z in
      let* _ := (if Datatypes.negb (bool_decide (c = kRed)) then
          let* x := erase_loop fuel (root_of yr) x_parent hdr in
          if Datatypes.negb (x =? nullptr) then upd x (set_color kBlack) else ret tt
        else ret tt) in ret z) F.
Proof.
  iIntros (Hl Ha t [[n Hb] Hc] Hn Hz Hy) "Hz Hl Hk Hs Hy Hyr HF". iApply wp_bind.
  iApply (wp_relink_successor with "Hz Hl Hk Hs Hy Hyr"); [done..|]. cbn zeta. iIntros "[%nz [Hz %Ec]] Ht Hk".
  pose proof (removed_two k kr c l z v cy y vy yr n Hb Hc) as Hr.
  assert (nodes (zapp kr (Up SRight c y vy l k)) yr = (before k ++ flat l) ++ flat (plug kr (T cy E y vy yr)) ++ after k) as En.
  { unfold nodes. rewrite flat_plug before_zapp after_zapp (along_left kr Ha). cbn. by rewrite app_nil_r -!app_assoc. }
  assert (flat t = (before k ++ flat l) ++ (z, v) :: flat (plug kr (T cy E y vy yr)) ++ after k) as Et.
  { unfold t. rewrite flat_plug. cbn. by rewrite -!app_assoc. }
  iApply (wp_erase_colour with "Hz Ht Hk"); [|by rewrite Ec|].
  { pose proof (depth_plug (zapp kr (Up SRight c y vy l k)) yr) as Hd. rewrite flat_plug in Hd.
    change (before (zapp kr (Up SRight c y vy l k)) ++ flat yr ++ after (zapp kr (Up SRight c y vy l k)))
      with (nodes (zapp kr (Up SRight c y vy l k)) yr) in Hd. rewrite En in Hd. rewrite Et in Hn.
    rewrite !length_app in Hd, Hn. cbn in Hn. rewrite !length_app in Hn. lia. }
  iIntros (t' [Hf' Hb']) "Hz Ht". rewrite En in Hf'. iApply ("HF" $! t' with "[//] [Hz]"); [by iExists _|].
  assert (before k ++ flat l <> []) as HL by (destruct l; [done|]; cbn; by destruct (before k), (flat l1)).
  assert (flat (plug kr (T cy E y vy yr)) ++ after k <> []) as HR by (rewrite flat_plug (along_left kr Ha); done).
  unfold linked. rewrite Hf'. rewrite Et. rewrite !(first_app hdr (before k ++ flat l)) //.
  rewrite !(final_app hdr (before k ++ flat l)) //. rewrite final_cons. unfold final. destruct (last _) eqn:El; [done|].
  by apply last_None in El.
Qed.

Lemma wp_rebalance_for_erase hdr fuel t z v L R F :
  flat t = L ++ (z, v) :: R -> balanced t -> (S (length (flat t)) < fuel)%nat ->
  linked hdr t -∗
  (∀ t', ⌜flat t' = L ++ R /\ balanced t'⌝ -∗ (∃ nz, cell z nz) -∗ linked hdr t' -∗ F z) -∗
  wp (RbTreeRebalanceForErase fuel z hdr) F.
Proof.
  iIntros (Hf Hb Hl) "[Hh Ht] HF". destruct (place_of t z v L R Hf) as (k & c & l & r & -> & <- & <-).
  iDestruct (unfold_plug with "Hh Ht") as "[(%Hz & Hz & Hl & Hr) Hk]". cbn [root_of].
  unfold RbTreeRebalanceForErase, victim. destruct l as [|cl ll q w lr].
  - hsteps. cbn [root_of]. cbn [Z.eqb nullptr]. hsteps. rewrite Z.eqb_refl. cbn [Datatypes.negb].
    iApply (wp_erase_one hdr fuel k c E z v r r with "Hz Hr [Hk] HF"); [by left|done|done|done|].
    by rewrite flat_plug.
  - iAssert (⌜q <> nullptr⌝)%I as %Hq; [by iDestruct "Hl" as "[% _]"|]. hsteps. cbn [root_of].
    rewrite (proj2 (Z.eqb_neq _ _) Hq). hsteps. destruct r as [|cr rl u w' rr].
    + cbn [root_of]. cbn [Z.eqb nullptr]. hsteps. rewrite Z.eqb_refl. cbn [Datatypes.negb].
      iApply (wp_erase_one hdr fuel k c (T cl ll q w lr) z v E (T cl ll q w lr) with "Hz Hl [Hk] HF"); [by right|done|done|done|].
      rewrite flat_plug. cbn [flat]. by rewrite -!app_assoc.
    + iAssert (⌜u <> nullptr⌝)%I as %Hu; [by iDestruct "Hr" as "[% _]"|]. cbn [root_of]. rewrite (proj2 (Z.eqb_neq _ _) Hu). hsteps.
      pose proof (depth_plug k (T c (T cl ll q w lr) z v (T cr rl u w' rr))) as Hdp.
      pose proof (height_flat (T c (T cl ll q w lr) z v (T cr rl u w' rr))) as Hhr. cbn [height] in Hhr.
      iApply wp_bind. iApply (wp_extreme γ SLeft fuel z (T cr rl u w' rr) with "Hr"); [done|cbn [height]; lia|].
      iIntros (kr cy y vy yr [Ekr Ha]) "Hr". cbn [bin] in Ekr. rewrite Ekr in Hf Hb Hl |- *.
      assert (u = top kr y) as -> by (pose proof (root_plug kr (T cy E y vy yr)) as Ht; rewrite -Ekr in Ht; done).
      iEval (rewrite owns_seg_plug) in "Hr". iDestruct "Hr" as "[Hs (%Hy & Hy & _ & Hyr)]". cbn [root_of].
      iDestruct (cell_ne with "Hy Hz") as %Hyz. hsteps. rewrite (proj2 (Z.eqb_neq _ _) Hyz). cbn [Datatypes.negb].
      iApply (wp_erase_two hdr fuel k c (T cl ll q w lr) z v kr cy y vy yr with "Hz Hl Hk Hs Hy Hyr HF"); done.
Qed.

(** ** The object *)

(** The tree object [t] holds the nodes [xs] in order. *)
Definition is_tree (t : RbTree) (xs : list (ptr * V)) : iProp Σ :=
  ∃ tr, linked (header_ t) tr ∗
    ⌜flat tr = xs /\ balanced tr /\ node_count_ t = Z.of_nat (length xs) /\ Z.of_nat (length xs) < 2 ^ 64 /\ header_ t <> nullptr⌝.

Lemma fuel_enough (t : RbTree) (xs : list (ptr * V)) : node_count_ t = Z.of_nat (length xs) -> fuel_of t = S (S (length xs)).
Proof. intros H. unfold fuel_of. rewrite H. by rewrite Nat2Z.id. Qed.

Lemma wp_new_tree F : (∀ t : RbTree, is_tree t [] -∗ F t) -∗ wp new_tree F.
Proof.
  iIntros "HF". unfold new_tree. iApply wp_bind. iApply wp_new. iIntros (h Hh) "Hh". hsteps. iApply wp_ret.
  iApply "HF". iExists E. unfold linked, whole. cbn. iFrame. iPureIntro. split_and!; try done. split; [|done]. exists O. constructor.
Qed.

Lemma wp_erase (t : RbTree) z v L R F :
  is_tree t (L ++ (z, v) :: R) -∗ (∀ t' : RbTree, ⌜header_ t' = header_ t⌝ -∗ is_tree t' (L ++ R) -∗ F t') -∗ wp (erase t z) F.
Proof.
  iIntros "(%tr & Ht & %Hf & %Hb & %Hn & %Hl & %Hh) HF". unfold erase. iApply wp_bind.
  iApply (wp_rebalance_for_erase with "Ht"); [done|done| |].
  { rewrite (fuel_enough t _ Hn) Hf. lia. }
  iIntros (t' [Hf' Hb']) "[%nz Hz] Ht". iApply wp_bind. iApply (wp_delete with "Hz"). iApply wp_ret.
  iApply "HF"; [done|]. iExists t'. cbn. iFrame. iPureIntro.
  rewrite length_app in Hn Hl. cbn in Hn, Hl. rewrite length_app. split_and!; try done.
  - rewrite Hn. rewrite u64_small; lia.
  - lia.
Qed.

(** ** Insertion *)

Lemma wp_value p n v F : value_field n = Some v -> cell p n -∗ (cell p n -∗ F v) -∗ wp (value p) F.
Proof.
  iIntros (Hv) "Hp HF". unfold value. hstep. rewrite Hv. iApply wp_ret. by iApply "HF".
Qed.

(** A leaf of a balanced tree takes a red node, up to the colour of its parent. *)
Lemma leaf_red k z v : balanced (plug k E) -> red_at k (T kRed E z v E).
Proof.
  intros [[n Hb] Hc]. destruct (bal_fits k n E Hb Hc) as (m & Hf & Hm & _). inversion Hm; subst.
  split; [|done]. exists O. split; [done|]. by constructor.
Qed.

Context {K : Type} (KeyOfValue : V -> K) (key_compare : K -> K -> bool).

Definition lt (a b : V) : bool := key_compare (KeyOfValue a) (KeyOfValue b).

(** The side on which the new value goes below the last node of the path. *)
Definition side_ok k (v : V) : Prop :=
  match k with Top => True | Up d _ _ w _ _ => d = if lt v w then SLeft else SRight end.

Lemma final_insert hdr (A B : list (ptr * V)) (a b : ptr * V) : final hdr (A ++ a :: b :: B) = final hdr (A ++ b :: B).
Proof. rewrite !final_app // !final_cons. Qed.

(** The header after the new node [z] is linked below [k]. *)
Lemma wp_link_leaf hdr k z v F :
  hdr <> nullptr -> side_ok k v ->
  cell z (MkNode kRed nullptr nullptr nullptr (Some v)) -∗
  owns_zip γ hdr (first hdr (before k ++ after k)) (final hdr (before k ++ after k)) k nullptr -∗
  (let new := before k ++ (z, v) :: after k in
   cell z (MkNode kRed nullptr nullptr nullptr (Some v)) -∗ owns_zip γ hdr (first hdr new) (final hdr new) k z -∗ F tt) -∗
  wp (link_leaf KeyOfValue key_compare nullptr (above hdr k) z hdr v) F.
Proof.
  iIntros (Hh Hs) "Hz Hk HF". cbn zeta. unfold link_leaf. destruct k as [|d c p w sib k]; cbn [above].
  - rewrite Z.eqb_refl. cbn [orb before after app first final from_option head last fst]. cbn [owns_zip]. hsteps.
    iApply (wp_upd with "Hk"). iIntros "Hk". iApply ("HF" with "Hz Hk").
  - iDestruct "Hk" as "(%Hp & Hp & Hsib & Hk)". iDestruct (zip_notin with "Hp Hk") as %(Hpb & Hpa & Hph).
    iDestruct (zip_header with "Hk") as "[Hh Hk]".
    rewrite (proj2 (Z.eqb_neq _ _) Hph) Z.eqb_refl. cbn [orb Datatypes.negb]. hsteps. iApply wp_bind.
    iApply (wp_value p _ w with "Hp"); [by destruct d|]. iIntros "Hp". hsteps. fold (lt v w). cbn [side_ok] in Hs.
    destruct (lt v w); subst d; cbn [before after nd]; hsteps.
    + set (rest := flat sib ++ after k). rewrite final_insert.
      destruct (before k) as [|[q u] B] eqn:Eb.
      * cbn [app first from_option head fst]. rewrite Z.eqb_refl. iApply (wp_upd with "Hh"). iIntros "Hh".
        iApply ("HF" with "Hz"). cbn [owns_zip nd]. iFrame "Hp Hsib". iSplit; [done|]. by iApply "Hk".
      * cbn [app first from_option head fst]. rewrite (proj2 (Z.eqb_neq p q)); [|set_solver]. iApply wp_ret.
        iApply ("HF" with "Hz"). cbn [owns_zip nd]. iFrame "Hp Hsib". iSplit; [done|]. by iApply "Hk".
    + assert (first hdr ((before k ++ flat sib ++ [(p, w)]) ++ (z, v) :: after k) = first hdr ((before k ++ flat sib ++ [(p, w)]) ++ after k)) as ->.
      { assert (before k ++ flat sib ++ [(p, w)] <> []) by (by destruct (before k), (flat sib)).
        by rewrite !(first_app hdr (before k ++ flat sib ++ [(p, w)])). }
      destruct (after k) as [|[q u] A] eqn:Ea.
      * assert (final hdr ((before k ++ flat sib ++ [(p, w)]) ++ []) = p) as -> by (by rewrite app_nil_r app_assoc final_app).
        rewrite Z.eqb_refl.
        iApply (wp_upd with "Hh"). iIntros "Hh". iApply ("HF" with "Hz"). cbn [owns_zip nd]. iFrame "Hp Hsib". iSplit; [done|].
        rewrite final_app //. by iApply "Hk".
      * rewrite !(final_app hdr (before k ++ flat sib ++ [(p, w)])) //. rewrite (final_cons hdr (z, v)).
        assert (final hdr ((q, u) :: A) <> p) as Hne.
        { unfold final. rewrite last_cons. destruct (last A) as [[q' u']|] eqn:El; cbn; [|set_solver].
          apply last_Some_elem_of in El. intros ->. apply Hpa. cbn. right. apply list_elem_of_fmap. by exists (p, u'). }
        rewrite (proj2 (Z.eqb_neq p _)) //. iApply wp_ret. iApply ("HF" with "Hz").
        cbn [owns_zip nd]. iFrame "Hp Hsib". iSplit; [done|]. rewrite (final_cons hdr) (final_cons z). by iApply "Hk".
Qed.

Lemma wp_insert_aux (t : RbTree) k v F :
  side_ok k v -> balanced (plug k E) -> node_count_ t = Z.of_nat (length (before k ++ after k)) ->
  Z.of_nat (length (before k ++ after k)) + 1 < 2 ^ 64 -> header_ t <> nullptr ->
  linked (header_ t) (plug k E) -∗
  (∀ (t' : RbTree) z, ⌜header_ t' = header_ t⌝ -∗ is_tree t' (before k ++ (z, v) :: after k) -∗ F (t', z)) -∗
  wp (insert_aux KeyOfValue key_compare t nullptr (above (header_ t) k) v) F.
Proof.
  iIntros (Hs Hb Hn Hl Hh) "[Hh Ht] HF". iDestruct (unfold_plug with "Hh Ht") as "[_ Hk]". unfold insert_aux.
  iApply wp_bind. iApply wp_new. iIntros (z Hz) "Hz". iApply wp_bind. rewrite flat_plug. cbn [flat app].
  iApply (wp_link_leaf with "Hz Hk"); [done|done|]. cbn zeta. iIntros "Hz Hk". hsteps. iApply wp_bind.
  iApply (wp_rebalance γ (header_ t) _ _ (fuel_of t) k kRed E z v E with "[Hz] Hk"); [|by apply leaf_red|by iFrame|].
  { rewrite (fuel_enough t _ Hn). pose proof (depth_length k). rewrite length_app. lia. }
  iIntros (t' (Hf & Hbt & Hc)) "Hh Ht". iApply wp_ret. iApply "HF"; [done|]. iExists t'. unfold linked, whole.
  cbn [flat app] in Hf. rewrite Hf. iFrame. iPureIntro. split_and!; try done.
  - cbn. rewrite Hn u64_small; [|lia]. rewrite !length_app. cbn. lia.
  - rewrite length_app in Hl. rewrite length_app. cbn. lia.
Qed.

End class.
End NkRbClass.
