(* ===== verification/NkRbLookup.v ===== *)
(** * Red-black trees: searching, insertion and removal by key *)

From iris.proofmode Require Import proofmode coq_tactics reduction environments.
From iris.base_logic.lib Require Import ghost_map.
From stdpp Require Import base numbers list gmap sorting.
From Stdlib Require Import ZArith Lia.
From S2P Require Import Prelude NodeHeap HeapLogic NkRbTree NkRbInv NkRbInsert NkRbErase NkRbWalk NkRbUnlink NkRbClass.
Import NodeHeap HeapLogic NkRbTree NkRbInv NkRbInsert NkRbErase NkRbWalk NkRbUnlink NkRbClass.

Local Open Scope Z_scope.

Module NkRbLookup.

(** ** Tests that are monotone along a list *)

Section mono.
Context {V : Type}.
Implicit Types (P : V -> bool) (xs : list (ptr * V)).

Definition holds_on (b : bool) P xs : Prop := Forall (fun e => P e.2 = b) xs.
Definition mono P xs : Prop := forall A e B, xs = A ++ e :: B -> P e.2 = true -> holds_on true P B.

Lemma mono_left P A e B : mono P (A ++ e :: B) -> P e.2 = false -> holds_on false P A.
Proof.
  intros Hm He. apply Forall_forall. intros a Ha. apply not_true_is_false. intros Hp.
  apply list_elem_of_split in Ha as (A1 & A2 & ->). rewrite -app_assoc in Hm.
  specialize (Hm A1 a (A2 ++ e :: B) eq_refl Hp). apply Forall_app in Hm as [_ Hm]. apply Forall_cons in Hm as [Hm _]. congruence.
Qed.

(** The elements of a sorted list are related in order. *)
Lemma sorted_mono (R : V -> V -> bool) P xs :
  StronglySorted (fun a b => R a.2 b.2 = true) xs -> (forall a b, R a b = true -> P a = true -> P b = true) -> mono P xs.
Proof.
  intros Hs HR A e B -> He. induction A as [|a A IH]; cbn in Hs.
  - apply StronglySorted_inv in Hs as [_ Hs]. eapply Forall_impl; [exact Hs|]. intros b Hb. by apply (HR e.2).
  - apply StronglySorted_inv in Hs as [Hs _]. auto.
Qed.

End mono.

Section search.
Context {V : Type} {Σ : gFunctors} `{!ghost_mapG Σ Z (RbTreeNode V)} (γ : gname).
Abbreviation cell := (HeapLogic.cell γ).
Abbreviation wp := (HeapLogic.wp γ).
Implicit Types (x y p q hdr lm rm : ptr) (tr : tree V) (k : zip V) (xs : list (ptr * V)) (t : RbTree).

Lemma node_mono k c l p v r : nodes k (T c l p v r) = (before k ++ flat l) ++ (p, v) :: flat r ++ after k.
Proof. unfold nodes. cbn. by rewrite -!app_assoc. Qed.

Lemma wp_bound_loop P hdr lm rm fuel : forall k tr F,
  (height tr < fuel)%nat -> mono P (nodes k tr) -> holds_on false P (before k) -> holds_on true P (after k) ->
  owns γ (above hdr k) tr -∗ owns_zip γ hdr lm rm k (root_of tr) -∗
  (∀ L R, ⌜nodes k tr = L ++ R /\ holds_on false P L /\ holds_on true P R⌝ -∗ whole γ hdr lm rm (plug k tr) -∗ F (first hdr R)) -∗
  wp (bound_loop fuel P (root_of tr) (first hdr (after k))) F.
Proof.
  induction fuel as [|f IH]; intros k tr F Hh Hm Hb Ha; [lia|]. iIntros "Ht Hk HF". cbn [bound_loop].
  destruct tr as [|c l p v r].
  - cbn [root_of]. rewrite Z.eqb_refl. iApply wp_ret. iApply ("HF" $! (before k) (after k) with "[//]").
    by iApply (fold_plug γ hdr lm rm k E with "Ht Hk").
  - iDestruct "Ht" as "(%Hp & Hp & Hl & Hr)". cbn [root_of]. rewrite (proj2 (Z.eqb_neq _ _) Hp).
    rewrite node_mono in Hm. iApply wp_bind. iApply (wp_value γ p _ v with "Hp"); [done|]. iIntros "Hp". cbn [height] in Hh.
    destruct (P v) eqn:Ev; hstep.
    + specialize (Hm _ _ _ eq_refl Ev) as Hra.
      iApply (IH (Up SLeft c p v r k) l with "Hl [Hp Hr Hk]"); [lia| |done| |by iFrame|].
      * unfold nodes. cbn [before after]. by rewrite app_assoc.
      * cbn [after]. constructor; [done|exact Hra].
      * iIntros (L R (HL & HfL & HfR)) "Ht". iApply ("HF" $! L R with "[%] Ht"). split; [|done]. rewrite node_mono -HL.
        unfold nodes. cbn [before after]. by rewrite app_assoc.
    + apply mono_left in Hm as Hbl; [|done]. assert (before (Up SRight c p v l k) ++ flat r ++ after k = (before k ++ flat l) ++ (p, v) :: flat r ++ after k) as En.
      { cbn [before]. by rewrite -!app_assoc. }
      iApply (IH (Up SRight c p v l k) r with "Hr [Hp Hl Hk]"); [lia| | |done|by iFrame|].
      * unfold nodes. cbn [after]. by rewrite En.
      * cbn [before]. rewrite app_assoc. apply Forall_app. split; [exact Hbl|]. by repeat constructor.
      * iIntros (L R (HL & HfL & HfR)) "Ht". iApply ("HF" $! L R with "[%] Ht"). split; [|done]. rewrite node_mono -HL.
        unfold nodes. cbn [after]. by rewrite En.
Qed.

(** ** A node of the tree *)

Lemma whole_notin hdr lm rm tr p v L R : flat tr = L ++ (p, v) :: R ->
  whole γ hdr lm rm tr -∗ ⌜p ∉ L.*1 /\ p ∉ R.*1 /\ p <> hdr⌝.
Proof.
  iIntros (Hf) "[Hh Ht]". destruct (place_of tr p v L R Hf) as (k & c & l & r & -> & <- & <-).
  iDestruct (unfold_plug with "Hh Ht") as "[(_ & Hp & Hl & Hr) Hk]". iDestruct (zip_notin with "Hp Hk") as %(Hb & Ha & Hh).
  iDestruct (owns_notin with "Hp Hl") as %Hl. iDestruct (owns_notin with "Hp Hr") as %Hr. iPureIntro.
  rewrite !fmap_app. set_solver.
Qed.

Lemma wp_node_value hdr lm rm tr p v L R F : flat tr = L ++ (p, v) :: R ->
  whole γ hdr lm rm tr -∗ (whole γ hdr lm rm tr -∗ F v) -∗ wp (value p) F.
Proof.
  iIntros (Hf) "[Hh Ht] HF". destruct (place_of tr p v L R Hf) as (k & c & l & r & -> & _ & _).
  iDestruct (unfold_plug with "Hh Ht") as "[(%Hp & Hp & Hl & Hr) Hk]". iApply (wp_value γ p _ v with "Hp"); [done|].
  iIntros "Hp". iApply "HF". iApply (fold_plug γ hdr lm rm k (T c l p v r) with "[Hp Hl Hr] Hk"). by iFrame.
Qed.

(** ** Insertion *)

Context {K : Type} (KeyOfValue : V -> K) (key_compare : K -> K -> bool).
Abbreviation lt := (NkRbClass.lt KeyOfValue key_compare).
Abbreviation side_ok := (NkRbClass.side_ok KeyOfValue key_compare).

(** The last comparison of the descent. *)
Definition went_left k : bool := match k with Top | Up SLeft _ _ _ _ _ => true | Up SRight _ _ _ _ _ => false end.

(** The descent ends at a leaf that separates the smaller elements from the greater. *)
Lemma wp_insert_loop v hdr lm rm fuel : forall k tr F,
  (height tr < fuel)%nat -> mono (lt v) (nodes k tr) -> side_ok k v ->
  holds_on false (lt v) (before k) -> holds_on true (lt v) (after k) ->
  owns γ (above hdr k) tr -∗ owns_zip γ hdr lm rm k (root_of tr) -∗
  (∀ k', ⌜plug k' E = plug k tr /\ side_ok k' v /\ holds_on false (lt v) (before k') /\ holds_on true (lt v) (after k')⌝ -∗
     whole γ hdr lm rm (plug k' E) -∗ F (above hdr k', went_left k')) -∗
  wp (insert_loop KeyOfValue key_compare fuel v (root_of tr) (above hdr k) (went_left k)) F.
Proof.
  induction fuel as [|f IH]; intros k tr F Hh Hm Hs Hb Ha; [lia|]. iIntros "Ht Hk HF". cbn [insert_loop].
  destruct tr as [|c l p w r].
  - cbn [root_of]. rewrite Z.eqb_refl. iApply wp_ret. iApply ("HF" $! k with "[//]").
    by iApply (fold_plug γ hdr lm rm k E with "Ht Hk").
  - iDestruct "Ht" as "(%Hp & Hp & Hl & Hr)". cbn [root_of]. rewrite (proj2 (Z.eqb_neq _ _) Hp).
    rewrite node_mono in Hm. iApply wp_bind. iApply (wp_value γ p _ w with "Hp"); [done|]. iIntros "Hp". cbn [height] in Hh.
    fold (lt v w). cbn zeta. destruct (lt v w) eqn:Ev; hsteps.
    + specialize (Hm _ _ _ eq_refl Ev) as Hra.
      iApply (IH (Up SLeft c p w r k) l with "Hl [Hp Hr Hk] [HF]"); [lia| | |done| |by iFrame|].
      * unfold nodes. cbn [before after]. by rewrite app_assoc.
      * cbn [NkRbClass.side_ok]. by rewrite Ev.
      * cbn [after]. constructor; [done|exact Hra].
      * iIntros (k' Hk') "Ht". by iApply ("HF" with "[%] Ht").
    + apply mono_left in Hm as Hbl; [|done].
      iApply (IH (Up SRight c p w l k) r with "Hr [Hp Hl Hk] [HF]"); [lia| | | |done|by iFrame|].
      * unfold nodes. cbn [before after]. by rewrite -!app_assoc; rewrite -!app_assoc in Hm.
      * cbn [NkRbClass.side_ok]. by rewrite Ev.
      * cbn [before]. rewrite app_assoc. apply Forall_app. split; [exact Hbl|]. by repeat constructor.
      * iIntros (k' Hk') "Ht". by iApply ("HF" with "[%] Ht").
Qed.

(** The order of the nodes. *)
Definition sorted xs : Prop := StronglySorted (fun a b => lt a.2 b.2 = true) xs.
Definition transitive : Prop := forall a b c, key_compare a b = true -> key_compare b c = true -> key_compare a c = true.

(** Below an element that is smaller than [v], everything is. *)
Lemma sorted_below xs B j w v : transitive -> sorted (B ++ (j, w) :: xs) -> lt w v = true ->
  Forall (fun e => lt e.2 v = true) (B ++ [(j, w)]).
Proof.
  intros Ht Hs Hw. induction B as [|b B IH]; cbn in *; [by repeat constructor|].
  apply StronglySorted_inv in Hs as [Hs Hb]. constructor; [|auto].
  apply Forall_app in Hb as [_ Hb]. apply Forall_cons in Hb as [Hb _]. by apply (Ht _ (KeyOfValue w)).
Qed.

(** The result of [insert_unique]. *)
Definition inserted (t : RbTree) xs v (r : RbTree * ptr * bool) : iProp Σ :=
  (∃ L R (t' : RbTree) z, ⌜xs = L ++ R /\ Forall (fun e => lt e.2 v = true) L /\ Forall (fun e => lt v e.2 = true) R /\
      header_ t' = header_ t /\ r = (t', z, true)⌝ ∗ is_tree γ t' (L ++ (z, v) :: R)) ∨
  (∃ L j w R, ⌜xs = L ++ (j, w) :: R /\ lt v w = false /\ lt w v = false /\ r = (t, j, false)⌝ ∗ is_tree γ t xs).

(** The end of [insert_unique]: the element [j] before the place of [v] is compared. *)
Lemma wp_insert_after (t : RbTree) k v j w B :
  transitive -> side_ok k v -> before k = B ++ [(j, w)] -> sorted (before k ++ after k) ->
  holds_on false (lt v) (before k) -> holds_on true (lt v) (after k) -> balanced (plug k E) ->
  node_count_ t = Z.of_nat (length (before k ++ after k)) -> Z.of_nat (length (before k ++ after k)) + 1 < 2 ^ 64 -> header_ t <> nullptr ->
  linked γ (header_ t) (plug k E) -∗
  wp (let* w := value j in
      if key_compare (KeyOfValue w) (KeyOfValue v) then
        let* tz := insert_aux KeyOfValue key_compare t nullptr (above (header_ t) k) v in ret (tz.1, tz.2, true)
      else ret (t, j, false)) (inserted t (before k ++ after k) v).
Proof.
  iIntros (Htr Hs Hj Hso Hb Ha Hbal Hn Hl Hh) "Ht". iApply wp_bind.
  assert (flat (plug k E) = B ++ (j, w) :: after k) as Ef by (rewrite flat_plug Hj; cbn; by rewrite -app_assoc).
  iApply (wp_node_value with "Ht"); [exact Ef|]. iIntros "Ht". fold (lt w v). destruct (lt w v) eqn:Ew.
  - iApply wp_bind. iApply (wp_insert_aux with "Ht"); [done..|]. iIntros (t' z Et) "Ht". iApply wp_ret. iLeft.
    iExists (before k), (after k), t', z. iFrame. iPureIntro. split_and!; try done.
    rewrite Hj. apply (sorted_below (after k)); [done| |done]. rewrite Hj -app_assoc in Hso. exact Hso.
  - iApply wp_ret. iRight. iExists B, j, w, (after k). iSplit.
    + iPureIntro. split_and!; try done; [by rewrite Hj -app_assoc|]. rewrite Hj in Hb. apply Forall_app in Hb as [_ Hb].
      by apply Forall_cons in Hb as [Hb _].
    + iExists (plug k E). iFrame. iPureIntro. rewrite flat_plug. cbn [flat app]. split_and!; try done. lia.
Qed.

Lemma wp_insert_unique (t : RbTree) xs v :
  transitive -> sorted xs -> Z.of_nat (length xs) + 1 < 2 ^ 64 ->
  is_tree γ t xs -∗ wp (insert_unique KeyOfValue key_compare t v) (inserted t xs v).
Proof.
  iIntros (Htr Hs Hl) "(%tr & [Hh Ht] & %Hf & %Hb & %Hn & _ & %Hhdr)". unfold insert_unique.
  iDestruct (unfold_plug γ (header_ t) _ _ Top tr with "Hh Ht") as "[Ht Hk]".
  iApply (wp_root γ (header_ t) _ _ Top with "Hk"). iIntros "Hk". cbn [top]. iApply wp_bind.
  iApply (wp_insert_loop v (header_ t) _ _ (fuel_of t) Top tr with "Ht Hk"); try done.
  { rewrite (fuel_enough t _ Hn). pose proof (height_flat tr). rewrite Hf in H. lia. }
  { unfold nodes. cbn. rewrite app_nil_r Hf. apply (sorted_mono lt); [done|]. intros a b Hab Hva. by apply (Htr _ (KeyOfValue a)). }
  { constructor. } { constructor. }
  iIntros (k (Ek & Hsk & Hkb & Hka)) "[Hh Ht]". cbn [fst snd]. cbn [plug] in Ek. cbn zeta.
  assert (xs = before k ++ after k) as -> by (by rewrite -Hf -Ek flat_plug).
  rewrite Hf. rewrite -Ek in Hb. unfold begin. iApply wp_bind. iApply (wp_reads γ left with "Hh"). iIntros "Hh". cbn [header left].
  assert (flat (plug k E) = before k ++ after k) as Ef by (by rewrite flat_plug).
  iAssert (linked γ (header_ t) (plug k E)) with "[Hh Ht]" as "Ht"; [unfold linked; rewrite Ef; by iFrame|].
  destruct k as [|d c p w sib k]; [|destruct d].
  - cbn [went_left above before after app first head from_option]. rewrite Z.eqb_refl. cbn [andb]. iApply wp_bind.
    iApply (wp_insert_aux γ KeyOfValue key_compare t Top v with "Ht"); [done..|]. iIntros (t' z Et) "Ht". iApply wp_ret. iLeft.
    iExists [], [], t', z. iFrame. iPureIntro. split_and!; done.
  - cbn [went_left above andb]. set (k1 := Up SLeft c p w sib k) in *. destruct (before k1) as [|b B] eqn:Eb.
    + assert (first (header_ t) ([] ++ after k1) = p) as -> by done. rewrite Z.eqb_refl. iApply wp_bind. rewrite -Eb.
      iApply (wp_insert_aux γ KeyOfValue key_compare t k1 v with "Ht"); [done|done|by rewrite Eb|by rewrite Eb|done|].
      iIntros (t' z Et) "Ht". iApply wp_ret. iLeft. iExists [], (after k1), t', z. rewrite Eb. iFrame. iPureIntro. split_and!; done.
    + rewrite -Eb in Ef, Hs, Hkb, Hn, Hl |- *. assert (exists B' j u, before k1 = B' ++ [(j, u)]) as (B' & j & u & Ej).
      { destruct (exists_last (l := b :: B)) as (B' & [j u] & E'); [done|]. exists B', j, u. by rewrite Eb. }
      iDestruct (whole_notin _ _ _ _ p w (before k1) (flat sib ++ after k) with "Ht") as %(Hp & _); [done|].
      rewrite first_app; [|by rewrite Eb]. rewrite (proj2 (Z.eqb_neq p _)).
      2: { rewrite Eb. destruct b as [q u']. cbn. rewrite Eb in Hp. cbn in Hp. set_solver. }
      iApply wp_bind. iApply (wp_decrement γ (header_ t) _ _ _ _ p w (before k1) (flat sib ++ after k) with "Ht").
      { done. } { exact (proj2 Hb). } { done. } { by rewrite Eb. } { rewrite (fuel_enough t _ Hn) Ef. lia. }
      iIntros "Ht". assert (final (header_ t) (before k1) = j) as -> by (rewrite Ej final_app; done).
      iApply (wp_insert_after t k1 v j u B' with "Ht"); done.
  - cbn [went_left above andb]. set (k1 := Up SRight c p w sib k) in *. hsteps.
    assert (before k1 = (before k ++ flat sib) ++ [(p, w)]) as Eb by (cbn; by rewrite app_assoc).
    iApply (wp_insert_after t k1 v p w with "Ht"); done.
Qed.

(** ** Searching *)

Abbreviation below key := (fun w => key_compare (KeyOfValue w) key).
Abbreviation beyond key := (fun w => key_compare key (KeyOfValue w)).

Lemma wp_bound_with fuel (t : RbTree) xs P F : mono P xs ->
  (forall tr, flat tr = xs -> balanced tr -> (height tr < fuel)%nat) ->
  is_tree γ t xs -∗
  (∀ L R, ⌜xs = L ++ R /\ holds_on false P L /\ holds_on true P R⌝ -∗ is_tree γ t xs -∗ F (first (header_ t) R)) -∗
  wp (let* r := root (header_ t) in bound_loop fuel P r (header_ t)) F.
Proof.
  iIntros (Hm Hfuel) "(%tr & [Hh Ht] & %Hf & %Hb & %Hn & %Hl & %Hhdr) HF".
  iDestruct (unfold_plug γ (header_ t) _ _ Top tr with "Hh Ht") as "[Ht Hk]".
  iApply (wp_root γ (header_ t) _ _ Top with "Hk"). iIntros "Hk". cbn [top].
  assert (nodes Top tr = xs) as En by (unfold nodes; cbn; by rewrite app_nil_r).
  iApply (wp_bound_loop P (header_ t) _ _ fuel Top tr with "Ht Hk").
  { by apply Hfuel. } { by rewrite En. } { constructor. } { constructor. }
  rewrite En. iIntros (L R HLR) "Ht". iApply ("HF" with "[//]"). iExists tr. by iFrame.
Qed.

Lemma wp_bound (t : RbTree) xs P F : mono P xs ->
  is_tree γ t xs -∗
  (∀ L R, ⌜xs = L ++ R /\ holds_on false P L /\ holds_on true P R⌝ -∗ is_tree γ t xs -∗ F (first (header_ t) R)) -∗
  wp (let* r := root (header_ t) in bound_loop (fuel_of t) P r (header_ t)) F.
Proof.
  iIntros (Hm) "Ht HF". iAssert (⌜node_count_ t = Z.of_nat (length xs)⌝)%I as %Hn; [by iDestruct "Ht" as "(% & _ & _ & _ & % & _)"|].
  iApply (wp_bound_with with "Ht HF"); [done|]. intros tr Hf _. rewrite (fuel_enough t _ Hn) -Hf. pose proof (height_flat tr). lia.
Qed.

Lemma lower_mono key xs : transitive -> sorted xs -> mono (fun w => Datatypes.negb (below key w)) xs.
Proof.
  intros Htr Hs. apply (sorted_mono lt); [done|]. intros a b Hab. rewrite !negb_true_iff. intros Ha.
  apply not_true_is_false. intros Hb. rewrite (Htr _ _ _ Hab Hb) in Ha. done.
Qed.

Lemma upper_mono key xs : transitive -> sorted xs -> mono (beyond key) xs.
Proof. intros Htr Hs. apply (sorted_mono lt); [done|]. intros a b Hab Ha. by apply (Htr _ _ _ Ha Hab). Qed.

Lemma not_below b key xs : holds_on b (fun w => Datatypes.negb (below key w)) xs <-> holds_on (Datatypes.negb b) (below key) xs.
Proof. apply Forall_proper; [|done]. intros e. destruct b, (key_compare (KeyOfValue e.2) key); done. Qed.

(** The result of [find]. *)
Definition found (t : RbTree) xs key (r : ptr) : Prop :=
  (exists L j w R, xs = L ++ (j, w) :: R /\ below key w = false /\ beyond key w = false /\ r = j) \/
  (Forall (fun e => below key e.2 = true \/ beyond key e.2 = true) xs /\ r = header_ t).

Lemma is_tree_notin (t : RbTree) p v L R : is_tree γ t (L ++ (p, v) :: R) -∗ ⌜p ∉ L.*1 /\ p ∉ R.*1 /\ p <> header_ t⌝.
Proof. iIntros "(%tr & Ht & %Hf & _)". by iApply (whole_notin with "Ht"). Qed.

Lemma wp_find (t : RbTree) xs key F : transitive -> sorted xs ->
  is_tree γ t xs -∗ (∀ r, ⌜found t xs key r⌝ -∗ is_tree γ t xs -∗ F r) -∗ wp (find KeyOfValue key_compare t key) F.
Proof.
  iIntros (Htr Hs) "Ht HF". unfold find. iApply wp_eq; [|iApply wp_bind; iApply (wp_bound t xs with "Ht")].
  { intros h. unfold bind. by destruct (root (header_ t) h). }
  { by apply lower_mono. }
  iIntros (L R (Ex & HL & HR)) "Ht". apply not_below in HL, HR. cbn [Datatypes.negb] in HL, HR. unfold end_.
  destruct R as [|[j w] R].
  - cbn [first from_option head]. rewrite Z.eqb_refl. iApply wp_ret. iApply ("HF" with "[%] Ht"). right. split; [|done].
    rewrite Ex app_nil_r. eapply Forall_impl; [exact HL|]. by left.
  - cbn [first from_option head fst]. rewrite Ex. iDestruct (is_tree_notin with "Ht") as %(_ & _ & Hj).
    rewrite (proj2 (Z.eqb_neq _ _) Hj). iApply wp_bind. iDestruct "Ht" as "(%tr & Ht & %Hf & %Hr)".
    iApply (wp_node_value with "Ht"); [done|]. iIntros "Ht".
    iAssert (is_tree γ t (L ++ (j, w) :: R)) with "[Ht]" as "Ht"; [iExists tr; by iFrame|].
    apply Forall_cons in HR as [Hw HR]. cbn in Hw. destruct (beyond key w) eqn:Eb; iApply wp_ret; iApply ("HF" with "[%] Ht").
    + right. split; [|done]. apply Forall_app. split; [eapply Forall_impl; [exact HL|]; by left|]. constructor; [by right|].
      rewrite Ex in Hs. assert (mono (beyond key) (L ++ (j, w) :: R)) as Hm by (by apply upper_mono).
      eapply Forall_impl; [by eapply Hm|]. by right.
    + left. by exists L, j, w, R.
Qed.

(** ** Removal by key *)

Lemma wp_erase_range hdr L R fuel : forall M (t : RbTree) n F,
  (length M < fuel)%nat -> 0 <= n -> n + Z.of_nat (length M) < 2 ^ 64 -> header_ t = hdr ->
  is_tree γ t (L ++ M ++ R) -∗
  (∀ t' : RbTree, ⌜header_ t' = hdr⌝ -∗ is_tree γ t' (L ++ R) -∗ F (t', n + Z.of_nat (length M))) -∗
  wp (erase_range fuel t (first hdr (M ++ R)) (first hdr R) n) F.
Proof.
  induction fuel as [|f IH]; intros M t n F Hm Hn Hs Hh; [lia|]. iIntros "Ht HF". cbn [erase_range]. destruct M as [|[p v] M].
  - cbn [app length]. rewrite Z.eqb_refl. iApply wp_ret. replace (n + Z.of_nat 0) with n by lia. by iApply ("HF" with "[%] Ht").
  - cbn [app first from_option head fst length] in *. iDestruct (is_tree_notin with "Ht") as %(_ & Hp & Hph).
    rewrite (proj2 (Z.eqb_neq p _)).
    2: { rewrite fmap_app in Hp. unfold first. destruct R as [|[q w] R]; cbn; [congruence|]. cbn in Hp. set_solver. }
    iDestruct "Ht" as "(%tr & Ht & %Hf & %Hb & %Hc & %Hl & %Hnull)". iApply wp_bind.
    iApply (wp_increment γ (header_ t) _ _ _ tr p v L (M ++ R) with "Ht"); [done|done| |].
    { rewrite (fuel_enough t _ Hc) Hf. lia. }
    iIntros "Ht". iApply wp_bind. iApply (wp_erase γ t p v L (M ++ R) with "[Ht]"); [iExists tr; by iFrame|].
    iIntros (t' Et') "Ht". rewrite Hh. rewrite u64_small; [|lia].
    iApply (IH M t' (n + 1) with "Ht"); [lia..|congruence|]. iIntros (t'' Et'') "Ht".
    replace (n + 1 + Z.of_nat (length M)) with (n + Z.of_nat (S (length M))) by lia. by iApply ("HF" with "[%] Ht").
Qed.

(** The nodes before a key, with it, and after it. *)
Definition split_at key xs L C R : Prop :=
  xs = L ++ C ++ R /\ holds_on true (below key) L /\ holds_on false (below key) C /\ holds_on false (beyond key) C /\ holds_on true (beyond key) R.

Lemma split_ranges key xs L R1 L2 R : transitive -> (forall a, key_compare a a = false) -> xs = L ++ R1 -> xs = L2 ++ R ->
  holds_on true (below key) L -> holds_on false (below key) R1 -> holds_on false (beyond key) L2 -> holds_on true (beyond key) R ->
  exists C, split_at key xs L C R /\ R1 = C ++ R.
Proof.
  intros Htr Hirr -> Hx HL HR1 HL2 HR. unfold split_at. apply app_eq_inv in Hx as [(k & -> & ->)|(k & -> & ->)].
  - apply Forall_app in HL as [HL Hk]. apply Forall_app in HR as [Hk' HR]. destruct k as [|e k].
    + exists []. rewrite app_nil_r. cbn. split_and!; try done; constructor.
    + apply Forall_cons in Hk as [He _]. apply Forall_cons in Hk' as [He' _]. cbn in He, He'.
      pose proof (Htr _ _ _ He He') as Hee. by rewrite Hirr in Hee.
  - apply Forall_app in HL2 as [_ Hk]. apply Forall_app in HR1 as [Hk' HR1]. by exists k.
Qed.

Lemma wp_equal_range (t : RbTree) xs key F : transitive -> (forall a, key_compare a a = false) -> sorted xs ->
  is_tree γ t xs -∗
  (∀ L C R, ⌜split_at key xs L C R⌝ -∗ is_tree γ t xs -∗ F (first (header_ t) (C ++ R), first (header_ t) R)) -∗
  wp (equal_range KeyOfValue key_compare t key) F.
Proof.
  iIntros (Htr Hirr Hs) "Ht HF". unfold equal_range. iApply wp_bind. iApply (wp_bound with "Ht"); [by apply lower_mono|].
  iIntros (L R1 (E1 & HL & HR1)) "Ht". apply not_below in HL, HR1. cbn [Datatypes.negb] in HL, HR1.
  iApply wp_bind. iApply (wp_bound with "Ht"); [by apply upper_mono|]. iIntros (L2 R (E2 & HL2 & HR)) "Ht". iApply wp_ret.
  destruct (split_ranges key xs L R1 L2 R) as (C & Hc & ->); try done. by iApply ("HF" with "[%] Ht").
Qed.

Lemma wp_erase_key (t : RbTree) xs key F : transitive -> (forall a, key_compare a a = false) -> sorted xs ->
  is_tree γ t xs -∗
  (∀ L C R (t' : RbTree), ⌜split_at key xs L C R /\ header_ t' = header_ t⌝ -∗ is_tree γ t' (L ++ R) -∗ F (t', Z.of_nat (length C))) -∗
  wp (erase_key KeyOfValue key_compare t key) F.
Proof.
  iIntros (Htr Hirr Hs) "Ht HF". unfold erase_key. iApply wp_bind. iApply (wp_equal_range with "Ht"); try done.
  iIntros (L C R Hc) "Ht". cbn [fst snd]. iDestruct "Ht" as "(%tr & Ht & %Hf & %Hb & %Hn & %Hl & %Hnull)".
  rewrite (fuel_enough t _ Hn). pose proof Hc as (Ex & _). assert (length C <= length xs)%nat by (rewrite Ex !length_app; lia).
  iApply (wp_erase_range (header_ t) L R _ C t 0 with "[Ht]"); [lia|lia|lia|done|..].
  - iExists tr. rewrite -Ex. by iFrame.
  - iIntros (t' Et) "Ht". cbn [Z.add]. by iApply ("HF" with "[%] Ht").
Qed.

End search.
End NkRbLookup.
