(* ===== verification/NkRbCopy.v ===== *)
(** * Red-black trees: clearing, copying and destroying *)

From iris.proofmode Require Import proofmode coq_tactics reduction environments.
From iris.base_logic.lib Require Import ghost_map.
From stdpp Require Import base numbers list gmap.
From Stdlib Require Import ZArith Lia.
From S2P Require Import Prelude NodeHeap HeapLogic NkRbTree NkRbInv NkRbInsert NkRbErase NkRbWalk NkRbUnlink NkRbClass.
Import NodeHeap HeapLogic NkRbTree NkRbInv NkRbInsert NkRbErase NkRbWalk NkRbUnlink NkRbClass.

Local Open Scope Z_scope.

Module NkRbCopy.

Section copying.
Context {V : Type} {Σ : gFunctors} `{!ghost_mapG Σ Z (RbTreeNode V)} (γ : gname).
Abbreviation cell := (HeapLogic.cell γ).
Abbreviation wp := (HeapLogic.wp γ).
Implicit Types (x y p q hdr lm rm : ptr) (tr : tree V) (xs : list (ptr * V)) (t : RbTree).

(** ** Clearing *)

Lemma wp_erase_recursive fuel : forall par tr F, (height tr < fuel)%nat ->
  owns γ par tr -∗ F tt -∗ wp (erase_recursive fuel (root_of tr)) F.
Proof.
  induction fuel as [|f IH]; intros par tr F Hh; [lia|]. iIntros "Ht HF". cbn [erase_recursive].
  destruct tr as [|c l p v r]; cbn [root_of].
  - rewrite Z.eqb_refl. by iApply wp_ret.
  - iDestruct "Ht" as "(%Hp & Hp & Hl & Hr)". rewrite (proj2 (Z.eqb_neq _ _) Hp). cbn [height] in Hh. hstep.
    iApply wp_bind. iApply (IH with "Hr"); [lia|]. hstep. iApply wp_bind. iApply (wp_delete with "Hp").
    iApply (IH with "Hl"); [lia|]. done.
Qed.

Lemma wp_clear (t : RbTree) xs F :
  is_tree γ t xs -∗ (∀ t' : RbTree, ⌜header_ t' = header_ t⌝ -∗ is_tree γ t' [] -∗ F t') -∗ wp (clear t) F.
Proof.
  iIntros "(%tr & [Hh Ht] & %Hf & %Hb & %Hn & %Hl & %Hnull) HF". unfold clear. rewrite Hn.
  destruct xs as [|e xs].
  - cbn. iApply wp_ret. iApply "HF"; [done|]. iExists tr. unfold linked, whole. by iFrame.
  - rewrite (proj2 (Z.eqb_neq _ _)); [|cbn; lia]. cbn [Datatypes.negb]. unfold root. hstep. iApply wp_bind.
    iApply (wp_erase_recursive with "Ht").
    { rewrite (fuel_enough t _ Hn) -Hf. pose proof (height_flat tr). lia. }
    hsteps. iApply wp_ret. iApply "HF"; [done|]. iExists E. unfold linked, whole. cbn. iFrame. iPureIntro.
    split_and!; try done. split; [|done]. exists O. constructor.
Qed.

Lemma wp_destroy (t : RbTree) xs F : is_tree γ t xs -∗ F tt -∗ wp (destroy t) F.
Proof.
  iIntros "Ht HF". unfold destroy. iApply wp_bind. iApply (wp_clear with "Ht"). iIntros (t' Et) "(%tr & [Hh _] & _)".
  by iApply (wp_delete with "Hh").
Qed.

(** ** Copying *)

(** The same shape, colours and values at other addresses. *)
Fixpoint alike tr tr' : Prop :=
  match tr, tr' with
  | E, E => True
  | T c l _ v r, T c' l' _ v' r' => c = c' /\ v = v' /\ alike l l' /\ alike r r'
  | _, _ => False
  end.

Lemma alike_flat tr : forall tr', alike tr tr' -> (flat tr').*2 = (flat tr).*2.
Proof.
  induction tr as [|c l IHl p v r IHr]; intros [|c' l' p' v' r']; try done. cbn. intros (-> & -> & Hl & Hr).
  rewrite !fmap_app. cbn. by rewrite (IHl _ Hl) (IHr _ Hr).
Qed.

Lemma alike_color tr tr' : alike tr tr' -> color_of tr' = color_of tr.
Proof. destruct tr, tr'; try done. by intros (-> & _). Qed.

Lemma alike_bal n tr : bal n tr -> forall tr', alike tr tr' -> bal n tr'.
Proof.
  induction 1; intros [|c' l' p' v' r']; try done; cbn.
  1: { intros _. constructor. }
  all: intros (<- & <- & Hl & Hr); constructor; auto; by rewrite (alike_color _ _ Hl) || by rewrite (alike_color _ _ Hr).
Qed.

Lemma alike_balanced tr tr' : alike tr tr' -> balanced tr -> balanced tr'.
Proof. intros Ha [[n Hb] Hc]. split; [exists n; by eapply alike_bal|]. by rewrite (alike_color _ _ Ha). Qed.

Lemma wp_clone_node x n v F : value_field n = Some v -> cell x n -∗
  (∀ q, ⌜q <> nullptr⌝ -∗ cell x n -∗ cell q (MkNode (color n) nullptr nullptr nullptr (Some v)) -∗ F q) -∗ wp (clone_node x) F.
Proof.
  iIntros (Hv) "Hx HF". unfold clone_node. iApply wp_bind. iApply (wp_value with "Hx"); [done|]. iIntros "Hx".
  iApply wp_bind. iApply wp_new. iIntros (q Hq) "Hq". hsteps. iApply wp_ret. iApply ("HF" with "[//] Hx Hq").
Qed.

(** The copy of one child, which is linked only when there is one. *)
Lemma wp_copy_child f (d : side) p q n l F :
  sub d n = nullptr ->
  (forall G, l <> E -> owns γ p l -∗ (∀ l', ⌜alike l l'⌝ -∗ owns γ p l -∗ owns γ q l' -∗ G (root_of l')) -∗ wp (copy f (root_of l) q) G) ->
  owns γ p l -∗ cell q n -∗
  (∀ l', ⌜alike l l'⌝ -∗ owns γ p l -∗ owns γ q l' -∗ cell q (set_sub d (root_of l') n) -∗ F tt) -∗
  wp (if Datatypes.negb (root_of l =? nullptr) then let* c := copy f (root_of l) q in upd q (set_sub d c) else ret tt) F.
Proof.
  iIntros (Hn IH) "Hl Hq HF". destruct l as [|c ll u v lr]; cbn [root_of].
  - rewrite Z.eqb_refl. cbn [Datatypes.negb]. iApply wp_ret. iApply ("HF" $! E with "[//] Hl [//]"). cbn [root_of].
    destruct n; destruct d; cbn in *; by subst.
  - iAssert (⌜u <> nullptr⌝)%I as %Hu; [by iDestruct "Hl" as "[% _]"|]. rewrite (proj2 (Z.eqb_neq _ _) Hu). cbn [Datatypes.negb].
    iApply wp_bind. iApply (IH with "Hl"); [done|]. iIntros (l' Ha) "Hl Hl'". iApply (wp_upd with "Hq"). iIntros "Hq".
    by iApply ("HF" with "[%] Hl Hl' Hq").
Qed.

Lemma wp_copy fuel : forall par np tr F, tr <> E -> (height tr <= fuel)%nat ->
  owns γ par tr -∗ (∀ tr', ⌜alike tr tr'⌝ -∗ owns γ par tr -∗ owns γ np tr' -∗ F (root_of tr')) -∗ wp (copy fuel (root_of tr) np) F.
Proof.
  induction fuel as [|f IH]; intros par np [|c l p v r] F Ht Hh; try done; [cbn in Hh; lia|]. iIntros "(%Hp & Hp & Hl & Hr) HF".
  cbn [copy root_of]. cbn [height] in Hh. iApply wp_bind. iApply (wp_clone_node with "Hp"); [done|]. iIntros (q Hq) "Hp Hq". cbn [color].
  hsteps. iApply wp_bind. iApply (wp_copy_child f SLeft p q _ l with "Hl Hq"); [done|intros; iApply IH; [done|lia]|].
  iIntros (l' Hl') "Hl Hl' Hq". cbn [set_sub set_left color parent left right value_field]. hsteps.
  iApply wp_bind. iApply (wp_copy_child f SRight p q _ r with "Hr Hq"); [done|intros; iApply IH; [done|lia]|].
  iIntros (r' Hr') "Hr Hr' Hq". cbn [set_sub set_right color parent left right value_field]. iApply wp_ret.
  iApply ("HF" $! (T c l' q v r') with "[//] [Hp Hl Hr] [Hq Hl' Hr']"); by iFrame.
Qed.

Lemma wp_copy_from (t x : RbTree) xs F :
  is_tree γ t [] -∗ is_tree γ x xs -∗
  (∀ (t' : RbTree) ys, ⌜header_ t' = header_ t /\ ys.*2 = xs.*2⌝ -∗ is_tree γ t' ys -∗ is_tree γ x xs -∗ F t') -∗ wp (copy_from t x) F.
Proof.
  iIntros "(%te & [Hh He] & %Hfe & %Hbe & %Hne & %Hle & %Hnulle) (%tr & [Hx Ht] & %Hf & %Hb & %Hn & %Hl & %Hnull) HF".
  apply flat_nil in Hfe as ->. iClear "He". unfold copy_from, root. hstep. destruct tr as [|c l p v r].
  - cbn [root_of]. rewrite Z.eqb_refl. cbn [Datatypes.negb]. iApply wp_ret. cbn in Hf. subst xs.
    iApply ("HF" $! t [] with "[//] [Hh]"); iExists E; unfold linked, whole; by iFrame.
  - iAssert (⌜p <> nullptr⌝)%I as %Hp; [by iDestruct "Ht" as "[% _]"|]. set (tr := T c l p v r) in *.
    assert ((p =? nullptr) = false) as Ep by (by apply Z.eqb_neq). change (root_of tr) with p. rewrite Ep. cbn [Datatypes.negb].
    pose proof (height_flat tr) as Hht. rewrite Hf in Hht. iApply wp_bind.
    iApply (wp_copy (fuel_of x) (header_ x) (header_ t) tr with "Ht"); [done|rewrite (fuel_enough x _ Hn); lia|].
    iIntros (tr' Ha) "Ht Ht'". pose proof (alike_flat _ _ Ha) as Hfa. assert (tr' <> E) as Hne' by (by destruct tr').
    assert (height tr' <= fuel_of x)%nat as Hht'.
    { pose proof (height_flat tr') as H. rewrite (fuel_enough x _ Hn). rewrite -(length_fmap snd) Hfa length_fmap Hf in H. lia. }
    hsteps. iApply wp_bind. iApply (wp_end γ SLeft with "Ht'"); [done|done|]. iIntros "Ht'". hsteps.
    iApply wp_bind. iApply (wp_end γ SRight with "Ht'"); [done|done|]. iIntros "Ht'". hsteps. iApply wp_ret.
    iApply ("HF" $! (MkTree (node_count_ x) (header_ t)) (flat tr') with "[%] [Hh Ht'] [Hx Ht]").
    + by rewrite Hfa Hf.
    + iExists tr'. unfold linked, whole, header. cbn [end_of header_]. iFrame. iPureIntro.
      assert (length (flat tr') = length xs) as El by (by rewrite -(length_fmap snd) Hfa length_fmap Hf).
      cbn [node_count_ header_]. rewrite El. split_and!; try done. by apply (alike_balanced tr).
    + iExists tr. unfold linked, whole. by iFrame.
Qed.

Lemma wp_copy_tree (x : RbTree) xs F :
  is_tree γ x xs -∗ (∀ (t : RbTree) ys, ⌜ys.*2 = xs.*2⌝ -∗ is_tree γ t ys -∗ is_tree γ x xs -∗ F t) -∗ wp (copy_tree x) F.
Proof.
  iIntros "Hx HF". unfold copy_tree. iApply wp_bind. iApply wp_new_tree. iIntros (t) "Ht".
  iApply (wp_copy_from with "Ht Hx"). iIntros (t' ys [_ Hy]) "Ht Hx". by iApply ("HF" with "[%] Ht Hx").
Qed.

Lemma wp_assign (t x : RbTree) us xs F :
  is_tree γ t us -∗ is_tree γ x xs -∗
  (∀ (t' : RbTree) ys, ⌜header_ t' = header_ t /\ ys.*2 = xs.*2⌝ -∗ is_tree γ t' ys -∗ is_tree γ x xs -∗ F t') -∗ wp (assign t x) F.
Proof.
  iIntros "Ht Hx HF". unfold assign. iAssert (⌜header_ t <> header_ x⌝)%I as %Hne.
  { iDestruct "Ht" as "(%t1 & [H1 _] & _)". iDestruct "Hx" as "(%t2 & [H2 _] & _)". by iApply (cell_ne with "H1 H2"). }
  rewrite (proj2 (Z.eqb_neq _ _) Hne). cbn [Datatypes.negb]. iApply wp_bind. iApply (wp_clear with "Ht"). iIntros (t' Et) "Ht".
  iApply (wp_copy_from with "Ht Hx"). rewrite Et. done.
Qed.

End copying.
End NkRbCopy.
