(* ===== verification/NkRbProps.v ===== *)
(** * Red-black trees: what the class promises

    The statements speak of the heap alone: [repr h t xs] says that the heap [h]
    holds a balanced tree under the object [t] whose nodes are [xs] in order.  The
    proofs are those of the separation logic, taken out of it by [heap_adequacy]. *)

From iris.proofmode Require Import proofmode.
From iris.base_logic.lib Require Import ghost_map.
From stdpp Require Import base numbers list gmap sorting.
From Stdlib Require Import ZArith Lia.
From S2P Require Import Prelude NodeHeap HeapLogic NkRbTree NkRbInv NkRbErase NkRbWalk NkRbUnlink NkRbClass NkRbLookup NkRbCopy.
Import NodeHeap HeapLogic NkRbTree NkRbInv NkRbErase NkRbWalk NkRbUnlink NkRbClass NkRbLookup NkRbCopy.

Local Open Scope Z_scope.

Module NkRbProps.

(** ** Trees in a heap *)

Section repr.
Context {V : Type}.
Abbreviation heap := (gmap Z (RbTreeNode V)).
Implicit Types (xs ys : list (ptr * V)) (h : heap).

Fixpoint cells (par : ptr) (tr : tree V) : list (Z * RbTreeNode V) :=
  match tr with
  | E => []
  | T c l p v r => (p, MkNode c par (root_of l) (root_of r) (Some v)) :: cells p l ++ cells p r
  end.

(** The cells [L] are the object [t] with the nodes [xs]. *)
Definition tree_at (t : RbTree) xs (L : list (Z * RbTreeNode V)) : Prop :=
  exists tr, L = (header_ t, header (first (header_ t) (flat tr)) (final (header_ t) (flat tr)) (root_of tr)) :: cells (header_ t) tr /\
    Forall (fun e => e.1 <> nullptr) (flat tr) /\ flat tr = xs /\ balanced tr /\
    node_count_ t = Z.of_nat (length xs) /\ Z.of_nat (length xs) < 2 ^ 64 /\ header_ t <> nullptr.

Definition repr h (t : RbTree) xs : Prop := exists L, tree_at t xs L /\ holds h L.

Lemma cells_dom tr : forall par, (cells par tr).*1 ≡ₚ (flat tr).*1.
Proof.
  induction tr as [|c l IHl p v r IHr]; intros par; [done|]. cbn [cells flat fmap list_fmap fst]. rewrite !fmap_app /=.
  rewrite IHl IHr. apply Permutation_middle.
Qed.

Lemma tree_at_dom t xs L : tree_at t xs L -> L.*1 ≡ₚ header_ t :: xs.*1.
Proof. intros (tr & -> & _ & <- & _). cbn. by rewrite cells_dom. Qed.

Section logic.
Context {Σ : gFunctors} `{!ghost_mapG Σ Z (RbTreeNode V)} (γ : gname).

Lemma owns_cells tr : forall par,
  owns γ par tr ⊣⊢ ⌜Forall (fun e => e.1 <> nullptr) (flat tr)⌝ ∗ [∗ list] c ∈ cells par tr, cell γ c.1 c.2.
Proof.
  induction tr as [|c l IHl p v r IHr]; intros par; cbn [owns cells flat].
  - rewrite big_sepL_nil right_id. iSplit; [iIntros "_"; iPureIntro; constructor|by iIntros "_"].
  - rewrite IHl IHr big_sepL_cons big_sepL_app. iSplit.
    + iIntros "(%Hp & Hp & [%Hl Hl] & [%Hr Hr])". iFrame. iPureIntro. apply Forall_app. split; [done|]. by constructor.
    + iIntros "(%Hf & Hp & Hl & Hr)". apply Forall_app in Hf as [Hl Hr]. apply Forall_cons in Hr as [Hp Hr]. by iFrame.
Qed.

Lemma is_tree_cells (t : RbTree) xs : is_tree γ t xs ⊣⊢ ∃ L, ⌜tree_at t xs L⌝ ∗ [∗ list] c ∈ L, cell γ c.1 c.2.
Proof.
  unfold is_tree, linked, whole, tree_at. iSplit.
  - iIntros "(%tr & [Hh Ht] & %Hp)". rewrite owns_cells. iDestruct "Ht" as "[%Hn Ht]".
    iExists (_ :: cells (header_ t) tr). iSplit; [iPureIntro; exists tr; split; [reflexivity|]; done|]. by iFrame.
  - iIntros "(%L & (%tr & -> & %Hn & %Hp) & [Hh Ht])". iExists tr. rewrite owns_cells. by iFrame.
Qed.

End logic.

(** The objects outside a tree are not touched. *)
Definition frame (F F' : list ptr) h h' : Prop :=
  forall p n, p ∉ F -> h !! p = Some n -> h' !! p = Some n /\ p ∉ F'.
Definition footprint (t : RbTree) xs : list ptr := header_ t :: xs.*1.

Lemma tree_run {A} (m : M heap A) h (t : RbTree) xs (Q : A -> RbTree -> list (ptr * V) -> Prop) :
  repr h t xs ->
  (forall `{!ghost_mapG Σ Z (RbTreeNode V)} γ, is_tree γ t xs ⊢ wp γ m (fun a => ∃ t' ys, ⌜Q a t' ys⌝ ∗ is_tree γ t' ys)) ->
  exists h' a t' ys, m h = Ret h' a /\ Q a t' ys /\ repr h' t' ys /\ frame (footprint t xs) (footprint t' ys) h h'.
Proof.
  intros (L & HL & Hh) Hm.
  destruct (heap_adequacy m h L (fun a L' => exists t' ys, Q a t' ys /\ tree_at t' ys L') Hh) as (h' & a & L' & E & (t' & ys & HQ & HL') & Hh' & Hf).
  { intros Σ HG γ. iIntros "HL". iApply (wp_wand with "[HL]").
    - iApply Hm. rewrite is_tree_cells. iExists L. by iFrame.
    - iIntros (a) "(%t' & %ys & %HQ & Ht)". rewrite is_tree_cells. iDestruct "Ht" as (L') "[%HL' HL]".
      iExists L'. iFrame. iPureIntro. by exists t', ys. }
  exists h', a, t', ys. split_and!; [done|done|by exists L'|]. intros p n Hp Hn. unfold footprint.
  rewrite -(tree_at_dom _ _ _ HL'). apply Hf; [|done]. by rewrite (tree_at_dom _ _ _ HL).
Qed.

End repr.

(** ** The ordered list that a tree stands for *)

Section spec.
Context {V K : Type} (KeyOfValue : V -> K) (key_compare : K -> K -> bool).
Abbreviation heap := (gmap Z (RbTreeNode V)).
Abbreviation lt := (NkRbClass.lt KeyOfValue key_compare).
Abbreviation sorted := (NkRbLookup.sorted KeyOfValue key_compare).
Implicit Types (xs ys : list (ptr * V)) (h : heap) (v w : V) (key : K) (l : list V).

(** [key_compare] is a strict order. *)
Definition strict_order : Prop := transitive key_compare /\ forall a, key_compare a a = false.

(** Neither is less than the other. *)
Definition equiv key w : bool := negb (key_compare (KeyOfValue w) key) && negb (key_compare key (KeyOfValue w)).

Fixpoint ref_insert v l : list V :=
  match l with
  | [] => [v]
  | w :: l' => if lt w v then w :: ref_insert v l' else if lt v w then v :: l else l
  end.
Definition ref_mem key l : bool := existsb (equiv key) l.
Definition ref_erase key l : list V := List.filter (fun w => negb (equiv key w)) l.

Lemma equiv_true key w : key_compare (KeyOfValue w) key = false -> key_compare key (KeyOfValue w) = false -> equiv key w = true.
Proof. unfold equiv. by intros -> ->. Qed.
Lemma equiv_false key w : key_compare (KeyOfValue w) key = true \/ key_compare key (KeyOfValue w) = true -> equiv key w = false.
Proof. unfold equiv. intros [->| ->]; [done|]. apply andb_false_r. Qed.

Lemma ref_mem_false key (xs : list (ptr * V)) :
  Forall (fun e : ptr * V => key_compare (KeyOfValue e.2) key = true \/ key_compare key (KeyOfValue e.2) = true) xs -> ref_mem key xs.*2 = false.
Proof. unfold ref_mem. induction 1 as [|e xs He Hx IH]; [done|]. cbn. by rewrite (equiv_false _ _ He) IH. Qed.

Lemma ref_mem_true key (L R : list (ptr * V)) j w :
  key_compare (KeyOfValue w) key = false -> key_compare key (KeyOfValue w) = false -> ref_mem key (L ++ (j, w) :: R).*2 = true.
Proof. intros H1 H2. unfold ref_mem. rewrite fmap_app existsb_app. cbn. by rewrite (equiv_true _ _ H1 H2) orb_true_r. Qed.

Section order.
Context (Hord : strict_order).

Lemma asym a b : key_compare a b = true -> key_compare b a = false.
Proof. intros H. apply not_true_is_false. intros H'. destruct Hord as [Ht Hi]. pose proof (Ht a b a H H') as Ha. by rewrite Hi in Ha. Qed.

Lemma ref_insert_new (L R : list (ptr * V)) v :
  Forall (fun e : ptr * V => lt e.2 v = true) L -> Forall (fun e : ptr * V => lt v e.2 = true) R -> ref_insert v (L ++ R).*2 = L.*2 ++ v :: R.*2.
Proof.
  intros HL HR. induction HL as [|e L He _ IH]; cbn; [|by rewrite He IH].
  destruct HR as [|e R He _]; [done|]. cbn. rewrite He. unfold NkRbClass.lt at 1. by rewrite (asym _ _ He).
Qed.

Lemma ref_insert_old (L R : list (ptr * V)) v j w : sorted (L ++ (j, w) :: R) ->
  lt v w = false -> lt w v = false -> ref_insert v (L ++ (j, w) :: R).*2 = (L ++ (j, w) :: R).*2.
Proof.
  intros Hs H1 H2. induction L as [|e L IH]; cbn; [by rewrite H1 H2|]. apply StronglySorted_inv in Hs as [Hs He].
  rewrite (IH Hs). destruct (lt e.2 v) eqn:Ee; [done|]. destruct (lt v e.2) eqn:Ee'; [|done].
  apply Forall_app in He as [_ He]. apply Forall_cons in He as [He _]. destruct Hord as [Ht _].
  pose proof (Ht _ _ _ Ee' He) as Hw. unfold NkRbClass.lt in H1. by rewrite Hw in H1.
Qed.

Lemma sorted_insert (L R : list (ptr * V)) z v : sorted (L ++ R) ->
  Forall (fun e : ptr * V => lt e.2 v = true) L -> Forall (fun e : ptr * V => lt v e.2 = true) R -> sorted (L ++ (z, v) :: R).
Proof.
  unfold NkRbLookup.sorted. rewrite !StronglySorted_app. intros (Hlr & Hl & Hr) HL HR. split_and!; [|done|by constructor].
  intros a b Ha [->|Hb]%elem_of_cons; [by apply (proj1 (Forall_forall _ _) HL)|by apply Hlr].
Qed.

Lemma ref_erase_split key xs L C R : split_at KeyOfValue key_compare key xs L C R -> ref_erase key xs.*2 = (L ++ R).*2 /\ (ref_mem key xs.*2 = true <-> C <> []).
Proof.
  intros (-> & HL & HC1 & HC2 & HR). unfold ref_erase, ref_mem. rewrite !fmap_app !List.filter_app !existsb_app.
  assert (forall (ys : list (ptr * V)), Forall (fun e : ptr * V => equiv key e.2 = false) ys ->
    List.filter (fun w => negb (equiv key w)) ys.*2 = ys.*2 /\ existsb (equiv key) ys.*2 = false) as Hout.
  { induction 1 as [|e ys He _ [IH1 IH2]]; [done|]. cbn. by rewrite He IH1 IH2. }
  destruct (Hout L) as [-> ->]; [eapply Forall_impl; [exact HL|]; intros; apply equiv_false; by left|].
  destruct (Hout R) as [-> ->]; [eapply Forall_impl; [exact HR|]; intros; apply equiv_false; by right|].
  cbn [orb]. rewrite orb_false_r. clear Hout HL HR. destruct C as [|e C]; [by split|].
  assert (List.filter (fun w => negb (equiv key w)) (e :: C).*2 = []) as ->.
  { induction HC1 as [|f C' Hf _ IH]; [done|]. apply Forall_cons in HC2 as [Hf' HC2]. cbn. rewrite (equiv_true _ _ Hf Hf'). auto. }
  split; [done|]. apply Forall_cons in HC1 as [H1 _]. apply Forall_cons in HC2 as [H2 _]. cbn. by rewrite (equiv_true _ _ H1 H2).
Qed.

Lemma sorted_split (L C R : list (ptr * V)) : sorted (L ++ C ++ R) -> sorted (L ++ R).
Proof. unfold NkRbLookup.sorted. rewrite !StronglySorted_app. set_solver. Qed.

(** ** The operations on a heap *)

(** What [insert_unique] leaves: the nodes [ys], the old ones among them. *)
Definition insert_post xs v (r : RbTree * ptr * bool) (t t' : RbTree) ys : Prop :=
  r.1.1 = t' /\ header_ t' = header_ t /\ sorted ys /\ ys.*2 = ref_insert v xs.*2 /\
  r.2 = negb (ref_mem (KeyOfValue v) xs.*2) /\ xs `sublist_of` ys /\ (length ys <= S (length xs))%nat /\
  exists w, (r.1.2, w) ∈ ys /\ equiv (KeyOfValue v) w = true.

Lemma insert_run h (t : RbTree) xs v : repr h t xs -> sorted xs -> Z.of_nat (length xs) + 1 < 2 ^ 64 ->
  exists h' r t' ys, insert_unique KeyOfValue key_compare t v h = Ret h' r /\ insert_post xs v r t t' ys /\ repr h' t' ys /\
    frame (footprint t xs) (footprint t' ys) h h'.
Proof.
  intros Hr Hs Hl. apply (tree_run _ h t xs (fun r t' ys => insert_post xs v r t t' ys) Hr). intros Σ HG γ. iIntros "Ht".
  iApply (wp_wand with "[Ht]"); [by iApply (wp_insert_unique γ KeyOfValue key_compare t xs v (proj1 Hord) Hs Hl with "Ht")|].
  iIntros (r) "[(%L & %R & %t' & %z & %Hp & Ht)|(%L & %j & %w & %R & %Hp & Ht)]".
  - destruct Hp as (-> & HL & HR & Eh & ->). iExists t', (L ++ (z, v) :: R). iFrame. iPureIntro. unfold insert_post. cbn [fst snd]. split_and!; try done.
    + by apply sorted_insert.
    + by rewrite ref_insert_new // fmap_app.
    + rewrite ref_mem_false //. apply Forall_app. split; [eapply Forall_impl; [exact HL|]; by left|].
      eapply Forall_impl; [exact HR|]. by right.
    + apply sublist_app; [done|]. by constructor.
    + rewrite !length_app. cbn. lia.
    + exists v. split; [set_solver|]. unfold equiv. by rewrite (proj2 Hord).
  - destruct Hp as (-> & H1 & H2 & ->). iExists t, (L ++ (j, w) :: R). iFrame. iPureIntro. unfold insert_post. cbn [fst snd]. split_and!; try done.
    + by rewrite ref_insert_old.
    + by rewrite ref_mem_true.
    + lia.
    + exists w. split; [set_solver|]. by apply equiv_true.
Qed.

Lemma erase_run h (t : RbTree) xs key : repr h t xs -> sorted xs ->
  exists h' t' n ys, erase_key KeyOfValue key_compare t key h = Ret h' (t', n) /\ repr h' t' ys /\ sorted ys /\ header_ t' = header_ t /\
    ys.*2 = ref_erase key xs.*2 /\ n = Z.of_nat (length xs) - Z.of_nat (length ys) /\ ys `sublist_of` xs /\
    frame (footprint t xs) (footprint t' ys) h h'.
Proof.
  intros Hr Hs.
  destruct (tree_run (erase_key KeyOfValue key_compare t key) h t xs (fun r t' ys => exists L C R, split_at KeyOfValue key_compare key xs L C R /\ r = (t', Z.of_nat (length C)) /\
      header_ t' = header_ t /\ ys = L ++ R) Hr) as (h' & r & t' & ys & E & (L & C & R & Hx & -> & Eh & ->) & Hr' & Hf).
  { intros Σ HG γ. iIntros "Ht". iApply (wp_erase_key with "Ht"); [apply Hord|apply Hord|done|].
    iIntros (L C R t' [Hx Eh]) "Ht". iExists t', (L ++ R). iFrame. iPureIntro. by exists L, C, R. }
  exists h', t', (Z.of_nat (length C)), (L ++ R). pose proof (ref_erase_split key xs L C R Hx) as [Ee _].
  destruct Hx as (-> & _). split_and!; try done.
  - by eapply sorted_split.
  - rewrite !length_app. lia.
  - apply sublist_app; [done|]. by apply sublist_inserts_l.
Qed.

Lemma find_run h (t : RbTree) xs key : repr h t xs -> sorted xs ->
  exists h' r, find KeyOfValue key_compare t key h = Ret h' r /\ repr h' t xs /\ found KeyOfValue key_compare t xs key r /\ (r <> end_ t <-> ref_mem key xs.*2 = true).
Proof.
  intros Hr Hs.
  destruct (tree_run (find KeyOfValue key_compare t key) h t xs (fun r t' ys => t' = t /\ ys = xs /\ found KeyOfValue key_compare t xs key r /\
      (r <> end_ t <-> ref_mem key xs.*2 = true)) Hr) as (h' & r & t' & ys & E & (-> & -> & Hfo & Hm) & Hr' & _).
  { intros Σ HG γ. iIntros "Ht". iApply (wp_find with "Ht"); [apply Hord|done|]. iIntros (r Hfo) "Ht".
    iAssert (⌜r <> end_ t <-> ref_mem key xs.*2 = true⌝)%I as %Hm.
    { destruct Hfo as [(L & j & w & R & -> & H1 & H2 & ->)|[Hn ->]].
      - iDestruct (is_tree_notin with "Ht") as %(_ & _ & Hj). iPureIntro. by rewrite ref_mem_true.
      - iPureIntro. rewrite ref_mem_false //. }
    iExists t, xs. iFrame. done. }
  by exists h', r.
Qed.

Lemma clear_run h (t : RbTree) xs : repr h t xs -> exists h' t', clear t h = Ret h' t' /\ repr h' t' [] /\ header_ t' = header_ t.
Proof.
  intros Hr. destruct (tree_run (clear t) h t xs (fun r t' ys => r = t' /\ ys = [] /\ header_ t' = header_ t) Hr)
    as (h' & r & t' & ys & E & (-> & -> & Eh) & Hr' & _); [|by exists h', t'].
  intros Σ HG γ. iIntros "Ht". iApply (wp_clear with "Ht"). iIntros (t' Eh) "Ht". iExists t', []. by iFrame.
Qed.

End order.
End spec.

(** ** Programs over nk_std::set *)

Section programs.
Context {K : Type} (key_compare : K -> K -> bool).
Abbreviation heap := (gmap Z (RbTreeNode K)).

Inductive set_op := Insert (x : K) | Erase (x : K) | Count (x : K) | Clear.

(** One call; an insertion reports 1 when it added an element. *)
Definition run_op (t : RbTree) (o : set_op) : M heap (RbTree * Z) :=
  match o with
  | Insert x => let* r := set_insert key_compare t x in ret (r.1.1, Z.b2z r.2)
  | Erase x => set_erase key_compare t x
  | Count x => let* n := set_count key_compare t x in ret (t, n)
  | Clear => let* t' := set_clear t in ret (t', 0)
  end.

Fixpoint run_ops (t : RbTree) (os : list set_op) : M heap (RbTree * list Z) :=
  match os with
  | [] => ret (t, [])
  | o :: os => let* r := run_op t o in let* rs := run_ops r.1 os in ret (rs.1, r.2 :: rs.2)
  end.

(** The same on an ordered list. *)
Definition ref_op (l : list K) (o : set_op) : list K * Z :=
  let ins := ref_insert (fun x => x) key_compare in
  let mem := ref_mem (fun x => x) key_compare in
  let del := ref_erase (fun x => x) key_compare in
  match o with
  | Insert x => (ins x l, Z.b2z (negb (mem x l)))
  | Erase x => (del x l, Z.of_nat (length l) - Z.of_nat (length (del x l)))
  | Count x => (l, Z.b2z (mem x l))
  | Clear => ([], 0)
  end.

Fixpoint ref_ops (l : list K) (os : list set_op) : list K * list Z :=
  match os with
  | [] => (l, [])
  | o :: os => let r := ref_op l o in let rs := ref_ops r.1 os in (rs.1, r.2 :: rs.2)
  end.

Context (Hord : strict_order key_compare).
Abbreviation sorted := (NkRbLookup.sorted (fun x : K => x) key_compare).

Lemma run_op_refines h (t : RbTree) xs o : repr h t xs -> sorted xs -> Z.of_nat (length xs) + 1 < 2 ^ 64 ->
  exists h' t' ys, run_op t o h = Ret h' (t', (ref_op xs.*2 o).2) /\ repr h' t' ys /\ sorted ys /\
    ys.*2 = (ref_op xs.*2 o).1 /\ (length ys <= S (length xs))%nat.
Proof.
  intros Hr Hs Hl. destruct o as [x|x|x|]; cbn [run_op].
  - destruct (insert_run _ _ Hord h t xs x Hr Hs Hl) as (h' & r & t' & ys & Er & (<- & _ & Hs' & Hy & Hm & _ & Hle & _) & Hr' & _).
    exists h', r.1.1, ys. unfold set_insert, bind. by rewrite Er Hm.
  - destruct (erase_run _ _ Hord h t xs x Hr Hs) as (h' & t' & n & ys & Er & Hr' & Hs' & _ & Hy & -> & Hsub & _).
    exists h', t', ys. unfold set_erase. rewrite Er. cbn. rewrite -Hy !length_fmap. split_and!; try done.
    apply sublist_length in Hsub. lia.
  - destruct (find_run _ _ Hord h t xs x Hr Hs) as (h' & r & Er & Hr' & _ & Hm). exists h', t, xs.
    unfold set_count, set_find, bind. rewrite Er. cbn. split_and!; try done; [|lia]. f_equal. f_equal.
    destruct (r =? end_ t) eqn:Ee, (ref_mem _ _ _ _); try done; exfalso.
    + apply Z.eqb_eq in Ee. by apply (proj2 Hm).
    + apply Z.eqb_neq in Ee. by apply Hm in Ee.
  - destruct (clear_run h t xs Hr) as (h' & t' & Er & Hr' & _). exists h', t', []. unfold set_clear, bind. rewrite Er. cbn.
    split_and!; try done; [constructor|lia].
Qed.

Lemma run_ops_refine os : forall h (t : RbTree) xs, repr h t xs -> sorted xs -> Z.of_nat (length xs) + Z.of_nat (length os) < 2 ^ 64 ->
  exists h' t' ys, run_ops t os h = Ret h' (t', (ref_ops xs.*2 os).2) /\ repr h' t' ys /\ sorted ys /\ ys.*2 = (ref_ops xs.*2 os).1.
Proof.
  induction os as [|o os IH]; intros h t xs Hr Hs Hl; cbn [run_ops ref_ops]; [by exists h, t, xs|]. cbn [length] in Hl.
  destruct (run_op_refines h t xs o Hr Hs) as (h1 & t1 & ys & E1 & Hr1 & Hs1 & Hy & Hle); [lia|].
  destruct (IH h1 t1 ys Hr1 Hs1) as (h2 & t2 & zs & E2 & Hr2 & Hs2 & Hz); [lia|]. rewrite Hy in E2, Hz.
  exists h2, t2, zs. unfold bind at 1. rewrite E1. cbn. unfold bind. by rewrite E2.
Qed.

Lemma new_tree_run (h : heap) : exists h' t, new_tree h = Ret h' t /\ repr h' t [].
Proof.
  destruct (heap_adequacy new_tree h [] (fun t L' => tree_at t [] L')) as (h' & t & L' & E & HL & Hh & _).
  - split; [|constructor]. cbn. constructor.
  - intros Σ HG γ. iIntros "_". iApply wp_new_tree. iIntros (t) "Ht". rewrite is_tree_cells. iDestruct "Ht" as (L) "[%HL Hc]".
    iExists L. by iFrame.
  - exists h', t. split; [done|]. by exists L'.
Qed.

End programs.

(** ** Iteration *)

Section iteration.
Context {V : Type}.
Abbreviation heap := (gmap Z (RbTreeNode V)).

(** [for (auto& v : tree)], collecting what it visits. *)
Fixpoint visit (fuel : nat) (t : RbTree) (it : ptr) : M heap (list V) :=
  match fuel with
  | O => halt_with Diverges
  | S f =>
      if it =? end_ t then ret []
      else
        let* v := value it in
        let* next := increment (fuel_of t) it in
        let* vs := visit f t next in ret (v :: vs)
  end.
Definition for_each (t : RbTree) : M heap (list V) := let* it := begin t in visit (fuel_of t) t it.

(** The same from the last element back to the first: from [end()], decrement and read until [begin()]. *)
Fixpoint visit_back (fuel : nat) (t : RbTree) (it : ptr) : M heap (list V) :=
  match fuel with
  | O => halt_with Diverges
  | S f =>
      let* b := begin t in
      if it =? b then ret []
      else
        let* prev := decrement (fuel_of t) it in
        let* v := value prev in
        let* vs := visit_back f t prev in ret (v :: vs)
  end.

Section logic.
Context {Σ : gFunctors} `{!ghost_mapG Σ Z (RbTreeNode V)} (γ : gname).

Lemma wp_visit (t : RbTree) xs fuel : forall L R F, xs = L ++ R -> (length R < fuel)%nat ->
  is_tree γ t xs -∗ (is_tree γ t xs -∗ F R.*2) -∗ wp γ (visit fuel t (first (header_ t) R)) F.
Proof.
  induction fuel as [|f IH]; intros L R F Hx Hl; [lia|]. iIntros "Ht HF". cbn [visit]. unfold end_.
  destruct R as [|[p v] R]; cbn [first head from_option fst].
  - rewrite Z.eqb_refl. iApply wp_ret. by iApply "HF".
  - iEval (rewrite Hx) in "Ht". iDestruct (is_tree_notin with "Ht") as %(_ & _ & Hp). rewrite (proj2 (Z.eqb_neq _ _) Hp).
    iDestruct "Ht" as "(%tr & Ht & %Hf & %Hb & %Hn & %Hs & %Hnull)". iApply wp_bind.
    iApply (wp_node_value with "Ht"); [done|]. iIntros "Ht". iApply wp_bind.
    iApply (wp_increment with "Ht"); [done|done|rewrite (fuel_enough t _ Hn) Hf; lia|]. iIntros "Ht".
    iApply wp_bind. iApply (IH (L ++ [(p, v)]) R with "[Ht]"); [by rewrite -app_assoc|cbn in Hl; lia| |].
    + iExists tr. rewrite Hx. by iFrame.
    + iIntros "Ht". iApply wp_ret. by iApply "HF".
Qed.

Lemma wp_for_each (t : RbTree) xs F : is_tree γ t xs -∗ (is_tree γ t xs -∗ F xs.*2) -∗ wp γ (for_each t) F.
Proof.
  iIntros "(%tr & [Hh Ht] & %Hf & %Hb & %Hn & %Hs & %Hnull) HF". unfold for_each, begin. iApply wp_bind.
  iApply (wp_reads γ left with "Hh"). iIntros "Hh". cbn [header left]. rewrite Hf.
  iApply (wp_visit t xs (fuel_of t) [] xs with "[Hh Ht]"); [done|rewrite (fuel_enough t _ Hn); lia| |done].
  iExists tr. unfold linked, whole. rewrite Hf. by iFrame.
Qed.

(** [--end()] is the last node: the header is red and is the parent of its parent. *)
Lemma wp_decrement_end hdr lm rm fuel (tr : tree V) F : tr <> E ->
  whole γ hdr lm rm tr -∗ (whole γ hdr lm rm tr -∗ F rm) -∗ wp γ (decrement fuel hdr) F.
Proof.
  iIntros (Ht) "[Hh Ht] HF". destruct tr as [|c l p v r]; [done|]. iDestruct "Ht" as "(%Hp & Hp & Hl & Hr)".
  cbn [root_of]. unfold decrement. hsteps. rewrite bool_decide_true //. hsteps. rewrite Z.eqb_refl. cbn iota.
  iApply (wp_reads γ right with "Hh"). iIntros "Hh". iApply "HF". unfold whole. cbn [root_of owns]. by iFrame.
Qed.

Lemma first_other hdr (R : list (ptr * V)) p : p ∉ R.*1 -> p <> hdr -> first hdr R <> p.
Proof. destruct R as [|[q w] R]; cbn; [done|]. set_solver. Qed.

(** The node before a position that is not the first. *)
Lemma wp_decrement_at (t : RbTree) L q w R F :
  is_tree γ t (L ++ (q, w) :: R) -∗ (is_tree γ t (L ++ (q, w) :: R) -∗ F q) -∗
  wp γ (decrement (fuel_of t) (first (header_ t) R)) F.
Proof.
  iIntros "(%tr & Ht & %Hf & %Hb & %Hn & %Hs & %Hnull) HF". destruct R as [|[p v] R]; cbn [first head from_option fst].
  - iApply (wp_decrement_end with "Ht"); [intros ->; by destruct L|]. iIntros "Ht".
    assert (final (header_ t) (flat tr) = q) as Eq by (by rewrite Hf final_app). iEval (rewrite Eq).
    iApply "HF". iExists tr. by iFrame.
  - iApply (wp_decrement γ (header_ t) _ _ _ tr p v (L ++ [(q, w)]) R with "Ht").
    { done. } { exact (proj2 Hb). } { by rewrite Hf -app_assoc. } { by destruct L. } { rewrite (fuel_enough t _ Hn) Hf. lia. }
    iIntros "Ht". rewrite final_app //. iApply "HF". iExists tr. by iFrame.
Qed.

Lemma wp_visit_back (t : RbTree) xs fuel : forall L R F, xs = L ++ R -> (length L < fuel)%nat ->
  is_tree γ t xs -∗ (is_tree γ t xs -∗ F (rev L.*2)) -∗ wp γ (visit_back fuel t (first (header_ t) R)) F.
Proof.
  induction fuel as [|f IH]; intros L R F Hx Hl; [lia|]. cbn [visit_back].
  iIntros "(%tr & [Hh Ht] & %Hf & %Hb & %Hn & %Hs & %Hnull) HF". unfold begin. iApply wp_bind.
  iApply (wp_reads γ left with "Hh"). iIntros "Hh". cbn [header left]. rewrite Hf.
  iAssert (is_tree γ t xs) with "[Hh Ht]" as "Ht"; [iExists tr; unfold linked, whole; rewrite Hf; by iFrame|].
  destruct L as [|[e u] L0].
  - rewrite Hx. rewrite Z.eqb_refl. iApply wp_ret. by iApply "HF".
  - iEval (rewrite Hx) in "Ht". iDestruct (is_tree_notin _ _ e u [] (L0 ++ R) with "Ht") as %(_ & He & Heh).
    assert (first (header_ t) xs = e) as -> by (by rewrite Hx). rewrite fmap_app in He.
    rewrite (proj2 (Z.eqb_neq _ _) (first_other (header_ t) R e ltac:(set_solver) Heh)).
    destruct (exists_last (l := (e, u) :: L0)) as (L' & [q w] & EL); [done|]. rewrite EL -app_assoc. cbn [app].
    iApply wp_bind. iApply (wp_decrement_at with "Ht"). iIntros "(%tr' & Ht & %Hr')".
    iApply wp_bind. iApply (wp_node_value with "Ht"); [apply Hr'|]. iIntros "Ht".
    iAssert (is_tree γ t xs) with "[Ht]" as "Ht"; [rewrite Hx EL -app_assoc; iExists tr'; by iFrame|].
    iApply wp_bind. iApply (IH L' ((q, w) :: R) with "Ht"); [by rewrite Hx EL -app_assoc| |].
    { rewrite EL length_app in Hl. cbn in Hl. lia. }
    iIntros "Ht". iApply wp_ret. rewrite fmap_app rev_app_distr. cbn. by iApply "HF".
Qed.

End logic.
End iteration.

(** ** The depth of a search *)

Section depth.
Context {V : Type}.
Abbreviation heap := (gmap Z (RbTreeNode V)).

(** Twice the logarithm of the number of nodes. *)
Definition depth_bound (n : nat) : nat := 2 * Nat.log2 (S n).

Lemma balanced_depth (tr : tree V) : balanced tr -> (height tr <= depth_bound (length (flat tr)))%nat.
Proof.
  intros [[n Hb] Hc]. pose proof (bal_height n tr Hb) as Hh. rewrite Hc in Hh.
  pose proof (bal_count n tr Hb) as Hn. apply Nat.log2_le_pow2 in Hn; [|lia]. unfold depth_bound. lia.
Qed.

(** The descent of a search, with a number of steps. *)
Definition descend (fuel : nat) (P : V -> bool) (t : RbTree) : M heap ptr :=
  let* r := root (header_ t) in bound_loop fuel P r (header_ t).

Lemma bound_loop_more P f : forall f' x y (h h' : heap) j, (f <= f')%nat -> bound_loop f P x y h = Ret h' j -> bound_loop f' P x y h = Ret h' j.
Proof.
  induction f as [|f IH]; intros f' x y h h' j Hf; [done|]. destruct f' as [|f']; [lia|]. cbn [bound_loop].
  destruct (x =? nullptr); [done|]. unfold bind. destruct (value x h) as [h1 w|]; [|done].
  destruct (P w); destruct (fld _ x h1) as [h2 c|]; try done; apply IH; lia.
Qed.

Lemma descend_run h (t : RbTree) (xs : list (ptr * V)) P : repr h t xs -> mono P xs ->
  exists h' L R, xs = L ++ R /\ holds_on false P L /\ holds_on true P R /\
    forall fuel, (depth_bound (length xs) < fuel)%nat -> descend fuel P t h = Ret h' (first (header_ t) R).
Proof.
  intros Hr Hm. destruct (tree_run (descend (S (depth_bound (length xs))) P t) h t xs (fun r t' ys =>
    exists L R, xs = L ++ R /\ holds_on false P L /\ holds_on true P R /\ r = first (header_ t) R) Hr)
    as (h' & r & t' & ys & E & (L & R & Hx & HL & HR & ->) & _).
  { intros Σ HG γ. iIntros "Ht". iApply (wp_bound_with with "Ht"); [done| |].
    - intros tr <- Hb. pose proof (balanced_depth tr Hb). lia.
    - iIntros (L R HLR) "Ht". iExists t, xs. iFrame. iPureIntro. exists L, R. naive_solver. }
  exists h', L, R. split_and!; try done. intros fuel Hf. revert E. unfold descend, bind.
  destruct (root (header_ t) h) as [h1 x|]; [|done]. apply bound_loop_more. lia.
Qed.

Lemma depth_fuel (n : nat) : (depth_bound n < S (S n))%nat.
Proof.
  unfold depth_bound. assert (forall k, (2 * k <= 2 ^ k)%nat) as Hk.
  { induction k as [|k IH]; [cbn; lia|]. pose proof (Nat.pow_nonzero 2 k). rewrite Nat.pow_succ_r'. lia. }
  pose proof (Nat.log2_spec (S n) ltac:(lia)) as [Hl _]. specialize (Hk (Nat.log2 (S n))). lia.
Qed.

End depth.

(** ** Theorems *)

(** C7: A program of [insert], [erase], [count] and [clear] calls on a fresh nk_std::set returns, reports call by call
    what the same calls report on an ordered list without duplicates, and leaves a balanced
    red-black tree whose nodes hold exactly that list, in order. *)
Theorem set_programs_refine_lists {K : Type} (key_compare : K -> K -> bool) (os : list (set_op (K := K))) :
  strict_order key_compare -> Z.of_nat (length os) < 2 ^ 64 ->
  exists h t ys, (let* t := new_tree in run_ops key_compare t os) ∅ = Ret h (t, (ref_ops key_compare [] os).2) /\
    repr h t ys /\ ys.*2 = (ref_ops key_compare [] os).1 /\ size t = Z.of_nat (length ys).
Proof.
  intros Hord Hl. destruct (new_tree_run (K := K) ∅) as (h0 & t0 & E0 & Hr0).
  destruct (run_ops_refine key_compare Hord os h0 t0 [] Hr0) as (h & t & ys & E & Hr & _ & Hy); [constructor|cbn; lia|].
  exists h, t, ys. unfold bind. rewrite E0 E. split_and!; try done. by destruct Hr as (L & (tr & _ & _ & <- & _ & Hn & _) & _).
Qed.

Lemma ltb_strict : strict_order Z.ltb.
Proof. split; [intros a b c; rewrite !Z.ltb_lt; lia|apply Z.ltb_irrefl]. Qed.

Lemma set_programs_refine_lists_witness :
  exists h t ys, (let* t := new_tree in run_ops Z.ltb t [Insert 5; Insert 3; Insert 5; Erase 5; Count 3; Count 5]) ∅ = Ret h (t, [1; 1; 0; 1; 1; 0]) /\
    repr h t ys /\ ys.*2 = [3] /\ size t = Z.of_nat (length ys).
Proof. exact (set_programs_refine_lists Z.ltb [Insert 5; Insert 3; Insert 5; Erase 5; Count 3; Count 5] ltb_strict ltac:(cbn; lia)). Defined.

(** C29: [insert_unique] returns on every sorted tree: it adds the value, in its place, unless an equivalent one is there, says which, and
    gives the iterator of the element; every node that was in the tree is still there with its value, and no
    other object of the heap is touched. *)
Theorem insert_keeps_iterators {V K : Type} (KeyOfValue : V -> K) (key_compare : K -> K -> bool)
    (h : gmap Z (RbTreeNode V)) (t : RbTree) (xs : list (ptr * V)) (v : V) :
  strict_order key_compare -> repr h t xs -> NkRbLookup.sorted KeyOfValue key_compare xs -> Z.of_nat (length xs) + 1 < 2 ^ 64 ->
  exists h' t' it added ys, insert_unique KeyOfValue key_compare t v h = Ret h' (t', it, added) /\ repr h' t' ys /\
    ys.*2 = ref_insert KeyOfValue key_compare v xs.*2 /\ added = negb (ref_mem KeyOfValue key_compare (KeyOfValue v) xs.*2) /\
    (exists w, (it, w) ∈ ys /\ equiv KeyOfValue key_compare (KeyOfValue v) w = true) /\
    xs `sublist_of` ys /\ frame (footprint t xs) (footprint t' ys) h h'.
Proof.
  intros Ho Hr Hs Hl.
  destruct (insert_run KeyOfValue key_compare Ho h t xs v Hr Hs Hl) as (h' & [[t1 it] b] & t' & ys & E & (<- & _ & _ & Hy & Hm & Hsub & _ & Hw) & Hr' & Hf).
  by exists h', t1, it, b, ys.
Qed.

(** A tree with the elements 3 and 5: the header is at 1, the root at 2. *)
Definition sample : gmap Z (RbTreeNode Z) := {[ 1 := MkNode kRed 2 3 2 None; 2 := MkNode kBlack 1 3 0 (Some 5); 3 := MkNode kRed 2 0 0 (Some 3) ]}.

Lemma sample_repr : repr sample (MkTree 2 1) [(3, 3); (2, 5)].
Proof.
  exists [(1, MkNode kRed 2 3 2 None); (2, MkNode kBlack 1 3 0 (Some 5)); (3, MkNode kRed 2 0 0 (Some 3))]. split.
  - exists (T kBlack (T kRed E 3 3 E) 2 5 E). split_and!; try done; [by repeat constructor|].
    split; [|done]. exists 1%nat. by repeat constructor.
  - split; [by apply (bool_decide_unpack _); vm_compute|]. by repeat constructor.
Qed.

Lemma sample_sorted : NkRbLookup.sorted (fun x => x) Z.ltb [(3, 3); (2, 5)].
Proof. by repeat constructor. Qed.

Lemma insert_keeps_iterators_witness :
  exists h' t' it added ys, insert_unique (fun x => x) Z.ltb (MkTree 2 1) 4 sample = Ret h' (t', it, added) /\ repr h' t' ys /\
    ys.*2 = [3; 4; 5] /\ added = true /\ (exists w, (it, w) ∈ ys /\ equiv (fun x => x) Z.ltb 4 w = true) /\
    [(3, 3); (2, 5)] `sublist_of` ys /\ frame [1; 3; 2] (footprint t' ys) sample h'.
Proof. exact (insert_keeps_iterators (fun x => x) Z.ltb sample (MkTree 2 1) [(3, 3); (2, 5)] 4 ltb_strict sample_repr sample_sorted ltac:(cbn; lia)). Defined.

(** C8: [erase] at the iterator of any node returns and takes out that node and no other: the other nodes keep their
    addresses, values and order, the count goes down by one, and the tree is balanced again; no other
    object of the heap is touched. *)
Theorem erase_takes_out_one {V : Type} (h : gmap Z (RbTreeNode V)) (t : RbTree) (L R : list (ptr * V)) (it : ptr) (v : V) :
  repr h t (L ++ (it, v) :: R) ->
  exists h' t', erase t it h = Ret h' t' /\ repr h' t' (L ++ R) /\ header_ t' = header_ t /\ size t' = size t - 1 /\
    frame (footprint t (L ++ (it, v) :: R)) (footprint t' (L ++ R)) h h'.
Proof.
  intros Hr. pose proof Hr as (C & (tr & _ & _ & _ & _ & Hn & _) & _).
  destruct (tree_run (erase t it) h t _ (fun r t' ys => r = t' /\ ys = L ++ R /\ header_ t' = header_ t) Hr)
    as (h' & r & t' & ys & E & (-> & -> & Eh) & Hr' & Hf).
  { intros Σ HG γ. iIntros "Ht". iApply (wp_erase with "Ht"). iIntros (t' Eh) "Ht". iExists t', (L ++ R). by iFrame. }
  exists h', t'. split_and!; try done. destruct Hr' as (C' & (tr' & _ & _ & _ & _ & Hn' & _) & _). unfold size.
  rewrite Hn Hn' !length_app. cbn. lia.
Qed.

Lemma erase_takes_out_one_witness :
  exists h' t', erase (MkTree 2 1) 2 sample = Ret h' t' /\ repr h' t' [(3, 3)] /\ header_ t' = 1 /\ size t' = 1 /\
    frame [1; 3; 2] (footprint t' [(3, 3)]) sample h'.
Proof. exact (erase_takes_out_one sample (MkTree 2 1) [(3, 3)] [] 2 5 sample_repr). Defined.

(** C9: A search for a key in a sorted tree of [n] nodes goes through at most 2 log2 (n + 1) nodes: with that many steps,
    or more, the descents of [lower_bound] and [upper_bound] end at the first node whose key is not less, and at the first one whose key is
    greater, and both functions return that node. *)
Theorem search_is_logarithmic {V K : Type} (KeyOfValue : V -> K) (key_compare : K -> K -> bool)
    (h : gmap Z (RbTreeNode V)) (t : RbTree) (xs : list (ptr * V)) (key : K) :
  transitive key_compare -> repr h t xs -> NkRbLookup.sorted KeyOfValue key_compare xs ->
  (exists h' L R, xs = L ++ R /\ Forall (fun e => key_compare (KeyOfValue e.2) key = true) L /\ Forall (fun e => key_compare (KeyOfValue e.2) key = false) R /\
     descend (S (2 * Nat.log2 (S (length xs)))) (fun w => negb (key_compare (KeyOfValue w) key)) t h = Ret h' (first (end_ t) R) /\
     lower_bound KeyOfValue key_compare t key h = Ret h' (first (end_ t) R)) /\
  (exists h' L R, xs = L ++ R /\ Forall (fun e => key_compare key (KeyOfValue e.2) = false) L /\ Forall (fun e => key_compare key (KeyOfValue e.2) = true) R /\
     descend (S (2 * Nat.log2 (S (length xs)))) (fun w => key_compare key (KeyOfValue w)) t h = Ret h' (first (end_ t) R) /\
     upper_bound KeyOfValue key_compare t key h = Ret h' (first (end_ t) R)).
Proof.
  intros Htr Hr Hs. assert (node_count_ t = Z.of_nat (length xs)) as Hn by (by destruct Hr as (C & (tr & _ & _ & _ & _ & Hn & _) & _)).
  pose proof (depth_fuel (length xs)) as Hd. rewrite -(fuel_enough t xs Hn) in Hd. split.
  - destruct (descend_run h t xs _ Hr (lower_mono KeyOfValue key_compare key xs Htr Hs)) as (h' & L & R & Hx & HL & HR & Hrun).
    exists h', L, R. apply not_below in HL, HR. split_and!; try done; apply Hrun; [unfold depth_bound; lia|done].
  - destruct (descend_run h t xs _ Hr (upper_mono KeyOfValue key_compare key xs Htr Hs)) as (h' & L & R & Hx & HL & HR & Hrun).
    exists h', L, R. split_and!; try done; apply Hrun; [unfold depth_bound; lia|done].
Qed.

Lemma search_is_logarithmic_witness :
  (exists h' L R, [(3, 3); (2, 5)] = L ++ R /\ Forall (fun e => (e.2 <? 4) = true) L /\ Forall (fun e => (e.2 <? 4) = false) R /\
     descend 3 (fun w => negb (w <? 4)) (MkTree 2 1) sample = Ret h' (first 1 R) /\
     lower_bound (fun x => x) Z.ltb (MkTree 2 1) 4 sample = Ret h' (first 1 R)) /\
  (exists h' L R, [(3, 3); (2, 5)] = L ++ R /\ Forall (fun e => (4 <? e.2) = false) L /\ Forall (fun e => (4 <? e.2) = true) R /\
     descend 3 (fun w => 4 <? w) (MkTree 2 1) sample = Ret h' (first 1 R) /\
     upper_bound (fun x => x) Z.ltb (MkTree 2 1) 4 sample = Ret h' (first 1 R)).
Proof. exact (search_is_logarithmic (fun x => x) Z.ltb sample (MkTree 2 1) [(3, 3); (2, 5)] 4 (proj1 ltb_strict) sample_repr sample_sorted). Defined.

(** A loop from [begin()] to [end()] by increments visits the values of a tree in order and ends, and a loop from [end()] to [begin()] by
    decrements visits them in the opposite order and ends; the tree is as it was. *)
Theorem iteration_both_ways {V : Type} (h : gmap Z (RbTreeNode V)) (t : RbTree) (xs : list (ptr * V)) :
  repr h t xs ->
  (exists h', for_each t h = Ret h' xs.*2 /\ repr h' t xs) /\
  (exists h', visit_back (fuel_of t) t (end_ t) h = Ret h' (rev xs.*2) /\ repr h' t xs).
Proof.
  intros Hr. assert (node_count_ t = Z.of_nat (length xs)) as Hn by (by destruct Hr as (C & (tr & _ & _ & _ & _ & Hn & _) & _)). split.
  - destruct (tree_run (for_each t) h t xs (fun r t' ys => r = xs.*2 /\ t' = t /\ ys = xs) Hr) as (h' & r & t' & ys & E & (-> & -> & ->) & Hr' & _).
    { intros Σ HG γ. iIntros "Ht". iApply (wp_for_each with "Ht"). iIntros "Ht". iExists t, xs. by iFrame. }
    by exists h'.
  - destruct (tree_run (visit_back (fuel_of t) t (end_ t)) h t xs (fun r t' ys => r = rev xs.*2 /\ t' = t /\ ys = xs) Hr)
      as (h' & r & t' & ys & E & (-> & -> & ->) & Hr' & _).
    { intros Σ HG γ. iIntros "Ht". iApply (wp_visit_back γ t xs (fuel_of t) xs [] with "Ht"); [by rewrite app_nil_r|rewrite (fuel_enough t xs Hn); lia|].
      iIntros "Ht". iExists t, xs. by iFrame. }
    by exists h'.
Qed.

Lemma iteration_both_ways_witness :
  (exists h', for_each (MkTree 2 1) sample = Ret h' [3; 5] /\ repr h' (MkTree 2 1) [(3, 3); (2, 5)]) /\
  (exists h', visit_back 4 (MkTree 2 1) 1 sample = Ret h' [5; 3] /\ repr h' (MkTree 2 1) [(3, 3); (2, 5)]).
Proof. exact (iteration_both_ways sample (MkTree 2 1) [(3, 3); (2, 5)] sample_repr). Defined.

(** The copy constructor returns a balanced tree with the same values in the same order, at addresses of its own; the tree that is copied
    keeps its nodes, and no other object of the heap is touched. *)
Theorem copy_is_independent {V : Type} (h : gmap Z (RbTreeNode V)) (x : RbTree) (xs : list (ptr * V)) :
  repr h x xs ->
  exists h' t ys, copy_tree x h = Ret h' t /\ repr h' t ys /\ repr h' x xs /\ ys.*2 = xs.*2 /\ footprint t ys ## footprint x xs /\
    frame (footprint x xs) (footprint t ys) h h'.
Proof.
  intros (L & HL & Hh).
  destruct (heap_adequacy (copy_tree x) h L (fun t L' => exists ys Lx Lt, ys.*2 = xs.*2 /\ tree_at t ys Lt /\ tree_at x xs Lx /\ L' = Lt ++ Lx) Hh)
    as (h' & t & L' & E & (ys & Lx & Lt & Hy & Ht & Hx & ->) & Hh' & Hf).
  { intros Σ HG γ. iIntros "HL". iApply (wp_copy_tree γ x xs with "[HL]"); [rewrite is_tree_cells; iExists L; by iFrame|].
    iIntros (t ys Hy) "Ht Hx". rewrite !is_tree_cells. iDestruct "Ht" as (Lt) "[%Ht Ht]". iDestruct "Hx" as (Lx) "[%Hx Hx]".
    iExists (Lt ++ Lx). rewrite big_sepL_app. iFrame. iPureIntro. by exists ys, Lx, Lt. }
  destruct Hh' as [Hd Hc]. rewrite fmap_app in Hd. apply NoDup_app in Hd as (Hd1 & Hd & Hd2). apply Forall_app in Hc as [Hc1 Hc2].
  exists h', t, ys. unfold footprint. split_and!; try done; [by exists Lt|by exists Lx| |].
  - intros p. rewrite -(tree_at_dom _ _ _ Ht) -(tree_at_dom _ _ _ Hx). apply Hd.
  - intros p n Hp Hn. rewrite -(tree_at_dom _ _ _ HL) in Hp. destruct (Hf p n Hp Hn) as [H1 H2]. split; [done|].
    rewrite -(tree_at_dom _ _ _ Ht). rewrite fmap_app in H2. set_solver.
Qed.

Lemma copy_is_independent_witness :
  exists h' t ys, copy_tree (MkTree 2 1) sample = Ret h' t /\ repr h' t ys /\ repr h' (MkTree 2 1) [(3, 3); (2, 5)] /\ ys.*2 = [3; 5] /\
    footprint t ys ## [1; 3; 2] /\ frame [1; 3; 2] (footprint t ys) sample h'.
Proof. exact (copy_is_independent sample (MkTree 2 1) [(3, 3); (2, 5)] sample_repr). Defined.

End NkRbProps.
