(* ===== verification/NkVector.v ===== *)
(** * nk_std::vector: src/src/libcxx/include/nk_vector

    The vector on a heap of blocks.  A block is a list of slots; a slot is raw
    storage ([None]) or holds an object.  Reading, destroying or assigning a slot
    without an object, and any access to a block that was released or never
    allocated, stop the run.  An iterator is its distance from [begin()].

    The element type is a parameter, with the value that its move leaves behind
    and its size; [refuse] is the memory that [operator new] has not got, when it
    returns the null pointer. *)

From stdpp Require Import base numbers list gmap.
From Stdlib Require Import ZArith Lia.
From S2P Require Import Prelude NodeHeap.
Import NodeHeap.

Local Open Scope Z_scope.

Module NkVector.

Record vector := MkVector { data_ : ptr; size_ : Z; capacity_ : Z }.

Section ops.
Context {T : Type}.
Abbreviation block := (list (option T)).
Abbreviation heap := (gmap Z block).
Abbreviation HM A := (M heap A) (only parsing).
Context (moved : T -> T) (sizeof : Z) (refuse : heap -> Z -> bool).

(** ** Slots *)

(** [::operator new(bytes)] and [::operator delete(p)]. *)
Definition operator_new (bytes : Z) : HM ptr := fun h =>
  if refuse h bytes then Ret h nullptr else new (replicate (Z.to_nat (bytes / sizeof)) None) h.
Definition operator_delete (p : ptr) : HM unit := delete_ p.

(** The object in a slot. *)
Definition object (p : ptr) (i : Z) : HM T :=
  let* b := get p in
  match (if i <? 0 then None else b !! Z.to_nat i) with
  | Some (Some v) => ret v
  | _ => halt_with (BadPointer (p + i * sizeof))
  end.

Definition set_slot (p : ptr) (i : Z) (o : option T) : HM unit :=
  let* b := get p in
  if (0 <=? i) && (i <? Z.of_nat (length b)) then put p (<[Z.to_nat i := o]> b) else halt_with (BadPointer (p + i * sizeof)).

(** [new (p + i) T(v)], [p[i].~T()], [p[i] = v], [T(static_cast<T&&>(p[i]))]. *)
Definition construct (p : ptr) (i : Z) (v : T) : HM unit := set_slot p i (Some v).
Definition destroy_at (p : ptr) (i : Z) : HM unit := let* _ := object p i in set_slot p i None.
Definition assign_at (p : ptr) (i : Z) (v : T) : HM unit := let* _ := object p i in set_slot p i (Some v).
Definition move_from (p : ptr) (i : Z) : HM T :=
  let* v := object p i in
  let* _ := set_slot p i (Some (moved v)) in
  ret v.

(** A reference to an element of a vector, or to something else. *)
Inductive ref := Outside (v : T) | Inside (p : ptr) (i : Z).
Definition deref (r : ref) : HM T := match r with Outside v => ret v | Inside p i => object p i end.

(** [for (i = start; i < start + n; ++i) body] *)
Fixpoint for_range (n : nat) (start : Z) (body : Z -> HM unit) : HM unit :=
  match n with
  | O => ret tt
  | S n' => let* _ := body start in for_range n' (start + 1) body
  end.

(** ** Size and capacity *)

Definition new_vector : vector := MkVector nullptr 0 0.
Definition size (v : vector) : Z := size_ v.
Definition capacity (v : vector) : Z := capacity_ v.
Definition empty (v : vector) : bool := size_ v =? 0.
Definition begin (v : vector) : Z := 0.
Definition end_ (v : vector) : Z := size_ v.

Definition clear (v : vector) : HM vector :=
  let* _ := for_range (Z.to_nat (size_ v)) 0 (destroy_at (data_ v)) in
  ret (MkVector (data_ v) 0 (capacity_ v)).

Definition reserve (v : vector) (new_cap : Z) : HM vector :=
  if capacity_ v <? new_cap then
    let* new_data := operator_new (u64 (new_cap * sizeof)) in
    let* _ := for_range (Z.to_nat (size_ v)) 0 (fun i =>
      let* x := move_from (data_ v) i in
      let* _ := construct new_data i x in
      destroy_at (data_ v) i) in
    let* _ := (if negb (data_ v =? nullptr) then operator_delete (data_ v) else ret tt) in
    ret (MkVector new_data (size_ v) new_cap)
  else ret v.

(** [resize]: the new elements are made by [fill]. *)
Definition resize_with (v : vector) (count : Z) (fill : HM T) : HM vector :=
  if count <? size_ v then
    let* _ := for_range (Z.to_nat (size_ v - count)) count (destroy_at (data_ v)) in
    ret (MkVector (data_ v) count (capacity_ v))
  else if size_ v <? count then
    let* v' := reserve v count in
    let* _ := for_range (Z.to_nat (count - size_ v)) (size_ v) (fun i => let* x := fill in construct (data_ v') i x) in
    ret (MkVector (data_ v') count (capacity_ v'))
  else ret v.
Definition resize (v : vector) (count : Z) (default : T) : HM vector := resize_with v count (ret default).
Definition resize_value (v : vector) (count : Z) (value : ref) : HM vector := resize_with v count (deref value).

(** ** Elements *)

Definition at_ (v : vector) (index : Z) : HM T := object (data_ v) index.
Definition set_at (v : vector) (index : Z) (x : T) : HM unit := assign_at (data_ v) index x.
Definition front (v : vector) : HM T := at_ v 0.
Definition back (v : vector) : HM T := at_ v (u64 (size_ v - 1)).

Definition push_back (v : vector) (value : ref) : HM vector :=
  let* v' := (if size_ v =? capacity_ v then reserve v (if capacity_ v =? 0 then 1 else u64 (capacity_ v * 2)) else ret v) in
  let* x := deref value in
  let* _ := construct (data_ v') (size_ v') x in
  ret (MkVector (data_ v') (u64 (size_ v' + 1)) (capacity_ v')).

Definition pop_back (v : vector) : HM vector :=
  if 0 <? size_ v then
    let* _ := destroy_at (data_ v) (size_ v - 1) in
    ret (MkVector (data_ v) (size_ v - 1) (capacity_ v))
  else ret v.

(** ** Removal *)

(** [erase(pos)]: the vector and the iterator behind the removed element. *)
Definition erase (v : vector) (pos : Z) : HM (vector * Z) :=
  if (pos <? begin v) || (end_ v <=? pos) then ret (v, end_ v)
  else
    let* _ := destroy_at (data_ v) pos in
    let* _ := for_range (Z.to_nat (size_ v - 1 - pos)) pos (fun i =>
      let* x := move_from (data_ v) (i + 1) in
      let* _ := construct (data_ v) i x in
      destroy_at (data_ v) (i + 1)) in
    ret (MkVector (data_ v) (u64 (size_ v - 1)) (capacity_ v), pos).

Definition erase_range (v : vector) (first last : Z) : HM (vector * Z) :=
  if (last <=? first) || (end_ v <=? first) then ret (v, end_ v)
  else
    let count := last - first in
    let* _ := for_range (Z.to_nat count) first (destroy_at (data_ v)) in
    let* _ := for_range (Z.to_nat (size_ v - last)) last (fun i =>
      let* x := move_from (data_ v) i in
      let* _ := construct (data_ v) (i - count) x in
      destroy_at (data_ v) i) in
    ret (MkVector (data_ v) (u64 (size_ v - count)) (capacity_ v), first).

(** The loop of [remove] and [remove_if]: [test] looks at the element at [read]; the result is the new end. *)
Fixpoint compact (n : nat) (p : ptr) (test : T -> HM bool) (read write : Z) : HM Z :=
  match n with
  | O => ret write
  | S n' =>
      let* x := object p read in
      let* gone := test x in
      if gone : bool then compact n' p test (read + 1) write
      else
        let* _ := (if negb (write =? read) then let* y := move_from p read in assign_at p write y else ret tt) in
        compact n' p test (read + 1) (write + 1)
  end.

Definition remove_with (v : vector) (test : T -> HM bool) : HM vector :=
  let* new_size := compact (Z.to_nat (size_ v)) (data_ v) test 0 0 in
  let* _ := for_range (Z.to_nat (size_ v - new_size)) new_size (destroy_at (data_ v)) in
  ret (MkVector (data_ v) new_size (capacity_ v)).
Definition remove_if (v : vector) (pred : T -> bool) : HM vector := remove_with v (fun x => ret (pred x)).
(** [==] on the elements is [eqb]. *)
Definition remove (eqb : T -> T -> bool) (v : vector) (value : ref) : HM vector :=
  remove_with v (fun x => let* y := deref value in ret (eqb x y)).

(** ** Construction, copy, move, destruction *)

Definition vector_count (count : Z) (default : T) : HM vector := resize new_vector count default.
Definition vector_value (count : Z) (value : ref) : HM vector := resize_value new_vector count value.

(** The elements of [other], constructed in [v]. *)
Definition copy_elements (v other : vector) : HM vector :=
  let* v' := reserve v (size_ other) in
  let* _ := for_range (Z.to_nat (size_ other)) 0 (fun i => let* x := object (data_ other) i in construct (data_ v') i x) in
  ret (MkVector (data_ v') (size_ other) (capacity_ v')).
Definition copy_vector (other : vector) : HM vector := copy_elements new_vector other.
(** Two vectors are the same object when [same] says so. *)
Definition assign_copy (same : bool) (v other : vector) : HM vector :=
  if negb same then let* v' := clear v in copy_elements v' other else ret v.

(** The new vector and what is left of [other]. *)
Definition move_vector (other : vector) : vector * vector := (other, new_vector).
Definition release (v : vector) : HM unit :=
  let* v' := clear v in
  if negb (data_ v' =? nullptr) then operator_delete (data_ v') else ret tt.
Definition assign_move (same : bool) (v other : vector) : HM (vector * vector) :=
  if negb same then let* _ := release v in ret (other, new_vector) else ret (v, other).
Definition destroy_vector (v : vector) : HM unit := release v.

End ops.
End NkVector.
