(* ===== verification/NkVectorInv.v ===== *)
(** * nk_std::vector: ownership and the operations

    A vector owns its block: the elements, then raw storage up to the capacity. *)

From iris.proofmode Require Import proofmode.
From iris.base_logic.lib Require Import ghost_map.
From stdpp Require Import base numbers list gmap.
From Stdlib Require Import ZArith Lia.
From S2P Require Import Prelude NodeHeap HeapLogic NkVector.
Import NodeHeap HeapLogic NkVector.

Local Open Scope Z_scope.

Module NkVectorInv.

Section logic.
Context {T : Type} {Σ : gFunctors} `{!ghost_mapG Σ Z (list (option T))} (γ : gname).
Abbreviation cell := (HeapLogic.cell γ).
Abbreviation wp := (HeapLogic.wp γ).
Context (moved : T -> T) (sizeof : Z) (refuse : gmap Z (list (option T)) -> Z -> bool).
Context (Hsize : 0 < sizeof) (Hmem : forall h n, refuse h n = false).
Implicit Types (p : ptr) (A B : list (option T)) (x y : T) (xs : list T).

(** ** Slots *)

Lemma wp_object p A x B i F : i = Z.of_nat (length A) ->
  cell p (A ++ Some x :: B) -∗ (cell p (A ++ Some x :: B) -∗ F x) -∗ wp (object sizeof p i) F.
Proof.
  iIntros (->) "Hp HF". unfold object. iApply wp_bind. iApply (wp_get with "Hp"). iIntros "Hp".
  rewrite (proj2 (Z.ltb_ge _ _)); [|lia]. rewrite Nat2Z.id list_lookup_middle //. iApply wp_ret. by iApply "HF".
Qed.

Lemma wp_set_slot p A o o' B i F : i = Z.of_nat (length A) ->
  cell p (A ++ o :: B) -∗ (cell p (A ++ o' :: B) -∗ F tt) -∗ wp (set_slot sizeof p i o') F.
Proof.
  iIntros (->) "Hp HF". unfold set_slot. iApply wp_bind. iApply (wp_get with "Hp"). iIntros "Hp".
  rewrite (proj2 (Z.leb_le _ _)); [|lia]. rewrite (proj2 (Z.ltb_lt _ _)); [|rewrite length_app /=; lia]. cbn [andb].
  iApply (wp_put with "Hp"). iIntros "Hp". rewrite Nat2Z.id insert_app_r_alt; [|done]. rewrite Nat.sub_diag /=. by iApply "HF".
Qed.

Lemma wp_construct p A o B i x F : i = Z.of_nat (length A) ->
  cell p (A ++ o :: B) -∗ (cell p (A ++ Some x :: B) -∗ F tt) -∗ wp (construct sizeof p i x) F.
Proof. apply wp_set_slot. Qed.

Lemma wp_destroy_at p A x B i F : i = Z.of_nat (length A) ->
  cell p (A ++ Some x :: B) -∗ (cell p (A ++ None :: B) -∗ F tt) -∗ wp (destroy_at sizeof p i) F.
Proof.
  iIntros (Hi) "Hp HF". unfold destroy_at. iApply wp_bind. iApply (wp_object with "Hp"); [done|]. iIntros "Hp".
  by iApply (wp_set_slot with "Hp").
Qed.

Lemma wp_assign_at p A x y B i F : i = Z.of_nat (length A) ->
  cell p (A ++ Some x :: B) -∗ (cell p (A ++ Some y :: B) -∗ F tt) -∗ wp (assign_at sizeof p i y) F.
Proof.
  iIntros (Hi) "Hp HF". unfold assign_at. iApply wp_bind. iApply (wp_object with "Hp"); [done|]. iIntros "Hp".
  by iApply (wp_set_slot with "Hp").
Qed.

Lemma wp_move_from p A x B i F : i = Z.of_nat (length A) ->
  cell p (A ++ Some x :: B) -∗ (cell p (A ++ Some (moved x) :: B) -∗ F x) -∗ wp (move_from moved sizeof p i) F.
Proof.
  iIntros (Hi) "Hp HF". unfold move_from. iApply wp_bind. iApply (wp_object with "Hp"); [done|]. iIntros "Hp".
  iApply wp_bind. iApply (wp_set_slot with "Hp"); [done|]. iIntros "Hp". iApply wp_ret. by iApply "HF".
Qed.

(** A loop with an invariant. *)
Lemma wp_for_range (I : nat -> iProp Σ) (body : Z -> M _ unit) n : forall k start F,
  (forall j, (k <= j < k + n)%nat -> I j ⊢ wp (body (start + Z.of_nat (j - k))) (fun _ => I (S j))) ->
  I k -∗ (I (k + n)%nat -∗ F tt) -∗ wp (for_range n start body) F.
Proof.
  induction n as [|n IH]; intros k start F Hb; cbn [for_range]; iIntros "HI HF".
  - rewrite Nat.add_0_r. iApply wp_ret. by iApply "HF".
  - iApply wp_bind. iApply (wp_wand with "[HI]").
    + replace start with (start + Z.of_nat (k - k)) by lia. iApply (Hb with "HI"). lia.
    + iIntros ([]) "HI". iApply (IH (S k) with "HI").
      * intros j Hj. replace (start + 1 + Z.of_nat (j - S k)) with (start + Z.of_nat (j - k)) by lia. apply Hb. lia.
      * by rewrite Nat.add_succ_comm.
Qed.

(** The objects [xs] from slot [length A] on are destroyed. *)
Lemma wp_destroy_all p A xs B start F : start = Z.of_nat (length A) ->
  cell p (A ++ (Some <$> xs) ++ B) -∗ (cell p (A ++ replicate (length xs) None ++ B) -∗ F tt) -∗
  wp (for_range (length xs) start (destroy_at sizeof p)) F.
Proof.
  iIntros (->) "Hp HF". iApply (wp_for_range (fun k => cell p (A ++ replicate k None ++ (Some <$> drop k xs) ++ B)) _ _ 0%nat with "[Hp]"); [|done|].
  - intros j Hj. iIntros "Hp". rewrite Nat.sub_0_r. destruct (lookup_lt_is_Some_2 xs j) as [x Hx]; [lia|].
    rewrite (drop_S _ x) // fmap_cons -app_comm_cons app_assoc.
    iApply (wp_destroy_at with "Hp"); [rewrite length_app length_replicate; lia|]. iIntros "Hp".
    rewrite -app_assoc. rewrite replicate_S_end -app_assoc /=. iFrame.
  - rewrite Nat.add_0_l drop_all /=. done.
Qed.

(** ** Vectors *)

(** The vector [v] holds the elements [xs]. *)
Definition is_vec (v : vector) xs : iProp Σ :=
  ∃ n, ⌜size_ v = Z.of_nat (length xs) /\ capacity_ v = Z.of_nat (length xs + n) /\ capacity_ v * sizeof < 2 ^ 64⌝ ∗
    (if data_ v =? nullptr then ⌜capacity_ v = 0⌝ else cell (data_ v) ((Some <$> xs) ++ replicate n None)).

Lemma is_vec_new : ⊢ is_vec new_vector [].
Proof. iExists 0%nat. cbn. iPureIntro. split; [|done]. split_and!; [done|done|lia]. Qed.

(** The block, when there is an element. *)
Lemma is_vec_block v xs : is_vec v xs -∗ ⌜(0 < length xs)%nat⌝ -∗
  ∃ n, ⌜size_ v = Z.of_nat (length xs) /\ capacity_ v = Z.of_nat (length xs + n) /\ capacity_ v * sizeof < 2 ^ 64 /\ (data_ v =? nullptr) = false⌝ ∗
    cell (data_ v) ((Some <$> xs) ++ replicate n None).
Proof.
  iIntros "(%n & %Hp & Hv) %Hl". destruct Hp as (H1 & H2 & H3). iExists n. destruct (data_ v =? nullptr) eqn:E; [|by iFrame].
  iDestruct "Hv" as %Hc. lia.
Qed.

(** Moving the elements [xs] to the raw storage of another block. *)
Lemma wp_relocate p q xs m B F :
  cell p ((Some <$> xs) ++ B) -∗ cell q (replicate (length xs + m) None) -∗
  (cell p (replicate (length xs) None ++ B) -∗ cell q ((Some <$> xs) ++ replicate m None) -∗ F tt) -∗
  wp (for_range (length xs) 0 (fun i =>
      let* x := move_from moved sizeof p i in
      let* _ := construct sizeof q i x in
      destroy_at sizeof p i)) F.
Proof.
  iIntros "Hp Hq HF". iApply (wp_for_range (fun k => cell p (replicate k None ++ (Some <$> drop k xs) ++ B) ∗
    cell q ((Some <$> take k xs) ++ replicate (length xs - k + m) None))%I _ _ 0%nat with "[Hp Hq]"); [|by rewrite /= drop_0 Nat.sub_0_r; iFrame|].
  - intros j Hj. iIntros "[Hp Hq]". rewrite Nat.sub_0_r Z.add_0_l. destruct (lookup_lt_is_Some_2 xs j) as [x Hx]; [lia|].
    rewrite (drop_S _ x) // fmap_cons -app_comm_cons. iApply wp_bind.
    iApply (wp_move_from with "Hp"); [rewrite length_replicate; lia|]. iIntros "Hp". iApply wp_bind.
    replace (length xs - j + m)%nat with (S (length xs - S j + m)) by lia. rewrite (replicate_S (length xs - S j + m)).
    iApply (wp_construct with "Hq"); [rewrite length_fmap length_take; lia|]. iIntros "Hq".
    iApply (wp_destroy_at with "Hp"); [rewrite length_replicate; lia|]. iIntros "Hp".
    rewrite replicate_S_end -app_assoc /=. iFrame.
    rewrite (take_S_r _ _ x) // fmap_app /= -app_assoc /=. done.
  - rewrite Nat.add_0_l drop_all take_ge // Nat.sub_diag /=. iIntros "[Hp Hq]". iApply ("HF" with "Hp Hq").
Qed.

Lemma wp_operator_new n F : 0 <= n -> n * sizeof < 2 ^ 64 ->
  (∀ q, ⌜q <> nullptr⌝ -∗ cell q (replicate (Z.to_nat n) None) -∗ F q) -∗ wp (operator_new sizeof refuse (u64 (n * sizeof))) F.
Proof.
  iIntros (Hn Hb) "HF". rewrite u64_small; [|nia]. iApply (wp_eq γ _ (new (replicate (Z.to_nat (n * sizeof / sizeof)) None))).
  { intros h. unfold operator_new. by rewrite Hmem. }
  rewrite Z.div_mul; [|lia]. iApply wp_new. iIntros (q Hq) "Hq". by iApply ("HF" with "[%] Hq").
Qed.

Lemma wp_reserve v xs new_cap F : 0 <= new_cap -> new_cap * sizeof < 2 ^ 64 ->
  is_vec v xs -∗ (∀ v', ⌜size_ v' = size_ v /\ capacity_ v' = Z.max (capacity_ v) new_cap⌝ -∗ is_vec v' xs -∗ F v') -∗ wp (reserve moved sizeof refuse v new_cap) F.
Proof.
  iIntros (H0 Hn) "(%n & %Hp & Hv) HF". destruct Hp as (H1 & H2 & H3). unfold reserve. destruct (Z.ltb_spec (capacity_ v) new_cap) as [Hlt|Hge].
  - iApply wp_bind. iApply wp_operator_new; [done|done|]. iIntros (q Hq) "Hq". rewrite H1 Nat2Z.id. iApply wp_bind.
    assert (Z.to_nat new_cap = (length xs + (Z.to_nat new_cap - length xs))%nat) as Ec by lia. rewrite Ec.
    iAssert (∀ B : list (option T), cell q ((Some <$> xs) ++ replicate (Z.to_nat new_cap - length xs) None) -∗
      wp (ret (MkVector q (Z.of_nat (length xs)) new_cap)) F)%I with "[HF]" as "Hend".
    { iIntros (B) "Hq". iApply wp_ret. iApply "HF"; [iPureIntro; cbn; lia|]. iExists (Z.to_nat new_cap - length xs)%nat. cbn.
      rewrite (proj2 (Z.eqb_neq _ _) Hq). iFrame. iPureIntro. split_and!; [done|lia|done]. }
    destruct (data_ v =? nullptr) eqn:Ed.
    + iDestruct "Hv" as %Hc. destruct xs as [|x xs]; [|cbn in H2; lia]. cbn [length for_range]. iApply wp_ret. iApply wp_bind. iApply wp_ret.
      iApply ("Hend" $! [] with "Hq").
    + iApply (wp_relocate with "Hv Hq"). iIntros "Hv Hq". iApply wp_bind. iApply (wp_delete with "Hv"). iApply ("Hend" $! [] with "Hq").
  - iApply wp_ret. iApply "HF"; [iPureIntro; lia|]. iExists n. by iFrame.
Qed.

(** A vector whose elements changed in place. *)
Lemma is_vec_intro v p xs n : (p =? nullptr) = false -> Z.of_nat (length xs + n) * sizeof < 2 ^ 64 -> v = MkVector p (Z.of_nat (length xs)) (Z.of_nat (length xs + n)) ->
  cell p ((Some <$> xs) ++ replicate n None) -∗ is_vec v xs.
Proof. iIntros (Hp Hb ->) "Hv". iExists n. cbn. rewrite Hp. by iFrame. Qed.

(** Dropping the last elements. *)
Lemma wp_truncate v xs ys F :
  is_vec v (xs ++ ys) -∗ (∀ v', ⌜v' = MkVector (data_ v) (Z.of_nat (length xs)) (capacity_ v)⌝ -∗ is_vec v' xs -∗ F v') -∗
  wp (let* _ := for_range (length ys) (Z.of_nat (length xs)) (destroy_at sizeof (data_ v)) in ret (MkVector (data_ v) (Z.of_nat (length xs)) (capacity_ v))) F.
Proof.
  iIntros "Hv HF". iApply wp_bind. destruct ys as [|y ys].
  - cbn. iApply wp_ret. iApply wp_ret. iApply "HF"; [done|]. rewrite app_nil_r. iDestruct "Hv" as "(%n & %Hp & Hv)".
    destruct Hp as (H1 & H2 & H3). iExists n. cbn. by iFrame.
  - iDestruct (is_vec_block with "Hv []") as "(%n & %Hp & Hv)"; [iPureIntro; rewrite length_app /=; lia|]. destruct Hp as (H1 & H2 & H3 & H4).
    rewrite fmap_app -app_assoc. iApply (wp_destroy_all with "Hv"); [by rewrite length_fmap|]. iIntros "Hv". rewrite -replicate_add.
    iApply wp_ret. iApply "HF"; [done|]. rewrite H2. rewrite length_app in H2.
    iApply (is_vec_intro _ (data_ v) xs (length (y :: ys) + n) with "Hv"); [done| |].
    + rewrite Nat.add_assoc -H2. done.
    + f_equal. rewrite length_app. lia.
Qed.

Lemma wp_vec_clear v xs F : is_vec v xs -∗ (∀ v', ⌜v' = MkVector (data_ v) 0 (capacity_ v)⌝ -∗ is_vec v' [] -∗ F v') -∗ wp (clear sizeof v) F.
Proof.
  iIntros "Hv HF". unfold clear. iAssert (⌜size_ v = Z.of_nat (length xs)⌝)%I as %E; [by iDestruct "Hv" as "(% & [% _] & _)"|].
  rewrite E Nat2Z.id. iApply (wp_truncate v [] xs with "Hv"). iIntros (v' ->) "Hv". by iApply ("HF" with "[%] Hv").
Qed.

(** Appending [x] where there is room. *)
Lemma wp_append v xs x F : size_ v < capacity_ v -> is_vec v xs -∗
  (∀ v', ⌜v' = MkVector (data_ v) (size_ v + 1) (capacity_ v)⌝ -∗ is_vec v' (xs ++ [x]) -∗ F tt) -∗ wp (construct sizeof (data_ v) (size_ v) x) F.
Proof.
  iIntros (Hlt) "(%n & %Hp & Hv) HF". destruct Hp as (H1 & H2 & H3). destruct (data_ v =? nullptr) eqn:Ed; [iDestruct "Hv" as %?; lia|].
  destruct n as [|n]; [lia|]. cbn [replicate]. iApply (wp_construct with "Hv"); [by rewrite length_fmap|]. iIntros "Hv".
  iApply "HF"; [done|]. iApply (is_vec_intro _ (data_ v) (xs ++ [x]) n with "[Hv]"); [done| | |].
  - rewrite length_app /=. replace (length xs + 1 + n)%nat with (length xs + S n)%nat by lia. by rewrite -H2.
  - rewrite H1 H2 length_app /=. f_equal; lia.
  - by rewrite fmap_app -app_assoc.
Qed.

Lemma wp_push_back v xs x F : (2 * Z.of_nat (length xs) + 1) * sizeof < 2 ^ 64 ->
  is_vec v xs -∗ (∀ v', is_vec v' (xs ++ [x]) -∗ F v') -∗ wp (push_back moved sizeof refuse v (Outside x)) F.
Proof.
  iIntros (Hb) "Hv HF". unfold push_back. iApply wp_bind. iAssert (⌜size_ v = Z.of_nat (length xs) /\ size_ v <= capacity_ v⌝)%I as %[Hn Hle].
  { iDestruct "Hv" as "(%n & %Hp & _)". iPureIntro. lia. }
  iAssert (∀ v1, ⌜size_ v1 = size_ v /\ size_ v1 < capacity_ v1⌝ -∗ is_vec v1 xs -∗
    wp (let* y := deref sizeof (Outside x) in let* _ := construct sizeof (data_ v1) (size_ v1) y in ret (MkVector (data_ v1) (u64 (size_ v1 + 1)) (capacity_ v1))) F)%I with "[HF]" as "Hgo".
  { iIntros (v1 (Hs & Hlt)) "Hv". iApply wp_bind. iApply wp_ret. iApply wp_bind. iApply (wp_append with "Hv"); [done|]. iIntros (v' ->) "Hv".
    iApply wp_ret. rewrite u64_small; [|nia]. by iApply ("HF" with "Hv"). }
  destruct (Z.eqb_spec (size_ v) (capacity_ v)) as [E|Hne]; [|iApply wp_ret; iApply ("Hgo" with "[%] Hv"); lia].
  set (c := if capacity_ v =? 0 then 1 else u64 (capacity_ v * 2)).
  assert (capacity_ v < c <= 2 * Z.of_nat (length xs) + 1) as Hc.
  { unfold c. destruct (Z.eqb_spec (capacity_ v) 0) as [->|]; [lia|]. rewrite u64_small; nia. }
  iApply (wp_reserve v xs c with "Hv"); [lia|nia|]. iIntros (v1 (Hs1 & Hc1)) "Hv". iApply ("Hgo" with "[%] Hv"). lia.
Qed.

Lemma wp_pop_back v xs x F : is_vec v (xs ++ [x]) -∗ (∀ v', is_vec v' xs -∗ ⌜capacity_ v' = capacity_ v⌝ -∗ F v') -∗ wp (pop_back sizeof v) F.
Proof.
  iIntros "Hv HF". iAssert (⌜size_ v = Z.of_nat (S (length xs))⌝)%I as %Hn.
  { iDestruct "Hv" as "(%n & [%Hp _] & _)". iPureIntro. rewrite Hp length_app /=. lia. }
  unfold pop_back. rewrite (proj2 (Z.ltb_lt _ _)); [|lia]. iAssert (wp _ F) with "[-]" as "H".
  { iApply (wp_truncate v xs [x] with "Hv"). iIntros (v' ->) "Hv". by iApply ("HF" with "Hv"). }
  replace (size_ v - 1) with (Z.of_nat (length xs)) by lia. iApply (wp_eq with "H"). intros h. cbn. unfold bind. by destruct (destroy_at _ _ _ _).
Qed.

Lemma wp_at v xs x ys F : is_vec v (xs ++ x :: ys) -∗ (is_vec v (xs ++ x :: ys) -∗ F x) -∗ wp (at_ sizeof v (Z.of_nat (length xs))) F.
Proof.
  iIntros "Hv HF". iDestruct (is_vec_block with "Hv []") as "(%n & %Hp & Hv)"; [iPureIntro; rewrite length_app /=; lia|].
  destruct Hp as (H1 & H2 & H3 & H4). unfold at_. rewrite fmap_app -app_assoc /=. iApply (wp_object with "Hv"); [by rewrite length_fmap|].
  iIntros "Hv". iApply "HF". iExists n. rewrite H4 fmap_app -app_assoc /=. by iFrame.
Qed.

Lemma wp_set_at v xs x y ys F : is_vec v (xs ++ x :: ys) -∗ (is_vec v (xs ++ y :: ys) -∗ F tt) -∗ wp (set_at sizeof v (Z.of_nat (length xs)) y) F.
Proof.
  iIntros "Hv HF". iDestruct (is_vec_block with "Hv []") as "(%n & %Hp & Hv)"; [iPureIntro; rewrite length_app /=; lia|].
  destruct Hp as (H1 & H2 & H3 & H4). unfold set_at. rewrite fmap_app -app_assoc /=. iApply (wp_assign_at with "Hv"); [by rewrite length_fmap|].
  iIntros "Hv". iApply "HF". iExists n. rewrite H4 fmap_app -app_assoc /=. iFrame. iPureIntro.
  rewrite length_app /= in H1 H2. rewrite length_app /=. done.
Qed.

(** Moving the elements [R] down over [c + 1] raw slots. *)
Lemma wp_shift p A R c B start F : start = Z.of_nat (length A + S c) ->
  cell p (A ++ replicate (S c) None ++ (Some <$> R) ++ B) -∗
  (cell p (A ++ (Some <$> R) ++ replicate (S c) None ++ B) -∗ F tt) -∗
  wp (for_range (length R) start (fun i =>
      let* x := move_from moved sizeof p i in
      let* _ := construct sizeof p (i - Z.of_nat (S c)) x in
      destroy_at sizeof p i)) F.
Proof.
  iIntros (->) "Hp HF". iApply (wp_for_range (fun k => cell p (A ++ (Some <$> take k R) ++ replicate (S c) None ++ (Some <$> drop k R) ++ B)) _ _ 0%nat with "[Hp]").
  - intros j Hj. iIntros "Hp". rewrite Nat.sub_0_r. destruct (lookup_lt_is_Some_2 R j) as [x Hx]; [lia|].
    rewrite (drop_S _ x) // fmap_cons -app_comm_cons. set (D := (Some <$> drop (S j) R) ++ B).
    assert (length (A ++ (Some <$> take j R)) = (length A + j)%nat) as El by (rewrite length_app length_fmap length_take; lia).
    assert (forall o, A ++ (Some <$> take j R) ++ replicate (S c) None ++ o :: D = (A ++ (Some <$> take j R) ++ replicate (S c) None) ++ o :: D) as E1 by (intros o; by rewrite -!app_assoc).
    assert (length (A ++ (Some <$> take j R) ++ replicate (S c) None) = (length A + j + S c)%nat) as El1 by (rewrite app_assoc length_app El length_replicate //).
    assert (((A ++ (Some <$> take j R)) ++ Some x :: replicate c None) ++ None :: D = A ++ (Some <$> take (S j) R) ++ replicate (S c) None ++ D) as Efin.
    { rewrite (take_S_r _ _ x) // fmap_app replicate_S_end -!app_assoc /=. done. }
    rewrite E1. iApply wp_bind. iApply (wp_move_from with "Hp"); [rewrite El1; lia|]. iIntros "Hp". iApply wp_bind.
    rewrite -E1 app_assoc replicate_S -app_comm_cons. iApply (wp_construct with "Hp"); [rewrite El; lia|]. iIntros "Hp".
    rewrite app_comm_cons app_assoc. iApply (wp_destroy_at with "Hp"); [rewrite length_app El /= length_replicate; lia|]. iIntros "Hp".
    rewrite Efin. iExact "Hp".
  - by rewrite /= drop_0.
  - rewrite Nat.add_0_l drop_all take_ge //.
Qed.

Lemma for_range_offset (body body' : Z -> M (gmap Z (list (option T))) unit) d n : forall start,
  (forall i, body i = body' (i + d)) -> for_range n start body = for_range n (start + d) body'.
Proof.
  induction n as [|n IH]; intros start Hb; cbn [for_range]; [done|]. rewrite Hb (IH (start + 1) Hb).
  by replace (start + 1 + d) with (start + d + 1) by lia.
Qed.

(** The raw slots after a removal belong to the storage. *)
Lemma is_vec_shrunk v L R c n :
  capacity_ v = Z.of_nat (length (L ++ R) + (c + n)) -> capacity_ v * sizeof < 2 ^ 64 -> (data_ v =? nullptr) = false ->
  cell (data_ v) ((Some <$> L) ++ (Some <$> R) ++ replicate c None ++ replicate n None) -∗
  is_vec (MkVector (data_ v) (Z.of_nat (length (L ++ R))) (capacity_ v)) (L ++ R).
Proof.
  iIntros (Hc Hb Hd) "Hv". iApply (is_vec_intro _ (data_ v) (L ++ R) (c + n) with "[Hv]"); [done|by rewrite -Hc|by rewrite Hc|].
  by rewrite fmap_app replicate_add -app_assoc.
Qed.

Lemma wp_vec_erase_range v L C R F : C <> [] ->
  is_vec v (L ++ C ++ R) -∗ (∀ v', ⌜capacity_ v' = capacity_ v⌝ -∗ is_vec v' (L ++ R) -∗ F (v', Z.of_nat (length L))) -∗
  wp (erase_range moved sizeof v (Z.of_nat (length L)) (Z.of_nat (length L + length C))) F.
Proof.
  iIntros (HC) "Hv HF". destruct C as [|y C]; [done|]. set (C' := y :: C).
  iDestruct (is_vec_block with "Hv []") as "(%n & %Hp & Hv)"; [iPureIntro; rewrite !length_app /=; lia|]. destruct Hp as (H1 & H2 & H3 & H4).
  rewrite !length_app in H1, H2. unfold erase_range, end_. rewrite (proj2 (Z.leb_gt _ _)); [|cbn; lia]. rewrite (proj2 (Z.leb_gt _ _)); [|cbn in *; lia].
  cbn [orb]. replace (Z.of_nat (length L + length C') - Z.of_nat (length L)) with (Z.of_nat (length C')) by lia. rewrite Nat2Z.id.
  iApply wp_bind. rewrite !fmap_app -!app_assoc. iApply (wp_destroy_all with "Hv"); [by rewrite length_fmap|]. iIntros "Hv". iApply wp_bind.
  replace (Z.to_nat (size_ v - Z.of_nat (length L + length C'))) with (length R) by lia.
  iApply (wp_shift (data_ v) (Some <$> L) R (length C) with "Hv"); [by rewrite length_fmap|]. iIntros "Hv". iApply wp_ret.
  assert (length L + (length C' + length R) + n = length (L ++ R) + (S (length C) + n))%nat as Ec by (rewrite length_app /C' /=; lia).
  rewrite Ec in H2. rewrite u64_small; [|nia].
  replace (size_ v - Z.of_nat (length C')) with (Z.of_nat (length (L ++ R))) by (rewrite length_app; lia).
  iApply ("HF" with "[%] [Hv]"); [done|]. by iApply (is_vec_shrunk v L R (S (length C)) n with "Hv").
Qed.

Lemma wp_vec_erase v L x R F :
  is_vec v (L ++ x :: R) -∗ (∀ v', ⌜capacity_ v' = capacity_ v⌝ -∗ is_vec v' (L ++ R) -∗ F (v', Z.of_nat (length L))) -∗
  wp (erase moved sizeof v (Z.of_nat (length L))) F.
Proof.
  iIntros "Hv HF". iDestruct (is_vec_block with "Hv []") as "(%n & %Hp & Hv)"; [iPureIntro; rewrite length_app /=; lia|].
  destruct Hp as (H1 & H2 & H3 & H4). rewrite length_app /= in H1, H2. unfold erase, begin, end_.
  rewrite (proj2 (Z.ltb_ge _ _)); [|lia]. rewrite (proj2 (Z.leb_gt _ _)); [|lia]. cbn [orb]. iApply wp_bind.
  rewrite fmap_app -app_assoc /=. iApply (wp_destroy_at with "Hv"); [by rewrite length_fmap|]. iIntros "Hv". iApply wp_bind.
  replace (Z.to_nat (size_ v - 1 - Z.of_nat (length L))) with (length R) by lia.
  rewrite (for_range_offset _ (fun i => let* x := move_from moved sizeof (data_ v) i in let* _ := construct sizeof (data_ v) (i - Z.of_nat 1) x in destroy_at sizeof (data_ v) i) 1).
  2: { intros i. by replace (i + 1 - Z.of_nat 1) with i by lia. }
  iApply (wp_shift (data_ v) (Some <$> L) R 0 with "Hv"); [rewrite length_fmap; lia|]. iIntros "Hv". iApply wp_ret.
  rewrite u64_small; [|nia]. replace (size_ v - 1) with (Z.of_nat (length (L ++ R))) by (rewrite length_app; lia).
  iApply ("HF" with "[%] [Hv]"); [done|]. iApply (is_vec_shrunk v L R 1 n with "Hv"); [rewrite H2 length_app; lia|done|done].
Qed.

(** ** Removal by a test *)

Definition keep (gone : T -> bool) xs : list T := List.filter (fun x => Datatypes.negb (gone x)) xs.

(** [kept] are the elements kept so far, [junk] the objects left behind them. *)
Lemma wp_compact p (gone : T -> bool) (test : T -> M (gmap Z (list (option T))) bool) B todo : forall kept junk F,
  (forall x h, test x h = Ret h (gone x)) ->
  cell p ((Some <$> kept) ++ (Some <$> junk) ++ (Some <$> todo) ++ B) -∗
  (∀ junk', ⌜length (kept ++ junk ++ todo) = length (kept ++ keep gone todo ++ junk')⌝ -∗
     cell p ((Some <$> kept ++ keep gone todo) ++ (Some <$> junk') ++ B) -∗ F (Z.of_nat (length (kept ++ keep gone todo)))) -∗
  wp (compact moved sizeof (length todo) p test (Z.of_nat (length kept + length junk)) (Z.of_nat (length kept))) F.
Proof.
  induction todo as [|x todo IH]; intros kept junk F Ht; cbn [length compact]; iIntros "Hp HF".
  - iApply wp_ret. iSpecialize ("HF" $! junk with "[] [Hp]"); [|by rewrite /= app_nil_r|by rewrite /= app_nil_r].
    iPureIntro. by rewrite /= !app_nil_r.
  - iApply wp_bind. rewrite app_assoc fmap_cons -app_comm_cons. iApply (wp_object with "Hp"); [rewrite length_app !length_fmap; lia|]. iIntros "Hp".
    iApply wp_bind. iApply (wp_eq γ _ (ret (gone x))); [intros h; by rewrite Ht|]. iApply wp_ret.
    destruct (gone x) eqn:Eg.
    + replace (Z.of_nat (length kept + length junk) + 1) with (Z.of_nat (length kept + length (junk ++ [x]))) by (rewrite length_app /=; lia).
      iApply (IH kept (junk ++ [x]) with "[Hp]"); [done|by rewrite fmap_app -!app_assoc /=|].
      iIntros (junk' Hl) "Hp". iSpecialize ("HF" $! junk' with "[%] [Hp]"); rewrite /keep /= Eg //. rewrite -app_assoc /= in Hl. done.
    + iApply wp_bind. destruct junk as [|y junk].
      * rewrite /= Nat.add_0_r Z.eqb_refl. cbn [Datatypes.negb]. iApply wp_ret.
        replace (Z.of_nat (length kept) + 1) with (Z.of_nat (length (kept ++ [x]))) by (rewrite length_app /=; lia).
        iApply (wp_eq γ _ (compact moved sizeof (length todo) p test (Z.of_nat (length (kept ++ [x]) + length (@nil T))) (Z.of_nat (length (kept ++ [x]))))).
        { intros h. by rewrite /= Nat.add_0_r. }
        iApply (IH (kept ++ [x]) [] with "[Hp]"); [done|by rewrite fmap_app /= app_nil_r -app_assoc|].
        iIntros (junk' Hl) "Hp". iSpecialize ("HF" $! junk' with "[%] [Hp]"); rewrite /keep /= Eg -?app_assoc //. rewrite -!app_assoc /= in Hl. done.
      * rewrite (proj2 (Z.eqb_neq _ _)); [|cbn; lia]. cbn [Datatypes.negb]. iApply wp_bind.
        iApply (wp_move_from with "Hp"); [rewrite length_app !length_fmap; lia|]. iIntros "Hp".
        rewrite -app_assoc fmap_cons -app_comm_cons. iApply (wp_assign_at with "Hp"); [by rewrite length_fmap|]. iIntros "Hp".
        replace (Z.of_nat (length kept) + 1) with (Z.of_nat (length (kept ++ [x]))) by (rewrite length_app /=; lia).
        replace (Z.of_nat (length kept + length (y :: junk)) + 1) with (Z.of_nat (length (kept ++ [x]) + length (junk ++ [moved x]))) by (rewrite !length_app /=; lia).
        iApply (IH (kept ++ [x]) (junk ++ [moved x]) with "[Hp]"); [done|by rewrite !fmap_app -!app_assoc /=|].
        iIntros (junk' Hl) "Hp". iSpecialize ("HF" $! junk' with "[%] [Hp]"); rewrite /keep /= Eg -?app_assoc //.
        move: Hl. rewrite /keep !(length_app, length_cons, length_nil). lia.
Qed.

Lemma wp_remove_with v xs (gone : T -> bool) (test : T -> M (gmap Z (list (option T))) bool) F :
  (forall x h, test x h = Ret h (gone x)) ->
  is_vec v xs -∗ (∀ v', ⌜capacity_ v' = capacity_ v⌝ -∗ is_vec v' (keep gone xs) -∗ F v') -∗ wp (remove_with moved sizeof v test) F.
Proof.
  iIntros (Ht) "(%n & %Hp & Hv) HF". destruct Hp as (H1 & H2 & H3). unfold remove_with. rewrite H1 Nat2Z.id. iApply wp_bind.
  destruct (data_ v =? nullptr) eqn:Ed.
  - iDestruct "Hv" as %Hc. destruct xs as [|x xs]; [|cbn in *; lia]. cbn. iApply wp_ret. iApply wp_bind. iApply wp_ret. iApply wp_ret.
    iApply "HF"; [done|]. iExists n. cbn. rewrite Ed. by iFrame "%".
  - iApply (wp_compact (data_ v) gone test (replicate n None) xs [] [] with "[Hv]"); [done|done|]. iIntros (junk Hl) "Hv". cbn [app] in *.
    rewrite length_app in Hl. replace (Z.to_nat (Z.of_nat (length xs) - Z.of_nat (length (keep gone xs)))) with (length junk) by lia.
    iApply wp_bind. iApply (wp_destroy_all with "Hv"); [by rewrite length_fmap|]. iIntros "Hv". iApply wp_ret. iApply "HF"; [done|].
    rewrite -replicate_add. iApply (is_vec_intro _ (data_ v) (keep gone xs) (length junk + n) with "Hv"); [done| |].
    + rewrite Nat.add_assoc -Hl -H2. done.
    + rewrite H2. f_equal. lia.
Qed.

Lemma wp_remove_if v xs (pred : T -> bool) F :
  is_vec v xs -∗ (∀ v', ⌜capacity_ v' = capacity_ v⌝ -∗ is_vec v' (keep pred xs) -∗ F v') -∗ wp (remove_if moved sizeof v pred) F.
Proof. by apply wp_remove_with. Qed.

Lemma wp_remove v xs eqb x F :
  is_vec v xs -∗ (∀ v', ⌜capacity_ v' = capacity_ v⌝ -∗ is_vec v' (keep (fun y => eqb y x) xs) -∗ F v') -∗ wp (remove moved sizeof eqb v (Outside x)) F.
Proof. by apply wp_remove_with. Qed.

(** ** Growing, copying, releasing *)

(** Objects [ys] built one by one in the raw storage. *)
Lemma wp_fill v xs (ys : list T) (mk : Z -> M (gmap Z (list (option T))) T) (R : iProp Σ) start F :
  start = size_ v -> size_ v + Z.of_nat (length ys) <= capacity_ v ->
  (forall j y (G : T -> iProp Σ), ys !! j = Some y -> R -∗ (R -∗ G y) -∗ wp (mk (size_ v + Z.of_nat j)) G) ->
  R -∗ is_vec v xs -∗
  (R -∗ is_vec (MkVector (data_ v) (size_ v + Z.of_nat (length ys)) (capacity_ v)) (xs ++ ys) -∗ F tt) -∗
  wp (for_range (length ys) start (fun i => let* x := mk i in construct sizeof (data_ v) i x)) F.
Proof.
  iIntros (-> Hc Hmk) "HR Hv HF".
  iApply (wp_for_range (fun k => R ∗ is_vec (MkVector (data_ v) (size_ v + Z.of_nat k) (capacity_ v)) (xs ++ take k ys))%I _ _ 0%nat with "[HR Hv]").
  - intros j Hj. iIntros "[HR Hv]". rewrite Nat.sub_0_r. destruct (lookup_lt_is_Some_2 ys j) as [y Hy]; [lia|]. iApply wp_bind.
    iApply (Hmk j y with "HR"); [done|]. iIntros "HR". iFrame "HR".
    iApply (wp_append (MkVector (data_ v) (size_ v + Z.of_nat j) (capacity_ v)) with "Hv"); [cbn; lia|]. iIntros (v' ->) "Hv". cbn.
    rewrite (take_S_r _ _ y) // app_assoc. replace (size_ v + Z.of_nat (S j)) with (size_ v + Z.of_nat j + 1) by lia. done.
  - rewrite /= Z.add_0_r app_nil_r. destruct v. iFrame.
  - rewrite Nat.add_0_l take_ge //. iIntros "[HR Hv]". iApply ("HF" with "HR Hv").
Qed.

Lemma wp_resize v xs count x F : 0 <= count -> count * sizeof < 2 ^ 64 ->
  is_vec v xs -∗ (∀ v', ⌜capacity_ v' = Z.max (capacity_ v) count⌝ -∗
    is_vec v' (take (Z.to_nat count) xs ++ replicate (Z.to_nat count - length xs) x) -∗ F v') -∗
  wp (resize moved sizeof refuse v count x) F.
Proof.
  iIntros (H0 Hb) "Hv HF". iAssert (⌜size_ v = Z.of_nat (length xs) /\ size_ v <= capacity_ v⌝)%I as %[Hs Hc].
  { iDestruct "Hv" as "(%n & %Hp & _)". iPureIntro. lia. }
  unfold resize, resize_with. destruct (Z.ltb_spec count (size_ v)) as [Hlt|Hge]; [|destruct (Z.ltb_spec (size_ v) count) as [Hgt|Heq]].
  - apply Z_of_nat_complete in H0 as [k ->]. rewrite Nat2Z.id. rewrite -{1}(take_drop k xs).
    assert (length (take k xs) = k) as El by (rewrite length_take; lia).
    iAssert (wp _ F) with "[-]" as "H".
    { iApply (wp_truncate with "Hv"). iIntros (v' ->) "Hv". iApply "HF"; [cbn; iPureIntro; lia|].
      replace (k - length xs)%nat with 0%nat by lia. by rewrite app_nil_r. }
    rewrite El. replace (Z.to_nat (size_ v - Z.of_nat k)) with (length (drop k xs)) by (rewrite length_drop; lia). done.
  - iApply wp_bind. iApply (wp_reserve with "Hv"); [done|done|]. iIntros (v' (Hs' & Hc')) "Hv". iApply wp_bind.
    pose (ys := replicate (Z.to_nat (count - size_ v)) x). assert (length ys = Z.to_nat (count - size_ v)) as El by apply length_replicate.
    rewrite -El. iApply (wp_fill v' xs ys (fun _ => ret x) True%I with "[] Hv"); [done|lia| |done|].
    { intros j y G [-> _]%lookup_replicate_1. iIntros "_ HG". iApply wp_ret. by iApply "HG". }
    iIntros "_ Hv". iApply wp_ret. replace (size_ v' + Z.of_nat (length ys)) with count by lia. iApply "HF"; [done|].
    rewrite take_ge; [|lia]. replace (Z.to_nat count - length xs)%nat with (Z.to_nat (count - size_ v)) by lia. done.
  - iApply wp_ret. iApply "HF"; [iPureIntro; lia|]. rewrite take_ge; [|lia]. replace (Z.to_nat count - length xs)%nat with 0%nat by lia. by rewrite app_nil_r.
Qed.

Lemma wp_release v xs F : is_vec v xs -∗ F tt -∗ wp (release sizeof v) F.
Proof.
  iIntros "Hv HF". unfold release. iApply wp_bind. iApply (wp_vec_clear with "Hv"). iIntros (v' ->) "(%n & _ & Hv)". cbn [data_] in *.
  destruct (data_ v =? nullptr); cbn [Datatypes.negb]; [by iApply wp_ret|]. by iApply (wp_delete with "Hv").
Qed.

(** A copy of [w] at the end of the empty vector [v]. *)
Lemma wp_copy_elements v w ys F : size_ w * sizeof < 2 ^ 64 ->
  is_vec v [] -∗ is_vec w ys -∗ (∀ v', ⌜capacity_ v' = Z.max (capacity_ v) (size_ w)⌝ -∗ is_vec v' ys -∗ is_vec w ys -∗ F v') -∗
  wp (copy_elements moved sizeof refuse v w) F.
Proof.
  iIntros (Hb) "Hv Hw HF". iAssert (⌜size_ w = Z.of_nat (length ys)⌝)%I as %Hs; [by iDestruct "Hw" as "(% & [% _] & _)"|].
  iAssert (⌜size_ v = 0⌝)%I as %Hs0; [by iDestruct "Hv" as "(% & [% _] & _)"|].
  unfold copy_elements. iApply wp_bind. iApply (wp_reserve with "Hv"); [lia|done|]. iIntros (v' (Hs' & Hc')) "Hv". iApply wp_bind.
  replace (Z.to_nat (size_ w)) with (length ys) by lia.
  iApply (wp_fill v' [] ys (object sizeof (data_ w)) (is_vec w ys) with "Hw Hv"); [congruence|lia| |].
  - intros j y G Hy. iIntros "Hw HG". rewrite Hs' Hs0 Z.add_0_l. apply list_elem_of_split_length in Hy as (l1 & l2 & -> & ->).
    iApply (wp_at with "Hw"). done.
  - iIntros "Hw Hv". iApply wp_ret. rewrite Hs' Hs0 Z.add_0_l -Hs. by iApply ("HF" with "[%] Hv Hw").
Qed.

Lemma wp_copy_vector w ys F :
  is_vec w ys -∗ (∀ v', is_vec v' ys -∗ is_vec w ys -∗ F v') -∗ wp (copy_vector moved sizeof refuse w) F.
Proof.
  iIntros "Hw HF". iAssert (⌜size_ w * sizeof < 2 ^ 64⌝)%I as %Hb; [iDestruct "Hw" as "(%n & %Hp & _)"; iPureIntro; nia|].
  iApply (wp_copy_elements with "[] Hw"); [done|iApply is_vec_new|]. iIntros (v' _) "Hv Hw". iApply ("HF" with "Hv Hw").
Qed.

Lemma wp_assign_copy v xs w ys F :
  is_vec v xs -∗ is_vec w ys -∗ (∀ v', is_vec v' ys -∗ is_vec w ys -∗ F v') -∗ wp (assign_copy moved sizeof refuse false v w) F.
Proof.
  iIntros "Hv Hw HF". iAssert (⌜size_ w * sizeof < 2 ^ 64⌝)%I as %Hb; [iDestruct "Hw" as "(%n & %Hp & _)"; iPureIntro; nia|].
  unfold assign_copy. cbn [Datatypes.negb]. iApply wp_bind. iApply (wp_vec_clear with "Hv"). iIntros (v' _) "Hv".
  iApply (wp_copy_elements with "Hv Hw"); [done|]. iIntros (v2 _) "Hv Hw". iApply ("HF" with "Hv Hw").
Qed.

Lemma wp_assign_move v xs w ys F :
  is_vec v xs -∗ is_vec w ys -∗ (is_vec w ys -∗ is_vec new_vector [] -∗ F (w, new_vector)) -∗ wp (assign_move sizeof false v w) F.
Proof.
  iIntros "Hv Hw HF". unfold assign_move. cbn [Datatypes.negb]. iApply wp_bind. iApply (wp_release with "Hv"). iApply wp_ret.
  iApply ("HF" with "Hw []"). iApply is_vec_new.
Qed.

End logic.
End NkVectorInv.

(** * nk_std::vector: what the class promises

    [vectors_at h vs xss] says that the vectors [vs] hold the lists [xss] in
    blocks of their own in the heap [h].  Programs over a table of vectors are
    compared with the same programs over lists; then what becomes of a reference
    into the vector that the call itself moves. *)

Module NkVectorProps.

Import NodeHeap HeapLogic NkVector NkVectorInv.

(** ** Vectors in a heap *)

Section repr.
Context {T : Type} (sizeof : Z).
Abbreviation block := (list (option T)).
Abbreviation heap := (gmap Z block).
Implicit Types (v w : vector) (xs ys : list T) (vs : list vector) (xss : list (list T)) (h : heap).

Definition vector_ok v xs : Prop :=
  size_ v = Z.of_nat (length xs) /\ size_ v <= capacity_ v /\ capacity_ v * sizeof < 2 ^ 64 /\ (data_ v = nullptr -> capacity_ v = 0).
Definition vector_cells v xs : list (Z * block) :=
  if data_ v =? nullptr then [] else [(data_ v, (Some <$> xs) ++ replicate (Z.to_nat (capacity_ v) - length xs) None)].
Definition table_cells vs xss : list (Z * block) := concat (zip_with vector_cells vs xss).

Definition vectors_at h vs xss : Prop := Forall2 vector_ok vs xss /\ holds h (table_cells vs xss).

Section logic.
Context {Σ : gFunctors} `{!ghost_mapG Σ Z block} (γ : gname).

Lemma is_vec_cells v xs : is_vec γ sizeof v xs ⊣⊢ ⌜vector_ok v xs⌝ ∗ [∗ list] c ∈ vector_cells v xs, cell γ c.1 c.2.
Proof.
  unfold is_vec, vector_ok, vector_cells. iSplit.
  - iIntros "(%n & %Hp & Hv)". destruct Hp as (H1 & H2 & H3). destruct (Z.eqb_spec (data_ v) nullptr) as [E|E].
    + iDestruct "Hv" as %Hc. iSplit; [|done]. iPureIntro. split_and!; lia.
    + rewrite big_sepL_singleton /=. replace (Z.to_nat (capacity_ v) - length xs)%nat with n by lia. iFrame.
      iPureIntro. split_and!; [done|lia|done|done].
  - iIntros "[%Hp Hv]". destruct Hp as (H1 & H2 & H3 & H4). iExists (Z.to_nat (capacity_ v) - length xs)%nat.
    iSplit; [iPureIntro; split_and!; lia|]. destruct (Z.eqb_spec (data_ v) nullptr) as [E|E]; [by auto|]. by rewrite big_sepL_singleton.
Qed.

(** The whole table. *)
Definition are_vecs vs xss : iProp Σ := [∗ list] v;xs ∈ vs;xss, is_vec γ sizeof v xs.

Lemma are_vecs_cells vs : forall xss, are_vecs vs xss ⊣⊢ ⌜Forall2 vector_ok vs xss⌝ ∗ [∗ list] c ∈ table_cells vs xss, cell γ c.1 c.2.
Proof.
  unfold are_vecs, table_cells. induction vs as [|v vs IH]; intros [|xs xss]; cbn [zip_with concat big_sepL2].
  - iSplit; [iIntros "_"; iSplit; [iPureIntro; constructor|done]|by iIntros "_"].
  - iSplit; [by iIntros|]. iIntros "[%H _]". inversion H.
  - iSplit; [by iIntros|]. iIntros "[%H _]". inversion H.
  - rewrite is_vec_cells IH big_sepL_app. iSplit.
    + iIntros "[[%H1 Hv] [%H2 Hvs]]". iFrame. iPureIntro. by constructor.
    + iIntros "[%H [Hv Hvs]]". inversion H; subst. by iFrame.
Qed.

Lemma are_vecs_acc vs xss i xs : xss !! i = Some xs ->
  are_vecs vs xss -∗ ∃ v, ⌜vs !! i = Some v⌝ ∗ is_vec γ sizeof v xs ∗ (∀ v' ys, is_vec γ sizeof v' ys -∗ are_vecs (<[i:=v']> vs) (<[i:=ys]> xss)).
Proof.
  iIntros (Hx) "H". unfold are_vecs. iDestruct (big_sepL2_length with "H") as %Hl.
  destruct (lookup_lt_is_Some_2 vs i) as [v Hv]; [rewrite Hl; by eapply lookup_lt_Some|].
  iExists v. iSplit; [done|]. by iApply (big_sepL2_insert_acc with "H").
Qed.

Lemma are_vecs_length vs xss : are_vecs vs xss -∗ ⌜length vs = length xss⌝.
Proof. iIntros "H". iApply (big_sepL2_length with "H"). Qed.

End logic.

(** A program over a table of vectors. *)
Lemma table_run {A} (m : M heap A) h vs xss (Q : A -> list vector -> list (list T) -> Prop) :
  vectors_at h vs xss ->
  (forall `{!ghost_mapG Σ Z block} γ, are_vecs γ vs xss ⊢ wp γ m (fun a => ∃ vs' yss, ⌜Q a vs' yss⌝ ∗ are_vecs γ vs' yss)) ->
  exists h' a vs' yss, m h = Ret h' a /\ Q a vs' yss /\ vectors_at h' vs' yss /\
    forall p b, p ∉ (table_cells vs xss).*1 -> h !! p = Some b -> h' !! p = Some b /\ p ∉ (table_cells vs' yss).*1.
Proof.
  intros [Hok Hh] Hm.
  destruct (heap_adequacy m h (table_cells vs xss) (fun a L' => exists vs' yss, Q a vs' yss /\ Forall2 vector_ok vs' yss /\ L' = table_cells vs' yss) Hh)
    as (h' & a & L' & E & (vs' & yss & HQ & Hok' & ->) & Hh' & Hf).
  { intros Σ HG γ. iIntros "HL". iApply (wp_wand with "[HL]").
    - iApply Hm. rewrite are_vecs_cells. by iFrame.
    - iIntros (a) "(%vs' & %yss & %HQ & H)". rewrite are_vecs_cells. iDestruct "H" as "[%Hok' HL]".
      iExists (table_cells vs' yss). iFrame. iPureIntro. by exists vs', yss. }
  exists h', a, vs', yss. done.
Qed.

End repr.

(** ** Programs *)

Section programs.
Context {T : Type} (eqb : T -> T -> bool) (moved : T -> T) (sizeof : Z) (refuse : gmap Z (list (option T)) -> Z -> bool).
Abbreviation heap := (gmap Z (list (option T))).
Implicit Types (v w : vector) (xs ys : list T) (vs : list vector) (xss : list (list T)) (h : heap).

(** A call on one vector. *)
Inductive vec_op :=
  | PushBack (x : T) | PopBack | At (k : nat) | SetAt (k : nat) (x : T) | Size
  | Erase (k : nat) | EraseRange (first last : nat) | Remove (x : T) | RemoveIf (pred : T -> bool)
  | Resize (n : nat) (x : T) | Reserve (n : nat) | Clear.
Inductive answer := Done | Element (x : T) | Position (k : Z).

Definition run_op v (o : vec_op) : M heap (vector * answer) :=
  let done_ (m : M heap vector) := let* v' := m in ret (v', Done) in
  let position (m : M heap (vector * Z)) := let* r := m in ret (r.1, Position r.2) in
  match o with
  | PushBack x => done_ (push_back moved sizeof refuse v (Outside x))
  | PopBack => done_ (pop_back sizeof v)
  | At k => let* x := at_ sizeof v (Z.of_nat k) in ret (v, Element x)
  | SetAt k x => let* _ := set_at sizeof v (Z.of_nat k) x in ret (v, Done)
  | Size => ret (v, Position (size v))
  | Erase k => position (erase moved sizeof v (Z.of_nat k))
  | EraseRange a b => position (erase_range moved sizeof v (Z.of_nat a) (Z.of_nat b))
  | Remove x => done_ (remove moved sizeof eqb v (Outside x))
  | RemoveIf pred => done_ (remove_if moved sizeof v pred)
  | Resize n x => done_ (resize moved sizeof refuse v (Z.of_nat n) x)
  | Reserve n => done_ (reserve moved sizeof refuse v (Z.of_nat n))
  | Clear => done_ (clear sizeof v)
  end.

(** [n] elements fit in the address space. *)
Definition fits (n : nat) : bool := Z.of_nat n * sizeof <? 2 ^ 64.

(** The same on a list; [None]: the call is not allowed. *)
Definition ref_op xs (o : vec_op) : option (list T * answer) :=
  match o with
  | PushBack x => if fits (2 * length xs + 1) then Some (xs ++ [x], Done) else None
  | PopBack => Some (take (length xs - 1) xs, Done)
  | At k => x ← xs !! k; Some (xs, Element x)
  | SetAt k x => _ ← xs !! k; Some (<[k:=x]> xs, Done)
  | Size => Some (xs, Position (Z.of_nat (length xs)))
  | Erase k => Some (base.delete k xs, Position (Z.of_nat (Nat.min k (length xs))))
  | EraseRange a b =>
      if (b <=? a)%nat || (length xs <=? a)%nat then Some (xs, Position (Z.of_nat (length xs)))
      else if (b <=? length xs)%nat then Some (take a xs ++ drop b xs, Position (Z.of_nat a)) else None
  | Remove x => Some (keep (fun y => eqb y x) xs, Done)
  | RemoveIf pred => Some (keep pred xs, Done)
  | Resize n x => if fits n then Some (take n xs ++ replicate (n - length xs) x, Done) else None
  | Reserve n => if fits n then Some (xs, Done) else None
  | Clear => Some ([], Done)
  end.

(** A call on a table of vectors: on the [i]-th, or an assignment of the [j]-th to the [i]-th, by copy or by move. *)
Inductive table_op := On (i : nat) (o : vec_op) | Copy (i j : nat) | Move (i j : nat).

Definition vector_at vs (i : nat) : vector := default new_vector (vs !! i).
Definition run_table vs (o : table_op) : M heap (list vector * answer) :=
  match o with
  | On i o => let* r := run_op (vector_at vs i) o in ret (<[i:=r.1]> vs, r.2)
  | Copy i j =>
      let* v := assign_copy moved sizeof refuse (i =? j)%nat (vector_at vs i) (vector_at vs j) in ret (<[i:=v]> vs, Done)
  | Move i j =>
      let* r := assign_move sizeof (i =? j)%nat (vector_at vs i) (vector_at vs j) in ret (<[i:=r.1]> (<[j:=r.2]> vs), Done)
  end.
Fixpoint run_tables vs (os : list table_op) : M heap (list vector * list answer) :=
  match os with
  | [] => ret (vs, [])
  | o :: os => let* r := run_table vs o in let* rs := run_tables r.1 os in ret (rs.1, r.2 :: rs.2)
  end.

Definition ref_table xss (o : table_op) : option (list (list T) * answer) :=
  match o with
  | On i o => xs ← xss !! i; r ← ref_op xs o; Some (<[i:=r.1]> xss, r.2)
  | Copy i j => _ ← xss !! i; ys ← xss !! j; Some (<[i:=ys]> xss, Done)
  | Move i j => _ ← xss !! i; ys ← xss !! j; Some (<[i:=ys]> (if (i =? j)%nat then xss else <[j:=[]]> xss), Done)
  end.
Fixpoint ref_tables xss (os : list table_op) : option (list (list T) * list answer) :=
  match os with
  | [] => Some (xss, [])
  | o :: os => r ← ref_table xss o; rs ← ref_tables r.1 os; Some (rs.1, r.2 :: rs.2)
  end.

Context (Hsize : 0 < sizeof) (Hmem : forall h n, refuse h n = false).

Section logic.
Context {Σ : gFunctors} `{!ghost_mapG Σ Z (list (option T))} (γ : gname).
Abbreviation is_vec := (NkVectorInv.is_vec γ sizeof).
Abbreviation wp := (HeapLogic.wp γ).

Lemma fits_spec n : fits n = true -> Z.of_nat n * sizeof < 2 ^ 64.
Proof. apply Z.ltb_lt. Qed.

Lemma is_vec_size v xs : is_vec v xs -∗ ⌜size_ v = Z.of_nat (length xs)⌝.
Proof. iIntros "(%n & %Hp & _)". iPureIntro. lia. Qed.

Definition yields ys r (a : vector * answer) : iProp Σ := ∃ v', ⌜a = (v', r)⌝ ∗ is_vec v' ys.

Lemma yields_ret v ys r : is_vec v ys -∗ wp (ret (v, r)) (yields ys r).
Proof. iIntros "Hv". iApply wp_ret. iExists v. by iFrame. Qed.

Lemma wp_run_pop v xs : is_vec v xs -∗ wp (run_op v PopBack) (yields (take (length xs - 1) xs) Done).
Proof.
  iIntros "Hv". iDestruct (is_vec_size with "Hv") as %Hs. cbn [run_op]. iApply wp_bind. destruct xs as [|x l _] using rev_ind.
  - unfold pop_back. rewrite Hs. iApply wp_ret. by iApply yields_ret.
  - iApply (wp_pop_back γ sizeof v l x with "Hv"). iIntros (v') "Hv _". rewrite length_app Nat.add_sub take_app_length. by iApply yields_ret.
Qed.

Lemma wp_run_erase v xs k : is_vec v xs -∗
  wp (run_op v (Erase k)) (yields (base.delete k xs) (Position (Z.of_nat (Nat.min k (length xs))))).
Proof.
  iIntros "Hv". iDestruct (is_vec_size with "Hv") as %Hs. cbn [run_op]. iApply wp_bind. destruct (decide (k < length xs)%nat) as [Hk|Hk].
  - destruct (lookup_lt_is_Some_2 xs k Hk) as [x Hx]. apply list_elem_of_split_length in Hx as (L & R & -> & ->).
    iApply (wp_vec_erase γ moved sizeof Hsize v L x R with "Hv"). iIntros (v' _) "Hv". rewrite Nat.min_l; [|lia]. rewrite delete_middle. by iApply yields_ret.
  - unfold erase, begin, end_. rewrite (proj2 (Z.leb_le (size_ v) _)); [|lia]. rewrite orb_true_r Hs. iApply wp_ret.
    rewrite Nat.min_r; [|lia]. rewrite delete_take_drop take_ge ?drop_ge ?app_nil_r; [|lia..]. by iApply yields_ret.
Qed.

Lemma wp_run_erase_range v xs a b ys r : ref_op xs (EraseRange a b) = Some (ys, r) ->
  is_vec v xs -∗ wp (run_op v (EraseRange a b)) (yields ys r).
Proof.
  iIntros (Hr) "Hv". iDestruct (is_vec_size with "Hv") as %Hs. cbn [run_op ref_op] in *. iApply wp_bind.
  destruct (Nat.leb_spec b a) as [H1|H1]; [|destruct (Nat.leb_spec (length xs) a) as [H2|H2]]; cbn [orb] in Hr.
  - injection Hr as <- <-. unfold erase_range, end_. rewrite (proj2 (Z.leb_le (Z.of_nat b) _)); [|lia]. rewrite Hs. iApply wp_ret. by iApply yields_ret.
  - injection Hr as <- <-. unfold erase_range, end_. rewrite (proj2 (Z.leb_le (size_ v) _)); [|lia]. rewrite orb_true_r Hs. iApply wp_ret. by iApply yields_ret.
  - destruct (Nat.leb_spec b (length xs)) as [H3|H3]; [|done]. injection Hr as <- <-.
    assert (xs = take a xs ++ take (b - a) (drop a xs) ++ drop b xs) as E.
    { rewrite -{1}(take_drop a xs). f_equal. rewrite -{1}(take_drop (b - a) (drop a xs)) drop_drop. f_equal. f_equal. lia. }
    rewrite {1}E. assert (length (take a xs) = a) as Ea by (rewrite length_take; lia).
    assert (length (take (b - a) (drop a xs)) = b - a)%nat as Eb by (rewrite length_take length_drop; lia).
    iAssert (wp (erase_range moved sizeof v (Z.of_nat (length (take a xs))) (Z.of_nat (length (take a xs) + length (take (b - a) (drop a xs)))))
      (fun r => wp (ret (r.1, Position r.2)) (yields (take a xs ++ drop b xs) (Position (Z.of_nat a))))) with "[Hv]" as "H".
    { iApply (wp_vec_erase_range with "Hv"); [done|intros E0; rewrite E0 /= in Eb; lia|]. iIntros (v' _) "Hv". rewrite Ea. by iApply yields_ret. }
    rewrite Ea Eb. by replace (a + (b - a))%nat with b by lia.
Qed.

Lemma wp_run_op v xs o ys r : ref_op xs o = Some (ys, r) -> is_vec v xs -∗ wp (run_op v o) (yields ys r).
Proof.
  iIntros (Hr) "Hv". iDestruct (is_vec_size with "Hv") as %Hs. destruct o as [x| |k|k x| |k|a b|x|pred|n x|n|].
  7: by iApply (wp_run_erase_range with "Hv").
  all: cbn [ref_op] in Hr; try (injection Hr as <- <-).
  2: by iApply (wp_run_pop with "Hv").
  5: by iApply (wp_run_erase with "Hv").
  all: cbn [run_op]; try iApply wp_bind.
  - destruct (fits _) eqn:Hf; [|done]. injection Hr as <- <-. apply fits_spec in Hf.
    iApply (wp_push_back γ moved sizeof refuse Hsize Hmem v xs x with "Hv"); [lia|]. iIntros (v') "Hv". by iApply yields_ret.
  - destruct (xs !! k) as [x|] eqn:Hx; [|done]. injection Hr as <- <-. apply list_elem_of_split_length in Hx as (L & R & -> & ->).
    iApply (wp_at γ sizeof v L x R with "Hv"). iIntros "Hv". by iApply yields_ret.
  - destruct (xs !! k) as [y|] eqn:Hx; [|done]. injection Hr as <- <-. apply list_elem_of_split_length in Hx as (L & R & -> & ->).
    iApply (wp_set_at γ sizeof v L y x R with "Hv"). iIntros "Hv". rewrite insert_app_r_alt // Nat.sub_diag /=. by iApply yields_ret.
  - unfold size. rewrite Hs. by iApply yields_ret.
  - iApply (wp_remove γ moved sizeof v xs eqb x with "Hv"). iIntros (v' _) "Hv". by iApply yields_ret.
  - iApply (wp_remove_if γ moved sizeof v xs pred with "Hv"). iIntros (v' _) "Hv". by iApply yields_ret.
  - destruct (fits n) eqn:Hf; [|done]. injection Hr as <- <-. apply fits_spec in Hf.
    iApply (wp_resize γ moved sizeof refuse Hsize Hmem v xs (Z.of_nat n) x with "Hv"); [lia|done|]. iIntros (v' _) "Hv". rewrite Nat2Z.id. by iApply yields_ret.
  - destruct (fits n) eqn:Hf; [|done]. injection Hr as <- <-. apply fits_spec in Hf.
    iApply (wp_reserve γ moved sizeof refuse Hsize Hmem v xs (Z.of_nat n) with "Hv"); [lia|done|]. iIntros (v' _) "Hv". by iApply yields_ret.
  - iApply (wp_vec_clear γ sizeof v xs with "Hv"). iIntros (v' _) "Hv". by iApply yields_ret.
Qed.

Lemma vector_at_lookup vs i : (i < length vs)%nat -> vs !! i = Some (vector_at vs i).
Proof. intros [v Hv]%lookup_lt_is_Some_2. unfold vector_at. by rewrite Hv. Qed.

(** Two different vectors of a table. *)
Lemma are_vecs_acc2 vs xss i j xs ys : i <> j -> xss !! i = Some xs -> xss !! j = Some ys ->
  are_vecs sizeof γ vs xss -∗ is_vec (vector_at vs i) xs ∗ is_vec (vector_at vs j) ys ∗
    (∀ v' xs' w' ys', is_vec v' xs' -∗ is_vec w' ys' -∗ are_vecs sizeof γ (<[i:=v']> (<[j:=w']> vs)) (<[i:=xs']> (<[j:=ys']> xss))).
Proof.
  iIntros (Hij Hx Hy) "H". iDestruct (are_vecs_acc with "H") as (v Hv) "[Hv H]"; [exact Hx|].
  iDestruct ("H" $! new_vector [] with "[]") as "H"; [iApply is_vec_new|].
  iDestruct (are_vecs_acc with "H") as (w Hw) "[Hw H]"; [by rewrite list_lookup_insert_ne|].
  rewrite list_lookup_insert_ne // in Hw. unfold vector_at. rewrite Hv Hw. cbn. iFrame "Hv Hw".
  iIntros (v' xs' w' ys') "Hv Hw". iDestruct ("H" with "Hw") as "H".
  iDestruct (are_vecs_acc _ _ _ _ i [] with "H") as (u Hu) "[_ H]".
  { rewrite list_lookup_insert_ne //. apply list_lookup_insert_eq. by eapply lookup_lt_Some. }
  iDestruct ("H" with "Hv") as "H".
  rewrite (list_insert_insert_ne vs j i) // (list_insert_insert_ne xss j i) // !list_insert_insert_eq. by iApply "H".
Qed.

Lemma wp_run_table vs xss o yss r : ref_table xss o = Some (yss, r) ->
  are_vecs sizeof γ vs xss -∗ wp (run_table vs o) (fun a => ∃ vs', ⌜a = (vs', r)⌝ ∗ are_vecs sizeof γ vs' yss).
Proof.
  iIntros (Hr) "H". destruct o as [i o|i j|i j]; cbn [run_table ref_table] in *.
  - destruct (xss !! i) as [xs|] eqn:Hx; [|done]. cbn in Hr. destruct (ref_op xs o) as [[ys r']|] eqn:Ho; [|done]. injection Hr as <- <-.
    iDestruct (are_vecs_acc with "H") as (v Hv) "[Hv H]"; [exact Hx|]. unfold vector_at. rewrite Hv. iApply wp_bind.
    iApply (wp_wand with "[Hv]"); [by iApply (wp_run_op with "Hv")|]. iIntros (a) "(%v' & -> & Hv)". iApply wp_ret.
    iExists _. iSplit; [done|]. by iApply "H".
  - destruct (xss !! i) as [xs|] eqn:Hx; [|done]. cbn in Hr. destruct (xss !! j) as [ys|] eqn:Hy; [|done]. injection Hr as <- <-. iApply wp_bind.
    destruct (Nat.eqb_spec i j) as [->|Hij].
    + iApply wp_ret. iApply wp_ret. iExists _. iSplit; [done|]. iDestruct (are_vecs_acc with "H") as (v Hv) "[Hv H]"; [exact Hy|].
      unfold vector_at. rewrite Hv. by iApply "H".
    + iDestruct (are_vecs_acc2 _ _ _ _ _ _ Hij Hx Hy with "H") as "(Hv & Hw & H)".
      iApply (wp_assign_copy γ moved sizeof refuse Hsize Hmem with "Hv Hw"). iIntros (v') "Hv Hw". iApply wp_ret. iExists _. iSplit; [done|].
      iDestruct ("H" with "Hv Hw") as "H". rewrite (list_insert_id xss) //.
      iDestruct (are_vecs_length with "H") as %Hl. rewrite (list_insert_id vs) //. apply vector_at_lookup. rewrite !length_insert in Hl. rewrite Hl. by eapply lookup_lt_Some.
  - destruct (xss !! i) as [xs|] eqn:Hx; [|done]. cbn in Hr. destruct (xss !! j) as [ys|] eqn:Hy; [|done]. injection Hr as <- <-. iApply wp_bind.
    destruct (Nat.eqb_spec i j) as [->|Hij].
    + iApply wp_ret. iApply wp_ret. iExists _. iSplit; [done|]. iDestruct (are_vecs_acc with "H") as (v Hv) "[Hv H]"; [exact Hy|].
      unfold vector_at. rewrite Hv list_insert_insert_eq. by iApply "H".
    + iDestruct (are_vecs_acc2 _ _ _ _ _ _ Hij Hx Hy with "H") as "(Hv & Hw & H)".
      iApply (wp_assign_move γ sizeof with "Hv Hw"). iIntros "Hv Hw". iApply wp_ret. iExists _. iSplit; [done|]. iApply ("H" with "Hv Hw").
Qed.

Lemma wp_run_tables os : forall vs xss yss rs, ref_tables xss os = Some (yss, rs) ->
  are_vecs sizeof γ vs xss -∗ wp (run_tables vs os) (fun a => ∃ vs', ⌜a = (vs', rs)⌝ ∗ are_vecs sizeof γ vs' yss).
Proof.
  induction os as [|o os IH]; intros vs xss yss rs Hr; cbn [run_tables ref_tables] in *; iIntros "H".
  - injection Hr as <- <-. iApply wp_ret. iExists vs. by iFrame.
  - destruct (ref_table xss o) as [[xss1 r]|] eqn:E1; [|done]. cbn in Hr. destruct (ref_tables xss1 os) as [[yss' rs']|] eqn:E2; [|done]. injection Hr as <- <-.
    iApply wp_bind. iApply (wp_wand with "[H]"); [by iApply (wp_run_table with "H")|]. iIntros (a) "(%vs1 & -> & H)". cbn [fst snd]. iApply wp_bind.
    iApply (wp_wand with "[H]"); [by iApply (IH with "H")|]. iIntros (a) "(%vs2 & -> & H)". iApply wp_ret. iExists vs2. by iFrame.
Qed.

End logic.

(** C38: While the heap refuses no block ([Hmem]), a program of vector operations
    whose arguments are values of its own (no reference to an element of a vector),
    whose indices are in range and whose sizes fit into the address space (the
    reference program answers [Some]) returns and does to the vectors what it does
    to the lists that they stand for, with the same answers; it reads no storage
    without an object, and touches no block of anyone else.  The restrictions are
    needed: see [push_back_own_element], [remove_own_element] and
    [push_back_without_memory] below. *)
Theorem vector_programs_refine_lists h vs xss os yss rs :
  vectors_at sizeof h vs xss -> ref_tables xss os = Some (yss, rs) ->
  exists h' vs', run_tables vs os h = Ret h' (vs', rs) /\ vectors_at sizeof h' vs' yss /\
    forall p b, p ∉ (table_cells vs xss).*1 -> h !! p = Some b -> h' !! p = Some b /\ p ∉ (table_cells vs' yss).*1.
Proof.
  intros Hv Hr. destruct (table_run sizeof (run_tables vs os) h vs xss (fun a vs' yss' => a = (vs', rs) /\ yss' = yss) Hv)
    as (h' & a & vs' & yss' & E & (-> & ->) & Hv' & Hf); [|by exists h', vs'].
  intros Σ HG γ. iIntros "H". iApply (wp_wand with "[H]"); [by iApply (wp_run_tables with "H")|].
  iIntros (a) "(%vs' & -> & H)". iExists vs', yss. by iFrame.
Qed.

(** ** References into the vector itself *)

(** [push_back(v[i])] on a full vector: [reserve] has released the block when the reference is read. *)
Lemma reserve_frees h v xs new_cap : xs <> [] -> vectors_at sizeof h [v] [xs] -> capacity_ v < new_cap -> new_cap * sizeof < 2 ^ 64 ->
  exists h' v', reserve moved sizeof refuse v new_cap h = Ret h' v' /\ h' !! data_ v = None.
Proof.
  intros Hx [Hok Hh] Hc Hb. apply Forall2_cons in Hok as [(H1 & H2 & H3 & H4) _].
  assert (0 < length xs)%nat as Hl by (destruct xs; [done|cbn; lia]). assert (data_ v <> nullptr) as Hd by (intros E; apply H4 in E; lia).
  pose (B := replicate (Z.to_nat (capacity_ v) - length xs) (@None T)).
  pose (m := let* q := operator_new sizeof refuse (u64 (new_cap * sizeof)) in
    let* _ := for_range (Z.to_nat (size_ v)) 0 (fun i =>
      let* x := move_from moved sizeof (data_ v) i in let* _ := construct sizeof q i x in destroy_at sizeof (data_ v) i) in ret q).
  destruct (heap_adequacy m h (table_cells [v] [xs]) (fun _ L' => exists b, L' = [(data_ v, b)]) Hh) as (h1 & q & L' & E & (b & ->) & [_ Hb1] & _).
  { intros Σ HG γ. unfold m, table_cells, vector_cells. cbn [zip_with concat]. rewrite (proj2 (Z.eqb_neq _ _) Hd) app_nil_r big_sepL_singleton. cbn [fst snd].
    iIntros "Hv". iApply wp_bind. iApply (wp_operator_new γ sizeof refuse Hsize Hmem new_cap); [lia|done|]. iIntros (q Hq) "Hq". iApply wp_bind.
    rewrite H1 Nat2Z.id. replace (Z.to_nat new_cap) with (length xs + (Z.to_nat new_cap - length xs))%nat by lia.
    iApply (wp_relocate γ moved sizeof (data_ v) q xs with "Hv Hq"). iIntros "Hv Hq". iApply wp_ret.
    iExists [(data_ v, replicate (length xs) None ++ B)]. rewrite big_sepL_singleton. iFrame "Hv". iPureIntro. by eexists. }
  apply Forall_cons in Hb1 as [Hb1 _]. cbn in Hb1.
  exists (base.delete (data_ v) h1), (MkVector q (size_ v) new_cap). split; [|apply lookup_delete_eq].
  unfold reserve. rewrite (proj2 (Z.ltb_lt _ _) Hc). unfold m, bind in E. unfold bind.
  destruct (operator_new _ _ _ h) as [h0 q0|]; [|done]. destruct (for_range _ _ _ h0) as [h2 []|]; [|done]. cbn in E. injection E as -> ->.
  rewrite (proj2 (Z.eqb_neq _ _) Hd). cbn [Datatypes.negb]. unfold operator_delete, delete_. by rewrite Hb1.
Qed.

Theorem push_back_own_element h v xs i :
  vectors_at sizeof h [v] [xs] -> size_ v = capacity_ v -> 0 <= i < size_ v -> 2 * size_ v * sizeof < 2 ^ 64 ->
  exists h', push_back moved sizeof refuse v (Inside (data_ v) i) h = Halt h' (BadPointer (data_ v)).
Proof.
  intros Hv Hf Hi Hb. pose proof Hv as [Hok _]. apply Forall2_cons in Hok as [(H1 & _) _].
  destruct (reserve_frees h v xs (2 * size_ v)) as (h' & v' & E & Hn); [by intros ->; cbn in *; lia|done|lia|lia|].
  unfold push_back. rewrite (proj2 (Z.eqb_eq _ _) Hf). rewrite -Hf (proj2 (Z.eqb_neq _ _)); [|lia].
  rewrite u64_small; [|nia]. rewrite Z.mul_comm. unfold bind at 1. rewrite E. cbn [deref]. unfold object, bind, get. rewrite Hn. by exists h'.
Qed.

End programs.

(** ** Instances *)

Definition no_limit {T} (h : gmap Z (list (option T))) (n : Z) : bool := false.
Definition all_refused {T} (h : gmap Z (list (option T))) (n : Z) : bool := true.

Lemma empty_vectors {T} sizeof (h : gmap Z (list (option T))) n : vectors_at sizeof h (replicate n new_vector) (replicate n []).
Proof.
  split.
  - induction n; cbn; constructor; [|done]. unfold vector_ok. cbn. split_and!; [done|done|lia|done].
  - assert (table_cells (replicate n new_vector) (replicate n (@nil T)) = []) as -> by (induction n; done). split; constructor.
Qed.

(** A program over two empty vectors of [int]. *)
Definition sample : list (table_op (T:=Z)) :=
  [On 0 (PushBack 5); On 0 (PushBack 6); On 0 (PushBack 5); On 0 (PushBack 7); Copy 1 0; On 1 (Remove 5); On 0 (Erase 1); Move 0 1; On 0 (At 1); On 1 Size].
Lemma vector_programs_refine_lists_witness :
  exists h' vs', run_tables Z.eqb (fun x => x) 4 no_limit [new_vector; new_vector] sample ∅ =
      Ret h' (vs', [Done; Done; Done; Done; Done; Done; Position 1; Done; Element 7; Position 0]) /\
    vectors_at 4 h' vs' [[6; 7]; []].
Proof.
  destruct (vector_programs_refine_lists Z.eqb (fun x => x) 4 no_limit ltac:(lia) ltac:(done) ∅ [new_vector; new_vector] [[]; []] sample [[6; 7]; []]
    [Done; Done; Done; Done; Done; Done; Position 1; Done; Element 7; Position 0] (empty_vectors 4 ∅ 2) ltac:(vm_compute; reflexivity)) as (h' & vs' & E & Hv & _).
  exists h', vs'. by split.
Defined.

(** A full vector: one element, capacity one. *)
Definition full_heap : gmap Z (list (option Z)) := {[16 := [Some 5]]}.
Definition full : vector := MkVector 16 1 1.
Lemma full_at : vectors_at 4 full_heap [full] [[5]].
Proof.
  split; [apply Forall2_cons; split; [unfold vector_ok; cbn; split_and!; [done|lia|lia|done]|constructor]|]. split; [apply NoDup_singleton|].
  constructor; [|constructor]. vm_compute. reflexivity.
Qed.
Lemma push_back_own_element_witness : exists h', push_back (fun x => x) 4 no_limit full (Inside 16 0) full_heap = Halt h' (BadPointer 16).
Proof.
  apply (push_back_own_element (fun x => x) 4 no_limit ltac:(lia) ltac:(done) full_heap full [5] 0 full_at); [reflexivity|cbn; lia|cbn; lia].
Defined.

(** [remove(v[0])] compares with what the slot holds by then: of 1, 2, 1 the last 1 stays. *)
Definition three_heap : gmap Z (list (option Z)) := {[16 := [Some 1; Some 2; Some 1]]}.
Theorem remove_own_element :
  remove (fun x => x) 4 Z.eqb (MkVector 16 3 3) (Inside 16 0) three_heap = Ret {[16 := [Some 2; Some 1; None]]} (MkVector 16 2 3) /\
  remove (fun x => x) 4 Z.eqb (MkVector 16 3 3) (Outside 1) three_heap = Ret {[16 := [Some 2; None; None]]} (MkVector 16 1 3).
Proof. split; vm_compute; reflexivity. Qed.

(** When [operator new] has no memory the null pointer is used as the block. *)
Theorem push_back_without_memory :
  push_back (fun x : Z => x) 4 all_refused new_vector (Outside 5) ∅ = Halt ∅ (BadPointer 0).
Proof. vm_compute. reflexivity. Qed.

End NkVectorProps.
