(* ===== verification/Bmalloc.v ===== *)
(** * The kernel heap: src/src/memory.cpp, src/src/libcxx/nk_new.cpp and
      src/3rd/bmalloc/src/include/{allocator_base,bump,bmalloc}.hpp

    [malloc] and its relatives over the bump allocator that [Bmalloc] is built on.
    The lock of the allocator is [LockBase], whose functions are empty; the
    interleavings of several cores are in BmallocProps.v. *)

From stdpp Require Import base numbers list gmap.
From Stdlib Require Import ZArith Lia.
From S2P Require Import Prelude CMem CString.
Import CString.

Local Open Scope Z_scope.

Module Bmalloc.

Definition SIZE_MAX : Z := 2 ^ 64 - 1.
(** [alignof(max_align_t)] and [sizeof(void* )] on the three targets. *)
Definition max_align : Z := 16.
Definition pointer_size : Z := 8.

(** ** bump.hpp *)

(** The allocator, with the counters of its base class. *)
Record BumpAllocator := MkBump {
  start_addr_ : ptr;
  length_ : Z;
  free_count_ : Z;
  used_count_ : Z;
  current_ : ptr;
  end_ : ptr
}.

Definition new_bump (start_addr : ptr) (bytes : Z) : BumpAllocator :=
  MkBump start_addr bytes bytes 0 start_addr (u64 (start_addr + bytes)).

(** [(v + (a - 1)) & ~(a - 1)] *)
Definition align_up (v a : Z) : Z := Z.land (u64 (v + (a - 1))) (u64 (Z.lnot (a - 1))).

Definition AllocImpl (bytes : Z) (b : BumpAllocator) : ptr * BumpAllocator :=
  if bytes =? 0 then (nullptr, b)
  else
    let cur := align_up (current_ b) max_align in
    let next := u64 (cur + bytes) in
    if end_ b <? next then (nullptr, b)
    else (cur, MkBump (start_addr_ b) (length_ b)
                 (if next <? end_ b then u64 (end_ b - next) else 0) (u64 (next - start_addr_ b)) next (end_ b)).

Definition FreeImpl (addr : ptr) (length : Z) (b : BumpAllocator) : BumpAllocator := b.
Definition AllocSizeImpl (addr : ptr) (b : BumpAllocator) : Z := 0.

Definition GetUsedCount (b : BumpAllocator) : Z := used_count_ b.
Definition GetFreeCount (b : BumpAllocator) : Z := free_count_ b.

(** ** bmalloc.hpp *)

(** The memory and the allocator. *)
Record Heap := MkHeap { bytes_ : mem; allocator_ : BumpAllocator }.
Abbreviation HM A := (M Heap A) (only parsing).

Definition Alloc (length : Z) : HM ptr := fun s =>
  let r := AllocImpl length (allocator_ s) in Ret (MkHeap (bytes_ s) r.2) r.1.
Definition Free (addr : ptr) : HM unit := fun s => Ret (MkHeap (bytes_ s) (FreeImpl addr 0 (allocator_ s))) tt.
Definition AllocSize (addr : ptr) : HM Z := fun s => Ret s (AllocSizeImpl addr (allocator_ s)).

(** A routine of the C library on the memory. *)
Definition on_memory (p : ptr) (f : mem -> run (mem * ptr)) : HM unit := fun s =>
  match f (bytes_ s) with
  | Done (m, _) => Ret (MkHeap m (allocator_ s)) tt
  | Fault => Halt s (BadPointer p)
  | NoFuel => Halt s Diverges
  end.

(** A pointer in memory. *)
Definition load_ptr (p : ptr) : HM ptr := fun s =>
  match load_le 8 (bytes_ s) p with Some v => Ret s v | None => Halt s (BadPointer p) end.
Definition store_ptr (p v : ptr) : HM unit := fun s =>
  match load_le 8 (bytes_ s) p with
  | Some _ => Ret (MkHeap (write_bytes p (le_bytes 8 v) (bytes_ s)) (allocator_ s)) tt
  | None => Halt s (BadPointer p)
  end.

Definition malloc (size : Z) : HM ptr := if size =? 0 then ret nullptr else Alloc size.

Definition calloc (num size : Z) : HM ptr :=
  if (num =? 0) || (size =? 0) then ret nullptr
  else if SIZE_MAX / size <? num then ret nullptr
  else
    let total_size := u64 (num * size) in
    let* p := Alloc total_size in
    let* _ := (if negb (p =? nullptr) then on_memory p (memset p 0 total_size) else ret tt) in
    ret p.

Definition realloc (p : ptr) (new_size : Z) : HM ptr :=
  if p =? nullptr then Alloc new_size
  else if new_size =? 0 then let* _ := Free p in ret nullptr
  else
    let* old_size := AllocSize p in
    if old_size =? 0 then ret nullptr
    else if (new_size <=? old_size) && (old_size - new_size <? old_size / 2) then ret p
    else
      let* new_ptr := Alloc new_size in
      if new_ptr =? nullptr then ret nullptr
      else
        let* _ := on_memory p (memcpy new_ptr p (if old_size <? new_size then old_size else new_size)) in
        let* _ := Free p in
        ret new_ptr.

Definition free (p : ptr) : HM unit := if p =? nullptr then ret tt else Free p.

(** [alignment - 1 + sizeof(void* )] *)
Definition extra_offset (alignment : Z) : Z := u64 (alignment - 1 + pointer_size).
(** [alignment == 0 || (alignment & (alignment - 1)) != 0] *)
Definition bad_alignment (alignment : Z) : bool := (alignment =? 0) || negb (Z.land alignment (alignment - 1) =? 0).

Definition aligned_alloc (alignment size : Z) : HM ptr :=
  if bad_alignment alignment then ret nullptr
  else if size =? 0 then ret nullptr
  else
    let* original_ptr := Alloc (u64 (size + extra_offset alignment)) in
    if original_ptr =? nullptr then ret nullptr
    else
      let aligned_addr := Z.land (u64 (original_ptr + extra_offset alignment)) (u64 (Z.lnot (alignment - 1))) in
      let* _ := store_ptr (u64 (aligned_addr - pointer_size)) original_ptr in
      ret aligned_addr.

Definition aligned_free (p : ptr) : HM unit :=
  if p =? nullptr then ret tt
  else
    let* original_ptr := load_ptr (u64 (p - pointer_size)) in
    if original_ptr =? nullptr then ret tt else Free original_ptr.

Definition malloc_size (p : ptr) : HM Z := if p =? nullptr then ret 0 else AllocSize p.

Definition aligned_malloc_size (p : ptr) : HM Z :=
  if p =? nullptr then ret 0
  else
    let* original_ptr := load_ptr (u64 (p - pointer_size)) in
    if original_ptr =? nullptr then ret 0 else AllocSize original_ptr.

(** ** memory.cpp: the functions of the C library *)

(** The object [bmallocator] and the pointer [allocator] to it, null before [MemoryInit]. *)
Record Kheap := MkKheap { kmem : mem; allocator : option BumpAllocator }.

Definition on_allocator {A} (none : A) (m : HM A) : M Kheap A := fun k =>
  match allocator k with
  | None => Ret k none
  | Some b =>
      match m (MkHeap (kmem k) b) with
      | Ret s a => Ret (MkKheap (bytes_ s) (Some (allocator_ s))) a
      | Halt s w => Halt (MkKheap (bytes_ s) (Some (allocator_ s))) w
      end
  end.

Definition c_malloc (size : Z) : M Kheap ptr := on_allocator nullptr (malloc size).
Definition c_free (p : ptr) : M Kheap unit := on_allocator tt (free p).
Definition c_calloc (num size : Z) : M Kheap ptr := on_allocator nullptr (calloc num size).
Definition c_realloc (p : ptr) (new_size : Z) : M Kheap ptr := on_allocator nullptr (realloc p new_size).
Definition c_aligned_alloc (alignment size : Z) : M Kheap ptr := on_allocator nullptr (aligned_alloc alignment size).
Definition c_aligned_free (p : ptr) : M Kheap unit := on_allocator tt (aligned_free p).

(** ** nk_new.cpp *)

Definition operator_new (size : Z) : M Kheap ptr := c_malloc (if size =? 0 then 1 else size).
Definition operator_new_aligned (size alignment : Z) : M Kheap ptr :=
  let size := if size =? 0 then 1 else size in
  if bad_alignment alignment then ret nullptr
  else if alignment <=? max_align then c_malloc size
  else c_aligned_alloc alignment size.
Definition operator_delete (p : ptr) : M Kheap unit := if negb (p =? nullptr) then c_free p else ret tt.
Definition operator_delete_aligned (p : ptr) : M Kheap unit := if negb (p =? nullptr) then c_aligned_free p else ret tt.

End Bmalloc.
