(* ===== verification/BmallocProps.v ===== *)
(** * The kernel heap: what malloc and its relatives promise *)

From stdpp Require Import base numbers list gmap sorting.
From Stdlib Require Import ZArith Lia.
From S2P Require Import Prelude CMem CString Csr Paging Bmalloc.
Import CString Bmalloc.

Local Open Scope Z_scope.

Module BmallocProps.

Lemma bind_Ret {S A B} (m : M S A) (k : A -> M S B) s s' a : m s = Ret s' a -> bind m k s = k a s'.
Proof. intros E. unfold bind. by rewrite E. Qed.

(** ** Arithmetic of alignment *)

(** [v] rounded up to a multiple of [2 ^ k]. *)
Definition up (k v : Z) : Z := (v + (2 ^ k - 1)) / 2 ^ k * 2 ^ k.

Lemma up_spec k v : 0 <= k -> v <= up k v < v + 2 ^ k /\ up k v mod 2 ^ k = 0.
Proof.
  intros Hk. unfold up. assert (0 < 2 ^ k) by (by apply Z.pow_pos_nonneg). split; [|by apply Z.mod_mul; lia].
  pose proof (Z.div_mod (v + (2 ^ k - 1)) (2 ^ k)) as E. pose proof (Z.mod_pos_bound (v + (2 ^ k - 1)) (2 ^ k)). lia.
Qed.

Lemma ones_pow k : 0 <= k -> 2 ^ k - 1 = Z.ones k.
Proof. intros Hk. rewrite Z.ones_equiv. lia. Qed.

(** [x & ~(2 ^ k - 1)] *)
Lemma mask_down x k : 0 <= x < 2 ^ 64 -> 0 <= k -> Z.land x (u64 (Z.lnot (2 ^ k - 1))) = x / 2 ^ k * 2 ^ k.
Proof. intros Hx Hk. rewrite ones_pow by done. by apply land_lnot_word. Qed.

Lemma align_up_up v k : 0 <= v -> 0 <= k -> v + 2 ^ k <= 2 ^ 64 -> align_up v (2 ^ k) = up k v.
Proof.
  intros Hv Hk Hb. assert (0 < 2 ^ k) by (by apply Z.pow_pos_nonneg). unfold align_up, up.
  rewrite u64_small by lia. by rewrite mask_down by lia.
Qed.

(** The test for a power of two. *)
Lemma good_alignment a : 0 <= a -> bad_alignment a = false <-> exists k, 0 <= k /\ a = 2 ^ k.
Proof.
  intros Ha. unfold bad_alignment. rewrite orb_false_iff, negb_false_iff, Z.eqb_neq, Z.eqb_eq. split.
  - intros [Hn Hl]. set (k := Z.log2 a). assert (0 <= k) as Hk by apply Z.log2_nonneg.
    pose proof (Z.log2_spec a ltac:(lia)) as Hb. fold k in Hb. exists k. split; [done|].
    destruct (decide (a = 2 ^ k)) as [|Hne]; [done|exfalso].
    assert (Z.testbit (Z.land a (a - 1)) k = true) as Ht; [|by rewrite Hl, Z.testbit_0_l in Ht].
    rewrite Z.pow_succ_r in Hb by done.
    assert (forall x, 2 ^ k <= x < 2 * 2 ^ k -> Z.testbit x k = true) as Hbit.
    { intros x Hx. apply Z.testbit_true; [done|]. replace (x / 2 ^ k) with 1; [done|].
      apply Z.div_unique with (r := x - 2 ^ k); lia. }
    rewrite Z.land_spec, !Hbit by lia. done.
  - intros (k & Hk & ->). assert (0 < 2 ^ k) by (by apply Z.pow_pos_nonneg). split; [lia|].
    rewrite ones_pow, Z.land_ones, Z.mod_same by lia. done.
Qed.

(** ** The bump allocator *)

Definition bump_ok (b : BumpAllocator) : Prop :=
  0 < start_addr_ b <= current_ b /\ current_ b <= end_ b /\ end_ b = start_addr_ b + length_ b /\ end_ b + max_align <= 2 ^ 64 /\
  used_count_ b = current_ b - start_addr_ b /\ free_count_ b = end_ b - current_ b.

(** The request does not run past the end of the address space. *)
Definition request_ok (n : Z) (b : BumpAllocator) : Prop := 0 < n /\ end_ b + max_align + n <= 2 ^ 64.

(** The allocator after the bytes up to [next] were given out. *)
Definition bumped (b : BumpAllocator) (next : Z) : BumpAllocator :=
  MkBump (start_addr_ b) (length_ b) (end_ b - next) (next - start_addr_ b) next (end_ b).

Lemma bumped_ok b next : bump_ok b -> current_ b <= next <= end_ b -> bump_ok (bumped b next).
Proof. intros (H1 & H2 & H3 & H4 & H5 & H6) Hn. unfold bump_ok. cbn. lia. Qed.

Lemma new_bump_ok start bytes : 0 < start -> 0 <= bytes -> start + bytes + max_align <= 2 ^ 64 -> bump_ok (new_bump start bytes).
Proof. intros H1 H2 H3. unfold bump_ok, new_bump, max_align in *. cbn. rewrite u64_small; lia. Qed.

Lemma AllocImpl_spec b n : bump_ok b -> request_ok n b ->
  let p := up 4 (current_ b) in
  AllocImpl n b = if end_ b <? p + n then (nullptr, b) else (p, bumped b (p + n)).
Proof.
  intros Hb [Hn Hr] p. pose proof Hb as (H1 & H2 & H3 & H4 & _). unfold max_align in *.
  pose proof (up_spec 4 (current_ b) ltac:(lia)) as [Hp _]. fold p in Hp. change (2 ^ 4) with 16 in Hp.
  unfold AllocImpl. rewrite (proj2 (Z.eqb_neq n 0)) by lia. change max_align with (2 ^ 4).
  rewrite align_up_up by (change (2 ^ 4) with 16; lia). fold p. rewrite (u64_small (p + n)) by lia.
  destruct (Z.ltb_spec (end_ b) (p + n)); [done|]. f_equal. unfold bumped. f_equal; [|rewrite u64_small; lia].
  destruct (Z.ltb_spec (p + n) (end_ b)); [rewrite u64_small|]; lia.
Qed.

Section heap.
Implicit Types (s : Heap) (p n : Z) (m : mem).

(** The memory that the allocator manages is there. *)
Definition heap_ok s : Prop :=
  bump_ok (allocator_ s) /\ mapped (bytes_ s) (start_addr_ (allocator_ s)) (Z.to_nat (length_ (allocator_ s))).

Lemma Alloc_spec s n : heap_ok s -> request_ok n (allocator_ s) ->
  let b := allocator_ s in let p := up 4 (current_ b) in
  if end_ b <? p + n then Alloc n s = Ret s nullptr
  else Alloc n s = Ret (MkHeap (bytes_ s) (bumped b (p + n))) p /\ heap_ok (MkHeap (bytes_ s) (bumped b (p + n))).
Proof.
  intros [Hb Hm] Hr b p. unfold Alloc. rewrite AllocImpl_spec by done. fold b p. destruct (Z.ltb_spec (end_ b) (p + n)).
  - by destruct s.
  - split; [done|]. split; [|done]. cbn. apply bumped_ok; [done|]. pose proof (up_spec 4 (current_ b) ltac:(lia)). destruct Hr. lia.
Qed.

(** Bytes of the managed memory. *)
Lemma heap_mapped s a k : heap_ok s -> start_addr_ (allocator_ s) <= a -> a + Z.of_nat k <= end_ (allocator_ s) -> mapped (bytes_ s) a k.
Proof.
  intros [(H1 & H2 & H3 & _) Hm] Ha Hk i Hi. replace (a + Z.of_nat i) with (start_addr_ (allocator_ s) + Z.of_nat (Z.to_nat (a - start_addr_ (allocator_ s)) + i)) by lia.
  apply Hm. lia.
Qed.

Lemma heap_ok_write s p bs : heap_ok s -> heap_ok (MkHeap (write_bytes p bs (bytes_ s)) (allocator_ s)).
Proof. intros [Hb Hm]. split; [done|]. by apply mapped_write_bytes. Qed.

(** ** The operations *)

(** A block that was given out: [g_size] bytes at [g_ptr], and [g_word] bytes before it that the heap uses. *)
Record grant := MkGrant { g_ptr : ptr; g_size : Z; g_word : Z; g_align : Z }.
Definition g_low (g : grant) : Z := g_ptr g - g_word g.
Definition g_high (g : grant) : Z := g_ptr g + g_size g.

(** What an operation that was given [g] did: the block is new, aligned and inside the heap. *)
Definition granted s (g : grant) s' : Prop :=
  heap_ok s' /\ current_ (allocator_ s) <= g_low g /\ g_high g <= current_ (allocator_ s') /\ 0 <= g_word g /\ 0 < g_size g /\
  g_ptr g mod g_align g = 0 /\ start_addr_ (allocator_ s') = start_addr_ (allocator_ s) /\ length_ (allocator_ s') = length_ (allocator_ s) /\
  (forall a, a < g_low g \/ g_high g <= a -> bytes_ s' !! a = bytes_ s !! a).

Lemma malloc_spec s n : heap_ok s -> request_ok n (allocator_ s) ->
  malloc n s = Ret s nullptr \/ exists p s', malloc n s = Ret s' p /\ p <> nullptr /\ bytes_ s' = bytes_ s /\ granted s (MkGrant p n 0 max_align) s'.
Proof.
  intros Hs Hr. pose proof (Alloc_spec s n Hs Hr) as H. cbn zeta in H. pose proof Hr as [Hn _]. unfold malloc.
  rewrite (proj2 (Z.eqb_neq n 0)) by lia. destruct (_ <? _) eqn:E; [by left|right]. destruct H as [H Hok].
  destruct (up_spec 4 (current_ (allocator_ s)) ltac:(lia)) as [Hp Hm]. pose proof Hs as [(H1 & _) _].
  eexists _, _. split; [exact H|]. split; [unfold nullptr; lia|]. split; [done|]. unfold granted, g_low, g_high. cbn.
  split_and!; done || lia.
Qed.

Lemma calloc_spec s num size : heap_ok s -> 0 < num -> 0 < size -> request_ok (num * size) (allocator_ s) ->
  calloc num size s = Ret s nullptr \/ exists p s', calloc num size s = Ret s' p /\ p <> nullptr /\
    bytes_at (bytes_ s') p (replicate (Z.to_nat (num * size)) 0) /\ granted s (MkGrant p (num * size) 0 max_align) s'.
Proof.
  intros Hs Hn Hz Hr. unfold calloc. rewrite (proj2 (Z.eqb_neq num 0)), (proj2 (Z.eqb_neq size 0)) by lia. cbn [orb].
  pose proof Hs as [(H1 & H2 & H3 & H4 & _) _]. destruct Hr as [Hp Hb]. unfold max_align in *.
  assert ((SIZE_MAX / size <? num) = false) as ->.
  { apply Z.ltb_ge. apply Z.div_le_lower_bound; [lia|]. unfold SIZE_MAX. lia. }
  rewrite (u64_small (num * size)) by lia. set (n := num * size) in *.
  pose proof (Alloc_spec s n Hs (conj Hp Hb)) as H. cbn zeta in H. destruct (_ <? _) eqn:E.
  - left. by rewrite (bind_Ret _ _ _ _ _ H).
  - destruct H as [HA Hok]. right. rewrite (bind_Ret _ _ _ _ _ HA). apply Z.ltb_ge in E. set (p := up 4 (current_ (allocator_ s))) in *.
    destruct (up_spec 4 (current_ (allocator_ s)) ltac:(lia)) as [Hu Hm]. fold p in Hu, Hm.
    assert ((p =? nullptr) = false) as -> by (apply Z.eqb_neq; unfold nullptr; lia). cbn [negb].
    assert (mapped (bytes_ s) p (Z.to_nat n)) as Hmap by (apply heap_mapped; [done|lia|lia]).
    unfold bind, on_memory. cbn [bytes_ allocator_]. pose proof (memset_spec _ _ 0 _ Hmap) as Hms.
    rewrite Z2Nat.id in Hms by lia. rewrite Hms.
    eexists _, _. split; [reflexivity|]. split; [unfold nullptr; lia|]. split; [by apply write_bytes_at|].
    unfold granted, g_low, g_high. cbn. split_and!; try done; try lia.
    + apply (heap_ok_write _ p (replicate (Z.to_nat n) (u8 0)) Hok).
    + intros a Ha. apply write_bytes_other. rewrite length_replicate. lia.
Qed.

(** The word before an aligned block holds the address of the original block. *)
Lemma aligned_alloc_spec s k n : heap_ok s -> 0 <= k -> 2 ^ k < 2 ^ 63 -> 0 < n ->
  request_ok (n + (2 ^ k + 7)) (allocator_ s) ->
  let original := up 4 (current_ (allocator_ s)) in let next := original + (n + (2 ^ k + 7)) in
  if end_ (allocator_ s) <? next then aligned_alloc (2 ^ k) n s = Ret s nullptr
  else exists p s', aligned_alloc (2 ^ k) n s = Ret s' p /\ p <> nullptr /\ p mod 2 ^ k = 0 /\ original + 8 <= p /\ p + n <= next /\
    allocator_ s' = bumped (allocator_ s) next /\ bytes_ s' = write_bytes (p - 8) (le_bytes 8 original) (bytes_ s) /\ heap_ok s'.
Proof.
  intros Hs Hk Hk2 Hn Hr o next. assert (0 < 2 ^ k) as Hpk by (by apply Z.pow_pos_nonneg). unfold aligned_alloc.
  rewrite (proj2 (good_alignment (2 ^ k) ltac:(lia))) by (by exists k). rewrite (proj2 (Z.eqb_neq n 0)) by lia.
  pose proof Hs as [(H1 & H2 & H3 & H4 & _) _]. pose proof Hr as [_ Hb]. unfold max_align in *.
  unfold extra_offset, pointer_size. rewrite (u64_small (2 ^ k - 1 + 8)) by lia.
  replace (2 ^ k - 1 + 8) with (2 ^ k + 7) by lia. rewrite (u64_small (n + (2 ^ k + 7))) by lia.
  pose proof (Alloc_spec s _ Hs Hr) as H. cbn zeta in H. fold o in H. fold next in H. destruct (_ <? _) eqn:E.
  - by rewrite (bind_Ret _ _ _ _ _ H).
  - destruct H as [HA Hok]. rewrite (bind_Ret _ _ _ _ _ HA). apply Z.ltb_ge in E.
    destruct (up_spec 4 (current_ (allocator_ s)) ltac:(lia)) as [Hu _]. fold o in Hu. change (2 ^ 4) with 16 in Hu.
    rewrite (proj2 (Z.eqb_neq o nullptr)) by (unfold nullptr; lia). rewrite (u64_small (o + (2 ^ k + 7))) by lia.
    rewrite mask_down by lia. set (p := (o + (2 ^ k + 7)) / 2 ^ k * 2 ^ k).
    assert (o + 8 <= p <= o + (2 ^ k + 7)) as Hp.
    { unfold p. pose proof (Z.div_mod (o + (2 ^ k + 7)) (2 ^ k)). pose proof (Z.mod_pos_bound (o + (2 ^ k + 7)) (2 ^ k)). lia. }
    rewrite (u64_small (p - 8)) by lia. unfold bind, store_ptr. cbn [bytes_ allocator_].
    assert (mapped (bytes_ s) (p - 8) 8) as Hmap by (apply heap_mapped; [done|lia|lia]).
    destruct (proj2 (load_le_mapped 8 (bytes_ s) (p - 8)) Hmap) as [w Ew]. rewrite Ew.
    eexists p, _. split; [reflexivity|]. cbn [bytes_ allocator_]. unfold nullptr, next.
    split_and!; try done; try lia; [by apply Z.mod_mul; lia|]. by apply (heap_ok_write _ _ _ Hok).
Qed.

(** ** Programs that use the heap *)

Inductive heap_op :=
| Malloc (n : Z) | Calloc (num size : Z) | AlignedAlloc (alignment n : Z) | Realloc (p : ptr) (n : Z) | Release (p : ptr) | AlignedRelease (p : ptr).

(** The block of a pointer that is not null. *)
Definition block (p n word alignment : Z) : list grant := if p =? nullptr then [] else [MkGrant p n word alignment].

Definition run_op (o : heap_op) : HM (list grant) :=
  match o with
  | Malloc n => let* p := malloc n in ret (block p n 0 max_align)
  | Calloc num size => let* p := calloc num size in ret (block p (num * size) 0 max_align)
  | AlignedAlloc alignment n => let* p := aligned_alloc alignment n in ret (block p n pointer_size alignment)
  | Realloc p n => let* q := realloc p n in ret (if q =? p then [] else block q n 0 max_align)
  | Release p => let* _ := free p in ret []
  | AlignedRelease p => let* _ := aligned_free p in ret []
  end.

Fixpoint run_ops (os : list heap_op) : HM (list grant) :=
  match os with
  | [] => ret []
  | o :: os => let* g := run_op o in let* gs := run_ops os in ret (g ++ gs)
  end.

(** Sizes below 2^62, and pointers to release that the heap may have given out. *)
Definition op_ok (low high : Z) (o : heap_op) : Prop :=
  match o with
  | Malloc n => 0 <= n < 2 ^ 62
  | Calloc num size => 0 <= num /\ 0 <= size /\ num * size < 2 ^ 62
  | AlignedAlloc alignment n => 0 <= alignment < 2 ^ 62 /\ 0 <= n < 2 ^ 62
  | Realloc p n => 0 <= n < 2 ^ 62
  | Release p => True
  | AlignedRelease p => p = nullptr \/ low + pointer_size <= p <= high
  end.

Definition same_region s s' : Prop :=
  start_addr_ (allocator_ s') = start_addr_ (allocator_ s) /\ end_ (allocator_ s') = end_ (allocator_ s) /\
  current_ (allocator_ s) <= current_ (allocator_ s').

(** What one operation does: nothing, or one new block above all earlier ones. *)
Definition op_done s (gs : list grant) s' : Prop :=
  heap_ok s' /\ same_region s s' /\
  Forall (fun g => current_ (allocator_ s) <= g_low g /\ g_low g < g_high g <= current_ (allocator_ s') /\ g_ptr g mod g_align g = 0) gs /\
  (length gs <= 1)%nat /\
  (forall a, Forall (fun g => a < g_low g \/ g_high g <= a) gs -> bytes_ s' !! a = bytes_ s !! a).

Lemma op_done_none s : heap_ok s -> op_done s [] s.
Proof. intros Hs. split; [done|]. split; [unfold same_region; lia|]. cbn. split; [done|]. split; [lia|done]. Qed.

Lemma op_done_granted s g s' : heap_ok s -> granted s g s' -> op_done s [g] s'.
Proof.
  intros [(H1 & H2 & H3 & _) _] (Hok & Hl & Hh & Hw & Hz & Hm & Es & El & Hf). pose proof Hok as [(_ & _ & H3' & _) _].
  unfold op_done, same_region, g_low, g_high in *. split_and!; try done; try lia.
  - constructor; [|constructor]. split_and!; done || lia.
  - intros a Ha. apply Forall_cons in Ha as [Ha _]. by apply Hf.
Qed.

Lemma request_small s n : heap_ok s -> end_ (allocator_ s) < 2 ^ 62 -> 0 < n < 2 ^ 63 + 2 ^ 61 -> request_ok n (allocator_ s).
Proof. intros _ He Hn. unfold request_ok, max_align. lia. Qed.

Lemma aligned_op s k n : heap_ok s -> end_ (allocator_ s) < 2 ^ 62 -> 0 <= k -> 2 ^ k < 2 ^ 62 -> 0 < n < 2 ^ 62 ->
  exists s' p, aligned_alloc (2 ^ k) n s = Ret s' p /\ op_done s (block p n pointer_size (2 ^ k)) s'.
Proof.
  intros Hs He Hk Hk2 Hn. assert (0 < 2 ^ k) by (by apply Z.pow_pos_nonneg).
  assert (request_ok (n + (2 ^ k + 7)) (allocator_ s)) as Hr by (apply request_small; done || lia).
  pose proof (aligned_alloc_spec s k n Hs Hk ltac:(lia) ltac:(lia) Hr) as H'. cbn zeta in H'. destruct (_ <? _) eqn:Ec.
  - exists s, nullptr. split; [done|]. by apply op_done_none.
  - destruct H' as (p & s' & E & Hp & Hm & Hlo & Hhi & Hb & Hw & Hok). exists s', p. split; [done|].
    unfold block. rewrite (proj2 (Z.eqb_neq p nullptr) Hp). apply op_done_granted; [done|].
    destruct (up_spec 4 (current_ (allocator_ s)) ltac:(lia)) as [Hu _].
    unfold granted, g_low, g_high, pointer_size. cbn [g_ptr g_size g_word g_align]. rewrite Hb. cbn [bumped current_ start_addr_ length_].
    split_and!; try done; try lia. intros a Ha. rewrite Hw. apply write_bytes_other. rewrite le_bytes_length. lia.
Qed.

Lemma aligned_free_noop s p : heap_ok s -> p = nullptr \/ start_addr_ (allocator_ s) + pointer_size <= p <= end_ (allocator_ s) ->
  aligned_free p s = Ret s tt.
Proof.
  intros Hs Hp. unfold aligned_free. destruct (Z.eqb_spec p nullptr) as [|Hn]; [done|]. destruct Hp as [|Hp]; [done|].
  pose proof Hs as [(H1 & H2 & H3 & H4 & _) _]. unfold pointer_size, max_align in *. rewrite u64_small by lia.
  assert (mapped (bytes_ s) (p - 8) 8) as Hm by (apply heap_mapped; [done|lia|lia]).
  destruct (proj2 (load_le_mapped 8 (bytes_ s) (p - 8)) Hm) as [w Ew].
  rewrite (bind_Ret _ _ s s w) by (unfold load_ptr; by rewrite Ew). destruct (w =? nullptr); [done|]. by destruct s.
Qed.

Lemma run_op_spec s o : heap_ok s -> end_ (allocator_ s) < 2 ^ 62 -> op_ok (start_addr_ (allocator_ s)) (end_ (allocator_ s)) o ->
  exists s' gs, run_op o s = Ret s' gs /\ op_done s gs s'.
Proof.
  intros Hs He Ho. pose proof (op_done_none s Hs) as Hnone.
  assert (forall n, 0 < n < 2 ^ 62 -> exists s' p, Alloc n s = Ret s' p /\ op_done s (block p n 0 max_align) s') as Halloc.
  { intros n Hn. pose proof (malloc_spec s n Hs (request_small s n Hs He ltac:(lia))) as H. unfold malloc in H.
    rewrite (proj2 (Z.eqb_neq n 0)) in H by lia. destruct H as [E|(p & s' & E & Hp & _ & Hg)]; [by exists s, nullptr|].
    exists s', p. split; [done|]. unfold block. rewrite (proj2 (Z.eqb_neq p nullptr) Hp). by apply op_done_granted. }
  destruct o as [n|num size|al n|p n|p|p]; cbn [run_op op_ok] in *.
  - unfold malloc. destruct (Z.eqb_spec n 0) as [->|Hn]; [by exists s, []|].
    destruct (Halloc n ltac:(lia)) as (s' & p & E & Hd). exists s', (block p n 0 max_align). by rewrite (bind_Ret _ _ _ _ _ E).
  - destruct (decide (num = 0 \/ size = 0)) as [Hz|Hz].
    + assert (calloc num size s = Ret s nullptr) as E by (unfold calloc; destruct Hz as [->| ->]; [done|by rewrite orb_true_r]).
      exists s, []. by rewrite (bind_Ret _ _ _ _ _ E).
    + destruct Ho as (Hn & Hz' & Hl). assert (0 < num * size) by nia.
      destruct (calloc_spec s num size Hs ltac:(lia) ltac:(lia) (request_small s (num * size) Hs He ltac:(lia))) as [E|(p & s' & E & Hp & _ & Hg)].
      * exists s, []. by rewrite (bind_Ret _ _ _ _ _ E).
      * exists s', (block p (num * size) 0 max_align). rewrite (bind_Ret _ _ _ _ _ E). split; [done|]. unfold block.
        rewrite (proj2 (Z.eqb_neq p nullptr) Hp). by apply op_done_granted.
  - destruct (bad_alignment al) eqn:Eb; [|destruct (Z.eqb_spec n 0) as [->|Hn]].
    + exists s, []. unfold aligned_alloc. by rewrite Eb.
    + exists s, []. unfold aligned_alloc. by rewrite Eb.
    + apply good_alignment in Eb as (k & Hk & ->); [|lia].
      destruct (aligned_op s k n Hs He Hk ltac:(lia) ltac:(lia)) as (s' & p & E & Hd).
      exists s', (block p n pointer_size (2 ^ k)). by rewrite (bind_Ret _ _ _ _ _ E).
  - unfold realloc. destruct (Z.eqb_spec p nullptr) as [->|Hp].
    + destruct (Z.eqb_spec n 0) as [->|Hn]; [by exists s, []; destruct s|].
      destruct (Halloc n ltac:(lia)) as (s' & q & E & Hd). exists s', (block q n 0 max_align). rewrite (bind_Ret _ _ _ _ _ E).
      split; [|done]. unfold block. by destruct (q =? nullptr).
    + exists s, []. split; [|done]. assert (realloc p n s = Ret s nullptr) as E.
      { unfold realloc. rewrite (proj2 (Z.eqb_neq p nullptr) Hp). destruct (n =? 0); by destruct s. }
      unfold realloc in E. rewrite (proj2 (Z.eqb_neq p nullptr) Hp) in E. rewrite (bind_Ret _ _ _ _ _ E).
      unfold block. by destruct (nullptr =? p).
  - exists s, []. split; [|done]. unfold free. destruct (p =? nullptr); [done|]. by destruct s.
  - exists s, []. by rewrite (bind_Ret _ _ _ _ _ (aligned_free_noop s p Hs Ho)).
Qed.

Definition in_order (gs : list grant) : Prop := StronglySorted (fun g g' => g_high g <= g_low g') gs.

Lemma run_ops_spec os : forall s, heap_ok s -> end_ (allocator_ s) < 2 ^ 62 ->
  Forall (op_ok (start_addr_ (allocator_ s)) (end_ (allocator_ s))) os ->
  exists s' gs, run_ops os s = Ret s' gs /\ heap_ok s' /\ same_region s s' /\ in_order gs /\
    Forall (fun g => current_ (allocator_ s) <= g_low g /\ g_low g < g_high g <= current_ (allocator_ s') /\ g_ptr g mod g_align g = 0) gs /\
    (forall a, Forall (fun g => a < g_low g \/ g_high g <= a) gs -> bytes_ s' !! a = bytes_ s !! a).
Proof.
  induction os as [|o os IH]; intros s Hs He Ho; cbn [run_ops].
  - exists s, []. split; [done|]. split; [done|]. split; [unfold same_region; lia|]. split; [constructor|]. by split.
  - apply Forall_cons in Ho as [Ho Hos]. destruct (run_op_spec s o Hs He Ho) as (s1 & g & E1 & Hs1 & (Ea & Eb & Ec) & Hg & Hone & Hm1).
    destruct (IH s1 Hs1) as (s2 & gs & E2 & Hs2 & (Ea2 & Eb2 & Ec2) & Hord & Hgs & Hm2); [by rewrite Eb|by rewrite Ea, Eb|].
    exists s2, (g ++ gs). rewrite (bind_Ret _ _ _ _ _ E1), (bind_Ret _ _ _ _ _ E2). split; [done|]. split; [done|].
    split; [unfold same_region; split_and!; congruence || lia|]. split_and!.
    + destruct g as [|x [|y g]]; [done| |cbn in Hone; lia]. cbn. constructor; [done|]. apply Forall_cons in Hg as [Hx _].
      eapply Forall_impl; [exact Hgs|]. intros z Hz. cbn beta in *. lia.
    + apply Forall_app. split; [eapply Forall_impl; [exact Hg|]|eapply Forall_impl; [exact Hgs|]]; intros z Hz; cbn beta in *; split_and!; try done; lia.
    + intros a Ha. apply Forall_app in Ha as [Ha1 Ha2]. by rewrite Hm2, Hm1.
Qed.

Lemma in_order_lookup gs i j gi gj : in_order gs -> (i < j)%nat -> gs !! i = Some gi -> gs !! j = Some gj -> g_high gi <= g_low gj.
Proof.
  intros Hs. revert i j. induction Hs as [|g gs Hs IH Hg]; intros i j Hij Hi Hj; [done|].
  destruct j as [|j]; [lia|]. destruct i as [|i]; cbn in *.
  - injection Hi as <-. by apply (proj1 (Forall_lookup _ _) Hg j).
  - apply (IH i j); done || lia.
Qed.

End heap.

(** ** Two cores in the allocator *)

(** [AllocImpl] on several cores: the accesses to [current_] one by one.  [LockBase] does not keep them apart. *)
Inductive alloc_pc :=
| AtLoad (n : Z)                 (* about to read current_ *)
| AtStore (cur next : Z)         (* about to write current_ *)
| AtCount (cur : Z)              (* about to write the counters *)
| Returned (p : ptr).

Record Shared := MkShared { shared_bump : BumpAllocator; pcs : gmap Z alloc_pc }.

Definition set_current (next : Z) (b : BumpAllocator) : BumpAllocator :=
  MkBump (start_addr_ b) (length_ b) (free_count_ b) (used_count_ b) next (end_ b).
Definition set_counts (b : BumpAllocator) : BumpAllocator :=
  MkBump (start_addr_ b) (length_ b) (if current_ b <? end_ b then u64 (end_ b - current_ b) else 0)
    (u64 (current_ b - start_addr_ b)) (current_ b) (end_ b).

(** One access of core [c]. *)
Definition alloc_access (pc : alloc_pc) (b : BumpAllocator) : alloc_pc * BumpAllocator :=
  match pc with
  | AtLoad n =>
      if n =? 0 then (Returned nullptr, b)
      else
        let cur := align_up (current_ b) max_align in
        let next := u64 (cur + n) in
        if end_ b <? next then (Returned nullptr, b) else (AtStore cur next, b)
  | AtStore cur next => (AtCount cur, set_current next b)
  | AtCount cur => (Returned cur, set_counts b)
  | Returned p => (pc, b)
  end.

Definition alloc_step (c : Z) (s : Shared) : option Shared :=
  pc ← pcs s !! c; let r := alloc_access pc (shared_bump s) in Some (MkShared r.2 (<[c := r.1]> (pcs s))).

(** The cores take their turns as the list says. *)
Fixpoint schedule (cs : list Z) (s : Shared) : option Shared :=
  match cs with
  | [] => Some s
  | c :: cs => s' ← alloc_step c s; schedule cs s'
  end.

Lemma schedule_step c cs s pc pc' b' : pcs s !! c = Some pc -> alloc_access pc (shared_bump s) = (pc', b') ->
  schedule (c :: cs) s = schedule cs (MkShared b' (<[c := pc']> (pcs s))).
Proof. intros Hc Ha. cbn [schedule]. unfold alloc_step. rewrite Hc. cbn. by rewrite Ha. Qed.

(** A core that runs alone performs [AllocImpl]. *)
Lemma alloc_alone n b c :
  let r := AllocImpl n b in
  schedule [c; c; c] (MkShared b {[ c := AtLoad n ]}) = Some (MkShared r.2 {[ c := Returned r.1 ]}).
Proof.
  assert (forall pc pc' b' cs, alloc_access pc b' = pc' -> schedule (c :: cs) (MkShared b' {[ c := pc ]}) = schedule cs (MkShared pc'.2 {[ c := pc'.1 ]})) as Hs.
  { intros pc [pc' b''] b' cs E. erewrite schedule_step; [|apply lookup_singleton_eq|exact E]. cbn. by rewrite insert_singleton_eq. }
  unfold AllocImpl. rewrite (Hs _ _ _ _ eq_refl). cbn [alloc_access]. destruct (n =? 0); cbn [fst snd].
  - by rewrite !(Hs _ _ _ _ eq_refl).
  - destruct (_ <? _); by rewrite !(Hs _ _ _ _ eq_refl).
Qed.

(** ** Theorems *)

(** C10: Every program of [malloc], [calloc], [aligned_alloc], [realloc], [free] and [aligned_free] calls with sizes below 2^62 returns; the blocks it
    is given, with the words the heap keeps before aligned blocks, lie inside the managed memory, are aligned and do not overlap; memory outside
    them is as it was, and the two counters add up to the size of the heap. *)
Theorem heap_blocks_disjoint (start bytes : Z) (m : mem) (os : list heap_op) :
  0 < start -> 0 <= bytes -> start + bytes < 2 ^ 62 -> mapped m start (Z.to_nat bytes) -> Forall (op_ok start (start + bytes)) os ->
  exists s gs, run_ops os (MkHeap m (new_bump start bytes)) = Ret s gs /\
    Forall (fun g => start <= g_low g /\ g_low g < g_high g <= start + bytes /\ g_ptr g mod g_align g = 0) gs /\
    (forall i j gi gj, (i < j)%nat -> gs !! i = Some gi -> gs !! j = Some gj -> g_high gi <= g_low gj) /\
    (forall a, Forall (fun g => a < g_low g \/ g_high g <= a) gs -> bytes_ s !! a = m !! a) /\
    GetUsedCount (allocator_ s) + GetFreeCount (allocator_ s) = bytes.
Proof.
  intros H1 H2 H3 Hm Ho. assert (end_ (new_bump start bytes) = start + bytes) as He by (cbn; rewrite u64_small; lia).
  assert (heap_ok (MkHeap m (new_bump start bytes))) as Hok by (split; [apply new_bump_ok; unfold max_align; lia|done]).
  destruct (run_ops_spec os (MkHeap m (new_bump start bytes)) Hok) as (s & gs & E & Hs & (Ea & Eb & Ec) & Hord & Hg & Hf).
  { cbn [allocator_]. lia. } { cbn [allocator_]. by rewrite He. }
  cbn [allocator_ bytes_] in *. rewrite He in Eb. destruct Hs as [(G1 & G2 & G3 & G4 & G5 & G6) _]. cbn [new_bump start_addr_ current_] in *.
  exists s, gs. split_and!; [done| | |done|].
  - eapply Forall_impl; [exact Hg|]. intros g Hx. cbn beta in *. split_and!; try done; lia.
  - intros i j gi gj. by apply in_order_lookup.
  - unfold GetUsedCount, GetFreeCount. lia.
Qed.

Lemma heap_blocks_disjoint_witness :
  exists s gs, run_ops [Malloc 24; AlignedAlloc 64 8; Calloc 2 4] (MkHeap (write_bytes 4096 (replicate 128 7) ∅) (new_bump 4096 128)) = Ret s gs /\
    g_ptr <$> gs = [4096; 4160; 4208] /\ GetUsedCount (allocator_ s) + GetFreeCount (allocator_ s) = 128.
Proof.
  destruct (heap_blocks_disjoint 4096 128 (write_bytes 4096 (replicate 128 7) ∅) [Malloc 24; AlignedAlloc 64 8; Calloc 2 4]) as (s & gs & E & _ & _ & _ & Hc).
  { lia. } { lia. } { lia. } { apply (bytes_at_mapped _ _ (replicate 128 7)). apply write_bytes_at. } { repeat constructor; cbn; lia. }
  exists s, gs. split; [done|]. split; [|done]. revert E. vm_compute. intros E. by injection E as _ <-.
Defined.

(** [malloc] does not notice that a size runs past the end of the address space: a request of 2^64 - 16 k bytes succeeds, moves the allocator 16 k
    bytes back, and the next request is given memory that belongs to blocks given out before. *)
Theorem malloc_wraps_around (s : Heap) (k n : Z) :
  heap_ok s -> current_ (allocator_ s) mod 16 = 0 -> 0 < k -> 16 * k <= used_count_ (allocator_ s) -> 0 < n <= 16 * k ->
  let c := current_ (allocator_ s) in
  exists s1 s2, malloc (2 ^ 64 - 16 * k) s = Ret s1 c /\ c <> nullptr /\ malloc n s1 = Ret s2 (c - 16 * k) /\
    start_addr_ (allocator_ s) <= c - 16 * k /\ (c - 16 * k) + n <= c.
Proof.
  intros [(H1 & H2 & H3 & H4 & H5 & H6) _] Hc Hk Hu Hn c. unfold max_align in *.
  assert (forall v, 0 <= v <= 2 ^ 64 - 16 -> v mod 16 = 0 -> align_up v 16 = v) as Hal.
  { intros v Hv Hm. change 16 with (2 ^ 4) at 1. rewrite align_up_up by (change (2 ^ 4) with 16; lia). unfold up. change (2 ^ 4) with 16.
    replace (v + (16 - 1)) with (15 + v / 16 * 16) by (pose proof (Z.div_mod v 16); lia). rewrite Z.div_add by lia.
    change (15 / 16) with 0. pose proof (Z.div_mod v 16). lia. }
  assert ((c - 16 * k) mod 16 = 0) as Hck.
  { replace (c - 16 * k) with (c + (- k) * 16) by lia. by rewrite Z.mod_add by lia. }
  set (b1 := MkBump (start_addr_ (allocator_ s)) (length_ (allocator_ s)) (end_ (allocator_ s) - (c - 16 * k))
               (c - 16 * k - start_addr_ (allocator_ s)) (c - 16 * k) (end_ (allocator_ s))).
  assert (malloc (2 ^ 64 - 16 * k) s = Ret (MkHeap (bytes_ s) b1) c) as E1.
  { unfold malloc, Alloc, AllocImpl. rewrite (proj2 (Z.eqb_neq (2 ^ 64 - 16 * k) 0)) by lia. unfold max_align. fold c. rewrite Hal by (fold c; lia || done).
    assert (u64 (c + (2 ^ 64 - 16 * k)) = c - 16 * k) as ->.
    { unfold u64, wrap. replace (c + (2 ^ 64 - 16 * k)) with (c - 16 * k + 1 * 2 ^ 64) by lia. rewrite Z.mod_add, Z.mod_small; lia. }
    rewrite (proj2 (Z.ltb_ge (end_ (allocator_ s)) (c - 16 * k))) by lia. cbn [fst snd]. unfold b1. repeat f_equal; [|rewrite u64_small; lia].
    rewrite (proj2 (Z.ltb_lt (c - 16 * k) (end_ (allocator_ s)))) by lia. rewrite u64_small; lia. }
  assert (exists s2, malloc n (MkHeap (bytes_ s) b1) = Ret s2 (c - 16 * k)) as [s2 E2].
  { unfold malloc, Alloc, AllocImpl. rewrite (proj2 (Z.eqb_neq n 0)) by lia. unfold max_align. cbn [allocator_ b1 current_ end_].
    rewrite Hal by (lia || done). rewrite (u64_small (c - 16 * k + n)) by lia.
    rewrite (proj2 (Z.ltb_ge (end_ (allocator_ s)) (c - 16 * k + n))) by lia. by eexists. }
  exists (MkHeap (bytes_ s) b1), s2. unfold nullptr. split_and!; try done; lia.
Qed.

Lemma malloc_wraps_around_witness :
  exists s1 s2, malloc (2 ^ 64 - 16) (MkHeap (write_bytes 4096 (replicate 64 7) ∅) (bumped (new_bump 4096 64) 4128)) = Ret s1 4128 /\
    malloc 8 s1 = Ret s2 4112.
Proof.
  destruct (malloc_wraps_around (MkHeap (write_bytes 4096 (replicate 64 7) ∅) (bumped (new_bump 4096 64) 4128)) 1 8) as (s1 & s2 & E1 & _ & E2 & _).
  { split; [apply bumped_ok; [apply new_bump_ok; unfold max_align; lia|by vm_compute]|]. apply (bytes_at_mapped _ _ (replicate 64 7)). apply write_bytes_at. }
  { done. } { lia. } { cbn. lia. } { lia. }
  by exists s1, s2.
Defined.

(** The heap of the kernel is not protected by a lock: two cores that allocate at the same time can both be given the same block, whatever the
    state of the heap, as soon as the request fits. *)
Theorem heap_race (b : BumpAllocator) (n : Z) (c1 c2 : Z) :
  bump_ok b -> request_ok n b -> up 4 (current_ b) + n <= end_ b -> c1 <> c2 ->
  let p := up 4 (current_ b) in
  exists s, schedule [c1; c2; c1; c2; c1; c2] (MkShared b {[ c1 := AtLoad n; c2 := AtLoad n ]}) = Some s /\
    pcs s !! c1 = Some (Returned p) /\ pcs s !! c2 = Some (Returned p) /\ p <> nullptr /\ current_ (shared_bump s) = p + n.
Proof.
  intros Hb Hr Hfit Hc p. pose proof Hb as (H1 & H2 & H3 & H4 & _). destruct Hr as [Hn Hr]. unfold max_align in *.
  destruct (up_spec 4 (current_ b) ltac:(lia)) as [Hp _]. fold p in Hp, Hfit. change (2 ^ 4) with 16 in Hp.
  assert (forall b', current_ b' = current_ b -> end_ b' = end_ b -> alloc_access (AtLoad n) b' = (AtStore p (p + n), b')) as Hload.
  { intros b' Ec Ee. unfold alloc_access. rewrite (proj2 (Z.eqb_neq n 0)), Ec, Ee by lia. change max_align with (2 ^ 4).
    rewrite align_up_up by (change (2 ^ 4) with 16; lia). fold p. rewrite u64_small by lia.
    by rewrite (proj2 (Z.ltb_ge (end_ b) (p + n))) by lia. }
  erewrite (schedule_step c1); [|cbn [pcs]; by simplify_map_eq|cbn [shared_bump]; by apply Hload].
  erewrite (schedule_step c2); [|cbn [pcs]; by simplify_map_eq|cbn [shared_bump]; by apply Hload].
  erewrite (schedule_step c1); [|cbn [pcs]; by simplify_map_eq|cbn [shared_bump]; done].
  erewrite (schedule_step c2); [|cbn [pcs]; by simplify_map_eq|cbn [shared_bump]; done].
  erewrite (schedule_step c1); [|cbn [pcs]; by simplify_map_eq|cbn [shared_bump]; done].
  erewrite (schedule_step c2); [|cbn [pcs]; by simplify_map_eq|cbn [shared_bump]; done].
  eexists. split; [reflexivity|]. cbn [pcs shared_bump]. unfold nullptr. split_and!; [by simplify_map_eq|by simplify_map_eq|lia|done].
Qed.

Lemma heap_race_witness :
  exists s, schedule [0; 1; 0; 1; 0; 1] (MkShared (new_bump 4096 64) {[ 0 := AtLoad 24; 1 := AtLoad 24 ]}) = Some s /\
    pcs s !! 0 = Some (Returned 4096) /\ pcs s !! 1 = Some (Returned 4096).
Proof.
  destruct (heap_race (new_bump 4096 64) 24 0 1) as (s & E & H0 & H1 & _).
  { by apply new_bump_ok. } { by split. } { by vm_compute. } { done. }
  by exists s.
Defined.

(** [realloc] of a live block always fails, because the allocator does not know the size of a block; the heap is as it was. *)
Theorem realloc_never_succeeds (s : Heap) (p n : Z) : p <> nullptr -> realloc p n s = Ret s nullptr.
Proof. intros Hp. unfold realloc. rewrite (proj2 (Z.eqb_neq p nullptr) Hp). destruct (n =? 0); by destruct s. Qed.

(** A block from the aligned [operator new] with an alignment of at most 16 has no pointer before it, but the aligned [operator delete]
    reads one: for the first block of the heap it reads memory before the heap. *)
Theorem aligned_delete_reads_before_block (k : Kheap) (b : BumpAllocator) (n alignment : Z) :
  allocator k = Some b -> heap_ok (MkHeap (kmem k) b) -> current_ b = start_addr_ b -> start_addr_ b mod 16 = 0 ->
  16 <= start_addr_ b -> request_ok n b -> start_addr_ b + n <= end_ b -> alignment = 8 -> kmem k !! (start_addr_ b - 8) = None ->
  exists k', operator_new_aligned n alignment k = Ret k' (start_addr_ b) /\
    operator_delete_aligned (start_addr_ b) k' = Halt k' (BadPointer (start_addr_ b - 8)).
Proof.
  intros Hk Hh Hc Ha H16 Hr He -> Hn. pose proof Hr as [Hn0 Hr1]. unfold max_align in *.
  pose proof (Alloc_spec (MkHeap (kmem k) b) n Hh Hr) as HS. cbn zeta in HS. cbn [allocator_ bytes_] in HS.
  assert (up 4 (current_ b) = start_addr_ b) as Eu.
  { rewrite Hc. destruct (up_spec 4 (start_addr_ b) ltac:(lia)) as [Hu Hm]. change (2 ^ 4) with 16 in *.
    pose proof (Z.div_mod (start_addr_ b) 16). pose proof (Z.div_mod (up 4 (start_addr_ b)) 16). lia. }
  rewrite Eu in HS. rewrite (proj2 (Z.ltb_ge _ _)) in HS by lia. destruct HS as [HS _].
  eexists. unfold operator_new_aligned. rewrite (proj2 (Z.eqb_neq n 0)) by lia. change (bad_alignment 8) with false. change (8 <=? max_align) with true.
  unfold c_malloc, on_allocator, malloc. rewrite Hk, (proj2 (Z.eqb_neq n 0)), HS by lia. split; [reflexivity|].
  unfold operator_delete_aligned, c_aligned_free, on_allocator, aligned_free. rewrite (proj2 (Z.eqb_neq (start_addr_ b) nullptr)) by (unfold nullptr; lia).
  cbn [negb allocator kmem]. unfold bind, load_ptr, pointer_size. cbn [bytes_].
  assert (u64 (start_addr_ b - 8) = start_addr_ b - 8) as -> by (apply u64_small; destruct Hh as [(? & ? & ? & ? & _) _]; cbn in *; unfold max_align in *; lia).
  cbn [load_le]. by rewrite Hn.
Qed.

End BmallocProps.
