(* ===== verification/FirstFit.v ===== *)
(** * The first-fit page allocator: src/3rd/bmalloc/src/include/first_fit.hpp

    Pages are tracked in a bitmap of [kMaxPages] bits; an access to a bit behind
    its end is undefined and stops the run.  Allocation takes the first run of
    free pages that is long enough. *)

From stdpp Require Import base numbers list gmap.
From Stdlib Require Import ZArith Lia.
From S2P Require Import Prelude.

Local Open Scope Z_scope.

Module FirstFit.

Definition SIZE_MAX : Z := 2 ^ 64 - 1.
Definition kPageSize : Z := 4096.
Definition kMaxPages : nat := 1024.

Record FirstFit := MkFirstFit {
  start_addr_ : ptr;
  length_ : Z;
  free_count_ : Z;
  used_count_ : Z;
  bitmap_ : list bool
}.

Definition new_first_fit (start_addr : ptr) (page_count : Z) : FirstFit :=
  MkFirstFit start_addr page_count page_count 0 (replicate kMaxPages false).

Definition set_bitmap (bm : list bool) (f : FirstFit) : FirstFit :=
  MkFirstFit (start_addr_ f) (length_ f) (free_count_ f) (used_count_ f) bm.
Definition set_counts (free used : Z) (f : FirstFit) : FirstFit :=
  MkFirstFit (start_addr_ f) (length_ f) free used (bitmap_ f).

Abbreviation FM A := (M FirstFit A) (only parsing).

(** [bitmap_[i]] *)
Definition test_bit (i : Z) : FM bool := fun f =>
  match bitmap_ f !! Z.to_nat i with Some b => Ret f b | None => Halt f (BadPointer i) end.
(** [bitmap_[i] = b] *)
Definition assign_bit (i : Z) (b : bool) : FM unit := fun f =>
  match bitmap_ f !! Z.to_nat i with
  | Some _ => Ret (set_bitmap (<[Z.to_nat i := b]> (bitmap_ f)) f) tt
  | None => Halt f (BadPointer i)
  end.

(** [for (size_t i = start; i < start + n; ++i) bitmap_[i] = b;] *)
Fixpoint mark (n : nat) (i : Z) (b : bool) : FM unit :=
  match n with
  | O => ret tt
  | S n' => let* _ := assign_bit i b in mark n' (i + 1) b
  end.

(** The rest of the search, from page [i] on; [todo] pages are left. *)
Fixpoint find_loop (todo : nat) (length : Z) (value : bool) (i count start_idx : Z) : FM Z :=
  match todo with
  | O => ret SIZE_MAX
  | S todo' =>
      let* b := test_bit i in
      if Bool.eqb b value then
        let start_idx := if count =? 0 then i else start_idx in
        let count := count + 1 in
        if count =? length then ret start_idx else find_loop todo' length value (i + 1) count start_idx
      else find_loop todo' length value (i + 1) 0 start_idx
  end.

Definition FindConsecutiveBits (length : Z) (value : bool) : FM Z := fun f =>
  if (length =? 0) || (length_ f <? length) then Ret f SIZE_MAX
  else find_loop (Z.to_nat (length_ f)) length value 0 0 0 f.

Definition AllocImpl (page_count : Z) : FM ptr := fun f =>
  if (page_count =? 0) || (free_count_ f <? page_count) then Ret f nullptr
  else
    (let* start_idx := FindConsecutiveBits page_count false in
     if start_idx =? SIZE_MAX then ret nullptr
     else
       let* _ := mark (Z.to_nat (u64 (start_idx + page_count) - start_idx)) start_idx true in
       let* _ := modify (fun f => set_counts (u64 (free_count_ f - page_count)) (u64 (used_count_ f + page_count)) f) in
       ret (u64 (start_addr_ f + u64 (kPageSize * start_idx)))) f.

Definition FreeImpl (addr : ptr) (page_count : Z) : FM unit := fun f =>
  if (addr <? start_addr_ f) || (u64 (start_addr_ f + u64 (length_ f * kPageSize)) <=? addr) then Ret f tt
  else
    let start_idx := (addr - start_addr_ f) / kPageSize in
    if length_ f <? u64 (start_idx + page_count) then Ret f tt
    else
      (let* _ := mark (Z.to_nat (u64 (start_idx + page_count) - start_idx)) start_idx false in
       modify (fun f => set_counts (u64 (free_count_ f + page_count)) (u64 (used_count_ f - page_count)) f)) f.

(** ** The invariant *)

(** The number of free pages of a bitmap. *)
Definition free_pages (l : list bool) : nat := length (List.filter negb l).

(** The pages from [i] to [i + n] all have the state [b]. *)
Definition run_at (l : list bool) (b : bool) (i n : nat) : Prop := exists A B, l = A ++ replicate n b ++ B /\ length A = i.

Definition pages (f : FirstFit) : list bool := take (Z.to_nat (length_ f)) (bitmap_ f).

Definition ff_ok (f : FirstFit) : Prop :=
  length (bitmap_ f) = kMaxPages /\ 0 <= length_ f <= Z.of_nat kMaxPages /\
  0 < start_addr_ f /\ start_addr_ f + length_ f * kPageSize < 2 ^ 64 /\
  free_count_ f = Z.of_nat (free_pages (pages f)) /\ used_count_ f = length_ f - free_count_ f.

Section lemmas.
Implicit Types (f : FirstFit) (l : list bool).

Lemma free_pages_app l1 l2 : free_pages (l1 ++ l2) = (free_pages l1 + free_pages l2)%nat.
Proof. unfold free_pages. by rewrite List.filter_app, length_app. Qed.
Lemma free_pages_replicate n b : free_pages (replicate n b) = if b then 0%nat else n.
Proof. unfold free_pages. induction n as [|n IH]; cbn; destruct b; cbn; auto. Qed.
Lemma free_pages_le l : (free_pages l <= length l)%nat.
Proof. unfold free_pages. induction l as [|[] l IH]; cbn; lia. Qed.

Lemma mark_run n b b' : forall A B f, bitmap_ f = A ++ replicate n b ++ B ->
  mark n (Z.of_nat (length A)) b' f = Ret (set_bitmap (A ++ replicate n b' ++ B) f) tt.
Proof.
  induction n as [|n IH]; intros A B f Hf; cbn [mark].
  - cbn in *. destruct f. cbn in *. by subst.
  - unfold bind, assign_bit. rewrite Nat2Z.id, Hf. cbn [replicate app].
    rewrite lookup_app_r, Nat.sub_diag by lia. cbn [lookup list_lookup]. rewrite insert_app_r_alt, Nat.sub_diag by lia. cbn [insert list_insert].
    replace (Z.of_nat (length A) + 1) with (Z.of_nat (length (A ++ [b']))) by (rewrite length_app; cbn; lia).
    rewrite (IH (A ++ [b']) B) by (cbn; by rewrite <- app_assoc). cbn. by rewrite <- app_assoc.
Qed.

Lemma run_at_cons l b i n : run_at l b i (S n) <-> l !! i = Some b /\ run_at l b (S i) n.
Proof.
  split.
  - intros (A & B & -> & <-). split; [by rewrite lookup_app_r, Nat.sub_diag by lia|]. exists (A ++ [b]), B.
    rewrite length_app, <- app_assoc. cbn. split; [done|lia].
  - intros [Hi (A & B & -> & HA)]. destruct A as [|a A _] using rev_ind; [done|]. rewrite length_app in HA. cbn in HA.
    assert (length A = i) as HA' by lia. exists A, B. split; [|done]. rewrite <- app_assoc in Hi |- *.
    rewrite lookup_app_r, HA', Nat.sub_diag in Hi by lia. cbn in Hi. injection Hi as ->. done.
Qed.

Lemma run_at_spec l b n : forall i, run_at l b i n <-> (i <= length l)%nat /\ forall j, (i <= j < i + n)%nat -> l !! j = Some b.
Proof.
  induction n as [|n IH]; intros i.
  - split; [intros (A & B & -> & <-); rewrite length_app; split; [lia|intros; lia]|].
    intros [Hi _]. exists (take i l), (drop i l). cbn. rewrite take_drop, length_take. split; [done|lia].
  - rewrite run_at_cons, IH. split.
    + intros (Hi & Hl & Hj). split; [lia|]. intros j Hj'. destruct (decide (j = i)) as [->|]; [done|]. apply Hj. lia.
    + intros [Hl Hj]. split; [apply Hj; lia|]. split; [|intros j Hj'; apply Hj; lia].
      apply lookup_lt_Some with b. apply Hj. lia.
Qed.

(** The pages from [i] to [j] have the state [b]. *)
Definition all_bits l b (i j : nat) : Prop := forall x, (i <= x < j)%nat -> l !! x = Some b.

(** The search: the first run of [n] pages below [i + todo], if there is one. *)
Lemma find_loop_spec n value f todo : forall i c st,
  (i + todo <= length (bitmap_ f))%nat -> (c < n)%nat -> (c <= i)%nat -> all_bits (bitmap_ f) value (i - c) i ->
  ((0 < c)%nat -> st = Z.of_nat (i - c)) -> (forall j, (j < i - c)%nat -> ~ all_bits (bitmap_ f) value j i) ->
  (forall j, (j + n <= i)%nat -> ~ all_bits (bitmap_ f) value j (j + n)) ->
  exists r, find_loop todo (Z.of_nat n) value (Z.of_nat i) (Z.of_nat c) st f = Ret f r /\
    ((exists j, r = Z.of_nat j /\ (j + n <= i + todo)%nat /\ all_bits (bitmap_ f) value j (j + n) /\
        forall j', (j' < j)%nat -> ~ all_bits (bitmap_ f) value j' (j' + n)) \/
     (r = SIZE_MAX /\ forall j, (j + n <= i + todo)%nat -> ~ all_bits (bitmap_ f) value j (j + n))).
Proof.
  induction todo as [|todo IH]; intros i c st Hl Hc Hci Hrun Hst Hmax Hno; cbn [find_loop].
  - exists SIZE_MAX. split; [done|]. right. split; [done|]. intros j Hj. apply Hno. lia.
  - destruct (lookup_lt_is_Some_2 (bitmap_ f) i ltac:(lia)) as [b Eb].
    assert (test_bit (Z.of_nat i) f = Ret f b) as Et by (unfold test_bit; by rewrite Nat2Z.id, Eb).
    unfold bind at 1. rewrite Et. replace (Z.of_nat i + 1) with (Z.of_nat (S i)) by lia. destruct (Bool.eqb_spec b value) as [Hb|Hb].
    + rewrite Hb in Eb. assert ((if Z.of_nat c =? 0 then Z.of_nat i else st) = Z.of_nat (i - c)) as ->.
      { destruct (Z.eqb_spec (Z.of_nat c) 0); [f_equal; lia|apply Hst; lia]. }
      replace (Z.of_nat c + 1) with (Z.of_nat (S c)) by lia.
      assert (all_bits (bitmap_ f) value (i - c) (S i)) as Hrun'.
      { intros x Hx. destruct (decide (x = i)) as [->|]; [done|apply Hrun; lia]. }
      destruct (Z.eqb_spec (Z.of_nat (S c)) (Z.of_nat n)) as [Hn|Hn].
      * exists (Z.of_nat (i - c)). split; [done|]. left. exists (i - c)%nat. split; [done|]. split; [lia|].
        split; [replace (i - c + n)%nat with (S i) by lia; done|]. intros j' Hj'. apply Hno. lia.
      * destruct (IH (S i) (S c) (Z.of_nat (i - c))) as (r & Er & Hr); try lia.
        -- replace (S i - S c)%nat with (i - c)%nat by lia. done.
        -- intros j Hj Hall. apply (Hmax j); [lia|]. intros x Hx. apply Hall. lia.
        -- intros j Hj Hall. destruct (decide (j + n <= i)%nat) as [Hle|Hgt]; [by apply (Hno j)|].
           apply (Hmax j); [lia|]. intros x Hx. apply Hall. lia.
        -- exists r. split; [done|]. destruct Hr as [(j & H1 & H2 & H3)|[H1 H2]]; [left; exists j; split; [done|]; split; [lia|done]|].
           right. split; [done|]. intros j Hj. apply H2. lia.
    + assert (forall j k, (j <= i < k)%nat -> ~ all_bits (bitmap_ f) value j k) as Hbad.
      { intros j k Hj Hall. specialize (Hall i Hj). congruence. }
      destruct (IH (S i) 0%nat st) as (r & Er & Hr); try lia.
      * intros x Hx. lia.
      * intros j Hj. apply Hbad. lia.
      * intros j Hj. destruct (decide (j + n <= i)%nat) as [Hle|Hgt]; [by apply Hno|]. apply Hbad. lia.
      * exists r. split; [done|]. destruct Hr as [(j & H1 & H2 & H3)|[H1 H2]]; [left; exists j; split; [done|]; split; [lia|done]|].
        right. split; [done|]. intros j Hj. apply H2. lia.
Qed.

(** A run of pages of the allocator. *)
Definition free_at f (i n : nat) : Prop := (i + n <= Z.to_nat (length_ f))%nat /\ all_bits (bitmap_ f) false i (i + n).

Lemma find_spec f n : ff_ok f -> (0 < n)%nat -> Z.of_nat n <= length_ f ->
  exists r, FindConsecutiveBits (Z.of_nat n) false f = Ret f r /\
    ((exists j, r = Z.of_nat j /\ free_at f j n /\ forall j', (j' < j)%nat -> ~ free_at f j' n) \/
     (r = SIZE_MAX /\ forall j, ~ free_at f j n)).
Proof.
  intros (Hb & Hl & _) Hn Hle. unfold FindConsecutiveBits. rewrite (proj2 (Z.eqb_neq (Z.of_nat n) 0)) by lia.
  rewrite (proj2 (Z.ltb_ge (length_ f) (Z.of_nat n))) by lia. cbn [orb].
  destruct (find_loop_spec n false f (Z.to_nat (length_ f)) 0 0 0) as (r & Er & Hr); try lia.
  - intros x Hx. lia.
  - exists r. split; [exact Er|]. unfold free_at. destruct Hr as [(j & H1 & H2 & H3 & H4)|[H1 H2]]; [left|right].
    + exists j. split; [done|]. split; [done|]. intros j' Hj' [_ Hx]. by apply (H4 j').
    + split; [done|]. intros j [Hj Hx]. by apply (H2 j).
Qed.

(** The bitmap with the pages of a run set to [b]. *)
Definition marked l (i n : nat) (b : bool) : list bool := take i l ++ replicate n b ++ drop (i + n) l.

Lemma all_bits_split l b i n : (i + n <= length l)%nat -> all_bits l b i (i + n) -> l = take i l ++ replicate n b ++ drop (i + n) l.
Proof.
  intros Hl Hall. destruct (proj2 (run_at_spec l b n i)) as (A & B & -> & HA); [split; [lia|exact Hall]|].
  rewrite take_app_length' by done. f_equal. f_equal. rewrite drop_app_ge, HA by lia.
  replace (i + n - i)%nat with (length (replicate n b)) by (rewrite length_replicate; lia). by rewrite drop_app_length.
Qed.

Lemma mark_spec f i n b b' : (i + n <= length (bitmap_ f))%nat -> all_bits (bitmap_ f) b i (i + n) ->
  mark n (Z.of_nat i) b' f = Ret (set_bitmap (marked (bitmap_ f) i n b') f) tt.
Proof.
  intros Hl Hall. pose proof (all_bits_split _ _ _ _ Hl Hall) as E. apply mark_run with (b' := b') in E.
  rewrite length_take, Nat.min_l in E by lia. exact E.
Qed.

Lemma marked_length l i n b : (i + n <= length l)%nat -> length (marked l i n b) = length l.
Proof. intros Hl. unfold marked. rewrite !length_app, length_take, length_replicate, length_drop. lia. Qed.

(** Marking a run changes the number of free pages by its length. *)
Lemma marked_free l i n b : (i + n <= length l)%nat -> all_bits l b i (i + n) ->
  (free_pages (marked l i n (negb b)) + (if b then 0 else n) = free_pages l + (if b then n else 0))%nat.
Proof.
  intros Hl Hall. rewrite (all_bits_split _ _ _ _ Hl Hall) at 2. unfold marked. rewrite !free_pages_app, !free_pages_replicate.
  destruct b; cbn; lia.
Qed.

Lemma take_marked l i n b k : (i + n <= k)%nat -> (k <= length l)%nat -> take k (marked l i n b) = marked (take k l) i n b.
Proof.
  intros Hk Hl. unfold marked. rewrite take_app_ge by (rewrite length_take; lia). rewrite length_take, Nat.min_l by lia.
  rewrite take_app_ge by (rewrite length_replicate; lia). rewrite length_replicate, take_take, (Nat.min_l i k) by lia.
  rewrite take_drop_commute. replace (i + n + (k - i - n))%nat with k by lia. done.
Qed.

(** ** The operations *)

(** [f] with a run of pages set to [b] and its counters adjusted. *)
Definition retag f (i n : nat) (b : bool) : FirstFit :=
  let d := if b then Z.of_nat n else - Z.of_nat n in
  MkFirstFit (start_addr_ f) (length_ f) (free_count_ f - d) (used_count_ f + d) (marked (bitmap_ f) i n b).

Lemma pages_all f b i n : (i + n <= Z.to_nat (length_ f))%nat -> all_bits (bitmap_ f) b i (i + n) -> all_bits (pages f) b i (i + n).
Proof. intros Hl Hall x Hx. unfold pages. rewrite lookup_take_lt by lia. by apply Hall. Qed.

Lemma pages_length f : ff_ok f -> length (pages f) = Z.to_nat (length_ f).
Proof. intros (Hb & Hl & _). unfold pages. rewrite length_take, Hb. lia. Qed.

Lemma retag_ok f i n b : ff_ok f -> (i + n <= Z.to_nat (length_ f))%nat -> all_bits (bitmap_ f) (negb b) i (i + n) -> ff_ok (retag f i n b).
Proof.
  intros Hok Hl Hall. pose proof (pages_length f Hok) as Hp. pose proof Hok as (Hb & Hlen & Hs & He & Hf & Hu).
  pose proof (marked_free (pages f) i n (negb b) ltac:(lia) (pages_all f _ i n Hl Hall)) as Hm. rewrite negb_involutive in Hm.
  assert (pages (retag f i n b) = marked (pages f) i n b) as Hpm.
  { unfold pages, retag. cbn [bitmap_ length_]. apply take_marked; lia. }
  unfold ff_ok. rewrite Hpm. unfold retag. cbn [bitmap_ length_ start_addr_ free_count_ used_count_].
  rewrite marked_length by lia. destruct b; cbn [negb] in Hm; split_and!; try done; lia.
Qed.

Lemma free_at_count f i n : ff_ok f -> free_at f i n -> Z.of_nat n <= free_count_ f.
Proof.
  intros Hok [Hl Hall]. pose proof (pages_length f Hok) as Hp. pose proof Hok as (_ & _ & _ & _ & Hf & _).
  pose proof (marked_free (pages f) i n false ltac:(lia) (pages_all f _ i n Hl Hall)). cbn in *. lia.
Qed.

Lemma ff_alloc_spec f n : ff_ok f -> (0 < n)%nat -> Z.of_nat n < 2 ^ 64 ->
  (exists i, free_at f i n /\ (forall j, (j < i)%nat -> ~ free_at f j n) /\
     AllocImpl (Z.of_nat n) f = Ret (retag f i n true) (start_addr_ f + kPageSize * Z.of_nat i)) \/
  (AllocImpl (Z.of_nat n) f = Ret f nullptr /\ forall i, ~ free_at f i n).
Proof.
  intros Hok Hn Hn64. pose proof Hok as (Hb & Hlen & Hs & He & Hf & Hu). unfold kMaxPages, kPageSize in *.
  pose proof (free_pages_le (pages f)) as Hle. rewrite (pages_length f Hok) in Hle.
  unfold AllocImpl. rewrite (proj2 (Z.eqb_neq (Z.of_nat n) 0)) by lia. cbn [orb].
  destruct (Z.ltb_spec (free_count_ f) (Z.of_nat n)) as [Hc|Hc].
  { right. split; [done|]. intros i Hi. pose proof (free_at_count f i n Hok Hi). lia. }
  destruct (find_spec f n Hok Hn ltac:(lia)) as (r & Er & [(i & -> & Hi & Hmin)|[-> Hno]]); unfold bind; rewrite !Er; cbv beta iota.
  - left. exists i. split; [done|]. split; [done|]. pose proof Hi as [Hil Hall]. rewrite (proj2 (Z.eqb_neq (Z.of_nat i) SIZE_MAX)) by (unfold SIZE_MAX; lia).
    rewrite (u64_small (Z.of_nat i + Z.of_nat n)) by lia. replace (Z.to_nat (Z.of_nat i + Z.of_nat n - Z.of_nat i)) with n by lia.
    rewrite (mark_spec f i n false true) by (lia || done). cbn. unfold set_counts, set_bitmap, retag. cbn.
    rewrite (u64_small (free_count_ f - Z.of_nat n)), (u64_small (used_count_ f + Z.of_nat n)) by lia.
    unfold kPageSize. rewrite (u64_small (4096 * Z.of_nat i)), u64_small by lia. done.
  - right. by rewrite Z.eqb_refl.
Qed.

(** An address inside the managed pages. *)
Lemma FreeImpl_in f i n : ff_ok f -> (i + n <= Z.to_nat (length_ f))%nat -> (i < Z.to_nat (length_ f))%nat ->
  FreeImpl (start_addr_ f + kPageSize * Z.of_nat i) (Z.of_nat n) f =
    (let* _ := mark n (Z.of_nat i) false in
     modify (fun f => set_counts (u64 (free_count_ f + Z.of_nat n)) (u64 (used_count_ f - Z.of_nat n)) f)) f.
Proof.
  intros (Hb & Hlen & Hs & He & Hf & Hu) Hl Hi. unfold kMaxPages, kPageSize in *.
  unfold FreeImpl, kPageSize. rewrite (proj2 (Z.ltb_ge _ _)) by lia. rewrite (u64_small (length_ f * 4096)), (u64_small (start_addr_ f + length_ f * 4096)) by lia.
  rewrite (proj2 (Z.leb_gt _ _)) by lia. cbn [orb]. replace ((start_addr_ f + 4096 * Z.of_nat i - start_addr_ f) / 4096) with (Z.of_nat i).
  2: { replace (start_addr_ f + 4096 * Z.of_nat i - start_addr_ f) with (Z.of_nat i * 4096) by lia. by rewrite Z.div_mul. }
  rewrite (u64_small (Z.of_nat i + Z.of_nat n)) by lia. rewrite (proj2 (Z.ltb_ge _ _)) by lia.
  replace (Z.to_nat (Z.of_nat i + Z.of_nat n - Z.of_nat i)) with n by lia. done.
Qed.

Lemma FreeImpl_spec f i n : ff_ok f -> (i + n <= Z.to_nat (length_ f))%nat -> (i < Z.to_nat (length_ f))%nat -> all_bits (bitmap_ f) true i (i + n) ->
  FreeImpl (start_addr_ f + kPageSize * Z.of_nat i) (Z.of_nat n) f = Ret (retag f i n false) tt.
Proof.
  intros Hok Hl Hi Hall. pose proof Hok as (Hb & Hlen & Hs & He & Hf & Hu). unfold kMaxPages, kPageSize in *.
  pose proof (retag_ok f i n false Hok Hl Hall) as (_ & _ & _ & _ & Hf' & Hu'). pose proof (free_pages_le (pages (retag f i n false))) as Hle.
  assert (ff_ok (retag f i n false)) as Hok' by (by apply retag_ok). rewrite (pages_length _ Hok') in Hle.
  cbn [retag free_count_ used_count_ length_] in Hf', Hu', Hle.
  change 4096 with kPageSize. rewrite FreeImpl_in by done. unfold bind. rewrite (mark_spec f i n true false) by (lia || done).
  cbn. unfold set_counts, set_bitmap, retag. cbn. rewrite !u64_small by lia. do 2 f_equal; lia.
Qed.

Lemma marked_marked l i n b b' : (i + n <= length l)%nat -> marked (marked l i n b) i n b' = marked l i n b'.
Proof.
  intros Hl. unfold marked at 1 3. unfold marked. rewrite take_app_length' by (rewrite length_take; lia). do 2 f_equal.
  rewrite drop_app_ge by (rewrite length_take; lia). rewrite length_take, Nat.min_l by lia.
  rewrite drop_app_ge by (rewrite length_replicate; lia). rewrite length_replicate. replace (i + n - i - n)%nat with 0%nat by lia. done.
Qed.

Lemma marked_all l i n b : (i + n <= length l)%nat -> all_bits (marked l i n b) b i (i + n).
Proof.
  intros Hl x Hx. unfold marked. rewrite lookup_app_r by (rewrite length_take; lia). rewrite length_take, Nat.min_l by lia.
  rewrite lookup_app_l by (rewrite length_replicate; lia). apply lookup_replicate_2. lia.
Qed.

End lemmas.

(** ** Theorems *)

(** C35: The allocator gives out the first run of free pages that is long enough, marks exactly these pages and moves its counters by their number; it
    refuses a request only when there is no such run; and freeing the run restores the allocator as it was. *)
Theorem first_fit_spec (f : FirstFit) (n : nat) : ff_ok f -> (0 < n)%nat -> Z.of_nat n < 2 ^ 64 ->
  (exists i f', AllocImpl (Z.of_nat n) f = Ret f' (start_addr_ f + kPageSize * Z.of_nat i) /\
     free_at f i n /\ (forall j, (j < i)%nat -> ~ free_at f j n) /\ ff_ok f' /\
     bitmap_ f' = marked (bitmap_ f) i n true /\ free_count_ f' = free_count_ f - Z.of_nat n /\ used_count_ f' = used_count_ f + Z.of_nat n /\
     FreeImpl (start_addr_ f + kPageSize * Z.of_nat i) (Z.of_nat n) f' = Ret f tt) \/
  (AllocImpl (Z.of_nat n) f = Ret f nullptr /\ forall i, ~ free_at f i n).
Proof.
  intros Hok Hn H64. destruct (ff_alloc_spec f n Hok Hn H64) as [(i & Hi & Hmin & E)|H]; [left|by right].
  pose proof Hok as (Hb & Hlen & _). unfold kMaxPages in *. pose proof Hi as [Hl Hall].
  pose proof (retag_ok f i n true Hok Hl Hall) as Hok'. exists i, (retag f i n true). split_and!; try done.
  assert (all_bits (bitmap_ (retag f i n true)) true i (i + n)) as Hall' by (apply marked_all; lia).
  pose proof (FreeImpl_spec (retag f i n true) i n Hok' Hl ltac:(cbn [retag length_]; lia) Hall') as EF. cbn [retag start_addr_] in EF.
  rewrite EF. unfold retag. cbn. rewrite marked_marked by lia. unfold marked. rewrite <- (all_bits_split (bitmap_ f) false i n ltac:(lia) Hall).
  destruct f. cbn. do 2 f_equal; lia.
Qed.

Lemma new_first_fit_ok start n : 0 < start -> 0 <= n <= 1024 -> start + n * 4096 < 2 ^ 64 -> ff_ok (new_first_fit start n).
Proof.
  intros Hs Hn He. unfold ff_ok, new_first_fit, pages, kMaxPages, kPageSize. cbn [bitmap_ length_ start_addr_ free_count_ used_count_].
  rewrite length_replicate, take_replicate, free_pages_replicate. split_and!; try done; lia.
Qed.

Lemma first_fit_spec_witness :
  exists i f', AllocImpl (Z.of_nat 2) (new_first_fit 4096 8) = Ret f' (4096 + kPageSize * Z.of_nat i) /\ ff_ok f' /\ free_count_ f' = 6 /\
    FreeImpl (4096 + kPageSize * Z.of_nat i) (Z.of_nat 2) f' = Ret (new_first_fit 4096 8) tt.
Proof.
  destruct (first_fit_spec (new_first_fit 4096 8) 2) as [(i & f' & E & _ & _ & Hok & _ & Hf & _ & EF)|[E _]].
  { apply new_first_fit_ok; lia. } { lia. } { lia. }
  - by exists i, f'.
  - vm_compute in E. discriminate E.
Defined.

(** Freeing pages that are free already succeeds and leaves counters that no longer add up. *)
Theorem first_fit_double_free (f : FirstFit) (i n : nat) :
  ff_ok f -> (0 < n)%nat -> (i + n <= Z.to_nat (length_ f))%nat -> all_bits (bitmap_ f) false i (i + n) -> used_count_ f = 0 ->
  exists f', FreeImpl (start_addr_ f + kPageSize * Z.of_nat i) (Z.of_nat n) f = Ret f' tt /\
    free_count_ f' = length_ f + Z.of_nat n /\ used_count_ f' = 2 ^ 64 - Z.of_nat n.
Proof.
  intros Hok Hn Hl Hall Hu0. pose proof Hok as (Hb & Hlen & Hs & He & Hf & Hu). unfold kMaxPages, kPageSize in *.
  change 4096 with kPageSize. rewrite FreeImpl_in by (done || lia). unfold bind. rewrite (mark_spec f i n false false) by (lia || done).
  eexists. split; [reflexivity|]. cbn. rewrite u64_small by lia. split; [lia|]. rewrite Hu0. unfold u64, wrap.
  replace (0 - Z.of_nat n) with (2 ^ 64 - Z.of_nat n + (-1) * 2 ^ 64) by lia. rewrite Z.mod_add, Z.mod_small; lia.
Qed.

(** An allocator of more pages than the bitmap has bits searches behind the bitmap. *)
Theorem first_fit_overruns_bitmap (start : Z) : AllocImpl 1025 (new_first_fit start 1025) = Halt (new_first_fit start 1025) (BadPointer 1024).
Proof. vm_compute. reflexivity. Qed.

End FirstFit.
