(* ===== verification/BumpPages.v ===== *)
(** * Page tables on the kernel heap

    [VirtualMemory] asks the heap for pages with [aligned_alloc(4096, 4096)].  The
    heap of Bmalloc.v keeps the laws that VirtualMemory.v states for its page
    allocator, so everything proved about page tables holds on it. *)

From stdpp Require Import base numbers list gmap.
From Stdlib Require Import ZArith Lia.
From S2P Require Import Prelude CMem CString Csr Paging VirtualMemory Bmalloc BmallocProps.
Import Bmalloc BmallocProps.

Local Open Scope Z_scope.

Module BumpPages.

Section pages.
Context (limit : Z).

(** The heap, and the pages that were given out and not released. *)
Record PageHeap := MkPageHeap { page_heap : Heap; page_live : gset Z }.

Definition page_heap_ok (a : PageHeap) : Prop :=
  heap_ok (page_heap a) /\ end_ (allocator_ (page_heap a)) <= limit <= 2 ^ 62 /\
  set_Forall (fun p => p < current_ (allocator_ (page_heap a))) (page_live a).

(** What the block at [p] contains. *)
Definition page_words (m : mem) (p : ptr) : list Z :=
  (fun i => default 0 (load_le 8 m (p + 8 * Z.of_nat i))) <$> seq 0 kEntriesPerTable.

Definition page_alloc (a : PageHeap) : option (Z * list Z) * PageHeap :=
  match aligned_alloc 4096 4096 (page_heap a) with
  | Ret s p => if p =? nullptr then (None, a) else (Some (p, page_words (bytes_ s) p), MkPageHeap s ({[p]} ∪ page_live a))
  | Halt _ _ => (None, a)
  end.

(** [aligned_free] leaves the heap as it is. *)
Definition page_free (p : ptr) (a : PageHeap) : PageHeap := MkPageHeap (page_heap a) (page_live a ∖ {[p]}).

(** The bytes that a page takes from the heap. *)
Definition page_next (a : PageHeap) : Z := up 4 (current_ (allocator_ (page_heap a))) + (4096 + (4096 + 7)).

(** A page that the heap gives out. *)
Lemma page_alloc_spec a : page_heap_ok a ->
  if end_ (allocator_ (page_heap a)) <? page_next a then page_alloc a = (None, a)
  else exists p ws a', page_alloc a = (Some (p, ws), a') /\ page_heap_ok a' /\ p ∉ page_live a /\ page_live a' = {[p]} ∪ page_live a /\
    0 < p < limit /\ p mod 4096 = 0 /\ length ws = kEntriesPerTable /\
    current_ (allocator_ (page_heap a)) <= p /\ p + 4096 <= page_next a /\
    current_ (allocator_ (page_heap a')) = page_next a /\ end_ (allocator_ (page_heap a')) = end_ (allocator_ (page_heap a)).
Proof.
  intros (Hh & Hl & Hv). unfold page_alloc, page_next. pose proof Hh as [(H1 & H2 & H3 & H4 & _) _].
  assert (request_ok (4096 + (2 ^ 12 + 7)) (allocator_ (page_heap a))) as Hr.
  { split; [lia|]. unfold max_align. change (2 ^ 12) with 4096. lia. }
  pose proof (aligned_alloc_spec (page_heap a) 12 4096 Hh ltac:(lia) ltac:(lia) ltac:(lia) Hr) as H. cbn zeta in H. change (2 ^ 12) with 4096 in H.
  destruct (up_spec 4 (current_ (allocator_ (page_heap a))) ltac:(lia)) as [Hu _]. destruct (Z.ltb_spec (end_ (allocator_ (page_heap a))) (up 4 (current_ (allocator_ (page_heap a))) + (4096 + (4096 + 7)))).
  - by rewrite H.
  - destruct H as (p & s' & E & Hp & Hm & Hlo & Hhi & Hb & _ & Hok). rewrite E, (proj2 (Z.eqb_neq p nullptr) Hp).
    eexists p, _, _. split; [reflexivity|]. unfold page_heap_ok. cbn [page_heap page_live]. rewrite Hb. cbn [bumped current_ end_].
    split_and!; try done; try lia.
    + intros q [->%elem_of_singleton|Hq]%elem_of_union; [lia|]. specialize (Hv q Hq). cbn beta in Hv. lia.
    + intros Hq. specialize (Hv p Hq). cbn beta in Hv. lia.
Qed.

Lemma page_alloc_ok a : page_heap_ok a -> page_heap_ok (page_alloc a).2.
Proof.
  intros Ha. pose proof (page_alloc_spec a Ha) as H. destruct (_ <? _); [by rewrite H|].
  destruct H as (p & ws & a' & -> & Hok & _). done.
Qed.

Lemma page_free_ok p a : page_heap_ok a -> page_heap_ok (page_free p a).
Proof. intros (Hh & Hl & Hv). split; [done|]. split; [done|]. intros q Hq. apply Hv. set_solver. Qed.

(** A page that was given out can be released, and the heap stays as it is. *)
Lemma page_free_runs a p : page_heap_ok a -> start_addr_ (allocator_ (page_heap a)) + pointer_size <= p <= end_ (allocator_ (page_heap a)) ->
  aligned_free p (page_heap a) = Ret (page_heap (page_free p a)) tt.
Proof. intros (Hh & _) Hp. apply aligned_free_noop; [done|by right]. Qed.

Definition Pages : Type := { a : PageHeap | page_heap_ok a }.

#[export] Instance bump_pages : PageAllocator Pages := {
  pa_alloc a := ((page_alloc (`a)).1, (page_alloc (`a)).2 ↾ page_alloc_ok (`a) (proj2_sig a));
  pa_free p a := page_free p (`a) ↾ page_free_ok p (`a) (proj2_sig a);
  pa_live a := page_live (`a)
}.

(** The heap keeps what the page tables rely on. *)
#[export] Instance bump_pages_laws : PageAllocatorLaws Pages limit.
Proof.
  split.
  - intros [a Ha] a' p ws [= E <-]. cbn in *. pose proof (page_alloc_spec a Ha) as H. destruct (_ <? _); [by rewrite H in E|].
    destruct H as (p' & ws' & a'' & Ea & _ & Hp & Hl & Hr & Hm & Hw & _). rewrite Ea in E |- *. cbn in *. by injection E as -> ->.
  - intros [a Ha] a' [= E <-]. cbn in *. pose proof (page_alloc_spec a Ha) as H. destruct (_ <? _); [by rewrite H|].
    destruct H as (p' & ws' & a'' & Ea & _). by rewrite Ea in E.
  - done.
Qed.

End pages.
End BumpPages.
