(* ===== verification/MemoryInit.v ===== *)
(** * Bringing up the memory of the kernel: src/src/memory.cpp

    [MemoryInit] on riscv64: the heap behind the kernel image, the page tables on
    that heap, the MMU, and the page of the early console. *)

From stdpp Require Import base numbers list gmap.
From Stdlib Require Import ZArith Lia.
From S2P Require Import Prelude CMem Errors Csr Riscv64 Paging VirtualMemory VmInv VmProps VmBoot VmCount Bmalloc BmallocProps BumpPages.
Import Errors VirtualMemory VmInv VmProps VmBoot VmCount.

Local Open Scope Z_scope.

Module MemoryInit.

(** The page tables with the heap, and the registers of the core. *)
Record Boot (A : Type) := MkBoot { vm : Vm A; regs : Csr.RegInfo -> Z }.
Arguments MkBoot {A}.
Arguments vm {A}.
Arguments regs {A}.

(** The object [bmallocator]: the memory from the end of the kernel image on. *)
Definition bmallocator (elf_addr elf_size physical_memory_addr physical_memory_size : Z) : Bmalloc.BumpAllocator :=
  let allocator_addr := page_align_up (u64 (elf_addr + elf_size)) in
  let allocator_size := u64 (u64 (physical_memory_addr + physical_memory_size) - allocator_addr) in
  Bmalloc.new_bump allocator_addr allocator_size.

Section init.
Context {A : Type} `{PageAllocator A}.

Definition on_vm {B} (f : M (Vm A) B) : M (Boot A) B := fun b =>
  match f (vm b) with
  | Ret s x => Ret (MkBoot s (regs b)) x
  | Halt s w => Halt (MkBoot s (regs b)) w
  end.

(** An access that does not exist traps. *)
Definition on_regs {B} (f : Vm A -> Csr.access B) : M (Boot A) B := fun b =>
  match f (vm b) (regs b) with
  | Some (x, r) => Ret (MkBoot (vm b) r) x
  | None => Halt b Parked
  end.

(** From the construction of [VirtualMemory] on; [early_console] is
    NAILONG_KERNEL_EARLY_CONSOLE_BASE, whose mapping may fail unnoticed. *)
Definition MemoryInit (physical_memory_addr physical_memory_size early_console : Z) : M (Boot A) unit :=
  let* _ := on_vm (VirtualMemory_ctor physical_memory_addr physical_memory_size) in
  let* _ := on_regs InitCurrentCore in
  if negb (early_console =? 0) then
    let* _ := on_vm (MapMMIO early_console kPageSize kernel_permissions) in ret tt
  else ret tt.

Definition MemoryInitSMP : M (Boot A) unit := on_regs InitCurrentCore.

Context {HA : PageAllocatorLaws A phys_limit}.
Implicit Types (s : Vm A).

(** The constructor succeeds when the heap serves its pages, and [n] more are left. *)
Lemma ctor_served s phys size n :
  0 <= phys -> 0 <= size -> range_end phys size <= Z.min va_limit phys_limit -> range_end phys size < 2 ^ 64 ->
  serves (1 + (top * regions (phys / 4096 * 4096) (range_end phys size) true + n)) (alloc_state s) ->
  exists s', VirtualMemory_ctor phys size s = Ret s' tt /\ serves n (alloc_state s').
Proof.
  intros Hp Hz Hl Hw Hs. unfold VirtualMemory_ctor. unfold bind at 1, aligned_alloc.
  apply serves_first in Hs as (p & ws & a & Ha & Hs'). rewrite Ha.
  destruct (fresh_directory s p ws a Ha) as (Hok & Hd & Hv & Hr & Hm).
  unfold bind at 1, modify. unfold bind at 1, nk_assert_msg.
  rewrite (proj2 (Z.eqb_neq p nullptr)) by (unfold nullptr; lia). cbn [negb].
  unfold bind at 1, clear_page. cbn [memory set_memory set_dir]. rewrite lookup_insert_eq.
  cbn [memory set_memory]. rewrite insert_insert_eq.
  match type of Hok with dir_ok ?x _ => set (s1 := x) in * end.
  match goal with |- context [bind (MapMMIO _ _ _) _ ?x] => change x with s1 end.
  assert (alloc_state s1 = a) as Ea by done. clearbody s1. destruct kernel_valid as [Hvf Hf].
  destruct (map_mmio_served n s1 p phys size kernel_permissions) as (s' & E & Hn); try done; [by rewrite Ea|].
  exists s'. unfold bind. by rewrite E.
Qed.

End init.

(** ** On the heap of the kernel *)

Import Bmalloc BmallocProps BumpPages.

(** A page takes at most 8214 bytes of the heap. *)
Lemma heap_serves limit k (a : Pages limit) :
  current_ (allocator_ (page_heap (`a))) + 8214 * Z.of_nat k <= end_ (allocator_ (page_heap (`a))) -> serves k a.
Proof.
  intros Hk. apply serves_intro. intros j a' Hj Ht. assert (forall i (b b' : Pages limit), took i b b' ->
    current_ (allocator_ (page_heap (`b'))) <= current_ (allocator_ (page_heap (`b))) + 8214 * Z.of_nat i /\
    end_ (allocator_ (page_heap (`b'))) = end_ (allocator_ (page_heap (`b)))) as Hstep.
  { clear. induction 1 as [b|i b p ws b1 b2 Ha Ht [IH1 IH2]]; [lia|]. destruct b as [b Hb]. cbn in Ha. injection Ha as Ha <-. cbn in *.
    pose proof (page_alloc_spec limit b Hb) as Hs. destruct (_ <? _); [by rewrite Hs in Ha|].
    destruct Hs as (p' & ws' & b' & E & _ & _ & _ & _ & _ & _ & _ & _ & Hc & He). rewrite E in IH1, IH2. cbn in IH1, IH2. unfold page_next in Hc.
    destruct (up_spec 4 (current_ (allocator_ (page_heap b))) ltac:(lia)) as [Hu _]. change (2 ^ 4) with 16 in Hu. lia. }
  destruct (Hstep _ _ _ Ht) as [Hc He]. destruct a' as [b Hb]. cbn in *. pose proof (page_alloc_spec limit b Hb) as Hs.
  destruct (Z.ltb_spec (end_ (allocator_ (page_heap b))) (page_next b)) as [Hlt|_].
  - unfold page_next in Hlt. destruct (up_spec 4 (current_ (allocator_ (page_heap b))) ltac:(lia)) as [Hu _]. change (2 ^ 4) with 16 in Hu. lia.
  - destruct Hs as (p' & ws' & b' & -> & _). done.
Qed.

(** The pages given out lie in [lo, hi), the memory of the heap. *)
Definition pages_in {limit} (lo hi : Z) (a : Pages limit) : Prop :=
  lo <= current_ (allocator_ (page_heap (`a))) /\ end_ (allocator_ (page_heap (`a))) = hi /\
  set_Forall (fun q => lo <= q /\ q + 4096 <= hi) (pa_live a).

Lemma took_pages_in limit lo hi k (a a' : Pages limit) : took k a a' -> pages_in lo hi a -> pages_in lo hi a'.
Proof.
  induction 1 as [a|k a p ws a1 a2 Ha Ht IH]; [done|]. intros (H1 & H2 & H3). apply IH. clear IH Ht.
  destruct a as [b Hb]. cbn in Ha. injection Ha as Ha <-. unfold pages_in in *. cbn in *.
  pose proof (page_alloc_spec limit b Hb) as Hs. destruct (Z.ltb_spec (end_ (allocator_ (page_heap b))) (page_next b)); [by rewrite Hs in Ha|].
  destruct Hs as (p' & ws' & b' & E & _ & _ & Hl & _ & _ & _ & Hlo & Hhi & Hc & He). rewrite E. cbn. rewrite Hl, Hc, He.
  split_and!; [|done|intros q [->%elem_of_singleton|Hq]%elem_of_union; [lia|by apply H3]].
  pose proof (up_spec 4 (current_ (allocator_ (page_heap b))) ltac:(lia)) as [Hu _]. unfold page_next. lia.
Qed.

(** The bytes that the page tables of a range and of the early console may take. *)
Definition table_bytes (phys size early : Z) : Z :=
  8214 * Z.of_nat (1 + (2 * regions (phys / 4096 * 4096) (range_end phys size) true + 2 * regions (early / 4096 * 4096) (range_end early kPageSize) true)).

(** The heap behind the kernel image, with all its memory free. *)
Lemma boot_heap elf_addr elf_size phys size (m : mem) :
  let ha := range_end elf_addr elf_size in
  0 <= elf_addr -> 0 <= elf_size -> 0 < ha -> 0 <= phys -> 0 <= size -> range_end phys size <= 2 ^ 39 -> ha <= phys + size ->
  mapped m ha (Z.to_nat (phys + size - ha)) ->
  exists a : Pages (phys_limit (P := riscv64_paging)), `a = MkPageHeap (MkHeap m (bmallocator elf_addr elf_size phys size)) ∅ /\
    pages_in ha (phys + size) a /\ forall k, ha + 8214 * Z.of_nat k <= phys + size -> serves k a.
Proof.
  intros ha H1 H2 H3 H4 H5 H6 H7 Hm. assert (phys_limit (P := riscv64_paging) = 2 ^ 56) as Hpl by done.
  assert (phys + size <= range_end phys size) as Hend.
  { unfold range_end. pose proof (Z.div_mod (phys + size + 4095) 4096). pose proof (Z.mod_pos_bound (phys + size + 4095) 4096). lia. }
  assert (elf_addr + elf_size <= ha) as Hha.
  { unfold ha, range_end. pose proof (Z.div_mod (elf_addr + elf_size + 4095) 4096). pose proof (Z.mod_pos_bound (elf_addr + elf_size + 4095) 4096). lia. }
  assert (bmallocator elf_addr elf_size phys size = new_bump ha (phys + size - ha)) as Eb.
  { unfold bmallocator. rewrite (u64_small (elf_addr + elf_size)), (u64_small (phys + size)) by lia. rewrite align_up_spec by lia.
    rewrite (proj2 (Z.leb_le _ _)) by lia. fold (range_end elf_addr elf_size). fold ha. by rewrite u64_small by lia. }
  assert (end_ (new_bump ha (phys + size - ha)) = phys + size) as Ee by (cbn; rewrite u64_small; lia).
  assert (page_heap_ok (phys_limit (P := riscv64_paging)) (MkPageHeap (MkHeap m (bmallocator elf_addr elf_size phys size)) ∅)) as Hok.
  { rewrite Eb. split; [split; [apply new_bump_ok; unfold max_align; lia|done]|]. cbn [page_heap allocator_ page_live]. rewrite Ee, Hpl.
    split; [lia|]. apply set_Forall_empty. }
  exists (exist _ _ Hok). split; [done|]. split.
  { unfold pages_in. cbn [proj1_sig page_heap allocator_ page_live pa_live bump_pages]. rewrite Eb, Ee. split_and!; [done|done|]. apply set_Forall_empty. }
  intros k Hk. apply heap_serves. cbn [proj1_sig page_heap allocator_]. rewrite Eb, Ee. done.
Qed.

(** C4: On riscv64, when the memory behind the kernel image has room for the page tables, [MemoryInit] returns: the heap is that memory and
    every page table lies on it.  Under the new satp the MMU, which is Sv39 as the architecture defines it, lets every access through to
    each address of physical memory and of the page of the early console, untranslated, and faults on every other 64-bit address, the
    ones that are not canonical included.  The entries have A = D = 0, so this needs hardware that sets these bits itself; on hardware
    that faults instead, every access does. *)
Theorem memory_init_succeeds (elf_addr elf_size phys size early : Z) (m : mem) (regs0 : Csr.RegInfo -> Z) :
  let ha := range_end elf_addr elf_size in
  0 <= elf_addr -> 0 <= elf_size -> 0 < ha -> 0 <= phys -> 0 <= size -> range_end phys size <= 2 ^ 38 ->
  0 < early -> range_end early kPageSize <= 2 ^ 38 -> ha + table_bytes phys size early <= phys + size ->
  mapped m ha (Z.to_nat (phys + size - ha)) -> Csr.word (regs0 Csr.SatpInfo) ->
  exists (a : Pages (phys_limit (P := riscv64_paging))) b',
    `a = MkPageHeap (MkHeap m (bmallocator elf_addr elf_size phys size)) ∅ /\
    MemoryInit phys size early (MkBoot (MkVm ∅ a 0 0) regs0) = Ret b' tt /\
    (forall q, q ∈ tables (memory (vm b')) 2 (kernel_page_dir_ (vm b')) -> ha <= q /\ q + 4096 <= phys + size) /\
    forall ad acc va, 0 <= va < 2 ^ 64 -> mmu ad (regs b' Csr.SatpInfo) (memory (vm b')) acc va =
      if ad && ((phys / 4096 * 4096 <=? va) && (va <? range_end phys size) || (early / 4096 * 4096 <=? va) && (va <? range_end early kPageSize))
      then Some va else None.
Proof.
  intros ha H1 H2 H3 H4 H5 H6 H7 H8 H9 Hm Hw.
  assert (0 <= table_bytes phys size early) as Htb by (unfold table_bytes; lia).
  destruct (boot_heap elf_addr elf_size phys size m) as (a & Ea & Hin & Hs); [done|done|done|done|done|lia|fold ha; lia|done|].
  set (r1 := regions (phys / 4096 * 4096) (range_end phys size) true) in *.
  set (r2 := regions (early / 4096 * 4096) (range_end early kPageSize) true) in *.
  assert (serves (1 + (2 * r1 + 2 * r2)) a) as Hsv by (apply Hs; unfold table_bytes in H9; fold ha r1 r2 in H9; fold ha; lia).
  set (s0 := MkVm ∅ a 0 0).
  assert (va_limit (P := riscv64_paging) = 2 ^ 39) as Hva by done. assert (phys_limit (P := riscv64_paging) = 2 ^ 56) as Hpl by done.
  assert (range_end phys size <= Z.min (va_limit (P := riscv64_paging)) (phys_limit (P := riscv64_paging))) as L1 by lia.
  assert (range_end early kPageSize <= Z.min (va_limit (P := riscv64_paging)) (phys_limit (P := riscv64_paging))) as L2 by lia.
  assert (range_end phys size < 2 ^ 64) as L3 by lia. assert (range_end early kPageSize < 2 ^ 64) as L4 by lia.
  destruct (ctor_served s0 phys size (2 * r2)) as (s1 & E1 & Hs1); [done|done|done|done|exact Hsv|].
  pose proof (ctor_run s0 phys size H4 H5 L1 L3) as Hc. rewrite E1 in Hc. destruct Hc as (Hok & Hr & Hrm & (k1 & _ & Ht1) & Hv1).
  pose proof (ctor_wired s0 phys size s1 tt H4 H5 L1 L3 E1) as Hw1.
  destruct (init_core_mmu s1 regs0 Hr Hrm Hw) as (regs1 & Ei & Hmmu). destruct kernel_valid as [Hvf Hf].
  destruct (map_mmio_served 0 s1 (kernel_page_dir_ s1) early kPageSize kernel_permissions) as (s2 & E2 & _); try done; try lia.
  { by rewrite Nat.add_0_r. }
  assert (0 <= early) as H7' by lia.
  destruct (map_mmio_run s1 (kernel_page_dir_ s1) early kPageSize kernel_permissions Hok eq_refl Hf H7' ltac:(done) L2 L4)
    as (s2' & r & E2' & Hok2 & Hd2 & stop & _ & Hv2 & Hq2 & Hm2).
  rewrite E2 in E2'. injection E2' as <- <-. destruct Hm2 as [_ ->]. destruct Hq2 as (k2 & _ & Ht2).
  assert (wired (memory s2) 2 (kernel_page_dir_ s2)) as Hw2.
  { rewrite Hd2. change 2%nat with (@top riscv64_paging). apply (map_mmio_wired s1 (kernel_page_dir_ s1) early kPageSize kernel_permissions s2 (inl early)); done || lia. }
  exists a, (MkBoot s2 regs1). split; [done|]. split; [|split].
  - unfold MemoryInit, on_vm, on_regs, bind. cbn [vm regs]. fold s0. rewrite E1. cbn [vm regs]. rewrite Ei. cbn [vm regs].
    rewrite (proj2 (Z.eqb_neq early 0)) by lia. cbn [negb vm regs]. by rewrite E2.
  - intros q Hq. cbn [vm] in Hq. rewrite Hd2 in Hq. apply (took_pages_in _ _ _ _ _ _ Ht2 (took_pages_in _ _ _ _ _ _ Ht1 Hin)).
    by apply Hok2.
  - intros ad acc va Hva'. cbn [vm regs]. rewrite Hmmu, <- Hd2. assert (0 <= phys / 4096) by (apply Z.div_pos; lia).
    assert (0 <= early / 4096) by (apply Z.div_pos; lia).
    apply (identity_mmu ad (memory s2) acc (kernel_page_dir_ s2)
      (fun va => (phys / 4096 * 4096 <=? va) && (va <? range_end phys size) || (early / 4096 * 4096 <=? va) && (va <? range_end early kPageSize)));
      [done| | |done].
    + intros x [Hx|Hx]%orb_true_iff; bool_cases; lia.
    + intros x Hx. specialize (Hv2 x Hx). specialize (Hv1 x Hx). unfold view in Hv2, Hv1.
      change (@top riscv64_paging) with 2%nat in Hv2, Hv1. rewrite Hd2, Hv2, Hv1, !reached_kernel. cbn [mbind option_bind].
      by destruct ((early / 4096 * 4096 <=? x) && _), ((phys / 4096 * 4096 <=? x) && _).
Qed.

Lemma memory_init_succeeds_witness :
  exists (a : Pages (phys_limit (P := riscv64_paging))) b',
    MemoryInit 2147483648 131072 268435456 (MkBoot (MkVm ∅ a 0 0) (fun _ => 0)) = Ret b' tt /\
    mmu true (regs b' Csr.SatpInfo) (memory (vm b')) Store 2147483653 = Some 2147483653 /\
    mmu true (regs b' Csr.SatpInfo) (memory (vm b')) Fetch 268435456 = Some 268435456 /\
    mmu true (regs b' Csr.SatpInfo) (memory (vm b')) Load 5 = None /\
    mmu true (regs b' Csr.SatpInfo) (memory (vm b')) Load (2 ^ 40 + 2147483653) = None.
Proof.
  destruct (memory_init_succeeds 2147483648 4096 2147483648 131072 268435456
    (write_bytes 2147487744 (replicate (Z.to_nat 126976) 0) ∅) (fun _ => 0)) as (a & b' & _ & E & _ & Hm).
  1-9: vm_compute; congruence.
  { replace (2147483648 + 131072 - range_end 2147483648 4096) with 126976 by done. replace (range_end 2147483648 4096) with 2147487744 by done.
    rewrite <- (length_replicate (Z.to_nat 126976) 0) at 2. apply bytes_at_mapped, write_bytes_at. }
  { by vm_compute. }
  exists a, b'. split; [done|]. split_and!; (rewrite Hm; [by vm_compute|lia]).
Defined.

End MemoryInit.
