(* ===== verification/LoadElf.v ===== *)
(** * Loading a user program: [LoadElf] of src/src/task/task_control_block.cpp

    Every page of a loadable segment is allocated, cleared, filled with the part of
    the file that falls into it, and mapped.  The file is read from a byte memory;
    the pages are blocks of the memory of [VirtualMemory], as words.  The theorem
    says what the address space shows afterwards. *)

From stdpp Require Import base numbers list gmap sets.
From Stdlib Require Import ZArith Lia.
From S2P Require Import Prelude CMem Errors Csr Riscv64 X86_64 Aarch64 Paging VirtualMemory VmInv VmProps.
Import VirtualMemory VmInv VmProps.

Local Open Scope Z_scope.
#[local] Opaque kEntriesPerTable.

(** The permissions of a user page, kept in 32 bits by the caller. *)
Class UserPaging (P : Paging) := {
  user_permissions : bool -> bool -> bool -> Z;
  user_flags : forall r w x, Z.testbit (u32 (user_permissions r w x)) 0 = true
}.
#[export] Program Instance riscv64_user : UserPaging riscv64_paging := {| user_permissions r w x := Riscv64.GetUserPagePermissions r w x false |}.
Next Obligation. by intros [] [] []. Qed.
#[export] Program Instance x86_64_user : UserPaging x86_64_paging := {| user_permissions r w x := X86_64.GetUserPagePermissions r w x false |}.
Next Obligation. by intros [] [] []. Qed.
#[export] Program Instance aarch64_user : UserPaging aarch64_paging := {| user_permissions r w x := Aarch64.GetUserPagePermissions r w x false |}.
Next Obligation. by intros [] [] []. Qed.

Module LoadElf.

(** ** elf.h *)

Definition PT_LOAD : Z := 1.
Definition PF_X : Z := 1.
Definition PF_W : Z := 2.
Definition PF_R : Z := 4.
Definition sizeof_Phdr : Z := 56.
Record Elf64_Phdr := MkPhdr { p_type : Z; p_flags : Z; p_offset : Z; p_vaddr : Z; p_filesz : Z; p_memsz : Z }.

(** ** Pages as bytes *)

Definition page_bytes (ws : list Z) : list Z := ws ≫= le_bytes 8.
Definition word_of (bs : list Z) : Z := foldr (fun b acc => b + 256 * acc) 0 bs.
Fixpoint words_of (n : nat) (bs : list Z) : list Z :=
  match n with
  | O => []
  | S n' => word_of (take 8 bs) :: words_of n' (drop 8 bs)
  end.
Definition overwrite (off : nat) (bs l : list Z) : list Z := take off l ++ bs ++ drop (off + length bs) l.
Fixpoint read_bytes (m : mem) (p : Z) (n : nat) : option (list Z) :=
  match n with
  | O => Some []
  | S n' => b ← m !! p; cons b <$> read_bytes m (p + 1) n'
  end.

Section ops.
Context {P : Paging} {U : UserPaging P} {A : Type} `{PageAllocator A} (elf : mem) (elf_data : Z).
Abbreviation VM T := (M (Vm A) T) (only parsing).

Definition rd (n : nat) (p : Z) : VM Z := fun s =>
  match load_le n elf p with Some v => Ret s v | None => Halt s (BadPointer p) end.
Definition rd_phdr (p : Z) : VM Elf64_Phdr :=
  let* type := rd 4 p in
  let* flags := rd 4 (p + 4) in
  let* offset := rd 8 (p + 8) in
  let* vaddr := rd 8 (p + 16) in
  let* filesz := rd 8 (p + 32) in
  let* memsz := rd 8 (p + 40) in
  ret (MkPhdr type flags offset vaddr filesz memsz).

(** The bytes at [p] are [s]; the test stops at the first difference. *)
Fixpoint bytes_are (p : Z) (s : list Z) : VM bool :=
  match s with
  | [] => ret true
  | b :: s' => let* x := rd 1 p in if x =? b then bytes_are (p + 1) s' else ret false
  end.

(** [memcpy(p_page + dst_off, elf_data + src_off, n)] *)
Definition memcpy_page (p_page dst_off src_off n : Z) : VM unit := fun s =>
  match memory s !! p_page, read_bytes elf (elf_data + src_off) (Z.to_nat n) with
  | Some ws, Some bs =>
      if dst_off + n <=? 4096
      then Ret (set_memory (<[p_page := words_of kEntriesPerTable (overwrite (Z.to_nat dst_off) bs (page_bytes ws))]> (memory s)) s) tt
      else Halt s (BadPointer p_page)
  | _, _ => Halt s (BadPointer p_page)
  end.

Definition flags_of (ph : Elf64_Phdr) : Z :=
  u32 (user_permissions (negb (Z.land (p_flags ph) PF_R =? 0)) (negb (Z.land (p_flags ph) PF_W =? 0)) (negb (Z.land (p_flags ph) PF_X =? 0))).

(** The part of the file that falls into the page. *)
Definition copy_file (ph : Elf64_Phdr) (page p_page : Z) : VM unit :=
  let copy_start := Z.max page (p_vaddr ph) in
  let copy_end := Z.min (u64 (page + 4096)) (u64 (p_vaddr ph + p_filesz ph)) in
  if copy_start <? copy_end
  then memcpy_page p_page (copy_start - page) (u64 (copy_start - p_vaddr ph + p_offset ph)) (copy_end - copy_start)
  else ret tt.

(** One page; [false] when [LoadElf] returns 0. *)
Definition load_page (page_table : Z) (ph : Elf64_Phdr) (page : Z) : VM bool :=
  let* p_page := aligned_alloc in
  if p_page =? nullptr then ret false
  else
    let* _ := clear_page p_page in
    let* _ := copy_file ph page p_page in
    let* r := MapPage page_table page p_page (flags_of ph) in
    ret (match r with Value _ => true | Unexpected _ => false end).

(** [for (page = start_page; page < end_page; page += kPageSize)]: both ends are
    multiples of the page size, so the loop runs [(end_page - start_page) / kPageSize] times. *)
Fixpoint load_pages (n : nat) (page_table : Z) (ph : Elf64_Phdr) (page : Z) : VM bool :=
  match n with
  | O => ret true
  | S n' => let* ok := load_page page_table ph page in if ok : bool then load_pages n' page_table ph (page + 4096) else ret false
  end.
Definition load_segment (page_table : Z) (ph : Elf64_Phdr) : VM bool :=
  let start_page := page_align (p_vaddr ph) in
  let end_page := page_align_up (u64 (p_vaddr ph + p_memsz ph)) in
  load_pages (Z.to_nat ((end_page - start_page) / 4096)) page_table ph start_page.

Fixpoint load_segments (n : nat) (page_table p : Z) : VM bool :=
  match n with
  | O => ret true
  | S n' =>
      let* ph := rd_phdr p in
      let* ok := (if p_type ph =? PT_LOAD then load_segment page_table ph else ret true) in
      if ok : bool then load_segments n' page_table (p + sizeof_Phdr) else ret false
  end.

Definition LoadElf (page_table : Z) : VM Z :=
  let* magic := bytes_are elf_data [0x7f; 69; 76; 70] in
  if magic : bool then
    let* phoff := rd 8 (elf_data + 32) in
    let* phnum := rd 2 (elf_data + 56) in
    let* ok := load_segments (Z.to_nat phnum) page_table (elf_data + phoff) in
    if ok : bool then rd 8 (elf_data + 24) else ret 0
  else ret 0.

End ops.

(** ** Bytes and words *)

Lemma le_bytes_word l : Forall (fun b => 0 <= b < 256) l -> le_bytes (length l) (word_of l) = l.
Proof.
  induction 1 as [|b l Hb _ IH]; [done|]. cbn [length le_bytes word_of foldr]. fold (word_of l).
  rewrite (Z.mul_comm 256), Z.mod_add, Z.mod_small, Z.div_add, Z.div_small, Z.add_0_l, IH by lia. done.
Qed.

Lemma words_of_length n : forall bs, length (words_of n bs) = n.
Proof. induction n as [|n IH]; intros bs; cbn; [done|]. by rewrite IH. Qed.

Lemma page_bytes_words n : forall bs, length bs = (8 * n)%nat -> Forall (fun b => 0 <= b < 256) bs -> page_bytes (words_of n bs) = bs.
Proof.
  induction n as [|n IH]; intros bs Hl Hb; [by destruct bs|]. change (words_of (S n) bs) with (word_of (take 8 bs) :: words_of n (drop 8 bs)).
  unfold page_bytes. rewrite bind_cons. fold (page_bytes (words_of n (drop 8 bs))). rewrite IH; [|rewrite length_drop; lia|by apply Forall_drop].
  rewrite <- (take_drop 8 bs) at 3. f_equal. rewrite <- (le_bytes_word (take 8 bs)) at 2 by (by apply Forall_take). f_equal. rewrite length_take. lia.
Qed.

Lemma page_bytes_zero n : page_bytes (replicate n 0) = replicate (8 * n) 0.
Proof.
  induction n as [|n IH]; [done|]. replace (8 * S n)%nat with (8 + 8 * n)%nat by lia. cbn [replicate]. unfold page_bytes. rewrite bind_cons. fold (page_bytes (replicate n 0)).
  by rewrite IH, replicate_add.
Qed.

Lemma read_bytes_spec (m : mem) n : forall p, mapped m p n ->
  exists bs, read_bytes m p n = Some bs /\ length bs = n /\ forall i, (i < n)%nat -> bs !! i = m !! (p + Z.of_nat i).
Proof.
  induction n as [|n IH]; intros p Hm; [exists []; split_and!; [done..|intros; lia]|]. apply mapped_S in Hm as [[b Hb] Hm].
  destruct (IH _ Hm) as (bs & E & Hl & Hi). exists (b :: bs). cbn. rewrite Hb. cbn. rewrite E. cbn. split_and!; [done|lia|].
  intros [|i] Hlt; [by rewrite Z.add_0_r|]. cbn. rewrite Hi by lia. f_equal. lia.
Qed.

Lemma lookup_overwrite off (bs l : list Z) j : (off + length bs <= length l)%nat ->
  overwrite off bs l !! j = if decide (off <= j < off + length bs)%nat then bs !! (j - off)%nat else l !! j.
Proof.
  intros Hl. unfold overwrite. assert (length (take off l) = off) as Ht by (rewrite length_take; lia).
  destruct (decide (j < off)%nat) as [H1|H1]; [rewrite decide_False by lia; rewrite lookup_app_l by lia; by apply lookup_take_lt|].
  rewrite lookup_app_r by lia. rewrite Ht. case_decide as H2; [by rewrite lookup_app_l by lia|].
  rewrite lookup_app_r by lia. rewrite lookup_drop. f_equal. lia.
Qed.

(** ** One page *)

Section props.
Context {P : Paging} {L : PagingLaws P} {U : UserPaging P} {A : Type} {HP : PageAllocator A} {HA : PageAllocatorLaws A phys_limit}.
Context (elf : mem) (elf_data : Z) (root : Z) (Hbytes : forall a b, elf !! a = Some b -> 0 <= b < 256).
Implicit Types (s : Vm A) (ph : Elf64_Phdr) (pg va : Z).
Abbreviation live s := (pa_live (alloc_state s)).
Abbreviation dir_tables s := (tables (memory s) top root).

Lemma map_page_frame s va pa flags s' r : dir_ok s root -> 0 <= va < 2 ^ 64 -> MapPage root va pa flags s = Ret s' r ->
  live s ⊆ live s' /\ forall q, q ∈ live s -> q ∉ dir_tables s -> memory s' !! q = memory s !! q /\ q ∉ dir_tables s'.
Proof.
  intros Hok Hv. destruct (find_top s root va Hok Hv) as (s1 & r1 & Hr & [n G] & Hok1 & _ & Hm).
  assert (live s ⊆ live s1) as Hl1 by (rewrite (g_live _ _ _ _ _ G); set_solver).
  assert (forall q, q ∈ live s -> q ∉ dir_tables s -> memory s1 !! q = memory s !! q /\ q ∉ dir_tables s1) as Hf1.
  { intros q Hq Ht. assert (q ∉ n) as Hn by (intros Hn; by apply (g_fresh _ _ _ _ _ G) in Hn as [Hn _]).
    split; [by apply (g_frame _ _ _ _ _ G)|]. rewrite (g_tables _ _ _ _ _ G). set_solver. }
  unfold MapPage. unfold bind at 1, nk_assert_msg. rewrite (dir_nonnull s root Hok). cbn [negb]. unfold bind at 1. rewrite Hr. destruct r1 as [[t i]|e]; [|by intros [= <- <-]].
  destruct (slot_run s1 root va t i Hok1 Hv Hm) as (ws & w & Ht & Hi & Hlt & Hld & _). unfold bind at 1. rewrite Hld.
  destruct (valid w && _); [by intros [= <- <-]|]. unfold bind at 1. rewrite (store_run s1 t i ws) by done. cbn [bind FlushTLBAll modify ret]. intros [= <- <-]. cbn [memory alloc_state set_memory].
  destruct Hok1 as (Hs1 & Hn1 & _). destruct (update_slot _ _ _ _ _ _ _ (pte_of pa flags) Hn1 Hs1 Hm Ht) as (Et & _).
  split; [done|]. intros q Hq Hqt. destruct (Hf1 q Hq Hqt) as [Hq1 Hq2]. rewrite Et. split; [|done]. rewrite lookup_insert_ne; [done|]. intros ->. apply Hq2. by eapply slot_in.
Qed.

(** A block that was just allocated is not part of the directory. *)
Lemma fresh_block s p ws0 a ws : dir_ok s root -> pa_alloc (alloc_state s) = (Some (p, ws0), a) ->
  let s1 := set_memory (<[p := ws]> (memory s)) (set_alloc a s) in
  dir_ok s1 root /\ dir_tables s1 = dir_tables s /\ (forall va, view s1 root va = view s root va) /\ p ∈ live s1 /\ p ∉ dir_tables s /\ p ∉ live s /\ live s ⊆ live s1 /\
  0 < p < phys_limit /\ p mod 4096 = 0.
Proof.
  intros Hok Ha s1. destruct (alloc_some _ _ _ _ Ha) as (Hf & Hl & Hr & Hm & _). destruct Hok as (Hs & Hn & Hlive).
  assert (p ∉ dir_tables s) as Hp by (intros Hp; by apply Hf, Hlive).
  destruct (tables_ext (memory s) (memory s1) top root) as (E1 & E2 & E3 & _).
  { intros q Hq. apply lookup_insert_ne. by intros ->. }
  assert (live s1 = {[p]} ∪ live s) as El by done.
  split_and!; try done; try lia.
  - split_and!; [by apply E2|by rewrite E1|]. intros q. rewrite E1. intros Hq. destruct (Hlive q Hq). split; [rewrite El; set_solver|done].
  - intros va. unfold view, translate. by rewrite E3.
  - rewrite El. set_solver.
  - rewrite El. set_solver.
Qed.

(** Addresses that the tables can translate, and pages. *)
Definition limit : Z := Z.min (2 ^ 64 - 4096) (4096 * 512 ^ Z.of_nat levels).
Definition is_page pg : Prop := pg mod 4096 = 0 /\ 0 <= pg /\ pg + 4096 <= limit.

Lemma page_of_user va : 0 <= va < limit -> page_of va = va / 4096.
Proof.
  intros Hv. unfold page_of, limit in *. apply Z.mod_small. split; [apply Z.div_pos; lia|]. apply Z.div_lt_upper_bound; lia.
Qed.

Lemma view_page s pg va : is_page pg -> pg <= va < pg + 4096 -> view s root va = view s root pg.
Proof.
  intros (Hm & H0 & Hl) Hv. unfold limit in Hl. assert (same_page top va pg) as Hs.
  { apply same_page_iff; [lia|lia|]. rewrite !page_of_user by (unfold limit; lia).
    pose proof (Z.div_mod pg 4096 ltac:(lia)). symmetry. apply (Z.div_unique va 4096 (pg / 4096) (va - pg)); lia. }
  unfold view, translate. by rewrite !walk_slot, (slot_same _ _ _ _ _ Hs).
Qed.

Definition segment_ok ph : Prop :=
  0 <= p_vaddr ph /\ 0 <= p_filesz ph <= p_memsz ph /\ p_vaddr ph + p_memsz ph <= limit - 4096 /\
  0 <= p_offset ph /\ p_offset ph + p_filesz ph < 2 ^ 64 /\ mapped elf (elf_data + p_offset ph) (Z.to_nat (p_filesz ph)).

(** What a program finds at [va] in its segment: the file, then zeros. *)
Definition seg_byte ph va : Z :=
  if (p_vaddr ph <=? va) && (va <? p_vaddr ph + p_filesz ph) then default 0 (elf !! (elf_data + p_offset ph + (va - p_vaddr ph))) else 0.

(** Page [pg] is mapped to a block of its own with the bytes of the segment. *)
Definition holds s pg ph : Prop :=
  exists pa ws, view s root pg = Some (pa, Z.land (flags_of ph) (Z.ones pte_attribute_bits)) /\ memory s !! pa = Some ws /\ pa ∈ live s /\ pa ∉ dir_tables s /\
    forall j, 0 <= j < 4096 -> page_bytes ws !! Z.to_nat j = Some (seg_byte ph (pg + j)).

(** Pages outside [X] keep their translation and, if they hold a segment, their bytes. *)
Definition keeps (X : Z -> Prop) s s' : Prop :=
  forall pg, is_page pg -> ~ X pg -> view s' root pg = view s root pg /\ forall ph, holds s pg ph -> holds s' pg ph.

Lemma keeps_trans (X Y Z_ : Z -> Prop) s1 s2 s3 : (forall pg, X pg \/ Y pg -> Z_ pg) -> keeps X s1 s2 -> keeps Y s2 s3 -> keeps Z_ s1 s3.
Proof.
  intros Hi H1 H2 pg Hp Hn. destruct (H1 pg Hp) as [V1 K1]; [by auto|]. destruct (H2 pg Hp) as [V2 K2]; [by auto|].
  split; [congruence|]. auto.
Qed.

Lemma copy_file_spec s p ph pg : segment_ok ph -> is_page pg -> memory s !! p = Some (replicate kEntriesPerTable 0) ->
  exists ws, copy_file elf elf_data ph pg p s = Ret (set_memory (<[p := ws]> (memory s)) s) tt /\
    forall j, 0 <= j < 4096 -> page_bytes ws !! Z.to_nat j = Some (seg_byte ph (pg + j)).
Proof.
  intros (V0 & F0 & V1 & O0 & O1 & Hm) (_ & P0 & P1) Hp. unfold limit in V1, P1. unfold copy_file. cbv zeta.
  rewrite (u64_small (pg + 4096)), (u64_small (p_vaddr ph + p_filesz ph)) by lia.
  set (cs := Z.max pg (p_vaddr ph)). set (ce := Z.min (pg + 4096) (p_vaddr ph + p_filesz ph)).
  assert (page_bytes (replicate kEntriesPerTable 0) = replicate 4096 0) as Hz by (rewrite page_bytes_zero, kEntriesPerTable_eq; done).
  destruct (Z.ltb_spec cs ce) as [Hc|Hc].
  - rewrite u64_small by lia.
    destruct (read_bytes_spec elf (Z.to_nat (ce - cs)) (elf_data + (cs - p_vaddr ph + p_offset ph))) as (bs & E & Hl & Hb).
    { intros i Hi. specialize (Hm (Z.to_nat (cs - p_vaddr ph) + i)%nat ltac:(lia)). replace (elf_data + (cs - p_vaddr ph + p_offset ph) + Z.of_nat i) with
        (elf_data + p_offset ph + Z.of_nat (Z.to_nat (cs - p_vaddr ph) + i)) by lia. done. }
    set (l := overwrite (Z.to_nat (cs - pg)) bs (replicate 4096 0)).
    assert (forall j, l !! j = if decide (Z.to_nat (cs - pg) <= j < Z.to_nat (cs - pg) + length bs)%nat then bs !! (j - Z.to_nat (cs - pg))%nat else replicate 4096 0 !! j) as Hlook.
    { intros j. apply lookup_overwrite. rewrite length_replicate. lia. }
    assert (length l = 4096%nat) as Hlen.
    { unfold l, overwrite. rewrite !length_app, length_take, length_drop, length_replicate. lia. }
    assert (Forall (fun b => 0 <= b < 256) l) as Hr.
    { apply Forall_lookup. intros j b. rewrite Hlook. case_decide; [rewrite Hb by lia; apply Hbytes|]. intros [-> _]%lookup_replicate. lia. }
    exists (words_of kEntriesPerTable l). split.
    + unfold memcpy_page. rewrite Hp, E, Hz. fold l. by rewrite (proj2 (Z.leb_le _ _)) by lia.
    + intros j Hj. rewrite page_bytes_words by (rewrite ?kEntriesPerTable_eq; done). rewrite Hlook. unfold seg_byte. case_decide as D.
      * rewrite Hb by lia. rewrite (proj2 (Z.leb_le _ _)), (proj2 (Z.ltb_lt _ _)) by lia. cbn [andb].
        destruct (Hm (Z.to_nat (pg + j - p_vaddr ph)) ltac:(lia)) as [b Eb].
        replace (elf_data + (cs - p_vaddr ph + p_offset ph) + Z.of_nat (Z.to_nat j - Z.to_nat (cs - pg))) with (elf_data + p_offset ph + (pg + j - p_vaddr ph)) by lia.
        rewrite Z2Nat.id in Eb by lia. by rewrite Eb.
      * rewrite lookup_replicate_2 by lia. f_equal. destruct (Z.leb_spec (p_vaddr ph) (pg + j)), (Z.ltb_spec (pg + j) (p_vaddr ph + p_filesz ph)); try done. lia.
  - exists (replicate kEntriesPerTable 0). split.
    + rewrite insert_id by done. by destruct s.
    + intros j Hj. rewrite Hz, lookup_replicate_2 by lia. f_equal. unfold seg_byte.
      destruct (Z.leb_spec (p_vaddr ph) (pg + j)), (Z.ltb_spec (pg + j) (p_vaddr ph + p_filesz ph)); try done. lia.
Qed.

(** What a call asked the heap for; [r] is whether it succeeded. *)
Definition loaded (n : nat) s s' (r : bool) : Prop :=
  if r then drew n (alloc_state s) (alloc_state s') else refuses_within n (alloc_state s) = true.

Lemma loaded_seq n n' s s1 s' r : loaded n s s1 true -> loaded n' s1 s' r -> loaded (n + n') s s' r.
Proof. unfold loaded. destruct r; [apply drew_trans|apply drew_refuses]. Qed.

Lemma loaded_stop n n' s s' : loaded n s s' false -> loaded (n + n') s s' false.
Proof. apply refuses_mono. lia. Qed.

(** The block of the page and at most one table below the root per level. *)
Lemma load_page_spec s ph pg : dir_ok s root -> segment_ok ph -> is_page pg ->
  exists s' r, load_page elf elf_data root ph pg s = Ret s' r /\ dir_ok s' root /\
    loaded (1 + top) s s' r /\ (r = true -> holds s' pg ph /\ keeps (eq pg) s s').
Proof.
  intros Hok Hs Hp. pose proof Hp as (Hpm & Hp0 & Hpl). unfold limit in Hpl. unfold load_page. cbn [bind]. unfold aligned_alloc at 1.
  destruct (pa_alloc (alloc_state s)) as [[[p ws0]|] a] eqn:Ha.
  2: { exists (set_alloc a s), false. cbn. pose proof (alloc_none _ _ Ha) as El. split_and!; [done| |by rewrite Ha|done].
       destruct Hok as (H1 & H2 & H3). split_and!; [done|done|]. cbn. by rewrite El. }
  destruct (fresh_block s p ws0 a ws0 Hok Ha) as (_ & _ & _ & _ & _ & _ & _ & Hpr & Hpm'). rewrite (proj2 (Z.eqb_neq p nullptr)) by (unfold nullptr; lia).
  cbn [bind]. unfold clear_page at 1. cbn [memory set_memory]. rewrite lookup_insert_eq. cbn [bind].
  set (s0 := set_memory (<[p := replicate kEntriesPerTable 0]> _) _).
  destruct (copy_file_spec s0 p ph pg Hs Hp) as (ws & Ec & Hbs); [apply lookup_insert_eq|]. rewrite Ec.
  set (s1 := set_memory (<[p := ws]> (memory s0)) s0).
  assert (s1 = set_memory (<[p := ws]> (memory s)) (set_alloc a s)) as Es1.
  { unfold s1, s0. cbn [memory set_memory set_alloc alloc_state tlb_flushes kernel_page_dir_]. unfold set_memory. cbn. by rewrite !insert_insert_eq. }
  destruct (fresh_block s p ws0 a ws Hok Ha) as (Hok1 & Et1 & Hv1 & Hpl1 & Hpt & Hpf & Hsub1 & _). rewrite <- Es1 in *.
  assert (0 <= flags_of ph < 2 ^ 32) as Hfl by (apply (wrap_range 32); lia).
  destruct (map_page_run s1 root pg p (flags_of ph)) as (s' & r & Em & Hok' & _ & Hq & Hr); [done|lia|lia|done|done|].
  exists s', (match r with Value _ => true | Unexpected _ => false end). cbn [bind]. rewrite Em. split_and!; [done|done| |].
  { apply (loaded_seq 1 top s s1 s'); [rewrite Es1; exact (took_one _ _ _ _ Ha)|].
    apply (asked_mono _ top) in Hq; [|apply missing_le]. by destruct r. }
  destruct r as [u|e]; [intros _|done].
  destruct (map_page_frame s1 pg p (flags_of ph) s' (Value u) Hok1 ltac:(lia) Em) as [Hsub Hfr].
  assert (p ∉ dir_tables s1) as Hpt1 by (by rewrite Et1).
  split.
  - destruct (Hfr p Hpl1 Hpt1) as [Hmem Hnt]. exists p, ws. split_and!; [|by rewrite Hmem, Es1; apply lookup_insert_eq|by apply Hsub|done|done].
    rewrite Hr, Z.eqb_refl by lia. unfold mapped_page. by replace (Z.testbit (flags_of ph) 0) with true by (symmetry; apply user_flags).
  - intros pg' (Hm' & H0' & Hl') Hne. unfold limit in Hl'.
    assert (view s' root pg' = view s root pg') as Hview.
    { rewrite Hr by lia. rewrite !page_of_user by (unfold limit; lia). rewrite (proj2 (Z.eqb_neq _ _)); [apply Hv1|].
      intros E. apply Hne. rewrite (Z.div_mod pg 4096), (Z.div_mod pg' 4096), Hpm, Hm', E by lia. done. }
    split; [done|]. intros ph' (pa & wp & Hvw & Hmem & Hlv & Htb & Hby).
    assert (pa <> p) as Hpa by (intros ->; done).
    destruct (Hfr pa) as [Hmem' Hnt]; [by apply Hsub1|by rewrite Et1|]. exists pa, wp. split_and!; [by rewrite Hview| |by apply Hsub, Hsub1|done|done].
    rewrite Hmem', Es1. cbn. by rewrite lookup_insert_ne.
Qed.

(** ** Segments *)

Lemma load_pages_spec ph n : forall s pg, dir_ok s root -> segment_ok ph -> (forall i : nat, (i < n)%nat -> is_page (pg + 4096 * Z.of_nat i)) ->
  exists s' r, load_pages elf elf_data n root ph pg s = Ret s' r /\ dir_ok s' root /\
    loaded (n * (1 + top)) s s' r /\ (r = true -> (forall i : nat, (i < n)%nat -> holds s' (pg + 4096 * Z.of_nat i) ph) /\
      keeps (fun q => exists i : nat, (i < n)%nat /\ q = pg + 4096 * Z.of_nat i) s s').
Proof.
  induction n as [|n IH]; intros s pg Hok Hs Hp.
  - exists s, true. do 2 (split; [done|]). split; [apply drew_nil|]. intros _. split; [intros; lia|]. intros q Hq _. done.
  - pose proof (Hp 0%nat ltac:(lia)) as Hp0. rewrite Z.mul_0_r, Z.add_0_r in Hp0.
    destruct (load_page_spec s ph pg Hok Hs Hp0) as (s1 & r & E1 & Hok1 & Hq1 & Hr). cbn [load_pages bind]. rewrite E1.
    change (S n * (1 + top))%nat with (1 + top + n * (1 + top))%nat.
    destruct r; [|exists s1, false; split_and!; [done|done|by apply loaded_stop|done]].
    destruct (Hr eq_refl) as [Hh K1]. destruct (IH s1 (pg + 4096) Hok1 Hs) as (s' & r & E2 & Hok' & Hq2 & Hr2).
    { intros i Hi. replace (pg + 4096 + 4096 * Z.of_nat i) with (pg + 4096 * Z.of_nat (S i)) by lia. apply Hp. lia. }
    exists s', r. split_and!; [done|done|by eapply loaded_seq|]. intros Hrt. destruct (Hr2 Hrt) as [Hrest K2]. split.
    + intros [|i] Hi.
      * rewrite Z.mul_0_r, Z.add_0_r. apply K2; [done| |done]. intros (i & _ & Hq). lia.
      * replace (pg + 4096 * Z.of_nat (S i)) with (pg + 4096 + 4096 * Z.of_nat i) by lia. apply Hrest. lia.
    + eapply keeps_trans; [|exact K1|exact K2]. intros q [<-|(i & Hi & ->)]; [exists 0%nat|exists (S i)]; split; lia.
Qed.

(** The pages of a segment. *)
Definition seg_page ph pg : Prop :=
  pg mod 4096 = 0 /\ p_vaddr ph / 4096 * 4096 <= pg < (p_vaddr ph + p_memsz ph + 4095) / 4096 * 4096.

(** Their number, for one segment and for all the loadable ones. *)
Definition seg_pages ph : nat := Z.to_nat ((p_vaddr ph + p_memsz ph + 4095) / 4096 - p_vaddr ph / 4096).
Fixpoint total_pages (phs : list Elf64_Phdr) : nat :=
  match phs with
  | [] => 0
  | ph :: r => (if p_type ph =? PT_LOAD then seg_pages ph else 0) + total_pages r
  end.

Lemma load_segment_spec s ph : dir_ok s root -> segment_ok ph ->
  exists s' r, load_segment elf elf_data root ph s = Ret s' r /\ dir_ok s' root /\
    loaded (seg_pages ph * (1 + top)) s s' r /\ (r = true -> (forall pg, seg_page ph pg -> holds s' pg ph) /\ keeps (seg_page ph) s s').
Proof.
  intros Hok Hs. pose proof Hs as (V0 & F0 & V1 & _). unfold limit in V1. unfold load_segment.
  rewrite (u64_small (p_vaddr ph + p_memsz ph)), align_spec, align_up_spec by lia. rewrite (proj2 (Z.leb_le _ _)) by lia.
  set (a := p_vaddr ph / 4096). set (b := (p_vaddr ph + p_memsz ph + 4095) / 4096).
  assert (0 <= a /\ a <= b) as [Ha Hab] by (split; [apply Z.div_pos; lia|apply Z.div_le_mono; lia]).
  assert (b * 4096 <= p_vaddr ph + p_memsz ph + 4095) as Hb by (pose proof (Z.mul_div_le (p_vaddr ph + p_memsz ph + 4095) 4096); lia).
  rewrite <- Z.mul_sub_distr_r, Z.div_mul by lia.
  destruct (load_pages_spec ph (Z.to_nat (b - a)) s (a * 4096) Hok Hs) as (s' & r & E & Hok' & Hq & Hrs).
  { intros i Hi. split_and!; [|lia|unfold limit; lia]. replace (a * 4096 + 4096 * Z.of_nat i) with ((a + Z.of_nat i) * 4096) by lia. apply Z.mod_mul. lia. }
  exists s', r. split_and!; [done|done|done|]. intros Hrt. destruct (Hrs Hrt) as [Hh K].
  assert (forall pg, seg_page ph pg <-> exists i : nat, (i < Z.to_nat (b - a))%nat /\ pg = a * 4096 + 4096 * Z.of_nat i) as Hiff.
  { intros pg. unfold seg_page. fold a b. split.
    - intros [Hm Hr]. pose proof (Z.div_mod pg 4096). exists (Z.to_nat (pg / 4096 - a)). lia.
    - intros (i & Hi & ->). split; [|lia]. replace (a * 4096 + 4096 * Z.of_nat i) with ((a + Z.of_nat i) * 4096) by lia. apply Z.mod_mul. lia. }
  split.
  - intros pg (i & Hi & ->)%Hiff. by apply Hh.
  - intros pg Hp Hn. apply K; [done|]. by rewrite <- Hiff.
Qed.

Definition phdr_at (p : Z) ph : Prop :=
  load_le 4 elf p = Some (p_type ph) /\ load_le 4 elf (p + 4) = Some (p_flags ph) /\ load_le 8 elf (p + 8) = Some (p_offset ph) /\
  load_le 8 elf (p + 16) = Some (p_vaddr ph) /\ load_le 8 elf (p + 32) = Some (p_filesz ph) /\ load_le 8 elf (p + 40) = Some (p_memsz ph).
Definition phdrs_at (p : Z) (phs : list Elf64_Phdr) : Prop := forall i ph, phs !! i = Some ph -> phdr_at (p + sizeof_Phdr * Z.of_nat i) ph.
Definition loadable (phs : list Elf64_Phdr) ph : Prop := ph ∈ phs /\ p_type ph = PT_LOAD.

(** No page belongs to two segments. *)
Fixpoint disjoint_segments (phs : list Elf64_Phdr) : Prop :=
  match phs with
  | [] => True
  | ph :: r => (p_type ph = PT_LOAD -> forall ph' pg, loadable r ph' -> seg_page ph pg -> ~ seg_page ph' pg) /\ disjoint_segments r
  end.

Lemma rd_run n p v s : load_le n elf p = Some v -> rd elf n p s = Ret s v.
Proof. unfold rd. by intros ->. Qed.

Lemma rd_phdr_run p ph s : phdr_at p ph -> rd_phdr elf p s = Ret s ph.
Proof.
  intros (H1 & H2 & H3 & H4 & H5 & H6). unfold rd_phdr. cbn [bind].
  rewrite (rd_run _ _ _ _ H1), (rd_run _ _ _ _ H2), (rd_run _ _ _ _ H3), (rd_run _ _ _ _ H4), (rd_run _ _ _ _ H5), (rd_run _ _ _ _ H6). by destruct ph.
Qed.

Lemma seg_page_ok ph pg : segment_ok ph -> seg_page ph pg -> is_page pg.
Proof.
  intros (V0 & _ & V1 & _) [Hm Hr]. unfold limit in V1. pose proof (Z.mul_div_le (p_vaddr ph + p_memsz ph + 4095) 4096).
  assert (0 <= p_vaddr ph / 4096) by (apply Z.div_pos; lia). pose proof (Z.div_mod pg 4096). unfold is_page, limit. split_and!; lia.
Qed.

Lemma load_segments_spec phs : forall s p, dir_ok s root -> phdrs_at p phs -> (forall ph, loadable phs ph -> segment_ok ph) -> disjoint_segments phs ->
  exists s' r, load_segments elf elf_data (length phs) root p s = Ret s' r /\ dir_ok s' root /\
    loaded (total_pages phs * (1 + top)) s s' r /\ (r = true -> (forall ph pg, loadable phs ph -> seg_page ph pg -> holds s' pg ph) /\
      keeps (fun pg => exists ph, loadable phs ph /\ seg_page ph pg) s s').
Proof.
  induction phs as [|ph phs IH]; intros s p Hok Hat Hseg Hdis.
  - exists s, true. do 2 (split; [done|]). split; [apply drew_nil|]. intros _. split; [by intros ph pg [?%not_elem_of_nil _]|]. intros q Hq _. done.
  - destruct Hdis as [Hd Hdis]. pose proof (Hat 0%nat ph eq_refl) as H0. rewrite Z.mul_0_r, Z.add_0_r in H0. cbn [length load_segments bind]. rewrite (rd_phdr_run _ _ _ H0).
    assert (exists s1 r, (if p_type ph =? PT_LOAD then load_segment elf elf_data root ph else ret true) s = Ret s1 r /\ dir_ok s1 root /\
      loaded ((if p_type ph =? PT_LOAD then seg_pages ph else 0) * (1 + top)) s s1 r /\
      (r = true -> (p_type ph = PT_LOAD -> forall pg, seg_page ph pg -> holds s1 pg ph) /\ keeps (fun pg => p_type ph = PT_LOAD /\ seg_page ph pg) s s1))
      as (s1 & r & E1 & Hok1 & Hq1 & Hr).
    { destruct (Z.eqb_spec (p_type ph) PT_LOAD) as [Et|Et].
      - destruct (load_segment_spec s ph Hok) as (s1 & r & E1 & Hok1 & Hqs & Hr); [apply Hseg; split; [left|done]|]. exists s1, r. split_and!; [done|done|done|].
        intros Hrt. destruct (Hr Hrt) as [Hh K]. split; [done|]. intros q Hq Hn. apply K; [done|]. by intros ?; apply Hn.
      - exists s, true. do 2 (split; [done|]). split; [apply drew_nil|]. intros _. split; [done|]. intros q _ _. done. }
    rewrite E1. cbn [total_pages]. rewrite Nat.mul_add_distr_r.
    destruct r; [|exists s1, false; split_and!; [done|done|by apply loaded_stop|done]]. destruct (Hr eq_refl) as [Hh K1].
    destruct (IH s1 (p + sizeof_Phdr) Hok1) as (s' & r & E2 & Hok' & Hq2 & Hr2); [|intros x [Hx Ht]; apply Hseg; split; [by right|done]|done|].
    { intros i x Hi. specialize (Hat (S i) x Hi). by replace (p + sizeof_Phdr + sizeof_Phdr * Z.of_nat i) with (p + sizeof_Phdr * Z.of_nat (S i)) by lia. }
    exists s', r. split_and!; [done|done|by eapply loaded_seq|]. intros Hrt. destruct (Hr2 Hrt) as [Hrest K2]. split.
    + intros x pg [[->|Hx]%elem_of_cons Ht] Hpg; [|by apply Hrest].
      apply K2; [by eapply seg_page_ok, Hpg; apply Hseg; split; [left|]| |by apply Hh]. intros (y & Hy & Hyp). by eapply Hd.
    + eapply keeps_trans; [|exact K1|exact K2]. intros q [[Ht Hq]|(x & [Hx Ht] & Hq)]; [exists ph|exists x]; (split; [split; [|done]|done]); [left|by right].
Qed.

(** The byte that a program reads at [va]. *)
Definition user_byte s va : option Z := '(pa, _) ← view s root va; ws ← memory s !! pa; page_bytes ws !! Z.to_nat (va mod 4096).

Lemma holds_byte s ph pg va : is_page pg -> pg <= va < pg + 4096 -> holds s pg ph ->
  (exists pa, view s root va = Some (pa, Z.land (flags_of ph) (Z.ones pte_attribute_bits))) /\ user_byte s va = Some (seg_byte ph va).
Proof.
  intros Hp Hv (pa & ws & Hvw & Hm & _ & _ & Hb). unfold user_byte. rewrite (view_page s pg va Hp Hv), Hvw. split; [by exists pa|]. cbn. rewrite Hm. cbn.
  destruct Hp as (Hpm & _). pose proof (Z.div_mod pg 4096 ltac:(lia)). assert (va mod 4096 = va - pg) as ->.
  { symmetry. apply (Z.mod_unique va 4096 (pg / 4096)); lia. }
  rewrite Hb by lia. do 2 f_equal. lia.
Qed.


End props.

(** ** A program of three bytes *)

Definition sample_phdr : Elf64_Phdr := MkPhdr PT_LOAD 5 120 0x10010 3 10.
Definition sample_program : list Z :=
  [0x7f; 69; 76; 70] ++ replicate 20 0 ++ le_bytes 8 0x10010 ++ le_bytes 8 64 ++ replicate 16 0 ++ le_bytes 2 1 ++ replicate 6 0 ++
  le_bytes 4 PT_LOAD ++ le_bytes 4 5 ++ le_bytes 8 120 ++ le_bytes 8 0x10010 ++ replicate 8 0 ++ le_bytes 8 3 ++ le_bytes 8 10 ++ replicate 8 0 ++ [7; 8; 9].
Definition sample_file : mem := write_bytes 0x1000 sample_program ∅.

Lemma sample_file_bytes a b : sample_file !! a = Some b -> 0 <= b < 256.
Proof.
  unfold sample_file. rewrite write_bytes_lookup. case_decide; [|done]. intros Hb. apply list_elem_of_lookup_2 in Hb.
  assert (forallb (fun b => (0 <=? b) && (b <? 256)) sample_program = true) as F by (vm_compute; reflexivity).
  rewrite forallb_forall in F. apply list_elem_of_In, F, andb_true_iff in Hb. lia.
Qed.


(** The constructor for user tasks calls [LoadElf(nullptr, nullptr)]; nothing is mapped
    at address 0. *)
Lemma null_program {P : Paging} {U : UserPaging P} {A : Type} `{PageAllocator A} (m : mem) (s : Vm A) : m !! 0 = None -> LoadElf m 0 0 s = Halt s (BadPointer 0).
Proof. intros Hm. unfold LoadElf. cbn [bytes_are bind]. unfold rd. cbn [load_le]. by rewrite Hm. Qed.

(** Two segments of one page: the page of the second replaces the first. *)
Definition shared_program : list Z :=
  [0x7f; 69; 76; 70] ++ replicate 20 0 ++ le_bytes 8 0x10010 ++ le_bytes 8 64 ++ replicate 16 0 ++ le_bytes 2 2 ++ replicate 6 0 ++
  le_bytes 4 PT_LOAD ++ le_bytes 4 5 ++ le_bytes 8 176 ++ le_bytes 8 0x10010 ++ replicate 8 0 ++ le_bytes 8 1 ++ le_bytes 8 1 ++ replicate 8 0 ++
  le_bytes 4 PT_LOAD ++ le_bytes 4 6 ++ le_bytes 8 177 ++ le_bytes 8 0x10020 ++ replicate 8 0 ++ le_bytes 8 1 ++ le_bytes 8 1 ++ replicate 8 0 ++ [7; 8].
Example shared_page_is_lost :
  match LoadElf (write_bytes 0x1000 shared_program ∅) 0x1000 sample_root (sample_vm 8) with
  | Ret s r => r = 0x10010 /\ user_byte sample_root s 0x10020 = Some 8 /\ user_byte sample_root s 0x10010 = Some 0
  | Halt _ _ => False
  end.
Proof. vm_compute. repeat split. Qed.

End LoadElf.
