(* ===== verification/KernelElf.v ===== *)
(** * The kernel's own ELF image and backtraces: src/src/kernel_elf.cpp,
      src/src/arch/{riscv64,aarch64,x86_64}/backtrace.cpp

    The constructor of [KernelElf] reads the headers of the image and finds the
    symbol table; [backtrace] follows the frame pointers of a stack, [DumpStack]
    looks the addresses up.  The state is the byte memory; a read outside of it is
    the halt [BadPointer].  A span is a pair of an address and a length. *)

From stdpp Require Import base numbers list gmap strings.
From Stdlib Require Import ZArith Lia.
From S2P Require Import Prelude CMem CString Errors Libfdt.
Import CString.

Local Open Scope Z_scope.

Module KernelElf.

(** ** elf.h *)

Definition EI_NIDENT : Z := 16.
Definition EI_CLASS : Z := 4.
Definition ELFMAG : list Z := [0x7f; 69; 76; 70].
Definition ELFCLASS32 : Z := 1.
Definition ELFCLASS64 : Z := 2.
Definition STT_FUNC : Z := 2.
Definition ELF64_ST_TYPE (info : Z) : Z := Z.land info 0xf.
Definition sizeof_Shdr : Z := 64.
Definition sizeof_Sym : Z := 24.

(** The fields that the code uses. *)
Record Elf64_Ehdr := MkEhdr { e_phoff : Z; e_shoff : Z; e_phentsize : Z; e_phnum : Z; e_shentsize : Z; e_shnum : Z; e_shstrndx : Z }.
Record Elf64_Shdr := MkShdr { sh_name : Z; sh_offset : Z; sh_size : Z }.
Record Elf64_Sym := MkSym { st_name : Z; st_info : Z; st_value : Z; st_size : Z }.

(** ** Reading *)

Definition rd (n : nat) (p : Z) : M mem Z := fun m =>
  match load_le n m p with Some v => Ret m v | None => Halt m (BadPointer p) end.

Definition rd_ehdr (p : Z) : M mem Elf64_Ehdr :=
  let* phoff := rd 8 (p + 32) in
  let* shoff := rd 8 (p + 40) in
  let* phentsize := rd 2 (p + 54) in
  let* phnum := rd 2 (p + 56) in
  let* shentsize := rd 2 (p + 58) in
  let* shnum := rd 2 (p + 60) in
  let* shstrndx := rd 2 (p + 62) in
  ret (MkEhdr phoff shoff phentsize phnum shentsize shnum shstrndx).
Definition rd_shdr (p : Z) : M mem Elf64_Shdr :=
  let* name := rd 4 p in
  let* offset := rd 8 (p + 24) in
  let* size := rd 8 (p + 32) in
  ret (MkShdr name offset size).
Definition rd_sym (p : Z) : M mem Elf64_Sym :=
  let* name := rd 4 p in
  let* info := rd 1 (p + 4) in
  let* value := rd 8 (p + 8) in
  let* size := rd 8 (p + 16) in
  ret (MkSym name info value size).

(** The bytes at [p] are [s].  For a literal with its terminator this is
    [strcmp(p, s) == 0]. *)
Fixpoint bytes_are (p : Z) (s : list Z) : M mem bool :=
  match s with
  | [] => ret true
  | b :: s' => let* x := rd 1 p in if x =? b then bytes_are (p + 1) s' else ret false
  end.

(** ** KernelElf *)

Definition span : Type := Z * Z.
Record KernelElf := MkKernelElf { elf_ : span; ehdr_ : Elf64_Ehdr; phdr_ : span; shdr_ : span; symtab_ : span; strtab_ : Z }.

(** [||] stops at the first byte that differs. *)
Definition CheckElfMagic (elf : Z) : M mem (Expected unit) :=
  let* ok := bytes_are elf ELFMAG in
  ret (if ok : bool then Value tt else Unexpected kElfInvalidMagic).
Definition CheckElfClass (elf : Z) : M mem (Expected unit) :=
  let* cl := rd 1 (elf + EI_CLASS) in
  if cl =? ELFCLASS32 then ret (Unexpected kElfUnsupported32Bit)
  else if negb (cl =? ELFCLASS64) then ret (Unexpected kElfInvalidClass)
  else ret (Value tt).
Definition CheckElfIdentity (elf : Z) : M mem (Expected unit) :=
  let* r := CheckElfMagic elf in
  match r with
  | Unexpected e => ret (Unexpected e)
  | Value _ => CheckElfClass elf
  end.

(** Step three: the products are computed as [int]. *)
Definition table_end (off num entsize : Z) : Z := u64 (off + s32 (num * entsize)).

Fixpoint section_ends (n : nat) (p : Z) (max_size : Z) : M mem Z :=
  match n with
  | O => ret max_size
  | S n' =>
      let* offset := rd 8 (p + 24) in
      let* size := rd 8 (p + 32) in
      section_ends n' (p + sizeof_Shdr) (Z.max max_size (u64 (offset + size)))
  end.
Definition image_size (elf : Z) (h : Elf64_Ehdr) : M mem Z :=
  let max_size := if negb (e_phoff h =? 0) then Z.max EI_NIDENT (table_end (e_phoff h) (e_phnum h) (e_phentsize h)) else EI_NIDENT in
  if negb (e_shoff h =? 0) then
    section_ends (Z.to_nat (e_shnum h)) (elf + e_shoff h) (Z.max max_size (table_end (e_shoff h) (e_shnum h) (e_shentsize h)))
  else ret max_size.

(** Step five: the symbol table and its strings. *)
Fixpoint find_tables (n : nat) (elf shstrtab p : Z) (symtab : span) (strtab : Z) : M mem (span * Z) :=
  match n with
  | O => ret (symtab, strtab)
  | S n' =>
      let* shdr := rd_shdr p in
      let* is_symtab := bytes_are (shstrtab + sh_name shdr) (Libfdt.lit ".symtab"%string ++ [0]) in
      if is_symtab : bool then
        find_tables n' elf shstrtab (p + sizeof_Shdr) (elf + sh_offset shdr, sh_size shdr / sizeof_Sym) strtab
      else
        let* is_strtab := bytes_are (shstrtab + sh_name shdr) (Libfdt.lit ".strtab"%string ++ [0]) in
        find_tables n' elf shstrtab (p + sizeof_Shdr) symtab (if is_strtab : bool then elf + sh_offset shdr else strtab)
  end.

Definition new_kernel_elf (elf_addr : Z) : M mem KernelElf :=
  let* _ := nk_assert_msg (negb (elf_addr =? 0)) "Invalid elf_addr" in
  let* identity := CheckElfIdentity elf_addr in
  match identity with
  | Unexpected _ => halt_with Diverges
  | Value _ =>
      let* h := rd_ehdr elf_addr in
      let* max_size := image_size elf_addr h in
      let shdrs := elf_addr + e_shoff h in
      let* shstr := rd 8 (shdrs + sizeof_Shdr * e_shstrndx h + 24) in
      let* '(symtab, strtab) := find_tables (Z.to_nat (e_shnum h)) elf_addr (elf_addr + shstr) shdrs (0, 0) 0 in
      ret (MkKernelElf (elf_addr, max_size) h (elf_addr + e_phoff h, e_phnum h) (shdrs, e_shnum h) symtab strtab)
  end.
Definition GetElfSize (ke : KernelElf) : Z := snd (elf_ ke).

(** ** Backtraces *)

Definition kMaxFrameCount : nat := 128.

Section backtrace.
Context (executable_start etext : Z).

Definition in_text (a : Z) : bool := (executable_start <=? a) && (a <=? etext).

(** riscv64: the return address is below the frame pointer, the saved one below it. *)
Fixpoint backtrace_riscv64 (room : nat) (fp : Z) : M mem (list Z) :=
  match room with
  | O => ret []
  | S n =>
      if negb (Z.land fp 7 =? 0) then ret []
      else
        let* ra := rd 8 (fp - 8) in
        let* saved_fp := rd 8 (fp - 16) in
        if negb (in_text ra) then ret []
        else if saved_fp =? 0 then ret [ra]
        else let* rest := backtrace_riscv64 n saved_fp in ret (ra :: rest)
  end.

Fixpoint backtrace_x86_64 (room : nat) (rbp : Z) : M mem (list Z) :=
  if rbp =? 0 then ret []
  else
    let* saved := rd 8 rbp in
    if saved =? 0 then ret []
    else
      match room with
      | O => ret []
      | S n =>
          let* rip := rd 8 (rbp + 8) in
          if negb (in_text rip) then ret []
          else let* rest := backtrace_x86_64 n saved in ret (rip :: rest)
      end.

(** aarch64: the test is on the saved frame pointer. *)
Fixpoint backtrace_aarch64 (room : nat) (x29 : Z) : M mem (list Z) :=
  if x29 =? 0 then ret []
  else
    let* saved := rd 8 x29 in
    if negb (saved =? 0) && in_text saved then
      match room with
      | O => ret []
      | S n =>
          let* lr := rd 8 (x29 + 8) in
          let* rest := backtrace_aarch64 n saved in
          ret (lr :: rest)
      end
    else ret [].

End backtrace.

(** ** DumpStack: the lines that it prints, address and name *)

Fixpoint symbols_at (n : nat) (p strtab pc : Z) : M mem (list (Z * Z)) :=
  match n with
  | O => ret []
  | S n' =>
      let* s := rd_sym p in
      let* rest := symbols_at n' (p + sizeof_Sym) strtab pc in
      if (ELF64_ST_TYPE (st_info s) =? STT_FUNC) && (st_value s <=? pc) && (pc <=? u64 (st_value s + st_size s))
      then ret ((pc, strtab + st_name s) :: rest) else ret rest
  end.
Fixpoint name_frames (ke : KernelElf) (buffer : list Z) : M mem (list (Z * Z)) :=
  match buffer with
  | [] => ret []
  | pc :: rest =>
      let* l := symbols_at (Z.to_nat (snd (symtab_ ke))) (fst (symtab_ ke)) (strtab_ ke) pc in
      let* l' := name_frames ke rest in
      ret (l ++ l')
  end.
Definition DumpStack (backtrace : M mem (list Z)) (ke : KernelElf) : M mem (list (Z * Z)) :=
  let* buffer := backtrace in name_frames ke buffer.

End KernelElf.

(** * The kernel's ELF image and backtraces: what they give

    [elf_image] says that the memory holds an image with certain sections,
    [frames_at] that it holds a stack of frames.  On such memory the constructor
    finds the tables of the image, the walks return the return addresses, and a
    stack dump names the functions. *)

Module KernelElfProps.

Import CString KernelElf.

Implicit Types (m : mem) (p : Z).

Lemma rd_spec n m p v : load_le n m p = Some v -> rd n p m = Ret m v.
Proof. unfold rd. by intros ->. Qed.

Lemma rd_byte m p b : m !! p = Some b -> rd 1 p m = Ret m b.
Proof. intros Hb. apply rd_spec. cbn. rewrite Hb. cbn. f_equal. lia. Qed.

(** ** Names *)

Lemma bytes_are_cstr m name : forall s p, cstr_at m p name -> Forall (fun b => 0 < b) s ->
  bytes_are p (s ++ [0]) m = Ret m (bool_decide (name = s)).
Proof.
  induction name as [|x name IH]; intros [|b s] p Hc Hs; cbn [app bytes_are bind].
  - apply cstr_at_nil in Hc. by rewrite (rd_byte _ _ _ Hc).
  - apply cstr_at_nil in Hc. apply Forall_cons in Hs as [Hb _]. rewrite (rd_byte _ _ _ Hc), (proj2 (Z.eqb_neq 0 b)) by lia. done.
  - apply cstr_at_cons in Hc as (Hx & Hr & _). rewrite (rd_byte _ _ _ Hx), (proj2 (Z.eqb_neq x 0)) by lia. done.
  - apply cstr_at_cons in Hc as (Hx & Hr & Hc). apply Forall_cons in Hs as [_ Hs]. rewrite (rd_byte _ _ _ Hx). destruct (Z.eqb_spec x b) as [->|Hn].
    + rewrite (IH s (p + 1) Hc Hs). f_equal. apply bool_decide_ext. split; [by intros ->|by intros [= ->]].
    + rewrite bool_decide_false; [done|]. by intros [= -> _].
Qed.

(** The comparison of the model is [strcmp] of the C library. *)
Lemma bytes_are_strcmp m p q s1 s2 : cstr_at m p s1 -> cstr_at m q s2 ->
  exists r, strcmp p q m = Done r /\ bytes_are p (s2 ++ [0]) m = Ret m (r =? 0).
Proof.
  intros H1 H2. destruct (strcmp_loop_spec s1 s2 m p q (S (size m)) H1 H2) as (r & Er & Hc).
  { pose proof (cstr_at_size _ _ _ H1). lia. }
  exists r. split; [done|]. rewrite (bytes_are_cstr m s1) by (done || (destruct H2 as [_ H2]; eapply Forall_impl; [done|]; cbn; lia)). f_equal.
  apply Bool.eq_true_iff_eq. rewrite bool_decide_eq_true, Z.eqb_eq, <- lex_cmp_eq, <- Hc. by rewrite Z.compare_eq_iff.
Qed.

(** ** Identity *)

Definition identity (bs : list Z) : Expected unit :=
  if decide (take 4 bs = ELFMAG) then
    match bs !! 4%nat with
    | Some 1 => Unexpected kElfUnsupported32Bit
    | Some 2 => Value tt
    | _ => Unexpected kElfInvalidClass
    end
  else Unexpected kElfInvalidMagic.

Lemma bytes_are_prefix m s : forall p bs, bytes_at m p bs -> (length s <= length bs)%nat ->
  bytes_are p s m = Ret m (bool_decide (take (length s) bs = s)).
Proof.
  induction s as [|b s IH]; intros p [|x bs] Hb Hl; cbn [length take bytes_are bind] in *; try lia; try done.
  apply bytes_at_cons in Hb as [Hx Hb]. rewrite (rd_byte _ _ _ Hx). destruct (Z.eqb_spec x b) as [->|Hn].
  - rewrite (IH _ bs Hb) by lia. f_equal. apply bool_decide_ext. split; [by intros ->|by intros [= ->]].
  - rewrite bool_decide_false; [done|]. by intros [= -> _].
Qed.

(** [CheckElfIdentity] decides by the first five bytes, and the constructor returns
    for no image that it rejects. *)
Theorem elf_identity m a bs : bytes_at m a bs -> length bs = 16%nat ->
  CheckElfIdentity a m = Ret m (identity bs) /\
  (a <> 0 -> identity bs <> Value tt -> new_kernel_elf a m = Halt m Diverges).
Proof.
  intros Hb Hl. assert (CheckElfIdentity a m = Ret m (identity bs)) as E.
  { unfold CheckElfIdentity, CheckElfMagic, identity. cbn [bind]. rewrite (bytes_are_prefix m ELFMAG a bs Hb) by (cbn; lia). cbn [bind ret length ELFMAG].
    case_bool_decide as Hm; [rewrite decide_True by done|by rewrite decide_False by done]. unfold CheckElfClass. cbn [bind].
    destruct (lookup_lt_is_Some_2 bs 4) as [cl Hcl]; [lia|]. rewrite (rd_byte m (a + EI_CLASS) cl) by (by apply (Hb 4%nat)). rewrite Hcl.
    destruct (Z.eqb_spec cl ELFCLASS32) as [->|H1]; [done|]. destruct (Z.eqb_spec cl ELFCLASS64) as [->|H2]; [done|]. cbn [negb].
    unfold ELFCLASS32, ELFCLASS64 in *. destruct cl as [|[[]|[]|]|]; done. }
  split; [done|]. intros Ha Hi. unfold new_kernel_elf. cbn [bind nk_assert_msg]. rewrite (proj2 (Z.eqb_neq _ _) Ha). cbn [negb]. rewrite E. by destruct (identity bs) as [[]|].
Qed.

(** ** Images *)

Record section := MkSection { s_name : list Z; s_hdr : Elf64_Shdr }.

(** The header of section [s] at [p], its name in the table of names. *)
Record section_at m (names p : Z) (s : section) : Prop := {
  sec_name : load_le 4 m p = Some (sh_name (s_hdr s));
  sec_offset : load_le 8 m (p + 24) = Some (sh_offset (s_hdr s));
  sec_size : load_le 8 m (p + 32) = Some (sh_size (s_hdr s));
  sec_string : cstr_at m (names + sh_name (s_hdr s)) (s_name s);
  sec_room : 0 <= sh_offset (s_hdr s) + sh_size (s_hdr s) < 2 ^ 64
}.

Record elf_image m (a : Z) (h : Elf64_Ehdr) (secs : list section) (strs : section) : Prop := {
  im_ident : exists bs, bytes_at m a bs /\ length bs = 16%nat /\ identity bs = Value tt;
  im_phoff : load_le 8 m (a + 32) = Some (e_phoff h);
  im_shoff : load_le 8 m (a + 40) = Some (e_shoff h);
  im_phentsize : load_le 2 m (a + 54) = Some (e_phentsize h);
  im_phnum : load_le 2 m (a + 56) = Some (e_phnum h);
  im_shentsize : load_le 2 m (a + 58) = Some (e_shentsize h);
  im_shnum : load_le 2 m (a + 60) = Some (e_shnum h);
  im_shstrndx : load_le 2 m (a + 62) = Some (e_shstrndx h);
  im_count : e_shnum h = Z.of_nat (length secs);
  im_entsize : e_shentsize h = sizeof_Shdr;
  im_strs : 0 <= e_shstrndx h /\ secs !! Z.to_nat (e_shstrndx h) = Some strs;
  im_secs : forall i s, secs !! i = Some s -> section_at m (a + sh_offset (s_hdr strs)) (a + e_shoff h + sizeof_Shdr * Z.of_nat i) s;
  im_ph : 0 <= e_phoff h /\ 0 <= e_phnum h * e_phentsize h < 2 ^ 31 /\ e_phoff h + e_phnum h * e_phentsize h < 2 ^ 64;
  im_sh : 0 < e_shoff h /\ sizeof_Shdr * e_shnum h < 2 ^ 31 /\ e_shoff h + sizeof_Shdr * e_shnum h < 2 ^ 64
}.

(** The last section with a name. *)
Fixpoint last_named (name : list Z) (secs : list section) : option Elf64_Shdr :=
  match secs with
  | [] => None
  | s :: r =>
      match last_named name r with
      | Some h => Some h
      | None => if decide (s_name s = name) then Some (s_hdr s) else None
      end
  end.
Definition symtab_name : list Z := Libfdt.lit ".symtab"%string.
Definition strtab_name : list Z := Libfdt.lit ".strtab"%string.
Definition symtab_of (a : Z) (secs : list section) (d : span) : span :=
  match last_named symtab_name secs with Some h => (a + sh_offset h, sh_size h / sizeof_Sym) | None => d end.
Definition strtab_of (a : Z) (secs : list section) (d : Z) : Z :=
  match last_named strtab_name secs with Some h => a + sh_offset h | None => d end.

Definition section_end (s : section) : Z := sh_offset (s_hdr s) + sh_size (s_hdr s).
Definition size_of (h : Elf64_Ehdr) (secs : list section) : Z :=
  foldl Z.max EI_NIDENT ((if decide (e_phoff h = 0) then [] else [e_phoff h + e_phnum h * e_phentsize h]) ++
    [e_shoff h + sizeof_Shdr * e_shnum h] ++ (section_end <$> secs)).

Definition sections_at m (names p : Z) (secs : list section) : Prop :=
  forall i s, secs !! i = Some s -> section_at m names (p + sizeof_Shdr * Z.of_nat i) s.

Lemma sections_cons m names p s secs : sections_at m names p (s :: secs) -> section_at m names p s /\ sections_at m names (p + sizeof_Shdr) secs.
Proof.
  intros Hs. split.
  - specialize (Hs 0%nat s eq_refl). by rewrite Z.mul_0_r, Z.add_0_r in Hs.
  - intros i x Hi. specialize (Hs (S i) x Hi). replace (p + sizeof_Shdr + sizeof_Shdr * Z.of_nat i) with (p + sizeof_Shdr * Z.of_nat (S i)) by lia. done.
Qed.

Lemma section_ends_spec m names secs : forall p x, sections_at m names p secs ->
  section_ends (length secs) p x m = Ret m (foldl Z.max x (section_end <$> secs)).
Proof.
  induction secs as [|s secs IH]; intros p x Hs; cbn [length section_ends bind fmap list_fmap foldl]; [done|].
  apply sections_cons in Hs as [H1 Hs]. rewrite (rd_spec _ _ _ _ (sec_offset _ _ _ _ H1)), (rd_spec _ _ _ _ (sec_size _ _ _ _ H1)).
  rewrite u64_small by apply H1. by apply IH.
Qed.

Lemma names_positive : Forall (fun b => 0 < b) symtab_name /\ Forall (fun b => 0 < b) strtab_name.
Proof. split; repeat constructor. Qed.

Lemma find_tables_spec m a names secs : forall p sym str, sections_at m names p secs ->
  find_tables (length secs) a names p sym str m = Ret m (symtab_of a secs sym, strtab_of a secs str).
Proof.
  induction secs as [|s secs IH]; intros p sym str Hs; cbn [length find_tables]; [done|].
  apply sections_cons in Hs as [H1 Hs]. unfold rd_shdr. cbn [bind].
  rewrite (rd_spec _ _ _ _ (sec_name _ _ _ _ H1)), (rd_spec _ _ _ _ (sec_offset _ _ _ _ H1)), (rd_spec _ _ _ _ (sec_size _ _ _ _ H1)). cbn [bind ret sh_name sh_offset sh_size].
  destruct names_positive as [N1 N2]. fold symtab_name strtab_name.
  rewrite (bytes_are_cstr m _ symtab_name _ (sec_string _ _ _ _ H1) N1). unfold symtab_of, strtab_of. cbn [last_named].
  case_bool_decide as E1.
  - rewrite IH by done. unfold symtab_of, strtab_of. rewrite decide_True, decide_False by (done || by rewrite E1).
    destruct (last_named symtab_name secs), (last_named strtab_name secs); done.
  - cbn [bind]. rewrite (bytes_are_cstr m _ strtab_name _ (sec_string _ _ _ _ H1) N2). rewrite IH by done. unfold symtab_of, strtab_of. rewrite decide_False by done.
    case_bool_decide as E2; [rewrite decide_True by done|rewrite decide_False by done];
      destruct (last_named symtab_name secs), (last_named strtab_name secs); done.
Qed.

Lemma table_end_small off n e : 0 <= off -> 0 <= n * e < 2 ^ 31 -> off + n * e < 2 ^ 64 -> table_end off n e = off + n * e.
Proof. intros Ho Hn Hr. unfold table_end. rewrite s32_small by done. apply u64_small. lia. Qed.

Lemma image_size_spec m a h secs strs : elf_image m a h secs strs -> image_size a h m = Ret m (size_of h secs).
Proof.
  intros I. destruct (im_ph _ _ _ _ _ I) as (P1 & P2 & P3). destruct (im_sh _ _ _ _ _ I) as (S1 & S2 & S3). pose proof (im_count _ _ _ _ _ I) as Hc.
  unfold image_size, size_of. rewrite (proj2 (Z.eqb_neq (e_shoff h) 0)) by lia. cbn [negb].
  rewrite (table_end_small (e_shoff h)) by (rewrite ?(im_entsize _ _ _ _ _ I); unfold sizeof_Shdr in *; lia).
  rewrite (im_entsize _ _ _ _ _ I), (Z.mul_comm (e_shnum h)), Hc, Nat2Z.id. rewrite !foldl_app. cbn [foldl].
  rewrite (section_ends_spec m (a + sh_offset (s_hdr strs)) secs) by exact (im_secs _ _ _ _ _ I). do 2 f_equal.
  destruct (Z.eqb_spec (e_phoff h) 0) as [E|E]; cbn [negb].
  - by rewrite decide_True by done.
  - rewrite decide_False by done. by rewrite table_end_small by lia.
Qed.

(** The constructor on an image: the span covers the headers and all sections, the
    tables are the last sections with their names. *)
Lemma new_kernel_elf_spec m a h secs strs : a <> 0 -> elf_image m a h secs strs ->
  new_kernel_elf a m = Ret m (MkKernelElf (a, size_of h secs) h (a + e_phoff h, e_phnum h) (a + e_shoff h, e_shnum h) (symtab_of a secs (0, 0)) (strtab_of a secs 0)).
Proof.
  intros Ha I. destruct (im_ident _ _ _ _ _ I) as (bs & Hb & Hl & Hi). destruct (im_strs _ _ _ _ _ I) as [Hn Hs].
  unfold new_kernel_elf. cbn [bind nk_assert_msg]. rewrite (proj2 (Z.eqb_neq _ _) Ha). cbn [negb].
  assert (CheckElfIdentity a m = Ret m (Value tt)) as ->.
  { rewrite <- Hi. by apply elf_identity. }
  unfold rd_ehdr. cbn [bind]. rewrite (rd_spec _ _ _ _ (im_phoff _ _ _ _ _ I)), (rd_spec _ _ _ _ (im_shoff _ _ _ _ _ I)), (rd_spec _ _ _ _ (im_phentsize _ _ _ _ _ I)),
    (rd_spec _ _ _ _ (im_phnum _ _ _ _ _ I)), (rd_spec _ _ _ _ (im_shentsize _ _ _ _ _ I)), (rd_spec _ _ _ _ (im_shnum _ _ _ _ _ I)), (rd_spec _ _ _ _ (im_shstrndx _ _ _ _ _ I)).
  cbn [bind ret]. replace (MkEhdr _ _ _ _ _ _ _) with h by (by destruct h). rewrite (image_size_spec _ _ _ _ _ I). cbn [bind].
  pose proof (im_secs _ _ _ _ _ I _ _ Hs) as Hstr. rewrite Z2Nat.id in Hstr by done. rewrite (rd_spec _ _ _ _ (sec_offset _ _ _ _ Hstr)).
  rewrite (im_count _ _ _ _ _ I) at 1. rewrite Nat2Z.id. by rewrite (find_tables_spec m a _ secs) by exact (im_secs _ _ _ _ _ I).
Qed.

(** ** Stacks *)

(** A chain of frames that satisfy [good], innermost first, with their return
    addresses; the saved frame pointer of the outermost frame is 0. *)
Inductive frames_at m (good : Z -> Prop) (fp_off ra_off : Z) : Z -> list Z -> Prop :=
| outermost fp ra : good fp -> load_le 8 m (fp + fp_off) = Some 0 -> load_le 8 m (fp + ra_off) = Some ra -> frames_at m good fp_off ra_off fp [ra]
| inner fp fp' ra l : good fp -> load_le 8 m (fp + fp_off) = Some fp' -> fp' <> 0 -> load_le 8 m (fp + ra_off) = Some ra ->
    frames_at m good fp_off ra_off fp' l -> frames_at m good fp_off ra_off fp (ra :: l).

Fixpoint take_while (P : Z -> bool) (l : list Z) : list Z :=
  match l with
  | [] => []
  | x :: r => if P x then x :: take_while P r else []
  end.

Section stacks.
Context (executable_start etext : Z).
Abbreviation in_text := (in_text executable_start etext) (only parsing).

Lemma backtrace_riscv64_spec m fp l : frames_at m (fun fp => Z.land fp 7 = 0) (-16) (-8) fp l ->
  forall n, backtrace_riscv64 executable_start etext n fp m = Ret m (take n (take_while in_text l)).
Proof.
  induction 1 as [fp ra Hg Hf Hr|fp fp' ra l Hg Hf Hn Hr _ IH]; intros [|n]; try done;
    cbn [backtrace_riscv64 take_while]; rewrite Hg; cbn [Z.eqb negb bind]; change (fp - 8) with (fp + -8); change (fp - 16) with (fp + -16);
    rewrite (rd_spec _ _ _ _ Hr), (rd_spec _ _ _ _ Hf); (destruct (in_text ra); [|done]); cbn [negb].
  - cbn. by rewrite take_nil.
  - rewrite (proj2 (Z.eqb_neq _ _) Hn). cbn [bind]. by rewrite IH.
Qed.

Lemma backtrace_x86_64_spec m fp l : frames_at m (fun fp => fp <> 0) 0 8 fp l ->
  forall n, backtrace_x86_64 executable_start etext n fp m = Ret m (take n (take_while in_text (removelast l))).
Proof.
  induction 1 as [fp ra Hg Hf Hr|fp fp' ra l Hg Hf Hn Hr F IH]; intros n; rewrite Z.add_0_r in Hf.
  - destruct n; cbn; rewrite (proj2 (Z.eqb_neq _ _) Hg); cbn [bind]; by rewrite (rd_spec _ _ _ _ Hf).
  - assert (removelast (ra :: l) = ra :: removelast l) as -> by (by destruct F).
    destruct n as [|n]; cbn [backtrace_x86_64 take_while]; rewrite (proj2 (Z.eqb_neq _ _) Hg); cbn [bind];
      rewrite (rd_spec _ _ _ _ Hf), (proj2 (Z.eqb_neq _ _) Hn); [done|]. cbn [bind]. rewrite (rd_spec _ _ _ _ Hr).
    destruct (in_text ra); [|done]. cbn [negb bind]. by rewrite IH.
Qed.

(** With a stack outside the text the test on the saved frame pointer fails at once. *)
Lemma backtrace_aarch64_spec m fp l n : frames_at m (fun fp => fp <> 0 /\ in_text fp = false) 0 8 fp l ->
  backtrace_aarch64 executable_start etext n fp m = Ret m [].
Proof.
  assert (forall fp v, fp <> 0 -> load_le 8 m (fp + 0) = Some v -> v = 0 \/ in_text v = false -> backtrace_aarch64 executable_start etext n fp m = Ret m []) as Hstop.
  { intros f v Hf Hv Hs. rewrite Z.add_0_r in Hv. destruct n; cbn [backtrace_aarch64]; rewrite (proj2 (Z.eqb_neq _ _) Hf); cbn [bind]; rewrite (rd_spec _ _ _ _ Hv);
      (destruct Hs as [->|Hs]; [done|by rewrite Hs, andb_false_r]). }
  intros [f ra [Hf _] Hv _|f f' ra l' [Hf _] Hv _ _ F]; [by eapply Hstop; auto|]. eapply Hstop; [done..|]. right. by destruct F as [? ? [_ ?]|? ? ? ? [_ ?]].
Qed.

(** ** Dumps *)

Definition symbol_at m p (s : Elf64_Sym) : Prop :=
  load_le 4 m p = Some (st_name s) /\ load_le 1 m (p + 4) = Some (st_info s) /\ load_le 8 m (p + 8) = Some (st_value s) /\
  load_le 8 m (p + 16) = Some (st_size s) /\ 0 <= st_value s + st_size s < 2 ^ 64.
Definition symbols_in m p (syms : list Elf64_Sym) : Prop := forall i s, syms !! i = Some s -> symbol_at m (p + sizeof_Sym * Z.of_nat i) s.

Definition covers (pc : Z) (s : Elf64_Sym) : bool :=
  (ELF64_ST_TYPE (st_info s) =? STT_FUNC) && (st_value s <=? pc) && (pc <=? st_value s + st_size s).
Definition lines (strtab : Z) (syms : list Elf64_Sym) (pcs : list Z) : list (Z * Z) :=
  pcs ≫= (fun pc => (fun s => (pc, strtab + st_name s)) <$> List.filter (covers pc) syms).

Lemma symbols_at_spec m strtab pc syms : forall p, symbols_in m p syms ->
  symbols_at (length syms) p strtab pc m = Ret m ((fun s => (pc, strtab + st_name s)) <$> List.filter (covers pc) syms).
Proof.
  induction syms as [|s syms IH]; intros p Hs; [done|]. cbn [length symbols_at]. unfold rd_sym. cbn [bind].
  destruct (Hs 0%nat s eq_refl) as (H1 & H2 & H3 & H4 & H5). rewrite Z.mul_0_r, Z.add_0_r in H1, H2, H3, H4.
  rewrite (rd_spec _ _ _ _ H1), (rd_spec _ _ _ _ H2), (rd_spec _ _ _ _ H3), (rd_spec _ _ _ _ H4). cbn [bind ret st_info st_value st_size st_name].
  rewrite IH.
  - cbn [bind List.filter]. rewrite u64_small by done. change (covers pc s) with ((ELF64_ST_TYPE (st_info s) =? STT_FUNC) && (st_value s <=? pc) && (pc <=? st_value s + st_size s)).
    by destruct (_ && _ && _).
  - intros i x Hi. specialize (Hs (S i) x Hi). by replace (p + sizeof_Sym + sizeof_Sym * Z.of_nat i) with (p + sizeof_Sym * Z.of_nat (S i)) by lia.
Qed.

Lemma name_frames_spec m ke syms pcs : snd (symtab_ ke) = Z.of_nat (length syms) -> symbols_in m (fst (symtab_ ke)) syms ->
  name_frames ke pcs m = Ret m (lines (strtab_ ke) syms pcs).
Proof.
  intros Hn Hs. induction pcs as [|pc pcs IH]; [done|]. cbn [name_frames bind]. rewrite Hn, Nat2Z.id, (symbols_at_spec m _ _ syms) by done. cbn [bind]. by rewrite IH.
Qed.

End stacks.

(** C26: dumping the stack.  The memory holds the image of the kernel with a symbol table and
    its strings.  The constructor returns, and [DumpStack] prints for every return
    address of the stack, up to the first one outside of the text and up to 128, the
    functions whose range has it, ends included.  On x86_64 the outermost frame is
    left out; on aarch64, with the stack outside of the text, nothing is printed. *)
Theorem stack_dump_names_callers m a h secs strs symtab strtab syms start etext fp l : a <> 0 -> elf_image m a h secs strs ->
  last_named symtab_name secs = Some symtab -> last_named strtab_name secs = Some strtab ->
  sh_size symtab = sizeof_Sym * Z.of_nat (length syms) -> symbols_in m (a + sh_offset symtab) syms ->
  exists ke, new_kernel_elf a m = Ret m ke /\ GetElfSize ke = size_of h secs /\
    (frames_at m (fun fp => Z.land fp 7 = 0) (-16) (-8) fp l ->
     DumpStack (backtrace_riscv64 start etext kMaxFrameCount fp) ke m =
     Ret m (lines (a + sh_offset strtab) syms (take 128 (take_while (in_text start etext) l)))) /\
    (frames_at m (fun fp => fp <> 0) 0 8 fp l ->
     DumpStack (backtrace_x86_64 start etext kMaxFrameCount fp) ke m =
     Ret m (lines (a + sh_offset strtab) syms (take 128 (take_while (in_text start etext) (removelast l))))) /\
    (frames_at m (fun fp => fp <> 0 /\ in_text start etext fp = false) 0 8 fp l ->
     DumpStack (backtrace_aarch64 start etext kMaxFrameCount fp) ke m = Ret m []).
Proof.
  intros Ha I Hsym Hstr Hsize Hsyms. eexists. split; [by apply (new_kernel_elf_spec m a h secs strs)|].
  split; [done|]. set (ke := MkKernelElf _ _ _ _ _ _).
  assert (forall pcs, name_frames ke pcs m = Ret m (lines (a + sh_offset strtab) syms pcs)) as Hlines.
  { intros pcs. rewrite (name_frames_spec m ke syms); unfold ke, symtab_of, strtab_of; cbn [symtab_ strtab_]; rewrite ?Hsym, ?Hstr; cbn [fst snd]; [done| |done].
    rewrite Hsize, Z.mul_comm. by apply Z.div_mul. }
  unfold DumpStack. cbn [bind]. split_and!; intros F.
  - by rewrite (backtrace_riscv64_spec _ _ _ _ _ F).
  - by rewrite (backtrace_x86_64_spec _ _ _ _ _ F).
  - by rewrite (backtrace_aarch64_spec _ _ _ _ _ _ F).
Qed.

(** ** An image with one function, and a stack of two frames *)

Definition sample_secs : list section :=
  [MkSection (Libfdt.lit ".shstrtab"%string) (MkShdr 17 256 27); MkSection symtab_name (MkShdr 1 320 24); MkSection strtab_name (MkShdr 9 352 6)].
Definition shdr_bytes (h : Elf64_Shdr) : list Z :=
  le_bytes 4 (sh_name h) ++ replicate 20 0 ++ le_bytes 8 (sh_offset h) ++ le_bytes 8 (sh_size h) ++ replicate 24 0.
Definition sample_main : Elf64_Sym := MkSym 1 0x12 0x2000 0x100.
Definition sample_image_bytes : list Z :=
  ELFMAG ++ [2] ++ replicate 27 0 ++ le_bytes 8 0 ++ le_bytes 8 64 ++ replicate 6 0 ++ le_bytes 2 56 ++ le_bytes 2 0 ++ le_bytes 2 64 ++ le_bytes 2 3 ++ le_bytes 2 0 ++
  concat (shdr_bytes ∘ s_hdr <$> sample_secs) ++
  [0] ++ symtab_name ++ [0] ++ strtab_name ++ [0] ++ Libfdt.lit ".shstrtab"%string ++ [0] ++ replicate 37 0 ++
  le_bytes 4 1 ++ [0x12] ++ replicate 3 0 ++ le_bytes 8 0x2000 ++ le_bytes 8 0x100 ++ replicate 8 0 ++
  [0] ++ Libfdt.lit "main"%string ++ [0].
Definition sample_stack_frame (fp saved ra : Z) : mem -> mem := fun m => write_bytes (fp - 16) (le_bytes 8 saved ++ le_bytes 8 ra ++ le_bytes 8 saved ++ le_bytes 8 ra) m.
Definition sample_elf : mem := sample_stack_frame 0x9000 0x9100 0x2010 (sample_stack_frame 0x9100 0 0x2020 (write_bytes 0x1000 sample_image_bytes ∅)).

Fixpoint bytes_atb m p (bs : list Z) : bool :=
  match bs with
  | [] => true
  | b :: r => bool_decide (m !! p = Some b) && bytes_atb m (p + 1) r
  end.
Lemma bytes_atb_sound m bs : forall p, bytes_atb m p bs = true -> bytes_at m p bs.
Proof.
  induction bs as [|b bs IH]; intros p; cbn [bytes_atb]; [intros _; apply bytes_at_nil|]. intros [Hb%bool_decide_eq_true Hr]%andb_true_iff.
  apply bytes_at_cons. split; [done|by apply IH].
Qed.

Lemma sample_section i s : sample_secs !! i = Some s -> section_at sample_elf (0x1000 + 256) (0x1000 + 64 + sizeof_Shdr * Z.of_nat i) s.
Proof.
  assert (forall x, bytes_atb sample_elf (0x1000 + 256 + sh_name (s_hdr x)) (s_name x ++ [0]) = true -> forallb (fun b => (0 <? b) && (b <? 256)) (s_name x) = true ->
    cstr_at sample_elf (0x1000 + 256 + sh_name (s_hdr x)) (s_name x)) as Hc.
  { intros x H1 H2. split; [by apply bytes_atb_sound|]. apply Forall_forall. intros b Hb. rewrite forallb_forall in H2. apply list_elem_of_In, H2, andb_true_iff in Hb.
    rewrite !Z.ltb_lt in Hb. done. }
  intros Hi. do 3 (destruct i as [|i]; [injection Hi as <-; split; [vm_compute; reflexivity..|apply Hc; vm_compute; reflexivity|cbn; lia]|]). done.
Qed.

Lemma sample_image : elf_image sample_elf 0x1000 (MkEhdr 0 64 56 0 64 3 0) sample_secs (MkSection (Libfdt.lit ".shstrtab"%string) (MkShdr 17 256 27)).
Proof.
  split; try (vm_compute; reflexivity); try (cbn; unfold sizeof_Shdr; lia).
  - exists (take 16 sample_image_bytes). split_and!; [apply bytes_atb_sound; vm_compute; reflexivity|vm_compute; reflexivity..].
  - done.
  - apply sample_section.
Qed.

Lemma stack_dump_names_callers_witness :
  exists ke, new_kernel_elf 0x1000 sample_elf = Ret sample_elf ke /\ GetElfSize ke = 358 /\
    DumpStack (backtrace_riscv64 0x2000 0x3000 kMaxFrameCount 0x9000) ke sample_elf = Ret sample_elf [(0x2010, 0x1161); (0x2020, 0x1161)] /\
    DumpStack (backtrace_x86_64 0x2000 0x3000 kMaxFrameCount 0x9000) ke sample_elf = Ret sample_elf [(0x2010, 0x1161)] /\
    DumpStack (backtrace_aarch64 0x2000 0x3000 kMaxFrameCount 0x9000) ke sample_elf = Ret sample_elf [].
Proof.
  destruct (stack_dump_names_callers sample_elf 0x1000 _ _ _ (MkShdr 1 320 24) (MkShdr 9 352 6) [sample_main] 0x2000 0x3000 0x9000 [0x2010; 0x2020]
    ltac:(discriminate) sample_image eq_refl eq_refl eq_refl) as (ke & E & Hsize & R & X & A).
  - intros [|i] s Hi; [|done]. injection Hi as <-. split_and!; try (vm_compute; reflexivity); cbn; lia.
  - exists ke. split; [exact E|]. split; [exact Hsize|]. split_and!.
    + apply R. apply (inner _ _ _ _ 0x9000 0x9100); [reflexivity|vm_compute; reflexivity|discriminate|vm_compute; reflexivity|].
      apply outermost; [reflexivity|vm_compute; reflexivity|vm_compute; reflexivity].
    + apply X. apply (inner _ _ _ _ 0x9000 0x9100); [discriminate|vm_compute; reflexivity|discriminate|vm_compute; reflexivity|].
      apply outermost; [discriminate|vm_compute; reflexivity|vm_compute; reflexivity].
    + apply A. apply (inner _ _ _ _ 0x9000 0x9100); [split; [discriminate|reflexivity]|vm_compute; reflexivity|discriminate|vm_compute; reflexivity|].
      apply outermost; [split; [discriminate|reflexivity]|vm_compute; reflexivity|vm_compute; reflexivity].
Defined.

End KernelElfProps.
